(* ===== verification/_CoqProject ===== *)
-Q . S2P
Prelude.v
Serialize.v
StrEncodings.v
Amount.v
Crypto.v
Script.v
Transaction.v
Cash.v
TxDb.v
CashRefinement.v
ArithUint256.v
Block.v
Chain.v
Pow.v
VersionBits.v
Merkle.v
Interpreter.v
InterpreterSafety.v
InterpreterSoftFork.v
InterpreterSpec.v
SigHash.v
TxVerify.v
Compressor.v
CheckBlock.v
Connect.v
ConnectSpec.v
ConnectProps.v
CheckQueue.v
ChainState.v
ChainGrowth.v
ChainStateInv.v
ChainActivate.v
ChainAccept.v
ChainManual.v
Networks.v
ChainNode.v
Replay.v
