(* ===== verification/Prelude.v ===== *)
(** * A verification library for SalemCash

    SalemCash is a node for a chain of blocks of transactions. This library
    models the parts of it that decide which transactions, headers and blocks
    are valid and what they do to the set of unspent outputs, down to the bytes
    and the machine integers, and proves what makes them correct. File and
    function names below are those under src/.

    ** How the code is modelled

    Functions of the source are functions here, under the same name where it is
    free. A [w]-bit integer is a [Z] with its conversions written out ([u32],
    [i64], ...); a byte string is a [list Z]; a map is a [gmap]; an exception or
    a failed assertion is [Throw] of the type [result] (this file), a rejection
    with its score and reason is [Invalid] of [verdict] (TxVerify), a script
    error is a value of the monad of Interpreter. An object that is changed in
    place is passed and returned; pointers between block index entries are
    addresses into a heap (Chain); threads are a step relation (CheckQueue).
    Loops over a list recurse on it. Other loops have a bound that is an
    argument of the recursion, and a lemma shows that the bound is never
    reached: the length of the script for the interpreter, the height for walks
    in the chain, the number of limbs or bits for arithmetic.

    ** Files

    - Prelude: machine integers, [result], byte strings, tactics, hints.
    - Serialize (serialize.h, streams.h): streams, compact sizes, VarInts,
      vectors; a codec is a writer with a reader, and the class [CodecOk] states
      that they are inverse, which the files below instantiate.
    - StrEncodings (utilstrencodings.h, utilstrencodings.cpp, uint256.cpp):
      hexadecimal text.
    - Amount (amount.h, feerate.cpp), Crypto (sha256.cpp, sha512.cpp, sha1.cpp,
      ripemd160.cpp, hmac_*.cpp, hash.h), ArithUint256 (arith_uint256.cpp).
    - Script (script.h, script.cpp), Transaction (transaction.h), Block (block.h).
    - Cash (cash.h, cash.cpp): the class [CashView] is the interface of a view of
      the unspent outputs, [CashViewOk] its laws; [CCashViewCache] is a client
      and an instance of it. TxDb (txdb.cpp) is the view of the database.
      CashRefinement: both behave like a map.
    - Chain (chain.h, chain.cpp and AddToBlockIndex of validation.cpp), Pow
      (pow.cpp), VersionBits (versionbits.cpp), Merkle (merkle.cpp).
    - Interpreter (interpreter.cpp), with its theorems in InterpreterSafety,
      InterpreterSoftFork and InterpreterSpec; SigHash (the signature hashes and
      checkers of interpreter.cpp, pubkey.h, sigcache.cpp).
    - TxVerify (tx_verify.cpp), Compressor (compressor.cpp, undo.h), CheckBlock
      (block and header checks of validation.cpp, checkpoints.cpp).
    - Connect (ConnectBlock, DisconnectBlock and what they call in
      validation.cpp), ConnectSpec (the rules of connecting a block, stated over
      maps), ConnectProps (the theorems).
    - CheckQueue (checkqueue.h).
    - ChainState (class CChainState of validation.cpp): the index with the blocks
      received, the candidates for the tip, the active chain and its view, and
      the operations on them: LoadGenesisBlock, ProcessNewBlockHeaders,
      ProcessNewBlock with AcceptBlock and ReceivedBlockTransactions,
      ActivateBestChain with all it calls, FlushStateToDisk, PreciousBlock,
      InvalidateBlock and ResetBlockFailureFlags. ChainGrowth: how the index
      grows; ChainStateInv: the invariant, and what a chain of valid blocks is;
      ChainActivate: activation; ChainAccept: headers and blocks that arrive;
      ChainManual: blocks declared invalid by hand; ChainNode: the whole node from
      an empty database.
    - Networks (chainparams.cpp): the main network, the test network and the
      regression test mode, and that they are networks as ChainNode takes them.
    - Replay (RollforwardBlock and ReplayBlocks of validation.cpp): the repair of
      the database after an interrupted write.

    ** What is shown

    - A node that starts with the genesis block and is sent headers, blocks and
      commands to take blocks for invalid, in any order, never fails an
      assertion; its active chain is always a chain of valid blocks, none with
      more work is stored that has no block declared invalid, its view is the set
      of outputs that chain leaves, and a block declared invalid never returns
      (ChainNode). The limits of this are below. The number of steps an activation takes is bounded by the
      number of headers times the number of index entries, which is the bound the
      loop is given. Reconsidering a block can leave the index in a state where
      the next header fails an assertion: an example shows it.
    - However often the write of the database is interrupted, and the repair too,
      ReplayBlocks ends with exactly the outputs of the new chain (Replay).
    - A block none of whose transactions names an input twice is connected exactly
      when it satisfies the rules; the view then holds the effects of its transactions, the total value grows by no more
      than the subsidy, disconnecting restores the view, and checking scripts in
      threads changes nothing (ConnectProps). The queue of script checks answers
      right and always returns, for every schedule (CheckQueue).
    - Whatever headers arrive, the block index is a well-formed tree of headers
      with proof of work, required targets and increasing median times
      (CheckBlock, Chain, Pow); deployments follow BIP 9 (VersionBits).
    - Script evaluation always ends, within its limits, without a failed
      assertion; script flags only restrict; signature checking operations and
      standard forms do what they are specified to do; signature hashes bind
      what they should and equal the original algorithm (Interpreter*, SigHash).
    - The cache over the database implements a map, flushing moves its contents,
      and a crash between two batches of a write is recoverable (Cash*, TxDb).
    - Codecs round-trip and accept nothing but what they write; limb arithmetic
      is arithmetic modulo 2^256; merkle roots bind their leaves up to
      collisions; hashing does not depend on how the input is split.
    - No hash is assumed to be injective. Where a hash must not collide, a theorem
      says that two values are equal or exhibits the collision; those on blocks
      assume it of the ids of the transactions of one block.

    ** Assumptions

    Code that is not in the repository or belongs to a bundled library is an
    argument of the definitions: verification of an ECDSA signature, the low-S
    test and the decompression of a public key (libsecp256k1), the key-value
    store (LevelDB) and the memory a script takes. What is assumed of them is a
    named class or hypothesis, with an instance that satisfies it. The weight of
    a block (consensus/validation.h, not among the files), the clock, the memory
    in use and the positions in the block files are arguments without any
    assumption.

    The theorems on connecting blocks and on the node have limits that the code
    does not check, or that real chains keep.
    - No transaction names an input twice. CheckBlock does not look for it, and an
      example shows a block that creates value this way (ConnectProps).
    - Segregated witness is in force only at heights where BIP 16 is, which the
      code asserts when it counts signature operations, and a block that BIP 30 is
      not enforced for overwrites no output. For the node these are conditions on
      the chains that what arrives can make ([arrivals_ok] in ChainStateInv). They
      hold on the test network and in the regression test mode for all headers
      whose hashes are not BIP34Hash or one of the two exceptions of ConnectBlock,
      for which BIP 30 is always enforced, and on the main network for those of
      them from before the deployment of segregated witness begins (Networks).
    - No block is assumed valid (-assumevalid=0): with an assumed valid block the
      verdict on a block depends on the best header at the time.
    - Values are in the ranges of their types, no header hashes to zero or stands
      for more than 2^224 hashes, and there are fewer than 2^30 headers and 2^32
      transactions, so that heights, work and counters do not wrap around.
    - Files are read and written without errors. ConnectBlock itself has the
      outcomes of failed writes, which are errors and no verdicts.

    ** Not modelled

    Block files as bytes on a disk, their pruning, and loading and rewinding
    the index at start-up; the memory pool, fee estimation and relay
    policy, mining, network messages and peers, the wallet and its keys and
    addresses, the interfaces (RPC, REST, GUI), start-up and utilities, and the
    bundled libraries. Locks other than those of the queue, log lines, timing,
    notifications and text for people are left out of the functions that are
    modelled. *)
From Stdlib Require Export ZArith Lia.
From stdpp Require Export base tactics list gmap strings numbers.
Open Scope Z_scope.

Create HintDb salem.

(** ** Machine integers

    A [w]-bit C++ integer is a [Z]; these functions are the conversions the
    source applies implicitly (unsigned wrap-around, two's complement). *)
Definition u8 (z : Z) : Z := z mod 2 ^ 8.
Definition u16 (z : Z) : Z := z mod 2 ^ 16.
Definition u32 (z : Z) : Z := z mod 2 ^ 32.
Definition u64 (z : Z) : Z := z mod 2 ^ 64.
Definition i32 (z : Z) : Z := (z + 2 ^ 31) mod 2 ^ 32 - 2 ^ 31.
Definition i64 (z : Z) : Z := (z + 2 ^ 63) mod 2 ^ 64 - 2 ^ 63.

Definition INT32_MAX : Z := 2 ^ 31 - 1.
Definition UINT32_MAX : Z := 2 ^ 32 - 1.
Definition INT64_MAX : Z := 2 ^ 63 - 1.
Definition UINT64_MAX : Z := 2 ^ 64 - 1.

Definition is_u32 (z : Z) : Prop := 0 <= z < 2 ^ 32.
Definition is_u64 (z : Z) : Prop := 0 <= z < 2 ^ 64.
Definition is_i32 (z : Z) : Prop := - 2 ^ 31 <= z < 2 ^ 31.
Definition is_i64 (z : Z) : Prop := - 2 ^ 63 <= z < 2 ^ 63.

Lemma u8_small z : 0 <= z < 2 ^ 8 -> u8 z = z.
Proof. apply Z.mod_small. Qed.

Lemma u16_small z : 0 <= z < 2 ^ 16 -> u16 z = z.
Proof. apply Z.mod_small. Qed.

Lemma u32_small z : is_u32 z -> u32 z = z.
Proof. apply Z.mod_small. Qed.

Lemma u64_small z : is_u64 z -> u64 z = z.
Proof. apply Z.mod_small. Qed.

Lemma i32_small z : is_i32 z -> i32 z = z.
Proof. unfold is_i32. intros H. unfold i32. rewrite Z.mod_small; lia. Qed.

Lemma i64_small z : is_i64 z -> i64 z = z.
Proof. unfold is_i64. intros H. unfold i64. rewrite Z.mod_small; lia. Qed.

Lemma u32_range z : is_u32 (u32 z).
Proof. apply Z.mod_pos_bound. lia. Qed.

Lemma u64_range z : is_u64 (u64 z).
Proof. apply Z.mod_pos_bound. lia. Qed.

Lemma i32_range z : is_i32 (i32 z).
Proof. unfold is_i32, i32. pose proof (Z.mod_pos_bound (z + 2 ^ 31) (2 ^ 32)). lia. Qed.

Lemma i64_range z : is_i64 (i64 z).
Proof. unfold is_i64, i64. pose proof (Z.mod_pos_bound (z + 2 ^ 63) (2 ^ 64)). lia. Qed.

(** Reading an unsigned word back as the signed value it was written from. *)
Lemma i32_u32 z : is_i32 z -> i32 (u32 z) = z.
Proof.
  unfold is_i32, i32, u32. intros H.
  rewrite Zplus_mod_idemp_l, Z.mod_small; lia.
Qed.

Lemma i64_u64 z : is_i64 z -> i64 (u64 z) = z.
Proof.
  unfold is_i64, i64, u64. intros H.
  rewrite Zplus_mod_idemp_l, Z.mod_small; lia.
Qed.

#[export] Hint Resolve u32_range u64_range i32_range i64_range : salem.

(** ** Exceptions

    The exceptions the source throws, and the outcome of an operation that
    can throw. [assert_failed] is a failed [assert], which aborts. *)
Inductive Exn :=
  | ios_failure (msg : string)
  | logic_error (msg : string)
  | runtime_error (msg : string)
  | scriptnum_error (msg : string)
  | uint_error (msg : string)
  | assert_failed (msg : string).

#[export] Instance Exn_eq_dec : EqDecision Exn.
Proof. solve_decision. Defined.

Inductive result (A : Type) :=
  | Ok (a : A)
  | Throw (e : Exn).
Arguments Ok {A} a.
Arguments Throw {A} e.

#[export] Instance result_ret : MRet result := @Ok.
#[export] Instance Ok_inj {A} : Inj eq eq (@Ok A).
Proof. intros x y H. by injection H. Qed.
#[export] Instance result_bind : MBind result :=
  fun A B f m => match m with Ok a => f a | Throw e => Throw e end.
#[export] Instance result_fmap : FMap result :=
  fun A B f m => match m with Ok a => Ok (f a) | Throw e => Throw e end.

#[export] Instance result_eq_dec `{EqDecision A} : EqDecision (result A).
Proof. solve_decision. Defined.

(** [assert(b)] before the continuation [k]. *)
Definition assert_then {A} (b : bool) (msg : string) (k : result A) : result A :=
  if b then k else Throw (assert_failed msg).

Lemma bind_Ok {A B} (m : result A) (f : A -> result B) b :
  m ≫= f = Ok b <-> exists a, m = Ok a /\ f a = Ok b.
Proof.
  destruct m as [a|e]; simpl; split.
  - eauto.
  - by intros (? & [= ->] & ?).
  - done.
  - by intros (? & ? & ?).
Qed.

(** ** Tactics *)

(** Substitute every variable an equation defines, one at a time. *)
Ltac subst_vars :=
  repeat match goal with
  | E : ?x = _ |- _ => is_var x; subst x
  | E : _ = ?x |- _ => is_var x; subst x
  end.

(** Split every [m ≫= f = Ok b] hypothesis into its two steps. *)
Ltac inv_bind :=
  repeat match goal with
  | H : _ ≫= _ = Ok _ |- _ =>
      apply bind_Ok in H; let a := fresh "a" in destruct H as (a & ? & H)
  | H : Ok _ = Ok _ |- _ => injection H; clear H; intros; subst_vars
  | H : @mret result _ _ _ = Ok _ |- _ => unfold mret, result_ret in H
  | H : Throw _ = Ok _ |- _ => discriminate H
  | H : Ok _ = Throw _ |- _ => discriminate H
  end.

(** Turn boolean comparisons into propositions, in the hypotheses and the goal. *)
Ltac bool_to_prop :=
  repeat match goal with
  | H : _ && _ = true |- _ => apply andb_true_iff in H; destruct H
  | H : _ || _ = false |- _ => apply orb_false_iff in H; destruct H
  | H : negb _ = true |- _ => apply negb_true_iff in H
  | H : negb _ = false |- _ => apply negb_false_iff in H
  | H : (_ <? _) = true |- _ => apply Z.ltb_lt in H
  | H : (_ <? _) = false |- _ => apply Z.ltb_ge in H
  | H : (_ <=? _) = true |- _ => apply Z.leb_le in H
  | H : (_ <=? _) = false |- _ => apply Z.leb_gt in H
  | H : (_ =? _) = true |- _ => apply Z.eqb_eq in H
  | H : (_ =? _) = false |- _ => apply Z.eqb_neq in H
  | H : bool_decide _ = true |- _ => apply bool_decide_eq_true in H
  | H : bool_decide _ = false |- _ => apply bool_decide_eq_false in H
  end.

(** Prove a decidable statement by evaluating its decision procedure. *)
Ltac decide_true :=
  match goal with |- ?P => apply (bool_decide_eq_true_1 P); vm_compute; reflexivity end.

(** Case analysis on the first condition of an [if] in a hypothesis or goal. *)
Ltac case_if :=
  match goal with
  | H : context [if ?b then _ else _] |- _ => destruct b eqn:?
  | |- context [if ?b then _ else _] => destruct b eqn:?
  end.

(** Case analysis on every comparison of natural numbers in the goal, dropping
    the impossible cases. *)
Ltac nat_cases :=
  repeat match goal with
  | |- context [(?a <? ?b)%nat] => destruct (Nat.ltb_spec a b); try lia
  | |- context [(?a <=? ?b)%nat] => destruct (Nat.leb_spec a b); try lia
  | |- context [(?a =? ?b)%nat] => destruct (Nat.eqb_spec a b); try lia
  end; cbn [andb negb].

(** ** Bytes *)

(** A byte is a [Z] in the range of [unsigned char]; a byte string is a [list Z]. *)
Definition is_byte (b : Z) : Prop := 0 <= b < 256.
Abbreviation bytes := (list Z).
Definition bytes_ok (bs : bytes) : Prop := Forall is_byte bs.

#[export] Instance is_byte_dec b : Decision (is_byte b).
Proof. unfold is_byte. apply _. Defined.
#[export] Instance bytes_ok_dec bs : Decision (bytes_ok bs).
Proof. unfold bytes_ok. apply _. Defined.

(** The number of elements of a vector, as the source's [size_t]. *)
Definition zlen {A} (l : list A) : Z := Z.of_nat (length l).

Lemma zlen_nonneg {A} (l : list A) : 0 <= zlen l.
Proof. unfold zlen. lia. Qed.

Lemma zlen_app {A} (l k : list A) : zlen (l ++ k) = zlen l + zlen k.
Proof. unfold zlen. rewrite length_app. lia. Qed.

Lemma zlen_cons {A} (x : A) l : zlen (x :: l) = zlen l + 1.
Proof. unfold zlen. simpl. lia. Qed.

Lemma zlen_nil_iff {A} (l : list A) : zlen l = 0 <-> l = [].
Proof. unfold zlen. destruct l; simpl; split; intros; (done || lia). Qed.

(** The [n] little-endian bytes of a machine word, and the word they denote
    ([htole16]/[htole32]/[htole64] followed by a copy, and back). *)
Fixpoint le_bytes (n : nat) (z : Z) : bytes :=
  match n with
  | O => []
  | S n => z mod 256 :: le_bytes n (z / 256)
  end.

Fixpoint le_value (bs : bytes) : Z :=
  match bs with
  | [] => 0
  | b :: bs => b + 256 * le_value bs
  end.

Lemma length_le_bytes n z : length (le_bytes n z) = n.
Proof. revert z; induction n; intros; simpl; auto. Qed.

Lemma le_bytes_ok n z : bytes_ok (le_bytes n z).
Proof.
  revert z; induction n; intros; simpl; constructor.
  - apply Z.mod_pos_bound. lia.
  - apply IHn.
Qed.

Lemma le_value_bytes n z : le_value (le_bytes n z) = z mod 256 ^ Z.of_nat n.
Proof.
  revert z; induction n; intros; simpl.
  - by rewrite Z.mod_1_r.
  - rewrite IHn, Nat2Z.inj_succ, Z.pow_succ_r by lia.
    rewrite Z.rem_mul_r by lia. lia.
Qed.

Lemma le_value_range bs : bytes_ok bs -> 0 <= le_value bs < 256 ^ Z.of_nat (length bs).
Proof.
  induction 1 as [|b bs Hb _ IH]; simpl; [lia|].
  unfold is_byte in Hb. rewrite Nat2Z.inj_succ, Z.pow_succ_r by lia. lia.
Qed.

Lemma le_bytes_value bs : bytes_ok bs -> le_bytes (length bs) (le_value bs) = bs.
Proof.
  induction 1 as [|b bs Hb _ IH]; simpl; [done|].
  unfold is_byte in Hb. f_equal.
  - rewrite Z.mul_comm, Z.mod_add, Z.mod_small; lia.
  - rewrite Z.mul_comm, Z.div_add, Z.div_small by lia. by rewrite Z.add_0_l.
Qed.

Lemma le_value_small n z : 0 <= z < 256 ^ Z.of_nat n -> le_value (le_bytes n z) = z.
Proof. intros H. rewrite le_value_bytes. by apply Z.mod_small. Qed.

Lemma le_value_app a b : le_value (a ++ b) = le_value a + 256 ^ Z.of_nat (length a) * le_value b.
Proof.
  induction a as [|x a IH]; cbn [app le_value length]; [lia|].
  rewrite IH, Nat2Z.inj_succ, Z.pow_succ_r by lia. lia.
Qed.

#[export] Hint Resolve le_bytes_ok zlen_nonneg : salem.

(** ** Bit masks *)

Lemma land_ones_mod z k : 0 <= k -> Z.land z (2 ^ k - 1) = z mod 2 ^ k.
Proof.
  intros Hk. replace (2 ^ k - 1) with (Z.ones k).
  - by apply Z.land_ones.
  - rewrite Z.ones_equiv. lia.
Qed.

(** Or-ing bits below [2 ^ k] into a multiple of [2 ^ k] is an addition. *)
Lemma lor_shift_add a b k :
  0 <= k -> 0 <= b < 2 ^ k -> Z.lor (a * 2 ^ k) b = a * 2 ^ k + b.
Proof.
  intros Hk Hb. rewrite <- Z.add_lor_land.
  enough (Z.land (a * 2 ^ k) b = 0) as -> by lia.
  rewrite <- (Z.mod_small b (2 ^ k)) by lia.
  rewrite <- land_ones_mod by lia.
  replace (2 ^ k - 1) with (Z.ones k) by (rewrite Z.ones_equiv; lia).
  rewrite (Z.land_comm b), Z.land_assoc, Z.land_ones by lia.
  by rewrite Z.mod_mul, Z.land_0_l by lia.
Qed.

Lemma land_le a b : 0 <= a -> 0 <= Z.land a b <= a.
Proof.
  intros Ha. split; [apply Z.land_nonneg; by left|].
  enough (0 <= a - Z.land a b) by lia. rewrite Z.sub_nocarry_ldiff.
  - apply Z.ldiff_nonneg. by left.
  - apply Z.bits_inj'. intros n Hn. rewrite Z.ldiff_spec, Z.land_spec, Z.bits_0. by destruct (Z.testbit a n), (Z.testbit b n).
Qed.

Lemma land_pow2 z k : 0 <= k -> (Z.land z (2 ^ k) =? 0) = negb (Z.testbit z k).
Proof.
  intros Hk. destruct (Z.eqb_spec (Z.land z (2 ^ k)) 0) as [H|H]; destruct (Z.testbit z k) eqn:Ht; try done.
  - assert (Z.testbit (Z.land z (2 ^ k)) k = true) as Hc by (by rewrite Z.land_spec, Ht, Z.pow2_bits_true by lia).
    by rewrite H, Z.bits_0 in Hc.
  - destruct H. apply Z.bits_inj'. intros n Hn. rewrite Z.land_spec, Z.pow2_bits_eqb, Z.bits_0 by lia.
    destruct (Z.eqb_spec k n) as [->|]; [by rewrite Ht|apply andb_false_r].
Qed.

(** A boolean check over all byte values holds for every byte. *)
Lemma byte_forall (P : Z -> bool) :
  forallb P (seqZ 0 256) = true -> forall b, is_byte b -> P b = true.
Proof.
  intros H b Hb. rewrite forallb_forall in H. apply H.
  apply list_elem_of_In, elem_of_seqZ. unfold is_byte in Hb. lia.
Qed.

Lemma bytes_ok_app bs cs : bytes_ok (bs ++ cs) <-> bytes_ok bs /\ bytes_ok cs.
Proof. apply Forall_app. Qed.

(** ** Sums *)
Definition zsum (l : list Z) : Z := foldr Z.add 0 l.
Arguments zsum l : simpl never.

Lemma zsum_app l k : zsum (l ++ k) = zsum l + zsum k.
Proof. induction l as [|x l IH]; [done|]. unfold zsum in *. simpl. lia. Qed.

Lemma zsum_nonneg l : Forall (fun x => 0 <= x) l -> 0 <= zsum l.
Proof. induction 1 as [|x l Hx _ IH]; [done|]. unfold zsum in *. simpl. lia. Qed.

Lemma zsum_cons x l : zsum (x :: l) = x + zsum l.
Proof. done. Qed.

Lemma zsum_elem l x : Forall (fun x => 0 <= x) l -> x ∈ l -> x <= zsum l.
Proof.
  intros Hl. revert x; induction Hl as [|y l Hy Hl IH]; intros x Hx; [by apply not_elem_of_nil in Hx|].
  rewrite zsum_cons. pose proof (zsum_nonneg l Hl). apply elem_of_cons in Hx as [->|Hx]; [lia|].
  specialize (IH _ Hx). lia.
Qed.
