(* ===== verification/Serialize.v ===== *)
(** * Serialization templates (serialize.h, streams.h) *)
From S2P Require Import Prelude.

(** ** Streams

    The templates of serialize.h read from and write to any stream. A reader
    is modelled on what is left to read; [stream_read] is the interface every
    input stream gives: exactly [nSize] bytes, or a failure at the end of the
    data. [CDataStream] below is the implementation streams.h gives. *)
Definition Reader (A : Type) : Type := bytes -> result (A * bytes).

#[export] Instance reader_ret : MRet Reader := fun A a s => Ok (a, s).
#[export] Instance reader_bind : MBind Reader :=
  fun A B f m s => match m s with Ok (a, s') => f a s' | Throw e => Throw e end.

Definition reader_throw {A} (e : Exn) : Reader A := fun _ => Throw e.

Definition end_of_data : Exn := ios_failure "CDataStream::read(): end of data".

Definition stream_read (nSize : Z) : Reader bytes := fun s =>
  if nSize <=? zlen s
  then Ok (take (Z.to_nat nSize) s, drop (Z.to_nat nSize) s)
  else Throw end_of_data.

(** ** CDataStream *)
Record CDataStream := mkCDataStream {
  ds_vch : bytes;
  ds_nReadPos : Z;
}.

(** [size()], [Rewind], [Compact], [read], [ignore] and [write] of CDataStream.
    [nReadPosNext] is an [unsigned int]: the sum wraps at 32 bits. *)
Definition ds_size (st : CDataStream) : Z := zlen (ds_vch st) - ds_nReadPos st.

Definition ds_Rewind (n : Z) (st : CDataStream) : bool * CDataStream :=
  if ds_nReadPos st <? n then (false, st)
  else (true, mkCDataStream (ds_vch st) (ds_nReadPos st - n)).

Definition ds_Compact (st : CDataStream) : CDataStream :=
  mkCDataStream (drop (Z.to_nat (ds_nReadPos st)) (ds_vch st)) 0.

Definition ds_read (nSize : Z) (st : CDataStream) : result (bytes * CDataStream) :=
  if nSize =? 0 then Ok ([], st)
  else
    let nReadPosNext := u32 (ds_nReadPos st + nSize) in
    if zlen (ds_vch st) <? nReadPosNext then Throw end_of_data
    else
      let pch := take (Z.to_nat nSize) (drop (Z.to_nat (ds_nReadPos st)) (ds_vch st)) in
      if nReadPosNext =? zlen (ds_vch st) then Ok (pch, mkCDataStream [] 0)
      else Ok (pch, mkCDataStream (ds_vch st) nReadPosNext).

Definition ds_ignore (nSize : Z) (st : CDataStream) : result CDataStream :=
  if nSize <? 0 then Throw (ios_failure "CDataStream::ignore(): nSize negative")
  else
    let nReadPosNext := u32 (ds_nReadPos st + nSize) in
    if zlen (ds_vch st) <=? nReadPosNext then
      if zlen (ds_vch st) <? nReadPosNext
      then Throw (ios_failure "CDataStream::ignore(): end of data")
      else Ok (mkCDataStream [] 0)
    else Ok (mkCDataStream (ds_vch st) nReadPosNext).

Definition ds_write (pch : bytes) (st : CDataStream) : CDataStream :=
  mkCDataStream (ds_vch st ++ pch) (ds_nReadPos st).

(** The bytes of the buffer that were not read yet. *)
Definition ds_rest (st : CDataStream) : bytes :=
  drop (Z.to_nat (ds_nReadPos st)) (ds_vch st).

Definition ds_ok (st : CDataStream) : Prop := 0 <= ds_nReadPos st <= zlen (ds_vch st).

(** [ignore] in terms of what is left to read. *)
Definition stream_ignore (nSize : Z) : Reader unit := fun s =>
  if nSize <? 0 then Throw (ios_failure "CDataStream::ignore(): nSize negative")
  else if nSize <=? zlen s then Ok (tt, drop (Z.to_nat nSize) s)
  else Throw (ios_failure "CDataStream::ignore(): end of data").

(** ** Integers of fixed width *)
Definition ser_writedata8 (obj : Z) : bytes := le_bytes 1 (u8 obj).
Definition ser_writedata16 (obj : Z) : bytes := le_bytes 2 (u16 obj).
Definition ser_writedata32 (obj : Z) : bytes := le_bytes 4 (u32 obj).
Definition ser_writedata64 (obj : Z) : bytes := le_bytes 8 (u64 obj).

Definition ser_readdata8 : Reader Z := obj ← stream_read 1; mret (le_value obj).
Definition ser_readdata16 : Reader Z := obj ← stream_read 2; mret (le_value obj).
Definition ser_readdata32 : Reader Z := obj ← stream_read 4; mret (le_value obj).
Definition ser_readdata64 : Reader Z := obj ← stream_read 8; mret (le_value obj).

(** ** CompactSize *)
Definition MAX_SIZE : Z := 0x02000000.

Definition GetSizeOfCompactSize (nSize : Z) : Z :=
  if nSize <? 253 then 1
  else if nSize <=? 0xffff then 1 + 2
  else if nSize <=? UINT32_MAX then 1 + 4
  else 1 + 8.

Definition WriteCompactSize (nSize : Z) : bytes :=
  if nSize <? 253 then ser_writedata8 nSize
  else if nSize <=? 0xffff then ser_writedata8 253 ++ ser_writedata16 nSize
  else if nSize <=? UINT32_MAX then ser_writedata8 254 ++ ser_writedata32 nSize
  else ser_writedata8 255 ++ ser_writedata64 nSize.

Definition non_canonical : Exn := ios_failure "non-canonical ReadCompactSize()".

Definition ReadCompactSize : Reader Z :=
  chSize ← ser_readdata8;
  nSizeRet ←
    (if chSize <? 253 then mret chSize
     else if chSize =? 253 then
       n ← ser_readdata16;
       if n <? 253 then reader_throw non_canonical else mret n
     else if chSize =? 254 then
       n ← ser_readdata32;
       if n <? 0x10000 then reader_throw non_canonical else mret n
     else
       n ← ser_readdata64;
       if n <? 0x100000000 then reader_throw non_canonical else mret n);
  if MAX_SIZE <? nSizeRet
  then reader_throw (ios_failure "ReadCompactSize(): size too large")
  else mret nSizeRet.

(** ** VarInt

    The integer type [I] of the template, by its size in bytes and its
    largest value. *)
Record IntType := mkIntType { it_sizeof : Z; it_max : Z }.
Definition uint32_t : IntType := mkIntType 4 UINT32_MAX.
Definition uint64_t : IntType := mkIntType 8 UINT64_MAX.
Definition int_nonneg : IntType := mkIntType 4 INT32_MAX.

(** The loop of GetSizeOfVarInt; [fuel] bounds the number of iterations. *)
Fixpoint GetSizeOfVarInt_loop (fuel : nat) (n nRet : Z) : Z :=
  match fuel with
  | O => nRet
  | S fuel =>
      if n <=? 0x7F then nRet + 1
      else GetSizeOfVarInt_loop fuel (Z.shiftr n 7 - 1) (nRet + 1)
  end.

Definition GetSizeOfVarInt (I : IntType) (n : Z) : Z :=
  GetSizeOfVarInt_loop (Z.to_nat ((it_sizeof I * 8 + 6) / 7)) n 0.

(** The bytes [tmp[len]], ..., [tmp[0]] the second loop writes out, for the
    array [tmp] the first loop fills from index [len] on. [room] is the number
    of elements of [tmp] left: running out is a write past its end. *)
Fixpoint WriteVarInt_loop (room : nat) (n : Z) (first : bool) : result bytes :=
  match room with
  | O => Throw (assert_failed "WriteVarInt: write past the end of tmp")
  | S room =>
      let b := Z.lor (Z.land n 0x7F) (if first then 0x00 else 0x80) in
      if n <=? 0x7F then Ok (ser_writedata8 b)
      else
        rest ← WriteVarInt_loop room (Z.shiftr n 7 - 1) false;
        mret (rest ++ ser_writedata8 b)
  end.

Definition WriteVarInt (I : IntType) (n : Z) : result bytes :=
  WriteVarInt_loop (Z.to_nat ((it_sizeof I * 8 + 6) / 7)) n true.

Definition varint_too_large : Exn := ios_failure "ReadVarInt(): size too large".

(** Each iteration consumes a byte of the stream, on which the loop is defined. *)
Fixpoint ReadVarInt_loop (max n : Z) (s : bytes) : result (Z * bytes) :=
  match s with
  | [] => Throw end_of_data
  | chData :: s =>
      if Z.shiftr max 7 <? n then Throw varint_too_large
      else
        let n := Z.lor (Z.shiftl n 7) (Z.land chData 0x7F) in
        if negb (Z.land chData 0x80 =? 0) then
          if n =? max then Throw varint_too_large
          else ReadVarInt_loop max (n + 1) s
        else Ok (n, s)
  end.

Definition ReadVarInt (I : IntType) : Reader Z := ReadVarInt_loop (it_max I) 0.

(** ** Codecs

    The pair of overloads [Serialize]/[Unserialize] of a type: writing may hit
    an assertion, reading may throw. [CodecOk c valid] is what a type promises
    to the containers built from it: every valid value is written, and what is
    written is read back whatever follows it in the stream. *)
Record codec (A : Type) := mkCodec { enc : A -> result bytes; dec : Reader A }.
Arguments mkCodec {A} enc dec.
Arguments enc {A} c a.
Arguments dec {A} c s.

Class CodecOk {A} (c : codec A) (valid : A -> Prop) : Prop :=
  codec_roundtrip a : valid a ->
    exists bs, enc c a = Ok bs /\ bytes_ok bs /\ forall rest, dec c (bs ++ rest) = Ok (a, rest).

(** Fixed-width integers: [Serialize(Stream&, uint8_t)] and its overloads. *)
Definition uint8_codec : codec Z := mkCodec (fun a => Ok (ser_writedata8 a)) ser_readdata8.
Definition uint16_codec : codec Z := mkCodec (fun a => Ok (ser_writedata16 a)) ser_readdata16.
Definition uint32_codec : codec Z := mkCodec (fun a => Ok (ser_writedata32 a)) ser_readdata32.
Definition uint64_codec : codec Z := mkCodec (fun a => Ok (ser_writedata64 a)) ser_readdata64.
Definition int32_codec : codec Z :=
  mkCodec (fun a => Ok (ser_writedata32 a)) (a ← ser_readdata32; mret (i32 a)).
Definition int64_codec : codec Z :=
  mkCodec (fun a => Ok (ser_writedata64 a)) (a ← ser_readdata64; mret (i64 a)).

(** [CCompactSize], [CVarInt] and [CFlatData] of [n] bytes. *)
Definition compactsize_codec : codec Z := mkCodec (fun n => Ok (WriteCompactSize n)) ReadCompactSize.
Definition varint_codec (I : IntType) : codec Z := mkCodec (WriteVarInt I) (ReadVarInt I).
Definition flatdata_codec (n : Z) : codec bytes := mkCodec (fun v => Ok v) (stream_read n).

Section Containers.
Context {A : Type} (c : codec A).

Fixpoint Serialize_elements (v : list A) : result bytes :=
  match v with
  | [] => Ok []
  | a :: v => b ← enc c a; bs ← Serialize_elements v; mret (b ++ bs)
  end.

(** [for (; i < nMid; i++) Unserialize(is, v[i])] with [k = nMid - i]. *)
Fixpoint Unserialize_elements (k : nat) : Reader (list A) :=
  match k with
  | O => mret []
  | S k => a ← dec c; v ← Unserialize_elements k; mret (a :: v)
  end.

(** The outer loop of [Unserialize_impl(is, vector<T>&, const V&)], which
    grows the vector by [batch = 5000000 / sizeof(T)] elements at a time; at
    its head [i = nMid = v.size()]. [fuel] bounds the number of batches. *)
Fixpoint Unserialize_batches (batch nSize : Z) (fuel : nat) (v : list A) : Reader (list A) :=
  if zlen v <? nSize then
    match fuel with
    | O => reader_throw (assert_failed "Unserialize_impl: no progress")
    | S fuel =>
        let nMid := if nSize <? zlen v + batch then nSize else zlen v + batch in
        vs ← Unserialize_elements (Z.to_nat (nMid - zlen v));
        Unserialize_batches batch nSize fuel (v ++ vs)
    end
  else mret v.

Definition Serialize_vector (v : list A) : result bytes :=
  bs ← Serialize_elements v; mret (WriteCompactSize (zlen v) ++ bs).

Definition Unserialize_vector (batch : Z) : Reader (list A) :=
  nSize ← ReadCompactSize;
  Unserialize_batches batch nSize (Z.to_nat nSize) [].

Definition vector_codec (batch : Z) : codec (list A) :=
  mkCodec Serialize_vector (Unserialize_vector batch).
End Containers.

(** [Unserialize_impl(is, vector<T>&, const unsigned char&)]: blocks of at most
    5000000 bytes; at the head of the loop [i = v.size()]. *)
Fixpoint Unserialize_blocks (nSize : Z) (fuel : nat) (v : bytes) : Reader bytes :=
  if zlen v <? nSize then
    match fuel with
    | O => reader_throw (assert_failed "Unserialize_impl: no progress")
    | S fuel =>
        let blk := Z.min (nSize - zlen v) (1 + 4999999) in
        b ← stream_read blk;
        Unserialize_blocks nSize fuel (v ++ b)
    end
  else mret v.

Definition Serialize_bytes (v : bytes) : result bytes := Ok (WriteCompactSize (zlen v) ++ v).

Definition Unserialize_bytes : Reader bytes :=
  nSize ← ReadCompactSize;
  Unserialize_blocks nSize (Z.to_nat nSize) [].

(** vector<unsigned char>, prevector<N, unsigned char> and CScript. *)
Definition bytes_codec : codec bytes := mkCodec Serialize_bytes Unserialize_bytes.

(** [LimitedString<Limit>]. *)
Definition limited_string_codec (Limit : Z) : codec bytes :=
  mkCodec (fun s => Ok (WriteCompactSize (zlen s) ++ s))
    (size ← ReadCompactSize;
     if Limit <? size then reader_throw (ios_failure "String length limit exceeded")
     else stream_read size).

(** The members of a class in the order of its READWRITE calls. *)
Definition pair_codec {A B} (c : codec A) (d : codec B) : codec (A * B) :=
  mkCodec (fun '(a, b) => x ← enc c a; y ← enc d b; mret (x ++ y))
    (a ← dec c; b ← dec d; mret (a, b)).

(** A class with the members [f] takes out of it and [g] puts together. *)
Definition map_codec {A B} (f : B -> A) (g : A -> B) (c : codec A) : codec B :=
  mkCodec (fun b => enc c (f b)) (a ← dec c; mret (g a)).

(** * Lemmas *)

Lemma reader_bind_Ok {A B} (m : Reader A) (f : A -> Reader B) s b s' :
  (m ≫= f) s = Ok (b, s') <-> exists a s1, m s = Ok (a, s1) /\ f a s1 = Ok (b, s').
Proof.
  unfold mbind, reader_bind. destruct (m s) as [[a s1]|e]; split.
  - eauto.
  - by intros (? & ? & [= -> ->] & ?).
  - done.
  - by intros (? & ? & ? & ?).
Qed.

Lemma reader_bind_step {A B} (m : Reader A) (f : A -> Reader B) s a s1 :
  m s = Ok (a, s1) -> (m ≫= f) s = f a s1.
Proof. intros H. unfold mbind, reader_bind. by rewrite H. Qed.

Lemma stream_read_app n bs rest :
  zlen bs = n -> stream_read n (bs ++ rest) = Ok (bs, rest).
Proof.
  intros <-. unfold stream_read. rewrite zlen_app.
  destruct (Z.leb_spec (zlen bs) (zlen bs + zlen rest)); [|pose proof (zlen_nonneg rest); lia].
  unfold zlen. rewrite Nat2Z.id. by rewrite take_app_length, drop_app_length.
Qed.

Lemma stream_read_Ok n s bs rest :
  0 <= n -> stream_read n s = Ok (bs, rest) -> s = bs ++ rest /\ zlen bs = n.
Proof.
  intros Hn. unfold stream_read. case_if; [|done]. intros [= <- <-]. bool_to_prop.
  rewrite take_drop. split; [done|]. unfold zlen in *. rewrite length_take. lia.
Qed.

(** ** CDataStream implements the stream interface *)

Lemma ds_rest_length st : ds_ok st -> zlen (ds_rest st) = ds_size st.
Proof.
  unfold ds_ok, ds_rest, ds_size, zlen. intros H. rewrite length_drop. lia.
Qed.

Lemma drop_Z_add {A} (a b : Z) (l : list A) :
  0 <= a -> 0 <= b -> drop (Z.to_nat b) (drop (Z.to_nat a) l) = drop (Z.to_nat (a + b)) l.
Proof. intros Ha Hb. rewrite drop_drop. f_equal. lia. Qed.

Lemma ds_read_refines nSize st :
  ds_ok st -> 0 <= nSize -> ds_nReadPos st + nSize < 2 ^ 32 -> zlen (ds_vch st) < 2 ^ 32 ->
  match ds_read nSize st with
  | Ok (pch, st') => ds_ok st' /\ stream_read nSize (ds_rest st) = Ok (pch, ds_rest st')
  | Throw e => stream_read nSize (ds_rest st) = Throw e
  end.
Proof.
  intros Hok Hn Hw Hv. unfold ds_read.
  assert (stream_read nSize (ds_rest st) =
    if nSize <=? ds_size st
    then Ok (take (Z.to_nat nSize) (ds_rest st), drop (Z.to_nat nSize) (ds_rest st))
    else Throw end_of_data) as -> by (unfold stream_read; by rewrite ds_rest_length).
  unfold ds_ok, ds_size in *.
  destruct (Z.eqb_spec nSize 0) as [->|Hnz].
  { destruct (Z.leb_spec 0 (zlen (ds_vch st) - ds_nReadPos st)); [done|lia]. }
  rewrite u32_small by (unfold is_u32; lia).
  destruct (Z.ltb_spec (zlen (ds_vch st)) (ds_nReadPos st + nSize)).
  { destruct (Z.leb_spec nSize (zlen (ds_vch st) - ds_nReadPos st)); [lia|done]. }
  destruct (Z.leb_spec nSize (zlen (ds_vch st) - ds_nReadPos st)); [|lia].
  destruct (Z.eqb_spec (ds_nReadPos st + nSize) (zlen (ds_vch st))) as [He|];
    simpl; (split; [unfold zlen in *; simpl; lia|]);
    unfold ds_rest; simpl; rewrite drop_Z_add by lia; [|done].
  rewrite He, (drop_ge (ds_vch st) (Z.to_nat (zlen _))); [done|]. unfold zlen in *. lia.
Qed.

Lemma ds_ignore_refines nSize st :
  ds_ok st -> ds_nReadPos st + nSize < 2 ^ 32 ->
  match ds_ignore nSize st with
  | Ok st' => ds_ok st' /\ stream_ignore nSize (ds_rest st) = Ok (tt, ds_rest st')
  | Throw e => stream_ignore nSize (ds_rest st) = Throw e
  end.
Proof.
  intros Hok Hw. unfold ds_ignore, stream_ignore. rewrite ds_rest_length by done.
  unfold ds_ok, ds_size in *. destruct (Z.ltb_spec nSize 0); [done|].
  rewrite u32_small by (unfold is_u32; lia).
  destruct (Z.leb_spec nSize (zlen (ds_vch st) - ds_nReadPos st));
    destruct (Z.leb_spec (zlen (ds_vch st)) (ds_nReadPos st + nSize));
    destruct (Z.ltb_spec (zlen (ds_vch st)) (ds_nReadPos st + nSize)); try lia; try done.
  all: split; [unfold zlen in *; simpl; lia|]; unfold ds_rest; simpl; rewrite drop_Z_add by lia.
  - rewrite drop_ge; [done|]. unfold zlen in *. lia.
  - done.
Qed.

Lemma ds_write_rest pch st : ds_ok st -> ds_rest (ds_write pch st) = ds_rest st ++ pch.
Proof.
  unfold ds_ok, ds_rest, ds_write, zlen. simpl. intros H. apply drop_app_le. lia.
Qed.

(** ** Fixed-width integers *)

Lemma ser_readdata8_app b rest :
  is_byte b -> ser_readdata8 (ser_writedata8 b ++ rest) = Ok (b, rest).
Proof.
  unfold is_byte. intros H. unfold ser_readdata8.
  erewrite reader_bind_step by (apply stream_read_app; done).
  unfold ser_writedata8. rewrite u8_small by lia.
  by rewrite le_value_small by (simpl; lia).
Qed.

Lemma ser_readdata16_app b rest :
  0 <= b < 2 ^ 16 -> ser_readdata16 (ser_writedata16 b ++ rest) = Ok (b, rest).
Proof.
  intros H. unfold ser_readdata16.
  erewrite reader_bind_step by (apply stream_read_app; done).
  unfold ser_writedata16. rewrite u16_small by lia.
  by rewrite le_value_small by (simpl; lia).
Qed.

Lemma ser_readdata32_app b rest :
  ser_readdata32 (ser_writedata32 b ++ rest) = Ok (u32 b, rest).
Proof.
  unfold ser_readdata32. erewrite reader_bind_step by (apply stream_read_app; done).
  unfold ser_writedata32. pose proof (u32_range b) as H. unfold is_u32 in H.
  by rewrite le_value_small by (simpl; lia).
Qed.

Lemma ser_readdata64_app b rest :
  ser_readdata64 (ser_writedata64 b ++ rest) = Ok (u64 b, rest).
Proof.
  unfold ser_readdata64. erewrite reader_bind_step by (apply stream_read_app; done).
  unfold ser_writedata64. pose proof (u64_range b) as H. unfold is_u64 in H.
  by rewrite le_value_small by (simpl; lia).
Qed.

(** Reading [k] bytes as a word consumes the little-endian bytes of that word. *)
Lemma read_word_Ok k s n rest :
  bytes_ok s -> (obj ← stream_read (Z.of_nat k); mret (le_value obj) : Reader Z) s = Ok (n, rest) ->
  s = le_bytes k n ++ rest /\ 0 <= n < 256 ^ Z.of_nat k.
Proof.
  intros Hs H. apply reader_bind_Ok in H as (obj & s1 & Hr & [= <- <-]).
  apply stream_read_Ok in Hr as [-> Hl]; [|lia].
  apply bytes_ok_app in Hs as [Hobj _]. unfold zlen in Hl.
  assert (length obj = k) as <- by lia.
  rewrite le_bytes_value by done. split; [done|by apply le_value_range].
Qed.

(** ** CompactSize *)

Lemma WriteCompactSize_length n :
  zlen (WriteCompactSize n) = GetSizeOfCompactSize n.
Proof. unfold WriteCompactSize, GetSizeOfCompactSize. repeat case_if; done. Qed.

Lemma WriteCompactSize_ok n : bytes_ok (WriteCompactSize n).
Proof.
  unfold WriteCompactSize.
  repeat case_if; try (apply bytes_ok_app; split); apply le_bytes_ok.
Qed.

Lemma ReadCompactSize_app n rest :
  0 <= n <= MAX_SIZE -> ReadCompactSize (WriteCompactSize n ++ rest) = Ok (n, rest).
Proof.
  intros Hn. unfold MAX_SIZE in Hn. unfold WriteCompactSize, ReadCompactSize, UINT32_MAX in *.
  repeat case_if; bool_to_prop; try lia; rewrite <- ?app_assoc;
    (erewrite reader_bind_step by (apply ser_readdata8_app; unfold is_byte; lia)); simpl.
  - destruct (Z.ltb_spec n 253); [|lia].
    erewrite reader_bind_step by done. unfold MAX_SIZE. destruct (Z.ltb_spec 33554432 n); [lia|done].
  - erewrite reader_bind_step.
    2:{ erewrite reader_bind_step by (apply ser_readdata16_app; lia).
        destruct (Z.ltb_spec n 253); [lia|done]. }
    simpl. unfold MAX_SIZE. destruct (Z.ltb_spec 33554432 n); [lia|done].
  - erewrite reader_bind_step.
    2:{ erewrite reader_bind_step by (apply ser_readdata32_app; lia).
        rewrite u32_small by (unfold is_u32; lia). destruct (Z.ltb_spec n 65536); [lia|done]. }
    simpl. unfold MAX_SIZE. destruct (Z.ltb_spec 33554432 n); [lia|done].
Qed.

(** Every accepted CompactSize is the canonical one: the bytes consumed are
    those WriteCompactSize writes for the value, which is at most MAX_SIZE. *)
Lemma ReadCompactSize_canonical s n rest :
  bytes_ok s -> ReadCompactSize s = Ok (n, rest) ->
  s = WriteCompactSize n ++ rest /\ 0 <= n <= MAX_SIZE.
Proof.
  intros Hs H. unfold ReadCompactSize in H.
  apply reader_bind_Ok in H as (ch & s1 & H1 & H).
  apply (read_word_Ok 1) in H1 as [-> Hch]; [|done].
  apply bytes_ok_app in Hs as [_ Hs]. simpl in Hch.
  apply reader_bind_Ok in H as (n' & s2 & H2 & H).
  destruct (Z.ltb_spec MAX_SIZE n') as [|Hmax]; [done|]. injection H as -> ->.
  unfold MAX_SIZE in *. unfold WriteCompactSize, UINT32_MAX.
  destruct (Z.ltb_spec ch 253).
  { injection H2 as -> ->. destruct (Z.ltb_spec n 253); [|lia]. split; [|lia].
    unfold ser_writedata8. by rewrite u8_small by lia. }
  destruct (Z.eqb_spec ch 253) as [->|]; [|destruct (Z.eqb_spec ch 254) as [->|]];
    apply reader_bind_Ok in H2 as (m & s3 & H3 & H2).
  - apply (read_word_Ok 2) in H3 as [-> Hm]; [|done].
    destruct (Z.ltb_spec m 253); [done|]. injection H2 as -> ->. simpl in Hm.
    destruct (Z.ltb_spec n 253); [lia|]. destruct (Z.leb_spec n 65535); [|lia].
    split; [|lia]. unfold ser_writedata16. by rewrite u16_small by lia.
  - apply (read_word_Ok 4) in H3 as [-> Hm]; [|done].
    destruct (Z.ltb_spec m 65536); [done|]. injection H2 as -> ->. simpl in Hm.
    destruct (Z.ltb_spec n 253); [lia|]. destruct (Z.leb_spec n 65535); [lia|].
    destruct (Z.leb_spec n (2 ^ 32 - 1)); [|lia].
    split; [|lia]. unfold ser_writedata32. by rewrite u32_small by (unfold is_u32; lia).
  - apply (read_word_Ok 8) in H3 as [-> Hm]; [|done].
    destruct (Z.ltb_spec m 4294967296); [done|]. injection H2 as -> ->. lia.
Qed.

(** ** VarInt *)

(** One more than the largest value [k] bytes encode: 128 + 128^2 + ... *)
Fixpoint varint_cap (k : nat) : Z :=
  match k with O => 0 | S k => 128 * (varint_cap k + 1) end.

Lemma WriteVarInt_loop_total room n first :
  0 <= n < varint_cap room -> exists bs, WriteVarInt_loop room n first = Ok bs.
Proof.
  revert n first; induction room as [|room IH]; intros n first; simpl; [lia|].
  intros Hn. destruct (Z.leb_spec n 127); [eauto|].
  rewrite Z.shiftr_div_pow2 by lia. change (2 ^ 7) with 128.
  destruct (IH (n / 128 - 1) false) as [bs ->]; [|simpl; eauto].
  pose proof (Z.div_mod n 128). pose proof (Z.mod_pos_bound n 128). lia.
Qed.

(** The byte WriteVarInt stores for a digit [n], taken apart again by ReadVarInt. *)
Lemma varint_byte n (first : bool) :
  let b := Z.lor (Z.land n 0x7F) (if first then 0x00 else 0x80) in
  ser_writedata8 b = [b] /\ Z.land b 0x7F = n mod 128 /\
  (Z.land b 0x80 =? 0) = first /\ is_byte b.
Proof.
  intros b. change 0x7F with (2 ^ 7 - 1) in *. subst b. rewrite !land_ones_mod by lia.
  change (2 ^ 7) with 128. pose proof (Z.mod_pos_bound n 128 ltac:(lia)) as Hr.
  set (r := n mod 128) in *.
  pose (P := fun r => (128 <=? r) || forallb (fun first : bool =>
    let b := Z.lor r (if first then 0 else 128) in
    (b mod 128 =? r) && Bool.eqb (Z.land b 128 =? 0) first && (0 <=? b) && (b <? 256)) [true; false]).
  assert (P r = true) as HP by (apply byte_forall; [by vm_compute|unfold is_byte; lia]).
  unfold P in HP. apply orb_true_iff in HP as [HP|HP]; [bool_to_prop; lia|].
  simpl in HP. rewrite andb_true_r in HP. bool_to_prop.
  unfold ser_writedata8, is_byte.
  destruct first; bool_to_prop; repeat match goal with
    | H : Bool.eqb _ _ = true |- _ => apply Bool.eqb_prop in H end;
    (split; [rewrite u8_small by lia; simpl; by rewrite Z.mod_small by lia|]); split_and!; try done; lia.
Qed.

Lemma varint_acc n b :
  Z.land b 0x7F = n mod 128 -> Z.lor (Z.shiftl (n / 128) 7) (Z.land b 0x7F) = n.
Proof.
  intros ->. rewrite Z.shiftl_mul_pow2 by lia.
  pose proof (Z.mod_pos_bound n 128). rewrite lor_shift_add by lia.
  pose proof (Z.div_mod n 128). lia.
Qed.

Lemma ReadVarInt_loop_last max n b s :
  0 <= n <= max -> Z.land b 0x7F = n mod 128 ->
  ReadVarInt_loop max (n / 128) (b :: s) =
    if negb (Z.land b 0x80 =? 0) then
      if n =? max then Throw varint_too_large else ReadVarInt_loop max (n + 1) s
    else Ok (n, s).
Proof.
  intros Hn Hb. simpl. rewrite varint_acc by done.
  rewrite Z.shiftr_div_pow2 by lia. change (2 ^ 7) with 128.
  destruct (Z.ltb_spec (max / 128) (n / 128)); [|done].
  pose proof (Z.div_le_mono n max 128). lia.
Qed.

Lemma ReadVarInt_loop_app max room n first bs s :
  0 <= n <= max -> (first = false -> n < max) -> WriteVarInt_loop room n first = Ok bs ->
  ReadVarInt_loop max 0 (bs ++ s) =
    if first then Ok (n, s) else ReadVarInt_loop max (n + 1) s.
Proof.
  revert n first bs s; induction room as [|room IH]; intros n first bs s Hn Hmax; [done|].
  cbn [WriteVarInt_loop]. destruct (varint_byte n first) as (-> & Hlow & Hhigh & _).
  set (b := Z.lor _ _) in *. intros H.
  assert (ReadVarInt_loop max 0 (bs ++ s) = ReadVarInt_loop max (n / 128) (b :: s)) as ->.
  { destruct (Z.leb_spec n 127).
    - injection H as <-. by rewrite Z.div_small by lia.
    - inv_bind. rewrite Z.shiftr_div_pow2 in * by lia. change (2 ^ 7) with 128 in *.
      pose proof (Z.div_mod n 128). pose proof (Z.mod_pos_bound n 128).
      rewrite <- app_assoc. rewrite (IH (n / 128 - 1) false) by (done || (intros; lia)). f_equal; lia. }
  rewrite ReadVarInt_loop_last, Hhigh by done.
  destruct first; simpl; [done|]. destruct (Z.eqb_spec n max); [|done].
  specialize (Hmax eq_refl). lia.
Qed.

Lemma WriteVarInt_loop_det room room' n first bs bs' :
  WriteVarInt_loop room n first = Ok bs -> WriteVarInt_loop room' n first = Ok bs' -> bs = bs'.
Proof.
  revert room' n first bs bs'; induction room as [|room IH]; intros [|room'] n first bs bs';
    simpl; try done.
  destruct (n <=? 127); [intros; by simplify_eq|].
  intros. inv_bind. f_equal. eauto.
Qed.

Lemma WriteVarInt_loop_ok room n first bs :
  WriteVarInt_loop room n first = Ok bs -> bytes_ok bs.
Proof.
  revert n first bs; induction room as [|room IH]; intros n first bs; simpl; [done|].
  destruct (n <=? 127); intros; inv_bind; [apply le_bytes_ok|].
  apply bytes_ok_app. split; [eauto|apply le_bytes_ok].
Qed.

(** What the bytes read so far encode: nothing, or the number before [acc]. *)
Definition varint_prefix (acc : Z) (pre : bytes) : Prop :=
  (acc = 0 /\ pre = []) \/
  (0 < acc /\ exists room, WriteVarInt_loop room (acc - 1) false = Ok pre).

Lemma varint_prefix_step acc pre ch first :
  is_byte ch -> varint_prefix acc pre -> (Z.land ch 0x80 =? 0) = first ->
  exists room, WriteVarInt_loop room (Z.lor (Z.shiftl acc 7) (Z.land ch 0x7F)) first
    = Ok (pre ++ [ch]).
Proof.
  intros Hch Hpre Hf.
  pose (P := fun ch => (Z.lor (ch mod 128) (if Z.land ch 0x80 =? 0 then 0x00 else 0x80) =? ch)).
  assert (P ch = true) as HP by (apply byte_forall; [by vm_compute|done]).
  unfold P in HP. rewrite Hf in HP. apply Z.eqb_eq in HP.
  change 0x7F with (2 ^ 7 - 1). rewrite land_ones_mod by lia.
  rewrite Z.shiftl_mul_pow2 by lia. change (2 ^ 7) with 128.
  pose proof (Z.mod_pos_bound ch 128 ltac:(lia)).
  rewrite lor_shift_add with (k := 7) by lia. change (2 ^ 7) with 128.
  set (n := acc * 128 + ch mod 128).
  assert (n mod 128 = ch mod 128 /\ n / 128 = acc) as [Hm Hd].
  { subst n. rewrite Z.add_comm, Z.mod_add, Z.div_add, (Z.mod_small (ch mod 128)), Z.div_small; lia. }
  assert (ser_writedata8 (Z.lor (Z.land n 127) (if first then 0 else 128)) = [ch]) as Hw.
  { change 127 with (2 ^ 7 - 1). rewrite land_ones_mod by lia. change (2 ^ 7) with 128.
    rewrite Hm, HP. unfold ser_writedata8, is_byte in *. rewrite u8_small by lia.
    simpl. by rewrite Z.mod_small by lia. }
  destruct Hpre as [[-> ->]|[Hacc [room Hr]]].
  - exists 1%nat. simpl. rewrite Hw. destruct (Z.leb_spec n 127); [done|lia].
  - exists (S room). cbn [WriteVarInt_loop]. rewrite Hw.
    destruct (Z.leb_spec n 127); [lia|].
    rewrite Z.shiftr_div_pow2 by lia. change (2 ^ 7) with 128. rewrite Hd, Hr. done.
Qed.

Lemma ReadVarInt_loop_canonical max acc pre s n rest :
  max mod 128 = 127 -> 0 <= acc <= max -> bytes_ok s -> varint_prefix acc pre ->
  ReadVarInt_loop max acc s = Ok (n, rest) ->
  exists room cs, s = cs ++ rest /\ WriteVarInt_loop room n true = Ok (pre ++ cs) /\ 0 <= n <= max.
Proof.
  intros Hmax. revert acc pre; induction s as [|ch s IH]; intros acc pre Hacc Hs Hpre; [done|].
  cbn [ReadVarInt_loop]. apply Forall_cons_1 in Hs as [Hch Hs].
  destruct (Z.ltb_spec (Z.shiftr max 7) acc) as [|Hle]; [done|].
  destruct (varint_prefix_step acc pre ch (Z.land ch 0x80 =? 0) Hch Hpre eq_refl) as [room Hw].
  set (n1 := Z.lor _ _) in *.
  assert (0 <= n1 <= max).
  { subst n1. change 0x7F with (2 ^ 7 - 1). rewrite land_ones_mod, Z.shiftl_mul_pow2 by lia.
    rewrite Z.shiftr_div_pow2 in Hle by lia. change (2 ^ 7) with 128 in *.
    pose proof (Z.mod_pos_bound ch 128). pose proof (Z.div_mod max 128).
    rewrite lor_shift_add with (k := 7); lia. }
  destruct (Z.land ch 128 =? 0) eqn:Hf; simpl.
  - intros [= <- <-]. exists room, [ch]. done.
  - destruct (Z.eqb_spec n1 max); [done|]. intros H1.
    destruct (IH (n1 + 1) (pre ++ [ch])) as (room' & cs & -> & Hcs & Hn); try done; [lia| |].
    + right. split; [lia|]. exists room. by replace (n1 + 1 - 1) with n1 by lia.
    + exists room', (ch :: cs). by rewrite <- app_assoc in Hcs.
Qed.

(** What the integer types of the template have in common: every value fits
    the buffer [tmp], and the largest value is of the form [2^k - 1], [k >= 7]. *)
Definition it_ok (I : IntType) : Prop :=
  it_max I mod 128 = 127 /\ 0 <= it_max I < varint_cap (Z.to_nat ((it_sizeof I * 8 + 6) / 7)).

Lemma uint32_t_ok : it_ok uint32_t.
Proof. split; [done|]. vm_compute. split; congruence. Qed.
Lemma uint64_t_ok : it_ok uint64_t.
Proof. split; [done|]. vm_compute. split; congruence. Qed.
Lemma int_nonneg_ok : it_ok int_nonneg.
Proof. split; [done|]. vm_compute. split; congruence. Qed.
#[export] Hint Resolve uint32_t_ok uint64_t_ok int_nonneg_ok : salem.

Lemma WriteVarInt_total I n :
  it_ok I -> 0 <= n <= it_max I -> exists bs, WriteVarInt I n = Ok bs /\ bytes_ok bs.
Proof.
  intros [_ HI] Hn.
  destruct (WriteVarInt_loop_total (Z.to_nat ((it_sizeof I * 8 + 6) / 7)) n true) as [bs Hbs]; [lia|].
  exists bs. split; [done|]. by eapply WriteVarInt_loop_ok.
Qed.

#[export] Instance varint_codec_ok I : it_ok I -> CodecOk (varint_codec I) (fun n => 0 <= n <= it_max I).
Proof.
  intros HI n Hn. destruct (WriteVarInt_total I n HI Hn) as (bs & Hw & Hok).
  exists bs. split_and!; [done..|]. intros rest.
  by apply (ReadVarInt_loop_app (it_max I) _ n true bs rest Hn) in Hw.
Qed.

Lemma ReadVarInt_canonical I s n rest :
  it_ok I -> bytes_ok s -> ReadVarInt I s = Ok (n, rest) ->
  0 <= n <= it_max I /\ exists cs, s = cs ++ rest /\ WriteVarInt I n = Ok cs.
Proof.
  intros HI Hs H. unfold ReadVarInt in H.
  apply ReadVarInt_loop_canonical with (pre := []) in H as (room & cs & -> & Hw & Hn);
    [|apply HI|destruct HI; lia|done|by left].
  split; [done|]. exists cs. split; [done|].
  destruct (WriteVarInt_total I n HI Hn) as (bs & Hw' & _). rewrite Hw'.
  f_equal. by eapply WriteVarInt_loop_det.
Qed.

(** ** Fixed-width codecs *)

#[export] Instance uint8_codec_ok : CodecOk uint8_codec is_byte.
Proof.
  intros a Ha. eexists. split_and!; [done|apply le_bytes_ok|]. intros. by apply ser_readdata8_app.
Qed.

#[export] Instance uint32_codec_ok : CodecOk uint32_codec is_u32.
Proof.
  intros a Ha. eexists. split_and!; [done|apply le_bytes_ok|]. intros.
  etransitivity; [apply ser_readdata32_app|by rewrite u32_small].
Qed.

#[export] Instance uint64_codec_ok : CodecOk uint64_codec is_u64.
Proof.
  intros a Ha. eexists. split_and!; [done|apply le_bytes_ok|]. intros.
  etransitivity; [apply ser_readdata64_app|by rewrite u64_small].
Qed.

#[export] Instance int32_codec_ok : CodecOk int32_codec is_i32.
Proof.
  intros a Ha. eexists. split_and!; [done|apply le_bytes_ok|]. intros.
  etransitivity; [eapply reader_bind_step, ser_readdata32_app|]. by rewrite i32_u32.
Qed.

#[export] Instance int64_codec_ok : CodecOk int64_codec is_i64.
Proof.
  intros a Ha. eexists. split_and!; [done|apply le_bytes_ok|]. intros.
  etransitivity; [eapply reader_bind_step, ser_readdata64_app|]. by rewrite i64_u64.
Qed.

#[export] Instance compactsize_codec_ok :
  CodecOk compactsize_codec (fun n => 0 <= n <= MAX_SIZE).
Proof.
  intros a Ha. eexists. split_and!; [done|apply WriteCompactSize_ok|].
  intros. by apply ReadCompactSize_app.
Qed.

#[export] Instance flatdata_codec_ok n :
  CodecOk (flatdata_codec n) (fun v => zlen v = n /\ bytes_ok v).
Proof.
  intros v [Hl Hv]. exists v. split_and!; [done..|]. intros. by apply stream_read_app.
Qed.

(** ** Containers *)

Section ContainerLemmas.
Context {A : Type} (c : codec A) (valid : A -> Prop).

(** Reading [j + k] elements is reading [j] and then [k]. *)
Lemma Unserialize_elements_add j k s :
  Unserialize_elements c (j + k) s =
    (v ← Unserialize_elements c j; w ← Unserialize_elements c k; mret (v ++ w)) s.
Proof.
  revert s; induction j as [|j IH]; intros s; simpl.
  - unfold mbind, reader_bind, mret, reader_ret. by destruct (Unserialize_elements c k s) as [[]|].
  - unfold mbind, reader_bind, mret, reader_ret in *.
    destruct (dec c s) as [[a s1]|]; [|done]. rewrite IH.
    destruct (Unserialize_elements c j s1) as [[v s2]|]; [|done].
    by destruct (Unserialize_elements c k s2) as [[w s3]|].
Qed.

Lemma Unserialize_elements_length k s v rest :
  Unserialize_elements c k s = Ok (v, rest) -> length v = k.
Proof.
  revert s v rest; induction k as [|k IH]; intros s v rest; simpl.
  - by intros [= <- <-].
  - intros (a & s1 & _ & H)%reader_bind_Ok. apply reader_bind_Ok in H as (w & s2 & Hw & [= <- <-]).
    simpl. f_equal. eauto.
Qed.

(** Growing the vector batch by batch reads the same elements as one loop
    would, whatever the (positive) batch size. *)
Lemma Unserialize_batches_spec batch nSize fuel v s :
  1 <= batch -> zlen v <= nSize -> nSize - zlen v <= Z.of_nat fuel ->
  Unserialize_batches c batch nSize fuel v s =
    (w ← Unserialize_elements c (Z.to_nat (nSize - zlen v)); mret (v ++ w)) s.
Proof.
  intros Hb. revert v s; induction fuel as [|fuel IH]; intros v s Hv Hf; simpl.
  - destruct (Z.ltb_spec (zlen v) nSize); [lia|].
    replace (Z.to_nat (nSize - zlen v)) with 0%nat by lia. simpl.
    unfold mbind, reader_bind, mret, reader_ret. by rewrite app_nil_r.
  - destruct (Z.ltb_spec (zlen v) nSize).
    2:{ replace (Z.to_nat (nSize - zlen v)) with 0%nat by lia. simpl.
        unfold mbind, reader_bind, mret, reader_ret. by rewrite app_nil_r. }
    set (nMid := if nSize <? zlen v + batch then nSize else zlen v + batch).
    assert (zlen v < nMid <= nSize) by (subst nMid; destruct (Z.ltb_spec nSize (zlen v + batch)); lia).
    replace (Z.to_nat (nSize - zlen v))
      with (Z.to_nat (nMid - zlen v) + Z.to_nat (nSize - nMid))%nat by lia.
    unfold mbind, reader_bind, mret, reader_ret. rewrite Unserialize_elements_add.
    unfold mbind, reader_bind, mret, reader_ret.
    destruct (Unserialize_elements c (Z.to_nat (nMid - zlen v)) s) as [[w s1]|] eqn:Hw; [|done].
    apply Unserialize_elements_length in Hw.
    assert (zlen (v ++ w) = nMid) as Hl by (rewrite zlen_app; unfold zlen in *; lia).
    rewrite IH by (rewrite Hl; lia). rewrite Hl. unfold mbind, reader_bind, mret, reader_ret.
    destruct (Unserialize_elements c (Z.to_nat (nSize - nMid)) s1) as [[x s2]|]; [|done].
    by rewrite app_assoc.
Qed.

Lemma Unserialize_vector_spec batch s :
  1 <= batch -> bytes_ok s ->
  Unserialize_vector c batch s =
    (nSize ← ReadCompactSize; Unserialize_elements c (Z.to_nat nSize)) s.
Proof.
  intros Hb Hs. unfold Unserialize_vector, mbind, reader_bind.
  destruct (ReadCompactSize s) as [[n s1]|] eqn:Hn; [|done].
  apply ReadCompactSize_canonical in Hn as [_ Hn]; [|done].
  rewrite Unserialize_batches_spec by (unfold zlen in *; simpl; lia). unfold mbind, reader_bind, mret, reader_ret.
  change (zlen []) with 0. rewrite Z.sub_0_r.
  by destruct (Unserialize_elements c (Z.to_nat n) s1) as [[]|].
Qed.

Context `{Hc : !CodecOk c valid}.

Lemma Serialize_elements_roundtrip v :
  Forall valid v ->
  exists bs, Serialize_elements c v = Ok bs /\ bytes_ok bs /\
    forall rest, Unserialize_elements c (length v) (bs ++ rest) = Ok (v, rest).
Proof.
  induction 1 as [|a v Ha _ (bs & Hbs & Hok & IH)]; simpl.
  - exists []. by split_and!; [|constructor|].
  - destruct (Hc a Ha) as (b & -> & Hbok & Hd). simpl. rewrite Hbs. simpl.
    exists (b ++ bs). split_and!; [done|by apply bytes_ok_app|]. intros rest.
    rewrite <- app_assoc. erewrite reader_bind_step by apply Hd.
    by erewrite reader_bind_step by apply IH.
Qed.

#[export] Instance vector_codec_ok batch :
  1 <= batch -> CodecOk (vector_codec c batch) (fun v => Forall valid v /\ zlen v <= MAX_SIZE).
Proof.
  intros Hb v [Hv Hl]. destruct (Serialize_elements_roundtrip v Hv) as (bs & Hbs & Hok & Hd).
  simpl. unfold Serialize_vector. rewrite Hbs. simpl. eexists.
  split_and!; [done|apply bytes_ok_app; auto using WriteCompactSize_ok|].
  pose proof (zlen_nonneg v). intros rest. unfold Unserialize_vector. rewrite <- app_assoc.
  erewrite reader_bind_step by (apply ReadCompactSize_app; lia).
  rewrite Unserialize_batches_spec by (unfold zlen in *; simpl; lia). change (zlen []) with 0. rewrite Z.sub_0_r.
  unfold zlen. rewrite Nat2Z.id. erewrite reader_bind_step by apply Hd. done.
Qed.
End ContainerLemmas.

(** Reading block by block is reading everything at once, up to the exception:
    both fail exactly when the stream is too short. *)
Lemma Unserialize_blocks_spec nSize fuel v s :
  zlen v <= nSize -> nSize - zlen v <= Z.of_nat fuel ->
  Unserialize_blocks nSize fuel v s =
    (w ← stream_read (nSize - zlen v); mret (v ++ w)) s.
Proof.
  revert v s; induction fuel as [|fuel IH]; intros v s Hv Hf; simpl.
  all: destruct (Z.ltb_spec (zlen v) nSize); try lia.
  all: unfold mbind, reader_bind, mret, reader_ret, stream_read.
  1,3: replace (nSize - zlen v) with 0 by lia; pose proof (zlen_nonneg s);
    destruct (Z.leb_spec 0 (zlen s)); [simpl; by rewrite app_nil_r|lia].
  set (blk := Z.min _ _).
  assert (0 < blk <= nSize - zlen v) by lia.
  destruct (Z.leb_spec blk (zlen s)); [|destruct (Z.leb_spec (nSize - zlen v) (zlen s)); [lia|done]].
  assert (zlen (take (Z.to_nat blk) s) = blk) as Hl by (unfold zlen in *; rewrite length_take; lia).
  rewrite IH; [|rewrite zlen_app, Hl; lia..].
  unfold mbind, reader_bind, mret, reader_ret, stream_read. rewrite zlen_app, Hl.
  assert (zlen (drop (Z.to_nat blk) s) = zlen s - blk) as -> by (unfold zlen in *; rewrite length_drop; lia).
  destruct (Z.leb_spec (nSize - (zlen v + blk)) (zlen s - blk));
    destruct (Z.leb_spec (nSize - zlen v) (zlen s)); try lia; [|done].
  replace (nSize - zlen v) with (blk + (nSize - (zlen v + blk))) by lia.
  rewrite drop_Z_add by lia. do 2 f_equal. rewrite <- app_assoc. f_equal.
  rewrite (Z2Nat.inj_add blk) by lia. by rewrite <- take_take_drop.
Qed.

Lemma Unserialize_bytes_spec s :
  bytes_ok s -> Unserialize_bytes s = (nSize ← ReadCompactSize; stream_read nSize) s.
Proof.
  intros Hs. unfold Unserialize_bytes, mbind, reader_bind.
  destruct (ReadCompactSize s) as [[n s1]|] eqn:Hn; [|done].
  apply ReadCompactSize_canonical in Hn as [_ Hn]; [|done].
  rewrite Unserialize_blocks_spec by (unfold zlen in *; simpl; lia). unfold mbind, reader_bind, mret, reader_ret.
  change (zlen []) with 0. rewrite Z.sub_0_r. by destruct (stream_read n s1) as [[]|].
Qed.

#[export] Instance bytes_codec_ok :
  CodecOk bytes_codec (fun v => bytes_ok v /\ zlen v <= MAX_SIZE).
Proof.
  intros v [Hv Hl]. pose proof (zlen_nonneg v). eexists.
  split_and!; [done|apply bytes_ok_app; auto using WriteCompactSize_ok|].
  intros rest. simpl. unfold Unserialize_bytes. rewrite <- app_assoc.
  erewrite reader_bind_step by (apply ReadCompactSize_app; lia).
  rewrite Unserialize_blocks_spec by (unfold zlen in *; simpl; lia). change (zlen []) with 0. rewrite Z.sub_0_r.
  erewrite reader_bind_step by (apply stream_read_app; done). done.
Qed.

(** ** Classes *)

#[export] Instance pair_codec_ok {A B} (c : codec A) (d : codec B) P Q :
  CodecOk c P -> CodecOk d Q -> CodecOk (pair_codec c d) (fun '(a, b) => P a /\ Q b).
Proof.
  intros Hc Hd [a b] [Ha Hb]. destruct (Hc a Ha) as (x & Hx & Hxo & Hxd).
  destruct (Hd b Hb) as (y & Hy & Hyo & Hyd). exists (x ++ y). simpl. rewrite Hx. simpl. rewrite Hy.
  split_and!; [done|by apply bytes_ok_app|]. intros rest. rewrite <- app_assoc.
  etransitivity; [eapply reader_bind_step, Hxd|]. etransitivity; [eapply reader_bind_step, Hyd|]. done.
Qed.

Lemma map_codec_ok {A B} (f : B -> A) (g : A -> B) (c : codec A) P (Q : B -> Prop) :
  CodecOk c P -> (forall b, Q b -> P (f b) /\ g (f b) = b) -> CodecOk (map_codec f g c) Q.
Proof.
  intros Hc Hfg b Hb. destruct (Hfg b Hb) as [HP Hg]. destruct (Hc _ HP) as (x & Hx & Hxo & Hd).
  exists x. split_and!; [done..|]. intros rest. etransitivity; [eapply reader_bind_step, Hd|].
  by rewrite Hg.
Qed.

(** A codec writes different values differently. *)
Lemma codec_inj {A} (c : codec A) P a b :
  CodecOk c P -> P a -> P b -> enc c a = enc c b -> a = b.
Proof.
  intros Hc Ha Hb Heq. destruct (Hc a Ha) as (x & Hx & _ & Hxd). destruct (Hc b Hb) as (y & Hy & _ & Hyd).
  assert (x = y) as <- by congruence. specialize (Hxd []). specialize (Hyd []). congruence.
Qed.

(** Values that take bytes cannot be confused when written one after the other. *)
Lemma elements_inj {A} (c : codec A) P : CodecOk c P -> (forall a, enc c a <> Ok []) ->
  forall v w, Forall P v -> Forall P w -> Serialize_elements c v = Serialize_elements c w -> v = w.
Proof.
  intros Hc Hne v. induction v as [|a v IH]; intros w Hv Hw Heq.
  - destruct w as [|b w]; [done|]. apply Forall_cons_1 in Hw as [Hb Hw].
    destruct (Hc b Hb) as (y & Hy & _). destruct (Serialize_elements_roundtrip c P w Hw) as (ys & Hys & _).
    cbn [Serialize_elements] in Heq. rewrite Hy, Hys in Heq. destruct y; [by destruct (Hne b)|discriminate].
  - apply Forall_cons_1 in Hv as [Ha Hv]. destruct (Hc a Ha) as (x & Hx & _ & Hxd).
    destruct (Serialize_elements_roundtrip c P v Hv) as (xs & Hxs & _). cbn [Serialize_elements] in Heq. rewrite Hx, Hxs in Heq.
    destruct w as [|b w]; [destruct x; [by destruct (Hne a)|discriminate]|].
    apply Forall_cons_1 in Hw as [Hb Hw]. destruct (Hc b Hb) as (y & Hy & _ & Hyd).
    destruct (Serialize_elements_roundtrip c P w Hw) as (ys & Hys & _). cbn [Serialize_elements] in Heq. rewrite Hy, Hys in Heq.
    injection Heq as Heq. specialize (Hxd xs). specialize (Hyd ys). rewrite Heq, Hyd in Hxd. injection Hxd as <- <-.
    f_equal. apply IH; [done..|congruence].
Qed.

Lemma Serialize_elements_total {A} (c : codec A) v : (forall a, exists bs, enc c a = Ok bs) ->
  exists bs, Serialize_elements c v = Ok bs.
Proof.
  intros H. induction v as [|a v [bs IH]]; [by eexists|]. destruct (H a) as [b Hb]. exists (b ++ bs). cbn. by rewrite Hb, IH.
Qed.

(** * Properties *)

(** C40: A [CDataStream] with its read cursor and its eager clearing implements
    the plain byte stream of what is left to read: [read] and [ignore] return
    the same bytes, leave the same rest and throw the same exceptions, and
    [write] appends, as long as the cursor stays within the 32 bits in which
    [read] computes it. *)
Theorem CDataStream_refines (st : CDataStream) (nSize : Z) (pch : bytes) :
  ds_ok st -> 0 <= nSize -> ds_nReadPos st + nSize < 2 ^ 32 -> zlen (ds_vch st) < 2 ^ 32 ->
  match ds_read nSize st with
  | Ok (out, st') => ds_ok st' /\ stream_read nSize (ds_rest st) = Ok (out, ds_rest st')
  | Throw e => stream_read nSize (ds_rest st) = Throw e
  end /\
  match ds_ignore nSize st with
  | Ok st' => ds_ok st' /\ stream_ignore nSize (ds_rest st) = Ok (tt, ds_rest st')
  | Throw e => stream_ignore nSize (ds_rest st) = Throw e
  end /\
  ds_rest (ds_write pch st) = ds_rest st ++ pch.
Proof.
  intros Hok Hn Hw Hv. exact (conj (ds_read_refines nSize st Hok Hn Hw Hv)
    (conj (ds_ignore_refines nSize st Hok Hw) (ds_write_rest pch st Hok))).
Qed.

Lemma CDataStream_refines_witness :
  exists st', ds_read 2 (mkCDataStream [1; 2; 3; 4] 1) = Ok ([2; 3], st') /\ ds_ok st'.
Proof.
  destruct (CDataStream_refines (mkCDataStream [1; 2; 3; 4] 1) 2 []) as [H _];
    [unfold ds_ok, zlen; simpl; lia|lia|simpl; lia|unfold zlen; simpl; lia|].
  cbn in H. destruct H as [H _]. eexists. split; [reflexivity|exact H].
Defined.

(** The CompactSize codec is exact: a byte string is read as the size [n]
    with the rest [rest] exactly when it is the bytes written for [n] followed
    by [rest]; in particular no other (non-canonical) encoding is accepted. *)
Theorem CompactSize_exact (n : Z) (s rest : bytes) :
  bytes_ok s -> 0 <= n <= MAX_SIZE ->
  ReadCompactSize s = Ok (n, rest) <-> s = WriteCompactSize n ++ rest.
Proof.
  intros Hs Hn. split; [intros H; by apply ReadCompactSize_canonical|]. intros ->. by apply ReadCompactSize_app.
Qed.

Lemma CompactSize_exact_witness : ReadCompactSize [253; 0; 1; 7] = Ok (256, [7]).
Proof.
  apply (CompactSize_exact 256 [253; 0; 1; 7] [7]);
    [decide_true|unfold MAX_SIZE; lia|reflexivity].
Defined.

(** The VarInt codec of an integer type is a bijection between its values
    and the byte strings it accepts: every value has an encoding that fits the
    temporary buffer of [WriteVarInt], and reading a byte string gives [n]
    exactly when it starts with the encoding of [n]. *)
Theorem VarInt_exact (I : IntType) (n : Z) (s rest : bytes) :
  it_ok I -> bytes_ok s -> 0 <= n <= it_max I ->
  exists cs, WriteVarInt I n = Ok cs /\ (ReadVarInt I s = Ok (n, rest) <-> s = cs ++ rest).
Proof.
  intros HI Hs Hn. destruct (varint_codec_ok I HI n Hn) as (cs & Hw & _ & Hr). exists cs. split; [done|]. split.
  - intros H. destruct (ReadVarInt_canonical I s n rest HI Hs H) as (_ & cs' & -> & Hw').
    simpl in Hw. congruence.
  - intros ->. apply Hr.
Qed.

Lemma VarInt_exact_witness : ReadVarInt uint32_t [0x82; 0xFE; 0x7F; 9] = Ok (65535, [9]).
Proof.
  destruct (VarInt_exact uint32_t 65535 [0x82; 0xFE; 0x7F; 9] [9]) as (cs & Hw & Hr);
    [apply uint32_t_ok|decide_true|vm_compute; split; congruence|].
  apply Hr. vm_compute in Hw. injection Hw as <-. reflexivity.
Defined.

(** Growing a vector batch by batch while reading it (so that a bogus length
    cannot make the reader allocate) reads the same elements, leaves the same
    rest and fails in the same way as reading the announced number of elements
    in one loop; likewise for byte vectors read block by block. *)
Theorem batched_read_equivalent {A} (c : codec A) (batch : Z) (s : bytes) :
  1 <= batch -> bytes_ok s ->
  Unserialize_vector c batch s = (nSize ← ReadCompactSize; Unserialize_elements c (Z.to_nat nSize)) s /\
  Unserialize_bytes s = (nSize ← ReadCompactSize; stream_read nSize) s.
Proof. auto using Unserialize_vector_spec, Unserialize_bytes_spec. Qed.

Lemma batched_read_equivalent_witness :
  Unserialize_vector uint8_codec 2 [3; 7; 8; 9; 10] = Ok ([7; 8; 9], [10]).
Proof.
  destruct (batched_read_equivalent uint8_codec 2 [3; 7; 8; 9; 10]) as [H _];
    [lia|decide_true|]. rewrite H. reflexivity.
Defined.
