(* ===== verification/StrEncodings.v ===== *)
(** * Text encodings of bytes (utilstrencodings.h, utilstrencodings.cpp, uint256.cpp)

    A [std::string] is its list of characters, each a byte; a C string is the
    list of the characters before its terminating zero. Hexadecimal text, the
    text form of a 256-bit hash, and the conversion between groups of bits that
    the other encodings build on. *)
From S2P Require Import Prelude.

(** The characters of a literal. *)
Fixpoint chars (s : string) : bytes :=
  match s with
  | EmptyString => []
  | String c s => Z.of_N (Ascii.N_of_ascii c) :: chars s
  end.

(** [isspace] in the C locale. *)
Definition isspace (c : Z) : bool := (c =? 32) || ((9 <=? c) && (c <=? 13)).

Definition tolower (c : Z) : Z := if (65 <=? c) && (c <=? 90) then c + 32 else c.

Fixpoint skip_spaces (psz : bytes) : bytes :=
  match psz with
  | c :: rest => if isspace c then skip_spaces rest else psz
  | [] => []
  end.

(** ** Hexadecimal text *)
Definition p_util_hexdigit : list Z :=
  repeat (-1) 48 ++ [0; 1; 2; 3; 4; 5; 6; 7; 8; 9] ++ repeat (-1) 7 ++ [0xa; 0xb; 0xc; 0xd; 0xe; 0xf] ++ repeat (-1) 26 ++
  [0xa; 0xb; 0xc; 0xd; 0xe; 0xf] ++ repeat (-1) 153.

Definition HexDigit (c : Z) : Z := nth (Z.to_nat (u8 c)) p_util_hexdigit (-1).

Definition IsHex (str : bytes) : bool :=
  forallb (fun c => negb (HexDigit c <? 0)) str && ((0 <? zlen str) && (zlen str mod 2 =? 0)).

Definition IsHexNumber (str : bytes) : bool :=
  let starting_location := if (2 <? zlen str) && bool_decide (take 2 str = chars "0x") then 2 else 0 in
  forallb (fun c => negb (HexDigit c <? 0)) (drop (Z.to_nat starting_location) str) && (starting_location <? zlen str).

(** The loop of [ParseHex]; [n] is the first half of a byte once it has been read. *)
Fixpoint ParseHex_loop (n : option Z) (psz : bytes) : bytes :=
  match psz, n with
  | [], _ => []
  | c :: psz, None =>
      if isspace c then ParseHex_loop None psz
      else if HexDigit c =? -1 then [] else ParseHex_loop (Some (u8 (Z.shiftl (HexDigit c) 4))) psz
  | c :: psz, Some n => if HexDigit c =? -1 then [] else Z.lor n (HexDigit c) :: ParseHex_loop None psz
  end.

Definition ParseHex (psz : bytes) : bytes := ParseHex_loop None psz.

Definition hexmap : bytes := chars "0123456789abcdef".

Definition hex_pair (val : Z) : bytes := [nth (Z.to_nat (Z.shiftr val 4)) hexmap 0; nth (Z.to_nat (Z.land val 15)) hexmap 0].

Definition HexStr (fSpaces : bool) (l : bytes) : bytes :=
  match l with
  | [] => []
  | val :: l => hex_pair val ++ (l ≫= fun val => (if fSpaces then chars " " else []) ++ hex_pair val)
  end.

(** ** The text of a 256-bit hash *)

(** The digits of [SetHex], from the last one; [n] bytes are left to fill. *)
Fixpoint set_nibbles (n : nat) (ds : list Z) : bytes :=
  match n, ds with
  | O, _ => []
  | S n, [] => repeat 0 (S n)
  | S n, [lo] => lo :: repeat 0 n
  | S n, lo :: hi :: ds => Z.lor lo (u8 (Z.shiftl hi 4)) :: set_nibbles n ds
  end.

Fixpoint hex_digits (psz : bytes) : list Z :=
  match psz with
  | c :: psz => if HexDigit c =? -1 then [] else HexDigit c :: hex_digits psz
  | [] => []
  end.

Definition SetHex (n : nat) (psz : bytes) : bytes :=
  let psz := skip_spaces psz in
  let psz := match psz with c :: x :: rest => if (c =? 48) && (tolower x =? 120) then rest else psz | _ => psz end in
  set_nibbles n (rev (hex_digits psz)).

Definition GetHex (data : bytes) : bytes := HexStr false (rev data).

Definition uint256S (str : bytes) : bytes := SetHex 32 str.

(** * Lemmas *)

Lemma HexDigit_range c : HexDigit c = -1 \/ 0 <= HexDigit c < 16.
Proof.
  assert (Hb : is_byte (u8 c)) by apply (Z.mod_pos_bound c 256 ltac:(lia)). unfold HexDigit. revert Hb. generalize (u8 c). clear c. intros c Hc.
  assert (H : (fun d => (d =? -1) || ((0 <=? d) && (d <? 16))) (nth (Z.to_nat c) p_util_hexdigit (-1)) = true).
  { revert c Hc. apply (byte_forall (fun c => (fun d => (d =? -1) || ((0 <=? d) && (d <? 16))) (nth (Z.to_nat c) p_util_hexdigit (-1)))). vm_compute. reflexivity. }
  cbn beta in H. apply orb_true_iff in H as [H%Z.eqb_eq|H]; [by left|]. bool_to_prop. right. lia.
Qed.

(** The two digits of a byte. *)
Definition pair_ok (val : Z) : bool :=
  match hex_pair val with
  | [a; b] => (HexDigit a =? val / 16) && (HexDigit b =? val mod 16) && negb (isspace a) && negb (isspace b)
  | _ => false
  end.

Lemma hex_pair_ok val : is_byte val -> exists a b,
  hex_pair val = [a; b] /\ HexDigit a = val / 16 /\ HexDigit b = val mod 16 /\ isspace a = false /\ isspace b = false.
Proof.
  intros Hv. assert (H : pair_ok val = true) by (revert val Hv; apply byte_forall; vm_compute; reflexivity).
  unfold pair_ok in H. destruct (hex_pair val) as [|a [|b [|]]]; try discriminate H.
  rewrite !andb_true_iff, !negb_true_iff, !Z.eqb_eq in H. destruct H as [[[? ?] ?] ?]. by exists a, b.
Qed.

Lemma byte_nibbles val : is_byte val -> Z.lor (u8 (Z.shiftl (val / 16) 4)) (val mod 16) = val.
Proof.
  intros Hv. pose proof (Z.div_mod val 16 ltac:(lia)). unfold is_byte in Hv. pose proof (Z.mod_pos_bound val 16 ltac:(lia)).
  assert (0 <= val / 16 < 16) by (split; [apply Z.div_pos; lia|apply Z.div_lt_upper_bound; lia]).
  rewrite Z.shiftl_mul_pow2, u8_small by lia. rewrite lor_shift_add by lia. lia.
Qed.

Lemma ParseHex_pair val psz : is_byte val -> ParseHex (hex_pair val ++ psz) = val :: ParseHex psz.
Proof.
  intros Hv. destruct (hex_pair_ok val Hv) as (a & b & -> & Ha & Hb & Hsa & Hsb). unfold ParseHex. cbn [app ParseHex_loop]. rewrite Hsa, Ha, Hb.
  pose proof (Z.mod_pos_bound val 16 ltac:(lia)). assert (0 <= val / 16) by (apply Z.div_pos; unfold is_byte in Hv; lia).
  destruct (Z.eqb_spec (val / 16) (-1)); [lia|]. destruct (Z.eqb_spec (val mod 16) (-1)); [lia|]. by rewrite byte_nibbles.
Qed.

Lemma ParseHex_space psz : ParseHex (chars " " ++ psz) = ParseHex psz.
Proof. done. Qed.

Lemma ParseHex_HexStr fSpaces l : bytes_ok l -> ParseHex (HexStr fSpaces l) = l.
Proof.
  destruct 1 as [|val l Hv Hl]; [done|]. unfold HexStr. rewrite ParseHex_pair by done. f_equal.
  induction Hl as [|x l Hx _ IH]; [done|]. cbn [mbind list_bind]. rewrite <- app_assoc.
  destruct fSpaces; rewrite ?ParseHex_space; [|change ([] ++ ?y) with y]; rewrite ParseHex_pair by done; by rewrite IH.
Qed.

(** *** Numbers *)
Definition hex_number (ds : list Z) : Z := foldl (fun a d => 16 * a + d) 0 ds.
Definition is_nibble (d : Z) : Prop := 0 <= d < 16.

Lemma hex_number_snoc ds d : hex_number (ds ++ [d]) = 16 * hex_number ds + d.
Proof. unfold hex_number. by rewrite foldl_app. Qed.

Lemma hex_digits_ok psz : Forall is_nibble (hex_digits psz).
Proof.
  induction psz as [|c psz IH]; cbn [hex_digits]; [constructor|]. destruct (HexDigit_range c) as [->|Hc]; [constructor|].
  destruct (HexDigit c =? -1); by constructor.
Qed.

Lemma le_bytes_zero n : le_bytes n 0 = repeat 0 n.
Proof. induction n as [|n IH]; [done|]. cbn [le_bytes repeat]. f_equal. exact IH. Qed.

(** [SetHex] stores the number the digits denote, modulo the width. *)
Lemma set_nibbles_ok n ds : Forall is_nibble ds -> set_nibbles n ds = le_bytes n (hex_number (rev ds)).
Proof.
  revert ds; induction n as [|n IH]; intros ds Hds; [done|]. destruct ds as [|lo [|hi ds]].
  - symmetry. apply (le_bytes_zero (S n)).
  - apply Forall_cons_1 in Hds as [Hlo _]. unfold is_nibble in Hlo. change (hex_number (rev [lo])) with lo. cbn [set_nibbles le_bytes].
    rewrite Z.mod_small, Z.div_small, le_bytes_zero by lia. done.
  - apply Forall_cons_1 in Hds as [Hlo [Hhi Hds]%Forall_cons_1]. unfold is_nibble in Hlo, Hhi. cbn [set_nibbles le_bytes rev]. rewrite !hex_number_snoc, IH by done.
    rewrite Z.shiftl_mul_pow2, u8_small, Z.lor_comm, lor_shift_add by lia.
    replace (16 * (16 * hex_number (rev ds) + hi) + lo) with (hi * 2 ^ 4 + lo + hex_number (rev ds) * 256) by lia.
    rewrite Z.mod_add, Z.mod_small, Z.div_add, Z.div_small by lia. done.
Qed.

Lemma skip_spaces_app sp psz : Forall (fun c => isspace c = true) sp -> skip_spaces (sp ++ psz) = skip_spaces psz.
Proof. induction 1 as [|c sp Hc _ IH]; [done|]. cbn [app skip_spaces]. by rewrite Hc. Qed.

Lemma digit_not_space c : isspace c = true -> HexDigit c = -1.
Proof.
  unfold isspace. intros H. assert (Hc : c = 32 \/ 9 <= c <= 13) by (destruct (Z.eqb_spec c 32); [by left|]; cbn [orb] in H; bool_to_prop; lia).
  assert (c = 32 \/ c = 9 \/ c = 10 \/ c = 11 \/ c = 12 \/ c = 13) as [-> | [-> | [-> | [-> | [-> | ->]]]]] by lia; reflexivity.
Qed.

Lemma hex_digits_all psz : Forall (fun c => HexDigit c <> -1) psz -> hex_digits psz = map HexDigit psz.
Proof. induction 1 as [|c psz Hc _ IH]; [done|]. cbn [hex_digits map]. destruct (Z.eqb_spec (HexDigit c) (-1)); [done|]. by rewrite IH. Qed.

Lemma SetHex_plain n psz : Forall (fun c => HexDigit c <> -1) psz -> SetHex n psz = le_bytes n (hex_number (map HexDigit psz)).
Proof.
  intros Hp. assert (Hsk : skip_spaces psz = psz).
  { destruct Hp as [|c psz Hc _]; [done|]. cbn [skip_spaces]. destruct (isspace c) eqn:E; [by apply digit_not_space in E|done]. }
  unfold SetHex. rewrite Hsk. assert (Hx : (match psz with c :: x :: rest => if (c =? 48) && (tolower x =? 120) then rest else psz | _ => psz end) = psz).
  { destruct Hp as [|c ? Hc [|x rest Hx _]]; [done..|]. destruct (Z.eqb_spec (tolower x) 120) as [E|]; [|by rewrite andb_false_r].
    destruct Hx. unfold tolower in E. destruct ((65 <=? x) && (x <=? 90)).
    - by replace x with 88 by lia.
    - by rewrite E. }
  rewrite Hx, set_nibbles_ok, rev_involutive, hex_digits_all; [done..|]. apply Forall_rev, hex_digits_ok.
Qed.

Lemma SetHex_prefix n sp x psz : Forall (fun c => isspace c = true) sp -> x = 120 \/ x = 88 -> Forall (fun c => HexDigit c <> -1) psz ->
  SetHex n (sp ++ 48 :: x :: psz) = le_bytes n (hex_number (map HexDigit psz)).
Proof.
  intros Hsp Hx Hp. unfold SetHex. rewrite skip_spaces_app by done. change (skip_spaces (48 :: x :: psz)) with (48 :: x :: psz). cbv zeta iota beta.
  assert (tolower x = 120) as -> by (destruct Hx as [-> | ->]; reflexivity). change ((48 =? 48) && (120 =? 120)) with true. cbn iota.
  rewrite set_nibbles_ok, rev_involutive, hex_digits_all; [done..|]. apply Forall_rev, hex_digits_ok.
Qed.

Lemma HexStr_cons val l : HexStr false (val :: l) = hex_pair val ++ HexStr false l.
Proof. destruct l; done. Qed.

Lemma HexStr_snoc l v : HexStr false (l ++ [v]) = HexStr false l ++ hex_pair v.
Proof. induction l as [|y l IH]; [apply app_nil_r|]. change ((y :: l) ++ [v]) with (y :: (l ++ [v])). by rewrite !HexStr_cons, IH, app_assoc. Qed.

Lemma HexStr_digits l : bytes_ok l -> Forall (fun c => HexDigit c <> -1) (HexStr false l) /\ hex_number (map HexDigit (HexStr false l)) = le_value (rev l).
Proof.
  induction l as [|v l IH] using rev_ind; [by split; [constructor|]|]. intros [Hl [Hv _]%Forall_cons_1]%Forall_app. destruct (IH Hl) as [IH1 IH2].
  rewrite HexStr_snoc, rev_app_distr. destruct (hex_pair_ok v Hv) as (a & b & -> & Ha & Hb & _). pose proof (Z.mod_pos_bound v 16 ltac:(lia)).
  unfold is_byte in Hv. assert (0 <= v / 16) by (apply Z.div_pos; lia). split.
  - apply Forall_app. split; [done|]. repeat constructor; lia.
  - rewrite map_app. cbn [map]. change [HexDigit a; HexDigit b] with ([HexDigit a] ++ [HexDigit b]). rewrite app_assoc, !hex_number_snoc, IH2, Ha, Hb.
    cbn [rev app le_value]. pose proof (Z.div_mod v 16 ltac:(lia)). lia.
Qed.

Lemma HexStr_length l : zlen (HexStr false l) = 2 * zlen l.
Proof. induction l as [|v l IH]; [done|]. rewrite HexStr_cons, zlen_app, IH, zlen_cons. unfold hex_pair, zlen. cbn [length]. lia. Qed.

Lemma IsHex_HexStr l : bytes_ok l -> IsHex (HexStr false l) = negb (zlen l =? 0).
Proof.
  intros Hl. destruct (HexStr_digits l Hl) as [Hd _]. unfold IsHex. rewrite HexStr_length. rewrite (Z.mul_comm 2), Z.mod_mul by lia.
  replace (forallb _ _) with true; [pose proof (zlen_nonneg l); cbn [andb]; destruct (Z.eqb_spec (zlen l) 0), (Z.ltb_spec 0 (zlen l * 2)); cbn; lia|].
  symmetry. rewrite forallb_forall. intros c Hc. rewrite List.Forall_forall in Hd. specialize (Hd c Hc). destruct (HexDigit_range c) as [|Hr]; [done|].
  apply negb_true_iff, Z.ltb_ge. lia.
Qed.

(** * Properties *)

(** Hexadecimal text is exact. [HexStr] of any bytes, with or without spaces,
    is read back by [ParseHex]; it is hexadecimal in the sense of [IsHex] unless
    there are no bytes. The text of a 256-bit hash is read back by [uint256S], and
    [uint256S] of any digits after spaces and an optional 0x is the number they
    denote modulo 2^256. *)
Theorem hex_exact l fSpaces hash sp x digits :
  bytes_ok l -> bytes_ok hash -> length hash = 32%nat ->
  Forall (fun c => isspace c = true) sp -> x = 120 \/ x = 88 -> Forall (fun c => HexDigit c <> -1) digits ->
  ParseHex (HexStr fSpaces l) = l /\
  IsHex (HexStr false l) = negb (zlen l =? 0) /\
  uint256S (GetHex hash) = hash /\
  le_value (uint256S digits) = hex_number (map HexDigit digits) mod 2 ^ 256 /\
  uint256S (sp ++ 48 :: x :: digits) = uint256S digits.
Proof.
  intros Hl Hh Hlen Hsp Hx Hd. split; [by apply ParseHex_HexStr|]. split; [by apply IsHex_HexStr|]. unfold uint256S, GetHex.
  destruct (HexStr_digits (rev hash) (Forall_rev Hh)) as [H1 H2]. rewrite !SetHex_plain, SetHex_prefix by done.
  split; [|by rewrite le_value_bytes]. rewrite H2, rev_involutive, <- Hlen. by apply le_bytes_value.
Qed.

Lemma hex_exact_witness :
  uint256S (GetHex (repeat 7 32)) = repeat 7 32 /\ le_value (uint256S (chars " 0xfF")) = 255.
Proof.
  destruct (hex_exact [1; 255] true (repeat 7 32) [32] 120 (chars "fF")) as (_ & _ & H1 & H2 & H3).
  - repeat constructor; unfold is_byte; lia.
  - repeat constructor; unfold is_byte; lia.
  - reflexivity.
  - repeat constructor.
  - by left.
  - repeat constructor; discriminate.
  - split; [exact H1|]. change (chars " 0xfF") with ([32] ++ 48 :: 120 :: chars "fF"). rewrite H3. exact H2.
Defined.
