(* ===== verification/Amount.v ===== *)
(** * Amounts and fee rates (amount.h, feerate.h, feerate.cpp) *)
From S2P Require Import Prelude.

Definition CAmount : Type := Z.
Definition CASH : CAmount := 100000000.
Definition CENT : CAmount := 1000000.
Definition MAX_MONEY : CAmount := 20000000 * CASH.

Definition MoneyRange (nValue : CAmount) : bool := (0 <=? nValue) && (nValue <=? MAX_MONEY).

(** ** CFeeRate

    Signed multiplication is taken modulo 2^64; division truncates. *)
Record CFeeRate := mkCFeeRate { nSatoshisPerK : CAmount }.

Definition assert_size_int64 (nBytes : Z) : bool := nBytes <=? INT64_MAX.

Definition CFeeRate_ctor (nFeePaid : CAmount) (nBytes : Z) : result CFeeRate :=
  assert_then (assert_size_int64 nBytes) "nBytes_ <= int64 max"
    (Ok (mkCFeeRate (if 0 <? nBytes then Z.quot (i64 (nFeePaid * 1000)) nBytes else 0))).

Definition GetFee (r : CFeeRate) (nBytes : Z) : result CAmount :=
  assert_then (assert_size_int64 nBytes) "nBytes_ <= int64 max"
    (let nSize := i64 nBytes in
     let nFee := Z.quot (i64 (nSatoshisPerK r * nSize)) 1000 in
     Ok (if (nFee =? 0) && negb (nSize =? 0) then
           let nFee := if 0 <? nSatoshisPerK r then 1 else nFee in
           if nSatoshisPerK r <? 0 then -1 else nFee
         else nFee)).

Definition GetFeePerK (r : CFeeRate) : result CAmount := GetFee r 1000.

Definition CFeeRate_lt (a b : CFeeRate) : bool := nSatoshisPerK a <? nSatoshisPerK b.

Definition CFeeRate_add (a b : CFeeRate) : CFeeRate :=
  mkCFeeRate (i64 (nSatoshisPerK a + nSatoshisPerK b)).

(** * Lemmas *)

Lemma MoneyRange_spec v : MoneyRange v = true <-> 0 <= v <= MAX_MONEY.
Proof. unfold MoneyRange. rewrite andb_true_iff, !Z.leb_le. done. Qed.

Lemma MoneyRange_is_i64 v : MoneyRange v = true -> is_i64 v.
Proof. rewrite MoneyRange_spec. unfold is_i64, MAX_MONEY, CASH. lia. Qed.

(** Adding two amounts in the money range never overflows an int64. *)
Lemma MoneyRange_add a b :
  MoneyRange a = true -> MoneyRange b = true -> i64 (a + b) = a + b.
Proof.
  rewrite !MoneyRange_spec. intros. apply i64_small. unfold is_i64, MAX_MONEY, CASH in *. lia.
Qed.
#[export] Hint Resolve MoneyRange_is_i64 : salem.

(** [GetFee] on an exact product: the rounded-down fee, but one satoshi at
    least when a positive rate meets a non-empty size. *)
Lemma GetFee_spec r nBytes :
  0 <= nBytes -> is_i64 (nSatoshisPerK r * nBytes) -> nBytes <= INT64_MAX ->
  GetFee r nBytes = Ok
    (let q := Z.quot (nSatoshisPerK r * nBytes) 1000 in
     if (q =? 0) && negb (nBytes =? 0) then Z.sgn (nSatoshisPerK r) else q).
Proof.
  intros H0 Hp Hb. unfold GetFee, assert_size_int64.
  destruct (Z.leb_spec nBytes INT64_MAX); [simpl|lia].
  unfold INT64_MAX in *. rewrite (i64_small nBytes) by (unfold is_i64; lia).
  rewrite i64_small by done.
  destruct (Z.eqb_spec (Z.quot (nSatoshisPerK r * nBytes) 1000) 0) as [->|]; [|done].
  destruct (negb (nBytes =? 0)); [|done]. simpl. f_equal.
  destruct (Z.ltb_spec 0 (nSatoshisPerK r)), (Z.ltb_spec (nSatoshisPerK r) 0); lia.
Qed.

(** The fee of a non-negative rate is exact up to rounding: it is the
    largest integer not above rate times size / 1000 (one satoshi instead of
    zero for a positive rate and a non-empty size), and it never decreases
    when the size grows, for sizes whose product with the rate fits an int64. *)
Theorem GetFee_bounds_monotone r n m :
  0 <= n <= m -> 0 <= nSatoshisPerK r -> m <= INT64_MAX -> is_i64 (nSatoshisPerK r * m) ->
  exists f g, GetFee r n = Ok f /\ GetFee r m = Ok g /\ 0 <= f <= g /\
    (1000 * f <= nSatoshisPerK r * n \/ f = 1) /\ nSatoshisPerK r * n < 1000 * (f + 1).
Proof.
  intros Hn Hr Hm Hp. set (k := nSatoshisPerK r) in *.
  assert (0 <= k * n <= k * m) by nia.
  rewrite !GetFee_spec by (fold k; unfold is_i64 in *; lia). fold k. simpl.
  do 2 eexists. split_and!; [done..| | | |].
  all: rewrite ?Z.quot_div_nonneg by lia.
  all: pose proof (Z.div_le_mono (k * n) (k * m) 1000);
    pose proof (Z.div_mod (k * n) 1000); pose proof (Z.mod_pos_bound (k * n) 1000);
    pose proof (Z.div_pos (k * n) 1000).
  all: repeat case_if; bool_to_prop; repeat rewrite ?andb_false_iff in *; bool_to_prop; try nia.
Qed.

Lemma GetFee_bounds_monotone_witness : exists g, GetFee (mkCFeeRate 1000) 250 = Ok g /\ 0 <= g.
Proof.
  destruct (GetFee_bounds_monotone (mkCFeeRate 1000) 10 250) as (f & g & _ & Hg & Hle & _);
    [lia|simpl; lia|unfold INT64_MAX; lia|unfold is_i64; simpl; lia|].
  exists g. split; [exact Hg|lia].
Defined.

(** A rate computed from a fee paid for a size never asks for more than that
    fee for the same size, when the fee is positive. *)
Theorem CFeeRate_ctor_GetFee fee size :
  1 <= fee <= MAX_MONEY -> 1 <= size <= MAX_MONEY ->
  exists r f, CFeeRate_ctor fee size = Ok r /\ GetFee r size = Ok f /\ 0 <= f <= fee.
Proof.
  intros Hf Hs. unfold MAX_MONEY, CASH in *.
  unfold CFeeRate_ctor, assert_size_int64, INT64_MAX.
  destruct (Z.leb_spec size (2 ^ 63 - 1)); [simpl|lia].
  destruct (Z.ltb_spec 0 size); [|lia].
  rewrite i64_small by (unfold is_i64; lia).
  set (k := Z.quot (fee * 1000) size).
  assert (0 <= k * size <= fee * 1000).
  { subst k. rewrite Z.quot_div_nonneg by lia.
    pose proof (Z.div_mod (fee * 1000) size). pose proof (Z.mod_pos_bound (fee * 1000) size).
    pose proof (Z.div_pos (fee * 1000) size). nia. }
  eexists _, _. split; [done|]. rewrite GetFee_spec; simpl; fold k;
    [|unfold is_i64, INT64_MAX; lia..]. split; [done|].
  rewrite Z.quot_div_nonneg by lia.
  pose proof (Z.div_le_upper_bound (k * size) 1000 fee). pose proof (Z.div_pos (k * size) 1000).
  destruct (_ && _); lia.
Qed.

Lemma CFeeRate_ctor_GetFee_witness :
  exists r f, CFeeRate_ctor 226 226 = Ok r /\ GetFee r 226 = Ok f /\ 0 <= f <= 226.
Proof. apply (CFeeRate_ctor_GetFee 226 226); unfold MAX_MONEY, CASH; lia. Defined.
