(* ===== verification/Crypto.v ===== *)
(** * Hash functions (sha256.cpp, sha1.cpp, ripemd160.cpp, sha512.cpp, hmac_sha256.cpp,
    hmac_sha512.cpp, hash.h, common.h)

    The transformations are translated line by line. The four hashers share the
    code of [Write] and [Finalize] up to the block size and the encoding of the
    length; it is modelled once, in [Streaming], and instantiated. *)
From S2P Require Import Prelude.

(** ** Words of common.h, read from a pointer at an offset *)
Definition ReadLE32 (ptr : bytes) (off : nat) : Z := le_value (take 4 (drop off ptr)).
Definition ReadLE64 (ptr : bytes) (off : nat) : Z := le_value (take 8 (drop off ptr)).
Definition ReadBE32 (ptr : bytes) (off : nat) : Z := le_value (rev (take 4 (drop off ptr))).
Definition ReadBE64 (ptr : bytes) (off : nat) : Z := le_value (rev (take 8 (drop off ptr))).
Definition WriteLE32 (x : Z) : bytes := le_bytes 4 x.
Definition WriteLE64 (x : Z) : bytes := le_bytes 8 x.
Definition WriteBE32 (x : Z) : bytes := rev (le_bytes 4 x).
Definition WriteBE64 (x : Z) : bytes := rev (le_bytes 8 x).

(** [x >> n | x << (w - n)] on unsigned words. *)
Definition rotr32 (x n : Z) : Z := Z.lor (Z.shiftr x n) (u32 (Z.shiftl x (32 - n))).
Definition rotr64 (x n : Z) : Z := Z.lor (Z.shiftr x n) (u64 (Z.shiftl x (64 - n))).
Definition not32 (x : Z) : Z := u32 (Z.lnot x).

(** ** Streaming: the state of a hasher, [Write] and [Finalize] *)
Record hasher (St : Type) := mkHasher { h_s : St; h_buf : bytes; h_bytes : Z }.
Arguments mkHasher {St} h_s h_buf h_bytes.
Arguments h_s {St} h.
Arguments h_buf {St} h.
Arguments h_bytes {St} h.

(** [memcpy(buf + off, data, data.size())]. *)
Definition memcpy_at (buf : bytes) (off : nat) (data : bytes) : bytes :=
  take off buf ++ data ++ drop (off + length data) buf.

Section Streaming.
Context {St : Type} (B L : nat) (T : St -> bytes -> St) (init : St).
Context (sizedesc : Z -> bytes) (out : St -> bytes).

(** [blocks] transformations, the pointer advancing by a block each time. *)
Fixpoint TransformN (blocks : nat) (s : St) (chunk : bytes) : St :=
  match blocks with
  | O => s
  | S blocks => TransformN blocks (T s chunk) (drop B chunk)
  end.

Definition hash_init : hasher St := mkHasher init (repeat 0 B) 0.

(** The first step of [Write]: fill the buffer, and process it. *)
Definition hash_fill (data : bytes) (h : hasher St) : bytes * hasher St * nat :=
  let bufsize := Z.to_nat (h_bytes h mod Z.of_nat B) in
  if negb (bufsize =? 0)%nat && (B <=? bufsize + length data)%nat then
    let n := (B - bufsize)%nat in
    let buf := memcpy_at (h_buf h) bufsize (take n data) in
    (drop n data, mkHasher (T (h_s h) buf) buf (u64 (h_bytes h + Z.of_nat n)), O)
  else (data, h, bufsize).

Definition hash_Write (data : bytes) (h : hasher St) : hasher St :=
  let '(data, h, bufsize) := hash_fill data h in
  let blocks := (length data / B)%nat in
  let s := TransformN blocks (h_s h) data in
  let bytes := u64 (h_bytes h + Z.of_nat (B * blocks)) in
  let data := drop (B * blocks) data in
  match data with
  | [] => mkHasher s (h_buf h) bytes
  | _ => mkHasher s (memcpy_at (h_buf h) bufsize data) (u64 (bytes + zlen data))
  end.

Definition pad : bytes := 0x80 :: repeat 0 (B - 1).

Definition hash_Finalize (h : hasher St) : bytes :=
  let sd := sizedesc (u64 (Z.shiftl (h_bytes h) 3)) in
  let npad := 1 + (Z.of_nat (2 * B - 1 - L) - h_bytes h mod Z.of_nat B) mod Z.of_nat B in
  out (h_s (hash_Write sd (hash_Write (take (Z.to_nat npad) pad) h))).

(** [Hasher().Write(data).Finalize(hash)]. *)
Definition hash_of (data : bytes) : bytes := hash_Finalize (hash_Write data hash_init).
End Streaming.

(** ** SHA256 (sha256.cpp) *)
Module sha256.

Definition Ch (x y z : Z) : Z := Z.lxor z (Z.land x (Z.lxor y z)).
Definition Maj (x y z : Z) : Z := Z.lor (Z.land x y) (Z.land z (Z.lor x y)).
Definition Sigma0 (x : Z) : Z := Z.lxor (Z.lxor (rotr32 x 2) (rotr32 x 13)) (rotr32 x 22).
Definition Sigma1 (x : Z) : Z := Z.lxor (Z.lxor (rotr32 x 6) (rotr32 x 11)) (rotr32 x 25).
Definition sigma0 (x : Z) : Z := Z.lxor (Z.lxor (rotr32 x 7) (rotr32 x 18)) (Z.shiftr x 3).
Definition sigma1 (x : Z) : Z := Z.lxor (Z.lxor (rotr32 x 17) (rotr32 x 19)) (Z.shiftr x 10).

(** One round: the new values of [d] and [h]. *)
Definition Round (a b c d e f g h k w : Z) : Z * Z :=
  let t1 := u32 (h + Sigma1 e + Ch e f g + k + w) in
  let t2 := u32 (Sigma0 a + Maj a b c) in
  (u32 (d + t1), u32 (t1 + t2)).

Record state := mkState { s0 : Z; s1 : Z; s2 : Z; s3 : Z; s4 : Z; s5 : Z; s6 : Z; s7 : Z }.

Definition Initialize : state :=
  mkState 0x6a09e667 0xbb67ae85 0x3c6ef372 0xa54ff53a
          0x510e527f 0x9b05688c 0x1f83d9ab 0x5be0cd19.

(** The rounds of a transformation on the words of a chunk, and the addition to the state. *)
Definition Rounds (s : state) (w0 w1 w2 w3 w4 w5 w6 w7 w8 w9 w10 w11 w12 w13 w14 w15 : Z) : state :=
  let '(mkState a b c d e f g h) := s in
  let '(d, h) := Round a b c d e f g h 0x428a2f98 w0 in
  let '(c, g) := Round h a b c d e f g 0x71374491 w1 in
  let '(b, f) := Round g h a b c d e f 0xb5c0fbcf w2 in
  let '(a, e) := Round f g h a b c d e 0xe9b5dba5 w3 in
  let '(h, d) := Round e f g h a b c d 0x3956c25b w4 in
  let '(g, c) := Round d e f g h a b c 0x59f111f1 w5 in
  let '(f, b) := Round c d e f g h a b 0x923f82a4 w6 in
  let '(e, a) := Round b c d e f g h a 0xab1c5ed5 w7 in
  let '(d, h) := Round a b c d e f g h 0xd807aa98 w8 in
  let '(c, g) := Round h a b c d e f g 0x12835b01 w9 in
  let '(b, f) := Round g h a b c d e f 0x243185be w10 in
  let '(a, e) := Round f g h a b c d e 0x550c7dc3 w11 in
  let '(h, d) := Round e f g h a b c d 0x72be5d74 w12 in
  let '(g, c) := Round d e f g h a b c 0x80deb1fe w13 in
  let '(f, b) := Round c d e f g h a b 0x9bdc06a7 w14 in
  let '(e, a) := Round b c d e f g h a 0xc19bf174 w15 in
  let w0 := u32 (w0 + ((sigma1 w14) + w9 + (sigma0 w1))) in let '(d, h) := Round a b c d e f g h 0xe49b69c1 w0 in
  let w1 := u32 (w1 + ((sigma1 w15) + w10 + (sigma0 w2))) in let '(c, g) := Round h a b c d e f g 0xefbe4786 w1 in
  let w2 := u32 (w2 + ((sigma1 w0) + w11 + (sigma0 w3))) in let '(b, f) := Round g h a b c d e f 0x0fc19dc6 w2 in
  let w3 := u32 (w3 + ((sigma1 w1) + w12 + (sigma0 w4))) in let '(a, e) := Round f g h a b c d e 0x240ca1cc w3 in
  let w4 := u32 (w4 + ((sigma1 w2) + w13 + (sigma0 w5))) in let '(h, d) := Round e f g h a b c d 0x2de92c6f w4 in
  let w5 := u32 (w5 + ((sigma1 w3) + w14 + (sigma0 w6))) in let '(g, c) := Round d e f g h a b c 0x4a7484aa w5 in
  let w6 := u32 (w6 + ((sigma1 w4) + w15 + (sigma0 w7))) in let '(f, b) := Round c d e f g h a b 0x5cb0a9dc w6 in
  let w7 := u32 (w7 + ((sigma1 w5) + w0 + (sigma0 w8))) in let '(e, a) := Round b c d e f g h a 0x76f988da w7 in
  let w8 := u32 (w8 + ((sigma1 w6) + w1 + (sigma0 w9))) in let '(d, h) := Round a b c d e f g h 0x983e5152 w8 in
  let w9 := u32 (w9 + ((sigma1 w7) + w2 + (sigma0 w10))) in let '(c, g) := Round h a b c d e f g 0xa831c66d w9 in
  let w10 := u32 (w10 + ((sigma1 w8) + w3 + (sigma0 w11))) in let '(b, f) := Round g h a b c d e f 0xb00327c8 w10 in
  let w11 := u32 (w11 + ((sigma1 w9) + w4 + (sigma0 w12))) in let '(a, e) := Round f g h a b c d e 0xbf597fc7 w11 in
  let w12 := u32 (w12 + ((sigma1 w10) + w5 + (sigma0 w13))) in let '(h, d) := Round e f g h a b c d 0xc6e00bf3 w12 in
  let w13 := u32 (w13 + ((sigma1 w11) + w6 + (sigma0 w14))) in let '(g, c) := Round d e f g h a b c 0xd5a79147 w13 in
  let w14 := u32 (w14 + ((sigma1 w12) + w7 + (sigma0 w15))) in let '(f, b) := Round c d e f g h a b 0x06ca6351 w14 in
  let w15 := u32 (w15 + ((sigma1 w13) + w8 + (sigma0 w0))) in let '(e, a) := Round b c d e f g h a 0x14292967 w15 in
  let w0 := u32 (w0 + ((sigma1 w14) + w9 + (sigma0 w1))) in let '(d, h) := Round a b c d e f g h 0x27b70a85 w0 in
  let w1 := u32 (w1 + ((sigma1 w15) + w10 + (sigma0 w2))) in let '(c, g) := Round h a b c d e f g 0x2e1b2138 w1 in
  let w2 := u32 (w2 + ((sigma1 w0) + w11 + (sigma0 w3))) in let '(b, f) := Round g h a b c d e f 0x4d2c6dfc w2 in
  let w3 := u32 (w3 + ((sigma1 w1) + w12 + (sigma0 w4))) in let '(a, e) := Round f g h a b c d e 0x53380d13 w3 in
  let w4 := u32 (w4 + ((sigma1 w2) + w13 + (sigma0 w5))) in let '(h, d) := Round e f g h a b c d 0x650a7354 w4 in
  let w5 := u32 (w5 + ((sigma1 w3) + w14 + (sigma0 w6))) in let '(g, c) := Round d e f g h a b c 0x766a0abb w5 in
  let w6 := u32 (w6 + ((sigma1 w4) + w15 + (sigma0 w7))) in let '(f, b) := Round c d e f g h a b 0x81c2c92e w6 in
  let w7 := u32 (w7 + ((sigma1 w5) + w0 + (sigma0 w8))) in let '(e, a) := Round b c d e f g h a 0x92722c85 w7 in
  let w8 := u32 (w8 + ((sigma1 w6) + w1 + (sigma0 w9))) in let '(d, h) := Round a b c d e f g h 0xa2bfe8a1 w8 in
  let w9 := u32 (w9 + ((sigma1 w7) + w2 + (sigma0 w10))) in let '(c, g) := Round h a b c d e f g 0xa81a664b w9 in
  let w10 := u32 (w10 + ((sigma1 w8) + w3 + (sigma0 w11))) in let '(b, f) := Round g h a b c d e f 0xc24b8b70 w10 in
  let w11 := u32 (w11 + ((sigma1 w9) + w4 + (sigma0 w12))) in let '(a, e) := Round f g h a b c d e 0xc76c51a3 w11 in
  let w12 := u32 (w12 + ((sigma1 w10) + w5 + (sigma0 w13))) in let '(h, d) := Round e f g h a b c d 0xd192e819 w12 in
  let w13 := u32 (w13 + ((sigma1 w11) + w6 + (sigma0 w14))) in let '(g, c) := Round d e f g h a b c 0xd6990624 w13 in
  let w14 := u32 (w14 + ((sigma1 w12) + w7 + (sigma0 w15))) in let '(f, b) := Round c d e f g h a b 0xf40e3585 w14 in
  let w15 := u32 (w15 + ((sigma1 w13) + w8 + (sigma0 w0))) in let '(e, a) := Round b c d e f g h a 0x106aa070 w15 in
  let w0 := u32 (w0 + ((sigma1 w14) + w9 + (sigma0 w1))) in let '(d, h) := Round a b c d e f g h 0x19a4c116 w0 in
  let w1 := u32 (w1 + ((sigma1 w15) + w10 + (sigma0 w2))) in let '(c, g) := Round h a b c d e f g 0x1e376c08 w1 in
  let w2 := u32 (w2 + ((sigma1 w0) + w11 + (sigma0 w3))) in let '(b, f) := Round g h a b c d e f 0x2748774c w2 in
  let w3 := u32 (w3 + ((sigma1 w1) + w12 + (sigma0 w4))) in let '(a, e) := Round f g h a b c d e 0x34b0bcb5 w3 in
  let w4 := u32 (w4 + ((sigma1 w2) + w13 + (sigma0 w5))) in let '(h, d) := Round e f g h a b c d 0x391c0cb3 w4 in
  let w5 := u32 (w5 + ((sigma1 w3) + w14 + (sigma0 w6))) in let '(g, c) := Round d e f g h a b c 0x4ed8aa4a w5 in
  let w6 := u32 (w6 + ((sigma1 w4) + w15 + (sigma0 w7))) in let '(f, b) := Round c d e f g h a b 0x5b9cca4f w6 in
  let w7 := u32 (w7 + ((sigma1 w5) + w0 + (sigma0 w8))) in let '(e, a) := Round b c d e f g h a 0x682e6ff3 w7 in
  let w8 := u32 (w8 + ((sigma1 w6) + w1 + (sigma0 w9))) in let '(d, h) := Round a b c d e f g h 0x748f82ee w8 in
  let w9 := u32 (w9 + ((sigma1 w7) + w2 + (sigma0 w10))) in let '(c, g) := Round h a b c d e f g 0x78a5636f w9 in
  let w10 := u32 (w10 + ((sigma1 w8) + w3 + (sigma0 w11))) in let '(b, f) := Round g h a b c d e f 0x84c87814 w10 in
  let w11 := u32 (w11 + ((sigma1 w9) + w4 + (sigma0 w12))) in let '(a, e) := Round f g h a b c d e 0x8cc70208 w11 in
  let w12 := u32 (w12 + ((sigma1 w10) + w5 + (sigma0 w13))) in let '(h, d) := Round e f g h a b c d 0x90befffa w12 in
  let w13 := u32 (w13 + ((sigma1 w11) + w6 + (sigma0 w14))) in let '(g, c) := Round d e f g h a b c 0xa4506ceb w13 in
  let '(f, b) := Round c d e f g h a b 0xbef9a3f7 (u32 (w14 + (sigma1 w12) + w7 + (sigma0 w15))) in
  let '(e, a) := Round b c d e f g h a 0xc67178f2 (u32 (w15 + (sigma1 w13) + w8 + (sigma0 w0))) in
  mkState (u32 (s0 s + a)) (u32 (s1 s + b)) (u32 (s2 s + c)) (u32 (s3 s + d))
          (u32 (s4 s + e)) (u32 (s5 s + f)) (u32 (s6 s + g)) (u32 (s7 s + h)).

Definition Transform (s : state) (chunk : bytes) : state :=
  Rounds s
    (ReadBE32 chunk 0) (ReadBE32 chunk 4) (ReadBE32 chunk 8) (ReadBE32 chunk 12)
    (ReadBE32 chunk 16) (ReadBE32 chunk 20) (ReadBE32 chunk 24) (ReadBE32 chunk 28)
    (ReadBE32 chunk 32) (ReadBE32 chunk 36) (ReadBE32 chunk 40) (ReadBE32 chunk 44)
    (ReadBE32 chunk 48) (ReadBE32 chunk 52) (ReadBE32 chunk 56) (ReadBE32 chunk 60).

Definition output (s : state) : bytes :=
  WriteBE32 (s0 s) ++ WriteBE32 (s1 s) ++ WriteBE32 (s2 s) ++ WriteBE32 (s3 s) ++
  WriteBE32 (s4 s) ++ WriteBE32 (s5 s) ++ WriteBE32 (s6 s) ++ WriteBE32 (s7 s).
End sha256.

(** ** SHA512 (sha512.cpp) *)
Module sha512.

Definition Ch (x y z : Z) : Z := Z.lxor z (Z.land x (Z.lxor y z)).
Definition Maj (x y z : Z) : Z := Z.lor (Z.land x y) (Z.land z (Z.lor x y)).
Definition Sigma0 (x : Z) : Z := Z.lxor (Z.lxor (rotr64 x 28) (rotr64 x 34)) (rotr64 x 39).
Definition Sigma1 (x : Z) : Z := Z.lxor (Z.lxor (rotr64 x 14) (rotr64 x 18)) (rotr64 x 41).
Definition sigma0 (x : Z) : Z := Z.lxor (Z.lxor (rotr64 x 1) (rotr64 x 8)) (Z.shiftr x 7).
Definition sigma1 (x : Z) : Z := Z.lxor (Z.lxor (rotr64 x 19) (rotr64 x 61)) (Z.shiftr x 6).

(** One round: the new values of [d] and [h]. *)
Definition Round (a b c d e f g h k w : Z) : Z * Z :=
  let t1 := u64 (h + Sigma1 e + Ch e f g + k + w) in
  let t2 := u64 (Sigma0 a + Maj a b c) in
  (u64 (d + t1), u64 (t1 + t2)).

Record state := mkState { s0 : Z; s1 : Z; s2 : Z; s3 : Z; s4 : Z; s5 : Z; s6 : Z; s7 : Z }.

Definition Initialize : state :=
  mkState 0x6a09e667f3bcc908 0xbb67ae8584caa73b 0x3c6ef372fe94f82b 0xa54ff53a5f1d36f1
          0x510e527fade682d1 0x9b05688c2b3e6c1f 0x1f83d9abfb41bd6b 0x5be0cd19137e2179.

(** The rounds of a transformation on the words of a chunk, and the addition to the state. *)
Definition Rounds (s : state) (w0 w1 w2 w3 w4 w5 w6 w7 w8 w9 w10 w11 w12 w13 w14 w15 : Z) : state :=
  let '(mkState a b c d e f g h) := s in
  let '(d, h) := Round a b c d e f g h 0x428a2f98d728ae22 w0 in
  let '(c, g) := Round h a b c d e f g 0x7137449123ef65cd w1 in
  let '(b, f) := Round g h a b c d e f 0xb5c0fbcfec4d3b2f w2 in
  let '(a, e) := Round f g h a b c d e 0xe9b5dba58189dbbc w3 in
  let '(h, d) := Round e f g h a b c d 0x3956c25bf348b538 w4 in
  let '(g, c) := Round d e f g h a b c 0x59f111f1b605d019 w5 in
  let '(f, b) := Round c d e f g h a b 0x923f82a4af194f9b w6 in
  let '(e, a) := Round b c d e f g h a 0xab1c5ed5da6d8118 w7 in
  let '(d, h) := Round a b c d e f g h 0xd807aa98a3030242 w8 in
  let '(c, g) := Round h a b c d e f g 0x12835b0145706fbe w9 in
  let '(b, f) := Round g h a b c d e f 0x243185be4ee4b28c w10 in
  let '(a, e) := Round f g h a b c d e 0x550c7dc3d5ffb4e2 w11 in
  let '(h, d) := Round e f g h a b c d 0x72be5d74f27b896f w12 in
  let '(g, c) := Round d e f g h a b c 0x80deb1fe3b1696b1 w13 in
  let '(f, b) := Round c d e f g h a b 0x9bdc06a725c71235 w14 in
  let '(e, a) := Round b c d e f g h a 0xc19bf174cf692694 w15 in
  let w0 := u64 (w0 + ((sigma1 w14) + w9 + (sigma0 w1))) in let '(d, h) := Round a b c d e f g h 0xe49b69c19ef14ad2 w0 in
  let w1 := u64 (w1 + ((sigma1 w15) + w10 + (sigma0 w2))) in let '(c, g) := Round h a b c d e f g 0xefbe4786384f25e3 w1 in
  let w2 := u64 (w2 + ((sigma1 w0) + w11 + (sigma0 w3))) in let '(b, f) := Round g h a b c d e f 0x0fc19dc68b8cd5b5 w2 in
  let w3 := u64 (w3 + ((sigma1 w1) + w12 + (sigma0 w4))) in let '(a, e) := Round f g h a b c d e 0x240ca1cc77ac9c65 w3 in
  let w4 := u64 (w4 + ((sigma1 w2) + w13 + (sigma0 w5))) in let '(h, d) := Round e f g h a b c d 0x2de92c6f592b0275 w4 in
  let w5 := u64 (w5 + ((sigma1 w3) + w14 + (sigma0 w6))) in let '(g, c) := Round d e f g h a b c 0x4a7484aa6ea6e483 w5 in
  let w6 := u64 (w6 + ((sigma1 w4) + w15 + (sigma0 w7))) in let '(f, b) := Round c d e f g h a b 0x5cb0a9dcbd41fbd4 w6 in
  let w7 := u64 (w7 + ((sigma1 w5) + w0 + (sigma0 w8))) in let '(e, a) := Round b c d e f g h a 0x76f988da831153b5 w7 in
  let w8 := u64 (w8 + ((sigma1 w6) + w1 + (sigma0 w9))) in let '(d, h) := Round a b c d e f g h 0x983e5152ee66dfab w8 in
  let w9 := u64 (w9 + ((sigma1 w7) + w2 + (sigma0 w10))) in let '(c, g) := Round h a b c d e f g 0xa831c66d2db43210 w9 in
  let w10 := u64 (w10 + ((sigma1 w8) + w3 + (sigma0 w11))) in let '(b, f) := Round g h a b c d e f 0xb00327c898fb213f w10 in
  let w11 := u64 (w11 + ((sigma1 w9) + w4 + (sigma0 w12))) in let '(a, e) := Round f g h a b c d e 0xbf597fc7beef0ee4 w11 in
  let w12 := u64 (w12 + ((sigma1 w10) + w5 + (sigma0 w13))) in let '(h, d) := Round e f g h a b c d 0xc6e00bf33da88fc2 w12 in
  let w13 := u64 (w13 + ((sigma1 w11) + w6 + (sigma0 w14))) in let '(g, c) := Round d e f g h a b c 0xd5a79147930aa725 w13 in
  let w14 := u64 (w14 + ((sigma1 w12) + w7 + (sigma0 w15))) in let '(f, b) := Round c d e f g h a b 0x06ca6351e003826f w14 in
  let w15 := u64 (w15 + ((sigma1 w13) + w8 + (sigma0 w0))) in let '(e, a) := Round b c d e f g h a 0x142929670a0e6e70 w15 in
  let w0 := u64 (w0 + ((sigma1 w14) + w9 + (sigma0 w1))) in let '(d, h) := Round a b c d e f g h 0x27b70a8546d22ffc w0 in
  let w1 := u64 (w1 + ((sigma1 w15) + w10 + (sigma0 w2))) in let '(c, g) := Round h a b c d e f g 0x2e1b21385c26c926 w1 in
  let w2 := u64 (w2 + ((sigma1 w0) + w11 + (sigma0 w3))) in let '(b, f) := Round g h a b c d e f 0x4d2c6dfc5ac42aed w2 in
  let w3 := u64 (w3 + ((sigma1 w1) + w12 + (sigma0 w4))) in let '(a, e) := Round f g h a b c d e 0x53380d139d95b3df w3 in
  let w4 := u64 (w4 + ((sigma1 w2) + w13 + (sigma0 w5))) in let '(h, d) := Round e f g h a b c d 0x650a73548baf63de w4 in
  let w5 := u64 (w5 + ((sigma1 w3) + w14 + (sigma0 w6))) in let '(g, c) := Round d e f g h a b c 0x766a0abb3c77b2a8 w5 in
  let w6 := u64 (w6 + ((sigma1 w4) + w15 + (sigma0 w7))) in let '(f, b) := Round c d e f g h a b 0x81c2c92e47edaee6 w6 in
  let w7 := u64 (w7 + ((sigma1 w5) + w0 + (sigma0 w8))) in let '(e, a) := Round b c d e f g h a 0x92722c851482353b w7 in
  let w8 := u64 (w8 + ((sigma1 w6) + w1 + (sigma0 w9))) in let '(d, h) := Round a b c d e f g h 0xa2bfe8a14cf10364 w8 in
  let w9 := u64 (w9 + ((sigma1 w7) + w2 + (sigma0 w10))) in let '(c, g) := Round h a b c d e f g 0xa81a664bbc423001 w9 in
  let w10 := u64 (w10 + ((sigma1 w8) + w3 + (sigma0 w11))) in let '(b, f) := Round g h a b c d e f 0xc24b8b70d0f89791 w10 in
  let w11 := u64 (w11 + ((sigma1 w9) + w4 + (sigma0 w12))) in let '(a, e) := Round f g h a b c d e 0xc76c51a30654be30 w11 in
  let w12 := u64 (w12 + ((sigma1 w10) + w5 + (sigma0 w13))) in let '(h, d) := Round e f g h a b c d 0xd192e819d6ef5218 w12 in
  let w13 := u64 (w13 + ((sigma1 w11) + w6 + (sigma0 w14))) in let '(g, c) := Round d e f g h a b c 0xd69906245565a910 w13 in
  let w14 := u64 (w14 + ((sigma1 w12) + w7 + (sigma0 w15))) in let '(f, b) := Round c d e f g h a b 0xf40e35855771202a w14 in
  let w15 := u64 (w15 + ((sigma1 w13) + w8 + (sigma0 w0))) in let '(e, a) := Round b c d e f g h a 0x106aa07032bbd1b8 w15 in
  let w0 := u64 (w0 + ((sigma1 w14) + w9 + (sigma0 w1))) in let '(d, h) := Round a b c d e f g h 0x19a4c116b8d2d0c8 w0 in
  let w1 := u64 (w1 + ((sigma1 w15) + w10 + (sigma0 w2))) in let '(c, g) := Round h a b c d e f g 0x1e376c085141ab53 w1 in
  let w2 := u64 (w2 + ((sigma1 w0) + w11 + (sigma0 w3))) in let '(b, f) := Round g h a b c d e f 0x2748774cdf8eeb99 w2 in
  let w3 := u64 (w3 + ((sigma1 w1) + w12 + (sigma0 w4))) in let '(a, e) := Round f g h a b c d e 0x34b0bcb5e19b48a8 w3 in
  let w4 := u64 (w4 + ((sigma1 w2) + w13 + (sigma0 w5))) in let '(h, d) := Round e f g h a b c d 0x391c0cb3c5c95a63 w4 in
  let w5 := u64 (w5 + ((sigma1 w3) + w14 + (sigma0 w6))) in let '(g, c) := Round d e f g h a b c 0x4ed8aa4ae3418acb w5 in
  let w6 := u64 (w6 + ((sigma1 w4) + w15 + (sigma0 w7))) in let '(f, b) := Round c d e f g h a b 0x5b9cca4f7763e373 w6 in
  let w7 := u64 (w7 + ((sigma1 w5) + w0 + (sigma0 w8))) in let '(e, a) := Round b c d e f g h a 0x682e6ff3d6b2b8a3 w7 in
  let w8 := u64 (w8 + ((sigma1 w6) + w1 + (sigma0 w9))) in let '(d, h) := Round a b c d e f g h 0x748f82ee5defb2fc w8 in
  let w9 := u64 (w9 + ((sigma1 w7) + w2 + (sigma0 w10))) in let '(c, g) := Round h a b c d e f g 0x78a5636f43172f60 w9 in
  let w10 := u64 (w10 + ((sigma1 w8) + w3 + (sigma0 w11))) in let '(b, f) := Round g h a b c d e f 0x84c87814a1f0ab72 w10 in
  let w11 := u64 (w11 + ((sigma1 w9) + w4 + (sigma0 w12))) in let '(a, e) := Round f g h a b c d e 0x8cc702081a6439ec w11 in
  let w12 := u64 (w12 + ((sigma1 w10) + w5 + (sigma0 w13))) in let '(h, d) := Round e f g h a b c d 0x90befffa23631e28 w12 in
  let w13 := u64 (w13 + ((sigma1 w11) + w6 + (sigma0 w14))) in let '(g, c) := Round d e f g h a b c 0xa4506cebde82bde9 w13 in
  let w14 := u64 (w14 + ((sigma1 w12) + w7 + (sigma0 w15))) in let '(f, b) := Round c d e f g h a b 0xbef9a3f7b2c67915 w14 in
  let w15 := u64 (w15 + ((sigma1 w13) + w8 + (sigma0 w0))) in let '(e, a) := Round b c d e f g h a 0xc67178f2e372532b w15 in
  let w0 := u64 (w0 + ((sigma1 w14) + w9 + (sigma0 w1))) in let '(d, h) := Round a b c d e f g h 0xca273eceea26619c w0 in
  let w1 := u64 (w1 + ((sigma1 w15) + w10 + (sigma0 w2))) in let '(c, g) := Round h a b c d e f g 0xd186b8c721c0c207 w1 in
  let w2 := u64 (w2 + ((sigma1 w0) + w11 + (sigma0 w3))) in let '(b, f) := Round g h a b c d e f 0xeada7dd6cde0eb1e w2 in
  let w3 := u64 (w3 + ((sigma1 w1) + w12 + (sigma0 w4))) in let '(a, e) := Round f g h a b c d e 0xf57d4f7fee6ed178 w3 in
  let w4 := u64 (w4 + ((sigma1 w2) + w13 + (sigma0 w5))) in let '(h, d) := Round e f g h a b c d 0x06f067aa72176fba w4 in
  let w5 := u64 (w5 + ((sigma1 w3) + w14 + (sigma0 w6))) in let '(g, c) := Round d e f g h a b c 0x0a637dc5a2c898a6 w5 in
  let w6 := u64 (w6 + ((sigma1 w4) + w15 + (sigma0 w7))) in let '(f, b) := Round c d e f g h a b 0x113f9804bef90dae w6 in
  let w7 := u64 (w7 + ((sigma1 w5) + w0 + (sigma0 w8))) in let '(e, a) := Round b c d e f g h a 0x1b710b35131c471b w7 in
  let w8 := u64 (w8 + ((sigma1 w6) + w1 + (sigma0 w9))) in let '(d, h) := Round a b c d e f g h 0x28db77f523047d84 w8 in
  let w9 := u64 (w9 + ((sigma1 w7) + w2 + (sigma0 w10))) in let '(c, g) := Round h a b c d e f g 0x32caab7b40c72493 w9 in
  let w10 := u64 (w10 + ((sigma1 w8) + w3 + (sigma0 w11))) in let '(b, f) := Round g h a b c d e f 0x3c9ebe0a15c9bebc w10 in
  let w11 := u64 (w11 + ((sigma1 w9) + w4 + (sigma0 w12))) in let '(a, e) := Round f g h a b c d e 0x431d67c49c100d4c w11 in
  let w12 := u64 (w12 + ((sigma1 w10) + w5 + (sigma0 w13))) in let '(h, d) := Round e f g h a b c d 0x4cc5d4becb3e42b6 w12 in
  let w13 := u64 (w13 + ((sigma1 w11) + w6 + (sigma0 w14))) in let '(g, c) := Round d e f g h a b c 0x597f299cfc657e2a w13 in
  let '(f, b) := Round c d e f g h a b 0x5fcb6fab3ad6faec (u64 (w14 + (sigma1 w12) + w7 + (sigma0 w15))) in
  let '(e, a) := Round b c d e f g h a 0x6c44198c4a475817 (u64 (w15 + (sigma1 w13) + w8 + (sigma0 w0))) in
  mkState (u64 (s0 s + a)) (u64 (s1 s + b)) (u64 (s2 s + c)) (u64 (s3 s + d))
          (u64 (s4 s + e)) (u64 (s5 s + f)) (u64 (s6 s + g)) (u64 (s7 s + h)).

Definition Transform (s : state) (chunk : bytes) : state :=
  Rounds s
    (ReadBE64 chunk 0) (ReadBE64 chunk 8) (ReadBE64 chunk 16) (ReadBE64 chunk 24)
    (ReadBE64 chunk 32) (ReadBE64 chunk 40) (ReadBE64 chunk 48) (ReadBE64 chunk 56)
    (ReadBE64 chunk 64) (ReadBE64 chunk 72) (ReadBE64 chunk 80) (ReadBE64 chunk 88)
    (ReadBE64 chunk 96) (ReadBE64 chunk 104) (ReadBE64 chunk 112) (ReadBE64 chunk 120).

Definition output (s : state) : bytes :=
  WriteBE64 (s0 s) ++ WriteBE64 (s1 s) ++ WriteBE64 (s2 s) ++ WriteBE64 (s3 s) ++
  WriteBE64 (s4 s) ++ WriteBE64 (s5 s) ++ WriteBE64 (s6 s) ++ WriteBE64 (s7 s).
End sha512.

(** ** SHA1 (sha1.cpp) *)
Module sha1.

(** One round: the new values of [b] and [e]. *)
Definition Round (a b c d e f k w : Z) : Z * Z :=
  (rotr32 b 2, u32 (e + (rotr32 a 27 + f + k + w))).

Definition f1 (b c d : Z) : Z := Z.lxor d (Z.land b (Z.lxor c d)).
Definition f2 (b c d : Z) : Z := Z.lxor (Z.lxor b c) d.
Definition f3 (b c d : Z) : Z := Z.lor (Z.land b c) (Z.land d (Z.lor b c)).
Definition left (x : Z) : Z := rotr32 x 31.

Definition k1 : Z := 0x5A827999.
Definition k2 : Z := 0x6ED9EBA1.
Definition k3 : Z := 0x8F1BBCDC.
Definition k4 : Z := 0xCA62C1D6.

Record state := mkState { s0 : Z; s1 : Z; s2 : Z; s3 : Z; s4 : Z }.

Definition Initialize : state := mkState 0x67452301 0xEFCDAB89 0x98BADCFE 0x10325476 0xC3D2E1F0.

(** The rounds of a transformation on the words of a chunk, and the addition to the state. *)
Definition Rounds (s : state) (w0 w1 w2 w3 w4 w5 w6 w7 w8 w9 w10 w11 w12 w13 w14 w15 : Z) : state :=
  let '(mkState a b c d e) := s in
  let '(b, e) := Round a b c d e (f1 b c d) k1 w0 in
  let '(a, d) := Round e a b c d (f1 a b c) k1 w1 in
  let '(e, c) := Round d e a b c (f1 e a b) k1 w2 in
  let '(d, b) := Round c d e a b (f1 d e a) k1 w3 in
  let '(c, a) := Round b c d e a (f1 c d e) k1 w4 in
  let '(b, e) := Round a b c d e (f1 b c d) k1 w5 in
  let '(a, d) := Round e a b c d (f1 a b c) k1 w6 in
  let '(e, c) := Round d e a b c (f1 e a b) k1 w7 in
  let '(d, b) := Round c d e a b (f1 d e a) k1 w8 in
  let '(c, a) := Round b c d e a (f1 c d e) k1 w9 in
  let '(b, e) := Round a b c d e (f1 b c d) k1 w10 in
  let '(a, d) := Round e a b c d (f1 a b c) k1 w11 in
  let '(e, c) := Round d e a b c (f1 e a b) k1 w12 in
  let '(d, b) := Round c d e a b (f1 d e a) k1 w13 in
  let '(c, a) := Round b c d e a (f1 c d e) k1 w14 in
  let '(b, e) := Round a b c d e (f1 b c d) k1 w15 in
  let w0 := left (Z.lxor (Z.lxor (Z.lxor w0 w13) w8) w2) in let '(a, d) := Round e a b c d (f1 a b c) k1 w0 in
  let w1 := left (Z.lxor (Z.lxor (Z.lxor w1 w14) w9) w3) in let '(e, c) := Round d e a b c (f1 e a b) k1 w1 in
  let w2 := left (Z.lxor (Z.lxor (Z.lxor w2 w15) w10) w4) in let '(d, b) := Round c d e a b (f1 d e a) k1 w2 in
  let w3 := left (Z.lxor (Z.lxor (Z.lxor w3 w0) w11) w5) in let '(c, a) := Round b c d e a (f1 c d e) k1 w3 in
  let w4 := left (Z.lxor (Z.lxor (Z.lxor w4 w1) w12) w6) in let '(b, e) := Round a b c d e (f2 b c d) k2 w4 in
  let w5 := left (Z.lxor (Z.lxor (Z.lxor w5 w2) w13) w7) in let '(a, d) := Round e a b c d (f2 a b c) k2 w5 in
  let w6 := left (Z.lxor (Z.lxor (Z.lxor w6 w3) w14) w8) in let '(e, c) := Round d e a b c (f2 e a b) k2 w6 in
  let w7 := left (Z.lxor (Z.lxor (Z.lxor w7 w4) w15) w9) in let '(d, b) := Round c d e a b (f2 d e a) k2 w7 in
  let w8 := left (Z.lxor (Z.lxor (Z.lxor w8 w5) w0) w10) in let '(c, a) := Round b c d e a (f2 c d e) k2 w8 in
  let w9 := left (Z.lxor (Z.lxor (Z.lxor w9 w6) w1) w11) in let '(b, e) := Round a b c d e (f2 b c d) k2 w9 in
  let w10 := left (Z.lxor (Z.lxor (Z.lxor w10 w7) w2) w12) in let '(a, d) := Round e a b c d (f2 a b c) k2 w10 in
  let w11 := left (Z.lxor (Z.lxor (Z.lxor w11 w8) w3) w13) in let '(e, c) := Round d e a b c (f2 e a b) k2 w11 in
  let w12 := left (Z.lxor (Z.lxor (Z.lxor w12 w9) w4) w14) in let '(d, b) := Round c d e a b (f2 d e a) k2 w12 in
  let w13 := left (Z.lxor (Z.lxor (Z.lxor w13 w10) w5) w15) in let '(c, a) := Round b c d e a (f2 c d e) k2 w13 in
  let w14 := left (Z.lxor (Z.lxor (Z.lxor w14 w11) w6) w0) in let '(b, e) := Round a b c d e (f2 b c d) k2 w14 in
  let w15 := left (Z.lxor (Z.lxor (Z.lxor w15 w12) w7) w1) in let '(a, d) := Round e a b c d (f2 a b c) k2 w15 in
  let w0 := left (Z.lxor (Z.lxor (Z.lxor w0 w13) w8) w2) in let '(e, c) := Round d e a b c (f2 e a b) k2 w0 in
  let w1 := left (Z.lxor (Z.lxor (Z.lxor w1 w14) w9) w3) in let '(d, b) := Round c d e a b (f2 d e a) k2 w1 in
  let w2 := left (Z.lxor (Z.lxor (Z.lxor w2 w15) w10) w4) in let '(c, a) := Round b c d e a (f2 c d e) k2 w2 in
  let w3 := left (Z.lxor (Z.lxor (Z.lxor w3 w0) w11) w5) in let '(b, e) := Round a b c d e (f2 b c d) k2 w3 in
  let w4 := left (Z.lxor (Z.lxor (Z.lxor w4 w1) w12) w6) in let '(a, d) := Round e a b c d (f2 a b c) k2 w4 in
  let w5 := left (Z.lxor (Z.lxor (Z.lxor w5 w2) w13) w7) in let '(e, c) := Round d e a b c (f2 e a b) k2 w5 in
  let w6 := left (Z.lxor (Z.lxor (Z.lxor w6 w3) w14) w8) in let '(d, b) := Round c d e a b (f2 d e a) k2 w6 in
  let w7 := left (Z.lxor (Z.lxor (Z.lxor w7 w4) w15) w9) in let '(c, a) := Round b c d e a (f2 c d e) k2 w7 in
  let w8 := left (Z.lxor (Z.lxor (Z.lxor w8 w5) w0) w10) in let '(b, e) := Round a b c d e (f3 b c d) k3 w8 in
  let w9 := left (Z.lxor (Z.lxor (Z.lxor w9 w6) w1) w11) in let '(a, d) := Round e a b c d (f3 a b c) k3 w9 in
  let w10 := left (Z.lxor (Z.lxor (Z.lxor w10 w7) w2) w12) in let '(e, c) := Round d e a b c (f3 e a b) k3 w10 in
  let w11 := left (Z.lxor (Z.lxor (Z.lxor w11 w8) w3) w13) in let '(d, b) := Round c d e a b (f3 d e a) k3 w11 in
  let w12 := left (Z.lxor (Z.lxor (Z.lxor w12 w9) w4) w14) in let '(c, a) := Round b c d e a (f3 c d e) k3 w12 in
  let w13 := left (Z.lxor (Z.lxor (Z.lxor w13 w10) w5) w15) in let '(b, e) := Round a b c d e (f3 b c d) k3 w13 in
  let w14 := left (Z.lxor (Z.lxor (Z.lxor w14 w11) w6) w0) in let '(a, d) := Round e a b c d (f3 a b c) k3 w14 in
  let w15 := left (Z.lxor (Z.lxor (Z.lxor w15 w12) w7) w1) in let '(e, c) := Round d e a b c (f3 e a b) k3 w15 in
  let w0 := left (Z.lxor (Z.lxor (Z.lxor w0 w13) w8) w2) in let '(d, b) := Round c d e a b (f3 d e a) k3 w0 in
  let w1 := left (Z.lxor (Z.lxor (Z.lxor w1 w14) w9) w3) in let '(c, a) := Round b c d e a (f3 c d e) k3 w1 in
  let w2 := left (Z.lxor (Z.lxor (Z.lxor w2 w15) w10) w4) in let '(b, e) := Round a b c d e (f3 b c d) k3 w2 in
  let w3 := left (Z.lxor (Z.lxor (Z.lxor w3 w0) w11) w5) in let '(a, d) := Round e a b c d (f3 a b c) k3 w3 in
  let w4 := left (Z.lxor (Z.lxor (Z.lxor w4 w1) w12) w6) in let '(e, c) := Round d e a b c (f3 e a b) k3 w4 in
  let w5 := left (Z.lxor (Z.lxor (Z.lxor w5 w2) w13) w7) in let '(d, b) := Round c d e a b (f3 d e a) k3 w5 in
  let w6 := left (Z.lxor (Z.lxor (Z.lxor w6 w3) w14) w8) in let '(c, a) := Round b c d e a (f3 c d e) k3 w6 in
  let w7 := left (Z.lxor (Z.lxor (Z.lxor w7 w4) w15) w9) in let '(b, e) := Round a b c d e (f3 b c d) k3 w7 in
  let w8 := left (Z.lxor (Z.lxor (Z.lxor w8 w5) w0) w10) in let '(a, d) := Round e a b c d (f3 a b c) k3 w8 in
  let w9 := left (Z.lxor (Z.lxor (Z.lxor w9 w6) w1) w11) in let '(e, c) := Round d e a b c (f3 e a b) k3 w9 in
  let w10 := left (Z.lxor (Z.lxor (Z.lxor w10 w7) w2) w12) in let '(d, b) := Round c d e a b (f3 d e a) k3 w10 in
  let w11 := left (Z.lxor (Z.lxor (Z.lxor w11 w8) w3) w13) in let '(c, a) := Round b c d e a (f3 c d e) k3 w11 in
  let w12 := left (Z.lxor (Z.lxor (Z.lxor w12 w9) w4) w14) in let '(b, e) := Round a b c d e (f2 b c d) k4 w12 in
  let w13 := left (Z.lxor (Z.lxor (Z.lxor w13 w10) w5) w15) in let '(a, d) := Round e a b c d (f2 a b c) k4 w13 in
  let w14 := left (Z.lxor (Z.lxor (Z.lxor w14 w11) w6) w0) in let '(e, c) := Round d e a b c (f2 e a b) k4 w14 in
  let w15 := left (Z.lxor (Z.lxor (Z.lxor w15 w12) w7) w1) in let '(d, b) := Round c d e a b (f2 d e a) k4 w15 in
  let w0 := left (Z.lxor (Z.lxor (Z.lxor w0 w13) w8) w2) in let '(c, a) := Round b c d e a (f2 c d e) k4 w0 in
  let w1 := left (Z.lxor (Z.lxor (Z.lxor w1 w14) w9) w3) in let '(b, e) := Round a b c d e (f2 b c d) k4 w1 in
  let w2 := left (Z.lxor (Z.lxor (Z.lxor w2 w15) w10) w4) in let '(a, d) := Round e a b c d (f2 a b c) k4 w2 in
  let w3 := left (Z.lxor (Z.lxor (Z.lxor w3 w0) w11) w5) in let '(e, c) := Round d e a b c (f2 e a b) k4 w3 in
  let w4 := left (Z.lxor (Z.lxor (Z.lxor w4 w1) w12) w6) in let '(d, b) := Round c d e a b (f2 d e a) k4 w4 in
  let w5 := left (Z.lxor (Z.lxor (Z.lxor w5 w2) w13) w7) in let '(c, a) := Round b c d e a (f2 c d e) k4 w5 in
  let w6 := left (Z.lxor (Z.lxor (Z.lxor w6 w3) w14) w8) in let '(b, e) := Round a b c d e (f2 b c d) k4 w6 in
  let w7 := left (Z.lxor (Z.lxor (Z.lxor w7 w4) w15) w9) in let '(a, d) := Round e a b c d (f2 a b c) k4 w7 in
  let w8 := left (Z.lxor (Z.lxor (Z.lxor w8 w5) w0) w10) in let '(e, c) := Round d e a b c (f2 e a b) k4 w8 in
  let w9 := left (Z.lxor (Z.lxor (Z.lxor w9 w6) w1) w11) in let '(d, b) := Round c d e a b (f2 d e a) k4 w9 in
  let w10 := left (Z.lxor (Z.lxor (Z.lxor w10 w7) w2) w12) in let '(c, a) := Round b c d e a (f2 c d e) k4 w10 in
  let w11 := left (Z.lxor (Z.lxor (Z.lxor w11 w8) w3) w13) in let '(b, e) := Round a b c d e (f2 b c d) k4 w11 in
  let w12 := left (Z.lxor (Z.lxor (Z.lxor w12 w9) w4) w14) in let '(a, d) := Round e a b c d (f2 a b c) k4 w12 in
  let '(e, c) := Round d e a b c (f2 e a b) k4 (left (Z.lxor (Z.lxor (Z.lxor w13 w10) w5) w15)) in
  let '(d, b) := Round c d e a b (f2 d e a) k4 (left (Z.lxor (Z.lxor (Z.lxor w14 w11) w6) w0)) in
  let '(c, a) := Round b c d e a (f2 c d e) k4 (left (Z.lxor (Z.lxor (Z.lxor w15 w12) w7) w1)) in
  mkState (u32 (s0 s + a)) (u32 (s1 s + b)) (u32 (s2 s + c)) (u32 (s3 s + d)) (u32 (s4 s + e)).

Definition Transform (s : state) (chunk : bytes) : state :=
  Rounds s
    (ReadBE32 chunk 0) (ReadBE32 chunk 4) (ReadBE32 chunk 8) (ReadBE32 chunk 12)
    (ReadBE32 chunk 16) (ReadBE32 chunk 20) (ReadBE32 chunk 24) (ReadBE32 chunk 28)
    (ReadBE32 chunk 32) (ReadBE32 chunk 36) (ReadBE32 chunk 40) (ReadBE32 chunk 44)
    (ReadBE32 chunk 48) (ReadBE32 chunk 52) (ReadBE32 chunk 56) (ReadBE32 chunk 60).

Definition output (s : state) : bytes :=
  WriteBE32 (s0 s) ++ WriteBE32 (s1 s) ++ WriteBE32 (s2 s) ++ WriteBE32 (s3 s) ++ WriteBE32 (s4 s).
End sha1.

(** ** RIPEMD160 (ripemd160.cpp) *)
Module ripemd160.

Definition f1 (x y z : Z) : Z := Z.lxor (Z.lxor x y) z.
Definition f2 (x y z : Z) : Z := Z.lor (Z.land x y) (Z.land (not32 x) z).
Definition f3 (x y z : Z) : Z := Z.lxor (Z.lor x (not32 y)) z.
Definition f4 (x y z : Z) : Z := Z.lor (Z.land x z) (Z.land y (not32 z)).
Definition f5 (x y z : Z) : Z := Z.lxor x (Z.lor y (not32 z)).

Definition rol (x i : Z) : Z := rotr32 x (32 - i).

(** One round: the new values of [a] and [c]. *)
Definition Round (a b c d e f x k r : Z) : Z * Z :=
  (u32 (rol (u32 (a + f + x + k)) r + e), rol c 10).

Definition R11 (a b c d e x r : Z) : Z * Z := Round a b c d e (f1 b c d) x 0 r.
Definition R21 (a b c d e x r : Z) : Z * Z := Round a b c d e (f2 b c d) x 0x5A827999 r.
Definition R31 (a b c d e x r : Z) : Z * Z := Round a b c d e (f3 b c d) x 0x6ED9EBA1 r.
Definition R41 (a b c d e x r : Z) : Z * Z := Round a b c d e (f4 b c d) x 0x8F1BBCDC r.
Definition R51 (a b c d e x r : Z) : Z * Z := Round a b c d e (f5 b c d) x 0xA953FD4E r.
Definition R12 (a b c d e x r : Z) : Z * Z := Round a b c d e (f5 b c d) x 0x50A28BE6 r.
Definition R22 (a b c d e x r : Z) : Z * Z := Round a b c d e (f4 b c d) x 0x5C4DD124 r.
Definition R32 (a b c d e x r : Z) : Z * Z := Round a b c d e (f3 b c d) x 0x6D703EF3 r.
Definition R42 (a b c d e x r : Z) : Z * Z := Round a b c d e (f2 b c d) x 0x7A6D76E9 r.
Definition R52 (a b c d e x r : Z) : Z * Z := Round a b c d e (f1 b c d) x 0 r.

Record state := mkState { s0 : Z; s1 : Z; s2 : Z; s3 : Z; s4 : Z }.

Definition Initialize : state := mkState 0x67452301 0xEFCDAB89 0x98BADCFE 0x10325476 0xC3D2E1F0.

(** The two lines of rounds, on [a1]..[e1] and [a2]..[e2]. *)
Definition Rounds (s : state) (w0 w1 w2 w3 w4 w5 w6 w7 w8 w9 w10 w11 w12 w13 w14 w15 : Z) : state :=
  let '(mkState a1 b1 c1 d1 e1) := s in
  let '(mkState a2 b2 c2 d2 e2) := s in
  let '(a1, c1) := R11 a1 b1 c1 d1 e1 w0 11 in
  let '(a2, c2) := R12 a2 b2 c2 d2 e2 w5 8 in
  let '(e1, b1) := R11 e1 a1 b1 c1 d1 w1 14 in
  let '(e2, b2) := R12 e2 a2 b2 c2 d2 w14 9 in
  let '(d1, a1) := R11 d1 e1 a1 b1 c1 w2 15 in
  let '(d2, a2) := R12 d2 e2 a2 b2 c2 w7 9 in
  let '(c1, e1) := R11 c1 d1 e1 a1 b1 w3 12 in
  let '(c2, e2) := R12 c2 d2 e2 a2 b2 w0 11 in
  let '(b1, d1) := R11 b1 c1 d1 e1 a1 w4 5 in
  let '(b2, d2) := R12 b2 c2 d2 e2 a2 w9 13 in
  let '(a1, c1) := R11 a1 b1 c1 d1 e1 w5 8 in
  let '(a2, c2) := R12 a2 b2 c2 d2 e2 w2 15 in
  let '(e1, b1) := R11 e1 a1 b1 c1 d1 w6 7 in
  let '(e2, b2) := R12 e2 a2 b2 c2 d2 w11 15 in
  let '(d1, a1) := R11 d1 e1 a1 b1 c1 w7 9 in
  let '(d2, a2) := R12 d2 e2 a2 b2 c2 w4 5 in
  let '(c1, e1) := R11 c1 d1 e1 a1 b1 w8 11 in
  let '(c2, e2) := R12 c2 d2 e2 a2 b2 w13 7 in
  let '(b1, d1) := R11 b1 c1 d1 e1 a1 w9 13 in
  let '(b2, d2) := R12 b2 c2 d2 e2 a2 w6 7 in
  let '(a1, c1) := R11 a1 b1 c1 d1 e1 w10 14 in
  let '(a2, c2) := R12 a2 b2 c2 d2 e2 w15 8 in
  let '(e1, b1) := R11 e1 a1 b1 c1 d1 w11 15 in
  let '(e2, b2) := R12 e2 a2 b2 c2 d2 w8 11 in
  let '(d1, a1) := R11 d1 e1 a1 b1 c1 w12 6 in
  let '(d2, a2) := R12 d2 e2 a2 b2 c2 w1 14 in
  let '(c1, e1) := R11 c1 d1 e1 a1 b1 w13 7 in
  let '(c2, e2) := R12 c2 d2 e2 a2 b2 w10 14 in
  let '(b1, d1) := R11 b1 c1 d1 e1 a1 w14 9 in
  let '(b2, d2) := R12 b2 c2 d2 e2 a2 w3 12 in
  let '(a1, c1) := R11 a1 b1 c1 d1 e1 w15 8 in
  let '(a2, c2) := R12 a2 b2 c2 d2 e2 w12 6 in
  let '(e1, b1) := R21 e1 a1 b1 c1 d1 w7 7 in
  let '(e2, b2) := R22 e2 a2 b2 c2 d2 w6 9 in
  let '(d1, a1) := R21 d1 e1 a1 b1 c1 w4 6 in
  let '(d2, a2) := R22 d2 e2 a2 b2 c2 w11 13 in
  let '(c1, e1) := R21 c1 d1 e1 a1 b1 w13 8 in
  let '(c2, e2) := R22 c2 d2 e2 a2 b2 w3 15 in
  let '(b1, d1) := R21 b1 c1 d1 e1 a1 w1 13 in
  let '(b2, d2) := R22 b2 c2 d2 e2 a2 w7 7 in
  let '(a1, c1) := R21 a1 b1 c1 d1 e1 w10 11 in
  let '(a2, c2) := R22 a2 b2 c2 d2 e2 w0 12 in
  let '(e1, b1) := R21 e1 a1 b1 c1 d1 w6 9 in
  let '(e2, b2) := R22 e2 a2 b2 c2 d2 w13 8 in
  let '(d1, a1) := R21 d1 e1 a1 b1 c1 w15 7 in
  let '(d2, a2) := R22 d2 e2 a2 b2 c2 w5 9 in
  let '(c1, e1) := R21 c1 d1 e1 a1 b1 w3 15 in
  let '(c2, e2) := R22 c2 d2 e2 a2 b2 w10 11 in
  let '(b1, d1) := R21 b1 c1 d1 e1 a1 w12 7 in
  let '(b2, d2) := R22 b2 c2 d2 e2 a2 w14 7 in
  let '(a1, c1) := R21 a1 b1 c1 d1 e1 w0 12 in
  let '(a2, c2) := R22 a2 b2 c2 d2 e2 w15 7 in
  let '(e1, b1) := R21 e1 a1 b1 c1 d1 w9 15 in
  let '(e2, b2) := R22 e2 a2 b2 c2 d2 w8 12 in
  let '(d1, a1) := R21 d1 e1 a1 b1 c1 w5 9 in
  let '(d2, a2) := R22 d2 e2 a2 b2 c2 w12 7 in
  let '(c1, e1) := R21 c1 d1 e1 a1 b1 w2 11 in
  let '(c2, e2) := R22 c2 d2 e2 a2 b2 w4 6 in
  let '(b1, d1) := R21 b1 c1 d1 e1 a1 w14 7 in
  let '(b2, d2) := R22 b2 c2 d2 e2 a2 w9 15 in
  let '(a1, c1) := R21 a1 b1 c1 d1 e1 w11 13 in
  let '(a2, c2) := R22 a2 b2 c2 d2 e2 w1 13 in
  let '(e1, b1) := R21 e1 a1 b1 c1 d1 w8 12 in
  let '(e2, b2) := R22 e2 a2 b2 c2 d2 w2 11 in
  let '(d1, a1) := R31 d1 e1 a1 b1 c1 w3 11 in
  let '(d2, a2) := R32 d2 e2 a2 b2 c2 w15 9 in
  let '(c1, e1) := R31 c1 d1 e1 a1 b1 w10 13 in
  let '(c2, e2) := R32 c2 d2 e2 a2 b2 w5 7 in
  let '(b1, d1) := R31 b1 c1 d1 e1 a1 w14 6 in
  let '(b2, d2) := R32 b2 c2 d2 e2 a2 w1 15 in
  let '(a1, c1) := R31 a1 b1 c1 d1 e1 w4 7 in
  let '(a2, c2) := R32 a2 b2 c2 d2 e2 w3 11 in
  let '(e1, b1) := R31 e1 a1 b1 c1 d1 w9 14 in
  let '(e2, b2) := R32 e2 a2 b2 c2 d2 w7 8 in
  let '(d1, a1) := R31 d1 e1 a1 b1 c1 w15 9 in
  let '(d2, a2) := R32 d2 e2 a2 b2 c2 w14 6 in
  let '(c1, e1) := R31 c1 d1 e1 a1 b1 w8 13 in
  let '(c2, e2) := R32 c2 d2 e2 a2 b2 w6 6 in
  let '(b1, d1) := R31 b1 c1 d1 e1 a1 w1 15 in
  let '(b2, d2) := R32 b2 c2 d2 e2 a2 w9 14 in
  let '(a1, c1) := R31 a1 b1 c1 d1 e1 w2 14 in
  let '(a2, c2) := R32 a2 b2 c2 d2 e2 w11 12 in
  let '(e1, b1) := R31 e1 a1 b1 c1 d1 w7 8 in
  let '(e2, b2) := R32 e2 a2 b2 c2 d2 w8 13 in
  let '(d1, a1) := R31 d1 e1 a1 b1 c1 w0 13 in
  let '(d2, a2) := R32 d2 e2 a2 b2 c2 w12 5 in
  let '(c1, e1) := R31 c1 d1 e1 a1 b1 w6 6 in
  let '(c2, e2) := R32 c2 d2 e2 a2 b2 w2 14 in
  let '(b1, d1) := R31 b1 c1 d1 e1 a1 w13 5 in
  let '(b2, d2) := R32 b2 c2 d2 e2 a2 w10 13 in
  let '(a1, c1) := R31 a1 b1 c1 d1 e1 w11 12 in
  let '(a2, c2) := R32 a2 b2 c2 d2 e2 w0 13 in
  let '(e1, b1) := R31 e1 a1 b1 c1 d1 w5 7 in
  let '(e2, b2) := R32 e2 a2 b2 c2 d2 w4 7 in
  let '(d1, a1) := R31 d1 e1 a1 b1 c1 w12 5 in
  let '(d2, a2) := R32 d2 e2 a2 b2 c2 w13 5 in
  let '(c1, e1) := R41 c1 d1 e1 a1 b1 w1 11 in
  let '(c2, e2) := R42 c2 d2 e2 a2 b2 w8 15 in
  let '(b1, d1) := R41 b1 c1 d1 e1 a1 w9 12 in
  let '(b2, d2) := R42 b2 c2 d2 e2 a2 w6 5 in
  let '(a1, c1) := R41 a1 b1 c1 d1 e1 w11 14 in
  let '(a2, c2) := R42 a2 b2 c2 d2 e2 w4 8 in
  let '(e1, b1) := R41 e1 a1 b1 c1 d1 w10 15 in
  let '(e2, b2) := R42 e2 a2 b2 c2 d2 w1 11 in
  let '(d1, a1) := R41 d1 e1 a1 b1 c1 w0 14 in
  let '(d2, a2) := R42 d2 e2 a2 b2 c2 w3 14 in
  let '(c1, e1) := R41 c1 d1 e1 a1 b1 w8 15 in
  let '(c2, e2) := R42 c2 d2 e2 a2 b2 w11 14 in
  let '(b1, d1) := R41 b1 c1 d1 e1 a1 w12 9 in
  let '(b2, d2) := R42 b2 c2 d2 e2 a2 w15 6 in
  let '(a1, c1) := R41 a1 b1 c1 d1 e1 w4 8 in
  let '(a2, c2) := R42 a2 b2 c2 d2 e2 w0 14 in
  let '(e1, b1) := R41 e1 a1 b1 c1 d1 w13 9 in
  let '(e2, b2) := R42 e2 a2 b2 c2 d2 w5 6 in
  let '(d1, a1) := R41 d1 e1 a1 b1 c1 w3 14 in
  let '(d2, a2) := R42 d2 e2 a2 b2 c2 w12 9 in
  let '(c1, e1) := R41 c1 d1 e1 a1 b1 w7 5 in
  let '(c2, e2) := R42 c2 d2 e2 a2 b2 w2 12 in
  let '(b1, d1) := R41 b1 c1 d1 e1 a1 w15 6 in
  let '(b2, d2) := R42 b2 c2 d2 e2 a2 w13 9 in
  let '(a1, c1) := R41 a1 b1 c1 d1 e1 w14 8 in
  let '(a2, c2) := R42 a2 b2 c2 d2 e2 w9 12 in
  let '(e1, b1) := R41 e1 a1 b1 c1 d1 w5 6 in
  let '(e2, b2) := R42 e2 a2 b2 c2 d2 w7 5 in
  let '(d1, a1) := R41 d1 e1 a1 b1 c1 w6 5 in
  let '(d2, a2) := R42 d2 e2 a2 b2 c2 w10 15 in
  let '(c1, e1) := R41 c1 d1 e1 a1 b1 w2 12 in
  let '(c2, e2) := R42 c2 d2 e2 a2 b2 w14 8 in
  let '(b1, d1) := R51 b1 c1 d1 e1 a1 w4 9 in
  let '(b2, d2) := R52 b2 c2 d2 e2 a2 w12 8 in
  let '(a1, c1) := R51 a1 b1 c1 d1 e1 w0 15 in
  let '(a2, c2) := R52 a2 b2 c2 d2 e2 w15 5 in
  let '(e1, b1) := R51 e1 a1 b1 c1 d1 w5 5 in
  let '(e2, b2) := R52 e2 a2 b2 c2 d2 w10 12 in
  let '(d1, a1) := R51 d1 e1 a1 b1 c1 w9 11 in
  let '(d2, a2) := R52 d2 e2 a2 b2 c2 w4 9 in
  let '(c1, e1) := R51 c1 d1 e1 a1 b1 w7 6 in
  let '(c2, e2) := R52 c2 d2 e2 a2 b2 w1 12 in
  let '(b1, d1) := R51 b1 c1 d1 e1 a1 w12 8 in
  let '(b2, d2) := R52 b2 c2 d2 e2 a2 w5 5 in
  let '(a1, c1) := R51 a1 b1 c1 d1 e1 w2 13 in
  let '(a2, c2) := R52 a2 b2 c2 d2 e2 w8 14 in
  let '(e1, b1) := R51 e1 a1 b1 c1 d1 w10 12 in
  let '(e2, b2) := R52 e2 a2 b2 c2 d2 w7 6 in
  let '(d1, a1) := R51 d1 e1 a1 b1 c1 w14 5 in
  let '(d2, a2) := R52 d2 e2 a2 b2 c2 w6 8 in
  let '(c1, e1) := R51 c1 d1 e1 a1 b1 w1 12 in
  let '(c2, e2) := R52 c2 d2 e2 a2 b2 w2 13 in
  let '(b1, d1) := R51 b1 c1 d1 e1 a1 w3 13 in
  let '(b2, d2) := R52 b2 c2 d2 e2 a2 w13 6 in
  let '(a1, c1) := R51 a1 b1 c1 d1 e1 w8 14 in
  let '(a2, c2) := R52 a2 b2 c2 d2 e2 w14 5 in
  let '(e1, b1) := R51 e1 a1 b1 c1 d1 w11 11 in
  let '(e2, b2) := R52 e2 a2 b2 c2 d2 w0 15 in
  let '(d1, a1) := R51 d1 e1 a1 b1 c1 w6 8 in
  let '(d2, a2) := R52 d2 e2 a2 b2 c2 w3 13 in
  let '(c1, e1) := R51 c1 d1 e1 a1 b1 w15 5 in
  let '(c2, e2) := R52 c2 d2 e2 a2 b2 w9 11 in
  let '(b1, d1) := R51 b1 c1 d1 e1 a1 w13 6 in
  let '(b2, d2) := R52 b2 c2 d2 e2 a2 w11 11 in
  mkState (u32 (s1 s + c1 + d2)) (u32 (s2 s + d1 + e2)) (u32 (s3 s + e1 + a2))
          (u32 (s4 s + a1 + b2)) (u32 (s0 s + b1 + c2)).

Definition Transform (s : state) (chunk : bytes) : state :=
  Rounds s
    (ReadLE32 chunk 0) (ReadLE32 chunk 4) (ReadLE32 chunk 8) (ReadLE32 chunk 12)
    (ReadLE32 chunk 16) (ReadLE32 chunk 20) (ReadLE32 chunk 24) (ReadLE32 chunk 28)
    (ReadLE32 chunk 32) (ReadLE32 chunk 36) (ReadLE32 chunk 40) (ReadLE32 chunk 44)
    (ReadLE32 chunk 48) (ReadLE32 chunk 52) (ReadLE32 chunk 56) (ReadLE32 chunk 60).

Definition output (s : state) : bytes :=
  WriteLE32 (s0 s) ++ WriteLE32 (s1 s) ++ WriteLE32 (s2 s) ++ WriteLE32 (s3 s) ++ WriteLE32 (s4 s).
End ripemd160.

#[global] Opaque sha256.Rounds sha512.Rounds sha1.Rounds ripemd160.Rounds.

(** ** The hashers *)
Definition CSHA256 : Type := hasher sha256.state.
Definition CSHA256_init : CSHA256 := hash_init 64 sha256.Initialize.
Definition CSHA256_Write : bytes -> CSHA256 -> CSHA256 := hash_Write 64 sha256.Transform.
Definition CSHA256_Finalize : CSHA256 -> bytes :=
  hash_Finalize 64 8 sha256.Transform WriteBE64 sha256.output.

Definition CSHA512 : Type := hasher sha512.state.
Definition CSHA512_init : CSHA512 := hash_init 128 sha512.Initialize.
Definition CSHA512_Write : bytes -> CSHA512 -> CSHA512 := hash_Write 128 sha512.Transform.
Definition CSHA512_Finalize : CSHA512 -> bytes :=
  hash_Finalize 128 16 sha512.Transform (fun n => repeat 0 8 ++ WriteBE64 n) sha512.output.

Definition CSHA1 : Type := hasher sha1.state.
Definition CSHA1_init : CSHA1 := hash_init 64 sha1.Initialize.
Definition CSHA1_Write : bytes -> CSHA1 -> CSHA1 := hash_Write 64 sha1.Transform.
Definition CSHA1_Finalize : CSHA1 -> bytes :=
  hash_Finalize 64 8 sha1.Transform WriteBE64 sha1.output.

Definition CRIPEMD160 : Type := hasher ripemd160.state.
Definition CRIPEMD160_init : CRIPEMD160 := hash_init 64 ripemd160.Initialize.
Definition CRIPEMD160_Write : bytes -> CRIPEMD160 -> CRIPEMD160 := hash_Write 64 ripemd160.Transform.
Definition CRIPEMD160_Finalize : CRIPEMD160 -> bytes :=
  hash_Finalize 64 8 ripemd160.Transform WriteLE64 ripemd160.output.

Definition SHA256 (data : bytes) : bytes := CSHA256_Finalize (CSHA256_Write data CSHA256_init).
Definition SHA512 (data : bytes) : bytes := CSHA512_Finalize (CSHA512_Write data CSHA512_init).
Definition SHA1 (data : bytes) : bytes := CSHA1_Finalize (CSHA1_Write data CSHA1_init).
Definition RIPEMD160 (data : bytes) : bytes :=
  CRIPEMD160_Finalize (CRIPEMD160_Write data CRIPEMD160_init).

(** [SelfTest] of sha256.cpp on the standard transformation. *)
Definition selftest_in1 : bytes := 0x80 :: repeat 0 63.
Definition selftest_in2 : bytes := repeat 32 64 ++ 0x80 :: repeat 0 61 ++ [2; 0].
Definition selftest_out1 : sha256.state :=
  sha256.mkState 0xe3b0c442 0x98fc1c14 0x9afbf4c8 0x996fb924 0x27ae41e4 0x649b934c 0xa495991b 0x7852b855.
Definition selftest_out2 : sha256.state :=
  sha256.mkState 0xce4153b0 0x147c2a86 0x3ed4298e 0xe0676bc8 0x79fc77a1 0x2abe1f49 0xb2b055df 0x1069523e.

#[export] Instance sha256_state_eq_dec : EqDecision sha256.state.
Proof. solve_decision. Defined.

Definition SelfTest (tr : nat -> sha256.state -> bytes -> sha256.state) : bool :=
  bool_decide (tr 0%nat sha256.Initialize [] = sha256.Initialize) &&
  bool_decide (tr 1%nat sha256.Initialize selftest_in1 = selftest_out1) &&
  bool_decide (tr 2%nat sha256.Initialize selftest_in2 = selftest_out2).

(** ** hash.h: double SHA-256, and SHA-256 followed by RIPEMD-160 *)
Definition CHash256_Finalize (sha : CSHA256) : bytes := SHA256 (CSHA256_Finalize sha).
Definition CHash160_Finalize (sha : CSHA256) : bytes := RIPEMD160 (CSHA256_Finalize sha).

Definition Hash (data : bytes) : bytes := CHash256_Finalize (CSHA256_Write data CSHA256_init).
Definition Hash2 (p1 p2 : bytes) : bytes :=
  CHash256_Finalize (CSHA256_Write p2 (CSHA256_Write p1 CSHA256_init)).
Definition Hash160 (data : bytes) : bytes := CHash160_Finalize (CSHA256_Write data CSHA256_init).

(** ** HMAC: the inner and the outer hasher *)
Section HMAC.
Context {St : Type} (B out_len : nat).
Context (Write : bytes -> hasher St -> hasher St) (Finalize : hasher St -> bytes) (ini : hasher St).

Definition hmac_rkey (key : bytes) : bytes :=
  if (length key <=? B)%nat then key ++ repeat 0 (B - length key)
  else Finalize (Write key ini) ++ repeat 0 (B - out_len).

Definition hmac_init (key : bytes) : hasher St * hasher St :=
  let rkey := map (Z.lxor 0x5c) (hmac_rkey key) in
  let outer := Write rkey ini in
  let rkey := map (Z.lxor (Z.lxor 0x5c 0x36)) rkey in
  let inner := Write rkey ini in
  (outer, inner).

Definition hmac_Write (data : bytes) (h : hasher St * hasher St) : hasher St * hasher St :=
  (fst h, Write data (snd h)).

Definition hmac_Finalize (h : hasher St * hasher St) : bytes :=
  Finalize (Write (Finalize (snd h)) (fst h)).
End HMAC.

Definition CHMAC_SHA256_init : bytes -> CSHA256 * CSHA256 :=
  hmac_init 64 32 CSHA256_Write CSHA256_Finalize CSHA256_init.
Definition CHMAC_SHA256_Write : bytes -> CSHA256 * CSHA256 -> CSHA256 * CSHA256 := hmac_Write CSHA256_Write.
Definition CHMAC_SHA256_Finalize : CSHA256 * CSHA256 -> bytes :=
  hmac_Finalize CSHA256_Write CSHA256_Finalize.

Definition CHMAC_SHA512_init : bytes -> CSHA512 * CSHA512 :=
  hmac_init 128 64 CSHA512_Write CSHA512_Finalize CSHA512_init.
Definition CHMAC_SHA512_Write : bytes -> CSHA512 * CSHA512 -> CSHA512 * CSHA512 := hmac_Write CSHA512_Write.
Definition CHMAC_SHA512_Finalize : CSHA512 * CSHA512 -> bytes :=
  hmac_Finalize CSHA512_Write CSHA512_Finalize.

(** * Streaming is hashing the concatenation *)

Section StreamingLemmas.
Context {St : Type} (B L : nat) (T : St -> bytes -> St) (init : St).
Context (sizedesc : Z -> bytes) (out : St -> bytes).

(** A transformation reads one block; a block is not empty, its size divides
    2^64, and the length field fits a block; the length field has [L] bytes. *)
Hypothesis T_local : forall s chunk, T s (take B chunk) = T s chunk.
Hypothesis B_pos : (L < B)%nat.
Hypothesis sizedesc_length : forall n, length (sizedesc n) = L.

(** The padded message and its hash, by definition. *)
Definition padded (msg : bytes) : bytes :=
  msg ++ 0x80 :: repeat 0 (Z.to_nat ((Z.of_nat (2 * B - 1 - L) - zlen msg mod Z.of_nat B) mod Z.of_nat B)) ++
  sizedesc (8 * zlen msg).

Definition hash_spec (msg : bytes) : bytes :=
  out (TransformN B T (length (padded msg) / B) init (padded msg)).

(** The hasher [h] has processed the message [msg]. *)
Record absorbed (msg : bytes) (h : hasher St) : Prop := {
  ab_bytes : h_bytes h = zlen msg;
  ab_s : h_s h = TransformN B T (length msg / B) init msg;
  ab_buf : take (length msg mod B) (h_buf h) = drop (B * (length msg / B)) msg;
  ab_len : length (h_buf h) = B;
}.

Lemma TransformN_app_l n s c d :
  (B * n <= length c)%nat -> TransformN B T n s (c ++ d) = TransformN B T n s c.
Proof.
  revert s c; induction n as [|n IH]; intros s c Hl; [done|]. cbn [TransformN].
  rewrite <- (T_local s (c ++ d)), <- (T_local s c), take_app_le by lia.
  rewrite drop_app_le by lia. apply IH. rewrite length_drop. lia.
Qed.

Lemma TransformN_add a b s c :
  TransformN B T (a + b) s c = TransformN B T b (TransformN B T a s c) (drop (B * a) c).
Proof.
  revert s c; induction a as [|a IH]; intros s c.
  - by rewrite Nat.mul_0_r.
  - cbn [TransformN Nat.add]. rewrite IH, drop_drop. do 2 f_equal. lia.
Qed.

Lemma take_repeat (x : Z) n m : (n <= m)%nat -> take n (repeat x m) = repeat x n.
Proof.
  revert m; induction n as [|n IH]; intros [|m] Hn; [done|done|lia|]. simpl. f_equal. apply IH. lia.
Qed.

Lemma memcpy_at_take buf off data :
  (off + length data <= length buf)%nat ->
  take (off + length data) (memcpy_at buf off data) = take off buf ++ data.
Proof.
  intros Hl. unfold memcpy_at. rewrite app_assoc, take_app_le.
  - apply take_ge. rewrite length_app, length_take. lia.
  - rewrite length_app, length_take. lia.
Qed.

Lemma memcpy_at_length buf off data :
  (off + length data <= length buf)%nat -> length (memcpy_at buf off data) = length buf.
Proof. intros Hl. unfold memcpy_at. rewrite !length_app, length_take, length_drop. lia. Qed.

Lemma div_mod_step a b q r : (r < B)%nat -> a = (B * q + r)%nat -> b = (B * (a / B) + a mod B)%nat ->
  (a / B = q /\ a mod B = r)%nat.
Proof.
  intros Hr Ha _. split; [symmetry; by apply (Nat.div_unique a B q r)|symmetry; by apply (Nat.mod_unique a B q r)].
Qed.

(** Absorbing data when the buffer is empty: whole blocks, then the rest. *)
Lemma absorbed_blocks (msg : bytes) s (buf data : bytes) :
  (length msg mod B = 0)%nat -> length buf = B ->
  s = TransformN B T (length msg / B) init msg ->
  let blocks := (length data / B)%nat in
  let rest := drop (B * blocks) data in
  TransformN B T blocks s data = TransformN B T (length (msg ++ data) / B) init (msg ++ data) /\
  rest = drop (B * (length (msg ++ data) / B)) (msg ++ data) /\
  length rest = (length (msg ++ data) mod B)%nat /\ (length rest < B)%nat.
Proof.
  intros Hm Hb -> blocks rest.
  pose proof (Nat.div_mod_eq (length msg) B) as Hd. rewrite Hm in Hd.
  pose proof (Nat.div_mod_eq (length data) B) as Hd'.
  pose proof (Nat.mod_upper_bound (length data) B ltac:(lia)) as Hr.
  assert (length (msg ++ data) / B = length msg / B + blocks /\
          length (msg ++ data) mod B = length data mod B)%nat as [Hq Hrem].
  { apply (div_mod_step _ (length (msg ++ data))); [done| |].
    - rewrite length_app. subst blocks. lia.
    - apply Nat.div_mod_eq. }
  rewrite Hq, Hrem. split_and!.
  - rewrite TransformN_add, TransformN_app_l, drop_app_ge by lia.
    replace (B * (length msg / B) - length msg)%nat with 0%nat by lia. done.
  - rewrite drop_app_ge by lia. unfold rest. f_equal. lia.
  - unfold rest. rewrite length_drop. subst blocks. lia.
  - unfold rest. rewrite length_drop. subst blocks. lia.
Qed.

Lemma hash_fill_absorbed msg data h :
  absorbed msg h -> zlen msg + zlen data < 2 ^ 64 ->
  let '(data1, h1, bufsize) := hash_fill B T data h in
  exists msg1, msg1 ++ data1 = msg ++ data /\ absorbed msg1 h1 /\
    bufsize = (length msg1 mod B)%nat /\ (bufsize = 0 \/ bufsize + length data1 < B)%nat.
Proof.
  intros [Hbytes Hs Hbuf Hlen] Hsz. unfold hash_fill. rewrite Hbytes. unfold zlen in Hsz |- *.
  rewrite <- Nat2Z.inj_mod, Nat2Z.id.
  set (r := (length msg mod B)%nat) in *. set (q := (length msg / B)%nat) in *.
  pose proof (Nat.div_mod_eq (length msg) B) as Hd. fold r q in Hd.
  assert (r < B)%nat as Hr by (apply Nat.mod_upper_bound; lia).
  destruct (Nat.eqb_spec r 0) as [Hz|Hnz]; cbn [negb andb].
  { exists msg. split_and!; [done|by constructor|done|by left]. }
  destruct (Nat.leb_spec B (r + length data)) as [Hge|Hlt].
  2:{ exists msg. split_and!; [done|by constructor|done|by right]. }
  set (n := (B - r)%nat). set (d := take n data). assert (length d = n) as Hdl by (subst d; rewrite length_take; lia).
  assert (length (msg ++ d) / B = q + 1 /\ length (msg ++ d) mod B = 0)%nat as [Hq Hm].
  { apply (div_mod_step _ (length (msg ++ d))); [lia|rewrite length_app; lia|apply Nat.div_mod_eq]. }
  assert (take B (memcpy_at (h_buf h) r d) = drop (B * q) (msg ++ d)) as Hblk.
  { replace B with (r + length d)%nat at 1 by lia. rewrite memcpy_at_take by lia.
    rewrite drop_app_le by lia. by rewrite Hbuf. }
  exists (msg ++ d). split_and!; [subst d; by rewrite <- app_assoc, take_drop| |lia|by left].
  constructor; cbn [h_bytes h_s h_buf].
  - rewrite u64_small by (unfold is_u64; lia). rewrite zlen_app. unfold zlen. lia.
  - rewrite Hq, Hs, TransformN_add, TransformN_app_l by lia. cbn [TransformN].
    by rewrite <- T_local, Hblk, <- (T_local _ (drop _ _)), take_ge by (rewrite length_drop, length_app; lia).
  - rewrite Hm, Hq. symmetry. apply drop_ge. rewrite length_app. lia.
  - rewrite memcpy_at_length; lia.
Qed.

Lemma hash_Write_absorbed msg data h :
  absorbed msg h -> zlen msg + zlen data < 2 ^ 64 -> absorbed (msg ++ data) (hash_Write B T data h).
Proof.
  intros Ha Hsz. unfold hash_Write. pose proof (hash_fill_absorbed msg data h Ha Hsz) as Hf.
  destruct (hash_fill B T data h) as [[data1 h1] bufsize].
  destruct Hf as (msg1 & Heq & [Hby Hs Hbuf Hlen] & -> & Hb).
  rewrite <- zlen_app, <- Heq, zlen_app in Hsz. rewrite <- Heq. clear Ha Heq msg data h.
  pose proof (Nat.div_mod_eq (length msg1) B) as Hd.
  set (blocks := (length data1 / B)%nat). set (rest := drop (B * blocks) data1).
  assert (B * blocks + length rest = length data1)%nat as Hl.
  { unfold rest. rewrite length_drop. pose proof (Nat.div_mod_eq (length data1) B). subst blocks. lia. }
  assert (TransformN B T blocks (h_s h1) data1 = TransformN B T (length (msg1 ++ data1) / B) init (msg1 ++ data1) /\
    take (length msg1 mod B) (h_buf h1) ++ rest = drop (B * (length (msg1 ++ data1) / B)) (msg1 ++ data1) /\
    (length msg1 mod B + length rest = length (msg1 ++ data1) mod B)%nat) as (HT & Hrest & Hrlen).
  { destruct Hb as [Hz|Hlt].
    - rewrite Hz. destruct (absorbed_blocks msg1 (h_s h1) (h_buf h1) data1 Hz Hlen Hs) as (? & ? & ? & _).
      done.
    - assert (blocks = 0)%nat as Hb0 by (apply Nat.div_small; lia).
      unfold rest. rewrite Hb0, Nat.mul_0_r, drop_0, length_app in *.
      destruct (div_mod_step (length msg1 + length data1) (length msg1 + length data1)
        (length msg1 / B) (length msg1 mod B + length data1)) as [-> ->]; [lia|lia|apply Nat.div_mod_eq|].
      rewrite TransformN_app_l, drop_app_le, Hbuf by lia. split_and!; [done..|lia]. }
  assert (length msg1 mod B + length rest < B)%nat by (rewrite Hrlen; apply Nat.mod_upper_bound; lia).
  assert (zlen data1 = Z.of_nat (B * blocks) + zlen rest) as Hz by (unfold zlen; lia).
  pose proof (zlen_nonneg rest). pose proof (zlen_nonneg msg1). rewrite Hby.
  rewrite (u64_small (zlen msg1 + _)) by (unfold is_u64; lia).
  destruct rest as [|x rest'] eqn:Hr; constructor; cbn [h_bytes h_s h_buf]; try done.
  - rewrite zlen_app. unfold zlen in *. simpl in *. lia.
  - rewrite app_nil_r in Hrest. rewrite <- Hrlen. simpl. by rewrite Nat.add_0_r.
  - rewrite u64_small by (unfold is_u64; lia). rewrite zlen_app. lia.
  - rewrite <- Hrlen, memcpy_at_take by lia. done.
  - rewrite memcpy_at_length by lia. done.
Qed.

Lemma hash_init_absorbed : absorbed [] (hash_init B init).
Proof.
  assert (0 < B)%nat by lia. constructor; cbn [h_bytes h_s h_buf hash_init]; [done| | |apply repeat_length].
  - by rewrite Nat.div_small by (simpl; lia).
  - rewrite Nat.mod_small by (simpl; lia). by rewrite drop_nil.
Qed.

(** Padding makes whole blocks. *)
Lemma padded_blocks msg : (length (padded msg) mod B = 0)%nat.
Proof.
  unfold padded, zlen. rewrite length_app. cbn [length]. rewrite length_app, repeat_length, sizedesc_length.
  set (n := length msg). apply Nat2Z.inj. rewrite Nat2Z.inj_mod, !Nat2Z.inj_add, Nat2Z.inj_succ.
  rewrite Nat2Z.inj_add, Z2Nat.id by (apply Z.mod_pos_bound; lia).
  set (b := Z.of_nat B). assert (Z.of_nat L < b) by (subst b; lia).
  replace (Z.of_nat (2 * B - 1 - L)) with (2 * b - 1 - Z.of_nat L) by (subst b; lia).
  set (l := Z.of_nat L) in *. set (z := Z.of_nat n).
  assert ((z + Z.succ ((2 * b - 1 - l - z mod b) mod b + l)) mod b = 0) as Hz; [|exact Hz].
  replace (z + Z.succ ((2 * b - 1 - l - z mod b) mod b + l)) with ((2 * b - 1 - l - z mod b) mod b + (z + l + 1)) by lia.
  rewrite Zplus_mod_idemp_l.
  replace (2 * b - 1 - l - z mod b + (z + l + 1)) with (z - z mod b + 2 * b) by lia.
  rewrite Z.mod_add by lia. rewrite Zminus_mod_idemp_r, Z.sub_diag. apply Z.mod_0_l. lia.
Qed.

(** The digest of a hasher that has processed [msg] is the hash of [msg]. *)
Lemma hash_Finalize_absorbed msg h :
  absorbed msg h -> zlen msg < 2 ^ 61 - 2 * Z.of_nat B -> Z.of_nat B < 2 ^ 60 ->
  hash_Finalize B L T sizedesc out h = hash_spec msg.
Proof.
  intros Ha Hsz HB. unfold hash_Finalize, hash_spec. pose proof (zlen_nonneg msg).
  rewrite (ab_bytes _ _ Ha), Z.shiftl_mul_pow2, (Z.mul_comm _ (2 ^ 3)) by lia. change (2 ^ 3) with 8.
  rewrite u64_small by (unfold is_u64; lia).
  set (np := (Z.of_nat (2 * B - 1 - L) - zlen msg mod Z.of_nat B) mod Z.of_nat B).
  assert (0 <= np < Z.of_nat B) as Hnp by (apply Z.mod_pos_bound; lia).
  assert (take (Z.to_nat (1 + np)) (pad B) = 0x80 :: repeat 0 (Z.to_nat np)) as ->.
  { rewrite Z2Nat.inj_add by lia. unfold pad. change (Z.to_nat 1 + Z.to_nat np)%nat with (S (Z.to_nat np)).
    cbn [take]. f_equal. apply take_repeat. lia. }
  set (p := 0x80 :: repeat 0 (Z.to_nat np)).
  assert (zlen p = 1 + np) by (unfold zlen, p; simpl; rewrite repeat_length; lia).
  assert (zlen (sizedesc (8 * zlen msg)) = Z.of_nat L) by (unfold zlen; by rewrite sizedesc_length).
  assert (absorbed (padded msg) (hash_Write B T (sizedesc (8 * zlen msg)) (hash_Write B T p h))) as [_ Hs _ _].
  { unfold padded. fold np. change (msg ++ 128 :: repeat 0 (Z.to_nat np) ++ sizedesc (8 * zlen msg))
      with (msg ++ p ++ sizedesc (8 * zlen msg)). rewrite app_assoc.
    apply hash_Write_absorbed; [apply hash_Write_absorbed; [done|lia]|rewrite zlen_app; lia]. }
  by rewrite Hs.
Qed.
End StreamingLemmas.

(** ** The four hashers *)

Lemma take_drop_take (c : bytes) n off B :
  (off + n <= B)%nat -> take n (drop off (take B c)) = take n (drop off c).
Proof.
  intros H. destruct (Nat.le_gt_cases (length c) B).
  - by rewrite (take_ge c) by lia.
  - rewrite <- (take_drop B c) at 2. rewrite drop_app_le, take_app_le; [done|rewrite length_drop, length_take; lia|rewrite length_take; lia].
Qed.

Lemma ReadBE32_take c off : (off + 4 <= 64)%nat -> ReadBE32 (take 64 c) off = ReadBE32 c off.
Proof. intros. unfold ReadBE32. by rewrite take_drop_take. Qed.

Lemma ReadLE32_take c off : (off + 4 <= 64)%nat -> ReadLE32 (take 64 c) off = ReadLE32 c off.
Proof. intros. unfold ReadLE32. by rewrite take_drop_take. Qed.

Lemma ReadBE64_take c off : (off + 8 <= 128)%nat -> ReadBE64 (take 128 c) off = ReadBE64 c off.
Proof. intros. unfold ReadBE64. by rewrite take_drop_take. Qed.

Lemma sha256_local s c : sha256.Transform s (take 64 c) = sha256.Transform s c.
Proof. unfold sha256.Transform. by rewrite !ReadBE32_take by lia. Qed.

Lemma sha512_local s c : sha512.Transform s (take 128 c) = sha512.Transform s c.
Proof. unfold sha512.Transform. by rewrite !ReadBE64_take by lia. Qed.

Lemma sha1_local s c : sha1.Transform s (take 64 c) = sha1.Transform s c.
Proof. unfold sha1.Transform. by rewrite !ReadBE32_take by lia. Qed.

Lemma ripemd160_local s c : ripemd160.Transform s (take 64 c) = ripemd160.Transform s c.
Proof. unfold ripemd160.Transform. by rewrite !ReadLE32_take by lia. Qed.

Lemma WriteBE64_length n : length (WriteBE64 n) = 8%nat.
Proof. unfold WriteBE64. by rewrite length_rev, length_le_bytes. Qed.

(** Writing pieces one after the other absorbs their concatenation. *)
Lemma absorbed_pieces {St} (B L : nat) (T : St -> bytes -> St) init pieces :
  (forall s c, T s (take B c) = T s c) -> (L < B)%nat -> zlen (concat pieces) < 2 ^ 64 ->
  absorbed B T init (concat pieces) (fold_left (fun h d => hash_Write B T d h) pieces (hash_init B init)).
Proof.
  intros HT HL. induction pieces as [|d pieces IH] using rev_ind; intros Hl.
  - by apply (hash_init_absorbed B L).
  - rewrite fold_left_app, concat_app in *. simpl in *. rewrite app_nil_r in *. rewrite zlen_app in Hl.
    pose proof (zlen_nonneg d). apply (hash_Write_absorbed B L); [done..|apply IH; lia|lia].
Qed.

(** The hash functions: the padded message, split into blocks, through the
    transformation. *)
Definition sha256_spec : bytes -> bytes :=
  hash_spec 64 8 sha256.Transform sha256.Initialize WriteBE64 sha256.output.
Definition sha512_spec : bytes -> bytes :=
  hash_spec 128 16 sha512.Transform sha512.Initialize (fun n => repeat 0 8 ++ WriteBE64 n) sha512.output.
Definition sha1_spec : bytes -> bytes :=
  hash_spec 64 8 sha1.Transform sha1.Initialize WriteBE64 sha1.output.
Definition ripemd160_spec : bytes -> bytes :=
  hash_spec 64 8 ripemd160.Transform ripemd160.Initialize WriteLE64 ripemd160.output.

Lemma CSHA256_pieces pieces :
  zlen (concat pieces) < 2 ^ 60 ->
  CSHA256_Finalize (fold_left (fun h d => CSHA256_Write d h) pieces CSHA256_init) = sha256_spec (concat pieces).
Proof.
  intros Hl. apply hash_Finalize_absorbed with (init := sha256.Initialize);
    [apply sha256_local|lia|apply WriteBE64_length| |lia..].
  apply (absorbed_pieces 64 8); [apply sha256_local|lia..].
Qed.

Lemma CSHA512_pieces pieces :
  zlen (concat pieces) < 2 ^ 60 ->
  CSHA512_Finalize (fold_left (fun h d => CSHA512_Write d h) pieces CSHA512_init) = sha512_spec (concat pieces).
Proof.
  intros Hl. apply hash_Finalize_absorbed with (init := sha512.Initialize);
    [apply sha512_local|lia|intros; by rewrite length_app, repeat_length, WriteBE64_length| |lia..].
  apply (absorbed_pieces 128 16); [apply sha512_local|lia..].
Qed.

Lemma CSHA1_pieces pieces :
  zlen (concat pieces) < 2 ^ 60 ->
  CSHA1_Finalize (fold_left (fun h d => CSHA1_Write d h) pieces CSHA1_init) = sha1_spec (concat pieces).
Proof.
  intros Hl. apply hash_Finalize_absorbed with (init := sha1.Initialize);
    [apply sha1_local|lia|apply WriteBE64_length| |lia..].
  apply (absorbed_pieces 64 8); [apply sha1_local|lia..].
Qed.

Lemma CRIPEMD160_pieces pieces :
  zlen (concat pieces) < 2 ^ 60 ->
  CRIPEMD160_Finalize (fold_left (fun h d => CRIPEMD160_Write d h) pieces CRIPEMD160_init)
    = ripemd160_spec (concat pieces).
Proof.
  intros Hl. apply hash_Finalize_absorbed with (init := ripemd160.Initialize);
    [apply ripemd160_local|lia|intros; apply length_le_bytes| |lia..].
  apply (absorbed_pieces 64 8); [apply ripemd160_local|lia..].
Qed.

(** C39: However a message is cut into pieces, writing them one after the other
    into a SHA-256, SHA-512, SHA-1 or RIPEMD-160 hasher and finalizing gives the
    hash of the whole message: the padded message (0x80, zeros and the bit
    length) split into blocks and run through the transformation. *)
Theorem hashers_streaming pieces :
  zlen (concat pieces) < 2 ^ 60 ->
  CSHA256_Finalize (fold_left (fun h d => CSHA256_Write d h) pieces CSHA256_init) = sha256_spec (concat pieces) /\
  CSHA512_Finalize (fold_left (fun h d => CSHA512_Write d h) pieces CSHA512_init) = sha512_spec (concat pieces) /\
  CSHA1_Finalize (fold_left (fun h d => CSHA1_Write d h) pieces CSHA1_init) = sha1_spec (concat pieces) /\
  CRIPEMD160_Finalize (fold_left (fun h d => CRIPEMD160_Write d h) pieces CRIPEMD160_init)
    = ripemd160_spec (concat pieces).
Proof.
  intros Hl. split_and!; auto using CSHA256_pieces, CSHA512_pieces, CSHA1_pieces, CRIPEMD160_pieces.
Qed.

Lemma hashers_streaming_witness :
  CSHA256_Finalize (CSHA256_Write [99] (CSHA256_Write [97; 98] CSHA256_init)) = sha256_spec [97; 98; 99].
Proof. apply (hashers_streaming [[97; 98]; [99]]). by vm_compute. Defined.

Lemma SHA256_spec data : zlen data < 2 ^ 60 -> SHA256 data = sha256_spec data.
Proof.
  intros. replace data with (concat [data]) at 2 by (simpl; by rewrite app_nil_r).
  rewrite <- CSHA256_pieces; [done|]. simpl. by rewrite app_nil_r.
Qed.

Lemma CSHA256_two p1 p2 :
  zlen p1 + zlen p2 < 2 ^ 60 ->
  CSHA256_Finalize (CSHA256_Write p2 (CSHA256_Write p1 CSHA256_init)) = SHA256 (p1 ++ p2).
Proof.
  intros Hl. rewrite SHA256_spec by (rewrite zlen_app; done).
  pose proof (CSHA256_pieces [p1; p2]) as H. simpl in H. rewrite app_nil_r in H. apply H.
  rewrite zlen_app. done.
Qed.

(** Hashing two buffers hashes their concatenation. *)
Lemma Hash2_app p1 p2 : zlen p1 + zlen p2 < 2 ^ 60 -> Hash2 p1 p2 = Hash (p1 ++ p2).
Proof. intros. unfold Hash2, Hash, CHash256_Finalize. by rewrite CSHA256_two. Qed.

Lemma SHA256_length data : length (SHA256 data) = 32%nat.
Proof. done. Qed.

(** Every digest is a string of bytes of its fixed length. *)
Definition digest_ok (n : Z) (v : bytes) : Prop := zlen v = n /\ bytes_ok v.

Lemma WriteBE32_ok x : digest_ok 4 (WriteBE32 x).
Proof. split; [done|]. unfold WriteBE32, bytes_ok. apply Forall_rev, le_bytes_ok. Qed.

Lemma WriteLE32_ok x : digest_ok 4 (WriteLE32 x).
Proof. split; [done|]. apply le_bytes_ok. Qed.

Lemma digest_app m n a b : digest_ok m a -> digest_ok n b -> digest_ok (m + n) (a ++ b).
Proof. intros [<- Ha] [<- Hb]. split; [apply zlen_app|]. by apply bytes_ok_app. Qed.

Lemma sha256_output_ok s : digest_ok 32 (sha256.output s).
Proof. change 32 with (4 + (4 + (4 + (4 + (4 + (4 + (4 + 4))))))). repeat apply digest_app; apply WriteBE32_ok. Qed.
Lemma sha1_output_ok s : digest_ok 20 (sha1.output s).
Proof. change 20 with (4 + (4 + (4 + (4 + 4)))). repeat apply digest_app; apply WriteBE32_ok. Qed.
Lemma ripemd160_output_ok s : digest_ok 20 (ripemd160.output s).
Proof. change 20 with (4 + (4 + (4 + (4 + 4)))). repeat apply digest_app; apply WriteLE32_ok. Qed.

Lemma SHA256_ok data : digest_ok 32 (SHA256 data).
Proof. exact (sha256_output_ok _). Qed.
Lemma SHA1_ok data : digest_ok 20 (SHA1 data).
Proof. exact (sha1_output_ok _). Qed.
Lemma RIPEMD160_ok data : digest_ok 20 (RIPEMD160 data).
Proof. exact (ripemd160_output_ok _). Qed.
Lemma Hash_ok data : digest_ok 32 (Hash data).
Proof. exact (SHA256_ok _). Qed.
Lemma Hash2_ok p q : digest_ok 32 (Hash2 p q).
Proof. exact (SHA256_ok _). Qed.
Lemma Hash160_ok data : digest_ok 20 (Hash160 data).
Proof. exact (RIPEMD160_ok _). Qed.

(** HMAC-SHA256 is the nested hash of RFC 2104: with the key [K0] padded with
    zeros to a block (hashed first when longer than one), the tag is
    SHA256((K0 xor 0x5c..) ++ SHA256((K0 xor 0x36..) ++ message)). *)
Theorem CHMAC_SHA256_spec key data :
  zlen key < 2 ^ 59 -> zlen data < 2 ^ 59 ->
  let K0 := if (length key <=? 64)%nat then key ++ repeat 0 (64 - length key)
            else SHA256 key ++ repeat 0 32 in
  CHMAC_SHA256_Finalize (CHMAC_SHA256_Write data (CHMAC_SHA256_init key)) =
    SHA256 (map (Z.lxor 0x5c) K0 ++ SHA256 (map (Z.lxor 0x36) K0 ++ data)).
Proof.
  intros Hk Hd K0. unfold CHMAC_SHA256_Finalize, CHMAC_SHA256_Write, CHMAC_SHA256_init.
  unfold hmac_Finalize, hmac_Write, hmac_init. cbn [fst snd].
  change (hmac_rkey 64 32 CSHA256_Write CSHA256_Finalize CSHA256_init key) with K0.
  assert (length K0 = 64%nat) as HK.
  { subst K0. destruct (Nat.leb_spec (length key) 64); rewrite length_app, repeat_length; simpl; lia. }
  assert (map (Z.lxor (Z.lxor 92 54)) (map (Z.lxor 92) K0) = map (Z.lxor 54) K0) as ->.
  { rewrite map_map. apply map_ext. intros x. by rewrite <- Z.lxor_assoc. }
  assert (forall k, zlen (map (Z.lxor k) K0) = 64) as Hz by (intros; unfold zlen; rewrite length_map; lia).
  rewrite (CSHA256_two _ data) by (rewrite Hz; lia).
  rewrite CSHA256_two; [done|]. rewrite Hz. unfold zlen. rewrite SHA256_length. lia.
Qed.

Lemma CHMAC_SHA256_spec_witness :
  CHMAC_SHA256_Finalize (CHMAC_SHA256_Write [1; 2] (CHMAC_SHA256_init [7])) =
    SHA256 (map (Z.lxor 0x5c) ([7] ++ repeat 0 63) ++
            SHA256 (map (Z.lxor 0x36) ([7] ++ repeat 0 63) ++ [1; 2])).
Proof. apply (CHMAC_SHA256_spec [7] [1; 2]); by vm_compute. Defined.

(** The start-up self test of the SHA-256 code passes: the assertion in
    [SHA256AutoDetect] holds for the standard transformation. *)
Theorem SHA256_SelfTest : SelfTest (TransformN 64 sha256.Transform) = true.
Proof. vm_compute. reflexivity. Qed.
