(* ===== verification/Script.v ===== *)
(** * Scripts (script.h, script.cpp)

    Script numbers, the byte-level encoding of scripts (pushes, [GetOp]), the
    scans over the operations of a script and the script templates. The
    interpreter is modelled in Interpreter. *)
From S2P Require Import Prelude.

Definition MAX_SCRIPT_ELEMENT_SIZE : Z := 520.
Definition MAX_OPS_PER_SCRIPT : Z := 201.
Definition MAX_PUBKEYS_PER_MULTISIG : Z := 20.
Definition MAX_SCRIPT_SIZE : Z := 10000.
Definition MAX_STACK_SIZE : Z := 1000.
Definition LOCKTIME_THRESHOLD : Z := 500000000.

(** ** [enum opcodetype]

    Any byte of a script is cast to this enumeration, so an opcode is a [Z]. *)
Definition OP_0 : Z := 0x00.
Definition OP_FALSE : Z := OP_0.
Definition OP_PUSHDATA1 : Z := 0x4c.
Definition OP_PUSHDATA2 : Z := 0x4d.
Definition OP_PUSHDATA4 : Z := 0x4e.
Definition OP_1NEGATE : Z := 0x4f.
Definition OP_RESERVED : Z := 0x50.
Definition OP_1 : Z := 0x51.
Definition OP_TRUE : Z := OP_1.
Definition OP_2 : Z := 0x52.
Definition OP_3 : Z := 0x53.
Definition OP_4 : Z := 0x54.
Definition OP_5 : Z := 0x55.
Definition OP_6 : Z := 0x56.
Definition OP_7 : Z := 0x57.
Definition OP_8 : Z := 0x58.
Definition OP_9 : Z := 0x59.
Definition OP_10 : Z := 0x5a.
Definition OP_11 : Z := 0x5b.
Definition OP_12 : Z := 0x5c.
Definition OP_13 : Z := 0x5d.
Definition OP_14 : Z := 0x5e.
Definition OP_15 : Z := 0x5f.
Definition OP_16 : Z := 0x60.
Definition OP_NOP : Z := 0x61.
Definition OP_VER : Z := 0x62.
Definition OP_IF : Z := 0x63.
Definition OP_NOTIF : Z := 0x64.
Definition OP_VERIF : Z := 0x65.
Definition OP_VERNOTIF : Z := 0x66.
Definition OP_ELSE : Z := 0x67.
Definition OP_ENDIF : Z := 0x68.
Definition OP_VERIFY : Z := 0x69.
Definition OP_RETURN : Z := 0x6a.
Definition OP_TOALTSTACK : Z := 0x6b.
Definition OP_FROMALTSTACK : Z := 0x6c.
Definition OP_2DROP : Z := 0x6d.
Definition OP_2DUP : Z := 0x6e.
Definition OP_3DUP : Z := 0x6f.
Definition OP_2OVER : Z := 0x70.
Definition OP_2ROT : Z := 0x71.
Definition OP_2SWAP : Z := 0x72.
Definition OP_IFDUP : Z := 0x73.
Definition OP_DEPTH : Z := 0x74.
Definition OP_DROP : Z := 0x75.
Definition OP_DUP : Z := 0x76.
Definition OP_NIP : Z := 0x77.
Definition OP_OVER : Z := 0x78.
Definition OP_PICK : Z := 0x79.
Definition OP_ROLL : Z := 0x7a.
Definition OP_ROT : Z := 0x7b.
Definition OP_SWAP : Z := 0x7c.
Definition OP_TUCK : Z := 0x7d.
Definition OP_CAT : Z := 0x7e.
Definition OP_SUBSTR : Z := 0x7f.
Definition OP_LEFT : Z := 0x80.
Definition OP_RIGHT : Z := 0x81.
Definition OP_SIZE : Z := 0x82.
Definition OP_INVERT : Z := 0x83.
Definition OP_AND : Z := 0x84.
Definition OP_OR : Z := 0x85.
Definition OP_XOR : Z := 0x86.
Definition OP_EQUAL : Z := 0x87.
Definition OP_EQUALVERIFY : Z := 0x88.
Definition OP_RESERVED1 : Z := 0x89.
Definition OP_RESERVED2 : Z := 0x8a.
Definition OP_1ADD : Z := 0x8b.
Definition OP_1SUB : Z := 0x8c.
Definition OP_2MUL : Z := 0x8d.
Definition OP_2DIV : Z := 0x8e.
Definition OP_NEGATE : Z := 0x8f.
Definition OP_ABS : Z := 0x90.
Definition OP_NOT : Z := 0x91.
Definition OP_0NOTEQUAL : Z := 0x92.
Definition OP_ADD : Z := 0x93.
Definition OP_SUB : Z := 0x94.
Definition OP_MUL : Z := 0x95.
Definition OP_DIV : Z := 0x96.
Definition OP_MOD : Z := 0x97.
Definition OP_LSHIFT : Z := 0x98.
Definition OP_RSHIFT : Z := 0x99.
Definition OP_BOOLAND : Z := 0x9a.
Definition OP_BOOLOR : Z := 0x9b.
Definition OP_NUMEQUAL : Z := 0x9c.
Definition OP_NUMEQUALVERIFY : Z := 0x9d.
Definition OP_NUMNOTEQUAL : Z := 0x9e.
Definition OP_LESSTHAN : Z := 0x9f.
Definition OP_GREATERTHAN : Z := 0xa0.
Definition OP_LESSTHANOREQUAL : Z := 0xa1.
Definition OP_GREATERTHANOREQUAL : Z := 0xa2.
Definition OP_MIN : Z := 0xa3.
Definition OP_MAX : Z := 0xa4.
Definition OP_WITHIN : Z := 0xa5.
Definition OP_RIPEMD160 : Z := 0xa6.
Definition OP_SHA1 : Z := 0xa7.
Definition OP_SHA256 : Z := 0xa8.
Definition OP_HASH160 : Z := 0xa9.
Definition OP_HASH256 : Z := 0xaa.
Definition OP_CODESEPARATOR : Z := 0xab.
Definition OP_CHECKSIG : Z := 0xac.
Definition OP_CHECKSIGVERIFY : Z := 0xad.
Definition OP_CHECKMULTISIG : Z := 0xae.
Definition OP_CHECKMULTISIGVERIFY : Z := 0xaf.
Definition OP_NOP1 : Z := 0xb0.
Definition OP_CHECKLOCKTIMEVERIFY : Z := 0xb1.
Definition OP_NOP2 : Z := OP_CHECKLOCKTIMEVERIFY.
Definition OP_CHECKSEQUENCEVERIFY : Z := 0xb2.
Definition OP_NOP3 : Z := OP_CHECKSEQUENCEVERIFY.
Definition OP_NOP4 : Z := 0xb3.
Definition OP_NOP5 : Z := 0xb4.
Definition OP_NOP6 : Z := 0xb5.
Definition OP_NOP7 : Z := 0xb6.
Definition OP_NOP8 : Z := 0xb7.
Definition OP_NOP9 : Z := 0xb8.
Definition OP_NOP10 : Z := 0xb9.
Definition OP_SMALLINTEGER : Z := 0xfa.
Definition OP_PUBKEYS : Z := 0xfb.
Definition OP_PUBKEYHASH : Z := 0xfd.
Definition OP_PUBKEY : Z := 0xfe.
Definition OP_INVALIDOPCODE : Z := 0xff.
Definition MAX_OPCODE : Z := OP_NOP10.

(** ** CScriptNum

    A script number is the int64 it stores. *)
Definition nDefaultMaxNumSize : Z := 4.

(** The loop of [set_vch] from index [i] on. *)
Fixpoint set_vch_loop (i : Z) (vch : bytes) (result : Z) : Z :=
  match vch with
  | [] => result
  | b :: vch => set_vch_loop (i + 1) vch (i64 (Z.lor result (Z.shiftl b (8 * i))))
  end.

Definition vch_back (vch : bytes) : Z := List.last vch 0.

Definition set_vch (vch : bytes) : Z :=
  if zlen vch =? 0 then 0
  else
    let result := set_vch_loop 0 vch 0 in
    if negb (Z.land (vch_back vch) 0x80 =? 0)
    then i64 (- i64 (Z.land (u64 result) (u64 (Z.lnot (Z.shiftl 0x80 (8 * (zlen vch - 1)))))))
    else result.

Definition scriptnum_overflow : Exn := scriptnum_error "script number overflow".
Definition scriptnum_nonminimal : Exn := scriptnum_error "non-minimally encoded script number".

(** [CScriptNum(vch, fRequireMinimal, nMaxNumSize)]. *)
Definition CScriptNum (vch : bytes) (fRequireMinimal : bool) (nMaxNumSize : Z) : result Z :=
  if nMaxNumSize <? zlen vch then Throw scriptnum_overflow
  else if fRequireMinimal && (0 <? zlen vch) && (Z.land (vch_back vch) 0x7f =? 0) &&
          ((zlen vch <=? 1) || (Z.land (vch_back (removelast vch)) 0x80 =? 0))
  then Throw scriptnum_nonminimal
  else Ok (set_vch vch).

(** [while(absvalue)] of [serialize]; a uint64 has at most 8 bytes. *)
Fixpoint serialize_loop (fuel : nat) (absvalue : Z) : bytes :=
  match fuel with
  | O => []
  | S fuel =>
      if absvalue =? 0 then []
      else Z.land absvalue 0xff :: serialize_loop fuel (Z.shiftr absvalue 8)
  end.

Definition scriptnum_serialize (value : Z) : bytes :=
  if value =? 0 then []
  else
    let neg := value <? 0 in
    let absvalue := u64 (if neg then i64 (- value) else value) in
    let result := serialize_loop 8 absvalue in
    if negb (Z.land (vch_back result) 0x80 =? 0)
    then result ++ [if neg then 0x80 else 0]
    else if neg then removelast result ++ [Z.lor (vch_back result) 0x80]
    else result.

(** The int64 operators; [operator-()], [+=] and [-=] assert no overflow. *)
Definition scriptnum_neg (m_value : Z) : result Z :=
  assert_then (negb (m_value =? - 2 ^ 63)) "m_value != int64 min" (Ok (- m_value)).

Definition scriptnum_add_assign (m_value rhs : Z) : result Z :=
  assert_then ((rhs =? 0) || ((0 <? rhs) && (m_value <=? INT64_MAX - rhs)) ||
               ((rhs <? 0) && (- 2 ^ 63 - rhs <=? m_value))) "operator+= overflow"
    (Ok (m_value + rhs)).

Definition scriptnum_sub_assign (m_value rhs : Z) : result Z :=
  assert_then ((rhs =? 0) || ((0 <? rhs) && (- 2 ^ 63 + rhs <=? m_value)) ||
               ((rhs <? 0) && (m_value <=? INT64_MAX + rhs))) "operator-= overflow"
    (Ok (m_value - rhs)).

Definition scriptnum_add (m_value rhs : Z) : Z := i64 (m_value + rhs).
Definition scriptnum_sub (m_value rhs : Z) : Z := i64 (m_value - rhs).

Definition getint (m_value : Z) : Z :=
  if INT32_MAX <? m_value then INT32_MAX
  else if m_value <? - 2 ^ 31 then - 2 ^ 31
  else m_value.

(** ** CScript: appending operations *)
Definition CScript : Type := bytes.

(** [operator<<(const std::vector<unsigned char>&)]. *)
Definition push_vch (b : bytes) (script : CScript) : CScript :=
  script ++
  (if zlen b <? OP_PUSHDATA1 then [u8 (zlen b)]
   else if zlen b <=? 0xff then [OP_PUSHDATA1; u8 (zlen b)]
   else if zlen b <=? 0xffff then OP_PUSHDATA2 :: le_bytes 2 (u16 (zlen b))
   else OP_PUSHDATA4 :: le_bytes 4 (u32 (zlen b))) ++ b.

Definition push_opcode (opcode : Z) (script : CScript) : result CScript :=
  if (opcode <? 0) || (0xff <? opcode)
  then Throw (runtime_error "CScript::operator<<(): invalid opcode")
  else Ok (script ++ [u8 opcode]).

Definition push_int64 (n : Z) (script : CScript) : CScript :=
  if (n =? -1) || ((1 <=? n) && (n <=? 16)) then script ++ [u8 (n + (OP_1 - 1))]
  else if n =? 0 then script ++ [OP_0]
  else push_vch (scriptnum_serialize n) script.

Definition push_scriptnum (n : Z) (script : CScript) : CScript :=
  push_vch (scriptnum_serialize n) script.

(** ** CScript: reading operations

    An iterator is the part of the script from it to the end. [GetOp2] returns
    the opcode, the data pushed and the advanced iterator; [None] is [false],
    and [GetOp2_failed] is where the iterator is then. *)
Definition GetOp2_data (opcode nSize : Z) (pc : bytes) : option (Z * bytes * bytes) :=
  if u32 (zlen pc) <? nSize then None
  else Some (opcode, take (Z.to_nat nSize) pc, drop (Z.to_nat nSize) pc).

Definition GetOp2 (pc : bytes) : option (Z * bytes * bytes) :=
  match pc with
  | [] => None
  | opcode :: pc =>
      if opcode <=? OP_PUSHDATA4 then
        if opcode <? OP_PUSHDATA1 then GetOp2_data opcode opcode pc
        else if opcode =? OP_PUSHDATA1 then
          if zlen pc <? 1 then None else GetOp2_data opcode (le_value (take 1 pc)) (drop 1 pc)
        else if opcode =? OP_PUSHDATA2 then
          if zlen pc <? 2 then None else GetOp2_data opcode (le_value (take 2 pc)) (drop 2 pc)
        else
          if zlen pc <? 4 then None else GetOp2_data opcode (le_value (take 4 pc)) (drop 4 pc)
      else Some (opcode, [], pc)
  end.

Definition GetOp2_failed (pc : bytes) : bytes :=
  match pc with
  | [] => []
  | opcode :: pc =>
      if opcode <? OP_PUSHDATA1 then pc
      else if opcode =? OP_PUSHDATA1 then (if zlen pc <? 1 then pc else drop 1 pc)
      else if opcode =? OP_PUSHDATA2 then (if zlen pc <? 2 then pc else drop 2 pc)
      else if zlen pc <? 4 then pc else drop 4 pc
  end.

(** The loop [while (pc < end()) { if (!GetOp(pc, opcode, vch)) ...; ... }] the
    scans of a script and the interpreter share: [body] is one iteration, which
    returns from the function ([inl]) or goes on ([inr]); [bad] is what follows
    a failed [GetOp], [atend] what follows the loop. Each iteration consumes a
    byte at least, so the length of the script bounds their number. *)
Section OpLoop.
Context {St R : Type} (body : Z -> bytes -> bytes -> St -> R + St) (bad atend : St -> R).

Fixpoint op_loop (fuel : nat) (pc : bytes) (st : St) : R :=
  match pc, fuel with
  | [], _ | _, O => atend st
  | _, S fuel =>
      match GetOp2 pc with
      | None => bad st
      | Some (opcode, vch, pc') =>
          match body opcode vch pc' st with
          | inl r => r
          | inr st' => op_loop fuel pc' st'
          end
      end
  end.

Definition op_run (pc : bytes) (st : St) : R := op_loop (length pc) pc st.
End OpLoop.

Definition OP_N_value (opcode : Z) : Z :=
  if opcode =? OP_0 then 0 else opcode - (OP_1 - 1).

Definition DecodeOP_N (opcode : Z) : result Z :=
  assert_then ((opcode =? OP_0) || ((OP_1 <=? opcode) && (opcode <=? OP_16)))
    "opcode >= OP_1 && opcode <= OP_16" (Ok (OP_N_value opcode)).

Definition EncodeOP_N (n : Z) : result Z :=
  assert_then ((0 <=? n) && (n <=? 16)) "n >= 0 && n <= 16"
    (Ok (if n =? 0 then OP_0 else OP_1 + n - 1)).

(** [while (end() - pc >= b.size() && std::equal(b.begin(), b.end(), pc))]. *)
Definition starts_with (b pc : bytes) : bool :=
  (zlen b <=? zlen pc) && bool_decide (take (length b) pc = b).

Fixpoint FindAndDelete_skip (fuel : nat) (b pc : bytes) (nFound : Z) : bytes * Z :=
  match fuel with
  | O => (pc, nFound)
  | S fuel =>
      if starts_with b pc then FindAndDelete_skip fuel b (drop (length b) pc) (nFound + 1)
      else (pc, nFound)
  end.

(** The [do ... while (GetOp(pc, opcode))] loop: [pc2] and [pc] are the two
    iterators, [result] the script built so far. *)
Fixpoint FindAndDelete_loop (fuel : nat) (b pc2 pc result : bytes) (nFound : Z)
    : bytes * bytes * Z :=
  let result := result ++ take (length pc2 - length pc) pc2 in
  let '(pc, nFound) := FindAndDelete_skip (length pc) b pc nFound in
  match GetOp2 pc, fuel with
  | Some (_, _, pc'), S fuel => FindAndDelete_loop fuel b pc pc' result nFound
  | _, _ => (result, pc, nFound)
  end.

(** [int FindAndDelete(const CScript& b)]: the new script and the count. *)
Definition FindAndDelete (script b : CScript) : CScript * Z :=
  if zlen b =? 0 then (script, 0)
  else
    let '(result, pc2, nFound) :=
      FindAndDelete_loop (length script) b script script [] 0 in
    if 0 <? nFound then (result ++ pc2, nFound) else (script, nFound).

(** ** Scans of a script *)
Definition Find (script : CScript) (op : Z) : Z :=
  op_run (fun opcode _ _ nFound => inr (if opcode =? op then nFound + 1 else nFound))
    (fun nFound => nFound) (fun nFound => nFound) script 0.

(** One iteration of [GetSigOpCount(bool)]; the state is [n] and [lastOpcode]. *)
Definition GetSigOpCount_body (fAccurate : bool) (opcode : Z) (_ _ : bytes) (st : Z * Z)
    : Z + (Z * Z) :=
  let '(n, lastOpcode) := st in
  inr (if (opcode =? OP_CHECKSIG) || (opcode =? OP_CHECKSIGVERIFY) then u32 (n + 1)
       else if (opcode =? OP_CHECKMULTISIG) || (opcode =? OP_CHECKMULTISIGVERIFY) then
         if fAccurate && (OP_1 <=? lastOpcode) && (lastOpcode <=? OP_16)
         then u32 (n + OP_N_value lastOpcode)
         else u32 (n + MAX_PUBKEYS_PER_MULTISIG)
       else n, opcode).

Definition GetSigOpCount (script : CScript) (fAccurate : bool) : Z :=
  op_run (GetSigOpCount_body fAccurate) fst fst script (0, OP_INVALIDOPCODE).

(** ** Templates *)
Definition script_at (script : CScript) (i : nat) : Z := nth i script 0.

Definition IsPayToScriptHash (script : CScript) : bool :=
  (zlen script =? 23) && (script_at script 0 =? OP_HASH160) &&
  (script_at script 1 =? 0x14) && (script_at script 22 =? OP_EQUAL).

Definition IsPayToWitnessScriptHash (script : CScript) : bool :=
  (zlen script =? 34) && (script_at script 0 =? OP_0) && (script_at script 1 =? 0x20).

(** The version and the program, [None] for [false]. *)
Definition IsWitnessProgram (script : CScript) : option (Z * bytes) :=
  if (zlen script <? 4) || (42 <? zlen script) then None
  else
    let op := script_at script 0 in
    if negb (op =? OP_0) && ((op <? OP_1) || (OP_16 <? op)) then None
    else if script_at script 1 + 2 =? zlen script then Some (OP_N_value op, drop 2 script)
    else None.

Definition IsPushOnly (script : CScript) : bool :=
  op_run (fun opcode _ _ _ => if OP_16 <? opcode then inl false else inr tt)
    (fun _ => false) (fun _ => true) script tt.

(** [GetSigOpCount(scriptSig)]: the state of the loop is [vData]. *)
Definition GetSigOpCount_P2SH (script scriptSig : CScript) : Z :=
  if negb (IsPayToScriptHash script) then GetSigOpCount script true
  else
    op_run (fun opcode vch _ _ => if OP_16 <? opcode then inl 0 else inr vch)
      (fun _ => 0) (fun vData => GetSigOpCount vData true) scriptSig [].

Definition HasValidOps (script : CScript) : bool :=
  op_run (fun opcode item _ _ =>
            if (MAX_OPCODE <? opcode) || (MAX_SCRIPT_ELEMENT_SIZE <? zlen item)
            then inl false else inr tt)
    (fun _ => false) (fun _ => true) script tt.

Definition IsUnspendable (script : CScript) : bool :=
  ((0 <? zlen script) && (script_at script 0 =? OP_RETURN)) || (MAX_SCRIPT_SIZE <? zlen script).

(** * Lemmas: script numbers *)

Lemma pow256_pow2 n : 0 <= n -> 256 ^ n = 2 ^ (8 * n).
Proof. intros Hn. change 256 with (2 ^ 8). by rewrite <- Z.pow_mul_r. Qed.

Lemma pow256_le n : (n <= 8)%nat -> 256 ^ Z.of_nat n <= 2 ^ 64.
Proof. intros Hn. rewrite pow256_pow2 by lia. apply Z.pow_le_mono_r; lia. Qed.

(** Facts about one byte, by evaluation over all bytes. *)
Lemma byte_sign b : is_byte b ->
  Z.land b 0x7f = b mod 128 /\ (Z.land b 0x80 =? 0) = (b <? 128) /\
  (b < 128 -> Z.lor b 0x80 = b + 128).
Proof.
  intros Hb. pose (P := fun b => (Z.land b 0x7f =? b mod 128) &&
    Bool.eqb (Z.land b 0x80 =? 0) (b <? 128) && ((128 <=? b) || (Z.lor b 0x80 =? b + 128))).
  assert (P b = true) as HP by (apply byte_forall; [by vm_compute|done]).
  unfold P in HP. bool_to_prop. split_and!; [done|by apply Bool.eqb_prop|].
  intros Hlt. match goal with H : _ || _ = true |- _ => apply orb_true_iff in H as [?|?] end;
  bool_to_prop; lia.
Qed.

(** [set_vch] accumulates the little-endian value of the bytes. *)
Lemma set_vch_loop_value i vch r :
  bytes_ok vch -> 0 <= i -> i + zlen vch <= 8 -> 0 <= r < 256 ^ i ->
  set_vch_loop i vch (i64 r) = i64 (r + 256 ^ i * le_value vch).
Proof.
  intros Hv. revert i r; induction Hv as [|b vch Hb Hv IH]; intros i r Hi Hl Hr.
  - cbn [set_vch_loop le_value]. by rewrite Z.mul_0_r, Z.add_0_r.
  - cbn [set_vch_loop le_value]. rewrite zlen_cons in Hl. pose proof (zlen_nonneg vch).
    assert (256 ^ i <= 256 ^ 7) by (apply Z.pow_le_mono_r; lia).
    rewrite (i64_small r) by (unfold is_i64; lia).
    unfold is_byte in Hb.
    assert (Z.lor r (Z.shiftl b (8 * i)) = r + 256 ^ i * b) as ->.
    { rewrite Z.shiftl_mul_pow2, Z.lor_comm by lia.
      rewrite pow256_pow2 in * by lia. rewrite lor_shift_add; lia. }
    rewrite IH by (rewrite ?Z.pow_add_r by lia; nia). f_equal. rewrite Z.pow_add_r; lia.
Qed.

Lemma clear_bit V k : 0 <= k < 64 -> 0 <= V < 2 ^ 64 -> Z.testbit V k = true ->
  Z.land V (u64 (Z.lnot (2 ^ k))) = V - 2 ^ k.
Proof.
  intros Hk HV Hb. unfold u64. rewrite <- Z.land_ones by lia.
  rewrite (Z.land_comm (Z.lnot _)), Z.land_assoc, Z.land_ones, Z.mod_small by lia.
  rewrite <- Z.ldiff_land. symmetry. apply Z.sub_nocarry_ldiff.
  apply Z.bits_inj'. intros n Hn. rewrite Z.ldiff_spec, Z.pow2_bits_eqb, Z.bits_0 by lia.
  destruct (Z.eqb_spec k n) as [<-|]; [by rewrite Hb|done].
Qed.

(** The value a byte vector denotes: little-endian, sign bit in the last byte. *)
Lemma set_vch_value vch b :
  bytes_ok (vch ++ [b]) -> zlen vch <= 7 ->
  set_vch (vch ++ [b]) =
    if b <? 128 then le_value vch + 256 ^ zlen vch * b
    else - (le_value vch + 256 ^ zlen vch * (b - 128)).
Proof.
  intros Hok Hl. pose proof Hok as [Hv Hb]%bytes_ok_app. apply Forall_cons_1 in Hb as [Hb _].
  pose proof (le_value_range vch Hv) as Hr. fold (zlen vch) in Hr. pose proof (zlen_nonneg vch).
  assert (256 ^ zlen vch <= 256 ^ 7) by (apply Z.pow_le_mono_r; lia).
  unfold set_vch. assert (zlen (vch ++ [b]) = zlen vch + 1) as Hz by (rewrite zlen_app; done).
  rewrite Hz. destruct (Z.eqb_spec (zlen vch + 1) 0); [lia|].
  assert (set_vch_loop 0 (vch ++ [b]) 0 = i64 (le_value vch + 256 ^ zlen vch * b)) as ->.
  { change 0 with (i64 0) at 2. rewrite set_vch_loop_value by (rewrite ?Hz; lia || done).
    rewrite le_value_app. simpl. fold (zlen vch). f_equal. lia. }
  unfold vch_back. rewrite last_last. destruct (byte_sign b Hb) as (_ & -> & _).
  unfold is_byte in Hb. destruct (Z.ltb_spec b 128); simpl.
  { rewrite i64_small; [done|]. unfold is_i64. nia. }
  set (V := le_value vch + 256 ^ zlen vch * b).
  assert (0 <= V < 2 ^ 64) by (subst V; nia).
  assert (u64 (i64 V) = V) as ->.
  { unfold u64, i64. rewrite Zminus_mod_idemp_l. replace (V + 2 ^ 63 - 2 ^ 63) with V by lia.
    by apply Z.mod_small. }
  assert (Z.shiftl 128 (8 * (zlen vch + 1 - 1)) = 2 ^ (8 * zlen vch + 7)) as ->.
  { rewrite Z.shiftl_mul_pow2, Z.add_simpl_r, (Z.pow_add_r 2 _ 7) by lia. lia. }
  assert (2 ^ (8 * zlen vch + 7) = 256 ^ zlen vch * 128) as Hpow
    by (rewrite pow256_pow2, Z.pow_add_r by lia; lia).
  rewrite clear_bit; [|lia|done|].
  - rewrite Hpow. subst V. rewrite (i64_small (_ - _)) by (unfold is_i64; nia).
    rewrite i64_small by (unfold is_i64; nia). nia.
  - rewrite Z.testbit_true by lia. rewrite Hpow. subst V.
    assert ((le_value vch + 256 ^ zlen vch * b) / (256 ^ zlen vch * 128) = 1) as ->; [|done].
    symmetry. apply (Z.div_unique _ _ _ (le_value vch + 256 ^ zlen vch * (b - 128))); nia.
Qed.

Lemma land_ff a : Z.land a 0xff = a mod 256.
Proof. change 0xff with (2 ^ 8 - 1). by rewrite land_ones_mod by lia. Qed.

Lemma shiftr_8 a : Z.shiftr a 8 = a / 256.
Proof. by rewrite Z.shiftr_div_pow2 by lia. Qed.

(** The bytes of a non-zero absolute value end in a non-zero byte. *)
Lemma serialize_loop_value fuel a :
  0 < a < 256 ^ Z.of_nat fuel ->
  exists pre t, serialize_loop fuel a = pre ++ [t] /\ bytes_ok (pre ++ [t]) /\
    (length pre < fuel)%nat /\ 0 < t /\ le_value (pre ++ [t]) = a.
Proof.
  revert a; induction fuel as [|fuel IH]; intros a Ha; [simpl in Ha; lia|].
  cbn [serialize_loop]. rewrite land_ff, shiftr_8. destruct (Z.eqb_spec a 0); [lia|].
  rewrite Nat2Z.inj_succ, Z.pow_succ_r in Ha by lia.
  pose proof (Z.div_mod a 256). pose proof (Z.mod_pos_bound a 256).
  destruct (Z.eq_dec (a / 256) 0) as [Hz|Hz].
  - exists [], (a mod 256). rewrite Hz. replace (serialize_loop fuel 0) with (@nil Z) by (by destruct fuel).
    split_and!; simpl; [done| |lia..]. repeat constructor; lia.
  - destruct (IH (a / 256)) as (pre & t & -> & Hok & Hl & Ht & Hv).
    { split; [pose proof (Z.div_pos a 256); lia|]. apply Z.div_lt_upper_bound; lia. }
    exists (a mod 256 :: pre), t. split_and!; cbn [app length le_value]; [done| |lia|done|lia].
    constructor; [unfold is_byte; lia|done].
Qed.

Lemma serialize_loop_unique fuel pre t :
  bytes_ok (pre ++ [t]) -> (length pre < fuel)%nat -> 0 < t ->
  serialize_loop fuel (le_value (pre ++ [t])) = pre ++ [t].
Proof.
  intros Hok Hl Ht.
  pose proof (le_value_range _ Hok) as Hr. rewrite length_app in Hr. simpl in Hr.
  assert (0 < le_value (pre ++ [t]) < 256 ^ Z.of_nat fuel) as Hr'.
  { split.
    - rewrite le_value_app. simpl. apply bytes_ok_app in Hok as [Hpre _].
      pose proof (le_value_range pre Hpre). nia.
    - eapply Z.lt_le_trans; [apply Hr|]. apply Z.pow_le_mono_r; lia. }
  destruct (serialize_loop_value fuel _ Hr') as (pre' & t' & -> & Hok' & Hl' & Ht' & Hv).
  assert (length (pre' ++ [t']) = length (pre ++ [t])) as Hlen.
  { rewrite !length_app in *. simpl in *. rewrite !le_value_app in Hv. simpl in Hv.
    apply bytes_ok_app in Hok as [Hpre Htb]. apply bytes_ok_app in Hok' as [Hpre' Htb'].
    apply Forall_cons_1 in Htb as [Htb _]. apply Forall_cons_1 in Htb' as [Htb' _]. unfold is_byte in *.
    pose proof (le_value_range pre Hpre). pose proof (le_value_range pre' Hpre').
    destruct (Nat.lt_trichotomy (length pre') (length pre)) as [Hc|[Hc|Hc]]; [exfalso| lia|exfalso].
    - assert (256 ^ Z.succ (Z.of_nat (length pre')) <= 256 ^ Z.of_nat (length pre))
        by (apply Z.pow_le_mono_r; lia). rewrite Z.pow_succ_r in * by lia. nia.
    - assert (256 ^ Z.succ (Z.of_nat (length pre)) <= 256 ^ Z.of_nat (length pre'))
        by (apply Z.pow_le_mono_r; lia). rewrite Z.pow_succ_r in * by lia. nia. }
  rewrite <- (le_bytes_value (pre' ++ [t'])), <- (le_bytes_value (pre ++ [t])) by done.
  by rewrite Hv, Hlen.
Qed.

(** What the constructor's minimality test accepts. *)
Definition minimal_vch (pre : bytes) (b : Z) : Prop :=
  b mod 128 <> 0 \/ (pre <> [] /\ 128 <= vch_back pre).

Lemma CScriptNum_snoc pre b fMin n :
  bytes_ok (pre ++ [b]) ->
  (CScriptNum (pre ++ [b]) fMin n = Throw scriptnum_overflow /\ n <= zlen pre) \/
  (CScriptNum (pre ++ [b]) fMin n = Ok (set_vch (pre ++ [b])) /\ zlen pre < n /\
     (fMin = true -> minimal_vch pre b)) \/
  (CScriptNum (pre ++ [b]) fMin n = Throw scriptnum_nonminimal /\ zlen pre < n /\
     fMin = true /\ ~ minimal_vch pre b).
Proof.
  intros Hok. pose proof Hok as [Hp Hb]%bytes_ok_app. apply Forall_cons_1 in Hb as [Hb _].
  unfold CScriptNum, vch_back, minimal_vch. rewrite removelast_last, last_last, zlen_app.
  change (zlen [b]) with 1. pose proof (zlen_nonneg pre).
  destruct (byte_sign b Hb) as (-> & _ & _).
  destruct (Z.ltb_spec n (zlen pre + 1)); [left; split; [done|lia]|right].
  destruct (Z.ltb_spec 0 (zlen pre + 1)); [|lia].
  destruct fMin; simpl; [|left; split_and!; [done|lia|done]].
  destruct (Z.eqb_spec (b mod 128) 0); simpl; [|left; split_and!; [done|lia|by left]].
  destruct (Z.leb_spec (zlen pre + 1) 1); simpl.
  - right. split_and!; [done|lia|done|]. intros [?|[? _]]; [done|].
    assert (zlen pre = 0) as ?%zlen_nil_iff by lia. done.
  - destruct pre as [|p0 pre _] using rev_ind; [unfold zlen in *; simpl in *; lia|].
    apply bytes_ok_app in Hp as [_ Hp0]. apply Forall_cons_1 in Hp0 as [Hp0 _].
    unfold vch_back. rewrite last_last. destruct (byte_sign p0 Hp0) as (_ & -> & _).
    destruct (Z.ltb_spec p0 128); [right|left]; split_and!; (done || lia || idtac).
    intros _. right. split; [by destruct pre|lia].
Qed.

(** A minimal encoding of [n + 1] bytes denotes a number between these bounds. *)
Lemma minimal_vch_bounds pre b :
  bytes_ok (pre ++ [b]) -> zlen pre <= 7 -> minimal_vch pre b ->
  2 ^ (8 * zlen pre - 1) <= Z.abs (set_vch (pre ++ [b])) < 2 ^ (8 * (zlen pre + 1) - 1).
Proof.
  intros Hok Hl Hmin. rewrite set_vch_value by done.
  pose proof Hok as [Hp Hb]%bytes_ok_app. apply Forall_cons_1 in Hb as [Hb _].
  pose proof (le_value_range pre Hp) as Hr. fold (zlen pre) in Hr. pose proof (zlen_nonneg pre).
  assert (2 ^ (8 * (zlen pre + 1) - 1) = 256 ^ zlen pre * 128) as ->.
  { rewrite pow256_pow2 by lia. change 128 with (2 ^ 7). rewrite <- Z.pow_add_r by lia. f_equal. lia. }
  set (c := b mod 128). assert (b = c \/ b = c + 128) as Hc.
  { subst c. unfold is_byte in Hb. pose proof (Z.div_mod b 128). pose proof (Z.mod_pos_bound b 128). lia. }
  assert (0 <= c < 128) by (apply Z.mod_pos_bound; lia).
  assert (2 ^ (8 * zlen pre - 1) <= le_value pre + 256 ^ zlen pre * c) as Hlow.
  { destruct Hmin as [Hm|[Hne Hm]].
    - fold c in Hm. assert (2 ^ (8 * zlen pre - 1) <= 256 ^ zlen pre); [|nia].
      rewrite pow256_pow2 by lia.
      destruct (Z.eq_dec (zlen pre) 0) as [->|]; [done|]. apply Z.pow_le_mono_r; lia.
    - destruct pre as [|p0 pre _] using rev_ind; [done|]. unfold vch_back in Hm. rewrite last_last in Hm.
      rewrite zlen_app in *. change (zlen [p0]) with 1 in *. rewrite le_value_app.
      apply bytes_ok_app in Hp as [Hp _]. pose proof (le_value_range pre Hp). fold (zlen pre) in *.
      pose proof (zlen_nonneg pre). simpl le_value.
      replace (8 * (zlen pre + 1) - 1) with (8 * zlen pre + 7) by lia.
      rewrite Z.pow_add_r, <- pow256_pow2 by lia. nia. }
  unfold is_byte in Hb. destruct (Z.ltb_spec b 128); (destruct Hc as [Hc|Hc]; [|]); try lia.
  - rewrite Hc, Z.abs_eq; nia.
  - replace (b - 128) with c by lia. rewrite Z.abs_opp, Z.abs_eq; nia.
Qed.

Lemma scriptnum_serialize_spec v :
  v <> 0 -> - 2 ^ 63 < v < 2 ^ 63 ->
  exists pre b, scriptnum_serialize v = pre ++ [b] /\ bytes_ok (pre ++ [b]) /\ zlen pre <= 7 /\
    minimal_vch pre b /\ set_vch (pre ++ [b]) = v.
Proof.
  intros Hv Hr. unfold scriptnum_serialize. destruct (Z.eqb_spec v 0); [done|].
  assert (u64 (if v <? 0 then i64 (- v) else v) = Z.abs v) as ->.
  { destruct (Z.ltb_spec v 0); rewrite ?i64_small by (unfold is_i64; lia);
      rewrite u64_small by (unfold is_u64; lia); lia. }
  destruct (serialize_loop_value 8 (Z.abs v)) as (pre & t & -> & Hok & Hl & Ht & Hval); [simpl; lia|].
  pose proof Hok as [Hp Htb]%bytes_ok_app. apply Forall_cons_1 in Htb as [Htb _].
  unfold vch_back. rewrite last_last, removelast_last. destruct (byte_sign t Htb) as (_ & -> & Hlor).
  pose proof (le_value_range pre Hp) as Hrp. fold (zlen pre) in Hrp.
  rewrite le_value_app in Hval. simpl in Hval. fold (zlen pre) in Hval.
  unfold is_byte in Htb. destruct (Z.ltb_spec t 128) as [Hlt|Hge]; cbn [negb].
  - assert (zlen pre <= 7) by (unfold zlen; lia).
    assert (minimal_vch pre t) by (left; rewrite Z.mod_small; lia).
    destruct (Z.ltb_spec v 0).
    + rewrite Hlor by lia. exists pre, (t + 128).
      assert (bytes_ok (pre ++ [t + 128])).
      { apply bytes_ok_app. split; [done|]. repeat constructor; lia. }
      split_and!; [done..| |].
      * left. rewrite <- (Z.mul_1_l 128), Z.mod_add, Z.mod_small; lia.
      * rewrite set_vch_value by done. destruct (Z.ltb_spec (t + 128) 128); lia.
    + exists pre, t. split_and!; [done..|].
      rewrite set_vch_value by done. destruct (Z.ltb_spec t 128); lia.
  - set (s := if v <? 0 then 128 else 0). exists (pre ++ [t]), s.
    assert (bytes_ok ((pre ++ [t]) ++ [s])).
    { apply bytes_ok_app. split; [done|]. subst s. destruct (v <? 0); repeat constructor; lia. }
    assert (zlen pre <= 6).
    { apply Z.lt_succ_r, Znot_ge_lt. intros Hc.
      assert (256 ^ 7 <= 256 ^ zlen pre) by (apply Z.pow_le_mono_r; lia). nia. }
    assert (zlen (pre ++ [t]) <= 7) by (rewrite zlen_app; change (zlen [t]) with 1; lia).
    split_and!; [done..| |].
    + right. split; [by destruct pre|]. unfold vch_back. by rewrite last_last.
    + rewrite set_vch_value, le_value_app by done. simpl le_value. fold (zlen pre).
      subst s. destruct (Z.ltb_spec v 0); simpl; lia.
Qed.

(** Two minimal encodings of the same number are equal. *)
Lemma minimal_vch_inj pre b pre' b' :
  bytes_ok (pre ++ [b]) -> bytes_ok (pre' ++ [b']) -> zlen pre <= 7 -> zlen pre' <= 7 ->
  minimal_vch pre b -> minimal_vch pre' b' ->
  set_vch (pre ++ [b]) = set_vch (pre' ++ [b']) -> set_vch (pre ++ [b]) <> 0 ->
  pre ++ [b] = pre' ++ [b'].
Proof.
  intros Hok Hok' Hl Hl' Hm Hm' Heq Hnz.
  assert (zlen pre = zlen pre') as Hlen.
  { pose proof (minimal_vch_bounds pre b Hok Hl Hm) as B.
    pose proof (minimal_vch_bounds pre' b' Hok' Hl' Hm') as B'. rewrite Heq in B.
    pose proof (zlen_nonneg pre). pose proof (zlen_nonneg pre').
    assert (8 * zlen pre - 1 < 8 * (zlen pre' + 1) - 1)
      by (destruct (Z.eq_dec (zlen pre) 0); [lia|apply (Z.pow_lt_mono_r_iff 2); lia]).
    assert (8 * zlen pre' - 1 < 8 * (zlen pre + 1) - 1)
      by (destruct (Z.eq_dec (zlen pre') 0); [lia|apply (Z.pow_lt_mono_r_iff 2); lia]).
    lia. }
  rewrite !set_vch_value in * by done.
  apply bytes_ok_app in Hok as [Hp Hb]. apply Forall_cons_1 in Hb as [Hb _].
  apply bytes_ok_app in Hok' as [Hp' Hb']. apply Forall_cons_1 in Hb' as [Hb' _].
  pose proof (le_value_range pre Hp) as R. pose proof (le_value_range pre' Hp') as R'.
  fold (zlen pre) in R. fold (zlen pre') in R'. rewrite <- Hlen in *. unfold is_byte in *.
  assert (le_value pre = le_value pre' /\ b = b') as [Hv ->].
  { set (P := 256 ^ zlen pre) in *.
    destruct (Z.ltb_spec b 128), (Z.ltb_spec b' 128); try nia.
    - assert (b = b') by nia. subst. lia.
    - assert (b = b') by nia. subst. lia. }
  f_equal. rewrite <- (le_bytes_value pre), <- (le_bytes_value pre'), Hv by done.
  f_equal. unfold zlen in Hlen. lia.
Qed.

Lemma CScriptNum_nil fMin n : 0 <= n -> CScriptNum [] fMin n = Ok 0.
Proof.
  intros Hn. unfold CScriptNum. change (@zlen Z []) with 0. destruct (Z.ltb_spec n 0); [lia|].
  by destruct fMin.
Qed.

(** Script numbers round-trip: the encoding of any int64 but the smallest one
    is accepted by the minimality check and decodes to the same number, exactly
    when the number is within the range of [nMaxNumSize] bytes (sign and
    magnitude); beyond it the constructor throws the overflow error. *)
Theorem scriptnum_roundtrip v n fMin :
  - 2 ^ 63 < v < 2 ^ 63 -> 1 <= n <= 8 ->
  CScriptNum (scriptnum_serialize v) fMin n =
    if Z.abs v <? 2 ^ (8 * n - 1) then Ok v else Throw scriptnum_overflow.
Proof.
  intros Hv Hn. destruct (Z.eq_dec v 0) as [->|Hnz].
  { change (scriptnum_serialize 0) with (@nil Z). change (Z.abs 0) with 0.
    rewrite CScriptNum_nil by lia.
    destruct (Z.ltb_spec 0 (2 ^ (8 * n - 1))); [done|]. pose proof (Z.pow_pos_nonneg 2 (8 * n - 1)). lia. }
  destruct (scriptnum_serialize_spec v Hnz Hv) as (pre & b & -> & Hok & Hl & Hm & Hval).
  pose proof (minimal_vch_bounds pre b Hok Hl Hm) as B. rewrite Hval in B.
  pose proof (zlen_nonneg pre).
  destruct (CScriptNum_snoc pre b fMin n Hok) as [[-> Hle]|[(-> & Hlt & _)|(_ & _ & _ & [])]]; [| |done].
  - assert (2 ^ (8 * n - 1) <= 2 ^ (8 * zlen pre - 1)) by (apply Z.pow_le_mono_r; lia).
    destruct (Z.ltb_spec (Z.abs v) (2 ^ (8 * n - 1))); [lia|done].
  - assert (2 ^ (8 * (zlen pre + 1) - 1) <= 2 ^ (8 * n - 1)) by (apply Z.pow_le_mono_r; lia).
    destruct (Z.ltb_spec (Z.abs v) (2 ^ (8 * n - 1))); [by rewrite Hval|lia].
Qed.

Lemma scriptnum_roundtrip_witness :
  CScriptNum (scriptnum_serialize (-255)) true 4 = Ok (-255).
Proof. apply (scriptnum_roundtrip (-255) 4 true); lia. Defined.

(** The minimality check makes the encoding unique: a byte vector of at most
    eight bytes that the constructor accepts with [fRequireMinimal] is the one
    [serialize] gives for its value, which is within the range of [nMaxNumSize]. *)
Theorem scriptnum_canonical vch n v :
  bytes_ok vch -> 1 <= n <= 8 -> CScriptNum vch true n = Ok v ->
  scriptnum_serialize v = vch /\ Z.abs v < 2 ^ (8 * n - 1).
Proof.
  intros Hok Hn. destruct vch as [|b pre _] using rev_ind.
  { rewrite CScriptNum_nil by lia. intros [= <-]. split; [done|]. apply Z.pow_pos_nonneg; lia. }
  destruct (CScriptNum_snoc pre b true n Hok) as [[-> _]|[(-> & Hlt & Hm)|(-> & _)]]; [done| |done].
  specialize (Hm eq_refl). intros [= <-]. pose proof (zlen_nonneg pre).
  assert (zlen pre <= 7) as Hl by lia. pose proof (minimal_vch_bounds pre b Hok Hl Hm) as B.
  assert (2 ^ (8 * (zlen pre + 1) - 1) <= 2 ^ (8 * n - 1)) by (apply Z.pow_le_mono_r; lia).
  assert (2 ^ (8 * n - 1) <= 2 ^ 63) by (apply Z.pow_le_mono_r; lia).
  split; [|lia]. assert (set_vch (pre ++ [b]) <> 0) as Hnz.
  { pose proof Hok as [Hp Hb]%bytes_ok_app. apply Forall_cons_1 in Hb as [Hb _]. unfold is_byte in Hb.
    pose proof (Z.pow_nonneg 2 (8 * zlen pre - 1)).
    destruct (Z.eq_dec (zlen pre) 0) as [->%zlen_nil_iff|].
    - destruct Hm as [Hm|[? _]]; [|done]. rewrite set_vch_value by done.
      change (@zlen Z []) with 0. cbn [le_value]. change (256 ^ 0) with 1.
      pose proof (Z.div_mod b 128). pose proof (Z.mod_pos_bound b 128).
      destruct (Z.ltb_spec b 128); [|lia]. rewrite Z.mod_small in Hm; lia.
    - pose proof (Z.pow_pos_nonneg 2 (8 * zlen pre - 1)). lia. }
  destruct (scriptnum_serialize_spec (set_vch (pre ++ [b]))) as (pre' & b' & -> & Hok' & Hl' & Hm' & Hval);
    [done|lia|]. symmetry. by apply minimal_vch_inj.
Qed.

Lemma scriptnum_canonical_witness :
  scriptnum_serialize (-255) = [0xff; 0x80] /\ Z.abs (-255) < 2 ^ (8 * 4 - 1).
Proof. apply (scriptnum_canonical [0xff; 0x80] 4); [by repeat constructor|lia|reflexivity]. Defined.

(** Operands of at most four bytes: sums and differences stay far from overflow. *)
Lemma CScriptNum_range vch fMin n v :
  bytes_ok vch -> 1 <= n <= 8 -> CScriptNum vch fMin n = Ok v -> Z.abs v < 2 ^ (8 * n - 1).
Proof.
  intros Hok Hn. destruct vch as [|b pre _] using rev_ind.
  { rewrite CScriptNum_nil by lia. intros [= <-]. apply Z.pow_pos_nonneg; lia. }
  destruct (CScriptNum_snoc pre b fMin n Hok) as [[-> _]|[(-> & Hlt & Hm)|(-> & _)]]; [done| |done].
  intros [= <-]. pose proof (zlen_nonneg pre). rewrite set_vch_value by (done || lia).
  apply bytes_ok_app in Hok as [Hp Hb]. apply Forall_cons_1 in Hb as [Hb _]. unfold is_byte in Hb.
  pose proof (le_value_range pre Hp) as R. fold (zlen pre) in R.
  assert (256 ^ zlen pre * 128 <= 2 ^ (8 * n - 1)).
  { rewrite pow256_pow2 by lia. change 128 with (2 ^ 7). rewrite <- Z.pow_add_r by lia.
    apply Z.pow_le_mono_r; lia. }
  destruct (Z.ltb_spec b 128); nia.
Qed.

(** * Lemmas: reading operations *)

Lemma u32_le z : 0 <= z -> u32 z <= z.
Proof. intros. apply Z.mod_le; lia. Qed.

Lemma GetOp2_data_Some op n pc op' vch pc' :
  GetOp2_data op n pc = Some (op', vch, pc') ->
  op' = op /\ pc = vch ++ pc' /\ (0 <= n -> zlen vch = n).
Proof.
  unfold GetOp2_data. destruct (Z.ltb_spec (u32 (zlen pc)) n); [done|]. intros [= <- <- <-].
  rewrite take_drop. split_and!; [done..|]. intros Hn. pose proof (u32_le (zlen pc) (zlen_nonneg pc)).
  unfold zlen in *. rewrite length_take. lia.
Qed.

(** A successful [GetOp] consumes the opcode, a length field and the data. *)
Lemma GetOp2_split pc op vch pc' :
  GetOp2 pc = Some (op, vch, pc') ->
  exists len, pc = op :: len ++ vch ++ pc' /\ (OP_PUSHDATA4 < op -> len = [] /\ vch = []).
Proof.
  destruct pc as [|c pc]; [done|]. cbn [GetOp2].
  destruct (Z.leb_spec c OP_PUSHDATA4); [|by intros [= <- <- <-]; exists []].
  destruct (c <? OP_PUSHDATA1); [|destruct (c =? OP_PUSHDATA1); [|destruct (c =? OP_PUSHDATA2)]].
  1: intros (-> & -> & _)%GetOp2_data_Some; exists []; split; [done|lia].
  1: destruct (zlen pc <? 1); [done|]; intros (-> & Hd & _)%GetOp2_data_Some; exists (take 1 pc).
  2: destruct (zlen pc <? 2); [done|]; intros (-> & Hd & _)%GetOp2_data_Some; exists (take 2 pc).
  3: destruct (zlen pc <? 4); [done|]; intros (-> & Hd & _)%GetOp2_data_Some; exists (take 4 pc).
  all: rewrite <- Hd, take_drop; split; [done|lia].
Qed.

Lemma GetOp2_progress pc op vch pc' :
  GetOp2 pc = Some (op, vch, pc') -> (length pc' < length pc)%nat.
Proof. intros (len & -> & _)%GetOp2_split. simpl. rewrite !length_app. lia. Qed.

Lemma GetOp2_bytes_ok pc op vch pc' :
  bytes_ok pc -> GetOp2 pc = Some (op, vch, pc') -> is_byte op /\ bytes_ok vch /\ bytes_ok pc'.
Proof.
  intros Hok (len & -> & _)%GetOp2_split. apply Forall_cons_1 in Hok as [Hop Hok].
  by apply bytes_ok_app in Hok as [_ [Hv Hpc]%bytes_ok_app].
Qed.

(** The operations of a script, as [GetOp] reads them one after the other; the
    last iterator is where it fails or the end. *)
Inductive parses : bytes -> list (Z * bytes) -> bytes -> Prop :=
  | parses_nil pc : parses pc [] pc
  | parses_cons pc op vch pc' ops pc'' :
      GetOp2 pc = Some (op, vch, pc') -> parses pc' ops pc'' -> parses pc ((op, vch) :: ops) pc''.

Section OpRun.
Context {St R : Type} (body : Z -> bytes -> bytes -> St -> R + St) (bad atend : St -> R).

Lemma op_loop_fuel f1 f2 pc st :
  (length pc <= f1)%nat -> (length pc <= f2)%nat ->
  op_loop body bad atend f1 pc st = op_loop body bad atend f2 pc st.
Proof.
  revert f2 pc st; induction f1 as [|f1 IH]; intros f2 pc st H1 H2.
  - destruct pc; [by destruct f2|simpl in H1; lia].
  - destruct pc as [|c pc]; [by destruct f2|]. destruct f2 as [|f2]; [simpl in H2; lia|].
    cbn [op_loop]. destruct (GetOp2 (c :: pc)) as [[[op vch] pc']|] eqn:Hop; [|done].
    apply GetOp2_progress in Hop. destruct (body op vch pc' st); [done|]. apply IH; simpl in *; lia.
Qed.

(** The loop as the code runs it: the bound on the iterations plays no role. *)
Lemma op_run_eq pc st :
  op_run body bad atend pc st =
    match pc with
    | [] => atend st
    | _ =>
        match GetOp2 pc with
        | None => bad st
        | Some (op, vch, pc') =>
            match body op vch pc' st with
            | inl r => r
            | inr st' => op_run body bad atend pc' st'
            end
        end
    end.
Proof.
  unfold op_run. destruct pc as [|c pc]; [done|]. cbn [length op_loop].
  destruct (GetOp2 (c :: pc)) as [[[op vch] pc']|] eqn:Hop; [|done].
  apply GetOp2_progress in Hop. destruct (body op vch pc' st); [done|].
  apply op_loop_fuel; simpl in *; lia.
Qed.

Lemma op_run_nil st : op_run body bad atend [] st = atend st.
Proof. done. Qed.

Lemma op_run_step pc op vch pc' st :
  GetOp2 pc = Some (op, vch, pc') ->
  op_run body bad atend pc st =
    match body op vch pc' st with inl r => r | inr st' => op_run body bad atend pc' st' end.
Proof. intros H. rewrite op_run_eq. destruct pc; [done|]. by rewrite H. Qed.

Lemma op_run_bad c pc st : GetOp2 (c :: pc) = None -> op_run body bad atend (c :: pc) st = bad st.
Proof. intros H. rewrite op_run_eq. by rewrite H. Qed.

(** Induction over a run: an invariant of the iterations that gives [Q] at
    every exit gives [Q] of the result. *)
Lemma op_run_ind (I : bytes -> St -> Prop) (Q : R -> Prop) :
  (forall st, I [] st -> Q (atend st)) ->
  (forall c pc st, I (c :: pc) st -> GetOp2 (c :: pc) = None -> Q (bad st)) ->
  (forall pc op vch pc' st, I pc st -> GetOp2 pc = Some (op, vch, pc') ->
     match body op vch pc' st with inl r => Q r | inr st' => I pc' st' end) ->
  forall pc st, I pc st -> Q (op_run body bad atend pc st).
Proof.
  intros Hend Hbad Hstep pc.
  induction pc as [pc IH] using (induction_ltof1 _ length); unfold ltof in IH.
  intros st HI. rewrite op_run_eq. destruct pc as [|c pc]; [by apply Hend|].
  destruct (GetOp2 (c :: pc)) as [[[op vch] pc']|] eqn:Hop; [|by eapply Hbad].
  specialize (Hstep _ _ _ _ _ HI Hop). apply GetOp2_progress in Hop.
  destruct (body op vch pc' st); [done|]. by apply IH.
Qed.
End OpRun.

(** ** Pushes are read back *)

Lemma GetOp2_data_app op b rest :
  zlen (b ++ rest) < 2 ^ 32 -> GetOp2_data op (zlen b) (b ++ rest) = Some (op, b, rest).
Proof.
  intros Hl. unfold GetOp2_data. pose proof (zlen_nonneg (b ++ rest)).
  rewrite u32_small by (unfold is_u32; lia). rewrite zlen_app. pose proof (zlen_nonneg rest).
  destruct (Z.ltb_spec (zlen b + zlen rest) (zlen b)); [lia|].
  unfold zlen. by rewrite Nat2Z.id, take_app_length, drop_app_length.
Qed.

(** The opcode [push_vch] uses for data of a length. *)
Definition push_op (n : Z) : Z :=
  if n <? OP_PUSHDATA1 then n
  else if n <=? 0xff then OP_PUSHDATA1
  else if n <=? 0xffff then OP_PUSHDATA2
  else OP_PUSHDATA4.

Lemma GetOp2_push b rest :
  zlen b + zlen rest < 2 ^ 32 ->
  GetOp2 (push_vch b [] ++ rest) = Some (push_op (zlen b), b, rest).
Proof.
  intros Hl. pose proof (zlen_nonneg b). pose proof (zlen_nonneg rest).
  assert (zlen (b ++ rest) < 2 ^ 32) by (rewrite zlen_app; lia).
  unfold push_vch, push_op. cbn [app]. unfold OP_PUSHDATA1, OP_PUSHDATA2, OP_PUSHDATA4.
  destruct (Z.ltb_spec (zlen b) 76); [|destruct (Z.leb_spec (zlen b) 255);
    [|destruct (Z.leb_spec (zlen b) 65535)]]; rewrite <- app_assoc; cbn [app GetOp2].
  - rewrite u8_small by lia. unfold OP_PUSHDATA4, OP_PUSHDATA1.
    destruct (Z.leb_spec (zlen b) 78); [|lia]. destruct (Z.ltb_spec (zlen b) 76); [|lia].
    by apply GetOp2_data_app.
  - rewrite u8_small by lia. cbn -[zlen Z.add]. rewrite zlen_cons.
    destruct (Z.ltb_spec (zlen (b ++ rest) + 1) 1); [pose proof (zlen_nonneg (b ++ rest)); lia|].
    rewrite Z.mul_0_r, Z.add_0_r. by apply GetOp2_data_app.
  - rewrite u16_small by lia. rewrite zlen_app. change (zlen (le_bytes 2 (zlen b))) with 2.
    destruct (Z.ltb_spec (2 + zlen (b ++ rest)) 2); [pose proof (zlen_nonneg (b ++ rest)); lia|].
    change (take 2 (le_bytes 2 (zlen b) ++ b ++ rest)) with (le_bytes 2 (zlen b)).
    rewrite le_value_small by (simpl; lia). by apply GetOp2_data_app.
  - rewrite u32_small by (unfold is_u32; lia). rewrite zlen_app. change (zlen (le_bytes 4 (zlen b))) with 4.
    destruct (Z.ltb_spec (4 + zlen (b ++ rest)) 4); [pose proof (zlen_nonneg (b ++ rest)); lia|].
    change (take 4 (le_bytes 4 (zlen b) ++ b ++ rest)) with (le_bytes 4 (zlen b)).
    rewrite le_value_small by (simpl; lia). by apply GetOp2_data_app.
Qed.

Lemma push_vch_app b script : push_vch b script = script ++ push_vch b [].
Proof. done. Qed.

Lemma push_op_range n : 0 <= n -> 0 <= push_op n <= OP_PUSHDATA4.
Proof.
  intros Hn. unfold push_op, OP_PUSHDATA1, OP_PUSHDATA2, OP_PUSHDATA4.
  repeat case_if; bool_to_prop; lia.
Qed.

(** Whatever data, small integer or script number is appended to a script,
    [GetOp] reads it back as one operation and leaves what follows: data with
    a push opcode, integers -1 and 1..16 as their opcode, others as the
    minimal script number. *)
Theorem push_GetOp b n rest :
  zlen b + zlen rest < 2 ^ 32 -> zlen rest < 2 ^ 31 -> - 2 ^ 63 < n < 2 ^ 63 ->
  GetOp2 (push_vch b [] ++ rest) = Some (push_op (zlen b), b, rest) /\
  GetOp2 (push_int64 n [] ++ rest) =
    Some (if n =? 0 then (OP_0, [], rest)
          else if (n =? -1) || ((1 <=? n) && (n <=? 16)) then (n + 80, [], rest)
          else (zlen (scriptnum_serialize n), scriptnum_serialize n, rest)).
Proof.
  intros Hb Hr Hn. split; [by apply GetOp2_push|]. unfold push_int64.
  destruct (Z.eqb_spec n 0) as [->|Hnz].
  { change (push_int64 0 []) with [OP_0]. cbn. by apply (GetOp2_data_app 0 [] rest); cbn; lia. }
  destruct ((n =? -1) || ((1 <=? n) && (n <=? 16))) eqn:Hs.
  - cbn [app GetOp2]. assert (n = -1 \/ 1 <= n <= 16).
    { apply orb_true_iff in Hs as [?|?]; bool_to_prop; lia. }
    unfold OP_1, OP_PUSHDATA4. rewrite u8_small by lia. destruct (Z.leb_spec (n + (81 - 1)) 78); [lia|].
    repeat f_equal; lia.
  - destruct (scriptnum_serialize_spec n Hnz Hn) as (pre & c & Hser & _ & Hl & _).
    pose proof (zlen_nonneg pre).
    assert (zlen (scriptnum_serialize n) <= 8)
      by (rewrite Hser, zlen_app; change (zlen [c]) with 1; lia).
    rewrite GetOp2_push by lia. unfold push_op, OP_PUSHDATA1.
    destruct (Z.ltb_spec (zlen (scriptnum_serialize n)) 76); [done|lia].
Qed.

Lemma push_GetOp_witness :
  GetOp2 (push_vch [1; 2] [] ++ [OP_DUP]) = Some (2, [1; 2], [OP_DUP]).
Proof. apply (push_GetOp [1; 2] 5 [OP_DUP]); [by vm_compute..|lia]. Defined.

(** ** FindAndDelete *)

(** What FindAndDelete removes: walking from operation to operation, every copy
    of [b] that starts at an iterator [GetOp] reaches; [n] counts them. *)
Inductive deletes (b : bytes) : bytes -> bytes -> Z -> Prop :=
  | deletes_match pc r n :
      starts_with b pc = true -> deletes b (drop (length b) pc) r n -> deletes b pc r (n + 1)
  | deletes_op hd op vch pc' r n :
      starts_with b (hd ++ pc') = false -> GetOp2 (hd ++ pc') = Some (op, vch, pc') ->
      deletes b pc' r n -> deletes b (hd ++ pc') (hd ++ r) n
  | deletes_stop pc :
      starts_with b pc = false -> GetOp2 pc = None -> deletes b pc pc 0.

Lemma starts_with_true b pc : starts_with b pc = true <-> exists rest, pc = b ++ rest.
Proof.
  unfold starts_with. rewrite andb_true_iff, bool_decide_eq_true, Z.leb_le. split.
  - intros [_ H]. exists (drop (length b) pc). by rewrite <- H at 1; rewrite take_drop.
  - intros [rest ->]. rewrite zlen_app, take_app_length. pose proof (zlen_nonneg rest). split; [lia|done].
Qed.

Lemma deletes_length b pc r n : deletes b pc r n -> zlen r = zlen pc - n * zlen b /\ 0 <= n.
Proof.
  induction 1 as [pc r n [rest ->]%starts_with_true _ [IH Hn]|hd op vch pc' r n _ _ _ [IH Hn]|]; [| |lia].
  - rewrite drop_app_length in IH. rewrite zlen_app. lia.
  - rewrite !zlen_app. lia.
Qed.

Lemma deletes_none b pc r n : deletes b pc r n -> n = 0 -> r = pc.
Proof.
  induction 1 as [pc r n _ Hd _|hd op vch pc' r n _ _ _ IH|]; intros Hn; [|by rewrite IH|done].
  apply deletes_length in Hd. lia.
Qed.

Lemma FindAndDelete_skip_spec fuel b pc n pc1 n1 :
  b <> [] -> (length pc <= fuel)%nat -> FindAndDelete_skip fuel b pc n = (pc1, n1) ->
  starts_with b pc1 = false /\ (length pc1 <= length pc)%nat /\
  forall r m, deletes b pc1 r m -> deletes b pc r (m + (n1 - n)).
Proof.
  intros Hb. revert pc n; induction fuel as [|fuel IH]; intros pc n Hf; cbn [FindAndDelete_skip].
  - intros [= <- <-]. destruct pc; [|simpl in Hf; lia]. split_and!; [by destruct b|done|].
    intros r m H. by replace (m + (n - n)) with m by lia.
  - destruct (starts_with b pc) eqn:Hs.
    + assert (0 < length b)%nat by (destruct b; [done|simpl; lia]).
      assert (0 < length pc)%nat by (destruct pc; [by destruct b|simpl; lia]).
      intros (H1 & H2 & H3)%IH; [|rewrite length_drop; lia]. rewrite length_drop in H2.
      split_and!; [done|lia|]. intros r m Hr.
      replace (m + (n1 - n)) with (m + (n1 - (n + 1)) + 1) by lia. constructor; auto.
    + intros [= <- <-]. split_and!; [done..|]. intros r m H. by replace (m + (n - n)) with m by lia.
Qed.

Lemma FindAndDelete_loop_spec fuel b hd pc result n result' pc' n' :
  b <> [] -> (length pc <= fuel)%nat ->
  FindAndDelete_loop fuel b (hd ++ pc) pc result n = (result', pc', n') ->
  exists r m, deletes b pc r m /\ result' ++ pc' = result ++ hd ++ r /\ n' = n + m.
Proof.
  intros Hb. revert hd pc result n; induction fuel as [|fuel IH]; intros hd pc result n Hf.
  all: cbn [FindAndDelete_loop]; rewrite length_app, Nat.add_sub, take_app_length.
  all: destruct (FindAndDelete_skip (length pc) b pc n) as [pc1 n1] eqn:Hskip.
  all: apply FindAndDelete_skip_spec in Hskip as (Hs & Hl & Hd); [|done..].
  all: destruct (GetOp2 pc1) as [[[op vch] pc2]|] eqn:Hop.
  - apply GetOp2_progress in Hop. lia.
  - intros [= <- <- <-]. exists pc1, (0 + (n1 - n)). split_and!; [by apply Hd, deletes_stop|by rewrite <- app_assoc|lia].
  - pose proof (GetOp2_progress _ _ _ _ Hop) as Hlt.
    pose proof (GetOp2_split _ _ _ _ Hop) as (len & Hpc1 & _).
    set (hd1 := op :: len ++ vch). assert (pc1 = hd1 ++ pc2) as Hpc by (rewrite Hpc1; subst hd1; by simplify_list_eq).
    rewrite Hpc at 1. intros (r & m & Hr & Heq & ->)%IH; [|lia]. exists (hd1 ++ r), (m + (n1 - n)).
    rewrite Hpc in Hs, Hop. split_and!; [apply Hd; rewrite Hpc; by econstructor|by rewrite Heq, <- app_assoc|lia].
  - intros [= <- <- <-]. exists pc1, (0 + (n1 - n)). split_and!; [by apply Hd, deletes_stop|by rewrite <- app_assoc|lia].
Qed.

Lemma FindAndDelete_deletes script b :
  b <> [] -> deletes b script (fst (FindAndDelete script b)) (snd (FindAndDelete script b)).
Proof.
  intros Hb. unfold FindAndDelete. destruct (Z.eqb_spec (zlen b) 0) as [?%zlen_nil_iff|_]; [done|].
  destruct (FindAndDelete_loop (length script) b script script [] 0) as [[r pc2] n] eqn:H.
  apply (FindAndDelete_loop_spec _ _ []) in H as (r' & m & Hd & Heq & ->); [|done..].
  rewrite !app_nil_l in Heq. subst r'. pose proof (deletes_length _ _ _ _ Hd) as [Hl Hm].
  rewrite Z.add_0_l. destruct (Z.ltb_spec 0 m) as [Hlt|Hle]; [done|].
  assert (m = 0) as -> by lia. by rewrite (deletes_none _ _ _ _ Hd eq_refl) in Hd.
Qed.

(** FindAndDelete computes its specification: for a non-empty pattern it
    removes exactly the copies of the pattern met at operation boundaries, the
    count it returns is the number of copies removed, the script shrinks by
    that many patterns and is unchanged when there is none. *)
Theorem FindAndDelete_spec script b :
  (b = [] -> FindAndDelete script b = (script, 0)) /\
  (b <> [] -> let '(script', nFound) := FindAndDelete script b in
     deletes b script script' nFound /\ zlen script' = zlen script - nFound * zlen b /\
     (nFound = 0 -> script' = script)).
Proof.
  split; [by unfold FindAndDelete; intros ->|]. intros Hd%(FindAndDelete_deletes script).
  destruct (FindAndDelete script b) as [r n]. simpl in Hd. pose proof (deletes_length _ _ _ _ Hd) as [Hl Hm].
  split_and!; [done|lia|]. intros Hn. by apply (deletes_none b script r n).
Qed.

(** ** Signature operation counts *)

Lemma GetSigOpCount_body_range fAcc op vch pc' n last n' last' :
  0 <= n -> n + 20 < 2 ^ 32 -> GetSigOpCount_body fAcc op vch pc' (n, last) = inr (n', last') ->
  n <= n' <= n + 20 /\ last' = op.
Proof.
  intros Hn Hu. unfold GetSigOpCount_body, MAX_PUBKEYS_PER_MULTISIG, OP_N_value, OP_0, OP_1, OP_16.
  intros [= <- <-]. split; [|done].
  repeat case_if; bool_to_prop; try (rewrite u32_small by (unfold is_u32; lia)); lia.
Qed.

(** The accurate signature-operation count never exceeds the inaccurate one,
    and neither exceeds 20 per byte of the script, so that the 32-bit counter
    cannot wrap for scripts below 2^27 bytes. *)
Theorem GetSigOpCount_bounds script :
  zlen script < 2 ^ 27 ->
  0 <= GetSigOpCount script true <= GetSigOpCount script false /\
  GetSigOpCount script false <= MAX_PUBKEYS_PER_MULTISIG * zlen script.
Proof.
  intros Hl. unfold GetSigOpCount, MAX_PUBKEYS_PER_MULTISIG.
  enough (forall pc n m last, 0 <= n <= m -> m + 20 * zlen pc <= 20 * zlen script ->
    0 <= op_run (GetSigOpCount_body true) fst fst pc (n, last)
      <= op_run (GetSigOpCount_body false) fst fst pc (m, last) /\
    op_run (GetSigOpCount_body false) fst fst pc (m, last) <= 20 * zlen script) as H.
  { apply H; lia. }
  intros pc. induction pc as [pc IH] using (induction_ltof1 _ length); unfold ltof in IH.
  intros n m last Hnm Hm. pose proof (zlen_nonneg pc). rewrite !op_run_eq.
  destruct pc as [|c pc]; [simpl; lia|].
  destruct (GetOp2 (c :: pc)) as [[[op vch] pc']|] eqn:Hop; [|simpl; lia].
  apply GetOp2_progress in Hop.
  assert (zlen pc' + 1 <= zlen (c :: pc)) by (unfold zlen; lia). pose proof (zlen_nonneg pc').
  destruct (GetSigOpCount_body true op vch pc' (n, last)) as [|[n' l']] eqn:Hn'; [done|].
  destruct (GetSigOpCount_body false op vch pc' (m, last)) as [|[m' l'']] eqn:Hm'; [done|].
  pose proof Hn' as [? ->]%GetSigOpCount_body_range; [|lia..].
  pose proof Hm' as [? ->]%GetSigOpCount_body_range; [|lia..].
  apply IH; [done| |lia]. revert Hn' Hm'.
  unfold GetSigOpCount_body, MAX_PUBKEYS_PER_MULTISIG, OP_N_value, OP_0, OP_1, OP_16. intros [= <-] [= <-].
  simpl. repeat case_if; bool_to_prop; repeat rewrite u32_small by (unfold is_u32; lia); lia.
Qed.

Lemma GetSigOpCount_bounds_witness :
  0 <= GetSigOpCount [OP_2; OP_CHECKMULTISIG] true <= GetSigOpCount [OP_2; OP_CHECKMULTISIG] false.
Proof. apply (GetSigOpCount_bounds [OP_2; OP_CHECKMULTISIG]). by vm_compute. Defined.
