(* ===== verification/Transaction.v ===== *)
(** * Transactions (uint256.h, transaction.h, transaction.cpp, consensus/validation.h) *)
From S2P Require Import Prelude Serialize Amount Crypto Script.

(** ** [uint256]: an opaque blob of 32 bytes *)
Definition uint256 : Type := bytes.
Definition uint256_null : uint256 := repeat 0 32.
Definition uint256_ok (h : uint256) : Prop := zlen h = 32 /\ bytes_ok h.

(** [IsNull]: no byte of [data] differs from 0. *)
Definition uint256_IsNull (h : uint256) : bool := forallb (fun b => b =? 0) h.
Arguments uint256_IsNull h : simpl never.

(** [memcmp] on the bytes: the sign of the first difference. *)
Fixpoint uint256_Compare (a b : uint256) : comparison :=
  match a, b with
  | x :: a, y :: b => match x ?= y with Eq => uint256_Compare a b | c => c end
  | _, _ => Eq
  end.

Definition uint256_codec : codec uint256 := flatdata_codec 32.

(** ** COutPoint *)
Record COutPoint := mkCOutPoint { op_hash : uint256; op_n : Z }.

#[export] Instance COutPoint_eq_dec : EqDecision COutPoint.
Proof. solve_decision. Defined.
#[export] Program Instance COutPoint_countable : Countable COutPoint :=
  inj_countable' (fun o => (op_hash o, op_n o)) (fun '(h, n) => mkCOutPoint h n) _.
Next Obligation. by intros []. Qed.

Definition COutPoint_null : COutPoint := mkCOutPoint uint256_null (u32 (-1)).

Definition COutPoint_IsNull (o : COutPoint) : bool :=
  uint256_IsNull (op_hash o) && (op_n o =? u32 (-1)).

Definition COutPoint_lt (a b : COutPoint) : bool :=
  match uint256_Compare (op_hash a) (op_hash b) with
  | Lt => true
  | Eq => op_n a <? op_n b
  | Gt => false
  end.

Definition COutPoint_codec : codec COutPoint :=
  map_codec (fun o => (op_hash o, op_n o)) (fun '(h, n) => mkCOutPoint h n)
    (pair_codec uint256_codec uint32_codec).

(** ** CTxIn *)
Record CTxIn := mkCTxIn {
  prevout : COutPoint;
  scriptSig : CScript;
  nSequence : Z;
  scriptWitness : list bytes;
}.

#[export] Instance CTxIn_eq_dec : EqDecision CTxIn.
Proof. solve_decision. Defined.

Definition SEQUENCE_FINAL : Z := 0xffffffff.
Definition SEQUENCE_LOCKTIME_DISABLE_FLAG : Z := 2 ^ 31.
Definition SEQUENCE_LOCKTIME_TYPE_FLAG : Z := 2 ^ 22.
Definition SEQUENCE_LOCKTIME_MASK : Z := 0x0000ffff.
Definition SEQUENCE_LOCKTIME_GRANULARITY : Z := 9.

(** The witness is only serialized through CTransaction: reading an input
    leaves it empty. *)
Definition CTxIn_codec : codec CTxIn :=
  map_codec (fun i => (prevout i, (scriptSig i, nSequence i)))
    (fun '(p, (s, n)) => mkCTxIn p s n [])
    (pair_codec COutPoint_codec (pair_codec bytes_codec uint32_codec)).

Definition CScriptWitness_IsNull (w : list bytes) : bool := (length w =? 0)%nat.

(** ** CTxOut *)
Record CTxOut := mkCTxOut { nValue : CAmount; scriptPubKey : CScript }.

#[export] Instance CTxOut_eq_dec : EqDecision CTxOut.
Proof. solve_decision. Defined.

Definition CTxOut_null : CTxOut := mkCTxOut (-1) [].
Definition CTxOut_IsNull (o : CTxOut) : bool := nValue o =? -1.

Definition CTxOut_codec : codec CTxOut :=
  map_codec (fun o => (nValue o, scriptPubKey o)) (fun '(v, s) => mkCTxOut v s)
    (pair_codec int64_codec bytes_codec).

(** ** CTransaction *)
Record CTransaction := mkCTransaction {
  nVersion : Z;
  vin : list CTxIn;
  vout : list CTxOut;
  nLockTime : Z;
}.

#[export] Instance CTransaction_eq_dec : EqDecision CTransaction.
Proof. solve_decision. Defined.

Definition IsCashBase (tx : CTransaction) : bool :=
  match vin tx with
  | [i] => COutPoint_IsNull (prevout i)
  | _ => false
  end.

Definition HasWitness (tx : CTransaction) : bool :=
  existsb (fun i => negb (CScriptWitness_IsNull (scriptWitness i))) (vin tx).

Definition CTransaction_IsNull (tx : CTransaction) : bool :=
  (length (vin tx) =? 0)%nat && (length (vout tx) =? 0)%nat.

(** [throw std::runtime_error] of [GetValueOut]. *)
Definition value_out_of_range : Exn := runtime_error "GetValueOut: value out of range".

Fixpoint GetValueOut_loop (vout : list CTxOut) (nValueOut : CAmount) : result CAmount :=
  match vout with
  | [] => Ok nValueOut
  | tx_out :: vout =>
      let nValueOut := i64 (nValueOut + nValue tx_out) in
      if negb (MoneyRange (nValue tx_out)) || negb (MoneyRange nValueOut)
      then Throw value_out_of_range
      else GetValueOut_loop vout nValueOut
  end.

Definition GetValueOut (tx : CTransaction) : result CAmount := GetValueOut_loop (vout tx) 0.

(** ** Serialization *)

(** [s << tx.vin[i].scriptWitness.stack] for every input. *)
Fixpoint Serialize_witnesses (v : list CTxIn) : result bytes :=
  match v with
  | [] => Ok []
  | i :: v =>
      b ← Serialize_vector bytes_codec (scriptWitness i);
      bs ← Serialize_witnesses v;
      mret (b ++ bs)
  end.

(** The version of the stream decides [fAllowWitness]. *)
Definition SerializeTransaction (fAllowWitness : bool) (tx : CTransaction) : result bytes :=
  let flags := if fAllowWitness && HasWitness tx then 1 else 0 in
  ver ← enc int32_codec (nVersion tx);
  marker ← (if negb (flags =? 0) then
              d ← Serialize_vector CTxIn_codec []; f ← enc uint8_codec flags; mret (d ++ f)
            else Ok []);
  ins ← Serialize_vector CTxIn_codec (vin tx);
  outs ← Serialize_vector CTxOut_codec (vout tx);
  wits ← (if negb (Z.land flags 1 =? 0) then Serialize_witnesses (vin tx) else Ok []);
  lock ← enc uint32_codec (nLockTime tx);
  mret (ver ++ marker ++ ins ++ outs ++ wits ++ lock).

(** Reading depends on the sizes of the C++ objects, through the batches in
    which vectors grow. *)
Section Unserialize.
Context (batch_in batch_out batch_wit : Z).

Fixpoint Unserialize_witnesses (v : list CTxIn) : Reader (list CTxIn) :=
  match v with
  | [] => mret []
  | i :: v =>
      w ← Unserialize_vector bytes_codec batch_wit;
      v' ← Unserialize_witnesses v;
      mret (mkCTxIn (prevout i) (scriptSig i) (nSequence i) w :: v')
  end.

Definition unknown_optional_data : Exn := ios_failure "Unknown transaction optional data".

Definition UnserializeTransaction (fAllowWitness : bool) : Reader CTransaction :=
  ver ← dec int32_codec;
  ins ← Unserialize_vector CTxIn_codec batch_in;
  '(flags, ins, outs) ←
    (if (zlen ins =? 0) && fAllowWitness then
       flags ← dec uint8_codec;
       if negb (flags =? 0) then
         ins ← Unserialize_vector CTxIn_codec batch_in;
         outs ← Unserialize_vector CTxOut_codec batch_out;
         mret (flags, ins, outs)
       else mret (flags, ins, [])
     else
       outs ← Unserialize_vector CTxOut_codec batch_out;
       mret (0, ins, outs));
  '(flags, ins) ←
    (if negb (Z.land flags 1 =? 0) && fAllowWitness then
       ins ← Unserialize_witnesses ins;
       mret (Z.lxor flags 1, ins)
     else mret (flags, ins));
  if negb (flags =? 0) then reader_throw unknown_optional_data
  else
    lock ← dec uint32_codec;
    mret (mkCTransaction ver ins outs lock).
End Unserialize.

(** ** Hashes and sizes

    Writing a transaction cannot fail, see [SerializeTransaction_total]. *)
Definition serialized (fAllowWitness : bool) (tx : CTransaction) : bytes :=
  match SerializeTransaction fAllowWitness tx with Ok bs => bs | Throw _ => [] end.

(** [ComputeHash]: the hash is cached in the transaction by its constructors. *)
Definition GetHash (tx : CTransaction) : uint256 := Hash (serialized false tx).

Definition GetWitnessHash (tx : CTransaction) : uint256 :=
  if negb (HasWitness tx) then GetHash tx else Hash (serialized true tx).

Definition GetTotalSize (tx : CTransaction) : Z := zlen (serialized true tx).


(** * Lemmas *)

Definition outpoint_ok (o : COutPoint) : Prop := uint256_ok (op_hash o) /\ is_u32 (op_n o).
Definition script_ok (s : CScript) : Prop := bytes_ok s /\ zlen s <= MAX_SIZE.
Definition txin_ok (i : CTxIn) : Prop :=
  outpoint_ok (prevout i) /\ script_ok (scriptSig i) /\ is_u32 (nSequence i).
Definition witness_ok (w : list bytes) : Prop := Forall script_ok w /\ zlen w <= MAX_SIZE.
Definition txout_ok (o : CTxOut) : Prop := is_i64 (nValue o) /\ script_ok (scriptPubKey o).

(** A transaction whose fields are within the ranges of their types and whose
    vectors are not longer than what the format can carry. *)
Record tx_ok (tx : CTransaction) : Prop := {
  tx_ok_version : is_i32 (nVersion tx);
  tx_ok_vin : Forall txin_ok (vin tx);
  tx_ok_nin : zlen (vin tx) <= MAX_SIZE;
  tx_ok_wit : Forall (fun i => witness_ok (scriptWitness i)) (vin tx);
  tx_ok_vout : Forall txout_ok (vout tx);
  tx_ok_nout : zlen (vout tx) <= MAX_SIZE;
  tx_ok_lock : is_u32 (nLockTime tx);
}.

Definition strip_witness (tx : CTransaction) : CTransaction :=
  mkCTransaction (nVersion tx)
    (map (fun i => mkCTxIn (prevout i) (scriptSig i) (nSequence i) []) (vin tx))
    (vout tx) (nLockTime tx).

#[export] Instance COutPoint_codec_ok : CodecOk COutPoint_codec outpoint_ok.
Proof.
  eapply map_codec_ok; [apply _|]. intros [h n] [[Hl Hh] Hn]. simpl in *. done.
Qed.

#[export] Instance CTxIn_codec_ok :
  CodecOk CTxIn_codec (fun i => txin_ok i /\ scriptWitness i = []).
Proof.
  eapply map_codec_ok; [apply _|]. intros [p s n w] [(Hp & Hs & Hn) Hw]. simpl in *.
  split; [done|by subst w].
Qed.

#[export] Instance CTxOut_codec_ok : CodecOk CTxOut_codec txout_ok.
Proof. eapply map_codec_ok; [apply _|]. intros [v s] [Hv Hs]. simpl in *. done. Qed.

Abbreviation strip_in i := (mkCTxIn (prevout i) (scriptSig i) (nSequence i) []).

(** [r] writes bytes from which [d] reads back [a]. *)
Definition reads_back {A} (r : result bytes) (d : Reader A) (a : A) : Prop :=
  exists bs, r = Ok bs /\ bytes_ok bs /\ forall rest, d (bs ++ rest) = Ok (a, rest).

(** Writing an input ignores its witness. *)
Lemma Serialize_elements_strip v :
  Serialize_elements CTxIn_codec v = Serialize_elements CTxIn_codec (map (fun i => strip_in i) v).
Proof. induction v as [|i v IH]; [done|]. cbn [Serialize_elements map]. by rewrite IH. Qed.

Section Roundtrip.
Context (batch_in batch_out batch_wit : Z).
Context (Hin : 1 <= batch_in) (Hout : 1 <= batch_out) (Hwit : 1 <= batch_wit).

Lemma vin_reads_back v :
  Forall txin_ok v -> zlen v <= MAX_SIZE ->
  reads_back (Serialize_vector CTxIn_codec v) (Unserialize_vector CTxIn_codec batch_in)
    (map (fun i => strip_in i) v).
Proof.
  intros Hv Hl. set (v' := map _ v). assert (zlen v' = zlen v) as Hz by (unfold zlen, v'; by rewrite length_map).
  assert (Serialize_vector CTxIn_codec v = Serialize_vector CTxIn_codec v') as ->.
  { unfold Serialize_vector. by rewrite Hz, Serialize_elements_strip. }
  apply (vector_codec_ok CTxIn_codec _ batch_in Hin v'). split; [|lia].
  subst v'. apply Forall_map. eapply Forall_impl; [|exact Hv].
  intros [p s n w] Hi. by split.
Qed.

Lemma vout_reads_back v :
  Forall txout_ok v -> zlen v <= MAX_SIZE ->
  reads_back (Serialize_vector CTxOut_codec v) (Unserialize_vector CTxOut_codec batch_out) v.
Proof. intros Hv Hl. by apply (vector_codec_ok CTxOut_codec _ batch_out Hout v). Qed.

Lemma witnesses_read_back v :
  Forall (fun i => witness_ok (scriptWitness i)) v ->
  reads_back (Serialize_witnesses v)
    (Unserialize_witnesses batch_wit (map (fun i => strip_in i) v)) v.
Proof.
  induction 1 as [|[p s n w] v [Hw Hl] _ (bs & Hbs & Hok & Hd)].
  { exists []. split_and!; [done|constructor|done]. }
  destruct (vector_codec_ok bytes_codec _ batch_wit Hwit w (conj Hw Hl)) as (b & Hb & Hbok & Hbd).
  exists (b ++ bs). cbn [Serialize_witnesses]. simpl in Hb. simpl. rewrite Hb. simpl. rewrite Hbs.
  split_and!; [done|by apply bytes_ok_app|]. intros rest. rewrite <- app_assoc.
  etransitivity; [eapply reader_bind_step, Hbd|]. etransitivity; [eapply reader_bind_step, Hd|]. done.
Qed.

Lemma strip_no_witness v :
  existsb (fun i => negb (CScriptWitness_IsNull (scriptWitness i))) v = false ->
  map (fun i => strip_in i) v = v.
Proof.
  induction v as [|[p s n w] v IH]; [done|]. simpl. rewrite orb_false_iff. intros [Hw Hv].
  rewrite IH by done. destruct w; [done|]. by simpl in Hw.
Qed.

(** Run the first reader of a sequence on the bytes it wrote. *)
Ltac read_step H := etransitivity; [eapply reader_bind_step, H|]; cbn beta.

(** Writing always succeeds, and reading follows. *)
Lemma tx_reads_back fAllowWitness tx :
  tx_ok tx -> (fAllowWitness = true -> vin tx <> [] \/ vout tx = []) ->
  reads_back (SerializeTransaction fAllowWitness tx)
    (UnserializeTransaction batch_in batch_out batch_wit fAllowWitness)
    (if fAllowWitness then tx else strip_witness tx).
Proof.
  intros [Hver Hvin Hnin Hw Hvout Hnout Hlock] Hne. unfold HasWitness.
  destruct (int32_codec_ok _ Hver) as (ver & Ever & Over & Dver).
  destruct (vin_reads_back _ Hvin Hnin) as (ins & Eins & Oins & Dins).
  destruct (vout_reads_back _ Hvout Hnout) as (outs & Eouts & Oouts & Douts).
  destruct (witnesses_read_back _ Hw) as (wits & Ewits & Owits & Dwits).
  destruct (uint32_codec_ok _ Hlock) as (lock & Elock & Olock & Dlock).
  unfold SerializeTransaction, HasWitness. rewrite Ever, Eins, Eouts, Elock.
  destruct (fAllowWitness && existsb _ (vin tx)) eqn:Hflag.
  - apply andb_true_iff in Hflag as [-> _].
    destruct (vin_reads_back [] (Forall_nil_2 _)) as (d & Ed & Od & Dd); [done|].
    destruct (uint8_codec_ok 1) as (f & Ef & Of & Df); [unfold is_byte; lia|].
    change (negb (1 =? 0)) with true. change (negb (Z.land 1 1 =? 0)) with true.
    unfold mbind, result_bind, mret, result_ret. rewrite Ed, Ef, Ewits.
    eexists. split; [done|].
    split; [by rewrite !bytes_ok_app|]. intros rest. rewrite <- !app_assoc.
    unfold UnserializeTransaction. read_step Dver. read_step Dd. cbn [map].
    etransitivity.
    { eapply reader_bind_step. change (zlen [] =? 0) with true. cbn [andb].
      read_step Df. change (negb (1 =? 0)) with true. cbn iota. read_step Dins. read_step Douts. done. }
    cbn beta iota. etransitivity.
    { eapply reader_bind_step. change (negb (Z.land 1 1 =? 0) && true) with true. cbn iota.
      read_step Dwits. done. }
    cbn beta iota. change (negb (Z.lxor 1 1 =? 0)) with false. cbn iota. read_step Dlock. by destruct tx.
  - eexists. split; [done|].
    split; [repeat (apply bytes_ok_app; split); (done || constructor)|]. intros rest. rewrite <- !app_assoc.
    unfold UnserializeTransaction. read_step Dver. rewrite app_nil_l. read_step Dins.
    assert (Hstrip : fAllowWitness = true -> map (fun i => strip_in i) (vin tx) = vin tx).
    { intros ->. by apply strip_no_witness. }
    assert (Hz : zlen (map (fun i => strip_in i) (vin tx)) = zlen (vin tx)) by (unfold zlen; by rewrite length_map).
    rewrite Hz. destruct ((zlen (vin tx) =? 0) && fAllowWitness) eqn:Hempty.
    + apply andb_true_iff in Hempty as [He ->]. apply Z.eqb_eq, zlen_nil_iff in He.
      destruct (Hne eq_refl) as [?|Hout0]; [done|]. rewrite Hout0 in Eouts. injection Eouts as <-.
      etransitivity.
      { eapply reader_bind_step. etransitivity.
        - eapply reader_bind_step. apply (ser_readdata8_app 0). unfold is_byte. lia.
        - cbn beta. change (negb (0 =? 0)) with false. cbn iota. reflexivity. }
      cbn beta iota. etransitivity; [eapply reader_bind_step; done|].
      cbn beta iota. change (negb (0 =? 0)) with false. cbn iota. read_step Dlock.
      rewrite Hstrip, He by done. destruct tx; simpl in *. by subst.
    + etransitivity; [eapply reader_bind_step; read_step Douts; done|]. cbn beta iota.
      etransitivity; [eapply reader_bind_step; done|]. cbn beta iota.
      change (negb (0 =? 0)) with false. cbn iota. read_step Dlock.
      destruct fAllowWitness; [rewrite Hstrip by done; by destruct tx|done].
Qed.
End Roundtrip.

(** C32: Transaction serialization round-trips: every transaction within the
    ranges of its types is written, and what is written is read back whatever
    follows, in full when witnesses are allowed and without the witnesses
    otherwise. With witnesses allowed the transaction must have an input, or
    neither inputs nor outputs: the marker byte of the extended format is the
    count of an empty input vector. *)
Theorem tx_roundtrip batch_in batch_out batch_wit tx rest :
  1 <= batch_in -> 1 <= batch_out -> 1 <= batch_wit ->
  tx_ok tx -> vin tx <> [] \/ vout tx = [] ->
  (exists bs, SerializeTransaction true tx = Ok bs /\
     UnserializeTransaction batch_in batch_out batch_wit true (bs ++ rest) = Ok (tx, rest)) /\
  (exists bs, SerializeTransaction false tx = Ok bs /\
     UnserializeTransaction batch_in batch_out batch_wit false (bs ++ rest) = Ok (strip_witness tx, rest)).
Proof.
  intros Hi Ho Hw Htx Hne.
  destruct (tx_reads_back _ _ _ Hi Ho Hw true tx Htx) as (bs & H1 & _ & H2); [done|].
  destruct (tx_reads_back _ _ _ Hi Ho Hw false tx Htx) as (cs & H3 & _ & H4); [done|].
  split; eauto.
Qed.

Definition example_tx : CTransaction :=
  mkCTransaction 2
    [mkCTxIn (mkCOutPoint (repeat 7 32) 1) [OP_0] SEQUENCE_FINAL [[1; 2; 3]]]
    [mkCTxOut (5 * CASH) [OP_DUP]] 0.

Lemma example_tx_ok : tx_ok example_tx.
Proof.
  constructor; simpl; repeat constructor; simpl; try (by vm_compute); try (unfold is_i32; lia).
Qed.

Lemma tx_roundtrip_witness :
  exists bs, SerializeTransaction true example_tx = Ok bs /\
    UnserializeTransaction 1 1 1 true (bs ++ [9]) = Ok (example_tx, [9]).
Proof.
  refine (proj1 (tx_roundtrip 1 1 1 example_tx [9] _ _ _ example_tx_ok _)); [lia..|by left].
Defined.

(** The witness-free bytes a transaction id is computed from determine the
    transaction up to its witnesses, and the full bytes determine it entirely:
    two valid transactions with the same bytes are equal (after [strip_witness]
    for the former). *)
Theorem serialized_injective tx tx' :
  tx_ok tx -> tx_ok tx' -> vin tx <> [] -> vin tx' <> [] ->
  (serialized true tx = serialized true tx' -> tx = tx') /\
  (serialized false tx = serialized false tx' -> strip_witness tx = strip_witness tx').
Proof.
  intros Htx Htx' Hne Hne'. assert (1 <= 1) as H1 by lia. unfold serialized.
  destruct (tx_reads_back 1 1 1 H1 H1 H1 true tx Htx) as (a & -> & _ & Ha); [by left|].
  destruct (tx_reads_back 1 1 1 H1 H1 H1 true tx' Htx') as (b & -> & _ & Hb); [by left|].
  destruct (tx_reads_back 1 1 1 H1 H1 H1 false tx Htx) as (c & -> & _ & Hc); [done|].
  destruct (tx_reads_back 1 1 1 H1 H1 H1 false tx' Htx') as (d & -> & _ & Hd); [done|].
  specialize (Ha []); specialize (Hb []); specialize (Hc []); specialize (Hd []).
  split; intros <-; congruence.
Qed.

Lemma serialized_injective_witness :
  strip_witness example_tx = strip_witness (strip_witness example_tx).
Proof.
  assert (tx_ok (strip_witness example_tx)).
  { constructor; simpl; repeat constructor; simpl; try (by vm_compute); try (unfold is_i32; lia). }
  apply (serialized_injective example_tx (strip_witness example_tx)); auto using example_tx_ok; try done.
Defined.

(** ** GetValueOut *)

Definition money_vout (vout : list CTxOut) : Prop :=
  Forall (fun o => MoneyRange (nValue o) = true) vout.

Lemma money_vout_nonneg v : money_vout v -> Forall (fun x => 0 <= x) (map nValue v).
Proof.
  intros H. apply Forall_map. eapply Forall_impl; [|exact H].
  intros o [? _]%MoneyRange_spec. done.
Qed.

Lemma GetValueOut_loop_spec v acc :
  0 <= acc <= MAX_MONEY ->
  (GetValueOut_loop v acc = Ok (acc + zsum (map nValue v)) /\ money_vout v /\
     acc + zsum (map nValue v) <= MAX_MONEY) \/
  (GetValueOut_loop v acc = Throw value_out_of_range /\
     ~ (money_vout v /\ acc + zsum (map nValue v) <= MAX_MONEY)).
Proof.
  revert acc; induction v as [|o v IH]; intros acc Hacc; simpl.
  { left. change (zsum []) with 0. rewrite Z.add_0_r. split_and!; [done|constructor|lia]. }
  destruct (MoneyRange (nValue o)) eqn:Ho; simpl.
  2:{ right. split; [done|]. intros [Hm _]. apply Forall_cons_1 in Hm as [Hm _]. congruence. }
  pose proof Ho as Hr%MoneyRange_spec.
  rewrite MoneyRange_add by (done || by apply MoneyRange_spec).
  rewrite zsum_cons, Z.add_assoc.
  destruct (MoneyRange (acc + nValue o)) eqn:Ha; simpl.
  - apply MoneyRange_spec in Ha. destruct (IH _ Ha) as [(-> & Hm & Hs)|[-> Hn]].
    + left. split_and!; [done|by constructor|done].
    + right. split; [done|]. intros [Hm Hs]. apply Hn. by apply Forall_cons_1 in Hm as [_ Hm].
  - right. split; [done|]. intros [Hm Hs]. apply Forall_cons_1 in Hm as [_ Hm].
    pose proof (zsum_nonneg _ (money_vout_nonneg v Hm)).
    assert (MoneyRange (acc + nValue o) = true) by (apply MoneyRange_spec; lia). congruence.
Qed.

(** [GetValueOut] returns the exact sum of the outputs, without overflow, when
    every output and the sum are money; it throws otherwise. *)
Lemma GetValueOut_spec tx v :
  GetValueOut tx = Ok v <->
  money_vout (vout tx) /\ v = zsum (map nValue (vout tx)) /\ v <= MAX_MONEY.
Proof.
  unfold GetValueOut. destruct (GetValueOut_loop_spec (vout tx) 0) as [(-> & Hm & Hs)|[-> Hn]].
  { unfold MAX_MONEY, CASH. lia. }
  - rewrite Z.add_0_l in *. split; [intros [= <-]; done|]. by intros (_ & -> & _).
  - rewrite Z.add_0_l in Hn. split; [done|]. intros (Hm & -> & Hs). by destruct Hn.
Qed.
