(* ===== verification/Cash.v ===== *)
(** * The set of unspent outputs: views and caches (cash.h, cash.cpp)

    A view is any state with the operations of class CCashView ([CashView]).
    [CashViewOk] is what a view promises to the cache above it; the cache over a
    lawful base is itself a lawful view ([CCashViewCache_ok]), so the theorems
    hold for every stack of caches. An exception ends a run: the state it
    leaves is not modelled. *)
From S2P Require Import Prelude Serialize Amount Script Transaction.

(** ** Cash: an unspent output with the height of its transaction *)
Record Cash := mkCash { out : CTxOut; fCashBase : bool; nHeight : Z }.

#[export] Instance Cash_eq_dec : EqDecision Cash.
Proof. solve_decision. Defined.

(** The constructor stores the height in 31 bits. *)
Definition Cash_ctor (outIn : CTxOut) (nHeightIn : Z) (fCashBaseIn : bool) : Cash :=
  mkCash outIn fCashBaseIn (nHeightIn mod 2 ^ 31).

(** What [Clear] and the default constructor leave. *)
Definition cashEmpty : Cash := mkCash CTxOut_null false 0.

Definition IsSpent (c : Cash) : bool := CTxOut_IsNull (out c).

(** ** Cache entries *)
Record CCashCacheEntry := mkEntry { e_cash : Cash; e_flags : Z }.

#[export] Instance CCashCacheEntry_eq_dec : EqDecision CCashCacheEntry.
Proof. solve_decision. Defined.

Definition DIRTY : Z := Z.shiftl 1 0.
Definition FRESH : Z := Z.shiftl 1 1.

Definition has_flag (flag : Z) (e : CCashCacheEntry) : bool := negb (Z.land (e_flags e) flag =? 0).

Abbreviation CCashMap := (gmap COutPoint CCashCacheEntry).

(** The memory a script owns outside of the object ([memusage::DynamicUsage] of
    its prevector) is not part of its value; an emptied script owns none. *)
Class ScriptMemory := DynamicMemoryUsage : Cash -> Z.
Class ScriptMemoryOk `{ScriptMemory} : Prop := DynamicMemoryUsage_empty : DynamicMemoryUsage cashEmpty = 0.

(** ** class CCashView

    [GetCash] may fill the caches of a const view, so it returns the new state. *)
Class CashView (S : Type) := {
  view_GetCash : COutPoint -> S -> option Cash * S;
  view_GetBestBlock : S -> uint256 * S;
  view_BatchWrite : CCashMap -> uint256 -> S -> result (bool * S);
}.

(** The base class: an empty set that cannot be written. *)
#[export] Instance CCashView_base : CashView unit := {
  view_GetCash _ s := (None, s);
  view_GetBestBlock s := (uint256_null, s);
  view_BatchWrite _ _ s := Ok (false, s);
}.

(** ** class CCashViewCache *)
Record CCashViewCache (S : Type) := mkCache {
  base : S;
  hashBlock : uint256;
  cacheCash : CCashMap;
  cachedCashUsage : Z;
}.
Arguments mkCache {S} base hashBlock cacheCash cachedCashUsage.
Arguments base {S} c.
Arguments hashBlock {S} c.
Arguments cacheCash {S} c.
Arguments cachedCashUsage {S} c.

Section CCashViewCache.
Context {S : Type} `{!CashView S} `{!ScriptMemory}.
Implicit Types (c : CCashViewCache S) (o : COutPoint).

Definition CCashViewCache_new (baseIn : S) : CCashViewCache S := mkCache baseIn uint256_null ∅ 0.

(** Replace the entries and the usage, leave the rest. *)
Definition set_cache c (m : CCashMap) (usage : Z) : CCashViewCache S :=
  mkCache (base c) (hashBlock c) m (u64 usage).

(** The entry an iterator points at, [None] for [cacheCash.end()]. *)
Definition FetchCash o c : option CCashCacheEntry * CCashViewCache S :=
  match cacheCash c !! o with
  | Some it => (Some it, c)
  | None =>
      match view_GetCash o (base c) with
      | (None, b) => (None, mkCache b (hashBlock c) (cacheCash c) (cachedCashUsage c))
      | (Some tmp, b) =>
          let ret := mkEntry tmp (if IsSpent tmp then FRESH else 0) in
          (Some ret, mkCache b (hashBlock c) (<[o := ret]> (cacheCash c))
                       (u64 (cachedCashUsage c + DynamicMemoryUsage tmp)))
      end
  end.

Definition GetCash o c : option Cash * CCashViewCache S :=
  match FetchCash o c with
  | (Some it, c) => (if IsSpent (e_cash it) then None else Some (e_cash it), c)
  | (None, c) => (None, c)
  end.

Definition replaces_non_pruned : Exn := logic_error "Adding new cash that replaces non-pruned entry".

Definition AddCash o (cash : Cash) (possible_overwrite : bool) c : result (CCashViewCache S) :=
  assert_then (negb (IsSpent cash)) "!cash.IsSpent()"
    (if IsUnspendable (scriptPubKey (out cash)) then Ok c
     else
       let '(it, usage) := match cacheCash c !! o with
                           | Some it => (it, cachedCashUsage c - DynamicMemoryUsage (e_cash it))
                           | None => (mkEntry cashEmpty 0, cachedCashUsage c)
                           end in
       if negb possible_overwrite && negb (IsSpent (e_cash it)) then Throw replaces_non_pruned
       else
         let fresh := negb possible_overwrite && negb (has_flag DIRTY it) in
         let it' := mkEntry cash (Z.lor (e_flags it) (Z.lor DIRTY (if fresh then FRESH else 0))) in
         Ok (set_cache c (<[o := it']> (cacheCash c)) (usage + DynamicMemoryUsage cash))).

(** [SpendCash(outpoint, &moveout)]: [None] is [false], otherwise the entry moved out. *)
Definition SpendCash o c : option Cash * CCashViewCache S :=
  match FetchCash o c with
  | (None, c) => (None, c)
  | (Some it, c) =>
      let usage := cachedCashUsage c - DynamicMemoryUsage (e_cash it) in
      (Some (e_cash it),
       if has_flag FRESH it then set_cache c (delete o (cacheCash c)) usage
       else set_cache c (<[o := mkEntry cashEmpty (Z.lor (e_flags it) DIRTY)]> (cacheCash c)) usage)
  end.

Definition AccessCash o c : Cash * CCashViewCache S :=
  match FetchCash o c with
  | (Some it, c) => (e_cash it, c)
  | (None, c) => (cashEmpty, c)
  end.

Definition HaveCash o c : bool * CCashViewCache S :=
  match FetchCash o c with
  | (Some it, c) => (negb (IsSpent (e_cash it)), c)
  | (None, c) => (false, c)
  end.

Definition HaveCashInCache o c : bool :=
  match cacheCash c !! o with Some it => negb (IsSpent (e_cash it)) | None => false end.

Definition GetBestBlock c : uint256 * CCashViewCache S :=
  if uint256_IsNull (hashBlock c) then
    let '(h, b) := view_GetBestBlock (base c) in (h, mkCache b h (cacheCash c) (cachedCashUsage c))
  else (hashBlock c, c).

Definition SetBestBlock (hashBlockIn : uint256) c : CCashViewCache S :=
  mkCache (base c) hashBlockIn (cacheCash c) (cachedCashUsage c).

Definition fresh_misapplied : Exn :=
  logic_error "FRESH flag misapplied to cache entry for base transaction with spendable outputs".

(** One iteration of [BatchWrite]: the entry [it] of the child for [o]. *)
Definition BatchWrite_step o (it : CCashCacheEntry) c : result (CCashViewCache S) :=
  if negb (has_flag DIRTY it) then Ok c
  else
    match cacheCash c !! o with
    | None =>
        if has_flag FRESH it && IsSpent (e_cash it) then Ok c
        else
          let entry := mkEntry (e_cash it) (if has_flag FRESH it then Z.lor DIRTY FRESH else DIRTY) in
          Ok (set_cache c (<[o := entry]> (cacheCash c)) (cachedCashUsage c + DynamicMemoryUsage (e_cash it)))
    | Some itUs =>
        if has_flag FRESH it && negb (IsSpent (e_cash itUs)) then Throw fresh_misapplied
        else if has_flag FRESH itUs && IsSpent (e_cash it)
        then Ok (set_cache c (delete o (cacheCash c)) (cachedCashUsage c - DynamicMemoryUsage (e_cash itUs)))
        else Ok (set_cache c (<[o := mkEntry (e_cash it) (Z.lor (e_flags itUs) DIRTY)]> (cacheCash c))
                   (cachedCashUsage c - DynamicMemoryUsage (e_cash itUs) + DynamicMemoryUsage (e_cash it)))
    end.

(** The entries in the order the hash table iterates over them. *)
Fixpoint BatchWrite_loop (l : list (COutPoint * CCashCacheEntry)) c : result (CCashViewCache S) :=
  match l with
  | [] => Ok c
  | (o, it) :: l => c ← BatchWrite_step o it c; BatchWrite_loop l c
  end.

Definition BatchWrite (mapCash : CCashMap) (hashBlockIn : uint256) c : result (bool * CCashViewCache S) :=
  c ← BatchWrite_loop (map_to_list mapCash) c;
  mret (true, SetBestBlock hashBlockIn c).

Definition Flush c : result (bool * CCashViewCache S) :=
  '(fOk, b) ← view_BatchWrite (cacheCash c) (hashBlock c) (base c);
  mret (fOk, mkCache b (hashBlock c) ∅ 0).

Definition Uncache o c : CCashViewCache S :=
  match cacheCash c !! o with
  | Some it =>
      if e_flags it =? 0
      then set_cache c (delete o (cacheCash c)) (cachedCashUsage c - DynamicMemoryUsage (e_cash it))
      else c
  | None => c
  end.

Definition GetCacheSize c : Z := u32 (Z.of_nat (size (cacheCash c))).

Fixpoint GetValueIn_loop (v : list CTxIn) (nResult : CAmount) c : CAmount * CCashViewCache S :=
  match v with
  | [] => (nResult, c)
  | i :: v =>
      let '(cash, c) := AccessCash (prevout i) c in
      GetValueIn_loop v (i64 (nResult + nValue (out cash))) c
  end.

Definition GetValueIn (tx : CTransaction) c : CAmount * CCashViewCache S :=
  if IsCashBase tx then (0, c) else GetValueIn_loop (vin tx) 0 c.

Fixpoint HaveInputs_loop (v : list CTxIn) c : bool * CCashViewCache S :=
  match v with
  | [] => (true, c)
  | i :: v =>
      let '(b, c) := HaveCash (prevout i) c in
      if b then HaveInputs_loop v c else (false, c)
  end.

Definition HaveInputs (tx : CTransaction) c : bool * CCashViewCache S :=
  if IsCashBase tx then (true, c) else HaveInputs_loop (vin tx) c.

(** [AddCash(cache, tx, nHeight, check)]: the outputs from index [i] on. *)
Fixpoint AddCash_loop (txid : uint256) (i : Z) (vout : list CTxOut) (nHeight : Z)
    (fCashBase check : bool) c : result (CCashViewCache S) :=
  match vout with
  | [] => Ok c
  | txout :: vout =>
      let o := mkCOutPoint txid i in
      let '(overwrite, c) := if check then HaveCash o c else (fCashBase, c) in
      c ← AddCash o (Cash_ctor txout nHeight fCashBase) overwrite c;
      AddCash_loop txid (i + 1) vout nHeight fCashBase check c
  end.

Definition AddCash_tx (tx : CTransaction) (nHeight : Z) (check : bool) c : result (CCashViewCache S) :=
  AddCash_loop (GetHash tx) 0 (vout tx) nHeight (IsCashBase tx) check c.

Definition MAX_BLOCK_WEIGHT : Z := 4000000.
Definition WITNESS_SCALE_FACTOR : Z := 4.
Definition MIN_TRANSACTION_OUTPUT_WEIGHT : Z :=
  WITNESS_SCALE_FACTOR * match enc CTxOut_codec CTxOut_null with Ok bs => zlen bs | Throw _ => 0 end.
Definition MAX_OUTPUTS_PER_BLOCK : Z := MAX_BLOCK_WEIGHT / MIN_TRANSACTION_OUTPUT_WEIGHT.

(** [k] is the number of iterations left. *)
Fixpoint AccessByTxid_loop (k : nat) (txid : uint256) (n : Z) c : Cash * CCashViewCache S :=
  match k with
  | O => (cashEmpty, c)
  | Datatypes.S k =>
      let '(alternate, c) := AccessCash (mkCOutPoint txid n) c in
      if negb (IsSpent alternate) then (alternate, c) else AccessByTxid_loop k txid (n + 1) c
  end.

Definition AccessByTxid (txid : uint256) c : Cash * CCashViewCache S :=
  AccessByTxid_loop (Z.to_nat MAX_OUTPUTS_PER_BLOCK) txid 0 c.

#[export] Instance CCashViewCache_view : CashView (CCashViewCache S) := {
  view_GetCash := GetCash;
  view_GetBestBlock := GetBestBlock;
  view_BatchWrite := BatchWrite;
}.
End CCashViewCache.

(** * The specification: a map of unspent outputs *)

Abbreviation utxo := (gmap COutPoint Cash).

(** The output an entry stands for. *)
Definition unspent (c : Cash) : option Cash := if IsSpent c then None else Some c.

(** The entries of a child laid over a set of outputs: every entry, or the dirty ones. *)
Definition overlay (m : CCashMap) (u : utxo) : utxo :=
  merge (fun e c => match e with Some e => unspent (e_cash e) | None => c end) m u.

Definition apply_batch (m : CCashMap) (u : utxo) : utxo :=
  merge (fun e c => match e with
                    | Some e => if has_flag DIRTY e then unspent (e_cash e) else c
                    | None => c
                    end) m u.

(** FRESH entries of a batch are really absent from the parent. *)
Definition batch_ok (m : CCashMap) (u : utxo) : Prop :=
  forall o e, m !! o = Some e -> has_flag DIRTY e = true -> has_flag FRESH e = true -> u !! o = None.

(** What a view promises: it is a map of unspent outputs and a best block;
    reading does not change it; a batch without misplaced FRESH flags is applied. *)
Class CashViewOk (S : Type) `{CashView S} := {
  view_inv : S -> Prop;
  view_abs : S -> utxo;
  view_best : S -> uint256;
  view_abs_unspent s o c : view_inv s -> view_abs s !! o = Some c -> IsSpent c = false;
  view_GetCash_ok s o : view_inv s ->
    let '(r, s') := view_GetCash o s in
    r = view_abs s !! o /\ view_inv s' /\ view_abs s' = view_abs s /\ view_best s' = view_best s;
  view_GetBestBlock_ok s : view_inv s ->
    let '(h, s') := view_GetBestBlock s in
    h = view_best s /\ view_inv s' /\ view_abs s' = view_abs s /\ view_best s' = view_best s;
  view_BatchWrite_ok s m h : view_inv s -> batch_ok m (view_abs s) -> uint256_IsNull h = false ->
    exists s', view_BatchWrite m h s = Ok (true, s') /\ view_inv s' /\
      view_abs s' = apply_batch m (view_abs s) /\ view_best s' = h;
}.

Lemma lookup_overlay m u o :
  overlay m u !! o = match m !! o with Some e => unspent (e_cash e) | None => u !! o end.
Proof. unfold overlay. rewrite lookup_merge. by destruct (m !! o), (u !! o). Qed.

Lemma lookup_apply_batch m u o :
  apply_batch m u !! o =
    match m !! o with
    | Some e => if has_flag DIRTY e then unspent (e_cash e) else u !! o
    | None => u !! o
    end.
Proof.
  unfold apply_batch. rewrite lookup_merge. by destruct (m !! o) as [e|], (u !! o).
Qed.

Lemma unspent_Some c d : unspent c = Some d <-> c = d /\ IsSpent d = false.
Proof. unfold unspent. destruct (IsSpent c) eqn:Hc; split; [done|intros [-> ?]; congruence|by intros [= <-]|by intros [-> _]]. Qed.

Lemma unspent_id c : IsSpent c = false -> unspent c = Some c.
Proof. unfold unspent. by intros ->. Qed.

(** ** Flags *)

Lemma has_flag_lor flag c a b :
  has_flag flag (mkEntry c (Z.lor a b)) = has_flag flag (mkEntry c a) || has_flag flag (mkEntry c b).
Proof.
  unfold has_flag. simpl. rewrite Z.land_lor_distr_l.
  destruct (Z.eqb_spec (Z.land a flag) 0) as [->|Ha]; [by rewrite Z.lor_0_l|].
  destruct (Z.eqb_spec (Z.lor (Z.land a flag) (Z.land b flag)) 0) as [[? ?]%Z.lor_eq_0_iff|]; done.
Qed.

Lemma has_flag_0 flag c : has_flag flag (mkEntry c 0) = false.
Proof. done. Qed.
Lemma dirty_DIRTY c : has_flag DIRTY (mkEntry c DIRTY) = true.
Proof. done. Qed.
Lemma fresh_DIRTY c : has_flag FRESH (mkEntry c DIRTY) = false.
Proof. done. Qed.
Lemma dirty_FRESH c : has_flag DIRTY (mkEntry c FRESH) = false.
Proof. done. Qed.
Lemma fresh_FRESH c : has_flag FRESH (mkEntry c FRESH) = true.
Proof. done. Qed.

(** The flags do not look at the output. *)
Lemma has_flag_cash flag c d f : has_flag flag (mkEntry c f) = has_flag flag (mkEntry d f).
Proof. done. Qed.

Lemma has_flag_eta flag e c : has_flag flag (mkEntry c (e_flags e)) = has_flag flag e.
Proof. done. Qed.

Create Rewrite HintDb flags.
#[export] Hint Rewrite has_flag_lor has_flag_0 dirty_DIRTY fresh_DIRTY dirty_FRESH fresh_FRESH
  has_flag_eta orb_true_r orb_false_r orb_true_l orb_false_l : flags.

(** ** Memory accounting *)
Section Usage.
Context `{!ScriptMemory}.

Definition entries_usage (m : CCashMap) : Z :=
  map_fold (fun _ e acc => DynamicMemoryUsage (e_cash e) + acc) 0 m.

Lemma entries_usage_insert m o e :
  m !! o = None -> entries_usage (<[o := e]> m) = DynamicMemoryUsage (e_cash e) + entries_usage m.
Proof. intros Hm. unfold entries_usage. rewrite map_fold_insert_L; [done|intros; lia|done]. Qed.

Lemma entries_usage_delete m o e :
  m !! o = Some e -> entries_usage (delete o m) = entries_usage m - DynamicMemoryUsage (e_cash e).
Proof.
  intros Hm. rewrite <- (insert_delete_id m o e) at 2 by done.
  rewrite entries_usage_insert by apply lookup_delete_eq. lia.
Qed.

Lemma entries_usage_replace m o e e' :
  m !! o = Some e ->
  entries_usage (<[o := e']> m) =
    entries_usage m - DynamicMemoryUsage (e_cash e) + DynamicMemoryUsage (e_cash e').
Proof.
  intros Hm. rewrite <- insert_delete_eq, entries_usage_insert by apply lookup_delete_eq.
  rewrite (entries_usage_delete m o e) by done. lia.
Qed.

Lemma u64_congr a b c : a = u64 b -> u64 (a + c) = u64 (b + c).
Proof. intros ->. unfold u64. by rewrite Zplus_mod_idemp_l. Qed.

Lemma u64_congr_sub a b c : a = u64 b -> u64 (a - c) = u64 (b - c).
Proof. intros ->. unfold u64. by rewrite Zminus_mod_idemp_l. Qed.
End Usage.

Lemma overlay_insert m u o e :
  overlay (<[o := e]> m) u = partial_alter (fun _ => unspent (e_cash e)) o (overlay m u).
Proof.
  apply map_eq. intros o'. rewrite lookup_overlay. destruct (decide (o = o')) as [<-|Hne].
  - by rewrite lookup_insert_eq, lookup_partial_alter_eq.
  - by rewrite lookup_insert_ne, lookup_partial_alter_ne, lookup_overlay.
Qed.

Lemma overlay_delete m u o :
  overlay (delete o m) u = partial_alter (fun _ => u !! o) o (overlay m u).
Proof.
  apply map_eq. intros o'. rewrite lookup_overlay. destruct (decide (o = o')) as [<-|Hne].
  - by rewrite lookup_delete_eq, lookup_partial_alter_eq.
  - by rewrite lookup_delete_ne, lookup_partial_alter_ne, lookup_overlay.
Qed.

Lemma partial_alter_const_id {A} (m : gmap COutPoint A) o r :
  m !! o = r -> partial_alter (fun _ => r) o m = m.
Proof. intros <-. apply partial_alter_self. Qed.

(** * The cache implements the specification *)
Section CacheLemmas.
Context {S : Type} `{!CashView S} `{!CashViewOk S} `{!ScriptMemory} `{!ScriptMemoryOk}.
Implicit Types (c : CCashViewCache S) (o : COutPoint).

(** An entry against what the base has: an entry that is not DIRTY agrees with
    it, and a FRESH entry is absent from it. *)
Definition entry_ok (b : option Cash) (e : CCashCacheEntry) : Prop :=
  (has_flag DIRTY e = false -> unspent (e_cash e) = b) /\
  (has_flag FRESH e = true -> b = None).

Record cache_inv c : Prop := {
  ci_base : view_inv (base c);
  ci_entries : forall o e, cacheCash c !! o = Some e -> entry_ok (view_abs (base c) !! o) e;
  ci_usage : cachedCashUsage c = u64 (entries_usage (cacheCash c));
}.

Definition cache_abs c : utxo := overlay (cacheCash c) (view_abs (base c)).

Definition cache_best c : uint256 :=
  if uint256_IsNull (hashBlock c) then view_best (base c) else hashBlock c.

(** The state after an operation that only reads. *)
Definition same_view c c' : Prop :=
  cache_inv c' /\ cache_abs c' = cache_abs c /\ cache_best c' = cache_best c.

Lemma cache_abs_unspent c o d : cache_inv c -> cache_abs c !! o = Some d -> IsSpent d = false.
Proof.
  intros Hc. unfold cache_abs. rewrite lookup_overlay. destruct (cacheCash c !! o) as [e|].
  - by intros [_ ?]%unspent_Some.
  - intros Hd. by eapply view_abs_unspent; [apply Hc|].
Qed.

Lemma FetchCash_ok c o :
  cache_inv c ->
  let '(it, c') := FetchCash o c in
  same_view c c' /\ hashBlock c' = hashBlock c /\ cacheCash c' !! o = it /\
  cache_abs c !! o = match it with Some e => unspent (e_cash e) | None => None end.
Proof.
  intros Hc. unfold FetchCash, same_view. destruct (cacheCash c !! o) as [e|] eqn:Ho.
  { split_and!; try done. unfold cache_abs. by rewrite lookup_overlay, Ho. }
  pose proof (view_GetCash_ok (base c) o (ci_base c Hc)) as Hg.
  destruct (view_GetCash o (base c)) as [r b]. destruct Hg as (-> & Hb & Habs & Hbest).
  assert (cache_abs c !! o = view_abs (base c) !! o) as Hlook
    by (unfold cache_abs; by rewrite lookup_overlay, Ho).
  destruct (view_abs (base c) !! o) as [tmp|] eqn:Htmp.
  - pose proof (view_abs_unspent _ _ _ (ci_base c Hc) Htmp) as Hun. rewrite Hun. cbn [e_cash cacheCash hashBlock].
    rewrite lookup_insert_eq, unspent_id by done. split_and!; try done.
    + constructor; cbn [base cacheCash cachedCashUsage]; [done| |].
      * intros o' e. rewrite Habs. destruct (decide (o = o')) as [<-|Hne].
        -- rewrite lookup_insert_eq. intros [= <-]. rewrite Htmp.
           split; [by rewrite unspent_id|by rewrite has_flag_0].
        -- rewrite lookup_insert_ne by done. apply Hc.
      * rewrite entries_usage_insert by done. cbn [e_cash].
        rewrite (u64_congr _ _ _ (ci_usage c Hc)). f_equal. lia.
    + unfold cache_abs. cbn [base cacheCash]. rewrite Habs, overlay_insert. cbn [e_cash].
      rewrite unspent_id by done. apply partial_alter_const_id. by rewrite lookup_overlay, Ho.
    + unfold cache_best. cbn [base hashBlock]. by rewrite Hbest.
  - cbn [cacheCash hashBlock]. split_and!; try done.
    + constructor; cbn [base cacheCash cachedCashUsage]; [done| |apply Hc]. rewrite Habs. apply Hc.
    + unfold cache_abs. cbn [base cacheCash]. by rewrite Habs.
    + unfold cache_best. cbn [base hashBlock]. by rewrite Hbest.
Qed.

(** ** Replacing and erasing an entry *)

Lemma set_insert_ok c o e usage :
  cache_inv c -> entry_ok (view_abs (base c) !! o) e ->
  u64 usage = u64 (entries_usage (<[o := e]> (cacheCash c))) ->
  let c' := set_cache c (<[o := e]> (cacheCash c)) usage in
  cache_inv c' /\ cache_abs c' = partial_alter (fun _ => unspent (e_cash e)) o (cache_abs c) /\
  cache_best c' = cache_best c.
Proof.
  intros Hc He Hu c'. split_and!; [|apply overlay_insert|done].
  constructor; cbn; [apply Hc| |done]. intros o' e'. destruct (decide (o = o')) as [<-|Hne].
  - rewrite lookup_insert_eq. by intros [= <-].
  - rewrite lookup_insert_ne by done. apply Hc.
Qed.

Lemma set_delete_ok c o e usage :
  cache_inv c -> cacheCash c !! o = Some e ->
  u64 usage = u64 (entries_usage (delete o (cacheCash c))) ->
  let c' := set_cache c (delete o (cacheCash c)) usage in
  cache_inv c' /\ cache_abs c' = partial_alter (fun _ => view_abs (base c) !! o) o (cache_abs c) /\
  cache_best c' = cache_best c.
Proof.
  intros Hc He Hu c'. split_and!; [|apply overlay_delete|done].
  constructor; cbn; [apply Hc| |done]. intros o' e'. destruct (decide (o = o')) as [<-|Hne].
  - by rewrite lookup_delete_eq.
  - rewrite lookup_delete_ne by done. apply Hc.
Qed.

(** The accounting of the three kinds of updates. *)
Lemma usage_new c o e :
  cache_inv c -> cacheCash c !! o = None ->
  u64 (cachedCashUsage c + DynamicMemoryUsage (e_cash e)) = u64 (entries_usage (<[o := e]> (cacheCash c))).
Proof.
  intros Hc Ho. rewrite entries_usage_insert by done.
  rewrite (u64_congr _ _ _ (ci_usage c Hc)). f_equal. lia.
Qed.

Lemma usage_replace c o e e' :
  cache_inv c -> cacheCash c !! o = Some e ->
  u64 (cachedCashUsage c - DynamicMemoryUsage (e_cash e) + DynamicMemoryUsage (e_cash e'))
    = u64 (entries_usage (<[o := e']> (cacheCash c))).
Proof.
  intros Hc Ho. rewrite (entries_usage_replace _ _ e) by done.
  replace (cachedCashUsage c - DynamicMemoryUsage (e_cash e) + DynamicMemoryUsage (e_cash e'))
    with (cachedCashUsage c + (DynamicMemoryUsage (e_cash e') - DynamicMemoryUsage (e_cash e))) by lia.
  rewrite (u64_congr _ _ _ (ci_usage c Hc)). f_equal. lia.
Qed.

Lemma usage_erase c o e :
  cache_inv c -> cacheCash c !! o = Some e ->
  u64 (cachedCashUsage c - DynamicMemoryUsage (e_cash e)) = u64 (entries_usage (delete o (cacheCash c))).
Proof.
  intros Hc Ho. rewrite (entries_usage_delete _ _ e) by done. apply u64_congr_sub, Hc.
Qed.

(** ** Reading *)

Lemma GetCash_ok c o :
  cache_inv c -> let '(r, c') := GetCash o c in r = cache_abs c !! o /\ same_view c c'.
Proof.
  intros Hc. unfold GetCash. pose proof (FetchCash_ok c o Hc) as Hf.
  destruct (FetchCash o c) as [[it|] c']; destruct Hf as (Hs & _ & _ & ->); done.
Qed.

Lemma AccessCash_ok c o :
  cache_inv c -> let '(r, c') := AccessCash o c in unspent r = cache_abs c !! o /\ same_view c c'.
Proof.
  intros Hc. unfold AccessCash. pose proof (FetchCash_ok c o Hc) as Hf.
  destruct (FetchCash o c) as [[it|] c']; destruct Hf as (Hs & _ & _ & ->); done.
Qed.

Lemma HaveCash_ok c o :
  cache_inv c -> let '(b, c') := HaveCash o c in b = bool_decide (is_Some (cache_abs c !! o)) /\ same_view c c'.
Proof.
  intros Hc. unfold HaveCash. pose proof (FetchCash_ok c o Hc) as Hf.
  destruct (FetchCash o c) as [[it|] c']; destruct Hf as (Hs & _ & _ & ->); split; try done.
  unfold unspent. by destruct (IsSpent (e_cash it)).
Qed.

Lemma GetBestBlock_ok c :
  cache_inv c -> let '(h, c') := GetBestBlock c in h = cache_best c /\ same_view c c'.
Proof.
  intros Hc. unfold GetBestBlock, cache_best, same_view. destruct (uint256_IsNull (hashBlock c)) eqn:Hn.
  - pose proof (view_GetBestBlock_ok (base c) (ci_base c Hc)) as Hg.
    destruct (view_GetBestBlock (base c)) as [h b]. destruct Hg as (-> & Hb & Habs & Hbest).
    split_and!; [done| | |].
    + constructor; cbn; [done|rewrite Habs; apply Hc|apply Hc].
    + unfold cache_abs. cbn. by rewrite Habs.
    + unfold cache_best. cbn. rewrite Hn, Hbest. by destruct (uint256_IsNull (view_best (base c))).
  - done.
Qed.

(** ** Writing *)

Lemma entry_ok_dirty b cash f :
  has_flag DIRTY (mkEntry cash f) = true -> (has_flag FRESH (mkEntry cash f) = true -> b = None) ->
  entry_ok b (mkEntry cash f).
Proof. intros Hd Hf. split; [congruence|done]. Qed.

Lemma AddCash_ok c o cash possible_overwrite :
  cache_inv c -> IsSpent cash = false -> (possible_overwrite = false -> cache_abs c !! o = None) ->
  exists c', AddCash o cash possible_overwrite c = Ok c' /\ cache_inv c' /\
    cache_abs c' = (if IsUnspendable (scriptPubKey (out cash)) then cache_abs c
                    else <[o := cash]> (cache_abs c)) /\
    cache_best c' = cache_best c.
Proof.
  intros Hc Hs Hover. unfold AddCash, assert_then. rewrite Hs. cbn [negb].
  destruct (IsUnspendable _); [by exists c|].
  unfold cache_abs in Hover. rewrite lookup_overlay in Hover.
  destruct (cacheCash c !! o) as [it|] eqn:Ho; cbn [e_cash e_flags].
  - destruct (ci_entries c Hc _ _ Ho) as [Hclean Hfresh].
    destruct (negb possible_overwrite && negb (IsSpent (e_cash it))) eqn:Hthrow.
    { apply andb_true_iff in Hthrow as [Hpo Hsp]. apply negb_true_iff in Hpo, Hsp.
      specialize (Hover Hpo). by rewrite unspent_id in Hover. }
    eexists. split; [done|]. set (it' := mkEntry cash _).
    destruct (set_insert_ok c o it' (cachedCashUsage c - DynamicMemoryUsage (e_cash it) + DynamicMemoryUsage cash))
      as (Hi & Ha & Hb); [done| |by apply (usage_replace c o it it')|].
    + apply entry_ok_dirty; autorewrite with flags; [done|].
      destruct (negb possible_overwrite && negb (has_flag DIRTY it)) eqn:Hfr;
        autorewrite with flags; [|done]. intros _. bool_to_prop. rewrite <- Hclean by done. auto.
    + split_and!; [done| |done]. rewrite Ha. cbn [e_cash it']. by rewrite unspent_id.
  - rewrite andb_false_r. eexists. split; [done|]. set (it' := mkEntry cash _).
    destruct (set_insert_ok c o it' (cachedCashUsage c + DynamicMemoryUsage cash))
      as (Hi & Ha & Hb); [done| |by apply (usage_new c o it')|].
    + apply entry_ok_dirty; autorewrite with flags; [done|].
      destruct possible_overwrite; autorewrite with flags; [done|]. auto.
    + split_and!; [done| |done]. rewrite Ha. cbn [e_cash it']. by rewrite unspent_id.
Qed.

(** Spending removes the output and returns it. For an output that is not in the
    view the result is [false], or the spent entry of a cached output. *)
Lemma SpendCash_ok c o :
  cache_inv c ->
  let '(r, c') := SpendCash o c in
  cache_inv c' /\ cache_abs c' = delete o (cache_abs c) /\ cache_best c' = cache_best c /\
  r ≫= unspent = cache_abs c !! o.
Proof.
  intros Hc. unfold SpendCash. pose proof (FetchCash_ok c o Hc) as Hf.
  destruct (FetchCash o c) as [[it|] c1]; destruct Hf as ((Hc1 & Ha & Hb) & _ & Ho & Habs).
  2:{ split_and!; try done. rewrite Ha. by rewrite delete_id. }
  rewrite <- Ha, <- Hb, Ha, Habs. cbn. destruct (ci_entries c1 Hc1 _ _ Ho) as [_ Hfresh].
  destruct (has_flag FRESH it) eqn:Hfl.
  - destruct (set_delete_ok c1 o it (cachedCashUsage c1 - DynamicMemoryUsage (e_cash it)))
      as (Hi & Ha' & Hb'); [done..|by apply usage_erase|].
    rewrite Hfresh in Ha' by done. rewrite Ha in Ha'. by split_and!.
  - set (it' := mkEntry cashEmpty _).
    destruct (set_insert_ok c1 o it' (cachedCashUsage c1 - DynamicMemoryUsage (e_cash it)))
      as (Hi & Ha' & Hb'); [done| | |].
    + apply entry_ok_dirty; autorewrite with flags; [done|congruence].
    + rewrite <- (usage_replace c1 o it it') by done. cbn [e_cash it'].
      by rewrite DynamicMemoryUsage_empty, Z.add_0_r.
    + rewrite Ha in Ha'. by split_and!.
Qed.

Lemma Uncache_ok c o : cache_inv c -> same_view c (Uncache o c).
Proof.
  intros Hc. unfold Uncache, same_view. destruct (cacheCash c !! o) as [it|] eqn:Ho; [|done].
  destruct (Z.eqb_spec (e_flags it) 0) as [Hz|]; [|done].
  destruct (set_delete_ok c o it (cachedCashUsage c - DynamicMemoryUsage (e_cash it)))
    as (Hi & Ha & Hb); [done..|by apply usage_erase|].
  split_and!; [done| |done]. rewrite Ha. apply partial_alter_const_id.
  destruct (ci_entries c Hc _ _ Ho) as [Hclean _]. unfold cache_abs. rewrite lookup_overlay, Ho.
  apply Hclean. unfold has_flag. by rewrite Hz.
Qed.

Lemma SetBestBlock_ok c h :
  cache_inv c -> uint256_IsNull h = false ->
  cache_inv (SetBestBlock h c) /\ cache_abs (SetBestBlock h c) = cache_abs c /\ cache_best (SetBestBlock h c) = h.
Proof.
  intros Hc Hh. split_and!; [by constructor; apply Hc|done|]. unfold cache_best. cbn. by rewrite Hh.
Qed.

(** ** BatchWrite *)

Lemma BatchWrite_step_ok c o it :
  cache_inv c -> (has_flag DIRTY it = true -> has_flag FRESH it = true -> cache_abs c !! o = None) ->
  exists c', BatchWrite_step o it c = Ok c' /\ cache_inv c' /\
    cache_abs c' = (if has_flag DIRTY it then partial_alter (fun _ => unspent (e_cash it)) o (cache_abs c)
                    else cache_abs c).
Proof.
  intros Hc Hfresh. unfold BatchWrite_step. destruct (has_flag DIRTY it); cbn [negb]; [|by exists c].
  specialize (Hfresh eq_refl). pose proof Hfresh as Hfresh'. unfold cache_abs in Hfresh'.
  rewrite lookup_overlay in Hfresh'. destruct (cacheCash c !! o) as [us|] eqn:Ho.
  - destruct (ci_entries c Hc _ _ Ho) as [Hclean Hus].
    destruct (has_flag FRESH it && negb (IsSpent (e_cash us))) eqn:Ht.
    { apply andb_true_iff in Ht as [Hf Hsp%negb_true_iff]. exfalso. rewrite unspent_id in Hfresh' by done.
      by apply Hfresh' in Hf. }
    destruct (has_flag FRESH us && IsSpent (e_cash it)) eqn:He.
    + apply andb_true_iff in He as [Hf Hsp]. eexists. split; [done|].
      destruct (set_delete_ok c o us (cachedCashUsage c - DynamicMemoryUsage (e_cash us)))
        as (Hi & Ha & _); [done..|by apply usage_erase|].
      split; [done|]. rewrite Ha, Hus by done. unfold unspent. by rewrite Hsp.
    + eexists. split; [done|]. set (e' := mkEntry (e_cash it) _).
      edestruct (set_insert_ok c o e') as (Hi & Ha & _); [done| |by apply (usage_replace c o us e')|].
      * apply entry_ok_dirty; autorewrite with flags; done.
      * by split.
  - destruct (has_flag FRESH it && IsSpent (e_cash it)) eqn:Hskip.
    + apply andb_true_iff in Hskip as [Hf Hsp]. exists c. split_and!; [done..|]. symmetry.
      apply partial_alter_const_id. unfold unspent. rewrite Hsp. auto.
    + eexists. split; [done|]. set (e' := mkEntry (e_cash it) _).
      edestruct (set_insert_ok c o e') as (Hi & Ha & _); [done| |by apply (usage_new c o e')|].
      * apply entry_ok_dirty; destruct (has_flag FRESH it); autorewrite with flags; auto.
      * by split.
Qed.

Lemma apply_batch_insert m u o e :
  m !! o = None ->
  apply_batch (<[o := e]> m) u =
    apply_batch m (if has_flag DIRTY e then partial_alter (fun _ => unspent (e_cash e)) o u else u).
Proof.
  intros Ho. apply map_eq. intros o'. rewrite !lookup_apply_batch. destruct (decide (o = o')) as [<-|Hne].
  - rewrite lookup_insert_eq, Ho. destruct (has_flag DIRTY e); [by rewrite lookup_partial_alter_eq|done].
  - rewrite lookup_insert_ne by done. destruct (has_flag DIRTY e); [|done].
    by rewrite lookup_partial_alter_ne.
Qed.

(** Whatever the order in which the hash table yields the entries of the child,
    each key once, all of them are applied. *)
Lemma BatchWrite_loop_ok l c :
  cache_inv c -> NoDup l.*1 -> batch_ok (list_to_map l) (cache_abs c) ->
  exists c', BatchWrite_loop l c = Ok c' /\ cache_inv c' /\
    cache_abs c' = apply_batch (list_to_map l) (cache_abs c).
Proof.
  revert c; induction l as [|[o e] l IH]; intros c Hc Hnd Hok; cbn [BatchWrite_loop].
  { exists c. split_and!; [done..|]. apply map_eq. intros o. by rewrite lookup_apply_batch. }
  apply list.NoDup_cons in Hnd as [Hni Hnd]. simpl in Hni. apply not_elem_of_list_to_map in Hni.
  destruct (BatchWrite_step_ok c o e Hc) as (c1 & -> & Hc1 & Ha1).
  { intros. eapply Hok; [|done..]. by rewrite list_to_map_cons, lookup_insert_eq. }
  cbn. destruct (IH c1 Hc1 Hnd) as (c' & Hl & Hc' & Ha').
  - intros o' e' Hl' Hd' Hf'. rewrite Ha1. assert (o <> o') as Hne by congruence.
    assert (cache_abs c !! o' = None) as Hn.
    { eapply Hok; [|done..]. by rewrite list_to_map_cons, lookup_insert_ne. }
    destruct (has_flag DIRTY e); [|done]. by rewrite lookup_partial_alter_ne.
  - exists c'. split_and!; [done..|]. rewrite Ha', Ha1. symmetry. by apply apply_batch_insert.
Qed.

Lemma BatchWrite_ok c m h :
  cache_inv c -> batch_ok m (cache_abs c) -> uint256_IsNull h = false ->
  exists c', BatchWrite m h c = Ok (true, c') /\ cache_inv c' /\
    cache_abs c' = apply_batch m (cache_abs c) /\ cache_best c' = h.
Proof.
  intros Hc Hm Hh. unfold BatchWrite.
  destruct (BatchWrite_loop_ok (map_to_list m) c Hc) as (c1 & -> & Hc1 & Ha1).
  - apply NoDup_fst_map_to_list.
  - by rewrite list_to_map_to_list.
  - rewrite list_to_map_to_list in Ha1. cbn. eexists. split; [done|].
    destruct (SetBestBlock_ok c1 h Hc1 Hh) as (? & -> & ?). done.
Qed.

(** The entries of a cache are a legal batch for its base, and applying them
    gives the view of the cache. *)
Lemma cache_batch_ok c : cache_inv c -> batch_ok (cacheCash c) (view_abs (base c)).
Proof. intros Hc o e He _ Hf. by apply (ci_entries c Hc o e He). Qed.

Lemma apply_batch_overlay c :
  cache_inv c -> apply_batch (cacheCash c) (view_abs (base c)) = cache_abs c.
Proof.
  intros Hc. apply map_eq. intros o. unfold cache_abs. rewrite lookup_apply_batch, lookup_overlay.
  destruct (cacheCash c !! o) as [e|] eqn:He; [|done]. destruct (has_flag DIRTY e) eqn:Hd; [done|].
  destruct (ci_entries c Hc o e He) as [Hcl _]. by rewrite Hcl.
Qed.

Lemma Flush_ok c :
  cache_inv c -> uint256_IsNull (hashBlock c) = false ->
  exists c', Flush c = Ok (true, c') /\ same_view c c' /\ cacheCash c' = ∅ /\ cachedCashUsage c' = 0 /\
    view_inv (base c') /\ view_abs (base c') = cache_abs c /\ view_best (base c') = cache_best c.
Proof.
  intros Hc Hh. unfold Flush.
  destruct (view_BatchWrite_ok (base c) (cacheCash c) (hashBlock c)) as (b & -> & Hb & Ha & Hbest);
    [apply Hc|by apply cache_batch_ok|done|].
  rewrite apply_batch_overlay in Ha by done. cbn. eexists. split; [done|]. cbn.
  unfold same_view, cache_best. cbn. rewrite Hh. split_and!; try done.
  rewrite <- Ha. apply map_eq. intros o. unfold cache_abs. by rewrite lookup_overlay, lookup_empty.
Qed.
(** ** Transactions *)

Lemma same_view_refl c : cache_inv c -> same_view c c.
Proof. intros Hc. unfold same_view. by split_and!. Qed.

Lemma same_view_trans c1 c2 c3 : same_view c1 c2 -> same_view c2 c3 -> same_view c1 c3.
Proof. intros (? & E1 & B1) (? & E2 & B2). unfold same_view. by rewrite E2, B2. Qed.

Lemma HaveInputs_loop_ok v : forall c, cache_inv c ->
  let '(b, c') := HaveInputs_loop v c in
  (b = true <-> Forall (fun i => is_Some (cache_abs c !! prevout i)) v) /\ same_view c c'.
Proof.
  induction v as [|i v IH]; intros c Hc; cbn [HaveInputs_loop]; [split; [split; [constructor|done]|by apply same_view_refl]|].
  pose proof (HaveCash_ok c (prevout i) Hc) as Hh. destruct (HaveCash (prevout i) c) as [b c1]. destruct Hh as [-> Hs].
  case_bool_decide as Hi.
  - specialize (IH c1 (proj1 Hs)). destruct (HaveInputs_loop v c1) as [b c2]. destruct IH as [IH Hs2].
    pose proof Hs as (_ & Ha & _). rewrite Ha in IH. split; [|by eapply same_view_trans]. rewrite IH.
    split; [by constructor|]. by intros [_ ?]%Forall_cons_1.
  - split; [|done]. split; [done|]. by intros [? _]%Forall_cons_1.
Qed.

Lemma HaveInputs_ok tx c : cache_inv c ->
  let '(b, c') := HaveInputs tx c in
  (b = true <-> IsCashBase tx = true \/ Forall (fun i => is_Some (cache_abs c !! prevout i)) (vin tx)) /\ same_view c c'.
Proof.
  intros Hc. unfold HaveInputs. destruct (IsCashBase tx); [split; [tauto|by apply same_view_refl]|].
  pose proof (HaveInputs_loop_ok (vin tx) c Hc) as Hh. destruct (HaveInputs_loop (vin tx) c) as [b c'].
  destruct Hh as [Hh Hs]. split; [|done]. rewrite Hh. split; [by right|by intros [?|?]].
Qed.

(** The outputs a transaction adds to a set: those from index [i] on that are not provably unspendable. *)
Fixpoint add_outputs (txid : uint256) (i : Z) (vout : list CTxOut) (nHeight : Z) (cashbase : bool) (u : utxo) : utxo :=
  match vout with
  | [] => u
  | txout :: vout =>
      let u := if IsUnspendable (scriptPubKey txout) then u
               else <[mkCOutPoint txid i := Cash_ctor txout nHeight cashbase]> u in
      add_outputs txid (i + 1) vout nHeight cashbase u
  end.

Lemma add_outputs_other txid vout h cb : forall i u o,
  (forall k, i <= k < i + zlen vout -> o <> mkCOutPoint txid k) -> add_outputs txid i vout h cb u !! o = u !! o.
Proof.
  induction vout as [|x vout IH]; intros i u o Ho; [done|]. cbn [add_outputs]. rewrite zlen_cons in Ho. pose proof (zlen_nonneg vout).
  rewrite IH by (intros k Hk; apply Ho; lia). destruct (IsUnspendable _); [done|].
  rewrite lookup_insert_ne; [done|]. intros E. apply (Ho i); [lia|done].
Qed.

Lemma AddCash_loop_ok txid vout h cb check : forall i c,
  cache_inv c -> Forall (fun x => CTxOut_IsNull x = false) vout ->
  (cb = false -> check = false -> forall k, i <= k < i + zlen vout -> cache_abs c !! mkCOutPoint txid k = None) ->
  exists c', AddCash_loop txid i vout h cb check c = Ok c' /\ cache_inv c' /\
    cache_abs c' = add_outputs txid i vout h cb (cache_abs c) /\ cache_best c' = cache_best c.
Proof.
  induction vout as [|x vout IH]; intros i c Hc Hn Ho; cbn [AddCash_loop]; [by exists c|].
  apply Forall_cons_1 in Hn as [Hx Hn]. rewrite zlen_cons in Ho. pose proof (zlen_nonneg vout).
  pose proof (HaveCash_ok c (mkCOutPoint txid i) Hc) as Hh. destruct (HaveCash (mkCOutPoint txid i) c) as [b c1] eqn:E.
  destruct Hh as [Hb Hs]. set (over := if check then b else cb). set (c0 := if check then c1 else c).
  assert (Hv : same_view c c0) by (subst c0; destruct check; [done|by apply same_view_refl]).
  replace (if check then (b, c1) else (cb, c)) with (over, c0) by (by subst over c0; destruct check).
  destruct Hv as (Hc0 & Ha0 & Hb0).
  destruct (AddCash_ok c0 (mkCOutPoint txid i) (Cash_ctor x h cb) over Hc0) as (c2 & -> & Hc2 & Ha2 & Hb2); [done| |].
  { rewrite Ha0. subst over. destruct check.
    - intros ->. destruct (cache_abs c !! mkCOutPoint txid i); [|done]. symmetry in Hb. by apply bool_decide_eq_false in Hb as [].
    - intros ->. apply Ho; [done..|lia]. }
  cbn [mbind result_bind]. cbn [out Cash_ctor] in Ha2. rewrite Ha0 in Ha2.
  destruct (IH (i + 1) c2 Hc2 Hn) as (c3 & Hc3 & Hi3 & Ha3 & Hb3).
  { intros Hcb Hck k Hk. rewrite Ha2. destruct (IsUnspendable _); [apply Ho; [done..|lia]|].
    rewrite lookup_insert_ne by (intros [= ?]; lia). apply Ho; [done..|lia]. }
  exists c3. rewrite Hc3. split_and!; [done..| |congruence]. rewrite Ha3, Ha2. done.
Qed.

End CacheLemmas.

(** ** The cache over a lawful view is a lawful view *)
#[export] Instance CCashViewCache_ok {S : Type} `{!CashView S} `{!CashViewOk S} `{!ScriptMemory}
    `{!ScriptMemoryOk} : CashViewOk (CCashViewCache S) := {
  view_inv := cache_inv;
  view_abs := cache_abs;
  view_best := cache_best;
  view_abs_unspent := cache_abs_unspent;
  view_GetCash_ok := GetCash_ok;
  view_GetBestBlock_ok := GetBestBlock_ok;
  view_BatchWrite_ok := BatchWrite_ok;
}.

(** ** A map of unspent outputs is a lawful view *)
Record MapView := mkMapView { mv_map : utxo; mv_best : uint256 }.

#[export] Instance MapView_view : CashView MapView := {
  view_GetCash o s := (mv_map s !! o, s);
  view_GetBestBlock s := (mv_best s, s);
  view_BatchWrite m h s := Ok (true, mkMapView (apply_batch m (mv_map s)) h);
}.

Definition map_view_inv (s : MapView) : Prop := map_Forall (fun _ cash => IsSpent cash = false) (mv_map s).

#[export] Program Instance MapView_ok : CashViewOk MapView := {
  view_inv := map_view_inv;
  view_abs := mv_map;
  view_best := mv_best;
}.
Next Obligation. intros s o c Hs Ho. exact (Hs o c Ho). Qed.
Next Obligation. by intros s o Hs. Qed.
Next Obligation. by intros s Hs. Qed.
Next Obligation.
  intros s m h Hs _ _. eexists. split_and!; [done| |done|done]. intros o c. cbn [mv_map]. rewrite lookup_apply_batch.
  destruct (m !! o) as [e|]; [|apply Hs]. destruct (has_flag DIRTY e); [by intros [_ ?]%unspent_Some|apply Hs].
Qed.

(** Scripts that take no memory of their own, for examples. *)
Definition no_script_memory : ScriptMemory := fun _ => 0.

Lemma no_script_memory_ok : @ScriptMemoryOk no_script_memory.
Proof. reflexivity. Qed.
