(* ===== verification/TxDb.v ===== *)
(** * The database of unspent outputs (txdb.cpp, class CCashViewDB)

    LevelDB, behind CDBWrapper, is a store in which a batch of writes is applied
    atomically. Of its contents the model keeps what the view reads and writes:
    the outputs, the best block and the head blocks of an interrupted write. *)
From S2P Require Import Prelude Serialize Amount Script Transaction Cash.

(** ** Keys: [struct CashEntry] *)
Definition DB_CASH : Z := 99.

Definition CashEntry_codec : codec COutPoint :=
  map_codec (fun o => (DB_CASH, (op_hash o, op_n o))) (fun '(_, (h, n)) => mkCOutPoint h n)
    (pair_codec uint8_codec (pair_codec uint256_codec (varint_codec uint32_t))).

(** ** The store and its batches *)
Record CCashViewDB := mkDB {
  db_cash : utxo;
  db_best : option uint256;
  db_heads : option (list uint256);
}.

Inductive DbOp :=
  | EraseBest
  | WriteBest (h : uint256)
  | EraseHeads
  | WriteHeads (l : list uint256)
  | EraseCash (o : COutPoint)
  | WriteCash (o : COutPoint) (c : Cash).

Definition db_apply (op : DbOp) (db : CCashViewDB) : CCashViewDB :=
  match op with
  | EraseBest => mkDB (db_cash db) None (db_heads db)
  | WriteBest h => mkDB (db_cash db) (Some h) (db_heads db)
  | EraseHeads => mkDB (db_cash db) (db_best db) None
  | WriteHeads l => mkDB (db_cash db) (db_best db) (Some l)
  | EraseCash o => mkDB (delete o (db_cash db)) (db_best db) (db_heads db)
  | WriteCash o c => mkDB (<[o := c]> (db_cash db)) (db_best db) (db_heads db)
  end.

(** [db.WriteBatch(batch)]. *)
Definition WriteBatch (batch : list DbOp) (db : CCashViewDB) : CCashViewDB :=
  foldl (fun db op => db_apply op db) db batch.

Definition db_GetCash (o : COutPoint) (db : CCashViewDB) : option Cash := db_cash db !! o.
Definition db_HaveCash (o : COutPoint) (db : CCashViewDB) : bool := bool_decide (is_Some (db_cash db !! o)).
Definition db_GetBestBlock (db : CCashViewDB) : uint256 := default uint256_null (db_best db).
Definition db_GetHeadBlocks (db : CCashViewDB) : list uint256 := default [] (db_heads db).

Section BatchWrite.

(** [over k]: the estimated size of the batch exceeds the limit after the
    entry number [k], so that a partial batch is written there. *)
Context (over : nat -> bool).

(** The writes for one entry of the cache. *)
Definition entry_ops (o : COutPoint) (e : CCashCacheEntry) : list DbOp :=
  if has_flag DIRTY e then
    if IsSpent (e_cash e) then [EraseCash o] else [WriteCash o (e_cash e)]
  else [].

(** The loop: the batches already written and the one being filled. *)
Fixpoint db_batches (k : nat) (batch : list DbOp) (l : list (COutPoint * CCashCacheEntry))
    : list (list DbOp) * list DbOp :=
  match l with
  | [] => ([], batch)
  | (o, e) :: l =>
      let batch := batch ++ entry_ops o e in
      if over k then
        let '(written, last) := db_batches (S k) [] l in (batch :: written, last)
      else db_batches (S k) batch l
  end.

Definition old_tip (hashBlock : uint256) (db : CCashViewDB) : result uint256 :=
  let tip := db_GetBestBlock db in
  if uint256_IsNull tip then
    match db_GetHeadBlocks db with
    | [h0; h1] => assert_then (bool_decide (h0 = hashBlock)) "old_heads[0] == hashBlock" (Ok h1)
    | _ => Ok tip
    end
  else Ok tip.

(** All the batches [BatchWrite] hands to LevelDB, in order. *)
Definition db_all_batches (l : list (COutPoint * CCashCacheEntry)) (hashBlock : uint256)
    (db : CCashViewDB) : result (list (list DbOp)) :=
  assert_then (negb (uint256_IsNull hashBlock)) "!hashBlock.IsNull()"
    (tip ← old_tip hashBlock db;
     let '(written, last) := db_batches 0 [EraseBest; WriteHeads [hashBlock; tip]] l in
     mret (written ++ [last ++ [EraseHeads; WriteBest hashBlock]])).

Definition db_BatchWrite (mapCash : CCashMap) (hashBlock : uint256) (db : CCashViewDB)
    : result (bool * CCashViewDB) :=
  batches ← db_all_batches (map_to_list mapCash) hashBlock db;
  mret (true, foldl (fun db b => WriteBatch b db) db batches).

#[export] Instance CCashViewDB_view : CashView CCashViewDB := {
  view_GetCash o db := (db_GetCash o db, db);
  view_GetBestBlock db := (db_GetBestBlock db, db);
  view_BatchWrite := db_BatchWrite;
}.
End BatchWrite.

(** * Lemmas *)

#[export] Instance CashEntry_codec_ok : CodecOk CashEntry_codec outpoint_ok.
Proof.
  eapply map_codec_ok.
  - apply pair_codec_ok; [apply _|]. apply pair_codec_ok; [apply _|]. apply varint_codec_ok, uint32_t_ok.
  - intros [h n] [[Hl Hh] Hn]. simpl in *. unfold is_u32 in Hn. repeat split; try done; unfold DB_CASH, UINT32_MAX in *; simpl; lia.
Qed.

(** The store between two writes: every output is unspent, and either the best
    block is known or the heads are those of an interrupted write. *)
Record db_inv (db : CCashViewDB) : Prop := {
  db_unspent o c : db_cash db !! o = Some c -> IsSpent c = false;
  db_best_heads : is_Some (db_best db) -> db_heads db = None;
  db_best_null h : db_best db = Some h -> uint256_IsNull h = false;
}.

Section DbLemmas.
Context (over : nat -> bool).

Definition ops_of (l : list (COutPoint * CCashCacheEntry)) : list DbOp :=
  concat (map (fun '(o, e) => entry_ops o e) l).

(** Where the batch is cut does not matter for what is written. *)
Lemma db_batches_concat k batch l :
  let '(written, last) := db_batches over k batch l in concat written ++ last = batch ++ ops_of l.
Proof.
  revert k batch; induction l as [|[o e] l IH]; intros k batch; cbn [db_batches].
  { by rewrite app_nil_r. }
  unfold ops_of. cbn [map concat]. fold (ops_of l). rewrite app_assoc. destruct (over k).
  - specialize (IH (S k) []). destruct (db_batches over (S k) [] l) as [w la].
    cbn [concat]. by rewrite <- app_assoc, IH.
  - apply IH.
Qed.

Lemma foldl_WriteBatch l db :
  foldl (fun db b => WriteBatch b db) db l = WriteBatch (concat l) db.
Proof.
  unfold WriteBatch. revert db; induction l as [|b l IH]; intros db; [done|].
  cbn [foldl concat]. by rewrite foldl_app, IH.
Qed.

Lemma WriteBatch_app a b db : WriteBatch (a ++ b) db = WriteBatch b (WriteBatch a db).
Proof. unfold WriteBatch. by rewrite foldl_app. Qed.

Lemma WriteBatch_ops l db :
  NoDup l.*1 ->
  WriteBatch (ops_of l) db = mkDB (apply_batch (list_to_map l) (db_cash db)) (db_best db) (db_heads db).
Proof.
  revert db; induction l as [|[o e] l IH]; intros db Hnd.
  { destruct db as [u b h]. cbn. f_equal. apply map_eq. intros o. by rewrite lookup_apply_batch. }
  apply list.NoDup_cons in Hnd as [Hni Hnd]. simpl in Hni. apply not_elem_of_list_to_map in Hni.
  unfold ops_of. cbn [map concat]. fold (ops_of l). rewrite WriteBatch_app, IH by done.
  rewrite list_to_map_cons, apply_batch_insert by done.
  unfold entry_ops, unspent. destruct (has_flag DIRTY e); [destruct (IsSpent (e_cash e))|]; by cbn.
Qed.

Lemma old_tip_ok h db : db_inv db -> is_Some (db_best db) -> old_tip h db = Ok (db_GetBestBlock db).
Proof.
  intros Hdb [b Hb]. unfold old_tip, db_GetBestBlock. rewrite Hb. cbn. by rewrite (db_best_null db Hdb b).
Qed.

(** A complete write applies the batch and moves the best block. *)
Lemma db_BatchWrite_complete db m h :
  uint256_IsNull h = false -> (exists tip, old_tip h db = Ok tip) ->
  db_BatchWrite over m h db = Ok (true, mkDB (apply_batch m (db_cash db)) (Some h) None).
Proof.
  intros Hh [tip Htip]. unfold db_BatchWrite, db_all_batches, assert_then. rewrite Hh. cbn [negb].
  rewrite Htip. cbn. pose proof (db_batches_concat 0 [EraseBest; WriteHeads [h; tip]] (map_to_list m)) as Hb.
  destruct (db_batches over 0 _ (map_to_list m)) as [w la]. cbn. do 2 f_equal.
  rewrite foldl_WriteBatch, concat_app. cbn [concat]. rewrite app_nil_r, app_assoc, Hb, !WriteBatch_app.
  rewrite WriteBatch_ops by apply NoDup_fst_map_to_list. by rewrite list_to_map_to_list.
Qed.

Lemma apply_batch_unspent m u o c :
  (forall o c, u !! o = Some c -> IsSpent c = false) -> apply_batch m u !! o = Some c -> IsSpent c = false.
Proof.
  intros Hu. rewrite lookup_apply_batch. destruct (m !! o) as [e|]; [|apply Hu].
  destruct (has_flag DIRTY e); [|apply Hu]. by intros [_ ?]%unspent_Some.
Qed.

(** The database in a consistent state is a lawful view. *)
#[export] Program Instance CCashViewDB_ok : @CashViewOk CCashViewDB (CCashViewDB_view over) := {
  view_inv db := db_inv db /\ is_Some (db_best db);
  view_abs := db_cash;
  view_best := db_GetBestBlock;
}.
Next Obligation. intros s o c [Hs _]. apply Hs. Qed.
Next Obligation. intros s o Hs. cbn. done. Qed.
Next Obligation. intros s Hs. cbn. done. Qed.
Next Obligation.
  intros s m h [Hs Hb] Hm Hh. exists (mkDB (apply_batch m (db_cash s)) (Some h) None). split_and!; try done.
  - cbn. rewrite db_BatchWrite_complete; [done..|]. eexists. by apply old_tip_ok.
  - constructor; cbn; [|done|by intros ? [= <-]]. intros o c. apply apply_batch_unspent, Hs.
Qed.

(** ** Interrupted writes *)

Lemma db_batches_first k batch l b w la :
  db_batches over k batch l = (b :: w, la) -> batch `prefix_of` b.
Proof.
  revert k batch; induction l as [|[o e] l IH]; intros k batch; cbn [db_batches]; [done|].
  destruct (over k).
  - destruct (db_batches over (S k) [] l) as [w' la']. intros [= <- _ _]. by apply prefix_app_r.
  - intros Hp%IH. etransitivity; [|done]. by apply prefix_app_r.
Qed.

(** A prefix of the writes is the writes of a prefix of the entries. *)
Lemma ops_of_prefix l p : p `prefix_of` ops_of l -> exists l1 l2, l = l1 ++ l2 /\ p = ops_of l1.
Proof.
  revert p; induction l as [|[o e] l IH]; intros p Hp.
  { apply prefix_nil_inv in Hp as ->. by exists [], []. }
  unfold ops_of in Hp. cbn [map concat] in Hp. fold (ops_of l) in Hp.
  destruct p as [|x p]; [by exists [], ((o, e) :: l)|].
  assert (exists q, x :: p = entry_ops o e ++ q /\ q `prefix_of` ops_of l) as (q & -> & Hq).
  { revert Hp. unfold entry_ops. destruct (has_flag DIRTY e); [destruct (IsSpent (e_cash e))|]; cbn;
      intros Hp; [apply prefix_cons_inv_1 in Hp as Hx; apply prefix_cons_inv_2 in Hp; by exists p; subst x..|].
    by exists (x :: p). }
  apply IH in Hq as (l1 & l2 & -> & ->). by exists ((o, e) :: l1), l2.
Qed.

(** The state an interrupted write can leave: a part [l1] of the entries written,
    no best block, and the heads of the transition. *)
Definition partial_write (h tip : uint256) (db : CCashViewDB) (l1 : list (COutPoint * CCashCacheEntry))
    : CCashViewDB :=
  mkDB (apply_batch (list_to_map l1) (db_cash db)) None (Some [h; tip]).

Lemma db_prefix_state db l h tip j batches :
  NoDup l.*1 -> old_tip h db = Ok tip -> db_all_batches over l h db = Ok batches ->
  (0 < j < length batches)%nat ->
  exists l1 l2, l = l1 ++ l2 /\
    foldl (fun db b => WriteBatch b db) db (take j batches) = partial_write h tip db l1.
Proof.
  intros Hnd Htip Hall Hj. unfold db_all_batches, assert_then in Hall.
  destruct (uint256_IsNull h); cbn [negb] in Hall; [done|]. rewrite Htip in Hall. cbn in Hall.
  set (hd := [EraseBest; WriteHeads [h; tip]]) in *.
  pose proof (db_batches_concat 0 hd l) as Hc. pose proof (db_batches_first 0 hd l) as Hf.
  destruct (db_batches over 0 hd l) as [w la]. injection Hall as <-. rewrite length_app in Hj. simpl in Hj.
  rewrite foldl_WriteBatch, take_app_le by lia.
  assert (hd `prefix_of` concat (take j w)) as [p Hp].
  { destruct w as [|b w]; [simpl in Hj; lia|]. destruct j as [|j]; [lia|]. cbn [take concat].
    apply prefix_app_r. by eapply Hf. }
  assert (p `prefix_of` ops_of l) as (l1 & l2 & -> & ->)%ops_of_prefix.
  { apply (prefix_app_inv hd). rewrite <- Hp, <- Hc. apply prefix_app_r.
    exists (concat (drop j w)). by rewrite <- concat_app, take_drop. }
  exists l1, l2. split; [done|]. rewrite Hp, WriteBatch_app. rewrite WriteBatch_ops; [done|].
  rewrite fmap_app in Hnd. by apply list.NoDup_app in Hnd as [? _].
Qed.

(** Applying a batch after a part of it is applying it. *)
Lemma apply_batch_partial l1 l2 (u : utxo) :
  NoDup (l1 ++ l2).*1 ->
  apply_batch (list_to_map (l1 ++ l2)) (apply_batch (list_to_map l1) u) = apply_batch (list_to_map (l1 ++ l2)) u.
Proof.
  intros Hnd. apply map_eq. intros o. rewrite !lookup_apply_batch.
  destruct (list_to_map l1 !! o) as [e|] eqn:He; [|done].
  apply elem_of_list_to_map_2 in He.
  assert (list_to_map (l1 ++ l2) !! o = Some e) as ->.
  { apply elem_of_list_to_map_1; [done|]. apply elem_of_app. by left. }
  by destruct (has_flag DIRTY e).
Qed.

(** After a part of a batch, every output is as before or as after the batch. *)
Lemma apply_batch_mix m l1 l2 (u : utxo) o : map_to_list m = l1 ++ l2 ->
  apply_batch (list_to_map l1) u !! o = u !! o \/ apply_batch (list_to_map l1) u !! o = apply_batch m u !! o.
Proof.
  intros Hl. pose proof (NoDup_fst_map_to_list m) as Hnd. rewrite <- (list_to_map_to_list m). rewrite !lookup_apply_batch.
  destruct (list_to_map l1 !! o) as [e|] eqn:He; [|by left].
  rewrite Hl. rewrite Hl in Hnd. apply elem_of_list_to_map_2 in He.
  right. rewrite (elem_of_list_to_map_1 (M := gmap COutPoint) (l1 ++ l2) o e); [done..|].
  apply elem_of_app. by left.
Qed.
End DbLemmas.

(** A write of the database is atomic up to replay: after any number of the
    partial batches (an interruption anywhere), the outputs are a mix of the old
    and the new versions, the best block is unknown and the head blocks name the
    transition; writing the same entries for the same block again, cut into
    batches in any way, ends in the state of the uninterrupted write. *)
Theorem db_crash_recovery over over' m h db batches j :
  db_inv db -> is_Some (db_best db) -> uint256_IsNull h = false ->
  db_all_batches over (map_to_list m) h db = Ok batches -> (0 < j < length batches)%nat ->
  let crashed := foldl (fun db b => WriteBatch b db) db (take j batches) in
  db_GetBestBlock crashed = uint256_null /\
  db_GetHeadBlocks crashed = [h; db_GetBestBlock db] /\
  (forall o, db_cash crashed !! o = db_cash db !! o \/
             db_cash crashed !! o = apply_batch m (db_cash db) !! o) /\
  db_BatchWrite over' m h crashed = Ok (true, mkDB (apply_batch m (db_cash db)) (Some h) None).
Proof.
  intros Hdb Hb Hh Hall Hj crashed. pose proof (NoDup_fst_map_to_list m) as Hnd.
  pose proof (old_tip_ok h db Hdb Hb) as Htip.
  destruct (db_prefix_state over db _ h _ j batches Hnd Htip Hall Hj) as (l1 & l2 & Hl & Hc).
  fold crashed in Hc. rewrite Hc. split_and!; [done..| |].
  - intros o. by apply (apply_batch_mix m l1 l2).
  - rewrite db_BatchWrite_complete; [|done|].
    + cbn. do 3 f_equal. rewrite <- (list_to_map_to_list m), Hl. apply apply_batch_partial. by rewrite <- Hl.
    + exists (db_GetBestBlock db). unfold old_tip, partial_write, assert_then. cbn.
      by rewrite bool_decide_true.
Qed.

(** A database without outputs at a block, for the examples. *)
Definition example_db : CCashViewDB := mkDB ∅ (Some (repeat 1 32)) None.

Lemma example_db_inv : db_inv example_db.
Proof. constructor; cbn; [intros o c; by rewrite lookup_empty|done|by intros h [= <-]]. Qed.

Definition example_outpoint : COutPoint := mkCOutPoint (repeat 7 32) 0.
Definition example_cash : Cash := mkCash (mkCTxOut (5 * CASH) [OP_1]) false 10.

Lemma db_crash_recovery_witness :
  let m : CCashMap := {[ example_outpoint := mkEntry example_cash DIRTY ]} in
  let h := repeat 2 32 in
  exists batches, db_all_batches (fun _ => true) (map_to_list m) h example_db = Ok batches /\
    db_BatchWrite (fun _ => false) m h
      (foldl (fun db b => WriteBatch b db) example_db (take 1 batches)) =
      Ok (true, mkDB (apply_batch m ∅) (Some h) None).
Proof.
  intros m h. unfold m. rewrite map_to_list_singleton. eexists. split; [reflexivity|].
  refine (proj2 (proj2 (proj2 (db_crash_recovery (fun _ => true) (fun _ => false)
    {[ example_outpoint := mkEntry example_cash DIRTY ]} h example_db _ 1 example_db_inv _ _ _ _)))).
  - by eexists.
  - reflexivity.
  - by rewrite map_to_list_singleton.
  - simpl. lia.
Defined.
