(* ===== verification/CashRefinement.v ===== *)
(** * Caches refine a map of unspent outputs

    Sequences of operations on a CCashViewCache, over any lawful base, against
    the same sequence on a finite map. *)
From S2P Require Import Prelude Serialize Amount Script Transaction Cash TxDb.

(** ** Operations and what a caller observes of them *)
Inductive CacheOp :=
  | OpGet (o : COutPoint)
  | OpHave (o : COutPoint)
  | OpAdd (o : COutPoint) (cash : Cash) (possible_overwrite : bool)
  | OpSpend (o : COutPoint)
  | OpUncache (o : COutPoint)
  | OpSetBest (h : uint256)
  | OpBest
  | OpFlush.

Inductive Obs :=
  | ObsCash (r : option Cash)
  | ObsBool (b : bool)
  | ObsHash (h : uint256)
  | ObsDone.

Section Refinement.
Context {S : Type} `{!CashView S} `{!CashViewOk S} `{!ScriptMemory} `{!ScriptMemoryOk}.

(** Running an operation. What [SpendCash] returns is [None] for false, and the
    output that is moved out otherwise. *)
Definition cache_op (op : CacheOp) (c : CCashViewCache S) : result (Obs * CCashViewCache S) :=
  match op with
  | OpGet o => let '(r, c) := GetCash o c in Ok (ObsCash r, c)
  | OpHave o => let '(b, c) := HaveCash o c in Ok (ObsBool b, c)
  | OpAdd o cash po => c ← AddCash o cash po c; mret (ObsDone, c)
  | OpSpend o => let '(r, c) := SpendCash o c in Ok (ObsCash r, c)
  | OpUncache o => Ok (ObsDone, Uncache o c)
  | OpSetBest h => Ok (ObsDone, SetBestBlock h c)
  | OpBest => let '(h, c) := GetBestBlock c in Ok (ObsHash h, c)
  | OpFlush => '(b, c) ← Flush c; mret (ObsBool b, c)
  end.

Fixpoint cache_ops (ops : list CacheOp) (c : CCashViewCache S) : result (list Obs * CCashViewCache S) :=
  match ops with
  | [] => Ok ([], c)
  | op :: ops =>
      '(x, c) ← cache_op op c;
      '(xs, c) ← cache_ops ops c;
      mret (x :: xs, c)
  end.

(** ** The specification: a map and a best block *)
Definition spec_op (op : CacheOp) (u : utxo) (h : uint256) : utxo * uint256 :=
  match op with
  | OpAdd o cash po => (if IsUnspendable (scriptPubKey (out cash)) then u else <[o := cash]> u, h)
  | OpSpend o => (delete o u, h)
  | OpSetBest h' => (u, h')
  | OpGet _ | OpHave _ | OpUncache _ | OpBest | OpFlush => (u, h)
  end.

(** What an operation may return. Only spending an output that is not in the map
    leaves a choice: the cache returns false, or, when it holds the output as
    spent, true with that spent output. *)
Definition spec_returns (op : CacheOp) (u : utxo) (h : uint256) (x : Obs) : Prop :=
  match op with
  | OpGet o => x = ObsCash (u !! o)
  | OpHave o => x = ObsBool (bool_decide (is_Some (u !! o)))
  | OpSpend o =>
      match u !! o with
      | Some cash => x = ObsCash (Some cash)
      | None => x = ObsCash None \/ exists cash, x = ObsCash (Some cash) /\ IsSpent cash = true
      end
  | OpAdd _ _ _ | OpUncache _ | OpSetBest _ => x = ObsDone
  | OpBest => x = ObsHash h
  | OpFlush => x = ObsBool true
  end.

(** A sequence of operations from one map to another, with what each returns. *)
Fixpoint spec_ops (ops : list CacheOp) (u : utxo) (h : uint256) (xs : list Obs) (u' : utxo) (h' : uint256) : Prop :=
  match ops with
  | [] => xs = [] /\ u' = u /\ h' = h
  | op :: ops =>
      exists x xs', xs = x :: xs' /\ spec_returns op u h x /\
        let '(u, h) := spec_op op u h in spec_ops ops u h xs' u' h'
  end.

(** What callers must respect: an output that is added is not spent, and without
    [possible_overwrite] it is new; a best block is not null. *)
Definition op_legal (op : CacheOp) (u : utxo) : Prop :=
  match op with
  | OpAdd o cash po => IsSpent cash = false /\ (po = false -> u !! o = None)
  | OpSetBest h => uint256_IsNull h = false
  | _ => True
  end.

Fixpoint ops_legal (ops : list CacheOp) (u : utxo) (h : uint256) : Prop :=
  match ops with
  | [] => True
  | op :: ops => op_legal op u /\ let '(u, h) := spec_op op u h in ops_legal ops u h
  end.

(** A cache whose best block has been set. *)
Definition cache_ready (c : CCashViewCache S) : Prop := cache_inv c /\ uint256_IsNull (hashBlock c) = false.

Lemma FetchCash_hashBlock o (c : CCashViewCache S) : hashBlock (snd (FetchCash o c)) = hashBlock c.
Proof.
  unfold FetchCash. destruct (cacheCash c !! o); [done|].
  by destruct (view_GetCash o (base c)) as [[?|] ?].
Qed.

Lemma cache_ready_best c : cache_ready c -> cache_best c = hashBlock c.
Proof. intros [_ Hh]. unfold cache_best. by rewrite Hh. Qed.

Lemma SpendCash_hashBlock o (c : CCashViewCache S) : hashBlock (snd (SpendCash o c)) = hashBlock c.
Proof.
  pose proof (FetchCash_hashBlock o c) as Hhb. unfold SpendCash. destruct (FetchCash o c) as [[it|] c']; cbn in *; [|done].
  by destruct (has_flag FRESH it).
Qed.

(** What is moved out, when it is not spent, is the output in the map. *)
Lemma spend_returned (u : utxo) o (r : option Cash) h : r ≫= unspent = u !! o -> spec_returns (OpSpend o) u h (ObsCash r).
Proof.
  intros Hr. cbn [spec_returns]. rewrite <- Hr. destruct r as [cash|]; cbn; [|by left]. unfold unspent.
  destruct (IsSpent cash) eqn:Es; [right; by exists cash|done].
Qed.

Lemma cache_op_refines op c :
  cache_ready c -> op_legal op (cache_abs c) ->
  exists x c', cache_op op c = Ok (x, c') /\ spec_returns op (cache_abs c) (cache_best c) x /\ cache_ready c' /\
    spec_op op (cache_abs c) (cache_best c) = (cache_abs c', cache_best c').
Proof.
  intros [Hc Hh] Hlegal. destruct op as [o|o|o cash po|o|o|h| |]; cbn [cache_op spec_op spec_returns fst snd].
  - pose proof (GetCash_ok c o Hc) as Hg. pose proof (FetchCash_hashBlock o c) as Hhb.
    unfold GetCash in *. destruct (FetchCash o c) as [[it|] c']; destruct Hg as (Hr & Hc' & Ha & Hb);
      rewrite Hr; eexists _, c'; cbn in Hhb; rewrite Ha, Hb; split_and!; (done || (split; [done|by rewrite Hhb])).
  - pose proof (HaveCash_ok c o Hc) as Hg. pose proof (FetchCash_hashBlock o c) as Hhb.
    unfold HaveCash in *. destruct (FetchCash o c) as [[it|] c']; destruct Hg as (Hr & Hc' & Ha & Hb);
      rewrite Hr; eexists _, c'; cbn in Hhb; rewrite Ha, Hb; split_and!; (done || (split; [done|by rewrite Hhb])).
  - destruct Hlegal as [Hs Hpo]. destruct (AddCash_ok c o cash po Hc Hs Hpo) as (c' & Hadd & Hc' & Ha & Hb).
    rewrite Hadd. eexists _, c'. rewrite Ha, Hb. split_and!; try done. split; [done|].
    revert Hadd. unfold AddCash, assert_then. rewrite Hs. cbn [negb].
    destruct (IsUnspendable _); [by intros [= <-]|]. destruct (cacheCash c !! o); cbn;
      destruct (negb po && _); by intros [= <-].
  - pose proof (SpendCash_ok c o Hc) as Hg. pose proof (SpendCash_hashBlock o c) as Hhb.
    destruct (SpendCash o c) as [r c']. destruct Hg as (Hc' & Ha & Hb & Hr). cbn in Hhb.
    eexists _, c'. rewrite Ha, Hb. split_and!; [done|by apply (spend_returned _ _ _ (cache_best c))|split; [done|by rewrite Hhb]|done].
  - destruct (Uncache_ok c o Hc) as (Hc' & Ha & Hb). eexists _, (Uncache o c). rewrite Ha, Hb. split_and!; try done.
    split; [done|]. unfold Uncache. destruct (cacheCash c !! o) as [it|]; [|done]. by destruct (e_flags it =? 0).
  - destruct (SetBestBlock_ok c h Hc Hlegal) as (Hc' & Ha & Hb). eexists _, (SetBestBlock h c). rewrite Ha, Hb. by split_and!.
  - pose proof (GetBestBlock_ok c Hc) as Hg. unfold GetBestBlock in *. rewrite Hh in *.
    destruct Hg as (-> & Hc' & Ha & Hb). eexists _, c. by split_and!.
  - destruct (Flush_ok c Hc Hh) as (c' & Hf & (Hc' & Ha & Hb) & _). rewrite Hf. eexists _, c'. rewrite Ha, Hb. split_and!; try done.
    split; [done|]. revert Hf. unfold Flush. destruct (view_BatchWrite _ _ _) as [[b s]|]; [|done].
    by intros [= _ <-].
Qed.

Lemma cache_ops_refine ops c :
  cache_ready c -> ops_legal ops (cache_abs c) (cache_best c) ->
  exists xs c', cache_ops ops c = Ok (xs, c') /\ spec_ops ops (cache_abs c) (cache_best c) xs (cache_abs c') (cache_best c') /\ cache_ready c'.
Proof.
  revert c; induction ops as [|op ops IH]; intros c Hc Hl; cbn [spec_ops cache_ops].
  { exists [], c. by split_and!. }
  destruct Hl as [Hop Hops]. destruct (cache_op_refines op c Hc Hop) as (x & c1 & Hr & Hx & Hc1 & Hs). rewrite Hs in *.
  destruct (IH c1 Hc1 Hops) as (xs & c' & Hrun & Hxs & Hready). exists (x :: xs), c'. rewrite Hr. cbn. rewrite Hrun.
  split_and!; [done| |done]. by exists x, xs.
Qed.
End Refinement.

(** C12: A cache over any lawful view (another cache or the database) behaves like
    a map from outpoints to unspent outputs with a best block, for every sequence
    of look-ups, additions, spends, evictions, best-block changes and flushes in
    which no spent output is added, an output is added over an unspent one only
    with [possible_overwrite], and no null hash is set as the best block. Each
    operation succeeds, leaves what it leaves on the map and returns what it
    returns on the map, with one exception that the specification states:
    [SpendCash] of an outpoint without an unspent output returns false or, when
    the cache holds an entry for it, true with a spent output. The cache invariant
    holds at the end: entries that are not DIRTY agree with the base, FRESH
    entries are absent from it, and the memory count is the sum over the entries. *)
Theorem cache_refines_map {S : Type} `{!CashView S} `{!CashViewOk S} `{!ScriptMemory} `{!ScriptMemoryOk}
    (ops : list CacheOp) (c : CCashViewCache S) :
  cache_inv c -> uint256_IsNull (hashBlock c) = false ->
  ops_legal ops (cache_abs c) (cache_best c) ->
  exists xs c', cache_ops ops c = Ok (xs, c') /\ spec_ops ops (cache_abs c) (cache_best c) xs (cache_abs c') (cache_best c') /\ cache_inv c'.
Proof.
  intros Hc Hh Hl. destruct (cache_ops_refine ops c (conj Hc Hh) Hl) as (xs & c' & Hr & Hx & [Hc' _]). by exists xs, c'.
Qed.

(** Two caches over the example database. *)
#[local] Existing Instances no_script_memory no_script_memory_ok.
#[local] Instance example_view : CashView CCashViewDB := CCashViewDB_view (fun _ => false).

Definition example_cache : CCashViewCache (CCashViewCache CCashViewDB) :=
  SetBestBlock (repeat 1 32) (CCashViewCache_new (SetBestBlock (repeat 1 32) (CCashViewCache_new example_db))).

Lemma example_cache_inv : cache_inv example_cache.
Proof.
  constructor; cbn; [|intros o e; by rewrite lookup_empty|done].
  constructor; cbn; [|intros o e; by rewrite lookup_empty|done].
  split; [apply example_db_inv|by eexists].
Qed.

Lemma cache_refines_map_witness :
  let ops := [OpAdd example_outpoint example_cash false; OpFlush; OpSpend example_outpoint;
              OpHave example_outpoint] in
  exists c', cache_ops ops example_cache =
    Ok ([ObsDone; ObsBool true; ObsCash (Some example_cash); ObsBool false], c').
Proof.
  intros ops. pose proof (cache_refines_map ops example_cache example_cache_inv eq_refl) as H.
  destruct H as (xs & c' & H & Hx & _).
  - repeat split.
  - exists c'. rewrite H. destruct Hx as (x1 & xs1 & -> & -> & x2 & xs2 & -> & -> & x3 & xs3 & -> & Hx3 & x4 & xs4 & -> & -> & -> & _). vm_compute in Hx3. by subst.
Defined.

(** Flushing a cache writes its view to the base: the base then holds exactly
    the outputs and the best block of the cache, the cache is empty, and nothing
    a reader of the cache sees has changed. *)
Theorem Flush_moves_view {S : Type} `{!CashView S} `{!CashViewOk S} `{!ScriptMemory} `{!ScriptMemoryOk}
    (c : CCashViewCache S) :
  cache_inv c -> uint256_IsNull (hashBlock c) = false ->
  exists c', Flush c = Ok (true, c') /\ cache_inv c' /\ cache_abs c' = cache_abs c /\
    cacheCash c' = ∅ /\ cachedCashUsage c' = 0 /\
    view_abs (base c') = cache_abs c /\ view_best (base c') = cache_best c.
Proof.
  intros Hc Hh. destruct (Flush_ok c Hc Hh) as (c' & Hf & (Hi & Ha & _) & He & Hu & _ & Hb & Hbest).
  exists c'. by split_and!.
Qed.

Lemma Flush_moves_view_witness :
  exists c', Flush example_cache = Ok (true, c') /\ cacheCash c' = ∅.
Proof.
  destruct (Flush_moves_view example_cache example_cache_inv eq_refl) as (c' & H & _ & _ & He & _).
  exists c'. split; [exact H|exact He].
Defined.

(** Writing a batch into a cache does not depend on the order in which the
    child's hash table yields its entries: for every enumeration of the same
    entries the write succeeds and the resulting view is the old one with the
    DIRTY entries applied. *)
Theorem BatchWrite_order_independent {S : Type} `{!CashView S} `{!CashViewOk S} `{!ScriptMemory}
    `{!ScriptMemoryOk} (c : CCashViewCache S) (m : CCashMap) (l : list (COutPoint * CCashCacheEntry)) :
  cache_inv c -> batch_ok m (cache_abs c) -> l ≡ₚ map_to_list m ->
  exists c', BatchWrite_loop l c = Ok c' /\ cache_inv c' /\ cache_abs c' = apply_batch m (cache_abs c).
Proof.
  intros Hc Hm Hp. assert (NoDup l.*1) as Hnd by (rewrite Hp; apply NoDup_fst_map_to_list).
  assert (list_to_map l = m) as Hl.
  { rewrite <- (list_to_map_to_list m). by apply list_to_map_proper. }
  destruct (BatchWrite_loop_ok l c Hc Hnd) as (c' & Hr & Hi & Ha); [by rewrite Hl|].
  exists c'. by rewrite Ha, Hl.
Qed.

Lemma BatchWrite_order_independent_witness :
  exists c', BatchWrite_loop [(example_outpoint, mkEntry example_cash DIRTY)] example_cache = Ok c' /\
    cache_inv c'.
Proof.
  destruct (BatchWrite_order_independent example_cache
    {[ example_outpoint := mkEntry example_cash DIRTY ]}
    [(example_outpoint, mkEntry example_cash DIRTY)] example_cache_inv) as (c' & H & Hi & _).
  - intros o e [<- <-]%lookup_singleton_Some _ Hf. discriminate Hf.
  - by rewrite map_to_list_singleton.
  - exists c'. split; [exact H|exact Hi].
Defined.

(** Spending an output that is already spent in the cache is reported as a
    success: unless the entry is FRESH, the second of two spends of the same
    outpoint returns [true] and moves out an empty output. *)
Theorem SpendCash_twice_succeeds {S : Type} `{!CashView S} `{!CashViewOk S} `{!ScriptMemory}
    `{!ScriptMemoryOk} (c : CCashViewCache S) (o : COutPoint) (it : CCashCacheEntry) :
  cacheCash c !! o = Some it -> has_flag FRESH it = false ->
  let '(r1, c1) := SpendCash o c in
  let '(r2, c2) := SpendCash o c1 in
  r1 = Some (e_cash it) /\ r2 = Some cashEmpty.
Proof.
  intros Ho Hf. unfold SpendCash. rewrite (surjective_pairing (FetchCash o c)).
  unfold FetchCash at 1 2. rewrite Ho. cbn [fst snd]. rewrite Hf.
  unfold FetchCash. cbn. by rewrite lookup_insert_eq.
Qed.

Lemma SpendCash_twice_succeeds_witness :
  let c := mkCache example_db (repeat 1 32) {[ example_outpoint := mkEntry example_cash 0 ]} 0 in
  let '(r1, c1) := SpendCash example_outpoint c in
  let '(r2, c2) := SpendCash example_outpoint c1 in
  r1 = Some example_cash /\ r2 = Some cashEmpty.
Proof.
  apply (SpendCash_twice_succeeds _ example_outpoint (mkEntry example_cash 0)); [apply lookup_singleton_eq|reflexivity].
Defined.
