(* ===== verification/ArithUint256.v ===== *)
(** * 256-bit unsigned arithmetic (arith_uint256.h, arith_uint256.cpp)

    A number is its array [pn] of [WIDTH] 32-bit limbs, least significant
    first; the operators are the loops of the source over the limbs. *)
From S2P Require Import Prelude Crypto Transaction.

Definition WIDTH : nat := 8.
Definition arith_uint256 : Type := list Z.

(** The number the limbs denote. *)
Fixpoint val (pn : list Z) : Z :=
  match pn with
  | [] => 0
  | x :: pn => x + 2 ^ 32 * val pn
  end.

Definition arith_ok (pn : list Z) : Prop := length pn = WIDTH /\ Forall is_u32 pn.

(** ** Constructors *)
Definition arith_zero : arith_uint256 := repeat 0 WIDTH.

(** [base_uint(uint64_t b)]. *)
Definition arith_of_uint64 (b : Z) : arith_uint256 :=
  u32 b :: u32 (Z.shiftr b 32) :: repeat 0 (WIDTH - 2).

(** ** Bitwise operators *)
Definition arith_IsZero (pn : arith_uint256) : bool := forallb (fun x => x =? 0) pn.
Definition arith_not (pn : arith_uint256) : arith_uint256 := map (fun x => u32 (Z.lnot x)) pn.
Definition arith_xor (a b : arith_uint256) : arith_uint256 := zip_with Z.lxor a b.
Definition arith_and (a b : arith_uint256) : arith_uint256 := zip_with Z.land a b.
Definition arith_or (a b : arith_uint256) : arith_uint256 := zip_with Z.lor a b.

(** One iteration of [operator<<=] on the array being filled. *)
Definition shl_step (a : arith_uint256) (k : nat) (shift : Z) (pn : arith_uint256) (i : nat) : arith_uint256 :=
  let ai := nth i a 0 in
  let pn := if (i + k + 1 <? WIDTH)%nat && negb (shift =? 0)
            then alter (fun x => Z.lor x (Z.shiftr ai (32 - shift))) (i + k + 1)%nat pn else pn in
  if (i + k <? WIDTH)%nat then alter (fun x => Z.lor x (u32 (Z.shiftl ai shift))) (i + k)%nat pn else pn.

Definition arith_shl (a : arith_uint256) (shift : Z) : arith_uint256 :=
  foldl (shl_step a (Z.to_nat (shift / 32)) (shift mod 32)) arith_zero (seq 0 WIDTH).

Definition shr_step (a : arith_uint256) (k : nat) (shift : Z) (pn : arith_uint256) (i : nat) : arith_uint256 :=
  let ai := nth i a 0 in
  let pn := if (k + 1 <=? i)%nat && negb (shift =? 0)
            then alter (fun x => Z.lor x (u32 (Z.shiftl ai (32 - shift)))) (i - k - 1)%nat pn else pn in
  if (k <=? i)%nat then alter (fun x => Z.lor x (Z.shiftr ai shift)) (i - k)%nat pn else pn.

Definition arith_shr (a : arith_uint256) (shift : Z) : arith_uint256 :=
  foldl (shr_step a (Z.to_nat (shift / 32)) (shift mod 32)) arith_zero (seq 0 WIDTH).

(** ** Addition and subtraction *)
Fixpoint add_loop (a b : list Z) (carry : Z) : list Z :=
  match a, b with
  | x :: a, y :: b =>
      let n := u64 (carry + x + y) in
      Z.land n 0xffffffff :: add_loop a b (Z.shiftr n 32)
  | _, _ => []
  end.

Definition arith_add (a b : arith_uint256) : arith_uint256 := add_loop a b 0.

(** [while (i < WIDTH && ++pn[i] == 0) i++], and the decrement. *)
Fixpoint arith_inc (pn : arith_uint256) : arith_uint256 :=
  match pn with
  | [] => []
  | x :: pn => let x := u32 (x + 1) in if x =? 0 then x :: arith_inc pn else x :: pn
  end.

Fixpoint arith_dec (pn : arith_uint256) : arith_uint256 :=
  match pn with
  | [] => []
  | x :: pn => let x := u32 (x - 1) in if x =? u32 (-1) then x :: arith_dec pn else x :: pn
  end.

Definition arith_neg (pn : arith_uint256) : arith_uint256 := arith_inc (arith_not pn).
Definition arith_sub (a b : arith_uint256) : arith_uint256 := arith_add a (arith_neg b).

(** ** Multiplication *)
Fixpoint mul32_loop (pn : list Z) (b32 carry : Z) : list Z :=
  match pn with
  | [] => []
  | x :: pn =>
      let n := u64 (carry + b32 * x) in
      Z.land n 0xffffffff :: mul32_loop pn b32 (Z.shiftr n 32)
  end.

Definition arith_mul32 (pn : arith_uint256) (b32 : Z) : arith_uint256 := mul32_loop pn b32 0.

(** The inner loop of [operator*=]: [pn] from index [j] on. *)
Fixpoint mul_inner (aj : Z) (pn b : list Z) (carry : Z) : list Z :=
  match pn, b with
  | x :: pn, y :: b =>
      let n := u64 (carry + x + aj * y) in
      Z.land n 0xffffffff :: mul_inner aj pn b (Z.shiftr n 32)
  | _, _ => []
  end.

Definition mul_step (a b : arith_uint256) (pn : arith_uint256) (j : nat) : arith_uint256 :=
  take j pn ++ mul_inner (nth j a 0) (drop j pn) b 0.

Definition arith_mul (a b : arith_uint256) : arith_uint256 :=
  foldl (mul_step a b) arith_zero (seq 0 WIDTH).

(** ** Comparison, bit length *)

(** [CompareTo], from the most significant limb down: -1, 0 or 1. *)
Fixpoint compare_loop (a b : list Z) : Z :=
  match a, b with
  | x :: a, y :: b => if x <? y then -1 else if y <? x then 1 else compare_loop a b
  | _, _ => 0
  end.

Definition CompareTo (a b : arith_uint256) : Z := compare_loop (rev a) (rev b).

Definition EqualTo (a : arith_uint256) (b : Z) : bool :=
  forallb (fun x => x =? 0) (drop 2 a) && (nth 1 a 0 =? Z.shiftr b 32) && (nth 0 a 0 =? Z.land b 0xffffffff).

(** [for (int nbits = 31; nbits > 0; nbits--)] on one limb. *)
Fixpoint limb_bits (nbits : nat) (x : Z) : Z :=
  match nbits with
  | O => 1
  | S n => if negb (Z.land x (Z.shiftl 1 (Z.of_nat nbits)) =? 0) then Z.of_nat nbits + 1 else limb_bits n x
  end.

(** [pos] counts down from [WIDTH - 1] over the reversed array. *)
Fixpoint bits_loop (rpn : list Z) : Z :=
  match rpn with
  | [] => 0
  | x :: rpn => if negb (x =? 0) then 32 * Z.of_nat (length rpn) + limb_bits 31 x else bits_loop rpn
  end.

Definition bits (pn : arith_uint256) : Z := bits_loop (rev pn).

(** ** Division *)
Definition set_bit (pn : arith_uint256) (shift : Z) : arith_uint256 :=
  alter (fun x => Z.lor x (u32 (Z.shiftl 1 (Z.land shift 31)))) (Z.to_nat (shift / 32)) pn.

(** [while (shift >= 0)], [n = shift + 1]. *)
Fixpoint div_loop (n : nat) (num div quo : arith_uint256) : arith_uint256 :=
  match n with
  | O => quo
  | S n =>
      let '(num, quo) := if 0 <=? CompareTo num div
                         then (arith_sub num div, set_bit quo (Z.of_nat n)) else (num, quo) in
      div_loop n num (arith_shr div 1) quo
  end.

Definition arith_div (a b : arith_uint256) : result arith_uint256 :=
  let num_bits := bits a in
  let div_bits := bits b in
  if div_bits =? 0 then Throw (uint_error "Division by zero")
  else if num_bits <? div_bits then Ok arith_zero
  else
    let shift := num_bits - div_bits in
    Ok (div_loop (Z.to_nat (shift + 1)) a (arith_shl b shift) arith_zero).

Definition GetLow64 (pn : arith_uint256) : Z := Z.lor (nth 0 pn 0) (u64 (Z.shiftl (nth 1 pn 0) 32)).

(** ** The compact form of targets *)

(** The number, [*pfNegative] and [*pfOverflow]. *)
Definition SetCompact (nCompact : Z) : arith_uint256 * bool * bool :=
  let nSize := Z.shiftr nCompact 24 in
  let nWord := Z.land nCompact 0x007fffff in
  let '(nWord, a) :=
    if nSize <=? 3 then
      let nWord := Z.shiftr nWord (8 * (3 - nSize)) in (nWord, arith_of_uint64 nWord)
    else (nWord, arith_shl (arith_of_uint64 nWord) (8 * (nSize - 3))) in
  (a,
   negb (nWord =? 0) && negb (Z.land nCompact 0x00800000 =? 0),
   negb (nWord =? 0) && ((34 <? nSize) || ((0xff <? nWord) && (33 <? nSize)) ||
                         ((0xffff <? nWord) && (32 <? nSize)))).

Definition GetCompact (pn : arith_uint256) (fNegative : bool) : result Z :=
  let nSize := (bits pn + 7) / 8 in
  let nCompact :=
    if nSize <=? 3 then u32 (Z.shiftl (GetLow64 pn) (8 * (3 - nSize)))
    else u32 (GetLow64 (arith_shr pn (8 * (nSize - 3)))) in
  let '(nCompact, nSize) :=
    if negb (Z.land nCompact 0x00800000 =? 0) then (Z.shiftr nCompact 8, nSize + 1) else (nCompact, nSize) in
  assert_then (Z.land nCompact (u32 (Z.lnot 0x007fffff)) =? 0) "(nCompact & ~0x007fffff) == 0"
    (assert_then (nSize <? 256) "nSize < 256"
       (let nCompact := Z.lor nCompact (Z.shiftl nSize 24) in
        Ok (Z.lor nCompact (if fNegative && negb (Z.land nCompact 0x007fffff =? 0) then 0x00800000 else 0)))).

(** ** Conversion from and to the opaque blob *)
Definition ArithToUint256 (a : arith_uint256) : uint256 := concat (map WriteLE32 a).
Definition UintToArith256 (a : uint256) : arith_uint256 := map (fun x => ReadLE32 a (x * 4)) (seq 0 WIDTH).

(** * Lemmas *)

Abbreviation B32 := (2 ^ 32).
Abbreviation limbs := (Forall is_u32).

Lemma val_app a b : val (a ++ b) = val a + B32 ^ Z.of_nat (length a) * val b.
Proof.
  induction a as [|x a IH]; cbn [app val length]; [lia|].
  rewrite IH, Nat2Z.inj_succ, Z.pow_succ_r by lia. lia.
Qed.

Lemma val_range a : limbs a -> 0 <= val a < B32 ^ Z.of_nat (length a).
Proof.
  induction 1 as [|x a Hx _ IH]; cbn [val length]; [lia|]. unfold is_u32 in Hx.
  rewrite Nat2Z.inj_succ, Z.pow_succ_r by lia. nia.
Qed.

Lemma val_inj a b : length a = length b -> limbs a -> limbs b -> val a = val b -> a = b.
Proof.
  intros Hl Ha. revert b Hl; induction Ha as [|x a Hx Ha IH]; intros [|y b] Hl Hb Hv; try done.
  apply Forall_cons_1 in Hb as [Hy Hb]. cbn [val] in Hv. unfold is_u32 in *.
  pose proof (val_range a Ha). pose proof (val_range b Hb).
  assert (x = y /\ val a = val b) as [-> He] by lia. f_equal. apply IH; [by injection Hl|done..].
Qed.

Lemma arith_val_range a : arith_ok a -> 0 <= val a < 2 ^ 256.
Proof. intros [Hl Ha]. pose proof (val_range a Ha) as H. rewrite Hl in H. exact H. Qed.

Lemma arith_val_inj a b : arith_ok a -> arith_ok b -> val a = val b -> a = b.
Proof. intros [Hl Ha] [Hl' Hb]. apply val_inj; [congruence|done..]. Qed.

Lemma land_B32 n : Z.land n 0xffffffff = n mod B32.
Proof. change 0xffffffff with (2 ^ 32 - 1). by rewrite land_ones_mod by lia. Qed.

Lemma shiftr_B32 n : Z.shiftr n 32 = n / B32.
Proof. by rewrite Z.shiftr_div_pow2 by lia. Qed.

Lemma mod_B32_limb n : is_u32 (n mod B32).
Proof. apply Z.mod_pos_bound. lia. Qed.

(** Splitting off one limb of a number modulo [B32 ^ (k + 1)]. *)
Lemma mod_limb n k : 0 <= k -> n mod B32 + B32 * ((n / B32) mod B32 ^ k) = n mod B32 ^ Z.succ k.
Proof. intros Hk. rewrite Z.pow_succ_r, Z.rem_mul_r by lia. lia. Qed.

Lemma zero_val n : val (repeat 0 n) = 0.
Proof. induction n as [|n IH]; [done|]. cbn [repeat val]. lia. Qed.

Lemma zero_limbs n : limbs (repeat 0 n).
Proof. induction n; constructor; [unfold is_u32; lia|done]. Qed.

Lemma arith_zero_val : val arith_zero = 0.
Proof. apply zero_val. Qed.

Lemma arith_zero_ok : arith_ok arith_zero.
Proof. split; [done|apply zero_limbs]. Qed.

Lemma arith_of_uint64_ok b : is_u64 b -> arith_ok (arith_of_uint64 b) /\ val (arith_of_uint64 b) = b.
Proof.
  intros Hb. unfold arith_of_uint64, arith_ok. rewrite shiftr_B32. split; [split|].
  - done.
  - repeat (constructor; [apply u32_range|]). apply zero_limbs.
  - cbn [val]. rewrite zero_val. unfold u32. unfold is_u64 in Hb.
    pose proof (Z.div_mod b B32). rewrite (Z.mod_small (b / B32)); [lia|].
    split; [apply Z.div_pos; lia|apply Z.div_lt_upper_bound; lia].
Qed.

(** ** Addition, negation, subtraction *)

Lemma add_loop_val a b carry :
  length a = length b -> limbs a -> limbs b -> 0 <= carry <= 1 ->
  val (add_loop a b carry) = (val a + val b + carry) mod B32 ^ Z.of_nat (length a) /\
  length (add_loop a b carry) = length a /\ limbs (add_loop a b carry).
Proof.
  intros Hl Ha. revert b carry Hl; induction Ha as [|x a Hx Ha IH]; intros [|y b] carry Hl Hb Hc; try done.
  { cbn. by rewrite Z.mod_1_r. }
  apply Forall_cons_1 in Hb as [Hy Hb]. unfold is_u32 in *. cbn [add_loop].
  rewrite u64_small by (unfold is_u64; lia). rewrite land_B32, shiftr_B32.
  assert (0 <= (carry + x + y) / B32 <= 1) as Hcar.
  { split; [apply Z.div_pos; lia|]. apply Z.lt_succ_r, Z.div_lt_upper_bound; lia. }
  destruct (IH b _ ltac:(by injection Hl) Hb Hcar) as (Hv & Hlen & Hok).
  cbn [val length]. rewrite Hv, Hlen, Nat2Z.inj_succ. split_and!; [|done|].
  - rewrite <- mod_limb by lia.
    assert (x + B32 * val a + (y + B32 * val b) + carry = carry + x + y + (val a + val b) * B32) as -> by lia.
    rewrite Z.mod_add, Z.div_add by lia. do 3 f_equal. lia.
  - constructor; [apply mod_B32_limb|done].
Qed.

Lemma arith_add_ok a b : arith_ok a -> arith_ok b ->
  arith_ok (arith_add a b) /\ val (arith_add a b) = (val a + val b) mod 2 ^ 256.
Proof.
  intros [Hl Ha] [Hl' Hb]. destruct (add_loop_val a b 0) as (Hv & Hlen & Hok); [congruence|done|done|lia|].
  rewrite Hl in *. split; [by split|]. unfold arith_add. by rewrite Hv, Z.add_0_r.
Qed.

Lemma not_u32 x : is_u32 x -> u32 (Z.lnot x) = B32 - 1 - x.
Proof.
  unfold is_u32. intros Hx. unfold u32, Z.lnot. replace (Z.pred (- x)) with (B32 - 1 - x + (-1) * B32) by lia.
  rewrite Z.mod_add, Z.mod_small; lia.
Qed.

Lemma arith_not_val a : limbs a ->
  val (arith_not a) = B32 ^ Z.of_nat (length a) - 1 - val a /\ length (arith_not a) = length a /\ limbs (arith_not a).
Proof.
  induction 1 as [|x a Hx _ (Hv & Hlen & Hok)]; [done|]. cbn [arith_not map val length].
  fold (arith_not a). rewrite Hv, Hlen, Nat2Z.inj_succ, Z.pow_succ_r, not_u32 by (done || lia).
  split_and!; [lia|done|]. constructor; [unfold is_u32 in *; lia|done].
Qed.

Lemma arith_inc_val a : limbs a ->
  val (arith_inc a) = (val a + 1) mod B32 ^ Z.of_nat (length a) /\ length (arith_inc a) = length a /\
  limbs (arith_inc a).
Proof.
  induction 1 as [|x a Hx Ha (Hv & Hlen & Hok)]; [by cbn; rewrite Z.mod_1_r|]. cbn [arith_inc].
  pose proof (val_range a Ha) as Hr. rewrite Z.eqb_compare. unfold is_u32 in Hx. unfold u32.
  set (P := B32 ^ Z.of_nat (length a)) in *.
  assert (B32 ^ Z.of_nat (length (x :: a)) = B32 * P) as HP
    by (cbn [length]; rewrite Nat2Z.inj_succ, Z.pow_succ_r; lia).
  destruct (Z.eq_dec x (B32 - 1)) as [->|Hne].
  - replace ((B32 - 1 + 1) mod B32) with 0 by reflexivity. cbn [Z.compare val length].
    rewrite Hv, Hlen. rewrite Nat2Z.inj_succ, <- mod_limb by lia. fold P. split_and!; [|done|].
    + replace (B32 - 1 + B32 * val a + 1) with (0 + (val a + 1) * B32) by lia.
      rewrite Z.mod_add, Z.div_add by lia. done.
    + constructor; [unfold is_u32; lia|done].
  - rewrite (Z.mod_small (x + 1)) by lia. destruct (x + 1 ?= 0) eqn:Hc; [apply Z.compare_eq in Hc; lia|..].
    all: rewrite HP; cbn [val length]; split_and!; [|done|constructor; [unfold is_u32; lia|done]].
    all: rewrite Z.mod_small; nia.
Qed.

Lemma arith_neg_ok a : arith_ok a -> arith_ok (arith_neg a) /\ val (arith_neg a) = (- val a) mod 2 ^ 256.
Proof.
  intros [Hl Ha]. destruct (arith_not_val a Ha) as (Hv & Hlen & Hok).
  destruct (arith_inc_val (arith_not a) Hok) as (Hv' & Hlen' & Hok'). unfold arith_neg.
  rewrite Hlen, Hl in *. split; [by split|]. rewrite Hv', Hv. change (B32 ^ Z.of_nat WIDTH) with (2 ^ 256).
  replace (2 ^ 256 - 1 - val a + 1) with (- val a + 1 * 2 ^ 256) by lia. by rewrite Z.mod_add by lia.
Qed.

Lemma arith_sub_ok a b : arith_ok a -> arith_ok b ->
  arith_ok (arith_sub a b) /\ val (arith_sub a b) = (val a - val b) mod 2 ^ 256.
Proof.
  intros Ha Hb. destruct (arith_neg_ok b Hb) as [Hn Hv]. destruct (arith_add_ok a _ Ha Hn) as [Hs Hv'].
  split; [done|]. unfold arith_sub. by rewrite Hv', Hv, Zplus_mod_idemp_r.
Qed.

(** ** Multiplication *)

Lemma mul_word_bound x y : is_u32 x -> is_u32 y -> 0 <= x * y <= (B32 - 1) * (B32 - 1).
Proof. unfold is_u32. nia. Qed.

Lemma mul32_loop_val a b carry : limbs a -> is_u32 b -> is_u32 carry ->
  val (mul32_loop a b carry) = (val a * b + carry) mod B32 ^ Z.of_nat (length a) /\
  length (mul32_loop a b carry) = length a /\ limbs (mul32_loop a b carry).
Proof.
  intros Ha Hb. revert carry; induction Ha as [|x a Hx Ha IH]; intros carry Hc; [by cbn; rewrite Z.mod_1_r|].
  cbn [mul32_loop]. pose proof (mul_word_bound b x Hb Hx).
  rewrite u64_small by (unfold is_u64, is_u32 in *; lia). rewrite land_B32, shiftr_B32.
  destruct (IH ((carry + b * x) / B32)) as (Hv & Hlen & Hok).
  { unfold is_u32 in *. split; [apply Z.div_pos; lia|apply Z.div_lt_upper_bound; lia]. }
  cbn [val length]. rewrite Hv, Hlen, Nat2Z.inj_succ. split_and!; [|done|constructor; [apply mod_B32_limb|done]].
  rewrite <- mod_limb by lia.
  assert ((x + B32 * val a) * b + carry = carry + b * x + val a * b * B32) as -> by lia.
  rewrite Z.mod_add, Z.div_add by lia. do 3 f_equal. lia.
Qed.

Lemma arith_mul32_ok a b : arith_ok a -> is_u32 b ->
  arith_ok (arith_mul32 a b) /\ val (arith_mul32 a b) = (val a * b) mod 2 ^ 256.
Proof.
  intros [Hl Ha] Hb. destruct (mul32_loop_val a b 0 Ha Hb) as (Hv & Hlen & Hok); [unfold is_u32; lia|].
  rewrite Hl in *. split; [by split|]. unfold arith_mul32. by rewrite Hv, Z.add_0_r.
Qed.

Lemma mul_inner_val aj pn b carry :
  is_u32 aj -> (length pn <= length b)%nat -> limbs pn -> limbs b -> is_u32 carry ->
  val (mul_inner aj pn b carry) = (val pn + aj * val b + carry) mod B32 ^ Z.of_nat (length pn) /\
  length (mul_inner aj pn b carry) = length pn /\ limbs (mul_inner aj pn b carry).
Proof.
  intros Haj Hl Hp. revert b carry Hl; induction Hp as [|x pn Hx Hp IH]; intros [|y b] carry Hl Hb Hc;
    try (by simpl in Hl; lia); [by cbn; rewrite Z.mod_1_r..|].
  apply Forall_cons_1 in Hb as [Hy Hb]. cbn [mul_inner]. pose proof (mul_word_bound aj y Haj Hy).
  rewrite u64_small by (unfold is_u64, is_u32 in *; lia). rewrite land_B32, shiftr_B32.
  destruct (IH b ((carry + x + aj * y) / B32)) as (Hv & Hlen & Hok); [simpl in Hl; lia|done| |].
  { unfold is_u32 in *. split; [apply Z.div_pos; lia|apply Z.div_lt_upper_bound; lia]. }
  cbn [val length]. rewrite Hv, Hlen, Nat2Z.inj_succ. split_and!; [|done|constructor; [apply mod_B32_limb|done]].
  rewrite <- mod_limb by lia.
  assert (x + B32 * val pn + aj * (y + B32 * val b) + carry = carry + x + aj * y + (val pn + aj * val b) * B32)
    as -> by lia.
  rewrite Z.mod_add, Z.div_add by lia. do 3 f_equal. lia.
Qed.

Lemma limbs_nth a j : limbs a -> is_u32 (nth j a 0).
Proof.
  intros Ha. destruct (nth_in_or_default j a 0) as [Hin| ->]; [|unfold is_u32; lia].
  rewrite List.Forall_forall in Ha. auto.
Qed.

Lemma mul_step_ok a b pn j :
  arith_ok a -> arith_ok b -> arith_ok pn -> (j < WIDTH)%nat ->
  arith_ok (mul_step a b pn j) /\
  val (mul_step a b pn j) = (val pn + B32 ^ Z.of_nat j * nth j a 0 * val b) mod 2 ^ 256.
Proof.
  intros [_ Ha] [Hlb Hb] [Hlp Hp] Hj. unfold mul_step. pose proof (limbs_nth a j Ha) as Haj.
  destruct (mul_inner_val (nth j a 0) (drop j pn) b 0) as (Hv & Hlen & Hok).
  1-5: first [done|rewrite length_drop; lia|by apply Forall_drop|unfold is_u32; lia|idtac].
  rewrite length_drop, Hlp in *. split; [split|].
  - rewrite length_app, length_take, Hlen. lia.
  - apply Forall_app. split; [by apply Forall_take|done].
  - rewrite val_app, length_take, Hv, Hlp. rewrite Nat.min_l by lia.
    set (P := B32 ^ Z.of_nat j). assert (val pn = val (take j pn) + P * val (drop j pn)) as Hsplit.
    { rewrite <- (take_drop j pn) at 1. rewrite val_app, length_take, Hlp, Nat.min_l by lia. done. }
    rewrite Hsplit, Z.add_0_r.
    assert (2 ^ 256 = P * B32 ^ Z.of_nat (WIDTH - j)) as ->.
    { subst P. rewrite <- Z.pow_add_r by lia. rewrite <- Nat2Z.inj_add.
      replace (j + (WIDTH - j))%nat with WIDTH by lia. done. }
    assert (0 < P) by (apply Z.pow_pos_nonneg; lia).
    pose proof (val_range (take j pn) ltac:(by apply Forall_take)) as Hr.
    rewrite length_take, Hlp, Nat.min_l in Hr by lia. fold P in Hr.
    assert (val (take j pn) + P * val (drop j pn) + P * nth j a 0 * val b =
      val (take j pn) + P * (val (drop j pn) + nth j a 0 * val b)) as -> by lia.
    assert (0 < B32 ^ Z.of_nat (WIDTH - j)) by (apply Z.pow_pos_nonneg; lia).
    rewrite (Z.rem_mul_r (val (take j pn) + _) P) by lia.
    rewrite (Z.mul_comm P (_ + _)), Z.mod_add, Z.div_add by lia.
    by rewrite (Z.mod_small (val (take j pn)) P), (Z.div_small (val (take j pn)) P), Z.add_0_l by lia.
Qed.

Lemma take_S_nth a j : (j < length a)%nat -> take (S j) a = take j a ++ [nth j a 0].
Proof.
  revert j; induction a as [|x a IH]; intros [|j] Hj; simpl in *; try lia; [done|]. f_equal. apply IH. lia.
Qed.

Lemma mul_fold_ok a b j :
  arith_ok a -> arith_ok b -> (j <= WIDTH)%nat ->
  arith_ok (foldl (mul_step a b) arith_zero (seq 0 j)) /\
  val (foldl (mul_step a b) arith_zero (seq 0 j)) = (val (take j a) * val b) mod 2 ^ 256.
Proof.
  intros Ha Hb. induction j as [|j IH]; intros Hj.
  { split; [apply arith_zero_ok|]. simpl. by rewrite Z.mod_0_l by lia. }
  rewrite seq_S, foldl_app. destruct IH as [Hok Hv]; [lia|]. cbn [foldl Nat.add].
  destruct (mul_step_ok a b _ j Ha Hb Hok) as [Hok' Hv']; [lia|]. split; [done|].
  rewrite Hv', Hv, Zplus_mod_idemp_l. f_equal. destruct Ha as [Hl _].
  rewrite take_S_nth, val_app, length_take, Hl, Nat.min_l by lia. cbn [val]. lia.
Qed.

Lemma arith_mul_ok a b : arith_ok a -> arith_ok b ->
  arith_ok (arith_mul a b) /\ val (arith_mul a b) = (val a * val b) mod 2 ^ 256.
Proof.
  intros Ha Hb. destruct (mul_fold_ok a b WIDTH Ha Hb) as [Hok Hv]; [done|]. split; [done|].
  unfold arith_mul. rewrite Hv. destruct Ha as [Hl _]. by rewrite take_ge by lia.
Qed.

(** ** Comparison and bit length *)

Lemma compare_loop_val ra rb :
  length ra = length rb -> limbs ra -> limbs rb ->
  compare_loop ra rb = Z.sgn (val (rev ra) - val (rev rb)).
Proof.
  intros Hl Ha. revert rb Hl; induction Ha as [|x ra Hx Ha IH]; intros [|y rb] Hl Hb; try done.
  apply Forall_cons_1 in Hb as [Hy Hb]. injection Hl as Hl. cbn [compare_loop rev].
  rewrite !val_app, !length_rev, <- Hl. cbn [val]. rewrite !Z.mul_0_r, !Z.add_0_r.
  pose proof (val_range (rev ra) ltac:(by apply Forall_rev)) as Hra.
  pose proof (val_range (rev rb) ltac:(by apply Forall_rev)) as Hrb.
  rewrite length_rev in Hra, Hrb. rewrite <- Hl in Hrb. set (P := B32 ^ Z.of_nat (length ra)) in *.
  unfold is_u32 in *. destruct (Z.ltb_spec x y); [|destruct (Z.ltb_spec y x)].
  - symmetry. apply Z.sgn_neg. nia.
  - symmetry. apply Z.sgn_pos. nia.
  - assert (x = y) as -> by lia. rewrite IH by done. f_equal. lia.
Qed.

Lemma CompareTo_ok a b : arith_ok a -> arith_ok b -> CompareTo a b = Z.sgn (val a - val b).
Proof.
  intros [Hl Ha] [Hl' Hb]. unfold CompareTo.
  rewrite compare_loop_val by (rewrite ?length_rev; (congruence || by apply Forall_rev)).
  by rewrite !rev_involutive.
Qed.

Lemma limb_bits_val n x : 0 < x < 2 ^ Z.of_nat (S n) -> limb_bits n x = Z.log2 x + 1.
Proof.
  revert x; induction n as [|n IH]; intros x Hx.
  { cbn in *. assert (x = 1) as -> by lia. done. }
  cbn [limb_bits]. set (k := Z.of_nat (S n)) in *.
  assert (Z.of_nat (S (S n)) = k + 1) as Hk by lia. rewrite Hk, Z.pow_add_r in Hx by lia.
  rewrite Z.shiftl_1_l.
  destruct (Z.eqb_spec (Z.land x (2 ^ k)) 0) as [Hz|Hnz]; cbn [negb].
  - apply IH. split; [lia|]. apply Z.lt_nge. intros Hge.
    assert (Z.testbit (Z.land x (2 ^ k)) k = true) as Ht; [|rewrite Hz, Z.bits_0 in Ht; done].
    rewrite Z.land_spec, Z.pow2_bits_true, andb_true_r by lia. rewrite Z.testbit_true by lia.
    by rewrite <- (Z.div_unique x (2 ^ k) 1 (x - 2 ^ k)) by lia.
  - f_equal. symmetry. apply Z.log2_unique; [lia|]. rewrite Z.pow_succ_r by lia. split; [|lia].
    apply Z.nlt_ge. intros Hlt. apply Hnz. apply Z.bits_inj'. intros i Hi.
    rewrite Z.land_spec, Z.pow2_bits_eqb, Z.bits_0 by lia. destruct (Z.eqb_spec k i) as [<-|]; [|by rewrite andb_false_r].
    rewrite Z.bits_above_log2; [done|lia|]. apply Z.log2_lt_pow2; lia.
Qed.

Lemma bits_loop_val rpn : limbs rpn ->
  bits_loop rpn = if val (rev rpn) =? 0 then 0 else Z.log2 (val (rev rpn)) + 1.
Proof.
  induction 1 as [|x rpn Hx Hr IH]; [done|]. cbn [bits_loop rev]. rewrite val_app, length_rev. cbn [val].
  rewrite Z.mul_0_r, Z.add_0_r.
  pose proof (val_range (rev rpn) ltac:(by apply Forall_rev)) as Hv. rewrite length_rev in Hv.
  set (P := B32 ^ Z.of_nat (length rpn)) in *. unfold is_u32 in Hx.
  destruct (Z.eqb_spec x 0) as [->|Hne]; cbn [negb].
  { rewrite IH. by rewrite Z.mul_0_r, Z.add_0_r. }
  rewrite limb_bits_val by (change (2 ^ Z.of_nat 32) with B32; lia).
  destruct (Z.eqb_spec (val (rev rpn) + P * x) 0); [nia|].
  assert (P = 2 ^ (32 * Z.of_nat (length rpn))) as HP by (subst P; rewrite <- Z.pow_mul_r; lia).
  pose proof (Z.log2_spec x ltac:(lia)) as [Hlo Hhi].
  rewrite (Z.log2_unique (val (rev rpn) + P * x) (32 * Z.of_nat (length rpn) + Z.log2 x)); [lia| |].
  - pose proof (Z.log2_nonneg x). lia.
  - pose proof (Z.log2_nonneg x). rewrite <- Z.add_succ_r, !Z.pow_add_r, <- HP by lia. nia.
Qed.

Lemma bits_ok a : arith_ok a -> bits a = if val a =? 0 then 0 else Z.log2 (val a) + 1.
Proof.
  intros [_ Ha]. unfold bits. rewrite bits_loop_val by (by apply Forall_rev). by rewrite rev_involutive.
Qed.

(** ** Shifts, bit by bit *)

Lemma testbit_word x v n : is_u32 x -> 0 <= v -> 0 <= n ->
  Z.testbit (x + B32 * v) n = if n <? 32 then Z.testbit x n else Z.testbit v (n - 32).
Proof.
  intros Hx Hv Hn. replace (x + B32 * v) with (v * 2 ^ 32 + x) by lia.
  rewrite <- lor_shift_add by (unfold is_u32 in Hx; lia). rewrite Z.lor_spec, Z.mul_pow2_bits by lia.
  destruct (Z.ltb_spec n 32).
  - by rewrite (Z.testbit_neg_r v) by lia.
  - rewrite (Z.bits_above_log2 x); [by rewrite orb_false_r|unfold is_u32 in Hx; lia|].
    unfold is_u32 in Hx. destruct (Z.eq_dec x 0) as [->|]; [simpl; lia|].
    apply Z.log2_lt_pow2; [lia|]. eapply Z.lt_le_trans; [apply Hx|]. apply Z.pow_le_mono_r; lia.
Qed.

Lemma val_testbit a n : limbs a -> 0 <= n ->
  Z.testbit (val a) n = Z.testbit (nth (Z.to_nat (n / 32)) a 0) (n mod 32).
Proof.
  intros Ha. revert n; induction Ha as [|x a Hx Ha IH]; intros n Hn.
  { cbn [val]. rewrite Z.bits_0. destruct (Z.to_nat _); by rewrite Z.bits_0. }
  cbn [val]. pose proof (val_range a Ha). rewrite testbit_word by (done || lia). destruct (Z.ltb_spec n 32).
  - by rewrite Z.div_small, Z.mod_small by lia.
  - rewrite IH by lia. replace n with (n - 32 + 1 * 32) at 3 4 by lia. rewrite Z.div_add, Z.mod_add by lia.
    assert (0 <= (n - 32) / 32) by (apply Z.div_pos; lia). rewrite Z2Nat.inj_add by lia.
    by rewrite (Nat.add_comm _ (Z.to_nat 1)).
Qed.

Lemma nth_alter f i j (l : list Z) :
  nth j (alter f i l) 0 = if (i =? j)%nat && (j <? length l)%nat then f (nth j l 0) else nth j l 0.
Proof.
  rewrite !nth_lookup. destruct (Nat.eqb_spec i j) as [->|Hne]; cbn [andb].
  - rewrite list_lookup_alter_eq. destruct (Nat.ltb_spec j (length l)) as [Hlt|Hge].
    + by apply lookup_lt_is_Some in Hlt as [x ->].
    + by rewrite lookup_ge_None_2.
  - by rewrite list_lookup_alter_ne.
Qed.

Lemma log2_limb x : 0 <= x < 2 ^ 32 -> Z.log2 x < 32.
Proof. intros Hx. destruct (Z.eq_dec x 0) as [->|]; [done|]. apply Z.log2_lt_pow2; lia. Qed.

Lemma lor_limb x y : is_u32 x -> is_u32 y -> is_u32 (Z.lor x y).
Proof.
  unfold is_u32. intros Hx Hy. split; [apply Z.lor_nonneg; lia|].
  assert (0 <= Z.lor x y) by (apply Z.lor_nonneg; lia).
  destruct (Z.eq_dec (Z.lor x y) 0) as [->|]; [lia|].
  apply Z.log2_lt_pow2; [lia|]. rewrite Z.log2_lor by lia. apply Z.max_lub_lt; by apply log2_limb.
Qed.

Lemma shiftr_limb x s : is_u32 x -> 0 <= s -> is_u32 (Z.shiftr x s).
Proof.
  unfold is_u32. intros Hx Hs. rewrite Z.shiftr_div_pow2 by done. split; [apply Z.div_pos; lia|].
  apply Z.le_lt_trans with x; [|lia]. apply Z.div_le_upper_bound; [lia|].
  pose proof (Z.pow_pos_nonneg 2 s). nia.
Qed.

Lemma alter_lor_ok pn i y : arith_ok pn -> is_u32 y -> arith_ok (alter (fun x => Z.lor x y) i pn).
Proof.
  intros [Hl Hp] Hy. split; [by rewrite length_alter|]. apply Forall_alter; [done|].
  intros x _ Hx. by apply lor_limb.
Qed.

Lemma shl_step_ok a k s pn i : limbs a -> 0 <= s < 32 -> arith_ok pn -> arith_ok (shl_step a k s pn i).
Proof.
  intros Ha Hs Hp. unfold shl_step. pose proof (limbs_nth a i Ha) as Hai.
  assert (forall q, arith_ok q -> arith_ok
    (if (i + k <? WIDTH)%nat then alter (fun x => Z.lor x (u32 (Z.shiftl (nth i a 0) s))) (i + k)%nat q else q)) as H2.
  { intros q Hq. destruct (_ <? WIDTH)%nat; [|done]. apply alter_lor_ok; [done|apply u32_range]. }
  apply H2. destruct (_ && _); [|done]. apply alter_lor_ok; [done|]. apply shiftr_limb; [done|lia].
Qed.

Lemma shl_fold_ok a k s t : limbs a -> 0 <= s < 32 -> arith_ok (foldl (shl_step a k s) arith_zero (seq 0 t)).
Proof.
  intros Ha Hs. induction t as [|t IH]; [apply arith_zero_ok|].
  rewrite seq_S, foldl_app. by apply shl_step_ok.
Qed.

Lemma nth_if_alter (b : bool) f i j (q : list Z) :
  nth j (if b then alter f i q else q) 0 =
    if b && (i =? j)%nat && (j <? length q)%nat then f (nth j q 0) else nth j q 0.
Proof. destruct b; [apply nth_alter|done]. Qed.

Lemma length_if_alter (b : bool) f i (q : list Z) : length (if b then alter f i q else q) = length q.
Proof. destruct b; [apply length_alter|done]. Qed.

(** Limb [j] after [t] iterations: what the limbs [j - k] and [j - k - 1] contribute. *)
Lemma shl_fold_nth a k s t j :
  limbs a -> 0 <= s < 32 -> (j < WIDTH)%nat -> (t <= WIDTH)%nat ->
  nth j (foldl (shl_step a k s) arith_zero (seq 0 t)) 0 =
    Z.lor (if (k <=? j)%nat && (j - k <? t)%nat then u32 (Z.shiftl (nth (j - k) a 0) s) else 0)
          (if (k + 1 <=? j)%nat && (j - k - 1 <? t)%nat && negb (s =? 0)
           then Z.shiftr (nth (j - k - 1) a 0) (32 - s) else 0).
Proof.
  intros Ha Hs Hj. induction t as [|t IH]; intros Ht.
  { nat_cases; change (nth j arith_zero 0 = 0); unfold arith_zero; by rewrite nth_repeat. }
  rewrite seq_S, foldl_app. cbn [foldl Nat.add].
  destruct (shl_fold_ok a k s t Ha Hs) as [Hlen _]. specialize (IH ltac:(lia)).
  set (pn := foldl (shl_step a k s) arith_zero (seq 0 t)) in *. unfold shl_step.
  rewrite !nth_if_alter, length_if_alter, Hlen, IH. clear IH pn Hlen.
  destruct (s =? 0); nat_cases; rewrite ?Z.lor_0_l, ?Z.lor_0_r; try done.
  all: try (replace (j - k)%nat with t by lia); try (replace (j - k - 1)%nat with t by lia); try done.
  all: by rewrite Z.lor_comm.
Qed.

Lemma testbit_limb_high x n : is_u32 x -> 32 <= n -> Z.testbit x n = false.
Proof. intros Hx Hn. apply Z.bits_above_log2; [unfold is_u32 in Hx; lia|]. pose proof (log2_limb x Hx). lia. Qed.

Lemma u32_shiftl_testbit x r m : 0 <= r -> 0 <= m < 32 -> Z.testbit (u32 (Z.shiftl x r)) m = Z.testbit x (m - r).
Proof. intros Hr Hm. unfold u32. rewrite Z.mod_pow2_bits_low by lia. apply Z.shiftl_spec; lia. Qed.

(** A bit position [n >= 0] as limb [j] and bit [m] of it. *)
Lemma bit_split n : 0 <= n -> exists j m, n / 32 = j /\ n mod 32 = m /\ n = 32 * j + m /\ 0 <= j /\ 0 <= m < 32.
Proof.
  intros Hn. exists (n / 32), (n mod 32). split_and!; try done.
  - apply Z.div_mod; lia.
  - apply Z.div_pos; lia.
  - apply Z.mod_pos_bound; lia.
  - apply Z.mod_pos_bound; lia.
Qed.

Lemma bit_join j m n : n = 32 * j + m -> 0 <= m < 32 -> n / 32 = j /\ n mod 32 = m.
Proof.
  intros -> Hm. split; symmetry; [apply (Z.div_unique _ _ _ m)|apply (Z.mod_unique _ _ j)]; lia.
Qed.

Lemma testbit_if (b : bool) x m : Z.testbit x m = false -> Z.testbit (if b then x else 0) m = false.
Proof. destruct b; [done|]. intros _. apply Z.bits_0. Qed.

Lemma shl_testbit a s n : arith_ok a -> 0 <= s -> 0 <= n < 256 ->
  Z.testbit (val (arith_shl a s)) n = Z.testbit (val a) (n - s).
Proof.
  intros [Hl Ha] Hs Hn. unfold arith_shl.
  destruct (bit_split s Hs) as (k & r & -> & -> & Es & Hk & Hr).
  rewrite val_testbit by (lia || by apply shl_fold_ok).
  destruct (bit_split n) as (j & m & -> & -> & En & Hj & Hm); [lia|].
  rewrite shl_fold_nth by (unfold WIDTH; done || lia). rewrite Z.lor_spec.
  destruct (Z.lt_ge_cases n s) as [Hlt|Hge]; [rewrite (Z.testbit_neg_r _ (n - s)) by lia|rewrite (val_testbit a) by (done || lia)].
  - apply orb_false_intro; case_match eqn:Hc; try apply Z.bits_0; bool_to_prop.
    + rewrite u32_shiftl_testbit by lia. apply Z.testbit_neg_r. apply Nat.leb_le in H. lia.
    + apply Nat.leb_le in H. lia.
  - destruct (Z.lt_ge_cases m r) as [Hmr|Hmr].
    + destruct (bit_join (j - k - 1) (m - r + 32) (n - s)) as [-> ->]; [lia..|].
      destruct (Z.eqb_spec r 0); [lia|]. unfold WIDTH. nat_cases.
      rewrite u32_shiftl_testbit, Z.shiftr_spec, (Z.testbit_neg_r _ (m - r)) by lia. cbn [orb].
      f_equal; [f_equal|]; lia.
    + destruct (bit_join (j - k) (m - r) (n - s)) as [-> ->]; [lia..|]. unfold WIDTH.
      rewrite (testbit_if _ (Z.shiftr _ _)).
      2:{ rewrite Z.shiftr_spec by lia. apply testbit_limb_high; [by apply limbs_nth|lia]. }
      nat_cases. rewrite u32_shiftl_testbit, orb_false_r by lia. f_equal; f_equal; lia.
Qed.

Lemma arith_shl_ok a s : arith_ok a -> 0 <= s ->
  arith_ok (arith_shl a s) /\ val (arith_shl a s) = (val a * 2 ^ s) mod 2 ^ 256.
Proof.
  intros Ha Hs. assert (arith_ok (arith_shl a s)) as Hok.
  { apply shl_fold_ok; [apply Ha|]. apply Z.mod_pos_bound. lia. }
  split; [done|]. pose proof (arith_val_range _ Hok) as Hv. rewrite <- (Z.mod_small _ _ Hv).
  apply Z.bits_inj'. intros n Hn. destruct (Z.lt_ge_cases n 256) as [Hlt|Hge].
  - rewrite !Z.mod_pow2_bits_low, shl_testbit, Z.mul_pow2_bits by (done || lia). done.
  - by rewrite !Z.mod_pow2_bits_high by lia.
Qed.

Lemma shr_step_ok a k s pn i : limbs a -> 0 <= s < 32 -> arith_ok pn -> arith_ok (shr_step a k s pn i).
Proof.
  intros Ha Hs Hp. unfold shr_step. pose proof (limbs_nth a i Ha) as Hai.
  assert (forall (b : bool) q y j, arith_ok q -> is_u32 y -> arith_ok (if b then alter (fun x => Z.lor x y) j q else q)) as H2.
  { intros [] q y j Hq Hy; [by apply alter_lor_ok|done]. }
  apply H2; [apply H2; [done|apply u32_range]|apply shiftr_limb; [done|lia]].
Qed.

Lemma shr_fold_ok a k s t : limbs a -> 0 <= s < 32 -> arith_ok (foldl (shr_step a k s) arith_zero (seq 0 t)).
Proof.
  intros Ha Hs. induction t as [|t IH]; [apply arith_zero_ok|].
  rewrite seq_S, foldl_app. by apply shr_step_ok.
Qed.

(** Limb [j] after [t] iterations of [operator>>=]. *)
Lemma shr_fold_nth a k s t j :
  limbs a -> 0 <= s < 32 -> (j < WIDTH)%nat -> (t <= WIDTH)%nat ->
  nth j (foldl (shr_step a k s) arith_zero (seq 0 t)) 0 =
    Z.lor (if (j + k <? t)%nat then Z.shiftr (nth (j + k) a 0) s else 0)
          (if (j + k + 1 <? t)%nat && negb (s =? 0) then u32 (Z.shiftl (nth (j + k + 1) a 0) (32 - s)) else 0).
Proof.
  intros Ha Hs Hj. induction t as [|t IH]; intros Ht.
  { nat_cases; change (nth j arith_zero 0 = 0); unfold arith_zero; by rewrite nth_repeat. }
  rewrite seq_S, foldl_app. cbn [foldl Nat.add].
  destruct (shr_fold_ok a k s t Ha Hs) as [Hlen _]. specialize (IH ltac:(lia)).
  set (pn := foldl (shr_step a k s) arith_zero (seq 0 t)) in *. unfold shr_step.
  rewrite !nth_if_alter, length_if_alter, Hlen, IH. clear IH pn Hlen.
  destruct (s =? 0); nat_cases; rewrite ?Z.lor_0_l, ?Z.lor_0_r; try done.
  all: try (replace (j + k)%nat with t by lia); try (replace (j + k + 1)%nat with t by lia); try done.
Qed.

Lemma shr_testbit a s n : arith_ok a -> 0 <= s -> 0 <= n < 256 ->
  Z.testbit (val (arith_shr a s)) n = Z.testbit (val a) (n + s).
Proof.
  intros [Hl Ha] Hs Hn. unfold arith_shr.
  destruct (bit_split s Hs) as (k & r & -> & -> & Es & Hk & Hr).
  rewrite val_testbit by (lia || by apply shr_fold_ok).
  destruct (bit_split n) as (j & m & -> & -> & En & Hj & Hm); [lia|].
  rewrite shr_fold_nth by (unfold WIDTH; done || lia). rewrite Z.lor_spec, (val_testbit a) by (done || lia).
  assert (forall i, (8 <= i)%nat -> nth i a 0 = 0) as Hover by (intros i Hi; apply nth_overflow; rewrite Hl; done).
  destruct (Z.lt_ge_cases (m + r) 32) as [Hmr|Hmr].
  - destruct (bit_join (j + k) (m + r) (n + s)) as [-> ->]; [lia..|]. rewrite orb_comm.
    rewrite (testbit_if _ (u32 _)) by (rewrite u32_shiftl_testbit by lia; apply Z.testbit_neg_r; lia).
    cbn [orb]. replace (Z.to_nat (j + k)) with (Z.to_nat j + Z.to_nat k)%nat by lia. unfold WIDTH.
    nat_cases; [by rewrite Z.shiftr_spec by lia|]. by rewrite Hover, !Z.bits_0 by lia.
  - destruct (bit_join (j + k + 1) (m + r - 32) (n + s)) as [-> ->]; [lia..|].
    rewrite (testbit_if _ (Z.shiftr _ _)).
    2:{ rewrite Z.shiftr_spec by lia. apply testbit_limb_high; [by apply limbs_nth|lia]. }
    cbn [orb]. replace (Z.to_nat (j + k + 1)) with (Z.to_nat j + Z.to_nat k + 1)%nat by lia. unfold WIDTH.
    destruct (Z.eqb_spec r 0); [lia|]. nat_cases; [|by rewrite Hover, !Z.bits_0 by lia].
    rewrite u32_shiftl_testbit by lia. f_equal. lia.
Qed.

Lemma arith_shr_ok a s : arith_ok a -> 0 <= s ->
  arith_ok (arith_shr a s) /\ val (arith_shr a s) = val a / 2 ^ s.
Proof.
  intros Ha Hs. assert (arith_ok (arith_shr a s)) as Hok.
  { apply shr_fold_ok; [apply Ha|]. apply Z.mod_pos_bound. lia. }
  split; [done|]. pose proof (arith_val_range _ Hok) as Hv. pose proof (arith_val_range _ Ha) as Hva.
  rewrite <- Z.shiftr_div_pow2, <- (Z.mod_small _ _ Hv) by done.
  apply Z.bits_inj'. intros n Hn. rewrite Z.shiftr_spec by done. destruct (Z.lt_ge_cases n 256) as [Hlt|Hge].
  - by rewrite !Z.mod_pow2_bits_low, shr_testbit by (done || lia).
  - rewrite <- (Z.mod_small _ _ Hva). by rewrite !Z.mod_pow2_bits_high by lia.
Qed.

(** ** Division *)

Lemma set_bit_ok q i : arith_ok q -> 0 <= i < 256 ->
  arith_ok (set_bit q i) /\ val (set_bit q i) = Z.lor (val q) (2 ^ i).
Proof.
  intros Hq Hi. assert (arith_ok (set_bit q i)) as Hok by (apply alter_lor_ok; [done|apply u32_range]).
  split; [done|]. apply Z.bits_inj'. intros n Hn.
  rewrite Z.lor_spec, Z.pow2_bits_eqb, !val_testbit by (apply Hok || apply Hq || lia).
  unfold set_bit. rewrite nth_alter. destruct Hq as [-> Hq]. change 31 with (2 ^ 5 - 1).
  rewrite land_ones_mod by lia. change (2 ^ 5) with 32. unfold WIDTH.
  destruct (bit_split i) as (k & r & -> & -> & Ei & Hk & Hr); [lia|].
  destruct (bit_split n Hn) as (j & m & -> & -> & En & Hj & Hm).
  nat_cases; try (by rewrite (proj2 (Z.eqb_neq i n)), orb_false_r by lia).
  rewrite Z.lor_spec, u32_shiftl_testbit by lia. f_equal. change 1 with (2 ^ 0).
  rewrite Z.pow2_bits_eqb by lia. destruct (Z.eqb_spec i n), (Z.eqb_spec 0 (m - r)); lia || done.
Qed.

(** [n] rounds left: the quotient's bits below [n] are clear, the divisor is
    shifted by [n - 1] and the remainder is less than the divisor shifted by [n]. *)
Lemma div_loop_ok n num div quo b :
  (n <= 256)%nat -> arith_ok num -> arith_ok div -> arith_ok quo -> 0 < b ->
  (n <> O -> val div = b * 2 ^ (Z.of_nat n - 1)) ->
  val num < b * 2 ^ Z.of_nat n -> (exists c, val quo = c * 2 ^ Z.of_nat n) ->
  arith_ok (div_loop n num div quo) /\ val (div_loop n num div quo) = val quo + val num / b.
Proof.
  intros Hn Hnum Hdiv Hquo Hb. revert num div quo Hnum Hdiv Hquo.
  induction n as [|n IH]; intros num div quo Hnum Hdiv Hquo Hd Hlt [c Hc]; cbn [div_loop].
  { split; [done|]. rewrite Z.div_small; [lia|]. pose proof (arith_val_range _ Hnum). lia. }
  specialize (Hd ltac:(lia)). replace (Z.of_nat (S n) - 1) with (Z.of_nat n) in Hd by lia.
  rewrite Nat2Z.inj_succ, Z.pow_succ_r in Hlt, Hc by lia.
  destruct (arith_shr_ok div 1 Hdiv ltac:(lia)) as [Hdiv' Hv'].
  assert (n <> O -> val (arith_shr div 1) = b * 2 ^ (Z.of_nat n - 1)) as Hd'.
  { intros Hn0. rewrite Hv', Hd. replace (Z.of_nat n) with (Z.succ (Z.of_nat n - 1)) at 1 by lia.
    rewrite Z.pow_succ_r by lia. rewrite Z.pow_1_r, (Z.mul_comm 2), Z.mul_assoc. apply Z.div_mul. lia. }
  rewrite CompareTo_ok by done. pose proof (arith_val_range _ Hnum). pose proof (arith_val_range _ Hdiv).
  destruct (Z.leb_spec 0 (Z.sgn (val num - val div))) as [Hcmp|Hcmp].
  - assert (val div <= val num) by lia.
    destruct (arith_sub_ok num div Hnum Hdiv) as [Hs Hsv]. rewrite Z.mod_small in Hsv by lia.
    destruct (set_bit_ok quo (Z.of_nat n) Hquo ltac:(lia)) as [Hq Hqv].
    rewrite Hc in Hqv. replace (c * (2 * 2 ^ Z.of_nat n)) with ((c * 2 ^ 1) * 2 ^ Z.of_nat n) in Hqv by lia.
    replace ((c * 2 ^ 1) * 2 ^ Z.of_nat n) with (c * 2 ^ (Z.of_nat n + 1)) in Hqv by (rewrite Z.pow_add_r by lia; lia).
    rewrite lor_shift_add in Hqv by (rewrite ?Z.pow_add_r by lia; lia).
    rewrite Z.pow_add_r in Hqv by lia.
    destruct (IH ltac:(lia) _ _ _ Hs Hdiv' Hq Hd') as [Hok ->]; [lia|exists (2 * c + 1); lia|].
    split; [done|]. rewrite Hqv, Hsv, Hd.
    replace (val num) with (val num - b * 2 ^ Z.of_nat n + 2 ^ Z.of_nat n * b) at 2 by lia.
    rewrite Z.div_add by lia. lia.
  - apply IH; try done; [lia..|]. exists (2 * c). lia.
Qed.

Lemma arith_div_ok a b : arith_ok a -> arith_ok b ->
  if val b =? 0 then arith_div a b = Throw (uint_error "Division by zero")
  else exists q, arith_div a b = Ok q /\ arith_ok q /\ val q = val a / val b.
Proof.
  intros Ha Hb. unfold arith_div. rewrite !bits_ok by done.
  pose proof (arith_val_range _ Ha) as Hva. pose proof (arith_val_range _ Hb) as Hvb.
  destruct (Z.eqb_spec (val b) 0) as [Hz|Hne]; [done|].
  pose proof (Z.log2_nonneg (val b)). rewrite (proj2 (Z.eqb_neq (Z.log2 (val b) + 1) 0)) by lia.
  pose proof (Z.log2_spec (val b) ltac:(lia)) as [Hlb Hub].
  case_match eqn:Hsz; bool_to_prop.
  - eexists; split_and!; [done|apply arith_zero_ok|]. rewrite arith_zero_val, Z.div_small; [done|].
    destruct (Z.eqb_spec (val a) 0); [lia|]. split; [lia|].
    pose proof (Z.log2_spec (val a) ltac:(lia)) as Hsa. eapply Z.lt_le_trans; [apply Hsa|].
    etransitivity; [|apply Hlb]. apply Z.pow_le_mono_r; lia.
  - destruct (Z.eqb_spec (val a) 0) as [|Hna]; [lia|].
    pose proof (Z.log2_spec (val a) ltac:(lia)) as [Hla Hua].
    assert (Z.log2 (val a) < 256) by (apply Z.log2_lt_pow2; lia).
    set (sh := Z.log2 (val a) + 1 - (Z.log2 (val b) + 1)) in *.
    assert (val b * 2 ^ sh < 2 ^ 256).
    { eapply Z.lt_le_trans; [apply Z.mul_lt_mono_pos_r; [lia|exact Hub]|].
      rewrite <- Z.pow_add_r by lia. apply Z.pow_le_mono_r; lia. }
    destruct (arith_shl_ok b sh Hb ltac:(lia)) as [Hs Hsv].
    rewrite Z.mod_small in Hsv by (pose proof (Z.pow_pos_nonneg 2 sh); lia).
    destruct (div_loop_ok (Z.to_nat (sh + 1)) a (arith_shl b sh) arith_zero (val b)) as [Hq Hqv];
      rewrite ?Z2Nat.id by lia; try (done || lia || apply arith_zero_ok).
    + rewrite Hsv. intros _. do 2 f_equal. lia.
    + eapply Z.lt_le_trans; [apply Hua|].
      replace (Z.succ (Z.log2 (val a))) with (Z.log2 (val b) + (sh + 1)) by lia.
      rewrite Z.pow_add_r by lia. apply Z.mul_le_mono_nonneg_r; [|done].
      pose proof (Z.pow_pos_nonneg 2 (sh + 1)). lia.
    + exists 0. apply arith_zero_val.
    + eexists; split_and!; [done..|]. by rewrite Hqv, arith_zero_val.
Qed.

(** ** The compact form *)

Lemma testbit_top m k : 0 <= k -> 0 <= m < 2 ^ (k + 1) -> Z.testbit m k = (2 ^ k <=? m).
Proof.
  intros Hk Hm. rewrite Z.testbit_odd, Z.shiftr_div_pow2 by done. rewrite Z.pow_add_r in Hm by lia.
  pose proof (Z.pow_pos_nonneg 2 k). destruct (Z.leb_spec (2 ^ k) m).
  - by rewrite <- (Z.div_unique m (2 ^ k) 1 (m - 2 ^ k)) by lia.
  - by rewrite Z.div_small by lia.
Qed.

Lemma land_high m : 0 <= m < 2 ^ 23 -> Z.land m (u32 (Z.lnot 0x007fffff)) = 0.
Proof.
  intros Hm. change (u32 (Z.lnot 0x007fffff)) with (511 * 2 ^ 23). apply Z.bits_inj'. intros n Hn.
  rewrite Z.land_spec, Z.bits_0, Z.mul_pow2_bits by lia. destruct (Z.lt_ge_cases n 23).
  - by rewrite (Z.testbit_neg_r 511), andb_false_r by lia.
  - rewrite <- (Z.mod_small m (2 ^ 23)), Z.mod_pow2_bits_high by lia. done.
Qed.

Lemma GetLow64_ok a : arith_ok a -> GetLow64 a = val a mod 2 ^ 64.
Proof.
  intros [Hl Ha]. destruct a as [|x [|y a]]; try done. unfold GetLow64. cbn [nth val].
  apply Forall_cons_1 in Ha as [Hx Ha]. apply Forall_cons_1 in Ha as [Hy Ha]. unfold is_u32 in *.
  rewrite Z.shiftl_mul_pow2, u64_small, Z.lor_comm by (unfold is_u64; lia). rewrite lor_shift_add by lia.
  replace (x + B32 * (y + B32 * val a)) with (y * 2 ^ 32 + x + val a * 2 ^ 64) by lia.
  by rewrite Z.mod_add, Z.mod_small by lia.
Qed.

(** The byte length and the three leading bytes of a number. *)
Definition byte_size (v : Z) : Z := ((if v =? 0 then 0 else Z.log2 v + 1) + 7) / 8.
Definition leading (v : Z) : Z :=
  if byte_size v <=? 3 then v * 2 ^ (8 * (3 - byte_size v)) else v / 2 ^ (8 * (byte_size v - 3)).

Lemma byte_size_ok v : 0 < v -> 1 <= byte_size v /\ 2 ^ (8 * (byte_size v - 1)) <= v < 2 ^ (8 * byte_size v).
Proof.
  intros Hv. unfold byte_size. rewrite (proj2 (Z.eqb_neq v 0)) by lia.
  pose proof (Z.log2_spec v Hv) as [Hlo Hhi]. pose proof (Z.log2_nonneg v).
  pose proof (Z.div_mod (Z.log2 v + 1 + 7) 8 ltac:(lia)). pose proof (Z.mod_pos_bound (Z.log2 v + 1 + 7) 8 ltac:(lia)).
  split_and!; [lia| |].
  - etransitivity; [|apply Hlo]. apply Z.pow_le_mono_r; lia.
  - eapply Z.lt_le_trans; [apply Hhi|]. apply Z.pow_le_mono_r; lia.
Qed.

(** Numbers of the same bit length have the same byte length. *)
Lemma byte_size_unique v n : 1 <= n -> 2 ^ (8 * (n - 1)) <= v < 2 ^ (8 * n) -> byte_size v = n.
Proof.
  intros Hn Hv. assert (0 < v) as Hpos by (pose proof (Z.pow_pos_nonneg 2 (8 * (n - 1))); lia).
  destruct (byte_size_ok v Hpos) as (Hs & Hlo & Hhi).
  assert (8 * (n - 1) < 8 * byte_size v) by (apply (Z.pow_lt_mono_r_iff 2); lia).
  assert (8 * (byte_size v - 1) < 8 * n) by (apply (Z.pow_lt_mono_r_iff 2); lia). lia.
Qed.

Lemma leading_range v : 0 <= v -> 0 <= leading v < 2 ^ 24 /\ (0 < v -> 2 ^ 16 <= leading v).
Proof.
  intros Hv. destruct (Z.eq_dec v 0) as [->|Hne]; [by split|].
  destruct (byte_size_ok v ltac:(lia)) as (Hs & Hlo & Hhi). unfold leading. set (n := byte_size v) in *.
  enough (2 ^ 16 <= (if n <=? 3 then v * 2 ^ (8 * (3 - n)) else v / 2 ^ (8 * (n - 3))) < 2 ^ 24) by lia.
  destruct (Z.leb_spec n 3).
  - change (2 ^ 24) with (2 ^ (8 * 3)). replace (8 * 3) with (8 * n + 8 * (3 - n)) by lia.
    change (2 ^ 16) with (2 ^ (8 * 2)). replace (8 * 2) with (8 * (n - 1) + 8 * (3 - n)) by lia.
    rewrite !Z.pow_add_r by lia. pose proof (Z.pow_pos_nonneg 2 (8 * (3 - n))). nia.
  - replace (8 * n) with (24 + 8 * (n - 3)) in Hhi by lia.
    replace (8 * (n - 1)) with (16 + 8 * (n - 3)) in Hlo by lia. rewrite Z.pow_add_r in Hhi, Hlo by lia.
    pose proof (Z.pow_pos_nonneg 2 (8 * (n - 3))).
    split; [apply Z.div_le_lower_bound|apply Z.div_lt_upper_bound]; lia.
Qed.

(** [GetCompact] on a non-negative number: the leading bytes with their
    exponent, one byte shorter when the sign bit would be set. *)
Lemma GetCompact_ok a : arith_ok a ->
  GetCompact a false = Ok (if leading (val a) <? 2 ^ 23 then leading (val a) + 2 ^ 24 * byte_size (val a)
                           else leading (val a) / 256 + 2 ^ 24 * (byte_size (val a) + 1)).
Proof.
  intros Ha. pose proof (arith_val_range _ Ha) as Hv. unfold GetCompact. rewrite bits_ok by done.
  change (_ / 8) with (byte_size (val a)).
  assert (0 <= byte_size (val a) <= 32) as Hn.
  { destruct (Z.eq_dec (val a) 0) as [->|]; [vm_compute; split; congruence|].
    destruct (byte_size_ok (val a) ltac:(lia)) as (Hs & Hlo & _). split; [lia|].
    enough (8 * (byte_size (val a) - 1) < 256) by lia. apply (Z.pow_lt_mono_r_iff 2); lia. }
  destruct (leading_range (val a) ltac:(lia)) as [Hl _].
  set (c := if byte_size (val a) <=? 3 then _ else _). assert (c = leading (val a)) as ->.
  { subst c. unfold leading in *. destruct (Z.leb_spec (byte_size (val a)) 3) as [Hsz|Hsz].
    - rewrite GetLow64_ok, Z.shiftl_mul_pow2, Z.mod_small by (done || lia ||
        (assert (val a * 2 ^ (8 * (3 - byte_size (val a))) < 2 ^ 24) by lia;
         pose proof (Z.pow_pos_nonneg 2 (8 * (3 - byte_size (val a)))); nia)).
      apply u32_small. unfold is_u32. lia.
    - destruct (arith_shr_ok a (8 * (byte_size (val a) - 3)) Ha ltac:(lia)) as [Hok Hsv].
      rewrite GetLow64_ok, Hsv, Z.mod_small by (done || lia). apply u32_small. unfold is_u32. lia. }
  set (m := leading (val a)) in *. set (n := byte_size (val a)) in *.
  change 0x00800000 with (2 ^ 23). rewrite land_pow2, testbit_top, negb_involutive by lia.
  rewrite Z.leb_antisym. destruct (Z.ltb_spec m (2 ^ 23)) as [Hm|Hm]; cbn [negb].
  - rewrite land_high by lia. cbn [assert_then Z.eqb]. unfold assert_then.
    rewrite (proj2 (Z.ltb_lt n 256)), Z.lor_0_r, Z.lor_comm, Z.shiftl_mul_pow2, lor_shift_add by lia. f_equal. lia.
  - rewrite Z.shiftr_div_pow2 by lia. change (2 ^ 8) with 256.
    assert (0 <= m / 256 < 2 ^ 16) by (split; [apply Z.div_pos|apply Z.div_lt_upper_bound]; lia).
    rewrite land_high by lia. unfold assert_then. cbn [Z.eqb].
    rewrite (proj2 (Z.ltb_lt (n + 1) 256)), Z.lor_0_r, Z.lor_comm, Z.shiftl_mul_pow2, lor_shift_add by lia. f_equal. lia.
Qed.

(** The exponent, sign bit and mantissa of a compact number. *)
Definition compact_size (c : Z) : Z := c / 2 ^ 24.
Definition compact_sign (c : Z) : bool := Z.odd (c / 2 ^ 23).
Definition compact_word (c : Z) : Z :=
  if compact_size c <=? 3 then c mod 2 ^ 23 / 2 ^ (8 * (3 - compact_size c)) else c mod 2 ^ 23.
Definition compact_value (c : Z) : Z := compact_word c * 2 ^ (8 * Z.max 0 (compact_size c - 3)).

Lemma compact_word_range c : 0 <= compact_word c < 2 ^ 23.
Proof.
  unfold compact_word. pose proof (Z.mod_pos_bound c (2 ^ 23) ltac:(lia)).
  destruct (_ <=? 3) eqn:?; bool_to_prop; [|lia].
  pose proof (Z.pow_pos_nonneg 2 (8 * (3 - compact_size c))).
  split; [apply Z.div_pos; lia|]. apply Z.div_lt_upper_bound; nia.
Qed.

Lemma pow2_scale w k j : 0 <= k <= j -> 0 <= w -> 2 ^ (j - k) <= w <-> 2 ^ j <= w * 2 ^ k.
Proof.
  intros Hk Hw. replace j with (j - k + k) at 2 by lia. rewrite Z.pow_add_r by lia.
  pose proof (Z.pow_pos_nonneg 2 k). nia.
Qed.

Lemma SetCompact_ok c : is_u32 c ->
  exists a, SetCompact c = (a, negb (compact_word c =? 0) && compact_sign c, 2 ^ 256 <=? compact_value c) /\
    arith_ok a /\ val a = compact_value c mod 2 ^ 256.
Proof.
  intros Hc. unfold SetCompact, is_u32 in *. rewrite Z.shiftr_div_pow2 by lia. change (c / 2 ^ 24) with (compact_size c).
  change 0x007fffff with (2 ^ 23 - 1). rewrite land_ones_mod by lia.
  change 0x00800000 with (2 ^ 23). rewrite land_pow2, negb_involutive, Z.testbit_odd, (Z.shiftr_div_pow2 c 23) by lia.
  change (Z.odd (c / 2 ^ 23)) with (compact_sign c). pose proof (compact_word_range c) as Hw.
  assert (0 <= compact_size c < 256) as Hs by (unfold compact_size; split; [apply Z.div_pos|apply Z.div_lt_upper_bound]; lia).
  unfold compact_value. unfold compact_word in *. destruct (Z.leb_spec (compact_size c) 3) as [Hsz|Hsz].
  - rewrite Z.shiftr_div_pow2 by lia. set (w := _ / _) in *. rewrite Z.max_l, Z.mul_0_r, Z.mul_1_r by lia.
    destruct (arith_of_uint64_ok w) as [Hok Hv]; [unfold is_u64; lia|].
    eexists; split; [|by rewrite Hv, Z.mod_small by lia]. f_equal.
    rewrite (proj2 (Z.leb_gt (2 ^ 256) w)) by lia. rewrite !(proj2 (Z.ltb_ge _ (compact_size c))) by lia.
    rewrite !andb_false_r. done.
  - set (w := c mod 2 ^ 23) in *. rewrite Z.max_r by lia.
    destruct (arith_of_uint64_ok w) as [Hok Hv]; [unfold is_u64; lia|].
    destruct (arith_shl_ok (arith_of_uint64 w) (8 * (compact_size c - 3)) Hok ltac:(lia)) as [Hok' Hv'].
    eexists; split; [|by rewrite Hv', Hv]. f_equal. set (s := compact_size c) in *.
    destruct (Z.eqb_spec w 0) as [->|Hw0]; [done|]. cbn [negb andb].
    destruct (Z.lt_ge_cases 34 s).
    + rewrite (proj2 (Z.ltb_lt 34 s)) by lia. symmetry. apply Z.leb_le.
      pose proof (Z.pow_le_mono_r 2 256 (8 * (s - 3)) ltac:(lia) ltac:(lia)). nia.
    + pose proof (pow2_scale w (8 * (s - 3)) 256 ltac:(lia) ltac:(lia)) as Hsc.
      assert ((2 ^ 256 <=? w * 2 ^ (8 * (s - 3))) = (2 ^ (256 - 8 * (s - 3)) <=? w)) as ->.
      { apply eq_true_iff_eq. rewrite !Z.leb_le. by symmetry. }
      rewrite (proj2 (Z.ltb_ge 34 s)) by lia. cbn [orb].
      destruct (Z.eq_dec s 34) as [->|]; [|destruct (Z.eq_dec s 33) as [->|]].
      * change (2 ^ _) with 256. destruct (Z.ltb_spec 0xff w), (Z.leb_spec 256 w), (Z.ltb_spec 0xffff w); try lia; done.
      * change (2 ^ _) with 65536. destruct (Z.ltb_spec 0xff w), (Z.leb_spec 65536 w), (Z.ltb_spec 0xffff w); try lia; done.
      * rewrite !(proj2 (Z.ltb_ge _ s)), !andb_false_r by lia. symmetry. apply Z.leb_gt.
        eapply Z.lt_le_trans; [apply Hw|]. apply Z.pow_le_mono_r; lia.
Qed.

Lemma compact_decode w s : 0 <= w < 2 ^ 23 -> 0 <= s ->
  compact_size (w + 2 ^ 24 * s) = s /\ compact_sign (w + 2 ^ 24 * s) = false /\ (w + 2 ^ 24 * s) mod 2 ^ 23 = w.
Proof.
  intros Hw Hs. unfold compact_size, compact_sign. split_and!.
  - symmetry. apply (Z.div_unique _ _ _ w); lia.
  - rewrite <- (Z.div_unique _ (2 ^ 23) (2 * s) w) by lia. by rewrite Z.odd_mul.
  - symmetry. apply (Z.mod_unique _ _ (2 * s)); lia.
Qed.

Lemma div_pow2_split v j k : 0 <= j -> 0 <= k -> v * 2 ^ (j + k) / 2 ^ j = v * 2 ^ k.
Proof.
  intros Hj Hk. rewrite Z.pow_add_r, (Z.mul_comm (2 ^ j)), Z.mul_assoc by lia. apply Z.div_mul.
  pose proof (Z.pow_pos_nonneg 2 j). lia.
Qed.

(** The compact number of [v] and the number of low bytes it drops. *)
Definition compact_enc (v : Z) : Z :=
  if leading v <? 2 ^ 23 then leading v + 2 ^ 24 * byte_size v
  else leading v / 256 + 2 ^ 24 * (byte_size v + 1).
Definition compact_drop (v : Z) : Z :=
  if leading v <? 2 ^ 23 then Z.max 0 (byte_size v - 3) else Z.max 0 (byte_size v - 2).

Lemma compact_enc_value v : 0 < v ->
  compact_value (compact_enc v) = v / 2 ^ (8 * compact_drop v) * 2 ^ (8 * compact_drop v) /\
  compact_sign (compact_enc v) = false.
Proof.
  intros Hv. destruct (byte_size_ok v Hv) as (Hn & _ & _). destruct (leading_range v ltac:(lia)) as [Hl _].
  unfold compact_value, compact_word, compact_enc, compact_drop.
  destruct (Z.ltb_spec (leading v) (2 ^ 23)).
  - destruct (compact_decode (leading v) (byte_size v)) as (-> & -> & ->); [lia..|]. split; [|done].
    unfold leading. destruct (Z.leb_spec (byte_size v) 3).
    + rewrite Z.max_l, Z.div_mul, Z.mul_0_r, Z.div_1_r by (try pose proof (Z.pow_pos_nonneg 2 (8 * (3 - byte_size v))); lia). done.
    + by rewrite Z.max_r by lia.
  - assert (0 <= leading v / 256 < 2 ^ 23) by (split; [apply Z.div_pos|apply Z.div_lt_upper_bound]; lia).
    destruct (compact_decode (leading v / 256) (byte_size v + 1)) as (-> & -> & ->); [lia..|]. split; [|done].
    unfold leading. destruct (Z.leb_spec (byte_size v) 3), (Z.leb_spec (byte_size v + 1) 3); try lia.
    + rewrite !Z.max_l, Z.mul_0_r, Z.div_1_r by lia. f_equal. change 256 with (2 ^ 8).
      replace (8 * (3 - byte_size v)) with (8 + 8 * (3 - (byte_size v + 1))) by lia.
      rewrite div_pow2_split, Z.div_mul by (try pose proof (Z.pow_pos_nonneg 2 (8 * (3 - (byte_size v + 1)))); lia). done.
    + assert (byte_size v = 3) as -> by lia. cbn. by rewrite Z.mul_1_r.
    + rewrite !Z.max_r by lia. change 256 with (2 ^ 8).
      rewrite Z.div_div, <- Z.pow_add_r by (try pose proof (Z.pow_pos_nonneg 2 (8 * (byte_size v - 3))); lia).
      do 2 f_equal; [do 2 f_equal|]; lia.
Qed.

Lemma compact_drop_bound v : 0 < v ->
  0 <= compact_drop v <= Z.max 0 (byte_size v - 2) /\ (compact_drop v = 0 \/ 2 ^ (8 * compact_drop v + 15) <= v).
Proof.
  intros Hv. destruct (byte_size_ok v Hv) as (Hn & Hlo & _). unfold compact_drop.
  destruct (Z.ltb_spec (leading v) (2 ^ 23)) as [Hl|Hl]; (split; [lia|]).
  - destruct (Z.le_gt_cases (byte_size v) 3); [left; lia|right]. etransitivity; [|exact Hlo]. apply Z.pow_le_mono_r; lia.
  - destruct (Z.le_gt_cases (byte_size v) 2); [left; lia|right]. unfold leading in Hl. rewrite Z.max_r by lia.
    destruct (Z.leb_spec (byte_size v) 3).
    + assert (byte_size v = 3) as E by lia. rewrite E in *. change (2 ^ (8 * (3 - 3))) with 1 in Hl. cbn in *. lia.
    + replace (8 * (byte_size v - 2) + 15) with (23 + 8 * (byte_size v - 3)) by lia. rewrite Z.pow_add_r by lia.
      etransitivity; [apply Z.mul_le_mono_nonneg_r; [|exact Hl]|].
      * pose proof (Z.pow_pos_nonneg 2 (8 * (byte_size v - 3))). lia.
      * rewrite Z.mul_comm. apply Z.mul_div_le. pose proof (Z.pow_pos_nonneg 2 (8 * (byte_size v - 3))). lia.
Qed.

(** Clearing low bits below the leading ones keeps the bit length. *)
Lemma truncate_range v j k : 0 <= j <= k -> 2 ^ k <= v -> 2 ^ k <= v / 2 ^ j * 2 ^ j <= v.
Proof.
  intros Hj Hv. pose proof (Z.pow_pos_nonneg 2 j). split.
  - replace k with (k - j + j) by lia. rewrite Z.pow_add_r by lia. apply Z.mul_le_mono_nonneg_r; [lia|].
    apply Z.div_le_lower_bound; [lia|]. rewrite <- Z.pow_add_r by lia. by replace (j + (k - j)) with k by lia.
  - rewrite Z.mul_comm. apply Z.mul_div_le. lia.
Qed.

Lemma compact_enc_idem v : 0 < v ->
  compact_enc (v / 2 ^ (8 * compact_drop v) * 2 ^ (8 * compact_drop v)) = compact_enc v.
Proof.
  intros Hv. destruct (byte_size_ok v Hv) as (Hn & Hlo & Hhi). destruct (compact_drop_bound v Hv) as [Hd _].
  destruct (Z.eq_dec (compact_drop v) 0) as [->|Hd0]; [by rewrite Z.mul_0_r, Z.div_1_r, Z.mul_1_r|].
  destruct (truncate_range v (8 * compact_drop v) (8 * (byte_size v - 1))) as [Hlo' Hle]; [lia|done|].
  set (v' := v / _ * _) in *. assert (byte_size v' = byte_size v) as En by (apply byte_size_unique; lia).
  unfold compact_enc. assert (leading v' = if leading v <? 2 ^ 23 then leading v else leading v / 256 * 256) as ->.
  - unfold leading at 1. rewrite En. subst v'. unfold compact_drop in *.
    destruct (Z.ltb_spec (leading v) (2 ^ 23)) as [Hl|Hl]; unfold leading; destruct (Z.leb_spec (byte_size v) 3); try lia.
    + rewrite Z.max_r, Z.div_mul by (try pose proof (Z.pow_pos_nonneg 2 (8 * (byte_size v - 3))); lia). done.
    + assert (byte_size v = 3) as -> by lia. cbn. by rewrite !Z.mul_1_r.
    + rewrite Z.max_r by lia. replace (8 * (byte_size v - 2)) with (8 * (byte_size v - 3) + 8) by lia.
      rewrite div_pow2_split by lia. rewrite Z.pow_add_r, <- Z.div_div by lia. done.
  - rewrite En. destruct (Z.ltb_spec (leading v) (2 ^ 23)) as [Hl|Hl].
    + by rewrite (proj2 (Z.ltb_lt _ _)) by done.
    + pose proof (truncate_range (leading v) 8 23 ltac:(lia) Hl) as [Ht _]. change (2 ^ 8) with 256 in Ht.
      rewrite (proj2 (Z.ltb_ge _ _)), Z.div_mul by lia. done.
Qed.

Lemma compact_enc_u32 v : 0 <= v < 2 ^ 256 -> is_u32 (compact_enc v).
Proof.
  intros Hv. destruct (Z.eq_dec v 0) as [->|Hne]; [done|].
  destruct (byte_size_ok v ltac:(lia)) as (Hn & Hlo & _). destruct (leading_range v ltac:(lia)) as [Hl _].
  assert (8 * (byte_size v - 1) < 256) by (apply (Z.pow_lt_mono_r_iff 2); lia).
  assert (0 <= leading v / 256 < 2 ^ 16) by (split; [apply Z.div_pos|apply Z.div_lt_upper_bound]; lia).
  unfold compact_enc, is_u32. destruct (Z.ltb_spec (leading v) (2 ^ 23)); lia.
Qed.

Lemma compact_zero : compact_enc 0 = 0.
Proof. done. Qed.

(** ** The opaque blob *)

Lemma ArithToUint256_ok a : limbs a ->
  bytes_ok (ArithToUint256 a) /\ length (ArithToUint256 a) = (4 * length a)%nat /\ le_value (ArithToUint256 a) = val a.
Proof.
  unfold ArithToUint256. induction 1 as [|x a Hx _ (IH1 & IH2 & IH3)]; [by split_and!; try apply Forall_nil|].
  cbn [map concat length val]. split_and!.
  - apply bytes_ok_app. split; [apply le_bytes_ok|done].
  - rewrite length_app, IH2. unfold WriteLE32. rewrite length_le_bytes. lia.
  - rewrite le_value_app, IH3. unfold WriteLE32. rewrite length_le_bytes, le_value_small by done. done.
Qed.

(** Limb [x] of the array is bytes [4x .. 4x+3] of the blob. *)
Lemma UintToArith_limbs n off h : bytes_ok h -> length h = (off * 4 + 4 * n)%nat ->
  limbs (map (fun x => ReadLE32 h (x * 4)) (seq off n)) /\
  val (map (fun x => ReadLE32 h (x * 4)) (seq off n)) = le_value (drop (off * 4) h).
Proof.
  intros Hh. revert off; induction n as [|n IH]; intros off Hl; cbn [seq map val].
  { split; [constructor|]. by rewrite drop_ge by lia. }
  destruct (IH (S off)) as [Hli ->]; [lia|]. unfold ReadLE32 at 1 3.
  assert (bytes_ok (take 4 (drop (off * 4) h))) as Ht by (by apply Forall_take, Forall_drop).
  assert (length (take 4 (drop (off * 4) h)) = 4%nat) as Hl4 by (rewrite length_take, length_drop; lia).
  pose proof (le_value_range _ Ht) as Hr. rewrite Hl4 in Hr. split; [by constructor|].
  rewrite <- (take_drop 4 (drop (off * 4) h)) at 2. rewrite le_value_app, Hl4, drop_drop.
  replace (off * 4 + 4)%nat with (S off * 4)%nat by lia. done.
Qed.

Lemma UintToArith256_ok h : uint256_ok h -> arith_ok (UintToArith256 h) /\ val (UintToArith256 h) = le_value h.
Proof.
  intros [Hl Hh]. destruct (UintToArith_limbs WIDTH 0 h Hh) as [Hli Hv]; [unfold zlen, WIDTH in *; lia|].
  split; [by split|done].
Qed.

(** * Properties *)

(** C33: the operators of [base_uint] on 8 limbs of 32 bits are the arithmetic
    of the numbers the limbs denote modulo 2^256: every operator keeps the
    representation well formed, [+ - * <<] wrap around, [>>] and [/] are the
    exact quotients, division by zero is the only exception, [CompareTo] is the
    sign of the difference and [bits] the bit length. *)
Theorem arith_refines_Z (a b : arith_uint256) (n : Z) :
  arith_ok a -> arith_ok b -> 0 <= n ->
  (arith_ok (arith_add a b) /\ val (arith_add a b) = (val a + val b) mod 2 ^ 256) /\
  (arith_ok (arith_sub a b) /\ val (arith_sub a b) = (val a - val b) mod 2 ^ 256) /\
  (arith_ok (arith_mul a b) /\ val (arith_mul a b) = (val a * val b) mod 2 ^ 256) /\
  (arith_ok (arith_shl a n) /\ val (arith_shl a n) = (val a * 2 ^ n) mod 2 ^ 256) /\
  (arith_ok (arith_shr a n) /\ val (arith_shr a n) = val a / 2 ^ n) /\
  (if val b =? 0 then arith_div a b = Throw (uint_error "Division by zero")
   else exists q, arith_div a b = Ok q /\ arith_ok q /\ val q = val a / val b) /\
  CompareTo a b = Z.sgn (val a - val b) /\
  bits a = (if val a =? 0 then 0 else Z.log2 (val a) + 1).
Proof.
  intros Ha Hb Hn.
  exact (conj (arith_add_ok a b Ha Hb) (conj (arith_sub_ok a b Ha Hb) (conj (arith_mul_ok a b Ha Hb)
    (conj (arith_shl_ok a n Ha Hn) (conj (arith_shr_ok a n Ha Hn) (conj (arith_div_ok a b Ha Hb)
    (conj (CompareTo_ok a b Ha Hb) (bits_ok a Ha)))))))).
Qed.

Lemma arith_refines_Z_witness :
  let a := arith_of_uint64 1000 in let b := arith_of_uint64 7 in
  exists q, arith_div a b = Ok q /\ arith_ok q /\ val q = 142.
Proof.
  intros a b. assert (arith_ok a /\ arith_ok b) as [Ha Hb] by (split; apply arith_of_uint64_ok; done).
  destruct (arith_refines_Z a b 3 Ha Hb) as (_ & _ & _ & _ & _ & Hd & _); [lia|]. exact Hd.
Defined.

(** encoding a 256-bit target with [GetCompact] never trips its
    assertions and gives a 32-bit word; decoding that word with [SetCompact]
    gives no negative or overflow flag and returns the target with its [k] low
    bytes cleared, where bytes are dropped only below the 16 leading bits; and
    the compact form is canonical: encoding the decoded target gives the same
    word. *)
Theorem compact_roundtrip (a : arith_uint256) :
  arith_ok a ->
  exists c a' k,
    GetCompact a false = Ok c /\ SetCompact c = (a', false, false) /\ arith_ok a' /\
    0 <= k /\ val a' = val a / 2 ^ (8 * k) * 2 ^ (8 * k) /\ (k = 0 \/ 2 ^ (8 * k + 15) <= val a) /\
    GetCompact a' false = Ok c.
Proof.
  intros Ha. pose proof (arith_val_range _ Ha) as Hv. pose proof (GetCompact_ok a Ha) as Hg.
  change (if leading _ <? _ then _ else _) with (compact_enc (val a)) in Hg.
  destruct (Z.eq_dec (val a) 0) as [Hz|Hnz].
  { exists 0, arith_zero, 0. rewrite Hz, compact_zero in Hg. rewrite Hz. split_and!; try done; [apply arith_zero_ok|by left]. }
  destruct (compact_enc_value (val a) ltac:(lia)) as [Hval Hsign]. destruct (compact_drop_bound (val a) ltac:(lia)) as [Hd Hk].
  pose proof (Z.pow_pos_nonneg 2 (8 * compact_drop (val a)) ltac:(lia) ltac:(lia)) as Hp.
  assert (0 <= val a / 2 ^ (8 * compact_drop (val a)) * 2 ^ (8 * compact_drop (val a)) <= val a) as Hle.
  { split; [apply Z.mul_nonneg_nonneg; [apply Z.div_pos|]; lia|]. rewrite Z.mul_comm. apply Z.mul_div_le. lia. }
  destruct (SetCompact_ok (compact_enc (val a))) as (a' & Hs & Ha' & Hv'); [by apply compact_enc_u32|].
  rewrite Hval, Z.mod_small in Hv' by lia. rewrite Hsign, Hval, andb_false_r, (proj2 (Z.leb_gt _ _)) in Hs by lia.
  exists (compact_enc (val a)), a', (compact_drop (val a)). split_and!; try done; [lia|].
  rewrite GetCompact_ok by done. rewrite Hv'. f_equal. apply compact_enc_idem. lia.
Qed.

Lemma compact_roundtrip_witness :
  exists c, GetCompact (arith_of_uint64 0x123456789a) false = Ok c /\ c = 0x05123456.
Proof.
  destruct (compact_roundtrip (arith_of_uint64 0x123456789a)) as (c & _ & _ & Hc & _); [by apply arith_of_uint64_ok|].
  exists c. split; [done|]. vm_compute in Hc. congruence.
Defined.

(** decoding any 32-bit word with [SetCompact] gives the value mantissa *
    256^(exponent - 3) modulo 2^256, and the flags are exact: negative is set
    exactly when the mantissa is not zero and the sign bit is set, overflow
    exactly when the value does not fit in 256 bits. *)
Theorem SetCompact_exact (c : Z) :
  is_u32 c ->
  exists a, SetCompact c = (a, negb (compact_word c =? 0) && compact_sign c, 2 ^ 256 <=? compact_value c) /\
    arith_ok a /\ val a = compact_value c mod 2 ^ 256.
Proof. apply SetCompact_ok. Qed.

Lemma SetCompact_exact_witness : exists a, SetCompact 0x1d00ffff = (a, false, false) /\ val a = 0xffff * 2 ^ 208.
Proof.
  destruct (SetCompact_exact 0x1d00ffff) as (a & Hs & _ & Hv); [done|].
  exists a. split; [exact Hs|]. rewrite Hv. done.
Defined.

(** [UintToArith256] reads a hash as the little-endian number of its 32
    bytes, and [ArithToUint256] is its inverse in both directions. *)
Theorem uint256_conversions (h : uint256) (a : arith_uint256) :
  uint256_ok h -> arith_ok a ->
  val (UintToArith256 h) = le_value h /\ ArithToUint256 (UintToArith256 h) = h /\
  uint256_ok (ArithToUint256 a) /\ UintToArith256 (ArithToUint256 a) = a.
Proof.
  intros Hh Ha. destruct (UintToArith256_ok h Hh) as [Hu Hv].
  destruct (ArithToUint256_ok _ (proj2 Hu)) as (Hb & Hl & Hlv). rewrite (proj1 Hu) in Hl.
  destruct (ArithToUint256_ok _ (proj2 Ha)) as (Hb' & Hl' & Hlv'). rewrite (proj1 Ha) in Hl'.
  assert (uint256_ok (ArithToUint256 a)) as Hok by (split; [unfold zlen; by rewrite Hl'|done]).
  split_and!; try done.
  - destruct Hh as [Hlen Hh]. unfold zlen in Hlen. etransitivity; [symmetry; apply (le_bytes_value _ Hb)|].
    rewrite Hl, Hlv, Hv. change (4 * WIDTH)%nat with 32%nat.
    replace 32%nat with (length h) by lia. by apply le_bytes_value.
  - destruct (UintToArith256_ok _ Hok) as [Hu' Hv']. apply arith_val_inj; [done..|congruence].
Qed.

Lemma uint256_conversions_witness :
  ArithToUint256 (UintToArith256 (repeat 7 32)) = repeat 7 32 /\ UintToArith256 (ArithToUint256 arith_zero) = arith_zero.
Proof.
  destruct (uint256_conversions (repeat 7 32) arith_zero) as (_ & H1 & _ & H2); [|apply arith_zero_ok|by split].
  split; [done|]. apply (bool_decide_eq_true_1 (bytes_ok (repeat 7 32))). done.
Defined.
