(* ===== verification/Block.v ===== *)
(** * Blocks (block.h, block.cpp): headers and blocks with their
    serialization and hash *)
From S2P Require Import Prelude Serialize Amount Crypto Script Transaction.

(** ** CBlockHeader *)
Record CBlockHeader := mkCBlockHeader {
  bh_nVersion : Z;
  hashPrevBlock : uint256;
  hashMerkleRoot : uint256;
  bh_nTime : Z;
  bh_nBits : Z;
  bh_nNonce : Z;
}.

#[export] Instance CBlockHeader_eq_dec : EqDecision CBlockHeader.
Proof. solve_decision. Defined.

Definition CBlockHeader_null : CBlockHeader := mkCBlockHeader 0 uint256_null uint256_null 0 0 0.
Definition CBlockHeader_IsNull (b : CBlockHeader) : bool := bh_nBits b =? 0.

Definition CBlockHeader_codec : codec CBlockHeader :=
  map_codec
    (fun b => (bh_nVersion b, (hashPrevBlock b, (hashMerkleRoot b, (bh_nTime b, (bh_nBits b, bh_nNonce b))))))
    (fun '(v, (p, (m, (t, (n, o))))) => mkCBlockHeader v p m t n o)
    (pair_codec int32_codec (pair_codec uint256_codec (pair_codec uint256_codec
      (pair_codec uint32_codec (pair_codec uint32_codec uint32_codec))))).

(** [SerializeHash(header)]; writing a header cannot fail. *)
Definition header_bytes (b : CBlockHeader) : bytes :=
  match enc CBlockHeader_codec b with Ok bs => bs | Throw _ => [] end.
Definition CBlockHeader_GetHash (b : CBlockHeader) : uint256 := Hash (header_bytes b).

(** [GetBlockTime]: the unsigned time as an int64. *)
Definition GetBlockTime (b : CBlockHeader) : Z := i64 (bh_nTime b).

(** ** CBlock *)
Record CBlock := mkCBlock {
  header : CBlockHeader;
  vtx : list CTransaction;
  fChecked : bool;
}.

Definition GetBlockHeader (b : CBlock) : CBlockHeader :=
  mkCBlockHeader (bh_nVersion (header b)) (hashPrevBlock (header b)) (hashMerkleRoot (header b))
    (bh_nTime (header b)) (bh_nBits (header b)) (bh_nNonce (header b)).

Section BlockCodec.
Context (batch_in batch_out batch_wit batch_tx : Z).

Definition CTransaction_codec (fAllowWitness : bool) : codec CTransaction :=
  mkCodec (SerializeTransaction fAllowWitness)
    (UnserializeTransaction batch_in batch_out batch_wit fAllowWitness).

(** [fChecked] is memory only: a block that is read is not checked. *)
Definition CBlock_codec (fAllowWitness : bool) : codec CBlock :=
  map_codec (fun b => (header b, vtx b)) (fun '(h, v) => mkCBlock h v false)
    (pair_codec CBlockHeader_codec (vector_codec (CTransaction_codec fAllowWitness) batch_tx)).
End BlockCodec.

(** The size of a block as [GetSerializeSize] with or without witnesses. *)
Definition block_bytes (fAllowWitness : bool) (b : CBlock) : bytes :=
  match enc (CBlock_codec 1 1 1 1 fAllowWitness) b with Ok bs => bs | Throw _ => [] end.

(** * Lemmas *)

Record header_ok (b : CBlockHeader) : Prop := {
  header_ok_version : is_i32 (bh_nVersion b);
  header_ok_prev : uint256_ok (hashPrevBlock b);
  header_ok_merkle : uint256_ok (hashMerkleRoot b);
  header_ok_time : is_u32 (bh_nTime b);
  header_ok_bits : is_u32 (bh_nBits b);
  header_ok_nonce : is_u32 (bh_nNonce b);
}.

(** A transaction that the extended format can carry. *)
Definition wire_tx_ok (tx : CTransaction) : Prop := tx_ok tx /\ (vin tx <> [] \/ vout tx = []).

Record block_ok (b : CBlock) : Prop := {
  block_ok_header : header_ok (header b);
  block_ok_vtx : Forall wire_tx_ok (vtx b);
  block_ok_ntx : zlen (vtx b) <= MAX_SIZE;
  block_ok_unchecked : fChecked b = false;
}.

#[export] Instance CBlockHeader_codec_ok : CodecOk CBlockHeader_codec header_ok.
Proof.
  eapply map_codec_ok; [apply _|]. intros [v p m t n o] [? [? ?] [? ?] ? ? ?]. simpl in *.
  split; [by split_and!|done].
Qed.

Lemma header_bytes_length b : header_ok b -> zlen (header_bytes b) = 80.
Proof.
  intros [_ [Hp _] [Hm _] _ _ _]. destruct b as [v p m t n o]. cbn [hashPrevBlock hashMerkleRoot] in *.
  change (zlen (ser_writedata32 v ++ p ++ m ++ ser_writedata32 t ++ ser_writedata32 n ++ ser_writedata32 o) = 80).
  unfold zlen, ser_writedata32 in *. rewrite !length_app, !length_le_bytes. lia.
Qed.

#[export] Instance CTransaction_codec_ok i o w : 1 <= i -> 1 <= o -> 1 <= w ->
  CodecOk (CTransaction_codec i o w true) wire_tx_ok.
Proof. intros Hi Ho Hw tx [Htx Hne]. by apply (tx_reads_back i o w Hi Ho Hw true tx). Qed.

(** Blocks round-trip on the wire: the header is 80 bytes that determine
    it, and every block within the ranges of its types is written, and read
    back whatever follows it, with its transactions and their witnesses. *)
Theorem block_roundtrip (batch_in batch_out batch_wit batch_tx : Z) (b : CBlock) (rest : bytes) :
  1 <= batch_in -> 1 <= batch_out -> 1 <= batch_wit -> 1 <= batch_tx -> block_ok b ->
  zlen (header_bytes (header b)) = 80 /\
  exists bs, enc (CBlock_codec batch_in batch_out batch_wit batch_tx true) b = Ok bs /\
    dec (CBlock_codec batch_in batch_out batch_wit batch_tx true) (bs ++ rest) = Ok (b, rest).
Proof.
  intros Hi Ho Hw Ht [Hh Hv Hn Hu]. split; [by apply header_bytes_length|].
  pose proof (CTransaction_codec_ok _ _ _ Hi Ho Hw) as Htx.
  pose proof (vector_codec_ok (CTransaction_codec batch_in batch_out batch_wit true) wire_tx_ok batch_tx Ht) as Hvec.
  destruct (pair_codec_ok _ _ _ _ CBlockHeader_codec_ok Hvec (header b, vtx b)) as (bs & He & _ & Hd); [by split_and!|].
  exists bs. split; [done|]. cbn [dec CBlock_codec map_codec]. etransitivity; [eapply reader_bind_step, Hd|].
  destruct b as [h v f]. simpl in *. by subst.
Qed.

Definition example_header : CBlockHeader := mkCBlockHeader 1 (repeat 3 32) (repeat 5 32) 1231006505 0x1d00ffff 42.
Definition example_block : CBlock := mkCBlock example_header [example_tx] false.

Lemma example_header_ok : header_ok example_header.
Proof.
  constructor; simpl; try (unfold is_i32, is_u32; lia); (split; [done|]); decide_true.
Qed.

Lemma block_roundtrip_witness :
  exists bs, enc (CBlock_codec 1 1 1 1 true) example_block = Ok bs /\
    dec (CBlock_codec 1 1 1 1 true) (bs ++ [9]) = Ok (example_block, [9]).
Proof.
  refine (proj2 (block_roundtrip 1 1 1 1 example_block [9] _ _ _ _ _)); [lia..|].
  split; [apply example_header_ok| |done|done]. constructor; [|constructor].
  split; [apply example_tx_ok|by left].
Defined.
