(* ===== verification/Chain.v ===== *)
(** * The block index and the active chain (chain.h, chain.cpp, and
    AddToBlockIndex of validation.cpp)

    A [CBlockIndex*] is an address [Ptr] into a heap of index entries, so that
    the pointer comparisons of the source are comparisons of addresses. A read
    through an address outside the heap gives a null entry; the theorems are
    about heaps whose pointers are all valid ([heap_ok]). *)
From stdpp Require Import sorting.
From S2P Require Import Prelude Serialize Crypto Transaction ArithUint256 Block.

Abbreviation Ptr := positive.

(** ** BlockStatus *)
Definition BLOCK_VALID_UNKNOWN : Z := 0.
Definition BLOCK_VALID_HEADER : Z := 1.
Definition BLOCK_VALID_TREE : Z := 2.
Definition BLOCK_VALID_TRANSACTIONS : Z := 3.
Definition BLOCK_VALID_CHAIN : Z := 4.
Definition BLOCK_VALID_SCRIPTS : Z := 5.
Definition BLOCK_VALID_MASK : Z :=
  Z.lor (Z.lor (Z.lor (Z.lor BLOCK_VALID_HEADER BLOCK_VALID_TREE) BLOCK_VALID_TRANSACTIONS) BLOCK_VALID_CHAIN)
    BLOCK_VALID_SCRIPTS.
Definition BLOCK_HAVE_DATA : Z := 8.
Definition BLOCK_HAVE_UNDO : Z := 16.
Definition BLOCK_FAILED_VALID : Z := 32.
Definition BLOCK_FAILED_CHILD : Z := 64.
Definition BLOCK_FAILED_MASK : Z := Z.lor BLOCK_FAILED_VALID BLOCK_FAILED_CHILD.
Definition BLOCK_OPT_WITNESS : Z := 128.

(** ** CBlockIndex *)
Record CBlockIndex := mkCBlockIndex {
  phashBlock : uint256;
  pprev : option Ptr;
  pskip : option Ptr;
  nHeight : Z;
  nFile : Z;
  nDataPos : Z;
  nUndoPos : Z;
  nChainWork : arith_uint256;
  nTx : Z;
  nChainTx : Z;
  nStatus : Z;
  bi_nVersion : Z;
  bi_hashMerkleRoot : uint256;
  bi_nTime : Z;
  bi_nBits : Z;
  bi_nNonce : Z;
  nSequenceId : Z;
  nTimeMax : Z;
}.

(** [SetNull], and the constructor from a header. *)
Definition CBlockIndex_null : CBlockIndex :=
  mkCBlockIndex uint256_null None None 0 0 0 0 arith_zero 0 0 0 0 uint256_null 0 0 0 0 0.
Definition CBlockIndex_of (block : CBlockHeader) : CBlockIndex :=
  mkCBlockIndex uint256_null None None 0 0 0 0 arith_zero 0 0 0
    (bh_nVersion block) (hashMerkleRoot block) (bh_nTime block) (bh_nBits block) (bh_nNonce block) 0 0.

(** [nStatus = status]. *)
Definition with_status (status : Z) (e : CBlockIndex) : CBlockIndex :=
  mkCBlockIndex (phashBlock e) (pprev e) (pskip e) (nHeight e) (nFile e) (nDataPos e) (nUndoPos e) (nChainWork e) (nTx e) (nChainTx e) status
    (bi_nVersion e) (bi_hashMerkleRoot e) (bi_nTime e) (bi_nBits e) (bi_nNonce e) (nSequenceId e) (nTimeMax e).

Definition IsValid (b : CBlockIndex) (nUpTo : Z) : result bool :=
  assert_then (Z.land nUpTo (u32 (Z.lnot BLOCK_VALID_MASK)) =? 0) "!(nUpTo & ~BLOCK_VALID_MASK)"
    (if negb (Z.land (nStatus b) BLOCK_FAILED_MASK =? 0) then Ok false
     else Ok (nUpTo <=? Z.land (nStatus b) BLOCK_VALID_MASK)).

(** Whether the validity was changed, and the new [nStatus]. *)
Definition RaiseValidity (nStatus nUpTo : Z) : result (bool * Z) :=
  assert_then (Z.land nUpTo (u32 (Z.lnot BLOCK_VALID_MASK)) =? 0) "!(nUpTo & ~BLOCK_VALID_MASK)"
    (if negb (Z.land nStatus BLOCK_FAILED_MASK =? 0) then Ok (false, nStatus)
     else if Z.land nStatus BLOCK_VALID_MASK <? nUpTo
          then Ok (true, Z.lor (Z.land nStatus (u32 (Z.lnot BLOCK_VALID_MASK))) nUpTo)
          else Ok (false, nStatus)).

(** ** The heap *)
Abbreviation Heap := (gmap Ptr CBlockIndex).
Definition at_ (h : Heap) (p : Ptr) : CBlockIndex := default CBlockIndex_null (h !! p).

(** ** The skip list *)

(** [n & (n - 1)]. *)
Definition InvertLowestOne (n : Z) : Z := Z.land n (n - 1).

Definition GetSkipHeight (height : Z) : Z :=
  if height <? 2 then 0
  else if negb (Z.land height 1 =? 0) then InvertLowestOne (InvertLowestOne (height - 1)) + 1
  else InvertLowestOne height.

(** [vChain], with null pointers while it is being filled. *)
Abbreviation CChain := (list (option Ptr)).

Section BlockIndexOps.
Context (h : Heap).

(** The loop of [GetAncestor]; [heightWalk] decreases, [fuel] bounds it. *)
Fixpoint GetAncestor_loop (fuel : nat) (height : Z) (pindexWalk : Ptr) (heightWalk : Z) : result Ptr :=
  if height <? heightWalk then
    match fuel with
    | O => Throw (assert_failed "GetAncestor: no progress")
    | S fuel =>
        let heightSkip := GetSkipHeight heightWalk in
        let heightSkipPrev := GetSkipHeight (heightWalk - 1) in
        match pskip (at_ h pindexWalk),
              (heightSkip =? height) ||
              ((height <? heightSkip) && negb ((heightSkipPrev <? heightSkip - 2) && (height <=? heightSkipPrev))) with
        | Some q, true => GetAncestor_loop fuel height q heightSkip
        | _, _ =>
            match pprev (at_ h pindexWalk) with
            | Some q => GetAncestor_loop fuel height q (heightWalk - 1)
            | None => Throw (assert_failed "pindexWalk->pprev")
            end
        end
    end
  else Ok pindexWalk.

Definition GetAncestor (p : Ptr) (height : Z) : result (option Ptr) :=
  if (nHeight (at_ h p) <? height) || (height <? 0) then Ok None
  else q ← GetAncestor_loop (Z.to_nat (nHeight (at_ h p))) height p (nHeight (at_ h p)); mret (Some q).

(** The skip pointer [BuildSkip] gives to an entry with these [pprev] and [nHeight]. *)
Definition BuildSkip (prev : option Ptr) (height : Z) : result (option Ptr) :=
  match prev with
  | Some q => GetAncestor q (GetSkipHeight height)
  | None => Ok None
  end.

(** [for (i = 0; i < nMedianTimeSpan && pindex; i++, pindex = pindex->pprev)]. *)
Definition nMedianTimeSpan : nat := 11.

Fixpoint median_times (n : nat) (pindex : option Ptr) : list Z :=
  match n, pindex with
  | S n, Some p => i64 (bi_nTime (at_ h p)) :: median_times n (pprev (at_ h p))
  | _, _ => []
  end.

(** [std::sort] and the element in the middle. *)
Definition GetMedianTimePast (p : Ptr) : Z :=
  let pmedian := merge_sort Z.le (rev (median_times nMedianTimeSpan (Some p))) in
  nth (length pmedian / 2) pmedian 0.

(** ** The active chain *)

Definition Chain_at (chain : CChain) (height : Z) : option Ptr :=
  if (height <? 0) || (zlen chain <=? height) then None else nth (Z.to_nat height) chain None.
Definition Chain_Genesis (chain : CChain) : option Ptr :=
  if 0 <? zlen chain then nth 0 chain None else None.
Definition Chain_Tip (chain : CChain) : option Ptr :=
  if 0 <? zlen chain then nth (length chain - 1) chain None else None.
Definition Chain_Height (chain : CChain) : Z := zlen chain - 1.
Definition Contains (chain : CChain) (p : Ptr) : bool :=
  bool_decide (Chain_at chain (nHeight (at_ h p)) = Some p).
Definition Chain_Next (chain : CChain) (p : Ptr) : option Ptr :=
  if Contains chain p then Chain_at chain (nHeight (at_ h p) + 1) else None.

(** [vChain.resize(n)]: cut, or extended with null pointers. *)
Definition Chain_resize (chain : CChain) (n : nat) : CChain :=
  take n chain ++ repeat None (n - length chain).

(** [while (pindex && vChain[pindex->nHeight] != pindex)]; the height decreases. *)
Fixpoint SetTip_loop (fuel : nat) (chain : CChain) (pindex : option Ptr) : result CChain :=
  match pindex with
  | None => Ok chain
  | Some p =>
      let i := Z.to_nat (nHeight (at_ h p)) in
      if bool_decide (nth i chain None = Some p) then Ok chain
      else match fuel with
           | O => Throw (assert_failed "SetTip: no progress")
           | S fuel => SetTip_loop fuel (<[i := Some p]> chain) (pprev (at_ h p))
           end
  end.

Definition SetTip (chain : CChain) (pindex : option Ptr) : result CChain :=
  match pindex with
  | None => Ok []
  | Some p =>
      let n := Z.to_nat (nHeight (at_ h p) + 1) in
      SetTip_loop n (Chain_resize chain n) (Some p)
  end.

(** [while (pindex && !Contains(pindex)) pindex = pindex->pprev]. *)
Fixpoint FindFork_loop (fuel : nat) (chain : CChain) (pindex : option Ptr) : result (option Ptr) :=
  match pindex with
  | None => Ok None
  | Some p =>
      if Contains chain p then Ok (Some p)
      else match fuel with
           | O => Throw (assert_failed "FindFork: no progress")
           | S fuel => FindFork_loop fuel chain (pprev (at_ h p))
           end
  end.

Definition FindFork (chain : CChain) (pindex : option Ptr) : result (option Ptr) :=
  match pindex with
  | None => Ok None
  | Some p =>
      pindex ← (if Chain_Height chain <? nHeight (at_ h p) then GetAncestor p (Chain_Height chain) else Ok (Some p));
      FindFork_loop (Z.to_nat (nHeight (at_ h p) + 1)) chain pindex
  end.

(** ** LastCommonAncestor *)
Fixpoint LastCommonAncestor_loop (fuel : nat) (pa pb : option Ptr) : result (option Ptr) :=
  match pa, pb with
  | Some a, Some b =>
      if bool_decide (a = b) then Ok pa
      else match fuel with
           | O => Throw (assert_failed "LastCommonAncestor: no progress")
           | S fuel => LastCommonAncestor_loop fuel (pprev (at_ h a)) (pprev (at_ h b))
           end
  | _, _ => assert_then (bool_decide (pa = pb)) "pa == pb" (Ok pa)
  end.

Definition LastCommonAncestor (pa pb : Ptr) : result (option Ptr) :=
  let ha := nHeight (at_ h pa) in
  let hb := nHeight (at_ h pb) in
  a ← (if hb <? ha then GetAncestor pa hb else Ok (Some pa));
  b ← (if negb (hb <? ha) && (ha <? hb) then GetAncestor pb ha else Ok (Some pb));
  LastCommonAncestor_loop (Z.to_nat (ha + 1)) a b.
End BlockIndexOps.

(** ** Proof of work of a block *)
Definition GetBlockProof (nBits : Z) : result arith_uint256 :=
  let '(bnTarget, fNegative, fOverflow) := SetCompact nBits in
  if fNegative || fOverflow || EqualTo bnTarget 0 then Ok (arith_of_uint64 0)
  else
    q ← arith_div (arith_not bnTarget) (arith_add bnTarget (arith_of_uint64 1));
    mret (arith_add q (arith_of_uint64 1)).

(** The time in seconds to redo the work between two blocks at the tip's difficulty. *)
Definition GetBlockProofEquivalentTime (work_to work_from : arith_uint256) (tip_nBits nPowTargetSpacing : Z) : result Z :=
  let '(r, sign) := if 0 <? CompareTo work_to work_from then (arith_sub work_to work_from, 1)
                    else (arith_sub work_from work_to, -1) in
  proof ← GetBlockProof tip_nBits;
  r ← arith_div (arith_mul r (arith_of_uint64 (u64 nPowTargetSpacing))) proof;
  mret (if 63 <? bits r then sign * INT64_MAX else i64 (sign * GetLow64 r)).

(** ** The block index: [mapBlockIndex] over the heap, and the best header *)
Record BlockTree := mkBlockTree {
  bt_heap : Heap;
  mapBlockIndex : gmap uint256 Ptr;
  pindexBestHeader : option Ptr;
}.

(** [new CBlockIndex(block)] allocates the address [fresh_ptr]. *)
Definition fresh_ptr (h : Heap) : Ptr := fresh (dom h).

Definition AddToBlockIndex (block : CBlockHeader) (t : BlockTree) : result (Ptr * BlockTree) :=
  let hash := CBlockHeader_GetHash block in
  match mapBlockIndex t !! hash with
  | Some p => Ok (p, t)
  | None =>
      let p := fresh_ptr (bt_heap t) in
      let e := CBlockIndex_of block in
      let map' := <[hash := p]> (mapBlockIndex t) in
      let prev := map' !! hashPrevBlock block in
      let heap1 := <[p := mkCBlockIndex hash None None 0 (nFile e) (nDataPos e) (nUndoPos e) (nChainWork e) (nTx e) (nChainTx e) (nStatus e)
                            (bi_nVersion e) (bi_hashMerkleRoot e) (bi_nTime e) (bi_nBits e) (bi_nNonce e) 0 (nTimeMax e)]> (bt_heap t) in
      let height := match prev with Some q => i32 (nHeight (at_ heap1 q) + 1) | None => 0 end in
      skip ← BuildSkip heap1 prev height;
      let timeMax := match prev with Some q => Z.max (nTimeMax (at_ heap1 q)) (bi_nTime e) | None => bi_nTime e end in
      proof ← GetBlockProof (bi_nBits e);
      let work := arith_add (match prev with Some q => nChainWork (at_ heap1 q) | None => arith_of_uint64 0 end) proof in
      '(_, status) ← RaiseValidity (nStatus e) BLOCK_VALID_TREE;
      let e' := mkCBlockIndex hash prev skip height (nFile e) (nDataPos e) (nUndoPos e) work (nTx e) (nChainTx e) status
                  (bi_nVersion e) (bi_hashMerkleRoot e) (bi_nTime e) (bi_nBits e) (bi_nNonce e) 0 timeMax in
      let heap' := <[p := e']> (bt_heap t) in
      let best := match pindexBestHeader t with
                  | None => Some p
                  | Some b => if CompareTo (nChainWork (at_ heap' b)) work <? 0 then Some p else Some b
                  end in
      mret (p, mkBlockTree heap' map' best)
  end.

(** * Lemmas *)

(** ** Heights *)

Lemma InvertLowestOne_range n : 0 <= n -> 0 <= InvertLowestOne n <= n /\ (0 < n -> InvertLowestOne n < n).
Proof.
  intros Hn. unfold InvertLowestOne. destruct (Z.eq_dec n 0) as [->|Hne]; [done|].
  pose proof (land_le n (n - 1) ltac:(lia)). pose proof (land_le (n - 1) n ltac:(lia)) as H'.
  rewrite Z.land_comm in H'. lia.
Qed.

Lemma GetSkipHeight_range height : 1 <= height -> 0 <= GetSkipHeight height < height.
Proof.
  intros Hh. unfold GetSkipHeight. destruct (Z.ltb_spec height 2); [lia|].
  pose proof (InvertLowestOne_range height). pose proof (InvertLowestOne_range (height - 1)).
  pose proof (InvertLowestOne_range (InvertLowestOne (height - 1))). destruct (negb _); lia.
Qed.

(** ** Ancestors: [n] steps along [pprev] *)
Fixpoint back (h : Heap) (n : nat) (p : Ptr) : option Ptr :=
  match n with
  | O => Some p
  | S n => pprev (at_ h p) ≫= back h n
  end.

Lemma back_add h n m p : back h (n + m) p = back h n p ≫= back h m.
Proof.
  revert p; induction n as [|n IH]; intros p; cbn [back Nat.add]; [done|].
  destruct (pprev (at_ h p)) as [q|]; [apply IH|done].
Qed.

(** The invariant of the block index: links are valid, heights count the links,
    and skip pointers lead to the ancestor at the skip height. *)
Record entry_inv (h : Heap) (p : Ptr) (e : CBlockIndex) : Prop := {
  entry_height : 0 <= nHeight e;
  entry_prev : match pprev e with
               | Some q => is_Some (h !! q) /\ nHeight (at_ h q) = nHeight e - 1
               | None => nHeight e = 0
               end;
  entry_skip : forall q, pskip e = Some q -> back h (Z.to_nat (nHeight e - GetSkipHeight (nHeight e))) p = Some q;
}.

Definition heap_ok (h : Heap) : Prop := forall p e, h !! p = Some e -> entry_inv h p e.

Section HeapLemmas.
Context (h : Heap) (Hh : heap_ok h).

Lemma at_ok p : is_Some (h !! p) -> entry_inv h p (at_ h p).
Proof. intros [e He]. unfold at_. rewrite He. by apply Hh. Qed.

(** Every height up to that of an entry has exactly one ancestor. *)
Lemma back_spec n p : is_Some (h !! p) -> Z.of_nat n <= nHeight (at_ h p) ->
  exists q, back h n p = Some q /\ is_Some (h !! q) /\ nHeight (at_ h q) = nHeight (at_ h p) - Z.of_nat n.
Proof.
  revert p; induction n as [|n IH]; intros p Hp Hn.
  { exists p. split_and!; [done..|lia]. }
  destruct (at_ok p Hp) as [_ Hprev _]. cbn [back]. destruct (pprev (at_ h p)) as [q|]; [|lia].
  destruct Hprev as [Hq Hhq]. destruct (IH q Hq) as (r & Hr & Hsr & Hhr); [lia|].
  exists r. split_and!; [done..|lia].
Qed.

Lemma back_end p : is_Some (h !! p) -> back h (S (Z.to_nat (nHeight (at_ h p)))) p = None.
Proof.
  intros Hp. destruct (at_ok p Hp) as [Hpos _ _].
  destruct (back_spec (Z.to_nat (nHeight (at_ h p))) p Hp) as (q & Hb & Hq & Hhq); [lia|].
  rewrite <- Nat.add_1_r, back_add, Hb. destruct (at_ok q Hq) as [_ Hprev _]. cbn.
  destruct (pprev (at_ h q)) as [r|]; [|done]. destruct Hprev as [Hr Hhr].
  destruct (at_ok r Hr) as [Hr0 _ _]. lia.
Qed.

Lemma GetAncestor_loop_spec fuel height p :
  is_Some (h !! p) -> 0 <= height <= nHeight (at_ h p) -> nHeight (at_ h p) <= Z.of_nat fuel + height ->
  exists q, GetAncestor_loop h fuel height p (nHeight (at_ h p)) = Ok q /\
    back h (Z.to_nat (nHeight (at_ h p) - height)) p = Some q.
Proof.
  revert p; induction fuel as [|fuel IH]; intros p Hp Hht Hf; cbn [GetAncestor_loop].
  { destruct (Z.ltb_spec height (nHeight (at_ h p))); [lia|]. exists p. split; [done|].
    by replace (Z.to_nat _) with O by lia. }
  destruct (Z.ltb_spec height (nHeight (at_ h p))) as [Hlt|Hge].
  2:{ exists p. split; [done|]. by replace (Z.to_nat _) with O by lia. }
  destruct (at_ok p Hp) as [_ Hprev Hskip]. set (H := nHeight (at_ h p)) in *.
  pose proof (GetSkipHeight_range H ltac:(lia)) as Hs.
  assert (exists q, match pprev (at_ h p) with
    | Some q => GetAncestor_loop h fuel height q (H - 1)
    | None => Throw (assert_failed "pindexWalk->pprev") end = Ok q /\ back h (Z.to_nat (H - height)) p = Some q) as Hstep.
  { destruct (pprev (at_ h p)) as [q|] eqn:Eq; [|lia]. destruct Hprev as [Hq Hhq]. rewrite <- Hhq.
    destruct (IH q Hq ltac:(lia) ltac:(lia)) as (r & -> & Hr). exists r. split; [done|].
    replace (Z.to_nat (H - height)) with (S (Z.to_nat (nHeight (at_ h q) - height))) by lia. cbn [back]. by rewrite Eq. }
  destruct (pskip (at_ h p)) as [q|] eqn:Eq; [|exact Hstep].
  destruct (_ || _) eqn:Hc; [|exact Hstep]. specialize (Hskip q eq_refl).
  assert (height <= GetSkipHeight H) as Hle.
  { apply orb_true_iff in Hc as [Hc|Hc]; bool_to_prop; lia. }
  destruct (back_spec (Z.to_nat (H - GetSkipHeight H)) p Hp) as (q' & Hb & Hq & Hhq); [lia|].
  assert (q' = q) as -> by congruence. replace (GetSkipHeight H) with (nHeight (at_ h q)) by lia.
  destruct (IH q Hq ltac:(lia) ltac:(lia)) as (r & -> & Hr). exists r. split; [done|].
  replace (Z.to_nat (H - height)) with (Z.to_nat (H - GetSkipHeight H) + Z.to_nat (nHeight (at_ h q) - height))%nat by lia.
  by rewrite back_add, Hb.
Qed.

Lemma GetAncestor_ok p height : is_Some (h !! p) ->
  GetAncestor h p height =
    Ok (if (0 <=? height) && (height <=? nHeight (at_ h p))
        then back h (Z.to_nat (nHeight (at_ h p) - height)) p else None).
Proof.
  intros Hp. unfold GetAncestor. destruct (at_ok p Hp) as [Hpos _ _].
  destruct (Z.leb_spec 0 height), (Z.leb_spec height (nHeight (at_ h p))); cbn [andb].
  2-4: rewrite (proj2 (orb_true_iff _ _)) by (rewrite !Z.ltb_lt; lia); done.
  rewrite (proj2 (orb_false_iff _ _)) by (rewrite !Z.ltb_ge; lia).
  destruct (GetAncestor_loop_spec (Z.to_nat (nHeight (at_ h p))) height p Hp ltac:(lia) ltac:(lia)) as (q & -> & Hb).
  cbn. by rewrite Hb.
Qed.
End HeapLemmas.

(** ** Proof of work *)

Lemma EqualTo_ok a b : arith_ok a -> is_u64 b -> EqualTo a b = (val a =? b).
Proof.
  intros [Hl Ha] Hb. destruct a as [|x [|y a]]; try done. unfold EqualTo. change (drop 2 (x :: y :: a)) with a. cbn [nth].
  apply Forall_cons_1 in Ha as [Hx Ha]. apply Forall_cons_1 in Ha as [Hy Ha]. cbn [val]. unfold is_u32, is_u64 in *.
  rewrite land_B32, shiftr_B32. pose proof (val_range a Ha).
  pose proof (Z.div_mod b (2 ^ 32)). pose proof (Z.mod_pos_bound b (2 ^ 32)).
  assert (0 <= b / 2 ^ 32 < 2 ^ 32) by (split; [apply Z.div_pos|apply Z.div_lt_upper_bound]; lia).
  assert (forallb (fun x => x =? 0) a = (val a =? 0)) as ->.
  { clear -Ha. induction Ha as [|z a Hz Ha IH]; [done|]. cbn [forallb val]. rewrite IH. pose proof (val_range a Ha).
    unfold is_u32 in Hz. destruct (Z.eqb_spec z 0), (Z.eqb_spec (val a) 0), (Z.eqb_spec (z + 2 ^ 32 * val a) 0); try done; lia. }
  destruct (Z.eqb_spec (val a) 0), (Z.eqb_spec y (b / 2 ^ 32)), (Z.eqb_spec x (b mod 2 ^ 32)),
    (Z.eqb_spec (x + 2 ^ 32 * (y + 2 ^ 32 * val a)) b); cbn [andb]; try done; lia.
Qed.

(** The expected number of hashes for the target [bits] denotes: 2^256 divided
    by the target plus one, or 0 for an invalid target. *)
Definition block_work (nBits : Z) : Z :=
  if (negb (compact_word nBits =? 0) && compact_sign nBits) || (2 ^ 256 <=? compact_value nBits) || (compact_value nBits =? 0)
  then 0 else 2 ^ 256 / (compact_value nBits + 1).

Lemma compact_value_nonneg c : 0 <= compact_value c.
Proof.
  unfold compact_value. pose proof (compact_word_range c).
  pose proof (Z.pow_nonneg 2 (8 * Z.max 0 (compact_size c - 3))). nia.
Qed.

Lemma GetBlockProof_ok nBits : is_u32 nBits ->
  exists w, GetBlockProof nBits = Ok w /\ arith_ok w /\ val w = block_work nBits.
Proof.
  intros Hb. unfold GetBlockProof, block_work. destruct (SetCompact_ok nBits Hb) as (a & -> & Ha & Hv).
  pose proof (compact_value_nonneg nBits) as Hnn. set (v := compact_value nBits) in *.
  destruct (negb _ && _); cbn [orb]; [eexists; split; [done|by apply arith_of_uint64_ok]|].
  destruct (Z.leb_spec (2 ^ 256) v); cbn [orb]; [eexists; split; [done|by apply arith_of_uint64_ok]|].
  rewrite Z.mod_small in Hv by lia. rewrite EqualTo_ok by done. rewrite Hv.
  destruct (Z.eqb_spec v 0) as [|Hv0]; [eexists; split; [done|by apply arith_of_uint64_ok]|].
  assert (arith_ok (arith_not a) /\ val (arith_not a) = 2 ^ 256 - 1 - v) as [Hn Hnv].
  { destruct Ha as [Hl Ha]. destruct (arith_not_val a Ha) as (Hval & Hlen & Hli).
    split; [split; [congruence|done]|]. rewrite Hval, Hl, Hv. done. }
  destruct (arith_of_uint64_ok 1 ltac:(done)) as [H1 H1v].
  destruct (arith_add_ok a _ Ha H1) as [Hs Hsv]. rewrite H1v, Hv in Hsv.
  pose proof (arith_div_ok _ _ Hn Hs) as Hd. pose proof (arith_val_range _ Hn) as Hnr. rewrite Hnv in Hnr.
  destruct (Z.eq_dec v (2 ^ 256 - 1)) as [Hmax|Hmax].
  { exfalso. subst v. clear -Hmax. unfold compact_value in Hmax. pose proof (compact_word_range nBits).
    destruct (Z.eq_dec (Z.max 0 (compact_size nBits - 3)) 0) as [E|]; [rewrite E in Hmax; lia|].
    replace (8 * Z.max 0 (compact_size nBits - 3)) with (8 + (8 * Z.max 0 (compact_size nBits - 3) - 8)) in Hmax by lia.
    rewrite Z.pow_add_r in Hmax by lia. lia. }
  rewrite Z.mod_small in Hsv by lia. rewrite Hsv in Hd. rewrite (proj2 (Z.eqb_neq (v + 1) 0)) in Hd by lia.
  destruct Hd as (q & -> & Hq & Hqv). rewrite Hnv in Hqv. cbn.
  destruct (arith_add_ok q _ Hq H1) as [Hr Hrv]. eexists; split; [done|]. split; [done|].
  rewrite Hrv, H1v, Hqv. replace (2 ^ 256 - 1 - v) with (2 ^ 256 + -1 * (v + 1)) by lia.
  rewrite Z.div_add by lia. replace (2 ^ 256 / (v + 1) + -1 + 1) with (2 ^ 256 / (v + 1)) by lia.
  apply Z.mod_small. split; [apply Z.div_pos; lia|]. apply Z.div_lt_upper_bound; lia.
Qed.

(** ** Growing the block index *)

Lemma at_insert_ne h p e q : p <> q -> at_ (<[p := e]> h) q = at_ h q.
Proof. intros Hne. unfold at_. by rewrite lookup_insert_ne. Qed.

Lemma at_insert_eq h p e : at_ (<[p := e]> h) p = e.
Proof. unfold at_. by rewrite lookup_insert_eq. Qed.

(** A new entry does not change the ancestors of the old ones. *)
Lemma back_insert h p e n q : heap_ok h -> h !! p = None -> is_Some (h !! q) -> back (<[p := e]> h) n q = back h n q.
Proof.
  intros Hh Hp. revert q; induction n as [|n IH]; intros q Hq; [done|]. cbn [back].
  assert (p <> q) by (intros ->; destruct Hq; congruence). rewrite at_insert_ne by done.
  destruct (at_ok h Hh q Hq) as [_ Hprev _]. destruct (pprev (at_ h q)) as [r|]; [|done]. apply IH, Hprev.
Qed.

Lemma entry_inv_insert h p e q e' : heap_ok h -> h !! p = None -> h !! q = Some e' -> entry_inv (<[p := e]> h) q e'.
Proof.
  intros Hh Hp Hq. destruct (Hh q e' Hq) as [Hpos Hprev Hskip]. split; [done| |].
  - destruct (pprev e') as [r|]; [|done]. destruct Hprev as [Hr Hhr].
    assert (p <> r) by (intros ->; destruct Hr; congruence).
    rewrite at_insert_ne, lookup_insert_ne by done. done.
  - intros r Hr. rewrite back_insert by (done || by eexists). by apply Hskip.
Qed.

Lemma heap_ok_insert h p e : heap_ok h -> h !! p = None -> entry_inv (<[p := e]> h) p e -> heap_ok (<[p := e]> h).
Proof.
  intros Hh Hp He q e' Hq. destruct (decide (p = q)) as [<-|Hne].
  - rewrite lookup_insert_eq in Hq. by injection Hq as <-.
  - rewrite lookup_insert_ne in Hq by done. by apply entry_inv_insert.
Qed.

(** The whole index: the heap is well formed, the map leads into it under the
    hash of the entry, times only grow along the chain and chain work adds up. *)
Record tree_ok (t : BlockTree) : Prop := {
  tree_heap : heap_ok (bt_heap t);
  tree_map : forall hash p, mapBlockIndex t !! hash = Some p ->
    is_Some (bt_heap t !! p) /\ phashBlock (at_ (bt_heap t) p) = hash;
  tree_hashes : forall p, is_Some (bt_heap t !! p) -> mapBlockIndex t !! phashBlock (at_ (bt_heap t) p) = Some p;
  tree_time : forall p, is_Some (bt_heap t !! p) ->
    bi_nTime (at_ (bt_heap t) p) <= nTimeMax (at_ (bt_heap t) p) /\
    forall q, pprev (at_ (bt_heap t) p) = Some q -> nTimeMax (at_ (bt_heap t) q) <= nTimeMax (at_ (bt_heap t) p);
  tree_work : forall p, is_Some (bt_heap t !! p) ->
    arith_ok (nChainWork (at_ (bt_heap t) p)) /\
    val (nChainWork (at_ (bt_heap t) p)) =
      ((match pprev (at_ (bt_heap t) p) with Some q => val (nChainWork (at_ (bt_heap t) q)) | None => 0 end) +
       block_work (bi_nBits (at_ (bt_heap t) p))) mod 2 ^ 256;
  tree_best : forall b, pindexBestHeader t = Some b -> is_Some (bt_heap t !! b) /\
    forall p, is_Some (bt_heap t !! p) ->
      val (nChainWork (at_ (bt_heap t) p)) <= val (nChainWork (at_ (bt_heap t) b));
  tree_best_none : pindexBestHeader t = None -> bt_heap t = ∅;
}.

Lemma fresh_ptr_ok h : h !! fresh_ptr h = None.
Proof. unfold fresh_ptr. apply not_elem_of_dom. apply is_fresh. Qed.

Lemma BuildSkip_ok h prev height :
  heap_ok h -> match prev with Some q => is_Some (h !! q) /\ nHeight (at_ h q) = height - 1 | None => height = 0 end ->
  exists skip, BuildSkip h prev height = Ok skip /\
    forall s, skip = Some s -> exists q, prev = Some q /\ back h (Z.to_nat (height - 1 - GetSkipHeight height)) q = Some s.
Proof.
  intros Hh Hprev. destruct prev as [q|]; [|by eexists]. destruct Hprev as [Hq Hhq]. unfold BuildSkip.
  rewrite GetAncestor_ok by done. destruct (at_ok h Hh q Hq) as [Hpos _ _].
  pose proof (GetSkipHeight_range height ltac:(lia)).
  rewrite (proj2 (andb_true_iff _ _)) by (rewrite !Z.leb_le; lia). eexists. split; [done|].
  intros s Hs. exists q. split; [done|]. by rewrite <- Hhq.
Qed.

(** The tree after inserting the entry [e] at a new address. *)
Section AddEntry.
Context (t : BlockTree) (p : Ptr) (e : CBlockIndex) (best : option Ptr).
Hypothesis (Ht : tree_ok t) (Hp : bt_heap t !! p = None) (Hhash : mapBlockIndex t !! phashBlock e = None).
Hypothesis Hinv : entry_inv (<[p := e]> (bt_heap t)) p e.
Hypothesis Hprev : forall q, pprev e = Some q -> is_Some (bt_heap t !! q).
Hypothesis Htime : bi_nTime e <= nTimeMax e /\
  forall q, pprev e = Some q -> nTimeMax (at_ (bt_heap t) q) <= nTimeMax e.
Hypothesis Hwork : arith_ok (nChainWork e) /\ val (nChainWork e) =
  ((match pprev e with Some q => val (nChainWork (at_ (bt_heap t) q)) | None => 0 end) + block_work (bi_nBits e)) mod 2 ^ 256.
Hypothesis Hbest : best = match pindexBestHeader t with
  | None => Some p
  | Some b => if val (nChainWork (at_ (bt_heap t) b)) <? val (nChainWork e) then Some p else Some b end.

Abbreviation heap' := (<[p := e]> (bt_heap t)).

Lemma old_ne q : is_Some (bt_heap t !! q) -> p <> q.
Proof. intros [x Hx] Heq. rewrite <- Heq, Hp in Hx. discriminate Hx. Qed.

Lemma at_old q : is_Some (bt_heap t !! q) -> at_ heap' q = at_ (bt_heap t) q.
Proof. intros Hq. by apply at_insert_ne, old_ne. Qed.

(** What holds of the new entry and of the old ones holds of all. *)
Lemma insert_cases (P : Ptr -> CBlockIndex -> Prop) :
  P p e -> (forall q, is_Some (bt_heap t !! q) -> P q (at_ (bt_heap t) q)) ->
  forall q, is_Some (heap' !! q) -> P q (at_ heap' q).
Proof.
  intros He Hold q Hq. destruct (decide (p = q)) as [<-|Hne].
  - rewrite at_insert_eq. exact He.
  - rewrite lookup_insert_ne in Hq by exact Hne. rewrite at_insert_ne by exact Hne. apply Hold, Hq.
Qed.

Lemma add_best b : best = Some b -> is_Some (heap' !! b) /\
  forall q, is_Some (heap' !! q) -> val (nChainWork (at_ heap' q)) <= val (nChainWork (at_ heap' b)).
Proof.
  intros Eb. rewrite Hbest in Eb. destruct (pindexBestHeader t) as [b0|] eqn:E0.
  - destruct (tree_best t Ht b0 E0) as [Hb0 Hmax].
    destruct (Z.ltb_spec (val (nChainWork (at_ (bt_heap t) b0))) (val (nChainWork e))); injection Eb as <-.
    + split; [by rewrite lookup_insert_eq|]. rewrite at_insert_eq.
      apply (insert_cases (fun _ x => val (nChainWork x) <= val (nChainWork e))); [done|].
      intros q Hq. specialize (Hmax q Hq). lia.
    + split; [rewrite lookup_insert_ne; [done|by apply old_ne]|]. rewrite (at_old b0 Hb0).
      by apply (insert_cases (fun _ x => val (nChainWork x) <= val (nChainWork (at_ (bt_heap t) b0)))).
  - injection Eb as <-. split; [by rewrite lookup_insert_eq|]. rewrite at_insert_eq.
    apply (insert_cases (fun _ x => val (nChainWork x) <= val (nChainWork e))); [done|].
    intros q Hq. pose proof (tree_best_none t Ht E0) as Hemp. rewrite Hemp, lookup_empty in Hq. by destruct Hq.
Qed.

Lemma add_entry_ok : tree_ok (mkBlockTree heap' (<[phashBlock e := p]> (mapBlockIndex t)) best).
Proof.
  split; cbn [bt_heap mapBlockIndex pindexBestHeader].
  - apply heap_ok_insert; [apply Ht|done|done].
  - intros hash q Hq. destruct (decide (phashBlock e = hash)) as [<-|Hne].
    + rewrite lookup_insert_eq in Hq. injection Hq as <-. by rewrite lookup_insert_eq, at_insert_eq.
    + rewrite lookup_insert_ne in Hq by done. destruct (tree_map t Ht hash q Hq) as [Hs Hh].
      rewrite lookup_insert_ne, at_old by (done || by apply old_ne). done.
  - apply (insert_cases (fun q x => <[phashBlock e := p]> (mapBlockIndex t) !! phashBlock x = Some q)).
    + by rewrite lookup_insert_eq.
    + intros q Hq. pose proof (tree_hashes t Ht q Hq) as Hm. rewrite lookup_insert_ne by congruence. done.
  - intros q Hq. assert (forall r, is_Some (bt_heap t !! r) -> nTimeMax (at_ heap' r) = nTimeMax (at_ (bt_heap t) r)) as Hr
      by (intros r Hr; by rewrite at_old). revert q Hq.
    apply (insert_cases (fun q x => bi_nTime x <= nTimeMax x /\ forall r, pprev x = Some r -> nTimeMax (at_ heap' r) <= nTimeMax x)).
    + split; [apply Htime|]. intros r Er. rewrite Hr by (by apply Hprev). by apply Htime.
    + intros q Hq. destruct (tree_time t Ht q Hq) as [H1 H2]. split; [done|]. intros r Er.
      destruct (at_ok _ (tree_heap t Ht) q Hq) as [_ Hpv _]. rewrite Er in Hpv. rewrite Hr by apply Hpv. by apply H2.
  - apply (insert_cases (fun q x => arith_ok (nChainWork x) /\ val (nChainWork x) =
      ((match pprev x with Some r => val (nChainWork (at_ heap' r)) | None => 0 end) + block_work (bi_nBits x)) mod 2 ^ 256)).
    + destruct Hwork as [Hok ->]. split; [done|]. destruct (pprev e) as [r|] eqn:Er; [|done].
      by rewrite at_old by (by apply Hprev).
    + intros q Hq. destruct (tree_work t Ht q Hq) as [Hok ->]. split; [done|].
      destruct (at_ok _ (tree_heap t Ht) q Hq) as [_ Hpv _].
      destruct (pprev (at_ (bt_heap t) q)) as [r|] eqn:Er; [|done]. by rewrite at_old by apply Hpv.
  - apply add_best.
  - intros Hn. rewrite Hbest in Hn. destruct (pindexBestHeader t); [destruct (_ <? _)|]; done.
Qed.
End AddEntry.

Definition tree_empty : BlockTree := mkBlockTree ∅ ∅ None.

Lemma tree_empty_ok : tree_ok tree_empty.
Proof.
  assert (forall p, ~ is_Some ((∅ : Heap) !! p)) as Hno by (intros p [e He]; by rewrite lookup_empty in He).
  split; cbn [bt_heap mapBlockIndex pindexBestHeader tree_empty]; try done; try (intros p Hp; by destruct (Hno p)).
Qed.

Definition heights_below (t : BlockTree) (n : Z) : Prop :=
  forall p, is_Some (bt_heap t !! p) -> nHeight (at_ (bt_heap t) p) < n.

Lemma CompareTo_lt a b : arith_ok a -> arith_ok b -> (CompareTo a b <? 0) = (val a <? val b).
Proof.
  intros Ha Hb. rewrite CompareTo_ok by done. apply eq_true_iff_eq. rewrite !Z.ltb_lt. lia.
Qed.

(** What a new header adds: one entry, linked to its parent. *)
Lemma IsValid_scripts b : exists v, IsValid b BLOCK_VALID_SCRIPTS = Ok v.
Proof. unfold IsValid. cbn [assert_then]. destruct (negb _); by eexists. Qed.

Lemma AddToBlockIndex_version block t p t' : mapBlockIndex t !! CBlockHeader_GetHash block = None ->
  AddToBlockIndex block t = Ok (p, t') -> bi_nVersion (at_ (bt_heap t') p) = bh_nVersion block.
Proof.
  intros Hm. unfold AddToBlockIndex. set (hash := CBlockHeader_GetHash block) in *. clearbody hash. rewrite Hm. intros H. inv_bind.
  match goal with st : (bool * Z)%type |- _ => destruct st as [? status] end. inv_bind. cbn [bt_heap]. unfold at_. rewrite lookup_insert_eq. done.
Qed.

Lemma AddToBlockIndex_new block t p t' :
  mapBlockIndex t !! CBlockHeader_GetHash block = None -> CBlockHeader_GetHash block <> hashPrevBlock block ->
  AddToBlockIndex block t = Ok (p, t') ->
  bt_heap t !! p = None /\ mapBlockIndex t' = <[CBlockHeader_GetHash block := p]> (mapBlockIndex t) /\
  exists e, bt_heap t' = <[p := e]> (bt_heap t) /\ pprev e = mapBlockIndex t !! hashPrevBlock block /\
    phashBlock e = CBlockHeader_GetHash block /\ bi_nTime e = bh_nTime block /\ bi_nBits e = bh_nBits block /\
    nTx e = 0 /\ nChainTx e = 0 /\ nStatus e = BLOCK_VALID_TREE.
Proof.
  intros Hm Hne. unfold AddToBlockIndex. set (hash := CBlockHeader_GetHash block) in *. clearbody hash. rewrite Hm.
  rewrite lookup_insert_ne by done. intros H. inv_bind.
  match goal with st : (bool * Z)%type |- _ => destruct st as [? status] end. inv_bind. cbn [bt_heap mapBlockIndex].
  split_and!; [apply fresh_ptr_ok|done|]. eexists. split; [done|].
  match goal with E : RaiseValidity _ _ = Ok _ |- _ => change (RaiseValidity _ _) with (Ok (true, BLOCK_VALID_TREE)) in E; injection E as <- <- end. done.
Qed.

Lemma AddToBlockIndex_ok block t n :
  tree_ok t -> is_u32 (bh_nBits block) -> CBlockHeader_GetHash block <> hashPrevBlock block ->
  heights_below t n -> 0 <= n < 2 ^ 31 ->
  exists p t', AddToBlockIndex block t = Ok (p, t') /\ tree_ok t' /\ heights_below t' (n + 1) /\
    mapBlockIndex t' !! CBlockHeader_GetHash block = Some p /\ bt_heap t ⊆ bt_heap t'.
Proof.
  intros Ht Hbits Hhash Hlow Hn. unfold AddToBlockIndex.
  set (hash := CBlockHeader_GetHash block) in *. clearbody hash.
  destruct (mapBlockIndex t !! hash) as [p|] eqn:Em.
  { exists p, t. split_and!; try done. intros q Hq. specialize (Hlow q Hq). lia. }
  set (p := fresh_ptr (bt_heap t)). pose proof (fresh_ptr_ok (bt_heap t)) as Hp. fold p in Hp.
  rewrite lookup_insert_ne by done. set (prev := mapBlockIndex t !! hashPrevBlock block).
  cbn [CBlockIndex_of nChainWork nTx nStatus bi_nVersion bi_hashMerkleRoot bi_nTime bi_nBits bi_nNonce nTimeMax].
  set (heap1 := <[p := _]> (bt_heap t)).
  assert (forall q, prev = Some q -> is_Some (bt_heap t !! q) /\ p <> q) as Hprev.
  { intros q Hq. destruct (tree_map t Ht _ _ Hq) as [Hs _]. split; [done|]. intros <-. destruct Hs; congruence. }
  assert (heap_ok heap1) as Hh1 by (apply heap_ok_insert; [apply Ht|done|by split]).
  set (height := match prev with Some q => i32 _ | None => 0 end).
  assert (match prev with Some q => is_Some (heap1 !! q) /\ nHeight (at_ heap1 q) = height - 1 | None => height = 0 end /\
    0 <= height < n + 1) as [Hheight Hrange].
  { subst height. destruct prev as [q|]; [|split; [done|lia]]. destruct (Hprev q eq_refl) as [Hs Hne].
    subst heap1. rewrite at_insert_ne, lookup_insert_ne by done. specialize (Hlow q Hs).
    destruct (at_ok _ (tree_heap t Ht) q Hs) as [Hpos _ _]. rewrite i32_small by (unfold is_i32; lia). split; [split; [done|lia]|lia]. }
  destruct (BuildSkip_ok heap1 prev height Hh1 Hheight) as (skip & -> & Hskip). cbn [mbind result_bind].
  destruct (GetBlockProof_ok (bh_nBits block) Hbits) as (w & -> & Hw & Hwv). cbn [mbind result_bind].
  change (RaiseValidity 0 BLOCK_VALID_TREE) with (Ok (true, BLOCK_VALID_TREE)). cbn [mbind result_bind].
  set (prevwork := match prev with Some q => nChainWork _ | None => _ end). set (e := mkCBlockIndex _ _ _ _ _ _ _ _ _ _ _ _ _ _ _ _ _ _).
  assert (arith_ok prevwork /\ val prevwork = match prev with Some q => val (nChainWork (at_ (bt_heap t) q)) | None => 0 end) as [Hpw Hpwv].
  { subst prevwork. destruct prev as [q|]; [|by apply arith_of_uint64_ok]. destruct (Hprev q eq_refl) as [Hs Hne].
    subst heap1. rewrite at_insert_ne by done. by destruct (tree_work t Ht q Hs) as [Hok _]. }
  destruct (arith_add_ok prevwork w Hpw Hw) as [Hsum Hsumv].
  eexists p, _. split; [done|]. split_and!.
  - apply add_entry_ok with (e := e); try done.
    + subst e. split; cbn [nHeight pprev pskip]; [lia| |].
      * subst heap1. destruct prev as [q|]; [|done]. destruct (Hprev q eq_refl) as [Hs Hne].
        rewrite lookup_insert_ne, at_insert_ne in Hheight |- * by done. done.
      * intros s Hs. destruct (Hskip s Hs) as (q & Eq & Hb). destruct (Hprev q Eq) as [Hsq Hne].
        rewrite Eq in Hheight. destruct (GetSkipHeight_range height) as [_ Hlt].
        { destruct Hheight as [Hs1 Hh]. destruct (at_ok _ Hh1 q Hs1) as [Hpos _ _]. lia. }
        replace (Z.to_nat (height - GetSkipHeight height)) with (S (Z.to_nat (height - 1 - GetSkipHeight height))) by lia.
        cbn [back]. rewrite at_insert_eq. cbn [pprev]. rewrite Eq. cbn [mbind option_bind].
        rewrite back_insert by (done || apply Ht). subst heap1. rewrite back_insert in Hb by (done || apply Ht). done.
    + subst e. cbn [pprev]. intros q Hq. apply (Hprev q Hq).
    + subst e. cbn [bi_nTime nTimeMax pprev]. destruct prev as [q|]; [|split; [lia|done]].
      destruct (Hprev q eq_refl) as [Hs Hne]. subst heap1. rewrite at_insert_ne by done. split; [lia|]. intros q' [= <-]. lia.
    + subst e. cbn [nChainWork bi_nBits pprev]. split; [done|]. by rewrite Hsumv, Hpwv, Hwv.
    + subst e. cbn [nChainWork]. destruct (pindexBestHeader t) as [b|] eqn:Eb; [|done].
      destruct (tree_best t Ht b Eb) as [Hb _]. assert (p <> b) by (intros <-; destruct Hb; congruence).
      rewrite at_insert_ne by done. rewrite CompareTo_lt; [done| |done]. by destruct (tree_work t Ht b Hb).
  - intros q. cbn [bt_heap]. apply (insert_cases t p e (fun _ x => nHeight x < n + 1)); [subst e; cbn; lia|].
    intros r Hr. specialize (Hlow r Hr). lia.
  - cbn. by rewrite lookup_insert_eq.
  - cbn. by apply insert_subseteq.
Qed.

(** Adding a sequence of headers, in the order they arrive. *)
Fixpoint AddHeaders (blocks : list CBlockHeader) (t : BlockTree) : result BlockTree :=
  match blocks with
  | [] => Ok t
  | block :: blocks => '(_, t) ← AddToBlockIndex block t; AddHeaders blocks t
  end.

Lemma AddHeaders_ok blocks t n :
  tree_ok t -> heights_below t n -> 0 <= n -> n + zlen blocks < 2 ^ 31 ->
  Forall (fun b => is_u32 (bh_nBits b) /\ CBlockHeader_GetHash b <> hashPrevBlock b) blocks ->
  exists t', AddHeaders blocks t = Ok t' /\ tree_ok t' /\
    Forall (fun b => is_Some (mapBlockIndex t' !! CBlockHeader_GetHash b)) blocks /\ bt_heap t ⊆ bt_heap t'.
Proof.
  intros Ht Hn Hpos Hlen Hb. revert t n Ht Hn Hpos Hlen. induction Hb as [|b blocks [Hbits Hhash] Hb IH]; intros t n Ht Hn Hpos Hlen.
  { by exists t. }
  rewrite zlen_cons in Hlen. pose proof (zlen_nonneg blocks). cbn [AddHeaders].
  destruct (AddToBlockIndex_ok b t n Ht Hbits Hhash Hn) as (p & t1 & -> & Ht1 & Hn1 & Hm & Hsub); [lia|]. cbn [mbind result_bind].
  destruct (IH t1 (n + 1) Ht1 Hn1) as (t2 & -> & Ht2 & Hall & Hsub2); [lia..|].
  exists t2. split_and!; [done..| |by etransitivity].
  constructor; [|done]. destruct (tree_map t1 Ht1 _ _ Hm) as [[e He] Hph].
  pose proof (lookup_weaken _ _ _ _ He Hsub2) as He2. exists p. rewrite <- Hph.
  replace (at_ (bt_heap t1) p) with (at_ (bt_heap t2) p) by (unfold at_; by rewrite He, He2).
  apply (tree_hashes t2 Ht2). by eexists.
Qed.

(** ** Ancestors and the active chain *)
Section ChainLemmas.
Context (h : Heap) (Hh : heap_ok h).

Lemma back_height n p q : is_Some (h !! p) -> back h n p = Some q ->
  Z.of_nat n <= nHeight (at_ h p) /\ is_Some (h !! q) /\ nHeight (at_ h q) = nHeight (at_ h p) - Z.of_nat n.
Proof.
  intros Hp Hb. destruct (at_ok h Hh p Hp) as [Hpos _ _].
  assert (Z.of_nat n <= nHeight (at_ h p)) as Hle.
  { destruct (Z.le_gt_cases (Z.of_nat n) (nHeight (at_ h p))); [done|].
    replace n with (S (Z.to_nat (nHeight (at_ h p))) + (n - S (Z.to_nat (nHeight (at_ h p)))))%nat in Hb by lia.
    by rewrite back_add, back_end in Hb. }
  destruct (back_spec h Hh n p Hp Hle) as (q' & Hb' & Hq & Hhq). by simplify_eq.
Qed.

(** The entries of a vector are chained up to the filled positions. *)
Definition path_ok (chain : CChain) : Prop :=
  forall j r, nth j chain None = Some r ->
    is_Some (h !! r) /\ nHeight (at_ h r) = Z.of_nat j /\ forall i, (i <= j)%nat -> nth i chain None = back h (j - i) r.

(** The chain that ends in [p]: the ancestor of [p] at every height. *)
Definition chain_of (p : Ptr) : CChain :=
  let H := Z.to_nat (nHeight (at_ h p)) in map (fun i => back h (H - i) p) (seq 0 (S H)).

Lemma chain_of_nth p i : is_Some (h !! p) ->
  nth i (chain_of p) None =
    if (i <=? Z.to_nat (nHeight (at_ h p)))%nat then back h (Z.to_nat (nHeight (at_ h p)) - i) p else None.
Proof.
  intros Hp. unfold chain_of. set (H := Z.to_nat (nHeight (at_ h p))). destruct (Nat.leb_spec i H).
  - erewrite nth_indep by (rewrite length_map, length_seq; lia).
    rewrite (map_nth (fun i => back h (H - i) p) _ 0%nat), seq_nth by lia. done.
  - apply nth_overflow. rewrite length_map, length_seq. lia.
Qed.

Lemma chain_of_path p : is_Some (h !! p) -> path_ok (chain_of p).
Proof.
  intros Hp j r Hr. rewrite chain_of_nth in Hr by done. destruct (at_ok h Hh p Hp) as [Hpos _ _].
  destruct (Nat.leb_spec j (Z.to_nat (nHeight (at_ h p)))) as [Hj|]; [|done].
  destruct (back_height _ _ _ Hp Hr) as (_ & Hs & Hhr). split_and!; [done|lia|]. intros i Hi.
  rewrite chain_of_nth by done. destruct (Nat.leb_spec i (Z.to_nat (nHeight (at_ h p)))); [|lia].
  replace (Z.to_nat (nHeight (at_ h p)) - i)%nat with ((Z.to_nat (nHeight (at_ h p)) - j) + (j - i))%nat by lia.
  by rewrite back_add, Hr.
Qed.

Lemma nth_insert_chain (chain : CChain) j x i : (j < length chain)%nat ->
  nth i (<[j := x]> chain) None = if decide (i = j) then x else nth i chain None.
Proof.
  intros Hj. rewrite !nth_lookup. destruct (decide (i = j)) as [->|Hne].
  - by rewrite list_lookup_insert_eq.
  - by rewrite list_lookup_insert_ne.
Qed.

(** The entries up to position [j] are chained. *)
Definition path_upto (chain : CChain) (j : nat) : Prop :=
  forall j' r, (j' <= j)%nat -> nth j' chain None = Some r ->
    is_Some (h !! r) /\ nHeight (at_ h r) = Z.of_nat j' /\ forall i, (i <= j')%nat -> nth i chain None = back h (j' - i) r.

Lemma SetTip_loop_ok fuel chain q j :
  is_Some (h !! q) -> nHeight (at_ h q) = Z.of_nat j -> (j < length chain)%nat -> (j < fuel)%nat -> path_upto chain j ->
  exists chain', SetTip_loop h fuel chain (Some q) = Ok chain' /\ length chain' = length chain /\
    forall i, nth i chain' None = if (i <=? j)%nat then back h (j - i) q else nth i chain None.
Proof.
  revert chain q j; induction fuel as [|fuel IH]; intros chain q j Hq Hhq Hj Hf Hpath; [lia|].
  cbn [SetTip_loop]. rewrite Hhq, Nat2Z.id. destruct (bool_decide_reflect (nth j chain None = Some q)) as [Heq|Hne].
  { exists chain. split_and!; [done..|]. intros i. destruct (Nat.leb_spec i j); [|done].
    destruct (Hpath j q ltac:(lia) Heq) as (_ & _ & Hi). by apply Hi. }
  destruct (at_ok h Hh q Hq) as [_ Hprev _]. destruct (pprev (at_ h q)) as [q'|] eqn:Eq.
  - destruct Hprev as [Hq' Hhq']. destruct j as [|j]; [destruct (at_ok h Hh q' Hq') as [? _ _]; lia|].
    destruct (IH (<[S j := Some q]> chain) q' j Hq') as (chain' & -> & Hlen & Hnth); [lia|rewrite length_insert; lia|lia| |].
    { intros j' r Hj' Hr. rewrite nth_insert_chain in Hr by done. rewrite decide_False in Hr by lia.
      destruct (Hpath j' r ltac:(lia) Hr) as (? & ? & Hi). split_and!; try done. intros i Hij.
      rewrite nth_insert_chain, decide_False by lia. by apply Hi. }
    exists chain'. split_and!; [done|by rewrite Hlen, length_insert|]. intros i. rewrite Hnth.
    rewrite nth_insert_chain by done. destruct (Nat.leb_spec i j), (Nat.leb_spec i (S j)); try lia.
    + replace (S j - i)%nat with (S (j - i)) by lia. cbn [back]. by rewrite Eq.
    + rewrite decide_True by lia. by replace (S j - i)%nat with O by lia.
    + by rewrite decide_False by lia.
  - assert (j = O) as -> by lia. exists (<[0%nat := Some q]> chain).
    split_and!; [by destruct fuel|by rewrite length_insert|]. intros i. rewrite nth_insert_chain by done.
    destruct i as [|i]; [done|]. by rewrite decide_False by lia.
Qed.

Lemma Chain_resize_nth chain n i : nth i (Chain_resize chain n) None = if (i <? n)%nat then nth i chain None else None.
Proof.
  unfold Chain_resize. destruct (Nat.ltb_spec i n) as [Hlt|Hge].
  - destruct (Nat.lt_ge_cases i (length chain)) as [Hl|Hl].
    + rewrite app_nth1 by (rewrite length_take; lia). by rewrite !nth_lookup, lookup_take_lt by lia.
    + rewrite (nth_overflow chain) by lia. destruct (Nat.lt_ge_cases i (length (take n chain))).
      * rewrite length_take in *. lia.
      * rewrite app_nth2 by lia. apply nth_repeat.
  - apply nth_overflow. rewrite length_app, length_take, repeat_length. lia.
Qed.

Lemma SetTip_ok chain p : path_ok chain -> is_Some (h !! p) -> SetTip h chain (Some p) = Ok (chain_of p).
Proof.
  intros Hpath Hp. unfold SetTip. destruct (at_ok h Hh p Hp) as [Hpos _ _].
  set (n := Z.to_nat (nHeight (at_ h p) + 1)). set (j := Z.to_nat (nHeight (at_ h p))).
  assert (length (Chain_resize chain n) = n) as Hlen.
  { unfold Chain_resize. rewrite length_app, length_take, repeat_length. lia. }
  destruct (SetTip_loop_ok n (Chain_resize chain n) p j Hp) as (chain' & -> & Hl & Hnth); [lia..| |].
  - intros j' r Hj' Hr. rewrite Chain_resize_nth in Hr. destruct (Nat.ltb_spec j' n); [|done].
    destruct (Hpath j' r Hr) as (? & ? & Hi). split_and!; try done. intros i Hij.
    rewrite Chain_resize_nth. destruct (Nat.ltb_spec i n); [|lia]. by apply Hi.
  - f_equal. apply (nth_ext _ _ None None).
    { rewrite Hl, Hlen. unfold chain_of. rewrite length_map, length_seq. lia. }
    intros i Hi. rewrite Hnth, chain_of_nth by done. fold j. destruct (Nat.leb_spec i j); [done|]. lia.
Qed.

(** [q] is [p] or an ancestor of it. *)
Definition ancestor (p q : Ptr) : Prop := exists n, back h n p = Some q.

Lemma ancestor_cut p q n r : is_Some (h !! p) -> back h n p = Some r -> ancestor p q ->
  nHeight (at_ h q) <= nHeight (at_ h r) -> ancestor r q.
Proof.
  intros Hp Hr [m Hm] Hle. destruct (back_height _ _ _ Hp Hr) as (_ & _ & Hhr).
  destruct (back_height _ _ _ Hp Hm) as (_ & _ & Hhq). exists (m - n)%nat.
  replace m with (n + (m - n))%nat in Hm by lia. by rewrite back_add, Hr in Hm.
Qed.

Lemma ancestor_step p q : ancestor p q -> q = p \/ exists r, pprev (at_ h p) = Some r /\ ancestor r q.
Proof.
  intros [[|n] Hn]; [left; by injection Hn|]. right. cbn [back] in Hn.
  destruct (pprev (at_ h p)) as [r|]; [|done]. exists r. split; [done|]. by exists n.
Qed.

Lemma Contains_height chain q : Contains h chain q = true -> nHeight (at_ h q) <= Chain_Height chain.
Proof.
  unfold Contains, Chain_at, Chain_Height. rewrite bool_decide_eq_true.
  destruct (_ || _) eqn:Hc; [done|]. bool_to_prop. lia.
Qed.

Definition fork_spec (chain : CChain) (p : Ptr) (r : option Ptr) : Prop :=
  match r with
  | Some q => ancestor p q /\ Contains h chain q = true /\
      forall q', ancestor p q' -> Contains h chain q' = true -> nHeight (at_ h q') <= nHeight (at_ h q)
  | None => forall q', ancestor p q' -> Contains h chain q' = false
  end.

Lemma FindFork_loop_ok fuel chain p : is_Some (h !! p) -> nHeight (at_ h p) < Z.of_nat fuel ->
  exists r, FindFork_loop h fuel chain (Some p) = Ok r /\ fork_spec chain p r.
Proof.
  revert p; induction fuel as [|fuel IH]; intros p Hp Hf; destruct (at_ok h Hh p Hp) as [Hpos Hprev _]; [lia|].
  cbn [FindFork_loop]. destruct (Contains h chain p) eqn:Hc.
  { exists (Some p). split; [done|]. split_and!; [by exists O|done|]. intros q' [n Hn] _.
    destruct (back_height _ _ _ Hp Hn) as (_ & _ & ->). lia. }
  destruct (pprev (at_ h p)) as [q|] eqn:Eq.
  - destruct Hprev as [Hq Hhq]. destruct (IH q Hq) as (r & -> & Hr); [lia|]. exists r. split; [done|].
    destruct r as [c|]; cbn [fork_spec] in *.
    + destruct Hr as ([n Hn] & Hcc & Hmax). split_and!; [exists (S n); cbn [back]; by rewrite Eq|done|].
      intros q' [->|(r & Er & Ha)]%ancestor_step Hcq; [congruence|]. simplify_eq. by apply Hmax.
    + intros q' [->|(r & Er & Ha)]%ancestor_step; [done|]. simplify_eq. by apply Hr.
  - exists None. split; [by destruct fuel|]. intros q' [->|(r & Er & _)]%ancestor_step; [done|congruence].
Qed.

Lemma FindFork_ok chain p : is_Some (h !! p) ->
  exists r, FindFork h chain (Some p) = Ok r /\ fork_spec chain p r.
Proof.
  intros Hp. unfold FindFork. destruct (at_ok h Hh p Hp) as [Hpos _ _].
  destruct (Z.ltb_spec (Chain_Height chain) (nHeight (at_ h p))) as [Hlt|Hge].
  2:{ cbn. apply FindFork_loop_ok; [done|lia]. }
  rewrite GetAncestor_ok by done. cbn [mbind result_bind].
  assert (0 <= Chain_Height chain \/ Chain_Height chain = -1) as Hch by (unfold Chain_Height; pose proof (zlen_nonneg chain); lia).
  destruct (Z.leb_spec 0 (Chain_Height chain)) as [H0|H0]; cbn [andb].
  - rewrite (proj2 (Z.leb_le _ _)) by lia.
    destruct (back_spec h Hh (Z.to_nat (nHeight (at_ h p) - Chain_Height chain)) p Hp) as (a & Ha & Hsa & Hha); [lia|].
    rewrite Ha. destruct (FindFork_loop_ok (Z.to_nat (nHeight (at_ h p) + 1)) chain a Hsa) as (r & -> & Hr); [lia|].
    exists r. split; [done|]. destruct r as [c|]; cbn [fork_spec] in *.
    + destruct Hr as ([n Hn] & Hc & Hmax). split_and!; [|done|].
      * eexists (_ + n)%nat. rewrite back_add, Ha. exact Hn.
      * intros q' Hq' Hcq. apply Hmax; [|done]. apply (ancestor_cut p q' _ a Hp Ha Hq'). apply Contains_height in Hcq. lia.
    + intros q' Hq'. destruct (Contains h chain q') eqn:Hcq; [|done].
      rewrite <- Hcq. apply Hr. apply (ancestor_cut p q' _ a Hp Ha Hq'). apply Contains_height in Hcq. lia.
  - exists None. split; [by destruct (Z.to_nat _)|]. intros q' [n Hn]. destruct (Contains h chain q') eqn:Hcq; [|done].
    apply Contains_height in Hcq. destruct (back_height _ _ _ Hp Hn) as (Hn' & _ & Hq'). lia.
Qed.

Definition common_spec (a b : Ptr) (r : option Ptr) : Prop :=
  match r with
  | Some c => ancestor a c /\ ancestor b c /\
      forall d, ancestor a d -> ancestor b d -> nHeight (at_ h d) <= nHeight (at_ h c)
  | None => forall d, ancestor a d -> ~ ancestor b d
  end.

Lemma LastCommonAncestor_loop_ok fuel a b : is_Some (h !! a) -> is_Some (h !! b) ->
  nHeight (at_ h a) = nHeight (at_ h b) -> nHeight (at_ h a) < Z.of_nat fuel ->
  exists r, LastCommonAncestor_loop h fuel (Some a) (Some b) = Ok r /\ common_spec a b r.
Proof.
  revert a b; induction fuel as [|fuel IH]; intros a b Ha Hb He Hf;
    destruct (at_ok h Hh a Ha) as [Hpos Hpa _], (at_ok h Hh b Hb) as [_ Hpb _]; [lia|].
  cbn [LastCommonAncestor_loop]. destruct (bool_decide_reflect (a = b)) as [<-|Hne].
  { exists (Some a). split; [done|]. split_and!; [by exists O..|]. intros d [n Hn] _.
    destruct (back_height _ _ _ Ha Hn) as (_ & _ & ->). lia. }
  assert (forall d, ancestor a d -> ancestor b d ->
    exists a' b', pprev (at_ h a) = Some a' /\ pprev (at_ h b) = Some b' /\ ancestor a' d /\ ancestor b' d) as Hboth.
  { intros d Hda Hdb. destruct (ancestor_step _ _ Hda) as [->|(a' & Ea & Ha')].
    - destruct (ancestor_step _ _ Hdb) as [->|(b' & Eb & [n Hn])]; [done|]. rewrite Eb in Hpb. destruct Hpb as [Hsb Hhb].
      destruct (back_height _ _ _ Hsb Hn) as (_ & _ & Hd). lia.
    - destruct (ancestor_step _ _ Hdb) as [->|(b' & Eb & Hb')]; [|by eauto 10].
      destruct Ha' as [n Hn]. rewrite Ea in Hpa. destruct Hpa as [Hsa Hha].
      destruct (back_height _ _ _ Hsa Hn) as (_ & _ & Hd). lia. }
  destruct (pprev (at_ h a)) as [a'|] eqn:Ea, (pprev (at_ h b)) as [b'|] eqn:Eb; try lia.
  - destruct Hpa as [Hsa Hha], Hpb as [Hsb Hhb]. destruct (IH a' b' Hsa Hsb) as (r & -> & Hr); [lia..|].
    exists r. split; [done|]. destruct r as [c|]; cbn [common_spec] in *.
    + destruct Hr as ([n Hn] & [m Hm] & Hmax). split_and!; [exists (S n); cbn [back]; by rewrite Ea|exists (S m); cbn [back]; by rewrite Eb|].
      intros d Hda Hdb. destruct (Hboth d Hda Hdb) as (? & ? & [= <-] & [= <-] & ? & ?). by apply Hmax.
    + intros d Hda Hdb. destruct (Hboth d Hda Hdb) as (? & ? & [= <-] & [= <-] & Ha' & Hb'). by apply (Hr d Ha').
  - destruct Hpa as [Hsa Hha], (at_ok h Hh a' Hsa) as [? _ _]. lia.
  - destruct Hpb as [Hsb Hhb], (at_ok h Hh b' Hsb) as [? _ _]. lia.
  - exists None. split; [by destruct fuel|]. intros d Hda Hdb. destruct (Hboth d Hda Hdb) as (? & ? & ? & _). done.
Qed.

Lemma common_sym a b r : common_spec a b r -> common_spec b a r.
Proof. destruct r as [c|]; cbn [common_spec]; [intros (? & ? & Hm); split_and!; try done; eauto|]. intros Hn d Hb Ha. by apply (Hn d Ha). Qed.

(** Walking the higher block down first does not lose a common ancestor. *)
Lemma common_cut a b n c r : is_Some (h !! a) -> is_Some (h !! b) -> back h n a = Some c ->
  nHeight (at_ h c) = nHeight (at_ h b) -> common_spec c b r -> common_spec a b r.
Proof.
  intros Ha Hb Hc He Hr. assert (forall d, ancestor a d -> ancestor b d -> ancestor c d) as Hcut.
  { intros d Hda [m Hm]. destruct (back_height _ _ _ Hb Hm) as (_ & _ & Hd). apply (ancestor_cut a d n c Ha Hc Hda). lia. }
  destruct r as [e|]; cbn [common_spec] in *.
  - destruct Hr as ([m Hm] & Hbe & Hmax). split_and!; [|done|].
    + exists (n + m)%nat. by rewrite back_add, Hc.
    + intros d Hda Hdb. apply Hmax; auto.
  - intros d Hda Hdb. by apply (Hr d); auto.
Qed.

Lemma LastCommonAncestor_ok a b : is_Some (h !! a) -> is_Some (h !! b) ->
  exists r, LastCommonAncestor h a b = Ok r /\ common_spec a b r.
Proof.
  intros Ha Hb. unfold LastCommonAncestor. destruct (at_ok h Hh a Ha) as [Hpa _ _], (at_ok h Hh b Hb) as [Hpb _ _].
  rewrite !GetAncestor_ok by done.
  destruct (Z.ltb_spec (nHeight (at_ h b)) (nHeight (at_ h a))) as [Hlt|Hge]; cbn [negb andb].
  - rewrite (proj2 (andb_true_iff _ _)) by (rewrite !Z.leb_le; lia).
    destruct (back_spec h Hh (Z.to_nat (nHeight (at_ h a) - nHeight (at_ h b))) a Ha) as (c & Hc & Hsc & Hhc); [lia|].
    rewrite Hc. cbn [mbind result_bind].
    destruct (LastCommonAncestor_loop_ok (Z.to_nat (nHeight (at_ h a) + 1)) c b Hsc Hb) as (r & Er & Hr); [lia..|].
    exists r. split; [exact Er|]. eapply common_cut; [done..| |done]. lia.
  - destruct (Z.ltb_spec (nHeight (at_ h a)) (nHeight (at_ h b))) as [Hlt'|Hge']; cbn [mbind result_bind].
    + rewrite (proj2 (andb_true_iff _ _)) by (rewrite !Z.leb_le; lia).
      destruct (back_spec h Hh (Z.to_nat (nHeight (at_ h b) - nHeight (at_ h a))) b Hb) as (c & Hc & Hsc & Hhc); [lia|].
      rewrite Hc. destruct (LastCommonAncestor_loop_ok (Z.to_nat (nHeight (at_ h a) + 1)) a c Ha Hsc) as (r & Er & Hr); [lia..|].
      exists r. split; [exact Er|]. apply common_sym. eapply common_cut; [done..| |by apply common_sym]. lia.
    + apply LastCommonAncestor_loop_ok; [done..|lia|lia].
Qed.
End ChainLemmas.

(** ** Median time past *)

(** The number of elements below [m]. *)
Definition below (m : Z) (l : list Z) : nat := length (filter (fun x => x < m) l).

(** In a sorted list the element at position [k] is at least [m] exactly when
    at most [k] elements are below [m]. *)
Lemma sorted_nth_count (l : list Z) (m : Z) (k : nat) :
  StronglySorted Z.le l -> (k < length l)%nat ->
  m <= nth k l 0 <-> (below m l <= k)%nat.
Proof.
  intros Hs. revert k; induction Hs as [|x l Hs IH Hx]; intros k Hk; [cbn in Hk; lia|].
  unfold below in *. rewrite filter_cons. destruct (decide (x < m)) as [Hlt|Hge].
  - destruct k as [|k]; cbn [nth length] in *; [lia|]. rewrite IH by lia. lia.
  - assert (filter (fun x => x < m) l = []) as ->.
    { clear -Hx Hge. induction Hx as [|y l Hy _ IH]; [done|]. rewrite filter_cons, decide_False by lia. exact IH. }
    cbn [length]. split; [lia|]. intros _. destruct k as [|k]; cbn [nth]; [lia|].
    cbn [length] in Hk. pose proof (proj1 (Forall_forall _ _) Hx (nth k l 0)) as Hin.
    assert (x <= nth k l 0); [|lia]. apply Hin. apply nth_In. lia.
Qed.

Definition median (l : list Z) : Z := let s := merge_sort Z.le l in nth (length s / 2) s 0.

Lemma median_count (l : list Z) (m : Z) : l <> [] ->
  m <= median l <-> (below m l <= length l / 2)%nat.
Proof.
  intros Hl. unfold median. pose proof (merge_sort_Permutation Z.le l) as Hp.
  assert (length l <> 0)%nat by (destruct l; [done|cbn; lia]).
  rewrite sorted_nth_count, (Permutation_length Hp); [|by apply (StronglySorted_merge_sort Z.le)|].
  - unfold below. by rewrite (Permutation_length (filter_Permutation _ _ _ Hp)).
  - rewrite (Permutation_length Hp). apply Nat.div_lt; lia.
Qed.

Lemma median_times_take h n k p : median_times h n p = take n (median_times h (n + k) p).
Proof.
  revert p; induction n as [|n IH]; intros p; [by destruct p|]. cbn [median_times Nat.add].
  destruct p as [p|]; [|done]. cbn. by rewrite <- IH.
Qed.

Lemma GetMedianTimePast_median h p : GetMedianTimePast h p = median (rev (median_times h nMedianTimeSpan (Some p))).
Proof. done. Qed.

(** Block times fit 32 bits, and so does their median. *)
Definition times_ok (h : Heap) : Prop := forall p, is_u32 (bi_nTime (at_ h p)).

Lemma median_time_range h p : times_ok h -> 0 <= GetMedianTimePast h p < 2 ^ 32.
Proof.
  intros Ht. unfold GetMedianTimePast. set (l := median_times h nMedianTimeSpan (Some p)).
  assert (Hl : Forall (fun t => 0 <= t < 2 ^ 32) l).
  { subst l. generalize (Some p). generalize nMedianTimeSpan. intros n. induction n as [|n IH]; intros q; [by destruct q; constructor|].
    destruct q as [q|]; cbn [median_times]; constructor; [|apply IH]. pose proof (Ht q) as Hq. unfold is_u32 in Hq.
    by rewrite i64_small by (unfold is_i64; lia). }
  assert (Hs : Forall (fun t => 0 <= t < 2 ^ 32) (merge_sort Z.le (rev l))).
  { eapply Permutation_Forall; [symmetry; apply merge_sort_Permutation|]. by apply Forall_rev. }
  cbv zeta. destruct (nth_in_or_default (length (merge_sort Z.le (rev l)) / 2) (merge_sort Z.le (rev l)) 0) as [Hi|Hi]; [|rewrite Hi; lia].
  rewrite Forall_forall in Hs. by apply Hs.
Qed.

Lemma median_times_insert h p e n : heap_ok h -> h !! p = None -> forall q, (forall r, q = Some r -> is_Some (h !! r)) ->
  median_times (<[p := e]> h) n q = median_times h n q.
Proof.
  intros Hh Hp. induction n as [|n IH]; intros q Hq; [by destruct q|]. destruct q as [q|]; [|done]. cbn [median_times].
  assert (Hs : is_Some (h !! q)) by (by apply Hq). assert (p <> q) by (intros ->; destruct Hs; congruence).
  rewrite at_insert_ne by done. f_equal. apply IH. intros r Hr. destruct (at_ok h Hh q Hs) as [_ Hprev _]. rewrite Hr in Hprev. apply Hprev.
Qed.

Lemma median_insert h p e q : heap_ok h -> h !! p = None -> is_Some (h !! q) ->
  GetMedianTimePast (<[p := e]> h) q = GetMedianTimePast h q.
Proof. intros Hh Hp Hq. unfold GetMedianTimePast. rewrite median_times_insert; [done..|]. by intros r [= <-]. Qed.

Lemma below_rev m l : below m (rev l) = below m l.
Proof. apply Permutation_length. by rewrite (Permutation_rev l) at 2. Qed.

Lemma median_slides (l : list Z) (t : Z) :
  l <> [] -> (length l <= nMedianTimeSpan)%nat -> median (rev l) < t ->
  median (rev l) <= median (rev (t :: take (nMedianTimeSpan - 1) l)).
Proof.
  intros Hl Hlen Ht. assert (length l <> 0)%nat by (destruct l; [done|cbn; lia]).
  set (m := median (rev l)) in *.
  assert (below m (rev l) <= length (rev l) / 2)%nat as Hm.
  { apply median_count; [|lia]. intros Hr%(f_equal (@length Z)). by rewrite length_rev in Hr. }
  rewrite below_rev, length_rev in Hm.
  apply median_count.
  { intros Hr%(f_equal (@length Z)). rewrite length_rev in Hr. done. }
  rewrite below_rev, length_rev. unfold below at 1. rewrite filter_cons, decide_False by lia. cbn [length]. rewrite length_take.
  fold (below m (take (nMedianTimeSpan - 1) l)).
  assert (below m (take (nMedianTimeSpan - 1) l) <= below m l)%nat.
  { unfold below. rewrite <- (take_drop (nMedianTimeSpan - 1) l) at 2. rewrite list.filter_app, length_app. lia. }
  transitivity (length l / 2)%nat; [lia|]. unfold nMedianTimeSpan in *. apply Nat.Div0.div_le_mono. lia.
Qed.

(** A small index: genesis 1, its children 2 and 4, and 3 on top of 2. *)
Definition example_entry (prev skip : option Ptr) (height time : Z) : CBlockIndex :=
  mkCBlockIndex uint256_null prev skip height 0 0 0 arith_zero 0 0 BLOCK_VALID_TREE 1 uint256_null time 0x1d00ffff 0 0 time.
Definition example_heap : Heap :=
  <[4%positive := example_entry (Some 1%positive) (Some 1%positive) 1 150]>
  (<[3%positive := example_entry (Some 2%positive) (Some 1%positive) 2 200]>
  (<[2%positive := example_entry (Some 1%positive) (Some 1%positive) 1 110]>
  (<[1%positive := example_entry None None 0 100]> ∅))).

Lemma example_heap_ok : heap_ok example_heap.
Proof.
  unfold example_heap.
  repeat (apply heap_ok_insert; [|reflexivity|split; [cbn; lia|vm_compute; eauto|]]);
    [intros p e He; by rewrite lookup_empty in He|by intros q [= <-]..|done].
Qed.

(** * Properties *)

(** C31: The skip list finds the right ancestor: on a well-formed block index
    [GetAncestor] never trips its assertion, and returns for every height from
    0 to the block's own the ancestor reached by that many [pprev] links, and
    null for every other height. *)
Theorem GetAncestor_correct (h : Heap) (p : Ptr) (height : Z) :
  heap_ok h -> is_Some (h !! p) ->
  GetAncestor h p height =
    Ok (if (0 <=? height) && (height <=? nHeight (at_ h p))
        then back h (Z.to_nat (nHeight (at_ h p) - height)) p else None).
Proof. intros Hh Hp. by apply GetAncestor_ok. Qed.

Lemma GetAncestor_correct_witness : GetAncestor example_heap 3 0 = Ok (Some 1%positive).
Proof.
  rewrite (GetAncestor_correct example_heap 3 0); [reflexivity|apply example_heap_ok|vm_compute; eauto].
Defined.

(** The block index only ever holds well-formed trees: from the empty index,
    whatever headers are added in whatever order (fewer than 2^31, none its own
    parent by hash), no assertion fails, every header ends up in the index, and
    the result has valid links, heights, skip pointers and maximal times, chain
    work that adds up along each branch, and a best header of maximal work. *)
Theorem AddHeaders_invariant (blocks : list CBlockHeader) :
  zlen blocks < 2 ^ 31 ->
  Forall (fun b => is_u32 (bh_nBits b) /\ CBlockHeader_GetHash b <> hashPrevBlock b) blocks ->
  exists t, AddHeaders blocks tree_empty = Ok t /\ tree_ok t /\
    Forall (fun b => is_Some (mapBlockIndex t !! CBlockHeader_GetHash b)) blocks.
Proof.
  intros Hlen Hb. destruct (AddHeaders_ok blocks tree_empty 0) as (t & ? & ? & ? & _); try done; [apply tree_empty_ok| |eauto].
  intros p [e He]. cbn [bt_heap tree_empty] in He. by rewrite lookup_empty in He.
Qed.

Definition example_chain_headers : list CBlockHeader :=
  let g := mkCBlockHeader 1 uint256_null (repeat 5 32) 1231006505 0x1d00ffff 42 in
  [g; mkCBlockHeader 1 (CBlockHeader_GetHash g) (repeat 6 32) 1231006999 0x1d00ffff 43].

Lemma AddHeaders_invariant_witness : exists t, AddHeaders example_chain_headers tree_empty = Ok t /\ tree_ok t.
Proof.
  destruct (AddHeaders_invariant example_chain_headers) as (t & Ht & Hok & _); [vm_compute; reflexivity| |exists t; split; [exact Ht|exact Hok]].
  repeat constructor; cbn [bh_nBits]; try (unfold is_u32; lia).
  all: apply (bool_decide_eq_false_1 (_ = _)); vm_compute; reflexivity.
Defined.

(** C36: [SetTip] makes the active chain exactly the chain of ancestors of the
    new tip, whatever chained vector it starts from, although it stops
    rewriting at the first entry that is already right; and the fork search
    along the skip list finds the highest block of the chain the block
    descends from, or null when there is none. *)
Theorem active_chain_correct (h : Heap) (chain : CChain) (p q : Ptr) :
  heap_ok h -> path_ok h chain -> is_Some (h !! p) -> is_Some (h !! q) ->
  SetTip h chain (Some p) = Ok (chain_of h p) /\
  exists r, FindFork h chain (Some q) = Ok r /\ fork_spec h chain q r.
Proof. intros Hh Hc Hp Hq. split; [by apply SetTip_ok|by apply FindFork_ok]. Qed.

Lemma active_chain_correct_witness :
  SetTip example_heap (chain_of example_heap 3) (Some 4%positive) = Ok [Some 1%positive; Some 4%positive] /\
  FindFork example_heap (chain_of example_heap 3) (Some 4%positive) = Ok (Some 1%positive).
Proof.
  destruct (active_chain_correct example_heap (chain_of example_heap 3) 4 4) as [Hs (r & Hr & _)];
    [apply example_heap_ok|apply chain_of_path; [apply example_heap_ok|vm_compute; eauto]|vm_compute; eauto..|].
  split; [rewrite Hs; reflexivity|]. rewrite Hr. vm_compute in Hr. congruence.
Defined.

(** [LastCommonAncestor] returns the highest block both arguments descend
    from, or null when their branches never meet; its assertion cannot fail. *)
Theorem LastCommonAncestor_correct (h : Heap) (pa pb : Ptr) :
  heap_ok h -> is_Some (h !! pa) -> is_Some (h !! pb) ->
  exists r, LastCommonAncestor h pa pb = Ok r /\ common_spec h pa pb r.
Proof. intros Hh Ha Hb. by apply LastCommonAncestor_ok. Qed.

Lemma LastCommonAncestor_correct_witness : LastCommonAncestor example_heap 3 4 = Ok (Some 1%positive).
Proof.
  destruct (LastCommonAncestor_correct example_heap 3 4) as (r & Hr & _); [apply example_heap_ok|vm_compute; eauto..|].
  rewrite Hr. vm_compute in Hr. congruence.
Defined.

(** Median time never goes back: a block whose time is later than the
    median time past of its parent, as header validation requires, has a
    median time past at least that of its parent. *)
Theorem median_time_monotone (h : Heap) (b p : Ptr) :
  pprev (at_ h b) = Some p -> GetMedianTimePast h p < i64 (bi_nTime (at_ h b)) ->
  GetMedianTimePast h p <= GetMedianTimePast h b.
Proof.
  rewrite !GetMedianTimePast_median. intros Hb Ht.
  change (median_times h nMedianTimeSpan (Some b)) with
    (i64 (bi_nTime (at_ h b)) :: median_times h (nMedianTimeSpan - 1) (pprev (at_ h b))).
  rewrite Hb, (median_times_take h (nMedianTimeSpan - 1) 1). apply median_slides; [done| |done].
  rewrite (median_times_take h nMedianTimeSpan 0), length_take. lia.
Qed.

Lemma median_time_monotone_witness : GetMedianTimePast example_heap 2 <= GetMedianTimePast example_heap 3.
Proof. apply (median_time_monotone example_heap 3 2); vm_compute; reflexivity. Defined.

(** The work of a block is 2^256 / (target + 1), computed within 256 bits,
    and 0 for a negative, overflowing or zero target; the division cannot
    throw. *)
Theorem GetBlockProof_correct (nBits : Z) :
  is_u32 nBits -> exists w, GetBlockProof nBits = Ok w /\ arith_ok w /\ val w = block_work nBits.
Proof. apply GetBlockProof_ok. Qed.

Lemma GetBlockProof_correct_witness : exists w, GetBlockProof 0x1d00ffff = Ok w /\ val w = 4295032833.
Proof.
  destruct (GetBlockProof_correct 0x1d00ffff) as (w & Hw & _ & Hv); [done|].
  exists w. split; [exact Hw|]. rewrite Hv. vm_compute. reflexivity.
Defined.
