(* ===== verification/Pow.v ===== *)
(** * Proof of work (params.h, pow.cpp): the consensus parameters, the difficulty
    adjustment and the check of a header's hash against its target *)
From S2P Require Import Prelude Serialize Crypto Transaction ArithUint256 Block Chain.

(** ** Consensus parameters *)
Record BIP9Deployment := mkBIP9Deployment { bit : Z; nStartTime : Z; nTimeout : Z }.
Definition ALWAYS_ACTIVE : Z := -1.
Definition NO_TIMEOUT : Z := INT64_MAX.

Record Params := mkParams {
  hashGenesisBlock : uint256;
  nSubsidyHalvingInterval : Z;
  BIP16Height : Z;
  BIP34Height : Z;
  BIP34Hash : uint256;
  BIP65Height : Z;
  BIP66Height : Z;
  nRuleChangeActivationThreshold : Z;
  nMinerConfirmationWindow : Z;
  vDeployments : list BIP9Deployment;
  powLimit : uint256;
  fPowAllowMinDifficultyBlocks : bool;
  fPowNoRetargeting : bool;
  nPowTargetSpacing : Z;
  nPowTargetTimespan : Z;
}.

Definition DifficultyAdjustmentInterval (params : Params) : Z :=
  Z.quot (nPowTargetTimespan params) (nPowTargetSpacing params).

(** ** The next target *)

(** [operator>] on targets. *)
Definition arith_gt (a b : arith_uint256) : bool := 0 <? CompareTo a b.

(** [bnNew *= nActualTimespan] takes the timespan as a 32-bit factor. *)
Definition CalculateNextWorkRequired (nBits nTime nFirstBlockTime : Z) (params : Params) : result Z :=
  if fPowNoRetargeting params then Ok nBits
  else
    let T := nPowTargetTimespan params in
    let nActualTimespan := nTime - nFirstBlockTime in
    let nActualTimespan := if nActualTimespan <? Z.quot T 4 then Z.quot T 4 else nActualTimespan in
    let nActualTimespan := if T * 4 <? nActualTimespan then T * 4 else nActualTimespan in
    let bnPowLimit := UintToArith256 (powLimit params) in
    let '(bnNew, _, _) := SetCompact nBits in
    let bnNew := arith_mul32 bnNew (u32 nActualTimespan) in
    bnNew ← arith_div bnNew (arith_of_uint64 (u64 T));
    let bnNew := if arith_gt bnNew bnPowLimit then bnPowLimit else bnNew in
    GetCompact bnNew false.

(** [while (pindex->pprev && pindex->nHeight % interval != 0 && pindex->nBits == limit)]. *)
Fixpoint last_regular_bits (h : Heap) (fuel : nat) (interval limit : Z) (p : Ptr) : result Z :=
  match pprev (at_ h p), negb (Z.rem (nHeight (at_ h p)) interval =? 0) && (bi_nBits (at_ h p) =? limit) with
  | Some q, true =>
      match fuel with
      | O => Throw (assert_failed "GetNextWorkRequired: no progress")
      | S fuel => last_regular_bits h fuel interval limit q
      end
  | _, _ => Ok (bi_nBits (at_ h p))
  end.

(** [pindexLast] must not be null; only the time of the new header is used. *)
Definition GetNextWorkRequired (h : Heap) (pindexLast : option Ptr) (nBlockTime : Z) (params : Params) : result Z :=
  match pindexLast with
  | None => Throw (assert_failed "pindexLast != nullptr")
  | Some p =>
      nProofOfWorkLimit ← GetCompact (UintToArith256 (powLimit params)) false;
      let I := DifficultyAdjustmentInterval params in
      let last := at_ h p in
      if negb (Z.rem (nHeight last + 1) I =? 0) then
        if fPowAllowMinDifficultyBlocks params then
          if i64 (bi_nTime last) + nPowTargetSpacing params * 2 <? nBlockTime then Ok nProofOfWorkLimit
          else last_regular_bits h (Z.to_nat (nHeight last)) I nProofOfWorkLimit p
        else Ok (bi_nBits last)
      else
        let nHeightFirst := nHeight last - (I - 1) in
        assert_then (0 <=? nHeightFirst) "nHeightFirst >= 0"
          (pindexFirst ← GetAncestor h p nHeightFirst;
           match pindexFirst with
           | None => Throw (assert_failed "pindexFirst")
           | Some q => CalculateNextWorkRequired (bi_nBits last) (i64 (bi_nTime last)) (i64 (bi_nTime (at_ h q))) params
           end)
  end.

Definition CheckProofOfWork (hash : uint256) (nBits : Z) (params : Params) : bool :=
  let '(bnTarget, fNegative, fOverflow) := SetCompact nBits in
  if fNegative || EqualTo bnTarget 0 || fOverflow || arith_gt bnTarget (UintToArith256 (powLimit params)) then false
  else if arith_gt (UintToArith256 hash) bnTarget then false
  else true.

(** * Lemmas *)

Lemma arith_gt_ok a b : arith_ok a -> arith_ok b -> arith_gt a b = (val b <? val a).
Proof. intros Ha Hb. unfold arith_gt. rewrite CompareTo_ok by done. apply eq_true_iff_eq. rewrite !Z.ltb_lt. lia. Qed.

(** The consensus parameters the chains use: a positive target timespan whose
    quadruple is a 32-bit number, spacing that divides it into intervals, and a
    limit the compact form represents exactly. *)
Record params_ok (params : Params) : Prop := {
  params_limit : uint256_ok (powLimit params);
  params_timespan : 4 <= nPowTargetTimespan params /\ nPowTargetTimespan params * 4 < 2 ^ 32;
  params_spacing : 1 <= nPowTargetSpacing params <= nPowTargetTimespan params;
}.

Lemma interval_pos params : params_ok params -> 1 <= DifficultyAdjustmentInterval params.
Proof.
  intros [_ HT HS]. unfold DifficultyAdjustmentInterval. rewrite Z.quot_div_nonneg by lia. apply Z.div_le_lower_bound; lia.
Qed.

(** Retargeting leaves room: four timespans times the target fit 256 bits, unless
    the network never retargets. *)
Definition no_wrap (params : Params) (target : Z) : Prop :=
  fPowNoRetargeting params = true \/ target * (nPowTargetTimespan params * 4) < 2 ^ 256.

Lemma no_wrap_le params a b : params_ok params -> a <= b -> no_wrap params b -> no_wrap params a.
Proof. intros [_ [HT _] _] Hab [Hn|Hb]; [by left|right; nia]. Qed.

(** The timespan after clamping to a factor of 4 in either direction. *)
Definition clamped (T actual : Z) : Z := Z.min (T * 4) (Z.max (T / 4) actual).

(** The target [CalculateNextWorkRequired] aims at: the old one scaled by the
    clamped timespan, at most the limit. *)
Definition next_target (params : Params) (old actual : Z) : Z :=
  Z.min (le_value (powLimit params)) (old * clamped (nPowTargetTimespan params) actual / nPowTargetTimespan params).

Lemma next_target_arith (T old actual limit : Z) a L :
  4 <= T -> T * 4 < 2 ^ 32 -> arith_ok a -> val a = old -> old * (T * 4) < 2 ^ 256 -> arith_ok L -> val L = limit ->
  exists q, arith_div (arith_mul32 a (u32 (clamped T actual))) (arith_of_uint64 (u64 T)) = Ok q /\ arith_ok q /\
    val q = old * clamped T actual / T.
Proof.
  intros HT HT4 Ha Hv Hov HL HLv. assert (0 <= T / 4 <= T) by (split; [apply Z.div_pos|apply Z.div_le_upper_bound]; lia).
  assert (0 <= clamped T actual <= T * 4) as Hc by (unfold clamped; lia).
  pose proof (arith_val_range _ Ha) as Hr.
  rewrite u32_small, u64_small by (unfold is_u32, is_u64; lia).
  destruct (arith_of_uint64_ok T) as [Htok Htv]; [unfold is_u64; lia|].
  destruct (arith_mul32_ok a (clamped T actual) Ha) as [Hm Hmv]; [unfold is_u32; lia|].
  pose proof (arith_div_ok _ _ Hm Htok) as Hd. rewrite Htv, (proj2 (Z.eqb_neq T 0)) in Hd by lia.
  destruct Hd as (q & Hq & Hqok & Hqv). exists q. split_and!; [done..|]. rewrite Hqv, Hmv, Hv, Z.mod_small by nia. done.
Qed.

Lemma CalculateNextWorkRequired_ok nBits nTime nFirst params :
  params_ok params -> fPowNoRetargeting params = false -> is_u32 nBits ->
  compact_value nBits * (nPowTargetTimespan params * 4) < 2 ^ 256 ->
  CalculateNextWorkRequired nBits nTime nFirst params =
    Ok (compact_enc (next_target params (compact_value nBits) (nTime - nFirst))).
Proof.
  intros [Hlim [HT HT4] _] Hno Hb Hov. unfold CalculateNextWorkRequired. rewrite Hno.
  set (T := nPowTargetTimespan params) in *. rewrite Z.quot_div_nonneg by lia.
  assert ((if T * 4 <? (if nTime - nFirst <? T / 4 then T / 4 else nTime - nFirst) then T * 4
           else (if nTime - nFirst <? T / 4 then T / 4 else nTime - nFirst)) = clamped T (nTime - nFirst)) as ->.
  { unfold clamped. destruct (Z.ltb_spec (nTime - nFirst) (T / 4)).
    - destruct (Z.ltb_spec (T * 4) (T / 4)); lia.
    - destruct (Z.ltb_spec (T * 4) (nTime - nFirst)); lia. }
  pose proof (compact_value_nonneg nBits) as Hnn.
  destruct (SetCompact_ok nBits Hb) as (a & -> & Ha & Hv). rewrite Z.mod_small in Hv by nia.
  destruct (UintToArith256_ok _ Hlim) as [HL HLv].
  destruct (next_target_arith T _ (nTime - nFirst) _ a _ HT HT4 Ha Hv Hov HL HLv) as (q & -> & Hq & Hqv).
  cbn [mbind result_bind]. rewrite arith_gt_ok by done.
  unfold next_target. fold T. set (X := if _ <? _ then _ else _).
  assert (arith_ok X /\ val X = Z.min (le_value (powLimit params)) (compact_value nBits * clamped T (nTime - nFirst) / T)) as [HX HXv].
  { subst X. rewrite HLv, Hqv. destruct (Z.ltb_spec (le_value (powLimit params)) (compact_value nBits * clamped T (nTime - nFirst) / T));
      (split; [done|]); rewrite ?HLv, ?Hqv; lia. }
  rewrite GetCompact_ok, HXv by done. reflexivity.
Qed.

(** The compact target [c] stands for, with its validity. *)
Definition target_valid (params : Params) (c : Z) : Prop :=
  ~ (compact_word c <> 0 /\ compact_sign c = true) /\ 0 < compact_value c <= le_value (powLimit params).

Lemma CheckProofOfWork_ok hash nBits params :
  uint256_ok (powLimit params) -> uint256_ok hash -> is_u32 nBits ->
  CheckProofOfWork hash nBits params = true <->
  target_valid params nBits /\ le_value hash <= compact_value nBits.
Proof.
  intros Hlim Hhash Hb. unfold CheckProofOfWork, target_valid.
  destruct (SetCompact_ok nBits Hb) as (a & -> & Ha & Hv). pose proof (compact_value_nonneg nBits) as Hnn.
  destruct (UintToArith256_ok _ Hlim) as [HL HLv]. destruct (UintToArith256_ok _ Hhash) as [HH HHv].
  pose proof (arith_val_range _ HL) as HLr. rewrite HLv in HLr.
  rewrite !arith_gt_ok, EqualTo_ok by done. rewrite HLv, HHv, Hv.
  destruct (Z.leb_spec (2 ^ 256) (compact_value nBits)) as [Hbig|Hsmall].
  { rewrite !orb_true_r. cbn [orb]. split; [done|]. lia. }
  rewrite Z.mod_small by lia.
  destruct (negb (compact_word nBits =? 0) && compact_sign nBits) eqn:Hneg; cbn [orb].
  - apply andb_true_iff in Hneg as [Hw Hs]. bool_to_prop. split; [done|]. intros [[Hn _] _]. by destruct Hn.
  - assert (~ (compact_word nBits <> 0 /\ compact_sign nBits = true)) as Hn.
    { intros [Hw Hs]. rewrite Hs, andb_true_r in Hneg. bool_to_prop. done. }
    destruct (Z.eqb_spec (compact_value nBits) 0), (Z.ltb_spec (le_value (powLimit params)) (compact_value nBits)),
      (Z.ltb_spec (compact_value nBits) (le_value hash)); cbn [orb];
      (split; [intros Hx; first [discriminate Hx|split; [split; [done|lia]|lia]]|intros [[_ ?] ?]; first [reflexivity|lia]]).
Qed.

(** The last block, from [p] back, that is not one of minimum difficulty: it has
    another target, or starts an interval, or is the first block. *)
Inductive regular_from (h : Heap) (interval limit : Z) : Ptr -> Ptr -> Prop :=
  | regular_here p : bi_nBits (at_ h p) <> limit \/ Z.rem (nHeight (at_ h p)) interval = 0 \/ pprev (at_ h p) = None ->
      regular_from h interval limit p p
  | regular_skip p q r : pprev (at_ h p) = Some q -> Z.rem (nHeight (at_ h p)) interval <> 0 -> bi_nBits (at_ h p) = limit ->
      regular_from h interval limit q r -> regular_from h interval limit p r.

Section Next.
Context (h : Heap) (Hh : heap_ok h).

Lemma last_regular_bits_ok fuel interval limit p :
  is_Some (h !! p) -> nHeight (at_ h p) <= Z.of_nat fuel ->
  exists q, last_regular_bits h fuel interval limit p = Ok (bi_nBits (at_ h q)) /\ regular_from h interval limit p q.
Proof.
  revert p; induction fuel as [|fuel IH]; intros p Hp Hf; destruct (at_ok h Hh p Hp) as [Hpos Hprev _];
    cbn [last_regular_bits]; destruct (pprev (at_ h p)) as [q|] eqn:Eq.
  - destruct Hprev as [Hq Hhq], (at_ok h Hh q Hq) as [? _ _]. lia.
  - exists p. split; [done|]. apply regular_here. auto.
  - destruct (_ && _) eqn:Hc.
    + destruct Hprev as [Hq Hhq]. destruct (IH q Hq) as (r & Hr & Hspec); [lia|]. bool_to_prop.
      exists r. split; [done|]. by eapply regular_skip.
    + exists p. split; [done|]. apply regular_here. apply andb_false_iff in Hc as [Hc|Hc]; bool_to_prop; auto.
  - exists p. split; [done|]. apply regular_here. auto.
Qed.
End Next.

(** Parameters with the timing and the limit of the main chain. *)
Definition example_params : Params :=
  mkParams uint256_null 210000 0 0 uint256_null 0 0 1916 2016 []
    (repeat 255 28 ++ repeat 0 4) false false 600 1209600.

Lemma example_params_ok : params_ok example_params.
Proof. split; [split; [done|decide_true]|cbn; lia|cbn; lia]. Qed.

(** * Properties *)

(** A hash passes [CheckProofOfWork] exactly when the target in the header
    is not negative, not zero, fits 256 bits and is at most the limit, and the
    hash read as a little-endian number is at most that target. *)
Theorem CheckProofOfWork_correct (hash : uint256) (nBits : Z) (params : Params) :
  uint256_ok (powLimit params) -> uint256_ok hash -> is_u32 nBits ->
  CheckProofOfWork hash nBits params = true <->
  target_valid params nBits /\ le_value hash <= compact_value nBits.
Proof. apply CheckProofOfWork_ok. Qed.

Lemma CheckProofOfWork_correct_witness : CheckProofOfWork (repeat 0 32) 0x1d00ffff example_params = true.
Proof.
  apply (CheckProofOfWork_correct (repeat 0 32) 0x1d00ffff example_params);
    [apply example_params_ok|split; [done|decide_true]|done|].
  split; [split; [|vm_compute; split; [reflexivity|congruence]]|vm_compute; congruence]. vm_compute. by intros [_ ?].
Defined.

(** C34: Retargeting: for an old target that leaves room for a factor of four
    timespans in 256 bits, the new compact target is that of the old one scaled
    by the time the last interval took, clamped to [T/4, 4T], divided by [T], and
    cut at the limit. It never fails, decodes to at most the limit and to at
    most four times the old target. *)
Theorem retarget_correct (nBits nTime nFirst : Z) (params : Params) :
  params_ok params -> fPowNoRetargeting params = false -> is_u32 nBits ->
  compact_value nBits * (nPowTargetTimespan params * 4) < 2 ^ 256 ->
  0 < next_target params (compact_value nBits) (nTime - nFirst) ->
  exists c, CalculateNextWorkRequired nBits nTime nFirst params = Ok c /\
    c = compact_enc (next_target params (compact_value nBits) (nTime - nFirst)) /\
    compact_value c <= le_value (powLimit params) /\ compact_value c <= 4 * compact_value nBits.
Proof.
  intros Hp Hno Hb Hov Hpos. eexists. split; [by apply CalculateNextWorkRequired_ok|]. split; [done|].
  destruct Hp as [_ [HT _] _]. pose proof (compact_value_nonneg nBits) as Hnn. revert Hpos.
  unfold next_target, clamped. set (T := nPowTargetTimespan params) in *. set (old := compact_value nBits) in *.
  set (v := Z.min _ _). intros Hpos. destruct (compact_enc_value v Hpos) as [-> _].
  destruct (compact_drop_bound v Hpos) as [Hd _].
  assert (v / 2 ^ (8 * compact_drop v) * 2 ^ (8 * compact_drop v) <= v) as Hle.
  { rewrite Z.mul_comm. apply Z.mul_div_le. apply Z.pow_pos_nonneg; lia. }
  assert (old * Z.min (T * 4) (Z.max (T / 4) (nTime - nFirst)) / T <= 4 * old) as H4.
  { apply Z.div_le_upper_bound; [lia|]. assert (Z.min (T * 4) (Z.max (T / 4) (nTime - nFirst)) <= T * 4) by lia. nia. }
  lia.
Qed.

Lemma retarget_correct_witness :
  exists c, CalculateNextWorkRequired 0x1b0404cb 1263249294 1262152739 example_params = Ok c /\
    compact_value c <= 4 * compact_value 0x1b0404cb.
Proof.
  destruct (retarget_correct 0x1b0404cb 1263249294 1262152739 example_params) as (c & Hc & _ & _ & H4);
    [apply example_params_ok|done|done|vm_compute; reflexivity|vm_compute; reflexivity|]. exists c. split; [exact Hc|exact H4].
Defined.

Lemma GetNextWorkRequired_spec (h : Heap) (p : Ptr) (nBlockTime : Z) (params : Params) :
  heap_ok h -> is_Some (h !! p) -> is_u32 (bi_nBits (at_ h p)) -> params_ok params ->
  no_wrap params (compact_value (bi_nBits (at_ h p))) ->
  let I := DifficultyAdjustmentInterval params in
  exists c, GetNextWorkRequired h (Some p) nBlockTime params = Ok c /\
    ((nHeight (at_ h p) + 1) mod I <> 0 -> fPowAllowMinDifficultyBlocks params = false -> c = bi_nBits (at_ h p)) /\
    ((nHeight (at_ h p) + 1) mod I = 0 -> fPowNoRetargeting params = false ->
       exists q, back h (Z.to_nat (I - 1)) p = Some q /\
         c = compact_enc (next_target params (compact_value (bi_nBits (at_ h p)))
               (i64 (bi_nTime (at_ h p)) - i64 (bi_nTime (at_ h q))))) /\
    ((nHeight (at_ h p) + 1) mod I = 0 -> fPowNoRetargeting params = true -> c = bi_nBits (at_ h p)) /\
    ((nHeight (at_ h p) + 1) mod I <> 0 -> fPowAllowMinDifficultyBlocks params = true ->
       let limit := compact_enc (le_value (powLimit params)) in
       if i64 (bi_nTime (at_ h p)) + nPowTargetSpacing params * 2 <? nBlockTime then c = limit
       else exists q, regular_from h I limit p q /\ c = bi_nBits (at_ h q)).
Proof.
  intros Hh Hp Hb Hpar Hov I. pose proof (interval_pos params Hpar) as HI. fold I in HI.
  destruct (at_ok h Hh p Hp) as [Hpos _ _]. unfold GetNextWorkRequired. fold I.
  destruct (UintToArith256_ok _ (params_limit _ Hpar)) as [HL HLv]. rewrite (GetCompact_ok _ HL), HLv. fold (compact_enc (le_value (powLimit params))). cbn [mbind result_bind].
  rewrite Z.rem_mod_nonneg by lia. destruct (Z.eqb_spec ((nHeight (at_ h p) + 1) mod I) 0) as [Hmod|Hmod]; cbn [negb].
  - assert (I <= nHeight (at_ h p) + 1) as Hle by (apply Z.divide_pos_le; [lia|]; apply Z.mod_divide; [lia|done]).
    unfold assert_then. rewrite (proj2 (Z.leb_le _ _)) by lia. rewrite GetAncestor_ok by done.
    rewrite (proj2 (andb_true_iff _ _)) by (rewrite !Z.leb_le; lia).
    replace (nHeight (at_ h p) - (nHeight (at_ h p) - (I - 1))) with (I - 1) by lia.
    destruct (back_spec h Hh (Z.to_nat (I - 1)) p Hp) as (q & Hq & Hsq & _); [lia|]. rewrite Hq. cbn [mbind result_bind].
    destruct (fPowNoRetargeting params) eqn:Hno.
    + unfold CalculateNextWorkRequired. rewrite Hno. eexists. split; [done|]. done.
    + destruct Hov as [?|Hov]; [congruence|]. rewrite CalculateNextWorkRequired_ok by done. eexists. split; [done|].
      split_and!; [done| |done|done]. intros _ _. by exists q.
  - destruct (fPowAllowMinDifficultyBlocks params); [|by eexists].
    destruct (_ <? nBlockTime); [by eexists|].
    destruct (last_regular_bits_ok h Hh (Z.to_nat (nHeight (at_ h p))) I (compact_enc (le_value (powLimit params))) p Hp) as (q & -> & Hq); [lia|].
    eexists. split; [done|]. split_and!; [done..|]. intros _ _. by exists q.
Qed.

(** C35: The work required from the next block is always defined: on a
    well-formed block index with a complete first interval below a retarget
    height, [GetNextWorkRequired] trips none of its assertions; between
    retargets on a network without the minimum-difficulty rule it is the target
    of the last block, and at a retarget it is computed from the ancestor one
    interval back, or stays when the network does not retarget. With the
    minimum-difficulty rule, between retargets, it is the limit for a block that
    is late by two spacings, and else the target of the last block that is not
    one of minimum difficulty. *)
Theorem GetNextWorkRequired_total (h : Heap) (p : Ptr) (nBlockTime : Z) (params : Params) :
  heap_ok h -> is_Some (h !! p) -> is_u32 (bi_nBits (at_ h p)) -> params_ok params ->
  no_wrap params (compact_value (bi_nBits (at_ h p))) ->
  let I := DifficultyAdjustmentInterval params in
  exists c, GetNextWorkRequired h (Some p) nBlockTime params = Ok c /\
    ((nHeight (at_ h p) + 1) mod I <> 0 -> fPowAllowMinDifficultyBlocks params = false -> c = bi_nBits (at_ h p)) /\
    ((nHeight (at_ h p) + 1) mod I = 0 -> fPowNoRetargeting params = false ->
       exists q, back h (Z.to_nat (I - 1)) p = Some q /\
         c = compact_enc (next_target params (compact_value (bi_nBits (at_ h p)))
               (i64 (bi_nTime (at_ h p)) - i64 (bi_nTime (at_ h q))))) /\
    ((nHeight (at_ h p) + 1) mod I = 0 -> fPowNoRetargeting params = true -> c = bi_nBits (at_ h p)) /\
    ((nHeight (at_ h p) + 1) mod I <> 0 -> fPowAllowMinDifficultyBlocks params = true ->
       let limit := compact_enc (le_value (powLimit params)) in
       if i64 (bi_nTime (at_ h p)) + nPowTargetSpacing params * 2 <? nBlockTime then c = limit
       else exists q, regular_from h I limit p q /\ c = bi_nBits (at_ h q)).
Proof. intros. by apply GetNextWorkRequired_spec. Qed.

Lemma GetNextWorkRequired_total_witness :
  exists c, GetNextWorkRequired example_heap (Some 3%positive) 1263249294 example_params = Ok c.
Proof.
  destruct (GetNextWorkRequired_total example_heap 3 1263249294 example_params) as (c & Hc & _);
    [apply example_heap_ok|vm_compute; eauto|done|apply example_params_ok|right; vm_compute; reflexivity|]. exists c. exact Hc.
Defined.
