(* ===== verification/VersionBits.v ===== *)
(** * Version bits (versionbits.h, versionbits.cpp): the BIP 9 state machine of a
    deployment, computed backwards from a block with a cache

    The abstract checker's virtual methods are the fields of [Checker], at the
    consensus parameters they are called with. *)
From S2P Require Import Prelude Serialize Crypto Transaction ArithUint256 Block Chain Pow.

Inductive ThresholdState :=
  | THRESHOLD_DEFINED
  | THRESHOLD_STARTED
  | THRESHOLD_LOCKED_IN
  | THRESHOLD_ACTIVE
  | THRESHOLD_FAILED.

#[export] Instance ThresholdState_eq_dec : EqDecision ThresholdState.
Proof. solve_decision. Defined.

Record BIP9Stats := mkBIP9Stats {
  bs_period : Z; bs_threshold : Z; bs_elapsed : Z; bs_count : Z; bs_possible : bool;
}.

(** Keys are block pointers, [None] the null pointer. *)
Abbreviation ThresholdConditionCache := (gmap (option Ptr) ThresholdState).

Record Checker := mkChecker {
  Condition : CBlockIndex -> bool;
  BeginTime : Z;
  EndTime : Z;
  Period : Z;
  Threshold : Z;
}.

Definition null_deref : Exn := assert_failed "null pointer dereference".

Section GetState.
Context (h : Heap) (c : Checker).

(** The ancestor of a block that ends the period before its successor's. *)
Definition period_parent (p : Ptr) : result (option Ptr) :=
  GetAncestor h p (nHeight (at_ h p) - Z.rem (nHeight (at_ h p) + 1) (Period c)).

(** [while (cache.count(pindexPrev) == 0)]: the blocks to compute, the last one
    first, and the block whose state is in the cache. *)
Fixpoint walk_back (fuel : nat) (pindexPrev : option Ptr) (cache : ThresholdConditionCache) (vToCompute : list Ptr)
    : result (option Ptr * ThresholdConditionCache * list Ptr) :=
  match cache !! pindexPrev with
  | Some _ => Ok (pindexPrev, cache, vToCompute)
  | None =>
      match pindexPrev with
      | None => Ok (None, <[None := THRESHOLD_DEFINED]> cache, vToCompute)
      | Some p =>
          if GetMedianTimePast h p <? BeginTime c
          then Ok (Some p, <[Some p := THRESHOLD_DEFINED]> cache, vToCompute)
          else match fuel with
               | O => Throw (assert_failed "GetStateFor: no progress")
               | S fuel =>
                   prev ← GetAncestor h p (nHeight (at_ h p) - Period c);
                   walk_back fuel prev cache (p :: vToCompute)
               end
      end
  end.

(** [for (int i = 0; i < nPeriod; i++)] over the blocks of the period. *)
Fixpoint count_loop (n : nat) (pindexCount : option Ptr) (count : Z) : result Z :=
  match n with
  | O => Ok count
  | S n =>
      match pindexCount with
      | None => Throw null_deref
      | Some p => count_loop n (pprev (at_ h p)) (if Condition c (at_ h p) then count + 1 else count)
      end
  end.

(** One round of the [switch]: the state after the period that ends in [p]. *)
Definition next_state (state : ThresholdState) (p : Ptr) : result ThresholdState :=
  match state with
  | THRESHOLD_DEFINED =>
      if EndTime c <=? GetMedianTimePast h p then Ok THRESHOLD_FAILED
      else if BeginTime c <=? GetMedianTimePast h p then Ok THRESHOLD_STARTED
      else Ok THRESHOLD_DEFINED
  | THRESHOLD_STARTED =>
      if EndTime c <=? GetMedianTimePast h p then Ok THRESHOLD_FAILED
      else
        count ← count_loop (Z.to_nat (Period c)) (Some p) 0;
        mret (if Threshold c <=? count then THRESHOLD_LOCKED_IN else THRESHOLD_STARTED)
  | THRESHOLD_LOCKED_IN => Ok THRESHOLD_ACTIVE
  | THRESHOLD_FAILED => Ok THRESHOLD_FAILED
  | THRESHOLD_ACTIVE => Ok THRESHOLD_ACTIVE
  end.

(** [while (!vToCompute.empty())]. *)
Fixpoint walk_forward (state : ThresholdState) (cache : ThresholdConditionCache) (vToCompute : list Ptr)
    : result (ThresholdState * ThresholdConditionCache) :=
  match vToCompute with
  | [] => Ok (state, cache)
  | p :: vToCompute =>
      stateNext ← next_state state p;
      walk_forward stateNext (<[Some p := stateNext]> cache) vToCompute
  end.

Definition GetStateFor (pindexPrev : option Ptr) (cache : ThresholdConditionCache)
    : result (ThresholdState * ThresholdConditionCache) :=
  if BeginTime c =? ALWAYS_ACTIVE then Ok (THRESHOLD_ACTIVE, cache)
  else
    pindexPrev ← match pindexPrev with Some p => period_parent p | None => Ok None end;
    let fuel := match pindexPrev with Some p => Z.to_nat (nHeight (at_ h p) + 1) | None => O end in
    '(pindexPrev, cache, vToCompute) ← walk_back fuel pindexPrev cache [];
    match cache !! pindexPrev with
    | None => Throw (assert_failed "cache.count(pindexPrev)")
    | Some state => walk_forward state cache vToCompute
    end.

(** [while (pindexEndOfPrevPeriod->nHeight != currentIndex->nHeight)]. *)
Fixpoint statistics_loop (fuel : nat) (endHeight : Z) (currentIndex : option Ptr) (count : Z) : result Z :=
  match currentIndex with
  | None => Throw null_deref
  | Some p =>
      if endHeight =? nHeight (at_ h p) then Ok count
      else match fuel with
           | O => Throw (assert_failed "GetStateStatisticsFor: no progress")
           | S fuel => statistics_loop fuel endHeight (pprev (at_ h p)) (if Condition c (at_ h p) then count + 1 else count)
           end
  end.

Definition GetStateStatisticsFor (pindex : option Ptr) : result BIP9Stats :=
  match pindex with
  | None => Ok (mkBIP9Stats (Period c) (Threshold c) 0 0 false)
  | Some p =>
      e ← period_parent p;
      match e with
      | None => Throw null_deref
      | Some q =>
          let elapsed := nHeight (at_ h p) - nHeight (at_ h q) in
          count ← statistics_loop (Z.to_nat (nHeight (at_ h p))) (nHeight (at_ h q)) (Some p) 0;
          mret (mkBIP9Stats (Period c) (Threshold c) elapsed count (elapsed - count <=? Period c - Threshold c))
      end
  end.

(** [while (previousPeriodParent != nullptr && GetStateFor(previousPeriodParent) == initialState)]. *)
Fixpoint since_loop (fuel : nat) (initialState : ThresholdState) (p : Ptr) (cache : ThresholdConditionCache)
    : result (Ptr * ThresholdConditionCache) :=
  previousPeriodParent ← GetAncestor h p (nHeight (at_ h p) - Period c);
  match previousPeriodParent with
  | None => Ok (p, cache)
  | Some q =>
      '(state, cache) ← GetStateFor (Some q) cache;
      if bool_decide (state = initialState) then
        match fuel with
        | O => Throw (assert_failed "GetStateSinceHeightFor: no progress")
        | S fuel => since_loop fuel initialState q cache
        end
      else Ok (p, cache)
  end.

Definition GetStateSinceHeightFor (pindexPrev : option Ptr) (cache : ThresholdConditionCache)
    : result (Z * ThresholdConditionCache) :=
  if BeginTime c =? ALWAYS_ACTIVE then Ok (0, cache)
  else
    '(initialState, cache) ← GetStateFor pindexPrev cache;
    if bool_decide (initialState = THRESHOLD_DEFINED) then Ok (0, cache)
    else
      match pindexPrev with
      | None => Throw null_deref
      | Some p =>
          e ← period_parent p;
          match e with
          | None => Throw null_deref
          | Some q =>
              '(r, cache) ← since_loop (Z.to_nat (nHeight (at_ h q) + 1)) initialState q cache;
              mret (nHeight (at_ h r) + 1, cache)
          end
      end.
End GetState.

(** ** The checker of a deployment *)
Definition VERSIONBITS_LAST_OLD_BLOCK_VERSION : Z := 4.
Definition VERSIONBITS_TOP_BITS : Z := 0x20000000.
Definition VERSIONBITS_TOP_MASK : Z := i32 0xE0000000.
Definition VERSIONBITS_NUM_BITS : Z := 29.

Definition Mask (d : BIP9Deployment) : Z := u32 (Z.shiftl 1 (bit d)).

(** [pindex->nVersion & Mask(params)] is computed on unsigned operands. *)
Definition VersionBitsConditionChecker (params : Params) (d : BIP9Deployment) : Checker := {|
  Condition b := (Z.land (bi_nVersion b) VERSIONBITS_TOP_MASK =? VERSIONBITS_TOP_BITS) &&
                 negb (Z.land (u32 (bi_nVersion b)) (Mask d) =? 0);
  BeginTime := nStartTime d;
  EndTime := nTimeout d;
  Period := i32 (nMinerConfirmationWindow params);
  Threshold := i32 (nRuleChangeActivationThreshold params);
|}.

Definition VersionBitsState (h : Heap) (pindexPrev : option Ptr) (params : Params) (d : BIP9Deployment)
    (cache : ThresholdConditionCache) : result (ThresholdState * ThresholdConditionCache) :=
  GetStateFor h (VersionBitsConditionChecker params d) pindexPrev cache.
Definition VersionBitsStatistics (h : Heap) (pindexPrev : option Ptr) (params : Params) (d : BIP9Deployment)
    : result BIP9Stats :=
  GetStateStatisticsFor h (VersionBitsConditionChecker params d) pindexPrev.
Definition VersionBitsStateSinceHeight (h : Heap) (pindexPrev : option Ptr) (params : Params) (d : BIP9Deployment)
    (cache : ThresholdConditionCache) : result (Z * ThresholdConditionCache) :=
  GetStateSinceHeightFor h (VersionBitsConditionChecker params d) pindexPrev cache.
Definition VersionBitsMask (d : BIP9Deployment) : Z := Mask d.

(** * Specification: the BIP 9 state machine, period by period *)

Section Spec.
Context (h : Heap) (c : Checker).

(** The blocks among the last [n] up to [p] that signal. *)
Fixpoint signals (n : nat) (p : Ptr) : Z :=
  match n with
  | O => 0
  | S n => (if Condition c (at_ h p) then 1 else 0) +
           match pprev (at_ h p) with Some q => signals n q | None => 0 end
  end.

(** The transition of BIP 9 after the period that ends in [p]. *)
Definition bip9_next (state : ThresholdState) (p : Ptr) : ThresholdState :=
  match state with
  | THRESHOLD_DEFINED =>
      if EndTime c <=? GetMedianTimePast h p then THRESHOLD_FAILED
      else if BeginTime c <=? GetMedianTimePast h p then THRESHOLD_STARTED
      else THRESHOLD_DEFINED
  | THRESHOLD_STARTED =>
      if EndTime c <=? GetMedianTimePast h p then THRESHOLD_FAILED
      else if Threshold c <=? signals (Z.to_nat (Period c)) p then THRESHOLD_LOCKED_IN
      else THRESHOLD_STARTED
  | THRESHOLD_LOCKED_IN => THRESHOLD_ACTIVE
  | THRESHOLD_FAILED => THRESHOLD_FAILED
  | THRESHOLD_ACTIVE => THRESHOLD_ACTIVE
  end.

(** The state after [k] whole periods that end in [p]. *)
Fixpoint bip9 (k : nat) (p : option Ptr) : ThresholdState :=
  match k, p with
  | S k, Some p => bip9_next (bip9 k (back h (Z.to_nat (Period c)) p)) p
  | _, _ => THRESHOLD_DEFINED
  end.

(** The state of the blocks that follow [p], the last of a period. *)
Definition state_at (p : option Ptr) : ThresholdState :=
  match p with
  | Some q => bip9 (Z.to_nat ((nHeight (at_ h q) + 1) / Period c)) p
  | None => THRESHOLD_DEFINED
  end.

(** The last block of the period before that of the successor of [p]. *)
Definition boundary_of (p : option Ptr) : option Ptr :=
  match p with
  | Some q => if (nHeight (at_ h q) + 1) mod Period c <=? nHeight (at_ h q)
              then back h (Z.to_nat ((nHeight (at_ h q) + 1) mod Period c)) q else None
  | None => None
  end.

Definition bip9_state (p : option Ptr) : ThresholdState :=
  if BeginTime c =? ALWAYS_ACTIVE then THRESHOLD_ACTIVE else state_at (boundary_of p).

(** [p] is null or ends a period. *)
Definition boundary (p : option Ptr) : Prop :=
  match p with
  | Some q => is_Some (h !! q) /\ (nHeight (at_ h q) + 1) mod Period c = 0
  | None => True
  end.

(** A cache only holds right answers, for ends of periods. *)
Definition cache_valid (cache : ThresholdConditionCache) : Prop :=
  forall p st, cache !! p = Some st -> boundary p /\ st = state_at p.

(** Median time never goes back along the chain. *)
Definition times_monotone : Prop :=
  forall p q, is_Some (h !! p) -> pprev (at_ h p) = Some q -> GetMedianTimePast h q <= GetMedianTimePast h p.
End Spec.

(** * Lemmas *)

Section Lemmas.
Context (h : Heap) (Hh : heap_ok h) (c : Checker).
Context (HP : 1 <= Period c) (Hmono : times_monotone h) (Hbe : BeginTime c <= EndTime c).

Lemma count_loop_ok n p k : is_Some (h !! p) -> Z.of_nat n <= nHeight (at_ h p) + 1 ->
  count_loop h c n (Some p) k = Ok (k + signals h c n p).
Proof.
  revert p k; induction n as [|n IH]; intros p k Hp Hn; cbn [count_loop signals]; [f_equal; lia|].
  destruct (at_ok h Hh p Hp) as [Hpos Hprev _]. destruct (pprev (at_ h p)) as [q|].
  - destruct Hprev as [Hq Hhq]. rewrite IH by (done || lia). f_equal. destruct (Condition c (at_ h p)); lia.
  - replace n with O by lia. cbn. f_equal. destruct (Condition c (at_ h p)); lia.
Qed.

(** An end of a period has a positive number [k] of periods up to it. *)
Lemma boundary_periods p : boundary h c (Some p) ->
  exists k, nHeight (at_ h p) + 1 = Period c * Z.of_nat (S k) /\ Z.to_nat ((nHeight (at_ h p) + 1) / Period c) = S k.
Proof.
  intros [Hp Hm]. destruct (at_ok h Hh p Hp) as [Hpos _ _]. pose proof (Z.div_mod (nHeight (at_ h p) + 1) (Period c)) as Hd.
  assert (1 <= (nHeight (at_ h p) + 1) / Period c) by (apply Z.div_le_lower_bound; [lia|]; rewrite Z.mul_1_r; apply Z.divide_pos_le; [lia|]; apply Z.mod_divide; lia).
  exists (Z.to_nat ((nHeight (at_ h p) + 1) / Period c) - 1)%nat. split; [|lia].
  replace (Z.of_nat (S _)) with ((nHeight (at_ h p) + 1) / Period c) by lia. lia.
Qed.

Lemma boundary_prev p : boundary h c (Some p) ->
  exists q, GetAncestor h p (nHeight (at_ h p) - Period c) = Ok q /\ boundary h c q /\
    state_at h c (Some p) = bip9_next h c (state_at h c q) p /\
    (forall r, q = Some r -> nHeight (at_ h r) = nHeight (at_ h p) - Period c /\ back h (Z.to_nat (Period c)) p = Some r).
Proof.
  intros Hb. destruct (boundary_periods p Hb) as (k & Hk & Ediv). destruct Hb as [Hp Hm].
  rewrite GetAncestor_ok by done. destruct (at_ok h Hh p Hp) as [Hpos _ _].
  unfold state_at at 1. rewrite Ediv. cbn [bip9].
  destruct (Z.leb_spec 0 (nHeight (at_ h p) - Period c)) as [Hge|Hlt]; cbn [andb].
  - rewrite (proj2 (Z.leb_le _ _)) by lia.
    replace (nHeight (at_ h p) - (nHeight (at_ h p) - Period c)) with (Period c) by lia.
    destruct (back_spec h Hh (Z.to_nat (Period c)) p Hp) as (q & Hq & Hsq & Hhq); [lia|].
    rewrite Hq. eexists. split; [done|]. rewrite Z2Nat.id in Hhq by lia.
    assert ((nHeight (at_ h q) + 1) = Period c * Z.of_nat k) as Hkq by lia.
    split_and!; [split; [done|]| |intros r [= <-]; done].
    + rewrite Hkq, Z.mul_comm. apply Z.mod_mul. lia.
    + unfold state_at. rewrite Hkq, Z.mul_comm, Z.div_mul, Nat2Z.id by lia. done.
  - eexists. split; [done|]. split_and!; [done| |done]. replace k with O by nia. done.
Qed.

Lemma back_monotone n p q : is_Some (h !! p) -> back h n p = Some q -> GetMedianTimePast h q <= GetMedianTimePast h p.
Proof.
  revert p; induction n as [|n IH]; intros p Hp Hb; [injection Hb as <-; lia|]. cbn [back] in Hb.
  destruct (at_ok h Hh p Hp) as [_ Hprev _]. destruct (pprev (at_ h p)) as [r|] eqn:Er; [|done].
  specialize (IH r (proj1 Hprev) Hb). specialize (Hmono p r Hp Er). lia.
Qed.

(** Before the start time every block is in the initial state. *)
Lemma state_before_start n p : boundary h c (Some p) -> nHeight (at_ h p) < Z.of_nat n ->
  GetMedianTimePast h p < BeginTime c -> state_at h c (Some p) = THRESHOLD_DEFINED.
Proof.
  revert p; induction n as [|n IH]; intros p Hb Hn Ht.
  { destruct Hb as [Hp _], (at_ok h Hh p Hp) as [? _ _]. lia. }
  destruct (boundary_prev p Hb) as (q & _ & Hbq & -> & Hback).
  assert (state_at h c q = THRESHOLD_DEFINED) as ->.
  { destruct q as [q|]; [|done]. destruct (Hback q eq_refl) as [Hhq Hq]. apply IH; [done|lia|].
    pose proof (back_monotone _ _ _ (proj1 Hb) Hq). lia. }
  cbn [bip9_next]. rewrite !(proj2 (Z.leb_gt _ _)) by lia. done.
Qed.

Lemma next_state_ok st p : boundary h c (Some p) -> next_state h c st p = Ok (bip9_next h c st p).
Proof.
  intros Hb. destruct (boundary_periods p Hb) as (k & Hk & _). destruct Hb as [Hp _].
  destruct st; cbn [next_state bip9_next]; try done.
  - by repeat case_if.
  - destruct (EndTime c <=? _); [done|]. rewrite count_loop_ok by (done || nia).
    cbn [mbind result_bind]. rewrite Z.add_0_l. by destruct (Threshold c <=? _).
Qed.

Lemma cache_valid_insert cache p : cache_valid h c cache -> boundary h c p ->
  cache_valid h c (<[p := state_at h c p]> cache).
Proof.
  intros Hc Hb q st Hq. destruct (decide (p = q)) as [<-|Hne].
  - rewrite lookup_insert_eq in Hq. by injection Hq as <-.
  - rewrite lookup_insert_ne in Hq by done. by apply Hc.
Qed.

(** Walking back to a known state and forward again computes the state. *)
Lemma walk_ok fuel p cache acc :
  cache_valid h c cache -> boundary h c p ->
  (forall q, p = Some q -> nHeight (at_ h q) < Z.of_nat fuel) ->
  exists k cache' l cache'', walk_back h c fuel p cache acc = Ok (k, cache', l) /\
    cache' !! k = Some (state_at h c k) /\ cache_valid h c cache'' /\
    walk_forward h c (state_at h c k) cache' l = walk_forward h c (state_at h c p) cache'' acc.
Proof.
  revert p cache acc; induction fuel as [|fuel IH]; intros p cache acc Hc Hb Hf; cbn [walk_back];
    (destruct (cache !! p) as [st|] eqn:Ec;
      [destruct (Hc p st Ec) as [_ ->]; by exists p, cache, acc, cache|]);
    (destruct p as [p|];
      [|eexists None, _, _, _; split_and!; [done|by rewrite lookup_insert_eq|by apply (cache_valid_insert cache None)|done]]).
  { destruct Hb as [Hp _], (at_ok h Hh p Hp) as [? _ _]. specialize (Hf p eq_refl). lia. }
  destruct (Z.ltb_spec (GetMedianTimePast h p) (BeginTime c)) as [Hlt|Hge].
  { pose proof (state_before_start (S fuel) p Hb (Hf p eq_refl) Hlt) as Hst. rewrite <- Hst.
    eexists (Some p), _, _, _. split_and!; [done|by rewrite lookup_insert_eq|by apply cache_valid_insert|done]. }
  destruct (boundary_prev p Hb) as (q & -> & Hbq & Hst & Hback). cbn [mbind result_bind].
  destruct (IH q cache (p :: acc) Hc Hbq) as (k & cache' & l & cache'' & -> & Hk & Hv & Hw).
  { intros r Hr. specialize (Hf p eq_refl). destruct (Hback r Hr) as [-> _]. lia. }
  eexists k, cache', l, (<[Some p := state_at h c (Some p)]> cache''). split_and!; [done..|by apply cache_valid_insert|].
  rewrite Hw. cbn [walk_forward]. rewrite next_state_ok by done. cbn [mbind result_bind]. by rewrite Hst.
Qed.

Lemma period_parent_ok p : is_Some (h !! p) ->
  period_parent h c p = Ok (boundary_of h c (Some p)) /\ boundary h c (boundary_of h c (Some p)).
Proof.
  intros Hp. destruct (at_ok h Hh p Hp) as [Hpos _ _]. unfold period_parent, boundary_of.
  rewrite Z.rem_mod_nonneg by lia. set (r := (nHeight (at_ h p) + 1) mod Period c).
  assert (0 <= r < Period c) as Hr by (apply Z.mod_pos_bound; lia).
  assert (r <= nHeight (at_ h p) + 1) by (apply Z.mod_le; lia).
  rewrite GetAncestor_ok by done. destruct (Z.leb_spec r (nHeight (at_ h p))).
  - rewrite (proj2 (andb_true_iff _ _)) by (rewrite !Z.leb_le; lia).
    replace (nHeight (at_ h p) - (nHeight (at_ h p) - r)) with r by lia. split; [done|].
    destruct (back_spec h Hh (Z.to_nat r) p Hp) as (q & -> & Hq & Hhq); [lia|]. split; [done|].
    rewrite Hhq, Z2Nat.id by lia. replace (nHeight (at_ h p) - r + 1) with (nHeight (at_ h p) + 1 - r) by lia.
    subst r. rewrite Zminus_mod_idemp_r, Z.sub_diag. by apply Z.mod_0_l; lia.
  - rewrite (proj2 (Z.leb_gt 0 _)) by lia. done.
Qed.

Lemma GetStateFor_ok p cache : cache_valid h c cache -> (forall q, p = Some q -> is_Some (h !! q)) ->
  exists cache', GetStateFor h c p cache = Ok (bip9_state h c p, cache') /\ cache_valid h c cache'.
Proof.
  intros Hc Hp. unfold GetStateFor, bip9_state. destruct (BeginTime c =? ALWAYS_ACTIVE); [by exists cache|].
  assert (match p with Some q => period_parent h c q | None => Ok None end = Ok (boundary_of h c p) /\
    boundary h c (boundary_of h c p)) as [-> Hb] by (destruct p as [q|]; [apply period_parent_ok, Hp; done|done]).
  cbn [mbind result_bind]. set (b := boundary_of h c p) in *. set (fuel := match b with Some q => _ | None => O end).
  destruct (walk_ok fuel b cache [] Hc Hb) as (k & cache' & l & cache'' & -> & Hk & Hv & Hw).
  { intros q ->. destruct Hb as [Hq _], (at_ok h Hh q Hq) as [? _ _]. subst fuel. cbn. lia. }
  cbn [mbind result_bind]. rewrite Hk, Hw. by exists cache''.
Qed.

(** An end of a period is its own boundary. *)
Lemma boundary_of_self q : boundary h c (Some q) -> boundary_of h c (Some q) = Some q.
Proof.
  intros [Hq Hm]. unfold boundary_of. rewrite Hm. destruct (at_ok h Hh q Hq) as [? _ _].
  by rewrite (proj2 (Z.leb_le _ _)) by lia.
Qed.

Lemma boundary_of_spec p b : is_Some (h !! p) -> boundary_of h c (Some p) = Some b ->
  back h (Z.to_nat (nHeight (at_ h p) - nHeight (at_ h b))) p = Some b /\
  nHeight (at_ h p) - Period c < nHeight (at_ h b) <= nHeight (at_ h p).
Proof.
  intros Hp Hb. unfold boundary_of in Hb. destruct (_ <=? _); [|done].
  destruct (back_height h Hh _ _ _ Hp Hb) as (_ & _ & Hhb).
  pose proof (Z.mod_pos_bound (nHeight (at_ h p) + 1) (Period c) ltac:(lia)).
  replace (nHeight (at_ h p) - nHeight (at_ h b)) with ((nHeight (at_ h p) + 1) mod Period c) by lia. split; [done|lia].
Qed.

(** The blocks between the end of a period and the end of the next have the
    same boundary. *)
Lemma boundary_of_between p q b : is_Some (h !! p) -> boundary_of h c (Some p) = Some b ->
  ancestor h p q -> nHeight (at_ h b) <= nHeight (at_ h q) -> boundary_of h c (Some q) = Some b.
Proof.
  intros Hp Hb [n Hn] Hle. destruct (boundary_of_spec p b Hp Hb) as [Hback Hrange].
  destruct (period_parent_ok p Hp) as [_ Hbd]. rewrite Hb in Hbd. destruct Hbd as [Hsb Hm].
  destruct (back_height h Hh _ _ _ Hp Hn) as (Hnp & Hq & Hhq). destruct (at_ok h Hh b Hsb) as [? _ _].
  assert ((nHeight (at_ h q) + 1) mod Period c = nHeight (at_ h q) - nHeight (at_ h b)) as Hmod.
  { replace (nHeight (at_ h q) + 1) with (nHeight (at_ h b) + 1 + (nHeight (at_ h q) - nHeight (at_ h b))) by lia.
    rewrite <- Zplus_mod_idemp_l, Hm. apply Z.mod_small. lia. }
  unfold boundary_of. rewrite Hmod, (proj2 (Z.leb_le _ _)) by lia.
  replace (Z.to_nat (nHeight (at_ h p) - nHeight (at_ h b))) with (n + Z.to_nat (nHeight (at_ h q) - nHeight (at_ h b)))%nat in Hback by lia.
  by rewrite back_add, Hn in Hback.
Qed.

(** The state is the transition from the state of the block before the boundary. *)
Lemma state_unfold p b : is_Some (h !! p) -> boundary_of h c (Some p) = Some b ->
  state_at h c (Some b) = bip9_next h c (state_at h c (boundary_of h c (pprev (at_ h b)))) b.
Proof.
  intros Hp Hb. destruct (period_parent_ok p Hp) as [_ Hbd]. rewrite Hb in Hbd.
  destruct (boundary_prev b Hbd) as (q & Hga & Hbq & -> & Hback). do 2 f_equal. destruct Hbd as [Hsb Hm].
  destruct (at_ok h Hh b Hsb) as [Hpos Hprev _]. rewrite GetAncestor_ok in Hga by done. injection Hga as <-.
  destruct (pprev (at_ h b)) as [x|] eqn:Ex; unfold boundary_of.
  - destruct Hprev as [Hx Hhx]. assert ((nHeight (at_ h x) + 1) mod Period c = Period c - 1) as Hmx.
    { rewrite Hhx. replace (nHeight (at_ h b) - 1 + 1) with (nHeight (at_ h b) + 1 - 1) by lia.
      rewrite <- Zminus_mod_idemp_l, Hm. symmetry. apply (Z.mod_unique _ _ (-1)); lia. }
    rewrite Hmx. destruct (Z.leb_spec 0 (nHeight (at_ h b) - Period c)); cbn [andb].
    + rewrite !(proj2 (Z.leb_le _ _)) by lia. replace (nHeight (at_ h b) - (nHeight (at_ h b) - Period c)) with (Period c) by lia.
      replace (Z.to_nat (Period c)) with (S (Z.to_nat (Period c - 1))) by lia. cbn [back]. by rewrite Ex.
    + rewrite (proj2 (Z.leb_gt _ _)) by lia. done.
  - by rewrite (proj2 (Z.leb_gt 0 _)) by lia.
Qed.

(** Active and failed are final: descendants keep the state. *)
Lemma final_state n p q st : st = THRESHOLD_ACTIVE \/ st = THRESHOLD_FAILED ->
  is_Some (h !! p) -> nHeight (at_ h p) < Z.of_nat n -> ancestor h p q ->
  state_at h c (boundary_of h c (Some q)) = st -> state_at h c (boundary_of h c (Some p)) = st.
Proof.
  intros Hst. revert p; induction n as [|n IH]; intros p Hp Hn Hanc Hq.
  { destruct (at_ok h Hh p Hp) as [? _ _]. lia. }
  destruct Hanc as [m Hm]. destruct (back_height h Hh _ _ _ Hp Hm) as (Hmp & Hsq & Hhq).
  destruct (boundary_of h c (Some p)) as [b|] eqn:Eb.
  - destruct (Z.le_gt_cases (nHeight (at_ h b)) (nHeight (at_ h q))) as [Hle|Hgt].
    { rewrite (boundary_of_between p q b) in Hq; [done|done|done|by exists m|done]. }
    destruct (boundary_of_spec p b Hp Eb) as [Hback Hrange]. destruct (period_parent_ok p Hp) as [_ Hbd]. rewrite Eb in Hbd.
    destruct Hbd as [Hsb _]. rewrite (state_unfold p b) by done. destruct (at_ok h Hh b Hsb) as [_ Hprev _].
    assert (ancestor h b q) as Hbq by (eapply (ancestor_cut h Hh); [exact Hp|exact Hback|by exists m|lia]).
    apply ancestor_step in Hbq as [->|(x & Ex & Hx)]; [lia|]. rewrite Ex in Hprev |- *. destruct Hprev as [Hsx Hhx].
    rewrite (IH x Hsx) by (done || lia). by destruct Hst as [->| ->].
  - cbn in Hq |- *. unfold boundary_of in Eb. destruct (at_ok h Hh q Hsq) as [Hq0 _ _].
    assert (nHeight (at_ h p) + 1 < Period c) as Hsmall.
    { pose proof (Z.mod_pos_bound (nHeight (at_ h p) + 1) (Period c) ltac:(lia)).
      destruct (Z.leb_spec ((nHeight (at_ h p) + 1) mod Period c) (nHeight (at_ h p))); [|lia].
      destruct (back_spec h Hh (Z.to_nat ((nHeight (at_ h p) + 1) mod Period c)) p Hp) as (? & ? & _); [lia|congruence]. }
    unfold boundary_of in Hq. rewrite Z.mod_small, (proj2 (Z.leb_gt _ _)) in Hq by lia. done.
Qed.

(** A rule is locked in only by a period with enough signalling blocks that
    ended before the timeout. *)
Lemma locked_in_by_signals k b : boundary h c (Some b) -> nHeight (at_ h b) < Z.of_nat k ->
  state_at h c (Some b) = THRESHOLD_LOCKED_IN \/ state_at h c (Some b) = THRESHOLD_ACTIVE ->
  exists e, ancestor h b e /\ boundary h c (Some e) /\ Threshold c <= signals h c (Z.to_nat (Period c)) e /\
    GetMedianTimePast h e < EndTime c.
Proof.
  revert b; induction k as [|k IH]; intros b Hb Hk Hst.
  { destruct Hb as [Hp _], (at_ok h Hh b Hp) as [? _ _]. lia. }
  destruct (boundary_prev b Hb) as (q & _ & Hbq & Heq & Hback). rewrite Heq in Hst.
  assert (state_at h c q = THRESHOLD_STARTED /\ Threshold c <= signals h c (Z.to_nat (Period c)) b /\ GetMedianTimePast h b < EndTime c \/
    state_at h c q = THRESHOLD_LOCKED_IN \/ state_at h c q = THRESHOLD_ACTIVE) as [(_ & H1 & H2)|Hq].
  { destruct (state_at h c q) eqn:Eq; cbn [bip9_next] in Hst; try (by destruct Hst); try (by right; auto).
    - repeat case_if; by destruct Hst.
    - destruct (EndTime c <=? _) eqn:E1; [by destruct Hst|]. destruct (Threshold c <=? _) eqn:E2; [|by destruct Hst].
      bool_to_prop. auto. }
  - exists b. split_and!; try done. by exists O.
  - destruct q as [q|]; [|by destruct Hq]. destruct (Hback q eq_refl) as [Hhq Hq'].
    destruct (IH q Hbq) as (e & [n Hn] & He & Hs & Ht); [lia|done|]. exists e. split_and!; try done.
    exists (Z.to_nat (Period c) + n)%nat. by rewrite back_add, Hq'.
Qed.

Lemma prev_period p : boundary h c (Some p) ->
  GetAncestor h p (nHeight (at_ h p) - Period c) = Ok (back h (Z.to_nat (Period c)) p) /\
  boundary h c (back h (Z.to_nat (Period c)) p).
Proof.
  intros Hb. destruct (boundary_prev p Hb) as (q & Hga & Hbq & _ & Hback). destruct q as [q|].
  - destruct (Hback q eq_refl) as [_ ->]. done.
  - destruct (back h (Z.to_nat (Period c)) p) as [r|] eqn:Er; [|done].
    destruct (back_height h Hh _ _ _ (proj1 Hb) Er) as (Hle & _ & _). rewrite GetAncestor_ok in Hga by (done || apply Hb).
    rewrite (proj2 (andb_true_iff _ _)) in Hga by (rewrite !Z.leb_le; lia).
    replace (nHeight (at_ h p) - (nHeight (at_ h p) - Period c)) with (Period c) in Hga by lia. congruence.
Qed.

(** The loop stops at the first of the periods in a row with the given state. *)
Lemma since_loop_ok fuel st p cache : BeginTime c <> ALWAYS_ACTIVE -> cache_valid h c cache -> boundary h c (Some p) ->
  nHeight (at_ h p) < Z.of_nat fuel ->
  exists j r cache', since_loop h c fuel st p cache = Ok (r, cache') /\ cache_valid h c cache' /\
    back h (j * Z.to_nat (Period c)) p = Some r /\
    (forall i, (1 <= i <= j)%nat -> state_at h c (back h (i * Z.to_nat (Period c)) p) = st) /\
    (back h (S j * Z.to_nat (Period c)) p = None \/ state_at h c (back h (S j * Z.to_nat (Period c)) p) <> st).
Proof.
  intros Hna. revert p cache; induction fuel as [|fuel IH]; intros p cache Hc Hb Hf.
  { destruct Hb as [Hp _], (at_ok h Hh p Hp) as [? _ _]. lia. }
  cbn [since_loop]. destruct (prev_period p Hb) as [-> Hbq]. cbn [mbind result_bind]. set (P := Z.to_nat (Period c)) in *.
  destruct (back h P p) as [q|] eqn:Eq.
  2:{ exists O, p, cache. split_and!; try done; [intros i Hi; lia|left]. by rewrite Nat.mul_1_l. }
  destruct (back_height h Hh _ _ _ (proj1 Hb) Eq) as (_ & Hsq & Hhq).
  destruct (GetStateFor_ok (Some q) cache Hc) as (cache1 & -> & Hc1); [by intros ? [= <-]|]. cbn [mbind result_bind].
  unfold bip9_state. rewrite (proj2 (Z.eqb_neq _ _)) by done. rewrite boundary_of_self by done.
  destruct (bool_decide_reflect (state_at h c (Some q) = st)) as [Hst|Hst].
  - destruct (IH q cache1 Hc1 Hbq) as (j & r & cache2 & -> & Hc2 & Hr & Hall & Hend); [lia|].
    exists (S j), r, cache2. split_and!; try done.
    + cbn [Nat.mul]. by rewrite back_add, Eq.
    + intros [|i] Hi; [lia|]. cbn [Nat.mul]. rewrite back_add, Eq. cbn.
      destruct i as [|i]; [done|]. apply Hall. lia.
    + replace (S (S j) * P)%nat with (P + S j * P)%nat by lia. rewrite back_add, Eq. exact Hend.
  - exists O, p, cache1. split_and!; try done; [intros i Hi; lia|right]. by rewrite Nat.mul_1_l, Eq.
Qed.

(** The statistics count the signalling blocks since the end of the last period. *)
Lemma statistics_loop_ok n p k fuel : is_Some (h !! p) -> Z.of_nat n <= nHeight (at_ h p) -> (n <= fuel)%nat ->
  statistics_loop h c fuel (nHeight (at_ h p) - Z.of_nat n) (Some p) k = Ok (k + signals h c n p).
Proof.
  revert p k fuel; induction n as [|n IH]; intros p k fuel Hp Hn Hf.
  { rewrite Z.sub_0_r. destruct fuel; cbn; rewrite Z.eqb_refl; f_equal; lia. }
  destruct fuel as [|fuel]; [lia|]. cbn [statistics_loop signals]. rewrite (proj2 (Z.eqb_neq _ _)) by lia.
  destruct (at_ok h Hh p Hp) as [Hpos Hprev _]. destruct (pprev (at_ h p)) as [q|]; [|lia]. destruct Hprev as [Hq Hhq].
  replace (nHeight (at_ h p) - Z.of_nat (S n)) with (nHeight (at_ h q) - Z.of_nat n) by lia.
  rewrite IH by (done || lia). f_equal. destruct (Condition c (at_ h p)); lia.
Qed.

Lemma GetStateStatisticsFor_ok p : is_Some (h !! p) ->
  GetStateStatisticsFor h c (Some p) =
    let elapsed := (nHeight (at_ h p) + 1) mod Period c in
    let count := signals h c (Z.to_nat elapsed) p in
    if elapsed <=? nHeight (at_ h p)
    then Ok (mkBIP9Stats (Period c) (Threshold c) elapsed count (elapsed - count <=? Period c - Threshold c))
    else Throw null_deref.
Proof.
  intros Hp. cbn zeta. unfold GetStateStatisticsFor. destruct (period_parent_ok p Hp) as [-> _]. cbn [mbind result_bind].
  unfold boundary_of. set (e := (nHeight (at_ h p) + 1) mod Period c).
  assert (0 <= e) by (apply Z.mod_pos_bound; lia). destruct (Z.leb_spec e (nHeight (at_ h p))); [|done].
  destruct (back_spec h Hh (Z.to_nat e) p Hp) as (q & -> & _ & Hhq); [lia|].
  rewrite Hhq. rewrite statistics_loop_ok by (done || lia). cbn [mbind result_bind]. rewrite Z2Nat.id by done.
  replace (nHeight (at_ h p) - (nHeight (at_ h p) - e)) with e by lia. by rewrite Z.add_0_l.
Qed.
End Lemmas.

(** A deployment with one-block periods on the example index, which starts at
    time 50 and needs one signalling block. *)
Definition example_checker : Checker := {|
  Condition b := bi_nVersion b =? 1; BeginTime := 50; EndTime := 100000; Period := 1; Threshold := 1;
|}.

Lemma example_times_monotone : times_monotone example_heap.
Proof.
  intros p q [e He] Hq. assert (map_Forall (fun p e => match pprev e with
    | Some q => GetMedianTimePast example_heap q <=? GetMedianTimePast example_heap p | None => true end = true) example_heap) as Hall.
  { apply (bool_decide_eq_true_1 (map_Forall _ _)). vm_compute. reflexivity. }
  unfold at_ in Hq. rewrite He in Hq. cbn in Hq. specialize (Hall p e He). cbn beta in Hall. rewrite Hq in Hall. by apply Z.leb_le.
Qed.

Lemma empty_cache_valid h c : cache_valid h c ∅.
Proof. intros p st Hp. by rewrite lookup_empty in Hp. Qed.

(** * Properties *)

(** C15: The cached computation of a deployment's state is the BIP 9 state
    machine: on a well-formed block index along which median time does not go
    back, for a deployment that does not time out before it starts and whatever
    right answers the cache already holds, [GetStateFor] returns the state
    obtained by applying the BIP 9 transition to every period from the genesis
    block on, and leaves only right answers in the cache. Its assertion cannot
    fail and its loops end. *)
Theorem GetStateFor_is_bip9 (h : Heap) (c : Checker) (p : option Ptr) (cache : ThresholdConditionCache) :
  heap_ok h -> 1 <= Period c -> times_monotone h -> BeginTime c <= EndTime c ->
  cache_valid h c cache -> (forall q, p = Some q -> is_Some (h !! q)) ->
  exists cache', GetStateFor h c p cache = Ok (bip9_state h c p, cache') /\ cache_valid h c cache'.
Proof. intros Hh HP Hm Hbe Hc Hp. by apply GetStateFor_ok. Qed.

Lemma GetStateFor_is_bip9_witness :
  exists cache, GetStateFor example_heap example_checker (Some 3%positive) ∅ = Ok (THRESHOLD_ACTIVE, cache).
Proof.
  destruct (GetStateFor_is_bip9 example_heap example_checker (Some 3%positive) ∅) as (cache & Hc & _);
    [apply example_heap_ok|cbn; lia|apply example_times_monotone|cbn; lia|apply empty_cache_valid|intros q [= <-]; vm_compute; eauto|].
  exists cache. rewrite Hc. vm_compute. reflexivity.
Defined.

(** A state that is active or failed stays; an active one was earned. *)
Lemma bip9_final (h : Heap) (c : Checker) (p q : Ptr) (st : ThresholdState) : heap_ok h -> 1 <= Period c -> is_Some (h !! p) -> ancestor h p q ->
  st = THRESHOLD_ACTIVE \/ st = THRESHOLD_FAILED -> bip9_state h c (Some q) = st -> bip9_state h c (Some p) = st.
Proof.
  intros Hh HP Hp Hanc Hst. unfold bip9_state. destruct (_ =? _); [done|]. destruct (at_ok h Hh p Hp) as [? _ _].
  apply (final_state h Hh c HP (Z.to_nat (nHeight (at_ h p) + 1)) p q st Hst Hp); [lia|done].
Qed.

Lemma bip9_earned (h : Heap) (c : Checker) (p : Ptr) : heap_ok h -> 1 <= Period c -> BeginTime c <> ALWAYS_ACTIVE -> is_Some (h !! p) ->
  bip9_state h c (Some p) = THRESHOLD_ACTIVE ->
  exists e, ancestor h p e /\ boundary h c (Some e) /\ Threshold c <= signals h c (Z.to_nat (Period c)) e /\ GetMedianTimePast h e < EndTime c.
Proof.
  intros Hh HP Hna Hp. unfold bip9_state. rewrite (proj2 (Z.eqb_neq _ _)) by done.
  intros Hact. destruct (period_parent_ok h Hh c HP p Hp) as [_ Hb].
  destruct (boundary_of h c (Some p)) as [b|] eqn:Eb; [|done]. destruct (boundary_of_spec h Hh c HP p b Hp Eb) as [Hback _].
  destruct Hb as [Hsb Hm]. destruct (at_ok h Hh b Hsb) as [? _ _].
  destruct (locked_in_by_signals h Hh c HP (Z.to_nat (nHeight (at_ h b) + 1)) b (conj Hsb Hm)) as (e & [n Hn] & He & Hs & Ht); [lia|by right|].
  exists e. split_and!; try done. eexists (_ + n)%nat. by rewrite back_add, Hback.
Qed.

(** C37: Activation is final and earned.  Asked for a block and then for one of its
    descendants, [GetStateFor] returns, and when its first answer is that the
    deployment is active (or failed) the second is the same; and it answers that
    a deployment is active for a block only if some period that ended before the
    block and before the timeout had at least the threshold of blocks for which
    the condition of the checker holds. The index is a well-formed tree along
    which median time does not go back, the deployment does not time out before
    it starts and is not one that is always active, and what the cache holds at
    first is right. *)
Theorem activation_final_and_earned (h : Heap) (c : Checker) (p q : Ptr) (cache : ThresholdConditionCache) :
  heap_ok h -> 1 <= Period c -> times_monotone h -> BeginTime c <= EndTime c -> BeginTime c <> ALWAYS_ACTIVE ->
  cache_valid h c cache -> is_Some (h !! p) -> is_Some (h !! q) -> ancestor h p q ->
  exists st1 cache1 st2 cache2, GetStateFor h c (Some q) cache = Ok (st1, cache1) /\ GetStateFor h c (Some p) cache1 = Ok (st2, cache2) /\
    (st1 = THRESHOLD_ACTIVE \/ st1 = THRESHOLD_FAILED -> st2 = st1) /\
    (st2 = THRESHOLD_ACTIVE ->
       exists e, ancestor h p e /\ boundary h c (Some e) /\ Threshold c <= signals h c (Z.to_nat (Period c)) e /\
         GetMedianTimePast h e < EndTime c).
Proof.
  intros Hh HP Hm Hbe Hna Hc Hp Hq Hanc.
  destruct (GetStateFor_ok h Hh c HP Hm Hbe (Some q) cache Hc) as (cache1 & E1 & Hc1); [by intros ? [= <-]|].
  destruct (GetStateFor_ok h Hh c HP Hm Hbe (Some p) cache1 Hc1) as (cache2 & E2 & _); [by intros ? [= <-]|].
  exists (bip9_state h c (Some q)), cache1, (bip9_state h c (Some p)), cache2. split_and!; [done|done| |].
  - intros Hst. by apply (bip9_final h c p q).
  - by apply bip9_earned.
Qed.

Lemma activation_final_and_earned_witness :
  exists st1 cache1 cache2, GetStateFor example_heap example_checker (Some 2%positive) ∅ = Ok (st1, cache1) /\
    GetStateFor example_heap example_checker (Some 3%positive) cache1 = Ok (THRESHOLD_ACTIVE, cache2) /\
    exists e, ancestor example_heap 3 e /\ Threshold example_checker <= signals example_heap example_checker 1 e.
Proof.
  destruct (activation_final_and_earned example_heap example_checker 3 2 ∅) as (st1 & cache1 & st2 & cache2 & E1 & E2 & _ & He);
    [apply example_heap_ok|cbn; lia|apply example_times_monotone|cbn; lia|done|apply empty_cache_valid|vm_compute; eauto|vm_compute; eauto|by exists 1%nat|].
  assert (st2 = THRESHOLD_ACTIVE) as ->.
  { vm_compute in E1. injection E1 as <- <-. vm_compute in E2. injection E2 as <- _. reflexivity. }
  destruct He as (e & Ha & _ & Hs & _); [reflexivity|]. exists st1, cache1, cache2. split; [exact E1|]. split; [exact E2|]. exists e. split; [exact Ha|exact Hs].
Defined.

(** [GetStateSinceHeightFor] returns the height at which the current state
    began: for a state other than the initial one it is the height after the
    end of the earliest of the consecutive periods, counted back from the
    block's, whose state is the block's; the period before has another state. *)
Theorem GetStateSinceHeightFor_correct (h : Heap) (c : Checker) (p : Ptr) (cache : ThresholdConditionCache) :
  heap_ok h -> 1 <= Period c -> times_monotone h -> BeginTime c <= EndTime c -> BeginTime c <> ALWAYS_ACTIVE ->
  cache_valid h c cache -> is_Some (h !! p) -> bip9_state h c (Some p) <> THRESHOLD_DEFINED ->
  exists b j r cache', boundary_of h c (Some p) = Some b /\
    GetStateSinceHeightFor h c (Some p) cache = Ok (nHeight (at_ h r) + 1, cache') /\ cache_valid h c cache' /\
    back h (j * Z.to_nat (Period c)) b = Some r /\
    (forall i, (i <= j)%nat -> state_at h c (back h (i * Z.to_nat (Period c)) b) = bip9_state h c (Some p)) /\
    state_at h c (back h (S j * Z.to_nat (Period c)) b) <> bip9_state h c (Some p).
Proof.
  intros Hh HP Hm Hbe Hna Hc Hp Hst. unfold GetStateSinceHeightFor. rewrite (proj2 (Z.eqb_neq _ _)) by done.
  destruct (GetStateFor_ok h Hh c HP Hm Hbe (Some p) cache Hc) as (cache1 & -> & Hc1); [by intros ? [= <-]|].
  cbn [mbind result_bind]. rewrite bool_decide_eq_false_2 by done.
  destruct (period_parent_ok h Hh c HP p Hp) as [-> Hb]. cbn [mbind result_bind].
  assert (bip9_state h c (Some p) = state_at h c (boundary_of h c (Some p))) as Hs
    by (unfold bip9_state; by rewrite (proj2 (Z.eqb_neq _ _)) by done).
  destruct (boundary_of h c (Some p)) as [b|] eqn:Eb; [|by rewrite Hs in Hst].
  destruct (at_ok h Hh b (proj1 Hb)) as [? _ _].
  destruct (since_loop_ok h Hh c HP Hm Hbe (Z.to_nat (nHeight (at_ h b) + 1)) (bip9_state h c (Some p)) b cache1 Hna Hc1 Hb)
    as (j & r & cache2 & -> & Hc2 & Hr & Hall & Hend); [lia|]. cbn [mbind result_bind].
  exists b, j, r, cache2. split_and!; try done.
  - intros [|i] Hi; [by rewrite Hs|]. apply Hall. lia.
  - destruct Hend as [->|Hend]; [|done]. intros He. apply Hst. symmetry. exact He.
Qed.

Lemma GetStateSinceHeightFor_correct_witness :
  exists r cache, GetStateSinceHeightFor example_heap example_checker (Some 3%positive) ∅ =
    Ok (nHeight (at_ example_heap r) + 1, cache).
Proof.
  destruct (GetStateSinceHeightFor_correct example_heap example_checker 3 ∅) as (b & j & r & cache & _ & Hr & _);
    [apply example_heap_ok|cbn; lia|apply example_times_monotone|cbn; lia|done|apply empty_cache_valid|vm_compute; eauto|vm_compute; congruence|].
  exists r, cache. exact Hr.
Defined.
