(* ===== verification/Merkle.v ===== *)
(** * Merkle trees (merkle.cpp): the constant-space computation of the root, of
    the duplication flag and of a branch, and the check of a branch *)
From S2P Require Import Prelude Serialize Crypto Transaction Block.

#[local] Opaque Hash2.

(** ** MerkleComputation *)

(** The locals of the computation that its loops update: the eagerly computed
    subtree hashes by level, the level that depends on the matching leaf, the
    duplication flag, and [*pbranch]. *)
Record MState := mkMState {
  inner : list uint256;
  matchlevel : Z;
  mutated : bool;
  pbranch : list uint256;
}.

Definition inner_at (st : MState) (level : nat) : uint256 := nth level (inner st) uint256_null.

(** [!(count & (((uint32_t)1) << level))]. *)
Definition bit_clear (count : Z) (level : nat) : bool := Z.land count (u32 (Z.shiftl 1 (Z.of_nat level))) =? 0.

(** [if (pbranch) { if (matchh) ... else if (matchlevel == level) ... }]. *)
Definition branch_step (want : bool) (level : nat) (h : uint256) (matchh : bool) (st : MState) : bool * MState :=
  if want then
    if matchh then (matchh, mkMState (inner st) (matchlevel st) (mutated st) (pbranch st ++ [inner_at st level]))
    else if matchlevel st =? Z.of_nat level
         then (true, mkMState (inner st) (matchlevel st) (mutated st) (pbranch st ++ [h]))
         else (matchh, st)
  else (matchh, st).

(** [for (level = 0; !(count & (1 << level)); level++)]; there are 32 levels. *)
Fixpoint combine_loop (want : bool) (fuel : nat) (count : Z) (level : nat) (h : uint256) (matchh : bool) (st : MState)
    : result (nat * uint256 * bool * MState) :=
  if bit_clear count level then
    match fuel with
    | O => Throw (assert_failed "MerkleComputation: level")
    | S fuel =>
        let '(matchh, st) := branch_step want level h matchh st in
        let st := mkMState (inner st) (matchlevel st)
                    (mutated st || bool_decide (inner_at st level = h)) (pbranch st) in
        combine_loop want fuel count (S level) (Hash2 (inner_at st level) h) matchh st
    end
  else Ok (level, h, matchh, st).

(** One leaf: [h = leaves[count]], [count++], the combinations, the store. *)
Definition leaf_step (want : bool) (branchpos count : Z) (leaf : uint256) (st : MState) : result MState :=
  let matchh := count =? branchpos in
  '(level, h, matchh, st) ← combine_loop want 32 (u32 (count + 1)) 0 leaf matchh st;
  mret (mkMState (<[level := h]> (inner st)) (if matchh : bool then Z.of_nat level else matchlevel st) (mutated st) (pbranch st)).

Fixpoint leaves_loop (want : bool) (branchpos count : Z) (leaves : list uint256) (st : MState) : result (Z * MState) :=
  match leaves with
  | [] => Ok (count, st)
  | leaf :: leaves =>
      st ← leaf_step want branchpos count leaf st;
      leaves_loop want branchpos (u32 (count + 1)) leaves st
  end.

(** [while (!(count & (1 << level))) level++]. *)
Fixpoint skip_loop (fuel : nat) (count : Z) (level : nat) : result nat :=
  if bit_clear count level then
    match fuel with
    | O => Throw (assert_failed "MerkleComputation: level")
    | S fuel => skip_loop fuel count (S level)
    end
  else Ok level.

(** The inner loop of the sweep. *)
Fixpoint up_loop (want : bool) (fuel : nat) (count : Z) (level : nat) (h : uint256) (matchh : bool) (st : MState)
    : result (nat * uint256 * bool * MState) :=
  if bit_clear count level then
    match fuel with
    | O => Throw (assert_failed "MerkleComputation: level")
    | S fuel =>
        let '(matchh, st) := branch_step want level h matchh st in
        up_loop want fuel count (S level) (Hash2 (inner_at st level) h) matchh st
    end
  else Ok (level, h, matchh, st).

(** [while (count != (1 << level))]. *)
Fixpoint sweep_loop (want : bool) (fuel : nat) (count : Z) (level : nat) (h : uint256) (matchh : bool) (st : MState)
    : result (uint256 * MState) :=
  if negb (count =? u32 (Z.shiftl 1 (Z.of_nat level))) then
    match fuel with
    | O => Throw (assert_failed "MerkleComputation: level")
    | S fuel =>
        let st := if want && matchh then mkMState (inner st) (matchlevel st) (mutated st) (pbranch st ++ [h]) else st in
        let h := Hash2 h h in
        let count := u32 (count + u32 (Z.shiftl 1 (Z.of_nat level))) in
        '(level, h, matchh, st) ← up_loop want 32 count (S level) h matchh st;
        sweep_loop want fuel count level h matchh st
    end
  else Ok (h, st).

(** [*proot], [*pmutated] and [*pbranch]. *)
Definition MerkleComputation (leaves : list uint256) (branchpos : Z) (want : bool)
    : result (uint256 * bool * list uint256) :=
  match leaves with
  | [] => Ok (uint256_null, false, [])
  | _ =>
      '(count, st) ← leaves_loop want branchpos 0 leaves (mkMState (repeat uint256_null 32) (-1) false []);
      level ← skip_loop 32 count 0;
      '(h, st) ← sweep_loop want 32 count level (inner_at st level) (matchlevel st =? Z.of_nat level) st;
      mret (h, mutated st, pbranch st)
  end.

Definition ComputeMerkleRoot (leaves : list uint256) : result (uint256 * bool) :=
  '(h, m, _) ← MerkleComputation leaves (u32 (-1)) false; mret (h, m).

Definition ComputeMerkleBranch (leaves : list uint256) (position : Z) : result (list uint256) :=
  '(_, _, b) ← MerkleComputation leaves position true; mret b.

Fixpoint ComputeMerkleRootFromBranch (hash : uint256) (vMerkleBranch : list uint256) (nIndex : Z) : uint256 :=
  match vMerkleBranch with
  | [] => hash
  | it :: vMerkleBranch =>
      ComputeMerkleRootFromBranch (if negb (Z.land nIndex 1 =? 0) then Hash2 it hash else Hash2 hash it)
        vMerkleBranch (Z.shiftr nIndex 1)
  end.

Definition BlockMerkleRoot (block : CBlock) : result (uint256 * bool) :=
  ComputeMerkleRoot (map GetHash (vtx block)).

(** [leaves[0].SetNull()] writes out of range for a block without transactions. *)
Definition BlockWitnessMerkleRoot (block : CBlock) : result (uint256 * bool) :=
  match vtx block with
  | [] => Throw (assert_failed "leaves[0]")
  | _ :: txs => ComputeMerkleRoot (uint256_null :: map GetWitnessHash txs)
  end.

Definition BlockMerkleBranch (block : CBlock) (position : Z) : result (list uint256) :=
  ComputeMerkleBranch (map GetHash (vtx block)) position.

(** * Specification: the tree level by level *)

(** The hashes of the next level: pairs, the last one with itself if it is alone. *)
Fixpoint next_level (l : list uint256) : list uint256 :=
  match l with
  | a :: b :: l => Hash2 a b :: next_level l
  | [a] => [Hash2 a a]
  | [] => []
  end.

Fixpoint tree_level (k : nat) (l : list uint256) : list uint256 :=
  match k with
  | O => l
  | S k => next_level (tree_level k l)
  end.

(** The number of levels above the leaves. *)
Definition depth (l : list uint256) : nat := Z.to_nat (Z.log2_up (zlen l)).

Definition merkle_root (l : list uint256) : uint256 := nth 0 (tree_level (depth l) l) uint256_null.

(** The hash at index [i] of level [k], and its sibling in the tree. *)
Definition node (l : list uint256) (k i : nat) : uint256 := nth i (tree_level k l) uint256_null.
Definition sibling (l : list uint256) (k i : nat) : uint256 :=
  if Nat.even i then (if (S i <? length (tree_level k l))%nat then node l k (S i) else node l k i)
  else node l k (i - 1).

(** Two equal hashes side by side at the same level over complete subtrees. *)
Definition duplicated (l : list uint256) : Prop :=
  exists k j, ((2 * j + 2) * 2 ^ k <= length l)%nat /\ node l k (2 * j) = node l k (2 * j + 1).

(** The pairs hashed to make the next level, and all the pairs of a tree. *)
Fixpoint level_pairs (l : list uint256) : list (uint256 * uint256) :=
  match l with
  | a :: b :: l => (a, b) :: level_pairs l
  | [a] => [(a, a)]
  | [] => []
  end.

Definition tree_pairs (l : list uint256) : list (uint256 * uint256) :=
  concat (map (fun k => level_pairs (tree_level k l)) (seq 0 (depth l))).

(** A collision of [Hash2] among the given pairs. *)
Definition collision (P : list (uint256 * uint256)) : Prop :=
  exists a b c d, In (a, b) P /\ In (c, d) P /\ (a, b) <> (c, d) /\ Hash2 a b = Hash2 c d.

(** The pairs that folding a branch hashes. *)
Fixpoint branch_pairs (hash : uint256) (branch : list uint256) (i : Z) : list (uint256 * uint256) :=
  match branch with
  | [] => []
  | it :: branch =>
      let p := if negb (Z.land i 1 =? 0) then (it, hash) else (hash, it) in
      p :: branch_pairs (Hash2 p.1 p.2) branch (Z.shiftr i 1)
  end.

(** * Lemmas *)

Lemma bit_clear_even n k : (k < 32)%nat -> bit_clear (Z.of_nat n) k = Nat.even (n / 2 ^ k).
Proof.
  intros Hk. unfold bit_clear. rewrite Z.shiftl_mul_pow2, Z.mul_1_l by lia.
  rewrite u32_small.
  2:{ unfold is_u32. split; [apply Z.pow_nonneg; lia|]. apply Z.pow_lt_mono_r; lia. }
  rewrite land_pow2 by lia. rewrite Z.testbit_odd, Z.shiftr_div_pow2 by lia.
  rewrite <- (Nat2Z.inj_pow 2 k : Z.of_nat (2 ^ k) = 2 ^ Z.of_nat k), <- Nat2Z.inj_div.
  rewrite <- Z.negb_even, negb_involutive. generalize (n / 2 ^ k)%nat. intros q.
  destruct (Nat.even q) eqn:He.
  - apply Nat.even_spec in He as [r ->]. rewrite Nat2Z.inj_mul. by rewrite Z.even_mul.
  - rewrite <- Nat.negb_odd in He. apply negb_false_iff, Nat.odd_spec in He as [r ->].
    rewrite Nat2Z.inj_add, Nat2Z.inj_mul. change (Z.of_nat 1) with 1. by rewrite Z.even_add, Z.even_mul.
Qed.

(** ** Powers of two and levels *)

Lemma div_pow_S n k : (n / 2 ^ S k = n / 2 ^ k / 2)%nat.
Proof. rewrite Nat.Div0.div_div. f_equal. rewrite Nat.pow_succ_r'. lia. Qed.

Lemma even_half c : Nat.even c = true -> (c = 2 * (c / 2))%nat.
Proof. intros [r ->]%Nat.even_spec. rewrite (Nat.mul_comm 2 r) at 2. rewrite Nat.div_mul by lia. lia. Qed.

Lemma odd_half c : Nat.even c = false -> (c = 2 * (c / 2) + 1)%nat.
Proof.
  intros H. rewrite <- Nat.negb_odd in H. apply negb_false_iff, Nat.odd_spec in H as [r ->].
  rewrite (Nat.mul_comm 2 r), Nat.div_add_l by lia. simpl. lia.
Qed.

(** A multiple of [2^k] and its predecessor. *)
Lemma multiple_pred c k m : (S m = c * 2 ^ k)%nat -> (m / 2 ^ k = c - 1)%nat /\ (S m / 2 ^ k = c)%nat.
Proof.
  intros H. assert (H0 : (2 ^ k <> 0)%nat) by (apply Nat.pow_nonzero; lia). split.
  - destruct c as [|c]; [lia|]. symmetry. apply (Nat.div_unique _ _ _ (2 ^ k - 1)%nat); [lia|].
    rewrite Nat.mul_succ_l in H. rewrite Nat.sub_succ, Nat.sub_0_r. lia.
  - rewrite H. by apply Nat.div_mul.
Qed.

(** Above the lowest set bit of the new count, the bits do not change. *)
Lemma count_above c k m L :
  (S m = c * 2 ^ k)%nat -> Nat.even c = false -> (k < L)%nat -> (S m / 2 ^ L = m / 2 ^ L)%nat.
Proof.
  intros H Hc HL. destruct (multiple_pred _ _ _ H) as [H1 H2].
  replace L with (S k + (L - S k))%nat by lia. rewrite Nat.pow_add_r, <- !Nat.Div0.div_div. f_equal.
  rewrite !div_pow_S, H1, H2. apply odd_half in Hc. rewrite Hc.
  rewrite (Nat.mul_comm 2), Nat.add_sub, Nat.div_mul, Nat.div_add_l by lia. simpl. lia.
Qed.

Lemma length_next_level l : length (next_level l) = ((length l + 1) / 2)%nat.
Proof.
  enough (H : forall n l, (length l <= n)%nat -> length (next_level l) = ((length l + 1) / 2)%nat) by eauto.
  clear l. induction n as [|n IH]; intros [|a [|b l]] Hl; simpl in Hl; try lia; try reflexivity.
  cbn [next_level length]. rewrite IH by lia.
  replace (S (S (length l)) + 1)%nat with (1 * 2 + (length l + 1))%nat by lia.
  rewrite Nat.div_add_l by lia. reflexivity.
Qed.

Lemma nth_next_level l i : (2 * i < length l)%nat ->
  nth i (next_level l) uint256_null =
  Hash2 (nth (2 * i) l uint256_null)
        (if (2 * i + 1 <? length l)%nat then nth (2 * i + 1) l uint256_null else nth (2 * i) l uint256_null).
Proof.
  revert l. induction i as [|i IH]; intros [|a [|b l]] Hl; simpl in Hl; try lia; try reflexivity.
  replace (2 * S i)%nat with (S (S (2 * i))) by lia. simpl next_level. simpl nth at 1.
  rewrite IH by lia. reflexivity.
Qed.

Section Tree.
  Context (l : list uint256).
  Abbreviation width k := (length (tree_level k l)).

Lemma width_S k : width (S k) = ((width k + 1) / 2)%nat.
Proof. apply length_next_level. Qed.

Lemma width_even k : Nat.even (width k) = true -> (width k = 2 * width (S k))%nat.
Proof.
  rewrite width_S. intros [r ->]%Nat.even_spec. rewrite (Nat.mul_comm 2 r), Nat.div_add_l by lia. simpl. lia.
Qed.

Lemma width_odd k : Nat.even (width k) = false -> (width k + 1 = 2 * width (S k))%nat.
Proof.
  rewrite width_S. intros H. rewrite <- Nat.negb_odd in H. apply negb_false_iff, Nat.odd_spec in H as [r ->].
  replace (2 * r + 1 + 1)%nat with ((r + 1) * 2)%nat by lia. rewrite Nat.div_mul by lia. lia.
Qed.

Lemma width_bounds k : l <> [] -> ((width k - 1) * 2 ^ k < length l <= width k * 2 ^ k /\ 0 < width k)%nat.
Proof.
  intros Hl. induction k as [|k IH].
  - simpl. destruct l; [done|simpl; lia].
  - rewrite Nat.pow_succ_r'. destruct (Nat.even (width k)) eqn:E.
    + apply width_even in E. nia.
    + apply width_odd in E. nia.
Qed.

(** The number of complete subtrees of level [k] is the width, or one less. *)
Lemma complete_all k c : l <> [] -> length l = (c * 2 ^ k)%nat -> width k = c.
Proof. intros Hl H. destruct (width_bounds k Hl) as [[H1 H2] H3]. rewrite H in *. nia. Qed.

Lemma complete_padded k : l <> [] -> (length l < width k * 2 ^ k)%nat -> (length l / 2 ^ k = width k - 1)%nat.
Proof.
  intros Hl H. destruct (width_bounds k Hl) as [[H1 H2] H3]. symmetry.
  apply (Nat.div_unique _ _ _ (length l - (width k - 1) * 2 ^ k)%nat); nia.
Qed.

Lemma padded_up k : (length l < width k * 2 ^ k -> length l < width (S k) * 2 ^ S k)%nat.
Proof.
  intros H. rewrite Nat.pow_succ_r'. destruct (Nat.even (width k)) eqn:E.
  - apply width_even in E. nia.
  - apply width_odd in E. nia.
Qed.

Lemma node_pair k i : (2 * i + 1 < width k)%nat -> node l (S k) i = Hash2 (node l k (2 * i)) (node l k (2 * i + 1)).
Proof.
  intros H. unfold node. simpl tree_level. rewrite nth_next_level by lia.
  destruct (Nat.ltb_spec (2 * i + 1) (width k)); [reflexivity|lia].
Qed.

Lemma node_alone k i : (2 * i + 1 = width k)%nat -> node l (S k) i = Hash2 (node l k (2 * i)) (node l k (2 * i)).
Proof.
  intros H. unfold node. simpl tree_level. rewrite nth_next_level by lia.
  destruct (Nat.ltb_spec (2 * i + 1) (width k)); [lia|reflexivity].
Qed.

(** [i] is inside level [k] when the leaves below it start inside the list. *)
Lemma index_lt k i : l <> [] -> (i * 2 ^ k < length l -> i < width k)%nat.
Proof. intros Hl H. destruct (width_bounds k Hl) as [[H1 H2] H3]. nia. Qed.

Lemma position_lt k pos : (pos < length l)%nat -> (pos / 2 ^ k < width k)%nat.
Proof.
  intros H. apply index_lt; [by intros ->; simpl in H; lia|].
  assert (H0 : (2 ^ k <> 0)%nat) by (apply Nat.pow_nonzero; lia).
  pose proof (Nat.Div0.mul_div_le pos (2 ^ k)). lia.
Qed.

Lemma depth_unique k : l <> [] -> width k = 1%nat -> (forall j, S j = k -> 1 < width j)%nat -> depth l = k.
Proof.
  intros Hl Hk Hj. unfold depth, zlen. destruct (width_bounds k Hl) as [[_ H2] _]. rewrite Hk, Nat.mul_1_l in H2.
  assert (H2' : Z.of_nat (length l) <= 2 ^ Z.of_nat k) by (pose proof (Nat2Z.inj_pow 2 k) as E; change (Z.of_nat 2) with 2 in E; lia).
  destruct k as [|k].
  - destruct l as [|a [|b l']]; [done|reflexivity|simpl in H2; lia].
  - rewrite (Z.log2_up_unique _ (Z.of_nat (S k))); [lia|lia|split; [|done]].
    destruct (width_bounds k Hl) as [[H1 _] _]. specialize (Hj k eq_refl).
    replace (Z.pred (Z.of_nat (S k))) with (Z.of_nat k) by lia. pose proof (Nat2Z.inj_pow 2 k) as E. change (Z.of_nat 2) with 2 in E. rewrite <- E. nia.
Qed.
End Tree.

(** ** The invariants of the loops *)

Section Invariants.
  Context (l : list uint256) (want : bool) (pos : nat).
  Abbreviation width k := (length (tree_level k l)).

(** The branch of the leaf at [pos] below level [k]. *)
Definition siblings (k : nat) : list uint256 := map (fun j => sibling l j (pos / 2 ^ j)) (seq 0 k).

(** After [m] leaves, [inner] holds the last complete subtree of every level
    whose bit is set in [m]. *)
Definition inner_ok (m : nat) (inn : list uint256) : Prop :=
  length inn = 32%nat /\
  forall k, Nat.even (m / 2 ^ k) = false -> nth k inn uint256_null = node l k (m / 2 ^ k - 1).

Definition duplicated_in (m : nat) : Prop :=
  exists k j, ((2 * j + 2) * 2 ^ k <= m)%nat /\ node l k (2 * j) = node l k (2 * j + 1).

(** Where the matching leaf is: below [h], which has index [idx] at [level]; or
    not reached yet ([F]); or below an entry of [inner] at or above [level]. *)
Definition track (F : Prop) (m level idx : nat) (matchh : bool) (st : MState) : Prop :=
  if matchh then (pos / 2 ^ level)%nat = idx /\ pbranch st = siblings level
  else (F /\ matchlevel st = -1 /\ pbranch st = []) \/
       exists L, (level <= L)%nat /\ matchlevel st = Z.of_nat L /\ Nat.even (m / 2 ^ L) = false /\
                 (pos / 2 ^ L)%nat = (m / 2 ^ L - 1)%nat /\ pbranch st = siblings L.

Lemma siblings_S k : siblings (S k) = siblings k ++ [sibling l k (pos / 2 ^ k)].
Proof. unfold siblings. by rewrite seq_S, map_app. Qed.

Lemma even_pred c : Nat.even c = true -> (0 < c)%nat -> Nat.even (c - 1) = false.
Proof.
  intros [r ->]%Nat.even_spec H. destruct r as [|r]; [lia|].
  replace (2 * S r - 1)%nat with (S (2 * r)) by lia. rewrite Nat.even_succ, Nat.odd_mul. reflexivity.
Qed.

Lemma half_pred c : Nat.even c = true -> (0 < c)%nat -> ((c - 1) / 2 = c / 2 - 1 /\ (c - 2) / 2 = c / 2 - 1)%nat.
Proof.
  intros [r ->]%Nat.even_spec H. destruct r as [|r]; [lia|].
  rewrite (Nat.mul_comm 2 (S r)), Nat.div_mul by lia.
  replace (S r * 2 - 1)%nat with (r * 2 + 1)%nat by lia. replace (S r * 2 - 2)%nat with (r * 2)%nat by lia.
  rewrite Nat.div_add_l, Nat.div_mul by lia. simpl. lia.
Qed.

Lemma branch_step_ok F m level c matchh st :
  Nat.even c = true -> (0 < c <= width level)%nat -> (m / 2 ^ level = c - 1)%nat ->
  inner_at st level = node l level (c - 2) ->
  (want = true -> track F m level (c - 1) matchh st) ->
  exists matchh' st', branch_step want level (node l level (c - 1)) matchh st = (matchh', st') /\
    inner st' = inner st /\ mutated st' = mutated st /\ matchlevel st' = matchlevel st /\
    (want = true -> track F m (S level) (c / 2 - 1) matchh' st').
Proof.
  intros Hc [H0 Hw] Hm Hin Ht. destruct (half_pred c Hc H0) as [E1 E2].
  pose proof (even_pred c Hc H0) as Ho. unfold branch_step. destruct want; [|by exists matchh, st].
  specialize (Ht eq_refl). destruct matchh; simpl in Ht.
  - destruct Ht as [Hp Hb]. eexists _, _. split; [reflexivity|]. split_and!; try reflexivity.
    intros _. unfold track; cbn [pbranch]. rewrite div_pow_S, Hp, siblings_S, Hb, Hin, Hp. split; [done|]. do 2 f_equal.
    unfold sibling. rewrite Ho. f_equal. lia.
  - destruct (Z.eqb_spec (matchlevel st) (Z.of_nat level)).
    + destruct Ht as [(_ & Hl & _)|(L & HL & Hl & HoL & Hp & Hb)]; [lia|].
      assert (L = level) as -> by lia. eexists _, _. split; [reflexivity|]. split_and!; try reflexivity.
      intros _. rewrite Hm in Hp. replace (c - 1 - 1)%nat with (c - 2)%nat in Hp by lia.
      unfold track; cbn [pbranch]. rewrite div_pow_S, Hp, siblings_S, Hb, Hp. split; [done|]. do 2 f_equal.
      apply even_half in Hc. assert (He : Nat.even (c - 2) = true).
      { replace (c - 2)%nat with (2 * (c / 2 - 1))%nat by lia. by rewrite Nat.even_mul. }
      unfold sibling. rewrite He. destruct (Nat.ltb_spec (S (c - 2)) (width level)); [|lia]. f_equal. lia.
    + eexists _, _. split; [reflexivity|]. split_and!; try done. intros _. simpl.
      destruct Ht as [?|(L & HL & Hl & HoL & Hp & Hb)]; [by left|right; exists L].
      split_and!; try done. assert (L <> level) by (intros ->; lia). lia.
Qed.

Lemma level_lt c level m : (S m = c * 2 ^ level)%nat -> Z.of_nat (S m) < 2 ^ 32 -> (level < 32)%nat.
Proof.
  intros H Hm. assert (Hp : (2 ^ level <= S m)%nat) by (destruct c; [lia|]; rewrite H; nia).
  pose proof (Nat2Z.inj_pow 2 level) as E. change (Z.of_nat 2) with 2 in E.
  apply Nat2Z.inj_lt. apply (Z.pow_lt_mono_r_iff 2); [lia|lia|]. change (Z.of_nat 32) with 32. lia.
Qed.

(** The pair of nodes that a step at level [k] hashes. *)
Lemma node_step k c : Nat.even c = true -> (0 < c <= width k)%nat ->
  node l (S k) (c / 2 - 1) = Hash2 (node l k (c - 2)) (node l k (c - 1)).
Proof.
  intros Hc [H0 Hw]. apply even_half in Hc. rewrite node_pair by lia. do 2 f_equal; lia.
Qed.

(** *** The leaves *)

Lemma combine_ok F m fuel : forall level c matchh st,
  (S m <= length l)%nat -> Z.of_nat (S m) < 2 ^ 32 -> (level + fuel = 32)%nat ->
  (S m = c * 2 ^ level)%nat -> inner_ok m (inner st) ->
  (want = true -> track F m level (c - 1) matchh st) ->
  exists level' c' matchh' st',
    combine_loop want fuel (Z.of_nat (S m)) level (node l level (c - 1)) matchh st =
      Ok (level', node l level' (c' - 1), matchh', st') /\
    (S m = c' * 2 ^ level')%nat /\ Nat.even c' = false /\ inner st' = inner st /\
    (mutated st' = true <-> mutated st = true \/
       exists k j, (level <= k)%nat /\ ((2 * j + 2) * 2 ^ k)%nat = S m /\ node l k (2 * j) = node l k (2 * j + 1)) /\
    (want = true -> track F m level' (c' - 1) matchh' st').
Proof.
  induction fuel as [|fuel IH]; intros level c matchh st Hl Hb Hf Hc Hin Ht.
  { pose proof (level_lt _ _ _ Hc Hb). lia. }
  pose proof (level_lt _ _ _ Hc Hb) as Hlev. destruct (multiple_pred _ _ _ Hc) as [Hm Hm'].
  cbn [combine_loop]. rewrite bit_clear_even, Hm' by done. destruct (Nat.even c) eqn:He.
  - assert (H0 : (0 < c)%nat) by (destruct c; [lia|lia]).
    assert (Hne : l <> []) by (intros ->; simpl in Hl; lia).
    assert (Hw : (c <= width level)%nat).
    { enough (c - 1 < width level)%nat by lia. apply index_lt; [done|]. nia. }
    assert (Hat : inner_at st level = node l level (c - 2)).
    { unfold inner_at. rewrite (proj2 Hin) by (rewrite Hm; by apply even_pred). rewrite Hm. f_equal. lia. }
    destruct (branch_step_ok F m level c matchh st He (conj H0 Hw) Hm Hat Ht) as (mh & st1 & -> & Hi1 & Hmu1 & Hl1 & Ht1).
    assert (Hat1 : inner_at st1 level = node l level (c - 2)) by (unfold inner_at in *; by rewrite Hi1).
    cbv zeta. replace (inner_at (mkMState _ _ _ _) level) with (node l level (c - 2))
      by (rewrite <- Hat1; reflexivity).
    rewrite <- node_step by done. pose proof (even_half _ He) as Hh.
    destruct (IH (S level) (c / 2)%nat mh
      (mkMState (inner st1) (matchlevel st1) (mutated st1 || bool_decide (inner_at st1 level = node l level (c - 1))) (pbranch st1)))
      as (level' & c' & mh' & st' & Hr & Hc' & He' & Hi' & Hmu' & Ht'); try done; try lia.
    { rewrite Nat.pow_succ_r'. nia. }
    { cbn [inner]. by rewrite Hi1. }
    exists level', c', mh', st'. split; [exact Hr|]. split; [done|]. split; [done|].
    split; [rewrite Hi'; exact Hi1|]. split; [|done].
    rewrite Hmu'. cbn [mutated]. rewrite orb_true_iff, bool_decide_eq_true, Hat1, Hmu1. split.
    + intros [[?|Heq]|(k & j & Hk & Hj & Hn)]; [by left| |right; exists k, j; split_and!; (lia || done)].
      right. exists level, (c / 2 - 1)%nat. split; [lia|].
      replace (2 * (c / 2 - 1))%nat with (c - 2)%nat by lia. replace (c - 2 + 1)%nat with (c - 1)%nat by lia.
      split; [|done]. rewrite Hc. f_equal. lia.
    + intros [?|(k & j & Hk & Hj & Hn)]; [by left; left|].
      destruct (decide (k = level)) as [->|]; [|right; exists k, j; split_and!; (lia || done)].
      left; right. assert (2 * j + 2 = c)%nat as Hjc.
      { apply (Nat.mul_cancel_r _ _ (2 ^ level)); [apply Nat.pow_nonzero; lia|lia]. }
      replace (c - 2)%nat with (2 * j)%nat by lia. by replace (c - 1)%nat with (2 * j + 1)%nat by lia.
  - exists level, c, matchh, st. split; [reflexivity|]. split_and!; try done. split; [by left|].
    intros [?|(k & j & Hk & Hj & Hn)]; [done|]. exfalso.
    assert (Nat.even c = true); [|congruence].
    replace c with ((2 * j + 2) * 2 ^ (k - level))%nat.
    { replace (2 * j + 2)%nat with (2 * (j + 1))%nat by lia. by rewrite !Nat.even_mul. }
    apply (Nat.mul_cancel_r _ _ (2 ^ level)); [apply Nat.pow_nonzero; lia|].
    rewrite <- Nat.mul_assoc, <- Nat.pow_add_r. replace (k - level + level)%nat with k by lia. lia.
Qed.

Definition leaves_inv (m : nat) (st : MState) : Prop :=
  inner_ok m (inner st) /\ (mutated st = true <-> duplicated_in m) /\
  (want = true -> track (m <= pos)%nat m 0 0 false st).

Lemma odd_pred c : Nat.even c = false -> Nat.even (c - 1) = true.
Proof. intros H%odd_half. rewrite H, Nat.add_sub. by rewrite Nat.even_mul. Qed.

Lemma inner_ok_store m level c inn :
  (S m = c * 2 ^ level)%nat -> Nat.even c = false -> (level < 32)%nat -> inner_ok m inn ->
  inner_ok (S m) (<[level := node l level (c - 1)]> inn).
Proof.
  intros Hc He Hl [Hlen Hin]. destruct (multiple_pred _ _ _ Hc) as [Hm Hm'].
  split; [by rewrite length_insert|]. intros k Hk. rewrite nth_lookup.
  destruct (lt_eq_lt_dec k level) as [[Hlt| ->]|Hgt].
  - exfalso. replace level with (k + (level - k))%nat in Hc by lia.
    replace (c * 2 ^ (k + (level - k)))%nat with ((c * 2 ^ (level - k)) * 2 ^ k)%nat in Hc by (rewrite Nat.pow_add_r; lia).
    destruct (multiple_pred _ _ _ Hc) as [_ E]. rewrite E in Hk.
    destruct (level - k)%nat eqn:Ed; [lia|]. rewrite Nat.pow_succ_r', !Nat.even_mul, orb_true_r in Hk. discriminate.
  - rewrite list_lookup_insert_eq by lia. simpl. by rewrite Hm'.
  - rewrite list_lookup_insert_ne by lia. rewrite (count_above _ _ _ _ Hc He Hgt) in *. rewrite <- nth_lookup. by apply Hin.
Qed.

Lemma track_store m level c mh st :
  (S m = c * 2 ^ level)%nat -> Nat.even c = false ->
  track (S m <= pos)%nat m level (c - 1) mh st ->
  track (S m <= pos)%nat (S m) 0 0 false
    (mkMState (<[level := node l level (c - 1)]> (inner st)) (if mh then Z.of_nat level else matchlevel st) (mutated st) (pbranch st)).
Proof.
  intros Hc He Ht. destruct (multiple_pred _ _ _ Hc) as [Hm Hm']. unfold track in *; cbn [pbranch matchlevel].
  destruct mh.
  - destruct Ht as [Hp Hb]. right. exists level. rewrite Hm'. split_and!; try done; lia.
  - destruct Ht as [?|(L & HL & Hml & Ho & Hp & Hb)]; [by left|]. right. exists L.
    assert (level < L)%nat.
    { enough (level <> L) by lia. intros <-. rewrite Hm, odd_pred in Ho by done. discriminate. }
    rewrite (count_above _ _ _ _ Hc He) by done. split_and!; try done; lia.
Qed.

Lemma track_start m branchpos st :
  branchpos = Z.of_nat pos -> track (m <= pos)%nat m 0 0 false st ->
  track (S m <= pos)%nat m 0 (S m - 1) (Z.of_nat m =? branchpos) st.
Proof.
  intros -> Ht. unfold track in Ht. destruct (Z.eqb_spec (Z.of_nat m) (Z.of_nat pos)) as [E|E].
  - assert (m = pos) as -> by lia. unfold track. rewrite Nat.pow_0_r, Nat.div_1_r. split; [lia|].
    destruct Ht as [(_ & _ & ->)|(L & _ & _ & Ho & Hp & _)]; [done|].
    destruct (pos / 2 ^ L)%nat; [discriminate|lia].
  - simpl. destruct Ht as [(? & ? & ?)|Ht]; [left; split_and!; (done || lia)|by right].
Qed.

Lemma leaf_step_ok branchpos m st :
  (want = true -> branchpos = Z.of_nat pos) -> (S m <= length l)%nat -> Z.of_nat (S m) < 2 ^ 32 -> leaves_inv m st ->
  exists st', leaf_step want branchpos (Z.of_nat m) (nth m l uint256_null) st = Ok st' /\ leaves_inv (S m) st'.
Proof.
  intros Hbp Hl Hb (Hin & Hmu & Ht). unfold leaf_step. rewrite u32_small by (unfold is_u32; lia).
  replace (Z.of_nat m + 1) with (Z.of_nat (S m)) by lia.
  destruct (combine_ok (S m <= pos)%nat m 32 0 (S m) (Z.of_nat m =? branchpos) st)
    as (level & c & mh & st1 & Hr & Hc & He & Hi & Hmu' & Ht'); try done; try lia.
  { simpl. lia. }
  { intros Hw. apply track_start; auto. }
  change (node l 0 (S m - 1)) with (nth (S m - 1) l uint256_null) in Hr.
  replace (S m - 1)%nat with m in Hr by lia. rewrite Hr. eexists. split; [reflexivity|].
  pose proof (level_lt _ _ _ Hc Hb). split_and!.
  - cbn [inner]. rewrite Hi. by apply inner_ok_store.
  - cbn [mutated]. rewrite Hmu', Hmu. split.
    + intros [(k & j & Hk & Hj)|(k & j & _ & Hk & Hj)]; exists k, j; (split; [lia|done]).
    + intros (k & j & Hk & Hj). destruct (decide ((2 * j + 2) * 2 ^ k = S m)%nat);
        [right; exists k, j; split_and!; (lia || done)|left; exists k, j; split; [lia|done]].
  - intros Hw. by apply track_store, Ht'.
Qed.

Lemma leaves_loop_ok branchpos todo : forall m st,
  (want = true -> branchpos = Z.of_nat pos) -> zlen l < 2 ^ 31 -> drop m l = todo -> (m <= length l)%nat -> leaves_inv m st ->
  exists st', leaves_loop want branchpos (Z.of_nat m) todo st = Ok (zlen l, st') /\ leaves_inv (length l) st'.
Proof.
  induction todo as [|leaf todo IH]; intros m st Hbp Hz Hd Hm Hi.
  - assert (m = length l) as ->. { apply (f_equal length) in Hd. rewrite length_drop in Hd. simpl in Hd. lia. }
    by exists st.
  - assert (Hlt : (S m <= length l)%nat). { apply (f_equal length) in Hd. rewrite length_drop in Hd. simpl in Hd. lia. }
    assert (Hleaf : leaf = nth m l uint256_null).
    { rewrite nth_lookup. replace (l !! m) with (drop m l !! 0%nat) by (rewrite lookup_drop; f_equal; lia). by rewrite Hd. }
    unfold zlen in *. cbn [leaves_loop]. rewrite Hleaf.
    destruct (leaf_step_ok branchpos m st Hbp Hlt ltac:(lia) Hi) as (st1 & -> & Hi1). simpl mbind.
    rewrite u32_small by (unfold is_u32; lia).
    replace (Z.of_nat m + 1) with (Z.of_nat (S m)) by lia.
    apply IH; try done. replace (S m) with (m + 1)%nat by lia. by rewrite <- drop_drop, Hd.
Qed.

(** *** The sweep *)

Lemma skip_loop_ok m fuel : forall level c,
  Z.of_nat (S m) < 2 ^ 32 -> (level + fuel = 32)%nat -> (S m = c * 2 ^ level)%nat ->
  exists level' c', skip_loop fuel (Z.of_nat (S m)) level = Ok level' /\ (S m = c' * 2 ^ level')%nat /\ Nat.even c' = false.
Proof.
  induction fuel as [|fuel IH]; intros level c Hb Hf Hc; pose proof (level_lt _ _ _ Hc Hb) as Hlev; [lia|].
  destruct (multiple_pred _ _ _ Hc) as [_ Hm']. cbn [skip_loop]. rewrite bit_clear_even, Hm' by done.
  destruct (Nat.even c) eqn:He; [|by exists level, c].
  apply (IH (S level) (c / 2)%nat); try done; [lia|]. apply even_half in He. rewrite Nat.pow_succ_r'. nia.
Qed.

(** The level below is wider than one node: the tree is not finished before [level]. *)
Definition not_above (level : nat) : Prop := forall j, S j = level -> (1 < width j)%nat.

Lemma width_bound level : l <> [] -> zlen l < 2 ^ 31 -> not_above level ->
  Z.of_nat (width level * 2 ^ level) < 2 ^ 32 /\ (level < 32)%nat.
Proof.
  intros Hne Hz Hna. unfold zlen in Hz.
  assert (Hw : Z.of_nat (width level * 2 ^ level) < 2 ^ 32).
  { destruct level as [|j]; [change (width 0) with (length l); rewrite Nat.pow_0_r; lia|].
    specialize (Hna j eq_refl). destruct (width_bounds l j Hne) as [[H1 _] _].
    rewrite Nat.pow_succ_r'. enough (width (S j) * (2 * 2 ^ j) <= 2 * length l)%nat by lia.
    set (P := (2 ^ j)%nat) in *. assert (Hw : (2 * width (S j) <= 2 * (width j - 1))%nat).
    { destruct (Nat.even (width j)) eqn:E; [apply width_even in E|apply width_odd in E]; lia. }
    nia. }
  split; [done|]. destruct (width_bounds l level Hne) as [_ H0].
  destruct (width level * 2 ^ level)%nat as [|m] eqn:E.
  - pose proof (Nat.pow_nonzero 2 level). nia.
  - exact (level_lt _ _ _ (eq_sym E) Hw).
Qed.

Lemma up_loop_ok F fuel : forall level mh st,
  l <> [] -> zlen l < 2 ^ 31 -> (32 <= level + fuel)%nat -> not_above level ->
  (length l < width level * 2 ^ level)%nat -> inner_ok (length l) (inner st) ->
  (want = true -> track F (length l) level (width level - 1) mh st) ->
  exists level' mh' st',
    up_loop want fuel (Z.of_nat (width level * 2 ^ level)) level (node l level (width level - 1)) mh st =
      Ok (level', node l level' (width level' - 1), mh', st') /\
    (width level' * 2 ^ level' = width level * 2 ^ level)%nat /\ Nat.even (width level') = false /\
    (level <= level')%nat /\ not_above level' /\ inner st' = inner st /\ mutated st' = mutated st /\
    (want = true -> track F (length l) level' (width level' - 1) mh' st').
Proof.
  induction fuel as [|fuel IH]; intros level mh st Hne Hz Hf Hna Hpad Hin Ht;
    destruct (width_bound level Hne Hz Hna) as [Hb Hlev]; [lia|].
  assert (Hdiv : (width level * 2 ^ level / 2 ^ level = width level)%nat) by (apply Nat.div_mul, Nat.pow_nonzero; lia).
  cbn [up_loop]. rewrite bit_clear_even, Hdiv by done. destruct (Nat.even (width level)) eqn:He.
  - pose proof (width_even _ _ He) as Hw. destruct (width_bounds l level Hne) as [_ H0].
    pose proof (complete_padded l level Hne Hpad) as Hm.
    assert (Hat : inner_at st level = node l level (width level - 2)).
    { unfold inner_at. rewrite (proj2 Hin) by (rewrite Hm; by apply even_pred). rewrite Hm. f_equal. lia. }
    destruct (branch_step_ok F _ level (width level) mh st He (conj H0 (Nat.le_refl _)) Hm Hat Ht)
      as (mh1 & st1 & -> & Hi1 & Hmu1 & Hl1 & Ht1).
    replace (inner_at st1 level) with (node l level (width level - 2)) by (unfold inner_at in *; by rewrite Hi1).
    rewrite <- node_step by (done || lia). replace (width level / 2)%nat with (width (S level)) in *
      by (rewrite Hw, Nat.mul_comm, Nat.div_mul; lia).
    replace (width level * 2 ^ level)%nat with (width (S level) * 2 ^ S level)%nat in * by (rewrite Nat.pow_succ_r'; lia).
    destruct (IH (S level) mh1 st1) as (level' & mh' & st' & Hr & Hc' & He' & Hle & Hna' & Hi' & Hmu' & Ht'); try done.
    { lia. } { intros j [= ->]. lia. } { by rewrite Hi1. }
    exists level', mh', st'. split_and!; try done; try lia; congruence.
  - exists level, mh, st. by split_and!.
Qed.

Definition sweep_track (F : Prop) (level : nat) (mh : bool) (st : MState) : Prop :=
  if mh then track F (length l) level (width level - 1) true st else track F (length l) (S level) 0 false st.

Lemma sweep_track_up F level mh st : l <> [] -> (length l < width level * 2 ^ level)%nat -> Nat.even (width level) = false ->
  track F (length l) level (width level - 1) mh st -> sweep_track F level mh st.
Proof.
  intros Hne Hpad He Ht. destruct mh; [done|]. destruct Ht as [?|(L & HL & Hml & Ho & Hp & Hb)]; [by left|].
  right. exists L. split; [|done]. enough (L <> level) by lia. intros ->.
  rewrite complete_padded, odd_pred in Ho by done. discriminate.
Qed.

(** [h] is combined with itself: the leaf below it gets [h] in its branch. *)
Lemma sweep_track_double F level mh st st1 :
  Nat.even (width level) = false -> sweep_track F level mh st ->
  st1 = (if mh then mkMState (inner st) (matchlevel st) (mutated st) (pbranch st ++ [node l level (width level - 1)]) else st) ->
  track F (length l) (S level) (width (S level) - 1) mh st1.
Proof.
  intros He Ht ->. pose proof (width_odd _ _ He) as Hw. destruct mh; [|exact Ht].
  destruct Ht as [Hp Hb]. split.
  - rewrite div_pow_S, Hp. replace (width level - 1)%nat with ((width (S level) - 1) * 2)%nat by lia. by apply Nat.div_mul.
  - cbn [pbranch]. rewrite siblings_S, Hb, Hp. do 2 f_equal. unfold sibling. rewrite odd_pred by done.
    destruct (Nat.ltb_spec (S (width level - 1)) (width level)); [lia|reflexivity].
Qed.

Lemma one_shifted level : (level < 32)%nat -> u32 (Z.shiftl 1 (Z.of_nat level)) = Z.of_nat (2 ^ level).
Proof.
  intros H. rewrite Z.shiftl_mul_pow2, Z.mul_1_l by lia. rewrite (Nat2Z.inj_pow 2 level). apply u32_small.
  split; [apply Z.pow_nonneg; lia|]. apply Z.pow_lt_mono_r; lia.
Qed.

Lemma sweep_loop_ok F fuel : forall level mh st,
  l <> [] -> zlen l < 2 ^ 31 -> (32 <= level + fuel)%nat -> not_above level -> Nat.even (width level) = false ->
  inner_ok (length l) (inner st) -> (want = true -> sweep_track F level mh st) ->
  exists mh' st',
    sweep_loop want fuel (Z.of_nat (width level * 2 ^ level)) level (node l level (width level - 1)) mh st =
      Ok (merkle_root l, st') /\ mutated st' = mutated st /\ (want = true -> sweep_track F (depth l) mh' st').
Proof.
  induction fuel as [|fuel IH]; intros level mh st Hne Hz Hf Hna He Hin Ht;
    destruct (width_bound level Hne Hz Hna) as [Hb Hlev]; [lia|].
  assert (Hp : (2 ^ level <> 0)%nat) by (apply Nat.pow_nonzero; lia).
  cbn [sweep_loop]. rewrite one_shifted by done. destruct (Z.eqb_spec (Z.of_nat (width level * 2 ^ level)) (Z.of_nat (2 ^ level))) as [E|E].
  - assert (Hw1 : width level = 1%nat) by nia. pose proof (depth_unique l level Hne Hw1 Hna) as Hd.
    exists mh, st. unfold merkle_root. rewrite Hd, Hw1. split; [reflexivity|done].
  - pose proof (width_odd _ _ He) as Hw. cbn [negb]. cbv zeta.
    set (st1 := if want && mh then _ else st).
    assert (Hst1 : inner st1 = inner st /\ mutated st1 = mutated st /\
                   (want = true -> track F (length l) (S level) (width (S level) - 1) mh st1)).
    { subst st1. destruct want; simpl; [|done]. split_and!; [by destruct mh..|].
      intros _. eapply sweep_track_double; [done|by apply Ht|reflexivity]. }
    clearbody st1. destruct Hst1 as (Hi1 & Hmu1 & Ht1).
    assert (Hna1 : not_above (S level)).
    { intros j [= ->]. destruct (width_bounds l level Hne) as [_ H0]. enough (width level <> 1%nat) by lia. intros H1. rewrite H1 in E. lia. }
    assert (Hc : (width level * 2 ^ level + 2 ^ level = width (S level) * 2 ^ S level)%nat) by (rewrite Nat.pow_succ_r'; nia).
    assert (Hh : Hash2 (node l level (width level - 1)) (node l level (width level - 1)) = node l (S level) (width (S level) - 1)).
    { rewrite node_alone by lia. do 2 f_equal; lia. }
    rewrite Hh, <- Nat2Z.inj_add, Hc.
    rewrite u32_small by (destruct (width_bound (S level) Hne Hz Hna1); unfold is_u32; lia).
    assert (Hpad : (length l < width (S level) * 2 ^ S level)%nat).
    { destruct (width_bounds l level Hne) as [[_ H2] _]. lia. }
    destruct (up_loop_ok F 32 (S level) mh st1 Hne Hz ltac:(lia) Hna1 Hpad ltac:(by rewrite Hi1) Ht1)
      as (level' & mh' & st' & -> & Hc' & He' & Hle & Hna' & Hi' & Hmu' & Ht'). cbn [mbind result_bind].
    rewrite <- Hc'. destruct (IH level' mh' st') as (mh2 & st2 & Hr & Hmu2 & Ht2); try done; try lia.
    { by rewrite Hi', Hi1. }
    { intros Hwant. apply sweep_track_up; try done; [lia|by apply Ht']. }
    exists mh2, st2. split_and!; [exact Hr| |done]. congruence.
Qed.

Lemma sweep_track_end mh st : l <> [] -> width (depth l) = 1%nat -> (pos < length l)%nat ->
  sweep_track (length l <= pos)%nat (depth l) mh st -> pbranch st = siblings (depth l).
Proof.
  intros Hne Hw Hpos Ht. destruct mh; [by destruct Ht|].
  destruct Ht as [(? & _)|(L & HL & _ & Ho & _)]; [lia|]. exfalso.
  destruct (width_bounds l (depth l) Hne) as [[_ H2] _]. rewrite Hw, Nat.mul_1_l in H2.
  assert (length l < 2 ^ L)%nat. { eapply Nat.le_lt_trans; [exact H2|]. apply Nat.pow_lt_mono_r; lia. }
  rewrite Nat.div_small in Ho by done. discriminate.
Qed.
End Invariants.

(** ** The whole computation *)

Lemma depth_width l : l <> [] -> length (tree_level (depth l) l) = 1%nat.
Proof.
  intros Hne. destruct (width_bounds l (depth l) Hne) as [[H1 _] H0].
  assert (H : (length l <= 2 ^ depth l)%nat).
  { unfold depth, zlen. apply Nat2Z.inj_le. rewrite Nat2Z.inj_pow. change (Z.of_nat 2) with 2.
    rewrite Z2Nat.id by apply Z.log2_up_nonneg. destruct l; [done|]. apply Z.log2_up_le_pow2; [simpl; lia|lia]. }
  nia.
Qed.

Lemma MerkleComputation_ok l want pos branchpos :
  l <> [] -> zlen l < 2 ^ 31 -> (want = true -> branchpos = Z.of_nat pos /\ (pos < length l)%nat) ->
  exists m b, MerkleComputation l branchpos want = Ok (merkle_root l, m, b) /\
    (m = true <-> duplicated l) /\ (want = true -> b = siblings l pos (depth l)).
Proof.
  intros Hne Hz Hw. unfold MerkleComputation. destruct l as [|a l0] eqn:El; [done|]. rewrite <- El in *. clear El.
  change (leaves_loop want branchpos 0) with (leaves_loop want branchpos (Z.of_nat 0)).
  destruct (leaves_loop_ok l want pos branchpos l 0 (mkMState (repeat uint256_null 32) (-1) false []))
    as (st & -> & Hin & Hmu & Ht); try done; [by intros ?; apply Hw|lia| |].
  { split; [|split].
    - split; [reflexivity|]. intros k Hk. rewrite Nat.Div0.div_0_l in Hk. discriminate.
    - split; [done|]. intros (k & j & Hk & _). pose proof (Nat.pow_nonzero 2 k). cbn in Hk. nia.
    - intros _. left. split_and!; (done || lia). }
  cbn [mbind result_bind]. unfold zlen in *.
  destruct (length l) as [|m] eqn:En; [by destruct l|].
  destruct (skip_loop_ok m 32 0 (S m)) as (level & c & -> & Hc & He); [lia|lia|simpl; lia|].
  cbn [mbind result_bind]. rewrite <- En in *. pose proof (complete_all l level c Hne Hc) as Hwc.
  assert (Hna : not_above l level).
  { intros j <-. rewrite Nat.pow_succ_r' in Hc. rewrite (complete_all l j (c * 2)%nat Hne) by lia.
    destruct c; [discriminate|lia]. }
  assert (Hdiv : (length l / 2 ^ level = c)%nat) by (rewrite Hc; apply Nat.div_mul, Nat.pow_nonzero; lia).
  assert (Hat : inner_at st level = node l level (length (tree_level level l) - 1)).
  { unfold inner_at. rewrite (proj2 Hin) by (by rewrite Hdiv). by rewrite Hdiv, Hwc. }
  destruct (sweep_loop_ok l want pos (length l <= pos)%nat 32 level (matchlevel st =? Z.of_nat level) st)
    as (mh & st' & Hr & Hmu' & Ht'); try done; [lia|by rewrite Hwc| |].
  { intros Hwant. specialize (Ht Hwant). destruct Ht as [(? & _)|(L & _ & Hml & Ho & Hp & Hb)].
    { destruct (Hw Hwant). lia. }
    destruct (Z.eqb_spec (matchlevel st) (Z.of_nat level)) as [E|E].
    - assert (L = level) as -> by lia. split; [|done]. by rewrite Hp, Hdiv, Hwc.
    - right. exists L. split_and!; try done. enough (level <= L)%nat by (assert (L <> level) by congruence; lia).
      destruct (le_lt_dec level L); [done|exfalso]. replace level with (S L + (level - S L))%nat in Hc by lia.
      rewrite Hc, Nat.pow_add_r, Nat.pow_succ_r' in Ho.
      replace (c * (2 * 2 ^ L * 2 ^ (level - S L)))%nat with (2 * (c * 2 ^ (level - S L)) * 2 ^ L)%nat in Ho by lia.
      rewrite Nat.div_mul, Nat.even_mul in Ho by (apply Nat.pow_nonzero; lia). discriminate. }
  rewrite <- Hat, Hwc, <- Hc in Hr. rewrite Hr. exists (mutated st'), (pbranch st'). split; [reflexivity|].
  split; [by rewrite Hmu', Hmu|]. intros Hwant. destruct (Hw Hwant) as [_ Hpos].
  eapply sweep_track_end; [done|by apply depth_width|done|by apply Ht'].
Qed.

(** ** Branches and collisions *)

Lemma collision_mono P Q : incl P Q -> collision P -> collision Q.
Proof. intros H (a & b & c & d & H1 & H2 & H3). exists a, b, c, d. auto. Qed.

Lemma next_level_pairs l : next_level l = map (fun p => Hash2 p.1 p.2) (level_pairs l).
Proof.
  enough (H : forall n l, (length l <= n)%nat -> next_level l = map (fun p => Hash2 p.1 p.2) (level_pairs l)) by eauto.
  clear l. induction n as [|n IH]; intros [|a [|b l]] Hl; simpl in *; try lia; try reflexivity.
  by rewrite IH by lia.
Qed.

(** The pair below index [i] of level [S k]. *)
Definition pair_below (l : list uint256) (k i : nat) : uint256 * uint256 :=
  (node l k (2 * i), if (2 * i + 1 <? length (tree_level k l))%nat then node l k (2 * i + 1) else node l k (2 * i)).

Lemma nth_level_pairs l i d : (2 * i < length l)%nat ->
  nth i (level_pairs l) d = (nth (2 * i) l uint256_null,
    if (2 * i + 1 <? length l)%nat then nth (2 * i + 1) l uint256_null else nth (2 * i) l uint256_null).
Proof.
  revert l. induction i as [|i IH]; intros [|a [|b l]] Hl; simpl in Hl; try lia; try reflexivity.
  replace (2 * S i)%nat with (S (S (2 * i))) by lia. simpl level_pairs. simpl nth at 1.
  rewrite IH by lia. reflexivity.
Qed.

Lemma length_level_pairs l : length (level_pairs l) = ((length l + 1) / 2)%nat.
Proof. rewrite <- length_next_level, next_level_pairs. by rewrite length_map. Qed.

Lemma below_lt l k i : (i < length (tree_level (S k) l) -> 2 * i < length (tree_level k l))%nat.
Proof.
  intros H. destruct (Nat.even (length (tree_level k l))) eqn:E; [apply width_even in E|apply width_odd in E]; lia.
Qed.

Lemma node_below l k i : (i < length (tree_level (S k) l))%nat ->
  node l (S k) i = Hash2 (pair_below l k i).1 (pair_below l k i).2.
Proof. intros H%below_lt. unfold node. simpl tree_level. by rewrite nth_next_level. Qed.

Lemma level_pairs_in l k : (k < depth l)%nat -> incl (level_pairs (tree_level k l)) (tree_pairs l).
Proof.
  intros Hk p Hp. unfold tree_pairs. apply in_concat. exists (level_pairs (tree_level k l)). split; [|done].
  apply in_map_iff. exists k. split; [done|]. apply in_seq. lia.
Qed.

Lemma pair_below_in l k i : (k < depth l)%nat -> (i < length (tree_level (S k) l))%nat -> In (pair_below l k i) (tree_pairs l).
Proof.
  intros Hk Hi. apply (level_pairs_in l k Hk). pose proof (below_lt _ _ _ Hi) as H2.
  unfold pair_below, node. rewrite <- (nth_level_pairs _ i (uint256_null, uint256_null)) by done.
  apply nth_In. rewrite length_level_pairs. by rewrite <- width_S.
Qed.

(** Hashes of the same value come from the same pair, or collide. *)
Lemma same_pair P p q : In p P -> In q P -> Hash2 p.1 p.2 = Hash2 q.1 q.2 -> p = q \/ collision P.
Proof.
  intros Hp Hq H. destruct (decide (p = q)) as [|Hne]; [by left|right].
  destruct p as [a b], q as [c d]. exists a, b, c, d. exact (conj Hp (conj Hq (conj Hne H))).
Qed.

Lemma land_1_even i : (Z.land (Z.of_nat i) 1 =? 0) = Nat.even i.
Proof.
  pose proof (bit_clear_even i 0 ltac:(lia)) as H. unfold bit_clear in H. simpl Z.of_nat in H.
  rewrite Nat.pow_0_r, Nat.div_1_r in H. exact H.
Qed.

Lemma shiftr_1_half i : Z.shiftr (Z.of_nat i) 1 = Z.of_nat (i / 2).
Proof. rewrite Z.shiftr_div_pow2 by lia. change (2 ^ 1) with (Z.of_nat 2). by rewrite <- Nat2Z.inj_div. Qed.

(** The pair that a branch step hashes is the pair of the tree. *)
Lemma sibling_pair l k i : (i < length (tree_level k l))%nat ->
  (if negb (Z.land (Z.of_nat i) 1 =? 0) then (sibling l k i, node l k i) else (node l k i, sibling l k i)) = pair_below l k (i / 2).
Proof.
  intros Hi. rewrite land_1_even. unfold sibling, pair_below. destruct (Nat.even i) eqn:E; simpl negb; cbv iota.
  - apply even_half in E. rewrite <- E. replace (i + 1)%nat with (S i) by lia. reflexivity.
  - apply odd_half in E. rewrite <- E. replace (2 * (i / 2))%nat with (i - 1)%nat by lia.
    destruct (Nat.ltb_spec i (length (tree_level k l))); [reflexivity|lia].
Qed.

Lemma fold_siblings l pos d : (pos < length l)%nat -> forall k,
  ComputeMerkleRootFromBranch (node l k (pos / 2 ^ k)) (map (fun j => sibling l j (pos / 2 ^ j)) (seq k d)) (Z.of_nat (pos / 2 ^ k))
  = node l (k + d) (pos / 2 ^ (k + d)).
Proof.
  intros Hpos. induction d as [|d IH]; intros k; [by rewrite Nat.add_0_r|].
  cbn [seq map ComputeMerkleRootFromBranch]. pose proof (position_lt l k pos Hpos) as Hk.
  rewrite shiftr_1_half, <- div_pow_S. replace (k + S d)%nat with (S k + d)%nat by lia. rewrite <- IH. f_equal.
  rewrite (node_below l k) by (by apply position_lt). rewrite div_pow_S, <- sibling_pair by done.
  by destruct (negb _).
Qed.

(** A branch that folds to the root starts at the leaf, or shows a collision. *)
Lemma fold_unique l pos P branch : (pos < length l)%nat -> incl (tree_pairs l) P -> forall k h,
  (k + length branch = depth l)%nat -> incl (branch_pairs h branch (Z.of_nat (pos / 2 ^ k))) P ->
  ComputeMerkleRootFromBranch h branch (Z.of_nat (pos / 2 ^ k)) = node l (depth l) (pos / 2 ^ depth l) ->
  h = node l k (pos / 2 ^ k) \/ collision P.
Proof.
  intros Hpos HP. induction branch as [|it branch IH]; intros k h Hk Hb Hr.
  { left. simpl in Hk. replace k with (depth l) by lia. exact Hr. }
  cbn [ComputeMerkleRootFromBranch branch_pairs length] in *. rewrite shiftr_1_half, <- div_pow_S in Hr, Hb.
  set (p := if negb _ then (it, h) else (h, it)) in *.
  replace (if negb _ then Hash2 it h else Hash2 h it) with (Hash2 p.1 p.2) in Hr by (subst p; by destruct (negb _)).
  apply incl_cons_inv in Hb as [Hp Hb].
  destruct (IH (S k) (Hash2 p.1 p.2)) as [H|H]; [lia|done|done| |by right].
  rewrite node_below in H by (by apply position_lt).
  destruct (same_pair P p _ Hp (HP _ (pair_below_in l k _ ltac:(lia) (position_lt l (S k) pos Hpos))) H) as [E|]; [left|by right].
  rewrite div_pow_S, <- sibling_pair in E by (by apply position_lt).
  subst p. destruct (negb _); congruence.
Qed.

(** ** Two trees with the same root *)

Lemma map_same_or_differ {A B} `{EqDecision A} (f : A -> B) x y :
  map f x = map f y -> x = y \/ exists p q, In p x /\ In q y /\ p <> q /\ f p = f q.
Proof.
  revert y. induction x as [|a x IH]; intros [|b y] H; try discriminate; [by left|].
  injection H as H1 H2. destruct (decide (a = b)) as [->|Hne].
  - destruct (IH y H2) as [->|(p & q & Hp & Hq & Hr)]; [by left|]. right. exists p, q. split; [by right|]. split; [by right|exact Hr].
  - right. exists a, b. split; [by left|]. split; [by left|]. exact (conj Hne H1).
Qed.

Lemma level_pairs_back P a b : incl (level_pairs a) P -> incl (level_pairs b) P ->
  next_level a = next_level b -> level_pairs a = level_pairs b \/ collision P.
Proof.
  intros Ha Hb H. rewrite !next_level_pairs in H. destruct (map_same_or_differ _ _ _ H) as [|(p & q & Hp & Hq & Hne & Hh)]; [by left|].
  destruct (same_pair P p q (Ha _ Hp) (Hb _ Hq) Hh) as [->|]; [destruct (Hne eq_refl)|by right].
Qed.

Lemma level_pairs_inj a b : level_pairs a = level_pairs b -> length a = length b -> a = b.
Proof.
  enough (H : forall n a b, (length a <= n)%nat -> level_pairs a = level_pairs b -> length a = length b -> a = b) by eauto.
  clear. induction n as [|n IH]; intros [|x [|x' a]] [|y [|y' b]] Hn Hp Hl; simpl in *; try lia; try discriminate; try reflexivity.
  - by injection Hp as ->.
  - injection Hp as -> -> Hp. rewrite (IH a b); [reflexivity|lia|exact Hp|lia].
Qed.

(** The longer of two levels with the same pairs ends in two equal hashes. *)
Lemma level_pairs_longer a b : level_pairs a = level_pairs b -> (length b < length a)%nat ->
  exists j, (length a = 2 * j + 2)%nat /\ nth (2 * j) a uint256_null = nth (2 * j + 1) a uint256_null.
Proof.
  intros Hp Hl. pose proof (f_equal length Hp) as Hlen. rewrite !length_level_pairs in Hlen.
  pose proof (Nat.div_mod (length a + 1) 2 ltac:(lia)) as D1. pose proof (Nat.div_mod (length b + 1) 2 ltac:(lia)) as D2.
  pose proof (Nat.mod_upper_bound (length a + 1) 2 ltac:(lia)). pose proof (Nat.mod_upper_bound (length b + 1) 2 ltac:(lia)).
  set (j := ((length a + 1) / 2 - 1)%nat). exists j. assert (length a = 2 * j + 2 /\ length b = 2 * j + 1)%nat as [Ea Eb] by lia.
  split; [done|]. set (d := (uint256_null, uint256_null)).
  pose proof (nth_level_pairs a j d ltac:(lia)) as Na. pose proof (nth_level_pairs b j d ltac:(lia)) as Nb.
  rewrite Hp, Nb in Na. destruct (Nat.ltb_spec (2 * j + 1) (length a)); [|lia].
  destruct (Nat.ltb_spec (2 * j + 1) (length b)); [lia|].
  exact (eq_trans (eq_sym (f_equal fst Na)) (f_equal snd Na)).
Qed.

(** A complete subtree that equals the incomplete last one has equal halves
    somewhere: the last one was filled up by duplication. *)
Lemma padded_twin l k : forall i i', (k <= depth l)%nat -> l <> [] ->
  ((i + 1) * 2 ^ k <= length l)%nat -> (i' < length (tree_level k l))%nat -> (length l < (i' + 1) * 2 ^ k)%nat ->
  node l k i = node l k i' -> duplicated l \/ collision (tree_pairs l).
Proof.
  induction k as [|k IH]; intros i i' Hk Hne Hi Hi' Hinc H.
  { simpl in *. lia. }
  rewrite Nat.pow_succ_r' in Hi, Hinc.
  assert (Hiw : (2 * i + 1 < length (tree_level k l))%nat) by (apply index_lt; [done|]; pose proof (Nat.pow_nonzero 2 k); nia).
  assert (Hiw' : (i < length (tree_level (S k) l))%nat).
  { destruct (Nat.even (length (tree_level k l))) eqn:E; [apply width_even in E|apply width_odd in E]; lia. }
  rewrite (node_below l k i), (node_below l k i') in H by done.
  destruct (same_pair (tree_pairs l) _ _ (pair_below_in l k i ltac:(lia) Hiw') (pair_below_in l k i' ltac:(lia) Hi') H) as [E|]; [|by right].
  unfold pair_below in E. destruct (Nat.ltb_spec (2 * i + 1) (length (tree_level k l))); [|lia].
  destruct (Nat.ltb_spec (2 * i' + 1) (length (tree_level k l))) as [Hi2|Hi2];
    pose proof (f_equal fst E) as E1; pose proof (f_equal snd E) as E2; cbn [fst snd] in E1, E2.
  - apply (IH (2 * i + 1) (2 * i' + 1))%nat; [lia|done|nia|done|nia|done].
  - left. exists k, i. split; [nia|]. by rewrite E1, E2.
Qed.

Lemma last_pair_equal l k j : (k < depth l)%nat -> l <> [] -> (length (tree_level k l) = 2 * j + 2)%nat ->
  node l k (2 * j) = node l k (2 * j + 1) -> duplicated l \/ collision (tree_pairs l).
Proof.
  intros Hk Hne Hw H. destruct (width_bounds l k Hne) as [[H1 _] _].
  destruct (le_lt_dec ((2 * j + 2) * 2 ^ k) (length l)) as [Hc|Hc].
  - left. by exists k, j.
  - apply (padded_twin l k (2 * j) (2 * j + 1)); [lia|done| |lia| |done].
    + replace (2 * j + 1)%nat with (length (tree_level k l) - 1)%nat by lia. lia.
    + replace (2 * j + 1 + 1)%nat with (2 * j + 2)%nat by lia. done.
Qed.

Lemma levels_equal_down l1 l2 : l1 <> [] -> l2 <> [] -> depth l1 = depth l2 -> merkle_root l1 = merkle_root l2 ->
  forall d k, (k + d = depth l1)%nat ->
  tree_level k l1 = tree_level k l2 \/ duplicated l1 \/ duplicated l2 \/ collision (tree_pairs l1 ++ tree_pairs l2).
Proof.
  intros H1 H2 Hd Hr. set (P := tree_pairs l1 ++ tree_pairs l2).
  assert (C1 : collision (tree_pairs l1) -> collision P) by (apply collision_mono, incl_appl, incl_refl).
  assert (C2 : collision (tree_pairs l2) -> collision P) by (apply collision_mono, incl_appr, incl_refl).
  induction d as [|d IH]; intros k Hk.
  - left. unfold merkle_root in Hr. rewrite <- Hd in Hr. replace k with (depth l1) by lia.
    pose proof (depth_width l1 H1) as W1. pose proof (depth_width l2 H2) as W2. rewrite <- Hd in W2.
    destruct (tree_level (depth l1) l1) as [|x [|]]; try discriminate.
    destruct (tree_level (depth l1) l2) as [|y [|]]; try discriminate. simpl in Hr. by rewrite Hr.
  - destruct (IH (S k)) as [E|?]; [lia| |by right]. cbn [tree_level] in E.
    destruct (level_pairs_back P _ _ (incl_appl _ (level_pairs_in l1 k ltac:(lia))) (incl_appr _ (level_pairs_in l2 k ltac:(lia))) E) as [Ep|]; [|by right; right; right].
    destruct (lt_eq_lt_dec (length (tree_level k l1)) (length (tree_level k l2))) as [[Hlt|Heq]|Hgt].
    + destruct (level_pairs_longer _ _ (eq_sym Ep) Hlt) as (j & Hj & Hn).
      destruct (last_pair_equal l2 k j ltac:(lia) H2 Hj Hn); [by right; right; left|right; right; right; by apply C2].
    + left. by apply level_pairs_inj.
    + destruct (level_pairs_longer _ _ Ep Hgt) as (j & Hj & Hn).
      destruct (last_pair_equal l1 k j ltac:(lia) H1 Hj Hn); [by right; left|right; right; right; by apply C1].
Qed.

Lemma ComputeMerkleRoot_spec l : zlen l < 2 ^ 31 ->
  exists m, ComputeMerkleRoot l = Ok (merkle_root l, m) /\ (m = true <-> duplicated l).
Proof.
  intros Hz. unfold ComputeMerkleRoot. destruct (decide (l = [])) as [->|Hne].
  - exists false. split; [reflexivity|]. split; [discriminate|].
    intros (k & j & Hk & _). pose proof (Nat.pow_nonzero 2 k). cbn in Hk. nia.
  - destruct (MerkleComputation_ok l false 0 (u32 (-1)) Hne Hz) as (m & b & -> & Hm & _); [discriminate|]. by exists m.
Qed.

(** * Theorems *)

(** C21: the merkle root.  For every list of fewer than 2^31 leaves the
    constant-space computation terminates inside its 32 levels, returns the
    root of the tree built level by level (an odd last hash paired with
    itself), and reports the list as mutated exactly when some level has two
    equal neighbours over complete subtrees. *)
Theorem ComputeMerkleRoot_correct l : zlen l < 2 ^ 31 ->
  exists m, ComputeMerkleRoot l = Ok (merkle_root l, m) /\ (m = true <-> duplicated l).
Proof. apply ComputeMerkleRoot_spec. Qed.

Definition example_leaves : list uint256 := map (fun z => repeat z 32) [1; 2; 3].

Lemma ComputeMerkleRoot_correct_witness :
  exists m, ComputeMerkleRoot (example_leaves ++ [repeat 3 32]) = Ok (merkle_root (example_leaves ++ [repeat 3 32]), m) /\
            (m = true <-> duplicated (example_leaves ++ [repeat 3 32])).
Proof. exact (ComputeMerkleRoot_correct (example_leaves ++ [repeat 3 32]) eq_refl). Defined.

(** merkle branches.  The branch computed for a leaf has one hash per
    level and folds back to the root; and any branch of that length which
    folds to the root from a value at that position starts from the very leaf,
    or exhibits two different pairs with the same hash among those hashed. *)
Theorem ComputeMerkleBranch_correct l pos : zlen l < 2 ^ 31 -> (pos < length l)%nat ->
  (exists branch, ComputeMerkleBranch l (Z.of_nat pos) = Ok branch /\ length branch = depth l /\
     ComputeMerkleRootFromBranch (nth pos l uint256_null) branch (Z.of_nat pos) = merkle_root l) /\
  (forall leaf branch, length branch = depth l ->
     ComputeMerkleRootFromBranch leaf branch (Z.of_nat pos) = merkle_root l ->
     leaf = nth pos l uint256_null \/ collision (branch_pairs leaf branch (Z.of_nat pos) ++ tree_pairs l)).
Proof.
  intros Hz Hpos. assert (Hne : l <> []) by (intros ->; simpl in Hpos; lia).
  assert (Htop : (pos / 2 ^ depth l = 0)%nat).
  { pose proof (position_lt l (depth l) pos Hpos) as H. rewrite depth_width in H by done. lia. }
  assert (Hbot : (pos / 2 ^ 0 = pos)%nat) by (rewrite Nat.pow_0_r; apply Nat.div_1_r). split.
  - destruct (MerkleComputation_ok l true pos (Z.of_nat pos) Hne Hz) as (m & b & Hr & _ & Hb); [done|].
    exists b. unfold ComputeMerkleBranch. rewrite Hr. rewrite (Hb eq_refl). split; [reflexivity|]. split.
    + unfold siblings. by rewrite length_map, length_seq.
    + pose proof (fold_siblings l pos (depth l) Hpos 0) as H. rewrite Hbot, Nat.add_0_l, Htop in H. exact H.
  - intros leaf branch Hl Hr.
    pose proof (fold_unique l pos (branch_pairs leaf branch (Z.of_nat pos) ++ tree_pairs l) branch Hpos
      (incl_appr _ (incl_refl _)) 0 leaf Hl) as H.
    rewrite Hbot, Htop in H. exact (H (incl_appl _ (incl_refl _)) Hr).
Qed.

Lemma ComputeMerkleBranch_correct_witness :
  exists branch, ComputeMerkleBranch example_leaves 2 = Ok branch /\
    ComputeMerkleRootFromBranch (repeat 3 32) branch 2 = merkle_root example_leaves.
Proof.
  destruct (ComputeMerkleBranch_correct example_leaves 2 eq_refl ltac:(simpl; lia)) as [(b & H1 & _ & H2) _].
  exact (ex_intro _ b (conj H1 H2)).
Defined.

(** C22: a root binds the leaves.  Two nonempty lists for which the computation
    gives the same root and reports no mutation, and whose trees have the same
    depth, are the same list, or two different pairs among those hashed in the
    two trees have the same hash.  (Without the mutation report this fails: a
    list with its last entries repeated has the root of the shorter one.) *)
Theorem ComputeMerkleRoot_binding l1 l2 r :
  l1 <> [] -> l2 <> [] -> zlen l1 < 2 ^ 31 -> zlen l2 < 2 ^ 31 -> depth l1 = depth l2 ->
  ComputeMerkleRoot l1 = Ok (r, false) -> ComputeMerkleRoot l2 = Ok (r, false) ->
  l1 = l2 \/ collision (tree_pairs l1 ++ tree_pairs l2).
Proof.
  intros H1 H2 Z1 Z2 Hd R1 R2. unfold ComputeMerkleRoot in *.
  destruct (MerkleComputation_ok l1 false 0 (u32 (-1)) H1 Z1) as (m1 & b1 & E1 & D1 & _); [discriminate|].
  destruct (MerkleComputation_ok l2 false 0 (u32 (-1)) H2 Z2) as (m2 & b2 & E2 & D2 & _); [discriminate|].
  rewrite E1 in R1. rewrite E2 in R2. cbn [mbind result_bind mret result_ret] in R1, R2.
  injection R1 as Hr1 ->. injection R2 as Hr2 ->.
  destruct (levels_equal_down l1 l2 H1 H2 Hd (eq_trans Hr1 (eq_sym Hr2)) (depth l1) 0 (Nat.add_0_l _)) as [H|[H|[H|H]]].
  - by left.
  - apply D1 in H. discriminate.
  - apply D2 in H. discriminate.
  - by right.
Qed.

Lemma ComputeMerkleRoot_binding_witness :
  exists r, ComputeMerkleRoot example_leaves = Ok (r, false) /\
    (example_leaves = map (fun z => repeat z 32) [1; 2; 3] \/
     collision (tree_pairs example_leaves ++ tree_pairs (map (fun z => repeat z 32) [1; 2; 3]))).
Proof.
  exists (merkle_root example_leaves).
  assert (H : ComputeMerkleRoot example_leaves = Ok (merkle_root example_leaves, false)) by (vm_compute; reflexivity).
  split; [exact H|].
  refine (ComputeMerkleRoot_binding example_leaves (map (fun z => repeat z 32) [1; 2; 3]) (merkle_root example_leaves) _ _ eq_refl eq_refl eq_refl H H); discriminate.
Defined.
