(* ===== verification/Interpreter.v ===== *)
(** * The script interpreter (interpreter.h, interpreter.cpp, script_error.h)

    [EvalScript] is the loop of the stack machine over the operations of a
    script, [VerifyScript] the verification of an input with the rules for
    script hashes and witness programs. The signature checker is a record of
    functions, as the class BaseSignatureChecker; the elliptic-curve test
    [CPubKey::CheckLowS] is a parameter. A stack is a list with its top first. *)
From S2P Require Import Prelude Crypto Script Transaction.

#[local] Opaque SHA256 SHA1 RIPEMD160 Hash160 Hash.

(** ** enum ScriptError

    [SCRIPT_ERR_OK] is the success of the outcome type [ScriptM] below. *)
Inductive ScriptError :=
  | SCRIPT_ERR_UNKNOWN_ERROR
  | SCRIPT_ERR_EVAL_FALSE
  | SCRIPT_ERR_OP_RETURN
  | SCRIPT_ERR_SCRIPT_SIZE
  | SCRIPT_ERR_PUSH_SIZE
  | SCRIPT_ERR_OP_COUNT
  | SCRIPT_ERR_STACK_SIZE
  | SCRIPT_ERR_SIG_COUNT
  | SCRIPT_ERR_PUBKEY_COUNT
  | SCRIPT_ERR_VERIFY
  | SCRIPT_ERR_EQUALVERIFY
  | SCRIPT_ERR_CHECKMULTISIGVERIFY
  | SCRIPT_ERR_CHECKSIGVERIFY
  | SCRIPT_ERR_NUMEQUALVERIFY
  | SCRIPT_ERR_BAD_OPCODE
  | SCRIPT_ERR_DISABLED_OPCODE
  | SCRIPT_ERR_INVALID_STACK_OPERATION
  | SCRIPT_ERR_INVALID_ALTSTACK_OPERATION
  | SCRIPT_ERR_UNBALANCED_CONDITIONAL
  | SCRIPT_ERR_NEGATIVE_LOCKTIME
  | SCRIPT_ERR_UNSATISFIED_LOCKTIME
  | SCRIPT_ERR_SIG_HASHTYPE
  | SCRIPT_ERR_SIG_DER
  | SCRIPT_ERR_MINIMALDATA
  | SCRIPT_ERR_SIG_PUSHONLY
  | SCRIPT_ERR_SIG_HIGH_S
  | SCRIPT_ERR_SIG_NULLDUMMY
  | SCRIPT_ERR_PUBKEYTYPE
  | SCRIPT_ERR_CLEANSTACK
  | SCRIPT_ERR_MINIMALIF
  | SCRIPT_ERR_SIG_NULLFAIL
  | SCRIPT_ERR_DISCOURAGE_UPGRADABLE_NOPS
  | SCRIPT_ERR_DISCOURAGE_UPGRADABLE_WITNESS_PROGRAM
  | SCRIPT_ERR_WITNESS_PROGRAM_WRONG_LENGTH
  | SCRIPT_ERR_WITNESS_PROGRAM_WITNESS_EMPTY
  | SCRIPT_ERR_WITNESS_PROGRAM_MISMATCH
  | SCRIPT_ERR_WITNESS_MALLEATED
  | SCRIPT_ERR_WITNESS_MALLEATED_P2SH
  | SCRIPT_ERR_WITNESS_UNEXPECTED
  | SCRIPT_ERR_WITNESS_PUBKEYTYPE.

(** The outcome of a function that returns a [bool] and sets [*serror]: an
    exception, [false] with the error ([inl]), or [true] ([inr]) with what the
    function leaves for its caller. *)
Definition ScriptM (A : Type) : Type := result (ScriptError + A).

#[export] Instance scriptm_ret : MRet ScriptM := fun A a => Ok (inr a).
#[export] Instance scriptm_bind : MBind ScriptM :=
  fun A B f m => match m with Ok (inr a) => f a | Ok (inl e) => Ok (inl e) | Throw e => Throw e end.

Definition set_error {A} (serror : ScriptError) : ScriptM A := Ok (inl serror).

(** A call that can throw but sets no error. *)
Definition lift {A} (r : result A) : ScriptM A :=
  match r with Ok a => Ok (inr a) | Throw e => Throw e end.

(** [if (b) return set_error(serror, e);]. *)
Definition fail_if (b : bool) (e : ScriptError) : ScriptM unit := if b then set_error e else mret tt.

(** ** Signature hash types and verification flags *)
Definition SIGHASH_ALL : Z := 1.
Definition SIGHASH_NONE : Z := 2.
Definition SIGHASH_SINGLE : Z := 3.
Definition SIGHASH_ANYONECANPAY : Z := 0x80.

Definition SCRIPT_VERIFY_NONE : Z := 0.
Definition SCRIPT_VERIFY_P2SH : Z := 2 ^ 0.
Definition SCRIPT_VERIFY_STRICTENC : Z := 2 ^ 1.
Definition SCRIPT_VERIFY_DERSIG : Z := 2 ^ 2.
Definition SCRIPT_VERIFY_LOW_S : Z := 2 ^ 3.
Definition SCRIPT_VERIFY_NULLDUMMY : Z := 2 ^ 4.
Definition SCRIPT_VERIFY_SIGPUSHONLY : Z := 2 ^ 5.
Definition SCRIPT_VERIFY_MINIMALDATA : Z := 2 ^ 6.
Definition SCRIPT_VERIFY_DISCOURAGE_UPGRADABLE_NOPS : Z := 2 ^ 7.
Definition SCRIPT_VERIFY_CLEANSTACK : Z := 2 ^ 8.
Definition SCRIPT_VERIFY_CHECKLOCKTIMEVERIFY : Z := 2 ^ 9.
Definition SCRIPT_VERIFY_CHECKSEQUENCEVERIFY : Z := 2 ^ 10.
Definition SCRIPT_VERIFY_WITNESS : Z := 2 ^ 11.
Definition SCRIPT_VERIFY_DISCOURAGE_UPGRADABLE_WITNESS_PROGRAM : Z := 2 ^ 12.
Definition SCRIPT_VERIFY_MINIMALIF : Z := 2 ^ 13.
Definition SCRIPT_VERIFY_NULLFAIL : Z := 2 ^ 14.
Definition SCRIPT_VERIFY_WITNESS_PUBKEYTYPE : Z := 2 ^ 15.

(** [flags & flag]. *)
Definition flag_on (flags flag : Z) : bool := negb (Z.land flags flag =? 0).

Inductive SigVersion := SIGVERSION_BASE | SIGVERSION_WITNESS_V0.

#[export] Instance SigVersion_eq_dec : EqDecision SigVersion.
Proof. solve_decision. Defined.

(** ** class BaseSignatureChecker *)
Record BaseSignatureChecker := mkSigChecker {
  CheckSig : bytes -> bytes -> CScript -> SigVersion -> result bool;
  CheckLockTime : Z -> bool;
  CheckSequence : Z -> bool;
}.

(** The methods of the base class. *)
Definition BaseSignatureChecker_default : BaseSignatureChecker :=
  mkSigChecker (fun _ _ _ _ => Ok false) (fun _ => false) (fun _ => false).

(** ** Values *)

(** Bytes [i], ... of the value. *)
Fixpoint CastToBool (vch : bytes) : bool :=
  match vch with
  | [] => false
  | b :: rest =>
      if negb (b =? 0) then negb ((zlen rest =? 0) && (b =? 0x80)) else CastToBool rest
  end.

Definition vchFalse : bytes := [].
Definition vchTrue : bytes := [1].
Definition vchBool (b : bool) : bytes := if b then vchTrue else vchFalse.

Definition out_of_range : Exn := logic_error "vector::_M_range_check".

(** [stacktop(-i)]. *)
Definition stacktop (stack : list bytes) (i : Z) : result bytes :=
  match stack !! Z.to_nat (i - 1) with
  | Some v => if 1 <=? i then Ok v else Throw out_of_range
  | None => Throw out_of_range
  end.

Definition IsCompressedOrUncompressedPubKey (vchPubKey : bytes) : bool :=
  if zlen vchPubKey <? 33 then false
  else if script_at vchPubKey 0 =? 0x04 then zlen vchPubKey =? 65
  else if (script_at vchPubKey 0 =? 0x02) || (script_at vchPubKey 0 =? 0x03) then zlen vchPubKey =? 33
  else false.

Definition IsCompressedPubKey (vchPubKey : bytes) : bool :=
  if negb (zlen vchPubKey =? 33) then false
  else if negb (script_at vchPubKey 0 =? 0x02) && negb (script_at vchPubKey 0 =? 0x03) then false
  else true.

Definition IsValidSignatureEncoding (sig : bytes) : bool :=
  let at_ i := script_at sig (Z.to_nat i) in
  if zlen sig <? 9 then false
  else if 73 <? zlen sig then false
  else if negb (at_ 0 =? 0x30) then false
  else if negb (at_ 1 =? zlen sig - 3) then false
  else
    let lenR := at_ 3 in
    if zlen sig <=? 5 + lenR then false
    else
      let lenS := at_ (5 + lenR) in
      if negb (lenR + lenS + 7 =? zlen sig) then false
      else if negb (at_ 2 =? 0x02) then false
      else if lenR =? 0 then false
      else if negb (Z.land (at_ 4) 0x80 =? 0) then false
      else if (1 <? lenR) && (at_ 4 =? 0x00) && (Z.land (at_ 5) 0x80 =? 0) then false
      else if negb (at_ (lenR + 4) =? 0x02) then false
      else if lenS =? 0 then false
      else if negb (Z.land (at_ (lenR + 6)) 0x80 =? 0) then false
      else if (1 <? lenS) && (at_ (lenR + 6) =? 0x00) && (Z.land (at_ (lenR + 7)) 0x80 =? 0) then false
      else true.

Definition IsDefinedHashtypeSignature (vchSig : bytes) : bool :=
  if zlen vchSig =? 0 then false
  else
    let nHashType := u8 (Z.land (vch_back vchSig) (Z.lnot SIGHASH_ANYONECANPAY)) in
    negb ((nHashType <? SIGHASH_ALL) || (SIGHASH_SINGLE <? nHashType)).

Definition CheckMinimalPush (data : bytes) (opcode : Z) : result bool :=
  assert_then ((0 <=? opcode) && (opcode <=? OP_PUSHDATA4)) "0 <= opcode && opcode <= OP_PUSHDATA4"
    (Ok (if zlen data =? 0 then opcode =? OP_0
         else if (zlen data =? 1) && (1 <=? script_at data 0) && (script_at data 0 <=? 16) then false
         else if (zlen data =? 1) && (script_at data 0 =? 0x81) then false
         else if zlen data <=? 75 then opcode =? zlen data
         else if zlen data <=? 255 then opcode =? OP_PUSHDATA1
         else if zlen data <=? 65535 then opcode =? OP_PUSHDATA2
         else true)).

(** ** EvalScript *)

Abbreviation Stack := (list bytes).

(** The locals of [EvalScript] that its loop updates. [pbegincodehash] is the
    part of the script from that iterator on. *)
Record EvalState := mkEvalState {
  stack : Stack;
  altstack : Stack;
  vfExec : list bool;
  nOpCount : Z;
  pbegincodehash : bytes;
}.

Definition set_stack (st : EvalState) (stk : Stack) : EvalState :=
  mkEvalState stk (altstack st) (vfExec st) (nOpCount st) (pbegincodehash st).
Definition set_vfExec (st : EvalState) (v : list bool) : EvalState :=
  mkEvalState (stack st) (altstack st) v (nOpCount st) (pbegincodehash st).

Definition disabled_opcode (opcode : Z) : bool :=
  (opcode =? OP_CAT) || (opcode =? OP_SUBSTR) || (opcode =? OP_LEFT) || (opcode =? OP_RIGHT) ||
  (opcode =? OP_INVERT) || (opcode =? OP_AND) || (opcode =? OP_OR) || (opcode =? OP_XOR) ||
  (opcode =? OP_2MUL) || (opcode =? OP_2DIV) || (opcode =? OP_MUL) || (opcode =? OP_DIV) ||
  (opcode =? OP_MOD) || (opcode =? OP_LSHIFT) || (opcode =? OP_RSHIFT).

Definition invalid_stack {A} : ScriptM A := set_error SCRIPT_ERR_INVALID_STACK_OPERATION.

(** The operations that only move stack elements; the comments of the source
    give the effect with the top on the right. *)
Definition stack_op (opcode : Z) (stk : Stack) : ScriptM Stack :=
  if opcode =? OP_2DROP then match stk with _ :: _ :: s => mret s | _ => invalid_stack end
  else if opcode =? OP_2DUP then match stk with x2 :: x1 :: s => mret (x2 :: x1 :: x2 :: x1 :: s) | _ => invalid_stack end
  else if opcode =? OP_3DUP then
    match stk with x3 :: x2 :: x1 :: s => mret (x3 :: x2 :: x1 :: x3 :: x2 :: x1 :: s) | _ => invalid_stack end
  else if opcode =? OP_2OVER then
    match stk with x4 :: x3 :: x2 :: x1 :: s => mret (x2 :: x1 :: x4 :: x3 :: x2 :: x1 :: s) | _ => invalid_stack end
  else if opcode =? OP_2ROT then
    match stk with
    | x6 :: x5 :: x4 :: x3 :: x2 :: x1 :: s => mret (x2 :: x1 :: x6 :: x5 :: x4 :: x3 :: s)
    | _ => invalid_stack
    end
  else if opcode =? OP_2SWAP then
    match stk with x4 :: x3 :: x2 :: x1 :: s => mret (x2 :: x1 :: x4 :: x3 :: s) | _ => invalid_stack end
  else if opcode =? OP_IFDUP then
    match stk with x :: s => mret (if CastToBool x then x :: x :: s else x :: s) | _ => invalid_stack end
  else if opcode =? OP_DEPTH then mret (scriptnum_serialize (zlen stk) :: stk)
  else if opcode =? OP_DROP then match stk with _ :: s => mret s | _ => invalid_stack end
  else if opcode =? OP_DUP then match stk with x :: s => mret (x :: x :: s) | _ => invalid_stack end
  else if opcode =? OP_NIP then match stk with x2 :: _ :: s => mret (x2 :: s) | _ => invalid_stack end
  else if opcode =? OP_OVER then match stk with x2 :: x1 :: s => mret (x1 :: x2 :: x1 :: s) | _ => invalid_stack end
  else if opcode =? OP_ROT then
    match stk with x3 :: x2 :: x1 :: s => mret (x1 :: x3 :: x2 :: s) | _ => invalid_stack end
  else if opcode =? OP_SWAP then match stk with x2 :: x1 :: s => mret (x1 :: x2 :: s) | _ => invalid_stack end
  else if opcode =? OP_TUCK then match stk with x2 :: x1 :: s => mret (x2 :: x1 :: x2 :: s) | _ => invalid_stack end
  else (* OP_SIZE *)
    match stk with x :: s => mret (scriptnum_serialize (zlen x) :: x :: s) | _ => invalid_stack end.

(** [bn] of the unary numeric operations. *)
Definition unary_num (opcode bn : Z) : result Z :=
  if opcode =? OP_1ADD then scriptnum_add_assign bn 1
  else if opcode =? OP_1SUB then scriptnum_sub_assign bn 1
  else if opcode =? OP_NEGATE then scriptnum_neg bn
  else if opcode =? OP_ABS then if bn <? 0 then scriptnum_neg bn else Ok bn
  else if opcode =? OP_NOT then Ok (Z.b2z (bn =? 0))
  else (* OP_0NOTEQUAL *) Ok (Z.b2z (negb (bn =? 0))).

(** [bn] of the binary numeric operations. *)
Definition binary_num (opcode bn1 bn2 : Z) : Z :=
  if opcode =? OP_ADD then scriptnum_add bn1 bn2
  else if opcode =? OP_SUB then scriptnum_sub bn1 bn2
  else if opcode =? OP_BOOLAND then Z.b2z (negb (bn1 =? 0) && negb (bn2 =? 0))
  else if opcode =? OP_BOOLOR then Z.b2z (negb (bn1 =? 0) || negb (bn2 =? 0))
  else if opcode =? OP_NUMEQUAL then Z.b2z (bn1 =? bn2)
  else if opcode =? OP_NUMEQUALVERIFY then Z.b2z (bn1 =? bn2)
  else if opcode =? OP_NUMNOTEQUAL then Z.b2z (negb (bn1 =? bn2))
  else if opcode =? OP_LESSTHAN then Z.b2z (bn1 <? bn2)
  else if opcode =? OP_GREATERTHAN then Z.b2z (bn2 <? bn1)
  else if opcode =? OP_LESSTHANOREQUAL then Z.b2z (bn1 <=? bn2)
  else if opcode =? OP_GREATERTHANOREQUAL then Z.b2z (bn2 <=? bn1)
  else if opcode =? OP_MIN then (if bn1 <? bn2 then bn1 else bn2)
  else (* OP_MAX *) (if bn2 <? bn1 then bn1 else bn2).

Definition hash_op (opcode : Z) (vch : bytes) : bytes :=
  if opcode =? OP_RIPEMD160 then RIPEMD160 vch
  else if opcode =? OP_SHA1 then SHA1 vch
  else if opcode =? OP_SHA256 then SHA256 vch
  else if opcode =? OP_HASH160 then Hash160 vch
  else (* OP_HASH256 *) Hash vch.

Section EvalScript.
Context (CheckLowS : bytes -> bool).

Definition IsLowDERSignature (vchSig : bytes) : ScriptM unit :=
  if negb (IsValidSignatureEncoding vchSig) then set_error SCRIPT_ERR_SIG_DER
  else if negb (CheckLowS (removelast vchSig)) then set_error SCRIPT_ERR_SIG_HIGH_S
  else mret tt.

Definition CheckSignatureEncoding (vchSig : bytes) (flags : Z) : ScriptM unit :=
  if zlen vchSig =? 0 then mret tt
  else if flag_on flags (Z.lor (Z.lor SCRIPT_VERIFY_DERSIG SCRIPT_VERIFY_LOW_S) SCRIPT_VERIFY_STRICTENC) &&
          negb (IsValidSignatureEncoding vchSig) then set_error SCRIPT_ERR_SIG_DER
  else
    _ ← (if flag_on flags SCRIPT_VERIFY_LOW_S then IsLowDERSignature vchSig else mret tt);
    fail_if (flag_on flags SCRIPT_VERIFY_STRICTENC && negb (IsDefinedHashtypeSignature vchSig)) SCRIPT_ERR_SIG_HASHTYPE.

Definition CheckPubKeyEncoding (vchPubKey : bytes) (flags : Z) (sigversion : SigVersion) : ScriptM unit :=
  if flag_on flags SCRIPT_VERIFY_STRICTENC && negb (IsCompressedOrUncompressedPubKey vchPubKey)
  then set_error SCRIPT_ERR_PUBKEYTYPE
  else fail_if (flag_on flags SCRIPT_VERIFY_WITNESS_PUBKEYTYPE && bool_decide (sigversion = SIGVERSION_WITNESS_V0) &&
                negb (IsCompressedPubKey vchPubKey)) SCRIPT_ERR_WITNESS_PUBKEYTYPE.

Context (flags : Z) (checker : BaseSignatureChecker) (sigversion : SigVersion).

Abbreviation flag F := (flag_on flags F).

Definition fRequireMinimal : bool := flag SCRIPT_VERIFY_MINIMALDATA.

(** A numeric argument from the stack; [CScriptNum(stacktop(-i), fRequireMinimal)]. *)
Definition num_arg (vch : bytes) (nMaxNumSize : Z) : ScriptM Z := lift (CScriptNum vch fRequireMinimal nMaxNumSize).

(** OP_CHECKLOCKTIMEVERIFY and OP_CHECKSEQUENCEVERIFY. *)
Definition locktime_op (stk : Stack) : ScriptM unit :=
  if negb (flag SCRIPT_VERIFY_CHECKLOCKTIMEVERIFY) then mret tt
  else match stk with
       | [] => invalid_stack
       | x :: _ =>
           nLockTime ← num_arg x 5;
           _ ← fail_if (nLockTime <? 0) SCRIPT_ERR_NEGATIVE_LOCKTIME;
           fail_if (negb (CheckLockTime checker nLockTime)) SCRIPT_ERR_UNSATISFIED_LOCKTIME
       end.

Definition sequence_op (stk : Stack) : ScriptM unit :=
  if negb (flag SCRIPT_VERIFY_CHECKSEQUENCEVERIFY) then mret tt
  else match stk with
       | [] => invalid_stack
       | x :: _ =>
           nSequence ← num_arg x 5;
           _ ← fail_if (nSequence <? 0) SCRIPT_ERR_NEGATIVE_LOCKTIME;
           if negb (Z.land nSequence SEQUENCE_LOCKTIME_DISABLE_FLAG =? 0) then mret tt
           else fail_if (negb (CheckSequence checker nSequence)) SCRIPT_ERR_UNSATISFIED_LOCKTIME
       end.

(** OP_IF and OP_NOTIF: the value pushed on [vfExec] and the stack. *)
Definition if_op (opcode : Z) (fExec : bool) (stk : Stack) : ScriptM (bool * Stack) :=
  if fExec then
    match stk with
    | [] => set_error SCRIPT_ERR_UNBALANCED_CONDITIONAL
    | vch :: s =>
        _ ← fail_if (bool_decide (sigversion = SIGVERSION_WITNESS_V0) && flag SCRIPT_VERIFY_MINIMALIF &&
                     ((1 <? zlen vch) || ((zlen vch =? 1) && negb (script_at vch 0 =? 1)))) SCRIPT_ERR_MINIMALIF;
        mret (if opcode =? OP_NOTIF then negb (CastToBool vch) else CastToBool vch, s)
    end
  else mret (false, stk).

(** OP_PICK and OP_ROLL. *)
Definition pick_op (opcode : Z) (stk : Stack) : ScriptM Stack :=
  match stk with
  | x :: _ :: _ =>
      bn ← num_arg x nDefaultMaxNumSize;
      let n := getint bn in
      let stk := tail stk in
      if (n <? 0) || (i32 (zlen stk) <=? n) then invalid_stack
      else
        vch ← lift (stacktop stk (n + 1));
        mret (vch :: (if opcode =? OP_ROLL then delete (Z.to_nat n) stk else stk))
  | _ => invalid_stack
  end.

(** [VERIFY] variants: drop the [true] just pushed, or fail. *)
Definition verify_top (b : bool) (e : ScriptError) (s : Stack) : ScriptM Stack :=
  if b then mret s else set_error e.

Definition equal_op (opcode : Z) (stk : Stack) : ScriptM Stack :=
  match stk with
  | vch2 :: vch1 :: s =>
      let fEqual := bool_decide (vch1 = vch2) in
      if opcode =? OP_EQUALVERIFY then verify_top fEqual SCRIPT_ERR_EQUALVERIFY s
      else mret (vchBool fEqual :: s)
  | _ => invalid_stack
  end.

Definition unary_op (opcode : Z) (stk : Stack) : ScriptM Stack :=
  match stk with
  | x :: s =>
      bn ← num_arg x nDefaultMaxNumSize;
      bn ← lift (unary_num opcode bn);
      mret (scriptnum_serialize bn :: s)
  | _ => invalid_stack
  end.

Definition binary_op (opcode : Z) (stk : Stack) : ScriptM Stack :=
  match stk with
  | x2 :: x1 :: s =>
      bn1 ← num_arg x1 nDefaultMaxNumSize;
      bn2 ← num_arg x2 nDefaultMaxNumSize;
      let v := scriptnum_serialize (binary_num opcode bn1 bn2) in
      if opcode =? OP_NUMEQUALVERIFY then verify_top (CastToBool v) SCRIPT_ERR_NUMEQUALVERIFY s
      else mret (v :: s)
  | _ => invalid_stack
  end.

Definition within_op (stk : Stack) : ScriptM Stack :=
  match stk with
  | x3 :: x2 :: x1 :: s =>
      bn1 ← num_arg x1 nDefaultMaxNumSize;
      bn2 ← num_arg x2 nDefaultMaxNumSize;
      bn3 ← num_arg x3 nDefaultMaxNumSize;
      mret (vchBool ((bn2 <=? bn1) && (bn1 <? bn3)) :: s)
  | _ => invalid_stack
  end.

(** OP_CHECKSIG and OP_CHECKSIGVERIFY. *)
Definition checksig_op (opcode : Z) (codehash : bytes) (stk : Stack) : ScriptM Stack :=
  match stk with
  | vchPubKey :: vchSig :: s =>
      let scriptCode := if bool_decide (sigversion = SIGVERSION_BASE)
                        then fst (FindAndDelete codehash (push_vch vchSig [])) else codehash in
      _ ← CheckSignatureEncoding vchSig flags;
      _ ← CheckPubKeyEncoding vchPubKey flags sigversion;
      fSuccess ← lift (CheckSig checker vchSig vchPubKey scriptCode sigversion);
      _ ← fail_if (negb fSuccess && flag SCRIPT_VERIFY_NULLFAIL && negb (zlen vchSig =? 0)) SCRIPT_ERR_SIG_NULLFAIL;
      if opcode =? OP_CHECKSIGVERIFY then verify_top fSuccess SCRIPT_ERR_CHECKSIGVERIFY s
      else mret (vchBool fSuccess :: s)
  | _ => invalid_stack
  end.

(** The loop that drops the signatures from [scriptCode]: [k] to go, from [isig] on. *)
Fixpoint multisig_code (stk : Stack) (isig : Z) (k : nat) (scriptCode : CScript) : ScriptM CScript :=
  match k with
  | O => mret scriptCode
  | S k =>
      vchSig ← lift (stacktop stk isig);
      multisig_code stk (isig + 1) k
        (if bool_decide (sigversion = SIGVERSION_BASE)
         then fst (FindAndDelete scriptCode (push_vch vchSig [])) else scriptCode)
  end.

(** [while (fSuccess && nSigsCount > 0)], which uses up a key each time. *)
Fixpoint multisig_loop (stk : Stack) (scriptCode : CScript) (nKeysCount : nat) (nSigsCount isig ikey : Z) : ScriptM bool :=
  if negb (0 <? nSigsCount) then mret true
  else match nKeysCount with
       | O => mret false
       | S nKeysCount =>
           vchSig ← lift (stacktop stk isig);
           vchPubKey ← lift (stacktop stk ikey);
           _ ← CheckSignatureEncoding vchSig flags;
           _ ← CheckPubKeyEncoding vchPubKey flags sigversion;
           fOk ← lift (CheckSig checker vchSig vchPubKey scriptCode sigversion);
           let isig := if fOk : bool then isig + 1 else isig in
           let nSigsCount := if fOk then nSigsCount - 1 else nSigsCount in
           if Z.of_nat nKeysCount <? nSigsCount then mret false
           else multisig_loop stk scriptCode nKeysCount nSigsCount isig (ikey + 1)
       end.

(** [while (i-- > 1)]: drop [n] arguments. *)
Fixpoint multisig_clean (fSuccess : bool) (n : nat) (ikey2 : Z) (stk : Stack) : ScriptM Stack :=
  match n with
  | O => mret stk
  | S n =>
      match stk with
      | [] => Throw (runtime_error "popstack(): stack empty")
      | x :: s =>
          _ ← fail_if (negb fSuccess && flag SCRIPT_VERIFY_NULLFAIL && (ikey2 =? 0) && negb (zlen x =? 0)) SCRIPT_ERR_SIG_NULLFAIL;
          multisig_clean fSuccess n (if 0 <? ikey2 then ikey2 - 1 else ikey2) s
      end
  end.

(** OP_CHECKMULTISIG and OP_CHECKMULTISIGVERIFY: the new [nOpCount] and stack. *)
Definition checkmultisig_op (opcode : Z) (codehash : bytes) (nOpCount : Z) (stk : Stack) : ScriptM (Z * Stack) :=
  let size := i32 (zlen stk) in
  let i := 1 in
  if size <? i then invalid_stack
  else
    x ← lift (stacktop stk i);
    bn ← num_arg x nDefaultMaxNumSize;
    let nKeysCount := getint bn in
    _ ← fail_if ((nKeysCount <? 0) || (MAX_PUBKEYS_PER_MULTISIG <? nKeysCount)) SCRIPT_ERR_PUBKEY_COUNT;
    let nOpCount := nOpCount + nKeysCount in
    _ ← fail_if (MAX_OPS_PER_SCRIPT <? nOpCount) SCRIPT_ERR_OP_COUNT;
    let ikey := i + 1 in
    let ikey2 := nKeysCount + 2 in
    let i := ikey + nKeysCount in
    if size <? i then invalid_stack
    else
      x ← lift (stacktop stk i);
      bn ← num_arg x nDefaultMaxNumSize;
      let nSigsCount := getint bn in
      _ ← fail_if ((nSigsCount <? 0) || (nKeysCount <? nSigsCount)) SCRIPT_ERR_SIG_COUNT;
      let isig := i + 1 in
      let i := isig + nSigsCount in
      if size <? i then invalid_stack
      else
        scriptCode ← multisig_code stk isig (Z.to_nat nSigsCount) codehash;
        fSuccess ← multisig_loop stk scriptCode (Z.to_nat nKeysCount) nSigsCount isig ikey;
        stk ← multisig_clean fSuccess (Z.to_nat (i - 1)) ikey2 stk;
        match stk with
        | [] => invalid_stack
        | dummy :: s =>
            _ ← fail_if (flag SCRIPT_VERIFY_NULLDUMMY && negb (zlen dummy =? 0)) SCRIPT_ERR_SIG_NULLDUMMY;
            s ← (if opcode =? OP_CHECKMULTISIGVERIFY then verify_top fSuccess SCRIPT_ERR_CHECKMULTISIGVERIFY s
                 else mret (vchBool fSuccess :: s));
            mret (nOpCount, s)
        end.

(** Which group of cases of the [switch] an opcode belongs to. *)
Definition is_number_op (opcode : Z) : bool := (opcode =? OP_1NEGATE) || ((OP_1 <=? opcode) && (opcode <=? OP_16)).
Definition is_upgradable_nop (opcode : Z) : bool :=
  (opcode =? OP_NOP1) || ((OP_NOP4 <=? opcode) && (opcode <=? OP_NOP10)).
Definition is_stack_op (opcode : Z) : bool :=
  ((OP_2DROP <=? opcode) && (opcode <=? OP_OVER)) || ((OP_ROT <=? opcode) && (opcode <=? OP_TUCK)) || (opcode =? OP_SIZE).
Definition is_unary_op (opcode : Z) : bool :=
  (opcode =? OP_1ADD) || (opcode =? OP_1SUB) || ((OP_NEGATE <=? opcode) && (opcode <=? OP_0NOTEQUAL)).
Definition is_binary_op (opcode : Z) : bool :=
  (opcode =? OP_ADD) || (opcode =? OP_SUB) || ((OP_BOOLAND <=? opcode) && (opcode <=? OP_MAX)).
Definition is_hash_op (opcode : Z) : bool := (OP_RIPEMD160 <=? opcode) && (opcode <=? OP_HASH256).

(** [switch (opcode)]. *)
Definition exec_op (opcode : Z) (fExec : bool) (pc : bytes) (st : EvalState) : ScriptM EvalState :=
  let stk := stack st in
  if is_number_op opcode then mret (set_stack st (scriptnum_serialize (opcode - (OP_1 - 1)) :: stk))
  else if opcode =? OP_NOP then mret st
  else if opcode =? OP_CHECKLOCKTIMEVERIFY then (_ ← locktime_op stk; mret st)
  else if opcode =? OP_CHECKSEQUENCEVERIFY then (_ ← sequence_op stk; mret st)
  else if is_upgradable_nop opcode then
    (_ ← fail_if (flag SCRIPT_VERIFY_DISCOURAGE_UPGRADABLE_NOPS) SCRIPT_ERR_DISCOURAGE_UPGRADABLE_NOPS; mret st)
  else if (opcode =? OP_IF) || (opcode =? OP_NOTIF) then
    ('(fValue, s) ← if_op opcode fExec stk; mret (set_vfExec (set_stack st s) (fValue :: vfExec st)))
  else if opcode =? OP_ELSE then
    match vfExec st with
    | [] => set_error SCRIPT_ERR_UNBALANCED_CONDITIONAL
    | b :: v => mret (set_vfExec st (negb b :: v))
    end
  else if opcode =? OP_ENDIF then
    match vfExec st with
    | [] => set_error SCRIPT_ERR_UNBALANCED_CONDITIONAL
    | _ :: v => mret (set_vfExec st v)
    end
  else if opcode =? OP_VERIFY then
    match stk with
    | [] => invalid_stack
    | x :: s => s ← verify_top (CastToBool x) SCRIPT_ERR_VERIFY s; mret (set_stack st s)
    end
  else if opcode =? OP_RETURN then set_error SCRIPT_ERR_OP_RETURN
  else if opcode =? OP_TOALTSTACK then
    match stk with
    | [] => invalid_stack
    | x :: s => mret (mkEvalState s (x :: altstack st) (vfExec st) (nOpCount st) (pbegincodehash st))
    end
  else if opcode =? OP_FROMALTSTACK then
    match altstack st with
    | [] => set_error SCRIPT_ERR_INVALID_ALTSTACK_OPERATION
    | x :: a => mret (mkEvalState (x :: stk) a (vfExec st) (nOpCount st) (pbegincodehash st))
    end
  else if is_stack_op opcode then (s ← stack_op opcode stk; mret (set_stack st s))
  else if (opcode =? OP_PICK) || (opcode =? OP_ROLL) then (s ← pick_op opcode stk; mret (set_stack st s))
  else if (opcode =? OP_EQUAL) || (opcode =? OP_EQUALVERIFY) then (s ← equal_op opcode stk; mret (set_stack st s))
  else if is_unary_op opcode then (s ← unary_op opcode stk; mret (set_stack st s))
  else if is_binary_op opcode then (s ← binary_op opcode stk; mret (set_stack st s))
  else if opcode =? OP_WITHIN then (s ← within_op stk; mret (set_stack st s))
  else if is_hash_op opcode then
    match stk with
    | [] => invalid_stack
    | x :: s => mret (set_stack st (hash_op opcode x :: s))
    end
  else if opcode =? OP_CODESEPARATOR then mret (mkEvalState stk (altstack st) (vfExec st) (nOpCount st) pc)
  else if (opcode =? OP_CHECKSIG) || (opcode =? OP_CHECKSIGVERIFY) then
    (s ← checksig_op opcode (pbegincodehash st) stk; mret (set_stack st s))
  else if (opcode =? OP_CHECKMULTISIG) || (opcode =? OP_CHECKMULTISIGVERIFY) then
    ('(n, s) ← checkmultisig_op opcode (pbegincodehash st) (nOpCount st) stk;
     mret (mkEvalState s (altstack st) (vfExec st) n (pbegincodehash st)))
  else set_error SCRIPT_ERR_BAD_OPCODE.

(** One iteration of the loop, after [GetOp]. *)
Definition eval_step (opcode : Z) (vchPushValue pc : bytes) (st : EvalState) : ScriptM EvalState :=
  let fExec := forallb (fun b => b) (vfExec st) in
  _ ← fail_if (MAX_SCRIPT_ELEMENT_SIZE <? zlen vchPushValue) SCRIPT_ERR_PUSH_SIZE;
  let nOps := if OP_16 <? opcode then nOpCount st + 1 else nOpCount st in
  _ ← fail_if ((OP_16 <? opcode) && (MAX_OPS_PER_SCRIPT <? nOps)) SCRIPT_ERR_OP_COUNT;
  let st := mkEvalState (stack st) (altstack st) (vfExec st) nOps (pbegincodehash st) in
  _ ← fail_if (disabled_opcode opcode) SCRIPT_ERR_DISABLED_OPCODE;
  st ← (if fExec && (0 <=? opcode) && (opcode <=? OP_PUSHDATA4) then
          (minimal ← (if fRequireMinimal then lift (CheckMinimalPush vchPushValue opcode) else mret true);
           _ ← fail_if (negb minimal) SCRIPT_ERR_MINIMALDATA;
           mret (set_stack st (vchPushValue :: stack st)))
        else if fExec || ((OP_IF <=? opcode) && (opcode <=? OP_ENDIF)) then exec_op opcode fExec pc st
        else mret st);
  _ ← fail_if (MAX_STACK_SIZE <? zlen (stack st) + zlen (altstack st)) SCRIPT_ERR_STACK_SIZE;
  mret st.

(** The body of the loop for [op_run]: leave with an error, or go on. *)
Definition eval_body (opcode : Z) (vchPushValue pc : bytes) (st : EvalState) : ScriptM Stack + EvalState :=
  match eval_step opcode vchPushValue pc st with
  | Ok (inr st) => inr st
  | Ok (inl e) => inl (set_error e)
  | Throw e => inl (Throw e)
  end.

(** After the loop. *)
Definition eval_end (st : EvalState) : ScriptM Stack :=
  match vfExec st with [] => mret (stack st) | _ => set_error SCRIPT_ERR_UNBALANCED_CONDITIONAL end.

(** [catch (...)]: every exception, but not a failed [assert]. *)
Definition catch_all {A} (r : ScriptM A) : ScriptM A :=
  match r with
  | Throw (assert_failed msg) => Throw (assert_failed msg)
  | Throw _ => set_error SCRIPT_ERR_UNKNOWN_ERROR
  | _ => r
  end.

(** The [try] block, and the check at the end, which throws nothing. *)
Definition eval_try (stk : Stack) (script : CScript) : ScriptM Stack :=
  op_run eval_body (fun _ => set_error SCRIPT_ERR_BAD_OPCODE) eval_end script (mkEvalState stk [] [] 0 script).

Definition EvalScript (stk : Stack) (script : CScript) : ScriptM Stack :=
  if MAX_SCRIPT_SIZE <? zlen script then set_error SCRIPT_ERR_SCRIPT_SIZE
  else catch_all (eval_try stk script).
End EvalScript.

(** ** VerifyScript *)

Section VerifyScript.
Context (CheckLowS : bytes -> bool) (flags : Z) (checker : BaseSignatureChecker).
Abbreviation flag F := (flag_on flags F).

(** The script and the initial stack (top first) a witness stands for; [None]
    when a later version makes the program succeed. *)
Definition witness_script (witness : list bytes) (witversion : Z) (program : bytes) : ScriptM (option (CScript * Stack)) :=
  if witversion =? 0 then
    if zlen program =? 32 then
      match rev witness with
      | [] => set_error SCRIPT_ERR_WITNESS_PROGRAM_WITNESS_EMPTY
      | script :: stk =>
          if bool_decide (SHA256 script = program) then mret (Some (script, stk))
          else set_error SCRIPT_ERR_WITNESS_PROGRAM_MISMATCH
      end
    else if zlen program =? 20 then
      if negb (zlen witness =? 2) then set_error SCRIPT_ERR_WITNESS_PROGRAM_MISMATCH
      else
        s ← lift (push_opcode OP_DUP []);
        s ← lift (push_opcode OP_HASH160 s);
        s ← lift (push_opcode OP_EQUALVERIFY (push_vch program s));
        s ← lift (push_opcode OP_CHECKSIG s);
        mret (Some (s, rev witness))
    else set_error SCRIPT_ERR_WITNESS_PROGRAM_WRONG_LENGTH
  else if flag SCRIPT_VERIFY_DISCOURAGE_UPGRADABLE_WITNESS_PROGRAM
  then set_error SCRIPT_ERR_DISCOURAGE_UPGRADABLE_WITNESS_PROGRAM
  else mret None.

Definition VerifyWitnessProgram (witness : list bytes) (witversion : Z) (program : bytes) : ScriptM unit :=
  o ← witness_script witness witversion program;
  match o with
  | None => mret tt
  | Some (scriptPubKey, stk) =>
      _ ← fail_if (existsb (fun v => MAX_SCRIPT_ELEMENT_SIZE <? zlen v) stk) SCRIPT_ERR_PUSH_SIZE;
      stk ← EvalScript CheckLowS flags checker SIGVERSION_WITNESS_V0 stk scriptPubKey;
      match stk with
      | [x] => fail_if (negb (CastToBool x)) SCRIPT_ERR_EVAL_FALSE
      | _ => set_error SCRIPT_ERR_EVAL_FALSE
      end
  end.

(** The top of the stack must be there and true. *)
Definition require_true (stk : Stack) : ScriptM unit :=
  match stk with
  | [] => set_error SCRIPT_ERR_EVAL_FALSE
  | x :: _ => fail_if (negb (CastToBool x)) SCRIPT_ERR_EVAL_FALSE
  end.

(** [stack.resize(1)] keeps the bottom. *)
Definition resize_1 (stk : Stack) : Stack := [List.last stk []].

(** A witness program in [script]: [hadWitness] and the stack after it. *)
Definition verify_program (script : CScript) (exact_sig : bool) (malleated : ScriptError) (witness : list bytes)
    (hadWitness : bool) (stk : Stack) : ScriptM (bool * Stack) :=
  if flag SCRIPT_VERIFY_WITNESS then
    match IsWitnessProgram script with
    | Some (witnessversion, witnessprogram) =>
        _ ← fail_if (negb exact_sig) malleated;
        _ ← VerifyWitnessProgram witness witnessversion witnessprogram;
        mret (true, resize_1 stk)
    | None => mret (hadWitness, stk)
    end
  else mret (hadWitness, stk).

(** The evaluation of the script a script hash stands for, on the stack that
    [scriptSig] left. *)
Definition verify_p2sh (scriptSig : CScript) (witness : list bytes) (hadWitness : bool) (stackCopy : Stack)
    : ScriptM (bool * Stack) :=
  _ ← fail_if (negb (IsPushOnly scriptSig)) SCRIPT_ERR_SIG_PUSHONLY;
  match stackCopy with
  | [] => Throw (assert_failed "!stack.empty()")
  | pubKey2 :: stk =>
      stk ← EvalScript CheckLowS flags checker SIGVERSION_BASE stk pubKey2;
      _ ← require_true stk;
      verify_program pubKey2 (bool_decide (scriptSig = push_vch pubKey2 [])) SCRIPT_ERR_WITNESS_MALLEATED_P2SH
        witness hadWitness stk
  end.

Definition VerifyScript (scriptSig scriptPubKey : CScript) (witness : list bytes) : ScriptM unit :=
  _ ← fail_if (flag SCRIPT_VERIFY_SIGPUSHONLY && negb (IsPushOnly scriptSig)) SCRIPT_ERR_SIG_PUSHONLY;
  stk ← EvalScript CheckLowS flags checker SIGVERSION_BASE [] scriptSig;
  let stackCopy := if flag SCRIPT_VERIFY_P2SH then stk else [] in
  stk ← EvalScript CheckLowS flags checker SIGVERSION_BASE stk scriptPubKey;
  _ ← require_true stk;
  '(hadWitness, stk) ← verify_program scriptPubKey (zlen scriptSig =? 0) SCRIPT_ERR_WITNESS_MALLEATED witness false stk;
  '(hadWitness, stk) ← (if flag SCRIPT_VERIFY_P2SH && IsPayToScriptHash scriptPubKey
                        then verify_p2sh scriptSig witness hadWitness stackCopy else mret (hadWitness, stk));
  _ ← (if flag SCRIPT_VERIFY_CLEANSTACK then
         lift (assert_then (flag SCRIPT_VERIFY_P2SH) "(flags & SCRIPT_VERIFY_P2SH) != 0"
                (assert_then (flag SCRIPT_VERIFY_WITNESS) "(flags & SCRIPT_VERIFY_WITNESS) != 0" (Ok tt)))
         ≫= fun _ => fail_if (negb (zlen stk =? 1)) SCRIPT_ERR_CLEANSTACK
       else mret tt);
  (if flag SCRIPT_VERIFY_WITNESS then
     lift (assert_then (flag SCRIPT_VERIFY_P2SH) "(flags & SCRIPT_VERIFY_P2SH) != 0" (Ok tt))
     ≫= fun _ => fail_if (negb hadWitness && negb (CScriptWitness_IsNull witness)) SCRIPT_ERR_WITNESS_UNEXPECTED
   else mret tt).
End VerifyScript.

(** ** Counting signature operations of witnesses *)

Definition WitnessSigOps (witversion : Z) (witprogram : bytes) (witness : list bytes) : Z :=
  if witversion =? 0 then
    if zlen witprogram =? 20 then 1
    else if (zlen witprogram =? 32) && (0 <? zlen witness) then GetSigOpCount (List.last witness []) true
    else 0
  else 0.

(** The data of the last push of a push-only script. *)
Definition last_push (scriptSig : CScript) : bytes :=
  op_run (fun _ data _ _ => inr data) (fun data => data) (fun data => data) scriptSig [].

Definition CountWitnessSigOps (scriptSig scriptPubKey : CScript) (witness : list bytes) (flags : Z) : result Z :=
  if negb (flag_on flags SCRIPT_VERIFY_WITNESS) then Ok 0
  else
    assert_then (flag_on flags SCRIPT_VERIFY_P2SH) "(flags & SCRIPT_VERIFY_P2SH) != 0"
      (Ok match IsWitnessProgram scriptPubKey with
          | Some (v, p) => WitnessSigOps v p witness
          | None =>
              if IsPayToScriptHash scriptPubKey && IsPushOnly scriptSig then
                match IsWitnessProgram (last_push scriptSig) with
                | Some (v, p) => WitnessSigOps v p witness
                | None => 0
                end
              else 0
          end).
