(* ===== verification/InterpreterSafety.v ===== *)
(** * Safety of the script interpreter

    Every script on every stack runs to a result: no failed [assert], no access
    outside of the stacks, and the limits on elements, operations and stack size
    hold throughout. *)
From S2P Require Import Prelude Crypto Script Transaction Interpreter.

#[local] Opaque SHA256 SHA1 RIPEMD160 Hash160 Hash.

(** ** Outcomes

    What an operation of the interpreter may do: succeed with a value in [Q],
    fail with a script error, or throw the exception of the script number
    constructor, the only one left to the handler of [EvalScript]. *)
Definition post {A} (r : ScriptM A) (Q : A -> Prop) : Prop :=
  match r with
  | Ok (inr a) => Q a
  | Ok (inl _) => True
  | Throw e => exists msg, e = scriptnum_error msg
  end.

Lemma post_bind {A B} (m : ScriptM A) (f : A -> ScriptM B) (P : A -> Prop) (Q : B -> Prop) :
  post m P -> (forall a, P a -> post (f a) Q) -> post (m ≫= f) Q.
Proof. destruct m as [[e|a]|e]; simpl; auto. Qed.

Lemma post_ret {A} (a : A) (Q : A -> Prop) : Q a -> post (mret a) Q.
Proof. done. Qed.

Lemma post_error {A} e (Q : A -> Prop) : post (set_error e) Q.
Proof. done. Qed.

Lemma post_fail_if b e (Q : unit -> Prop) : (b = false -> Q tt) -> post (fail_if b e) Q.
Proof. destruct b; simpl; auto. Qed.

Lemma post_guard {B} b e (f : unit -> ScriptM B) Q : (b = false -> post (f tt) Q) -> post (fail_if b e ≫= f) Q.
Proof. destruct b; simpl; auto. Qed.

Lemma post_lift {A} (r : result A) (Q : A -> Prop) a : r = Ok a -> Q a -> post (lift r) Q.
Proof. by intros -> ?. Qed.

Lemma post_mono {A} (r : ScriptM A) (P Q : A -> Prop) : post r P -> (forall a, P a -> Q a) -> post r Q.
Proof. destruct r as [[e|a]|e]; simpl; auto. Qed.

Create HintDb post.
#[export] Hint Resolve post_ret post_error : post.

(** ** Elements *)

Definition elem_ok (v : bytes) : Prop := bytes_ok v /\ zlen v <= MAX_SCRIPT_ELEMENT_SIZE.
Abbreviation stack_ok := (Forall elem_ok).

Lemma scriptnum_elem v : - 2 ^ 63 < v < 2 ^ 63 -> elem_ok (scriptnum_serialize v).
Proof.
  intros Hv. destruct (Z.eq_dec v 0) as [->|Hz]; [split; [constructor|discriminate]|].
  destruct (scriptnum_serialize_spec v Hz Hv) as (pre & b & -> & Hok & Hl & _).
  split; [done|]. rewrite zlen_app. change (zlen [b]) with 1. unfold MAX_SCRIPT_ELEMENT_SIZE. lia.
Qed.

Lemma vchBool_elem b : elem_ok (vchBool b).
Proof. destruct b; split; try discriminate; repeat constructor; lia. Qed.

Lemma hash_op_elem op v : elem_ok (hash_op op v).
Proof.
  unfold hash_op, elem_ok, MAX_SCRIPT_ELEMENT_SIZE.
  destruct (op =? OP_RIPEMD160); [destruct (RIPEMD160_ok v); split; [done|lia]|].
  destruct (op =? OP_SHA1); [destruct (SHA1_ok v); split; [done|lia]|].
  destruct (op =? OP_SHA256); [destruct (SHA256_ok v); split; [done|lia]|].
  destruct (op =? OP_HASH160); [destruct (Hash160_ok v); split; [done|lia]|].
  destruct (Hash_ok v); split; [done|lia].
Qed.

#[export] Hint Resolve vchBool_elem hash_op_elem : post.

(** Take apart [stack_ok (x :: ...)] in the hypotheses, build it in the goal. *)
Ltac stack_solve :=
  repeat match goal with H : stack_ok (_ :: _) |- _ => apply Forall_cons_1 in H as [? ?] end;
  repeat match goal with
  | |- post (set_error _) _ => apply post_error
  | |- post (mret _) _ => apply post_ret
  | |- stack_ok (_ :: _) => constructor
  end; auto with post.

Section Ops.
Context (CheckLowS : bytes -> bool) (flags : Z) (checker : BaseSignatureChecker) (sigversion : SigVersion).
(** A bound on the elements of the initial stack, which a witness may fill
    beyond the limit that [EvalScript] checks after every operation. *)
Context (M : Z) (HM : MAX_STACK_SIZE <= M <= 2 ^ 25).

(** A numeric argument is within its size. *)
Lemma num_arg_post x n : elem_ok x -> 1 <= n <= 8 -> post (num_arg flags x n) (fun v => Z.abs v < 2 ^ (8 * n - 1)).
Proof.
  intros [Hx _] Hn. unfold num_arg, lift. pose proof (CScriptNum_range x (fRequireMinimal flags) n) as H.
  destruct (CScriptNum _ _ _) as [v|e] eqn:E; simpl; [by apply H|].
  unfold CScriptNum in E. repeat case_if; inv_bind; injection E as <-; by eexists.
Qed.

Lemma stack_op_post op stk : stack_ok stk -> zlen stk <= M -> post (stack_op op stk) stack_ok.
Proof.
  intros H Hl. unfold stack_op, invalid_stack.
  assert (elem_ok (scriptnum_serialize (zlen stk))).
  { apply scriptnum_elem. pose proof (zlen_nonneg stk). lia. }
  repeat (case_if; [repeat case_match; subst; try case_if; stack_solve; fail|]).
  destruct stk as [|x s]; stack_solve. apply scriptnum_elem.
  match goal with Hx : elem_ok x |- _ => destruct Hx as [_ Hx] end. pose proof (zlen_nonneg x).
  unfold MAX_SCRIPT_ELEMENT_SIZE in *. lia.
Qed.

Lemma locktime_op_post stk : stack_ok stk -> post (locktime_op flags checker stk) (fun _ => True).
Proof.
  intros H. unfold locktime_op, invalid_stack. case_if; [done|]. destruct stk as [|x s]; stack_solve.
  eapply post_bind; [apply num_arg_post; [done|lia]|]. intros v _. apply post_guard. intros _. by apply post_fail_if.
Qed.

Lemma sequence_op_post stk : stack_ok stk -> post (sequence_op flags checker stk) (fun _ => True).
Proof.
  intros H. unfold sequence_op, invalid_stack. case_if; [done|]. destruct stk as [|x s]; stack_solve.
  eapply post_bind; [apply num_arg_post; [done|lia]|]. intros v _. apply post_guard. intros _. case_if; [done|]. by apply post_fail_if.
Qed.

Lemma if_op_post op fExec stk : stack_ok stk -> post (if_op flags sigversion op fExec stk) (fun r => stack_ok r.2).
Proof.
  intros H. unfold if_op. destruct fExec; [|done]. destruct stk as [|x s]; stack_solve.
  by apply post_guard.
Qed.

Lemma stacktop_ok stk i : stack_ok stk -> 1 <= i <= zlen stk -> exists v, stacktop stk i = Ok v /\ elem_ok v.
Proof.
  intros H Hi. unfold stacktop. destruct (lookup_lt_is_Some_2 stk (Z.to_nat (i - 1))) as [v Hv]; [unfold zlen in *; lia|].
  rewrite Hv. destruct (Z.leb_spec 1 i); [|lia]. exists v. split; [done|]. by eapply Forall_lookup_1.
Qed.

Lemma pick_op_post op stk : stack_ok stk -> zlen stk <= M -> post (pick_op flags op stk) stack_ok.
Proof.
  intros H Hl. unfold pick_op, invalid_stack. destruct stk as [|x [|y s]]; stack_solve.
  eapply post_bind; [apply num_arg_post; [done|unfold nDefaultMaxNumSize; lia]|]. intros bn Hbn. cbn [tail].
  case_if; [done|]. bool_to_prop. rewrite !zlen_cons in Hl. pose proof (zlen_nonneg s).
  rewrite i32_small in * by (rewrite zlen_cons; unfold is_i32; lia).
  assert (Hs : stack_ok (y :: s)) by stack_solve.
  destruct (stacktop_ok (y :: s) (getint bn + 1) Hs) as (v & Hv & Hvo); [lia|].
  eapply post_bind; [by apply (post_lift _ (fun v => elem_ok v) v)|]. intros v' Hv'. apply post_ret.
  constructor; [done|]. destruct (op =? OP_ROLL); [|done]. by apply Forall_delete.
Qed.

Lemma verify_top_post b e s : stack_ok s -> post (verify_top b e s) stack_ok.
Proof. by destruct b. Qed.

Lemma equal_op_post op stk : stack_ok stk -> post (equal_op op stk) stack_ok.
Proof.
  intros H. unfold equal_op, invalid_stack. destruct stk as [|x [|y s]]; stack_solve.
  case_if; [by apply verify_top_post|stack_solve].
Qed.

Abbreviation small v := (Z.abs v < 2 ^ (8 * nDefaultMaxNumSize - 1)).

Lemma num_arg_bind {B} x (f : Z -> ScriptM B) Q :
  elem_ok x -> (forall v, small v -> post (f v) Q) -> post (num_arg flags x nDefaultMaxNumSize ≫= f) Q.
Proof. intros Hx. apply post_bind, num_arg_post; [done|unfold nDefaultMaxNumSize; lia]. Qed.

Lemma unary_num_post op bn : small bn -> exists v, unary_num op bn = Ok v /\ - 2 ^ 63 < v < 2 ^ 63.
Proof.
  unfold nDefaultMaxNumSize. intros Hb. change (2 ^ (8 * 4 - 1)) with (2 ^ 31) in Hb.
  unfold unary_num, scriptnum_add_assign, scriptnum_sub_assign, scriptnum_neg, assert_then, INT64_MAX.
  do 4 (case_if; [repeat (case_if; bool_to_prop; try lia); eexists; (split; [reflexivity|lia])|]).
  destruct (op =? OP_NOT); eexists; (split; [reflexivity|]); destruct (bn =? 0); simpl; lia.
Qed.

Lemma binary_num_range op a b : small a -> small b -> - 2 ^ 63 < binary_num op a b < 2 ^ 63.
Proof.
  unfold nDefaultMaxNumSize. intros Ha Hb. change (2 ^ (8 * 4 - 1)) with (2 ^ 31) in *.
  unfold binary_num, scriptnum_add, scriptnum_sub. rewrite !i64_small by (unfold is_i64; lia).
  assert (H : forall c, - 2 ^ 63 < Z.b2z c < 2 ^ 63) by (intros []; simpl; lia).
  repeat case_if; match goal with |- context [Z.b2z _] => apply H | _ => lia end.
Qed.

Lemma unary_op_post op stk : stack_ok stk -> post (unary_op flags op stk) stack_ok.
Proof.
  intros H. unfold unary_op, invalid_stack. destruct stk as [|x s]; stack_solve.
  apply num_arg_bind; [done|]. intros bn Hbn. destruct (unary_num_post op bn Hbn) as (v & -> & Hv).
  apply post_ret. constructor; [by apply scriptnum_elem|done].
Qed.

Lemma binary_op_post op stk : stack_ok stk -> post (binary_op flags op stk) stack_ok.
Proof.
  intros H. unfold binary_op, invalid_stack. destruct stk as [|x [|y s]]; stack_solve.
  apply num_arg_bind; [done|]. intros a Ha. apply num_arg_bind; [done|]. intros b Hb.
  pose proof (scriptnum_elem _ (binary_num_range op a b Ha Hb)).
  case_if; [by apply verify_top_post|stack_solve].
Qed.

Lemma within_op_post stk : stack_ok stk -> post (within_op flags stk) stack_ok.
Proof.
  intros H. unfold within_op, invalid_stack. destruct stk as [|x [|y [|z s]]]; stack_solve.
  apply num_arg_bind; [done|]. intros a _. apply num_arg_bind; [done|]. intros b _.
  apply num_arg_bind; [done|]. intros c _. stack_solve.
Qed.

(** The signature checker returns; see the class TransactionSignatureChecker. *)
Context (Hchecker : forall sig key code v, exists b, CheckSig checker sig key code v = Ok b).

Lemma CheckSignatureEncoding_post sig : post (CheckSignatureEncoding CheckLowS sig flags) (fun _ => True).
Proof.
  unfold CheckSignatureEncoding. case_if; [done|]. case_if; [done|].
  eapply (post_bind _ _ (fun _ => True)); [|intros _ _; by apply post_fail_if].
  case_if; [|done]. unfold IsLowDERSignature. case_if; [done|]. by case_if.
Qed.

Lemma CheckPubKeyEncoding_post key : post (CheckPubKeyEncoding key flags sigversion) (fun _ => True).
Proof. unfold CheckPubKeyEncoding. case_if; [done|]. by apply post_fail_if. Qed.

(** The encodings and the signature, as both CHECKSIG and CHECKMULTISIG test them. *)
Lemma check_sig_post {B} sig key code (f : bool -> ScriptM B) Q :
  (forall b, post (f b) Q) ->
  post (_ ← CheckSignatureEncoding CheckLowS sig flags; _ ← CheckPubKeyEncoding key flags sigversion;
        b ← lift (CheckSig checker sig key code sigversion); f b) Q.
Proof.
  intros Hf. eapply post_bind; [apply CheckSignatureEncoding_post|]. intros _ _.
  eapply post_bind; [apply CheckPubKeyEncoding_post|]. intros _ _.
  destruct (Hchecker sig key code sigversion) as [b ->]. apply Hf.
Qed.

Lemma checksig_op_post op code stk : stack_ok stk -> post (checksig_op CheckLowS flags checker sigversion op code stk) stack_ok.
Proof.
  intros H. unfold checksig_op, invalid_stack. destruct stk as [|x [|y s]]; stack_solve.
  apply check_sig_post. intros b. apply post_guard. intros _. case_if; [by apply verify_top_post|stack_solve].
Qed.

Lemma multisig_code_post stk k : stack_ok stk -> forall isig code,
  1 <= isig -> isig + Z.of_nat k - 1 <= zlen stk -> post (multisig_code sigversion stk isig k code) (fun _ => True).
Proof.
  intros H. induction k as [|k IH]; intros isig code H1 Hl; [done|]. cbn [multisig_code].
  destruct (stacktop_ok stk isig H) as (v & -> & _); [lia|]. cbn. apply IH; lia.
Qed.

Lemma multisig_loop_post stk code nKeys : stack_ok stk -> forall nSigs isig ikey,
  nSigs <= Z.of_nat nKeys -> 1 <= isig -> isig + nSigs - 1 <= zlen stk -> 1 <= ikey -> ikey + Z.of_nat nKeys - 1 <= zlen stk ->
  post (multisig_loop CheckLowS flags checker sigversion stk code nKeys nSigs isig ikey) (fun _ => True).
Proof.
  intros H. induction nKeys as [|nKeys IH]; intros nSigs isig ikey Hn H1 Hs H2 Hk; cbn [multisig_loop];
    (case_if; [done|]); bool_to_prop; [done|].
  destruct (stacktop_ok stk isig H) as (sig & -> & _); [lia|].
  destruct (stacktop_ok stk ikey H) as (key & -> & _); [lia|]. cbn [lift mbind scriptm_bind].
  apply check_sig_post. intros b. case_if; [done|]. bool_to_prop. destruct b; apply IH; lia.
Qed.

Lemma multisig_clean_post ok n : forall ikey2 stk, stack_ok stk -> Z.of_nat n <= zlen stk ->
  post (multisig_clean flags ok n ikey2 stk) stack_ok.
Proof.
  induction n as [|n IH]; intros ikey2 stk H Hl; [done|]. cbn [multisig_clean].
  destruct stk as [|x s]; [change (zlen []) with 0 in Hl; lia|]. rewrite zlen_cons in Hl. stack_solve.
  apply post_guard. intros _. apply IH; [done|lia].
Qed.

Lemma checkmultisig_op_post op code nOps stk : stack_ok stk -> zlen stk <= M ->
  post (checkmultisig_op CheckLowS flags checker sigversion op code nOps stk) (fun r => stack_ok r.2 /\ r.1 <= MAX_OPS_PER_SCRIPT).
Proof.
  intros H Hl. unfold checkmultisig_op, invalid_stack. pose proof (zlen_nonneg stk). 
  rewrite i32_small by (unfold is_i32; lia). case_if; [done|]. bool_to_prop.
  destruct (stacktop_ok stk 1 H) as (x & -> & Hx); [lia|]. cbn [lift mbind scriptm_bind].
  apply num_arg_bind; [done|]. intros bn _. set (nKeys := getint bn). apply post_guard. intros Hk.
  apply post_guard. intros Hops. bool_to_prop. case_if; [done|]. bool_to_prop.
  destruct (stacktop_ok stk (1 + 1 + nKeys) H) as (y & -> & Hy); [lia|]. cbn [lift mbind scriptm_bind].
  apply num_arg_bind; [done|]. intros bn' _. set (nSigs := getint bn'). apply post_guard. intros Hs. bool_to_prop.
  case_if; [done|]. bool_to_prop.
  eapply post_bind; [apply multisig_code_post; [done|lia|lia]|]. intros code' _.
  eapply post_bind; [apply multisig_loop_post; (done || lia)|]. intros ok _.
  eapply post_bind; [apply multisig_clean_post; [done|lia]|]. intros stk' Hstk'.
  destruct stk' as [|dummy s]; [done|]. stack_solve. apply post_guard. intros _.
  eapply (post_bind _ _ stack_ok); [case_if; [by apply verify_top_post|stack_solve]|]. intros s' Hs'. apply post_ret. done.
Qed.

(** ** The loop *)

(** What holds at the head of the loop. *)
Record eval_ok (st : EvalState) : Prop := {
  eo_stack : stack_ok (stack st);
  eo_alt : stack_ok (altstack st);
  eo_size : zlen (stack st) + zlen (altstack st) <= M;
  eo_ops : nOpCount st <= MAX_OPS_PER_SCRIPT;
}.

(** What holds after the [switch], before the size of the stacks is checked. *)
Definition exec_ok (st : EvalState) : Prop :=
  stack_ok (stack st) /\ stack_ok (altstack st) /\ nOpCount st <= MAX_OPS_PER_SCRIPT.

Lemma set_stack_post st (m : ScriptM Stack) :
  eval_ok st -> post m stack_ok -> post (s ← m; mret (set_stack st s)) exec_ok.
Proof. intros [H1 H2 H3 H4] Hm. eapply post_bind; [exact Hm|]. intros s Hs. by apply post_ret. Qed.

Lemma exec_op_post op fExec pc st : is_byte op -> eval_ok st ->
  post (exec_op CheckLowS flags checker sigversion op fExec pc st) exec_ok.
Proof.
  intros Hop Hst. pose proof Hst as [H1 H2 H3 H4]. pose proof (zlen_nonneg (altstack st)).
  assert (Hsize : zlen (stack st) <= M) by lia.
  assert (Hself : exec_ok st) by done. unfold exec_op. cbv zeta.
  case_if. { apply post_ret. split; [|done]. constructor; [|done]. apply scriptnum_elem. unfold is_byte, OP_1 in *. lia. }
  case_if; [done|].
  case_if. { eapply post_bind; [by apply locktime_op_post|]. by intros. }
  case_if. { eapply post_bind; [by apply sequence_op_post|]. by intros. }
  case_if. { by apply post_guard. }
  case_if. { eapply post_bind; [by apply if_op_post|]. intros [v s] Hs. by apply post_ret. }
  case_if. { destruct (vfExec st); [done|]. by apply post_ret. }
  case_if. { destruct (vfExec st); [done|]. by apply post_ret. }
  case_if.
  { destruct (stack st) as [|x s]; [done|]. apply Forall_cons_1 in H1 as [_ H1].
    destruct (CastToBool x); [|done]. by apply post_ret. }
  case_if; [done|].
  case_if. { destruct (stack st) as [|x s]; [done|]. apply Forall_cons_1 in H1 as [? H1]. apply post_ret. by split_and!; try constructor. }
  case_if. { destruct (altstack st) as [|x s]; [done|]. apply Forall_cons_1 in H2 as [? H2]. apply post_ret. by split_and!; try constructor. }
  case_if; [by apply set_stack_post, stack_op_post|].
  case_if; [by apply set_stack_post, pick_op_post|].
  case_if; [by apply set_stack_post, equal_op_post|].
  case_if; [by apply set_stack_post, unary_op_post|].
  case_if; [by apply set_stack_post, binary_op_post|].
  case_if; [by apply set_stack_post, within_op_post|].
  case_if.
  { destruct (stack st) as [|x s]; [done|]. apply Forall_cons_1 in H1 as [_ H1]. apply post_ret.
    split; [|done]. constructor; [apply hash_op_elem|done]. }
  case_if; [done|].
  case_if; [by apply set_stack_post, checksig_op_post|].
  case_if; [|done].
  eapply post_bind; [by apply checkmultisig_op_post|]. intros [n s] [Hs Hn]. by apply post_ret.
Qed.

Lemma eval_step_post op vch pc st : is_byte op -> bytes_ok vch -> eval_ok st ->
  post (eval_step CheckLowS flags checker sigversion op vch pc st) eval_ok.
Proof.
  intros Hop Hv [H1 H2 H3 H4]. unfold eval_step. cbv zeta. apply post_guard. intros Hl. bool_to_prop.
  apply post_guard. intros Hn. apply post_guard. intros _.
  set (st' := mkEvalState _ _ _ _ _).
  assert (Hst' : eval_ok st').
  { constructor; try done. cbn. destruct (OP_16 <? op); [|done]. simpl in Hn. by bool_to_prop. }
  clear Hn.
  eapply (post_bind _ _ exec_ok).
  - case_if.
    + bool_to_prop. eapply (post_bind _ _ (fun _ => True)).
      * destruct (fRequireMinimal flags); [|done]. unfold CheckMinimalPush.
        destruct (Z.leb_spec 0 op), (Z.leb_spec op OP_PUSHDATA4); try lia. done.
      * intros minimal _. apply post_guard. intros _. apply post_ret. destruct Hst'. split; [|done]. by constructor.
    + case_if; [by apply exec_op_post|]. apply post_ret. destruct Hst'. done.
  - intros st1 (Hs & Ha & Ho). apply post_guard. intros Hsz. bool_to_prop. apply post_ret. constructor; (done || lia).
Qed.

(** A run of the loop ends in success or a script error, or throws the script
    number exception. *)
Lemma eval_run_post script st : bytes_ok script -> eval_ok st ->
  post (op_run (eval_body CheckLowS flags checker sigversion) (fun _ => set_error SCRIPT_ERR_BAD_OPCODE) eval_end script st)
    (fun s => stack_ok s /\ zlen s <= M).
Proof.
  intros Hb Hst. apply (op_run_ind _ _ _ (fun pc st => bytes_ok pc /\ eval_ok st)); [| |clear script st Hb Hst|done].
  - intros s [_ [H1 _ H3 _]]. pose proof (zlen_nonneg (altstack s)). unfold eval_end.
    destruct (vfExec s); [|done]. apply post_ret. split; [done|lia].
  - done.
  - intros pc op vch pc' st [Hb Hst] Hop. destruct (GetOp2_bytes_ok _ _ _ _ Hb Hop) as (Ho & Hv & Hpc').
    pose proof (eval_step_post op vch pc' st Ho Hv Hst) as H. unfold eval_body.
    by destruct (eval_step _ _ _ _ _ _ _ _) as [[e|st']|e].
Qed.

(** The only exception that leaves the [try] block is that of a script number. *)
Lemma eval_try_post stk script : bytes_ok script -> stack_ok stk -> zlen stk <= M ->
  post (eval_try CheckLowS flags checker sigversion stk script) (fun s => stack_ok s /\ zlen s <= M).
Proof. intros Hb Hs Hl. apply eval_run_post; [done|]. constructor; cbn; try done. change (zlen []) with 0. lia. Qed.

Lemma EvalScript_ok stk script : bytes_ok script -> stack_ok stk -> zlen stk <= M ->
  exists r, EvalScript CheckLowS flags checker sigversion stk script = Ok r /\
    match r with inr s => stack_ok s /\ zlen s <= M | inl _ => True end.
Proof.
  intros Hb Hs Hl. unfold EvalScript. case_if; [by eexists|].
  pose proof (eval_try_post stk script Hb Hs Hl) as H.
  destruct (eval_try _ _ _ _ _ _) as [[e|s]|e]; simpl in *; [by eexists|by eexists|]. destruct H as [msg ->]. by eexists.
Qed.
End Ops.

(** * Theorems *)

(** A checker that always returns: TransactionSignatureChecker at an input of the
    transaction, and the base class. *)
Definition checker_returns (checker : BaseSignatureChecker) : Prop :=
  forall sig key code v, exists b, CheckSig checker sig key code v = Ok b.

(** The combinations of flags that [VerifyScript] asserts. *)
Definition flags_legal (flags : Z) : Prop :=
  (flag_on flags SCRIPT_VERIFY_CLEANSTACK = true -> flag_on flags SCRIPT_VERIFY_WITNESS = true) /\
  (flag_on flags SCRIPT_VERIFY_WITNESS = true -> flag_on flags SCRIPT_VERIFY_P2SH = true).

(** A script hash output cannot be spent from an empty stack. *)
Lemma EvalScript_p2sh_empty CheckLowS flags checker sigversion script :
  IsPayToScriptHash script = true ->
  EvalScript CheckLowS flags checker sigversion [] script = set_error SCRIPT_ERR_INVALID_STACK_OPERATION.
Proof.
  unfold IsPayToScriptHash. intros H. bool_to_prop.
  destruct script as [|c script]; [discriminate|]. change (script_at (c :: script) 0) with c in *. subst c.
  unfold EvalScript, eval_try. destruct (Z.ltb_spec MAX_SCRIPT_SIZE (zlen (OP_HASH160 :: script))); [unfold MAX_SCRIPT_SIZE in *; lia|].
  rewrite op_run_eq. reflexivity.
Qed.

Section Verify.
Context (CheckLowS : bytes -> bool) (flags : Z) (checker : BaseSignatureChecker).
Context (Hchecker : checker_returns checker) (witness : list bytes).
Context (Hwit : Forall bytes_ok witness) (Hwlen : zlen witness <= 2 ^ 25).

Abbreviation total m := (exists r, m = Ok r).

Lemma witness_script_total v p : bytes_ok p ->
  exists r, witness_script flags witness v p = Ok r /\
    match r with inr (Some (s, stk)) => bytes_ok s /\ Forall bytes_ok stk /\ zlen stk <= 2 ^ 25 | _ => True end.
Proof.
  intros Hp. unfold witness_script. destruct (v =? 0).
  2:{ case_if; eexists; (split; [reflexivity|done]). }
  pose proof (Forall_rev Hwit) as Hrev. pose proof (length_rev witness) as Hlen.
  destruct (zlen p =? 32).
  - destruct (rev witness) as [|script stk]; [by eexists|]. apply Forall_cons_1 in Hrev as [Hs Hr].
    case_if; eexists; (split; [reflexivity|]); [|done]. split_and!; try done.
    unfold zlen in *. simpl in Hlen. lia.
  - destruct (Z.eqb_spec (zlen p) 20) as [E|]; [|by eexists]. case_if; [by eexists|].
    eexists. split; [reflexivity|]. split_and!; [|done|unfold zlen in *; lia].
    assert (Hu : forall z, is_byte (u8 z)) by (intros z; apply Z.mod_pos_bound; lia).
    unfold push_vch. rewrite E. cbn. do 3 (constructor; [apply Hu|]).
    rewrite !bytes_ok_app. split_and!; [done|..]; (constructor; [apply Hu|constructor]).
Qed.

Lemma eval_total v stk script : bytes_ok script -> stack_ok stk -> zlen stk <= 2 ^ 25 ->
  exists r, EvalScript CheckLowS flags checker v stk script = Ok r /\
    match r with inr s => stack_ok s /\ zlen s <= 2 ^ 25 | inl _ => True end.
Proof. intros. apply EvalScript_ok; auto. unfold MAX_STACK_SIZE. lia. Qed.

Lemma VerifyWitnessProgram_total v p : bytes_ok p -> total (VerifyWitnessProgram CheckLowS flags checker witness v p).
Proof.
  intros Hp. unfold VerifyWitnessProgram. destruct (witness_script_total v p Hp) as ([e|[[s stk]|]] & -> & Hr); simpl; eauto.
  destruct Hr as (Hs & Hb & Hl). destruct (existsb _ stk) eqn:Hex; simpl; eauto.
  destruct (eval_total SIGVERSION_WITNESS_V0 stk s Hs) as ([e|stk'] & -> & _); [|done|simpl; eauto|].
  - apply Forall_forall. intros x Hx. apply Forall_forall with (x := x) in Hb; [|done]. split; [done|].
    destruct (Z.leb_spec (zlen x) MAX_SCRIPT_ELEMENT_SIZE) as [|Hgt]; [done|exfalso].
    assert (existsb (fun v => MAX_SCRIPT_ELEMENT_SIZE <? zlen v) stk = true) as E; [|congruence].
    apply existsb_exists. exists x. split; [done|]. by apply Z.ltb_lt.
  - simpl. destruct stk' as [|x [|y l]]; simpl; eauto. unfold fail_if. destruct (negb _); simpl; unfold set_error; eauto.
Qed.

Lemma IsWitnessProgram_bytes_ok s v p : bytes_ok s -> IsWitnessProgram s = Some (v, p) -> bytes_ok p.
Proof. intros Hs. unfold IsWitnessProgram. repeat case_if; intros H; simplify_eq. by apply Forall_drop. Qed.

Lemma verify_program_total script exact e had stk : bytes_ok script ->
  total (verify_program CheckLowS flags checker script exact e witness had stk).
Proof.
  intros Hs. unfold verify_program. case_if; [|by eexists].
  destruct (IsWitnessProgram script) as [[v p]|] eqn:E; [|by eexists]. destruct exact; [|by eexists].
  destruct (VerifyWitnessProgram_total v p) as [r Hr]; [by eapply IsWitnessProgram_bytes_ok|]. simpl. rewrite Hr.
  destruct r; by eexists.
Qed.

Lemma require_true_total stk : total (require_true stk).
Proof. destruct stk as [|x s]; simpl; [by eexists|]. unfold fail_if. destruct (negb _); by eexists. Qed.

Lemma verify_p2sh_total scriptSig had stk : stack_ok stk -> zlen stk <= 2 ^ 25 -> stk <> [] ->
  total (verify_p2sh CheckLowS flags checker scriptSig witness had stk).
Proof.
  intros Hs Hl Hne. unfold verify_p2sh. destruct (IsPushOnly scriptSig); [|by eexists]. simpl.
  destruct stk as [|pubKey2 s]; [done|]. apply Forall_cons_1 in Hs as [[Hb _] Hs]. rewrite zlen_cons in Hl.
  destruct (eval_total SIGVERSION_BASE s pubKey2 Hb Hs ltac:(lia)) as ([e|s'] & -> & _); simpl; [by eexists|].
  destruct (require_true_total s') as [[e|[]] ->]; simpl; [by eexists|]. by apply verify_program_total.
Qed.

(** The last two checks of [VerifyScript]. *)
Lemma final_checks_total had (stk : Stack) : flags_legal flags ->
  total (_ ← (if flag_on flags SCRIPT_VERIFY_CLEANSTACK then
               lift (assert_then (flag_on flags SCRIPT_VERIFY_P2SH) "(flags & SCRIPT_VERIFY_P2SH) != 0"
                      (assert_then (flag_on flags SCRIPT_VERIFY_WITNESS) "(flags & SCRIPT_VERIFY_WITNESS) != 0" (Ok tt)))
               ≫= fun _ => fail_if (negb (zlen stk =? 1)) SCRIPT_ERR_CLEANSTACK
             else mret tt);
        (if flag_on flags SCRIPT_VERIFY_WITNESS then
           lift (assert_then (flag_on flags SCRIPT_VERIFY_P2SH) "(flags & SCRIPT_VERIFY_P2SH) != 0" (Ok tt))
           ≫= fun _ => fail_if (negb had && negb (CScriptWitness_IsNull witness)) SCRIPT_ERR_WITNESS_UNEXPECTED
         else (mret tt : ScriptM unit))).
Proof.
  intros [Hc Hw]. destruct (flag_on flags SCRIPT_VERIFY_CLEANSTACK).
  - rewrite Hc, Hw by auto. simpl. destruct (zlen stk =? 1); simpl; [|by eexists].
    unfold fail_if. destruct (_ && _); by eexists.
  - simpl. destruct (flag_on flags SCRIPT_VERIFY_WITNESS); [|by eexists]. rewrite Hw by done. simpl.
    unfold fail_if. destruct (_ && _); by eexists.
Qed.
End Verify.

(** C11: the interpreter is total and keeps its limits.  On any script of bytes and
    any stack within the limits, with a checker that returns, evaluation ends
    with success or a script error, and a stack left by success has at most 1000
    elements of at most 520 bytes. No assertion fails, and of the exceptions that
    the handler of [EvalScript] would hide behind SCRIPT_ERR_UNKNOWN_ERROR only
    the one of a malformed script number is ever thrown: in particular no element
    outside of a stack is asked for, and no empty stack is popped. *)
Theorem EvalScript_safe CheckLowS flags checker sigversion stk script :
  checker_returns checker -> bytes_ok script -> stack_ok stk -> zlen stk <= MAX_STACK_SIZE ->
  (forall e, eval_try CheckLowS flags checker sigversion stk script = Throw e -> exists msg, e = scriptnum_error msg) /\
  exists r, EvalScript CheckLowS flags checker sigversion stk script = Ok r /\
    match r with inr s => stack_ok s /\ zlen s <= MAX_STACK_SIZE | inl _ => True end.
Proof.
  intros Hc Hb Hs Hl. assert (HM : MAX_STACK_SIZE <= MAX_STACK_SIZE <= 2 ^ 25) by (unfold MAX_STACK_SIZE; lia).
  split; [|by apply EvalScript_ok]. intros e He.
  pose proof (eval_try_post CheckLowS flags checker sigversion MAX_STACK_SIZE HM Hc stk script Hb Hs Hl) as Hp. rewrite He in Hp. exact Hp.
Qed.

(** verification never aborts.  For every pair of scripts and every witness,
    under flags in which CLEANSTACK comes with WITNESS and WITNESS with P2SH,
    verification returns a verdict; in particular the asserted claim that the
    stack of a script hash spend is not empty holds. *)
Theorem VerifyScript_total CheckLowS flags checker scriptSig scriptPubKey witness :
  checker_returns checker -> flags_legal flags -> bytes_ok scriptSig -> bytes_ok scriptPubKey ->
  Forall bytes_ok witness -> zlen witness <= 2 ^ 25 ->
  exists r, VerifyScript CheckLowS flags checker scriptSig scriptPubKey witness = Ok r.
Proof.
  intros Hck Hfl Hsig Hpub Hwit Hwl. unfold VerifyScript. destruct (_ && negb _); [by eexists|]. simpl.
  destruct (eval_total CheckLowS flags checker Hck SIGVERSION_BASE [] scriptSig Hsig) as ([e|s1] & -> & H1);
    [constructor|discriminate|by eexists|]. destruct H1 as [Hs1 Hl1]. simpl.
  destruct (eval_total CheckLowS flags checker Hck SIGVERSION_BASE s1 scriptPubKey Hpub Hs1 Hl1) as ([e|s2] & H2 & _);
    rewrite H2; [by eexists|]. simpl.
  destruct (require_true_total s2) as [[e|[]] ->]; simpl; [by eexists|].
  destruct (verify_program_total CheckLowS flags checker Hck witness Hwit Hwl scriptPubKey (zlen scriptSig =? 0)
    SCRIPT_ERR_WITNESS_MALLEATED false s2 Hpub) as [[e|[had s3]] ->]; simpl; [by eexists|].
  destruct (flag_on flags SCRIPT_VERIFY_P2SH && IsPayToScriptHash scriptPubKey) eqn:Ep; [|by apply final_checks_total].
  apply andb_true_iff in Ep as [Ep Eh]. rewrite Ep.
  destruct (verify_p2sh_total CheckLowS flags checker Hck witness Hwit Hwl scriptSig had s1 Hs1 Hl1) as [[e|[had' s4]] ->].
  - intros ->. rewrite EvalScript_p2sh_empty in H2; [discriminate|done].
  - by eexists.
  - simpl. pose proof (final_checks_total flags witness had' s4 Hfl) as H. rewrite Ep in H. exact H.
Qed.

Lemma EvalScript_safe_witness :
  (forall e, eval_try (fun _ => true) SCRIPT_VERIFY_MINIMALDATA BaseSignatureChecker_default SIGVERSION_BASE [[2]]
      [OP_3; OP_ADD; OP_DUP; OP_HASH160; OP_DROP] = Throw e -> exists msg, e = scriptnum_error msg) /\
  exists r, EvalScript (fun _ => true) SCRIPT_VERIFY_MINIMALDATA BaseSignatureChecker_default SIGVERSION_BASE [[2]]
      [OP_3; OP_ADD; OP_DUP; OP_HASH160; OP_DROP] = Ok r /\
    match r with inr s => stack_ok s /\ zlen s <= MAX_STACK_SIZE | inl _ => True end.
Proof.
  apply EvalScript_safe; [intros ? ? ? ?; by exists false|decide_true| |discriminate].
  repeat constructor; (decide_true || discriminate).
Defined.

Lemma VerifyScript_total_witness :
  exists r, VerifyScript (fun _ => true) (Z.lor SCRIPT_VERIFY_P2SH SCRIPT_VERIFY_WITNESS) BaseSignatureChecker_default
    (push_vch [OP_1] []) (OP_HASH160 :: push_vch (repeat 7 20) [] ++ [OP_EQUAL]) [[1]] = Ok r.
Proof.
  apply VerifyScript_total.
  - intros ? ? ? ?. by exists false.
  - split; intros H; [discriminate|reflexivity].
  - decide_true.
  - decide_true.
  - repeat constructor; lia.
  - discriminate.
Defined.
