(* ===== verification/InterpreterSoftFork.v ===== *)
(** * Verification flags are soft forks

    The comment of the flags in interpreter.h says that what is accepted under
    more flags is accepted under fewer. This is proved for evaluation, where
    the stack left is the same as well, and for verification. *)
From S2P Require Import Prelude Crypto Script Transaction Interpreter InterpreterSafety.

#[local] Opaque SHA256 SHA1 RIPEMD160 Hash160 Hash.

(** Every flag of [f1] is in [f2]. *)
Definition flags_le (f1 f2 : Z) : Prop := Z.land f1 f2 = f1.

Lemma flag_on_mono f1 f2 F : flags_le f1 f2 -> flag_on f1 F = true -> flag_on f2 F = true.
Proof.
  intros H. unfold flag_on. rewrite !negb_true_iff, !Z.eqb_neq. intros H1 H2. apply H1.
  rewrite <- H, <- Z.land_assoc, H2. apply Z.land_0_r.
Qed.

(** [m1] succeeds with the same value whenever [m2] succeeds. *)
Definition accepts {A} (m1 m2 : ScriptM A) : Prop := forall a, m2 = Ok (inr a) -> m1 = Ok (inr a).

Lemma accepts_refl {A} (m : ScriptM A) : accepts m m.
Proof. by intros a. Qed.

Lemma accepts_bind {A B} (m1 m2 : ScriptM A) (f1 f2 : A -> ScriptM B) :
  accepts m1 m2 -> (forall a, accepts (f1 a) (f2 a)) -> accepts (m1 ≫= f1) (m2 ≫= f2).
Proof.
  intros Hm Hf b Hb. destruct m2 as [[e|a]|e]; try discriminate. rewrite (Hm a eq_refl). by apply Hf.
Qed.

Lemma scriptm_bind_inr {A B} (m : ScriptM A) (f : A -> ScriptM B) b :
  m ≫= f = Ok (inr b) <-> exists a, m = Ok (inr a) /\ f a = Ok (inr b).
Proof.
  split; [|by intros (a & -> & H)]. destruct m as [[e|a]|e]; intros H; try discriminate H. exists a. split; [reflexivity|exact H].
Qed.

(** Failing less often; a check that only the second side makes. *)
Lemma accepts_fail_if b1 b2 e : (b1 = true -> b2 = true) -> accepts (fail_if b1 e) (fail_if b2 e).
Proof. intros H. destruct b1, b2; try by intros a. by specialize (H eq_refl). Qed.

Lemma accepts_skip {A B} (m : ScriptM A) (k1 : ScriptM B) (k2 : A -> ScriptM B) :
  (forall a, accepts k1 (k2 a)) -> accepts k1 (m ≫= k2).
Proof. intros H b Hb. destruct m as [[e|a]|e]; try discriminate. by apply (H a). Qed.

Lemma accepts_unit (m : ScriptM unit) : accepts (mret tt) m.
Proof. by intros [] _. Qed.

Lemma accepts_error {A} (m : ScriptM A) e : accepts m (set_error e).
Proof. by intros a. Qed.

Create HintDb accepts.
#[export] Hint Resolve accepts_refl accepts_error : accepts.

(** The same code on both sides, up to conditions on flags. *)
Ltac accepts_step :=
  repeat match goal with
  | |- accepts ?m ?m => apply accepts_refl
  | |- accepts _ (set_error _) => apply accepts_error
  | |- accepts (if ?b then _ else _) (if ?b then _ else _) => destruct b
  | |- accepts (fail_if _ _) (fail_if _ _) =>
      apply accepts_fail_if; rewrite ?andb_true_iff; solve [intuition (eauto using flag_on_mono)]
  | |- accepts (_ ≫= _) (_ ≫= _) => apply accepts_bind; [|intros ?]
  | |- accepts (match ?x with _ => _ end) (match ?x with _ => _ end) => destruct x
  end.

Section Ops.
Context (CheckLowS : bytes -> bool) (f1 f2 : Z) (Hf : flags_le f1 f2).
Context (checker : BaseSignatureChecker) (sigversion : SigVersion).

Lemma num_arg_accepts x n : accepts (num_arg f1 x n) (num_arg f2 x n).
Proof.
  intros v. unfold num_arg, CScriptNum, fRequireMinimal. case_if; [done|].
  destruct (flag_on f1 SCRIPT_VERIFY_MINIMALDATA) eqn:E1.
  - by rewrite (flag_on_mono _ _ _ Hf E1).
  - cbn [andb]. by case_if.
Qed.

Lemma CheckSignatureEncoding_accepts sig : accepts (CheckSignatureEncoding CheckLowS sig f1) (CheckSignatureEncoding CheckLowS sig f2).
Proof.
  unfold CheckSignatureEncoding. case_if; [apply accepts_refl|].
  set (F := Z.lor _ _). destruct (flag_on f2 F && _) eqn:E2; [apply accepts_error|].
  destruct (flag_on f1 F && _) eqn:E1.
  { apply andb_true_iff in E1 as [E1 E]. rewrite (flag_on_mono _ _ _ Hf E1), E in E2. discriminate. }
  apply accepts_bind; [|intros _; accepts_step].
  destruct (flag_on f1 SCRIPT_VERIFY_LOW_S) eqn:E; [rewrite (flag_on_mono _ _ _ Hf E); apply accepts_refl|].
  intros []. by case_if.
Qed.

Lemma CheckPubKeyEncoding_accepts key : accepts (CheckPubKeyEncoding key f1 sigversion) (CheckPubKeyEncoding key f2 sigversion).
Proof.
  unfold CheckPubKeyEncoding. destruct (flag_on f2 SCRIPT_VERIFY_STRICTENC && _) eqn:E2; [apply accepts_error|].
  destruct (flag_on f1 SCRIPT_VERIFY_STRICTENC && _) eqn:E1; [|accepts_step].
  apply andb_true_iff in E1 as [E1 E]. rewrite (flag_on_mono _ _ _ Hf E1), E in E2. discriminate.
Qed.

(** A rule that only [f2] enforces may be left out. *)
Lemma rule_accepts (F : Z) (m1 m2 : ScriptM unit) : accepts m1 m2 ->
  accepts (if negb (flag_on f1 F) then mret tt else m1) (if negb (flag_on f2 F) then mret tt else m2).
Proof.
  intros H. destruct (flag_on f1 F) eqn:E; [|apply accepts_unit]. by rewrite (flag_on_mono _ _ _ Hf E).
Qed.

Lemma locktime_op_accepts stk : accepts (locktime_op f1 checker stk) (locktime_op f2 checker stk).
Proof. apply rule_accepts. destruct stk; accepts_step. apply num_arg_accepts. Qed.

Lemma sequence_op_accepts stk : accepts (sequence_op f1 checker stk) (sequence_op f2 checker stk).
Proof. apply rule_accepts. destruct stk; accepts_step. apply num_arg_accepts. Qed.

Lemma if_op_accepts op fExec stk : accepts (if_op f1 sigversion op fExec stk) (if_op f2 sigversion op fExec stk).
Proof. unfold if_op. accepts_step. Qed.

Lemma pick_op_accepts op stk : accepts (pick_op f1 op stk) (pick_op f2 op stk).
Proof. unfold pick_op. accepts_step. apply num_arg_accepts. Qed.

Lemma unary_op_accepts op stk : accepts (unary_op f1 op stk) (unary_op f2 op stk).
Proof. unfold unary_op. accepts_step. apply num_arg_accepts. Qed.

Lemma binary_op_accepts op stk : accepts (binary_op f1 op stk) (binary_op f2 op stk).
Proof. unfold binary_op. accepts_step; apply num_arg_accepts. Qed.

Lemma within_op_accepts stk : accepts (within_op f1 stk) (within_op f2 stk).
Proof. unfold within_op. accepts_step; apply num_arg_accepts. Qed.

Lemma checksig_op_accepts op code stk :
  accepts (checksig_op CheckLowS f1 checker sigversion op code stk) (checksig_op CheckLowS f2 checker sigversion op code stk).
Proof.
  unfold checksig_op. accepts_step; [apply CheckSignatureEncoding_accepts|apply CheckPubKeyEncoding_accepts].
Qed.

Lemma multisig_loop_accepts stk code nKeys : forall nSigs isig ikey,
  accepts (multisig_loop CheckLowS f1 checker sigversion stk code nKeys nSigs isig ikey)
    (multisig_loop CheckLowS f2 checker sigversion stk code nKeys nSigs isig ikey).
Proof.
  induction nKeys as [|nKeys IH]; intros; cbn [multisig_loop]; accepts_step;
    [apply CheckSignatureEncoding_accepts|apply CheckPubKeyEncoding_accepts|apply IH..].
Qed.

Lemma multisig_clean_accepts ok n : forall ikey2 stk, accepts (multisig_clean f1 ok n ikey2 stk) (multisig_clean f2 ok n ikey2 stk).
Proof. induction n as [|n IH]; intros; cbn [multisig_clean]; accepts_step. apply IH. Qed.

Lemma checkmultisig_op_accepts op code nOps stk :
  accepts (checkmultisig_op CheckLowS f1 checker sigversion op code nOps stk)
    (checkmultisig_op CheckLowS f2 checker sigversion op code nOps stk).
Proof.
  unfold checkmultisig_op. cbv zeta. accepts_step;
    first [apply num_arg_accepts|apply multisig_loop_accepts|apply multisig_clean_accepts].
Qed.

Lemma exec_op_accepts op fExec pc st :
  accepts (exec_op CheckLowS f1 checker sigversion op fExec pc st) (exec_op CheckLowS f2 checker sigversion op fExec pc st).
Proof.
  unfold exec_op. cbv zeta. accepts_step;
    first [apply locktime_op_accepts|apply sequence_op_accepts|apply if_op_accepts|apply pick_op_accepts
          |apply unary_op_accepts|apply binary_op_accepts|apply within_op_accepts|apply checksig_op_accepts
          |apply checkmultisig_op_accepts].
Qed.

Lemma eval_step_accepts op vch pc st :
  accepts (eval_step CheckLowS f1 checker sigversion op vch pc st) (eval_step CheckLowS f2 checker sigversion op vch pc st).
Proof.
  unfold eval_step. cbv zeta. do 3 (apply accepts_bind; [apply accepts_refl|intros _]).
  apply accepts_bind; [|intros st'; accepts_step]. case_if; [|case_if; [apply exec_op_accepts|apply accepts_refl]].
  unfold fRequireMinimal. destruct (flag_on f1 SCRIPT_VERIFY_MINIMALDATA) eqn:E.
  - rewrite (flag_on_mono _ _ _ Hf E). apply accepts_refl.
  - apply accepts_skip. intros m. destruct m; [apply accepts_refl|]. apply accepts_error.
Qed.

Lemma EvalScript_accepts stk script :
  accepts (EvalScript CheckLowS f1 checker sigversion stk script) (EvalScript CheckLowS f2 checker sigversion stk script).
Proof.
  unfold EvalScript, eval_try. destruct (MAX_SCRIPT_SIZE <? zlen script); [apply accepts_refl|]. generalize (mkEvalState stk [] [] 0 script) as st. intros st r.
  match goal with |- catch_all ?x = _ -> catch_all ?y = _ => enough (H : accepts y x) end.
  { match goal with |- catch_all ?x = _ -> _ => destruct x as [[e|a]|[]]; cbn [catch_all]; try discriminate end.
    intros [= <-]. by rewrite (H a eq_refl). }
  clear r. revert st. induction script as [script IH] using (induction_ltof1 _ length); unfold ltof in IH. intros st r.
  rewrite !op_run_eq. destruct script as [|c pc]; [done|].
  destruct (GetOp2 (c :: pc)) as [[[op vch] pc']|] eqn:Hop; [|done]. unfold eval_body.
  pose proof (eval_step_accepts op vch pc' st) as Hs.
  destruct (eval_step CheckLowS f2 _ _ _ _ _ _) as [[e|st']|e]; try discriminate.
  rewrite (Hs st' eq_refl). apply IH. exact (GetOp2_progress _ _ _ _ Hop).
Qed.
End Ops.

Section Verify.
Context (CheckLowS : bytes -> bool) (f1 f2 : Z) (Hf : flags_le f1 f2) (checker : BaseSignatureChecker).

Lemma VerifyWitnessProgram_accepts w v p :
  accepts (VerifyWitnessProgram CheckLowS f1 checker w v p) (VerifyWitnessProgram CheckLowS f2 checker w v p).
Proof.
  unfold VerifyWitnessProgram. apply accepts_bind.
  - unfold witness_script. accepts_step.
    destruct (flag_on f1 SCRIPT_VERIFY_DISCOURAGE_UPGRADABLE_WITNESS_PROGRAM) eqn:E.
    + rewrite (flag_on_mono _ _ _ Hf E). apply accepts_refl.
    + case_if; [apply accepts_error|apply accepts_refl].
  - intros [[s stk]|]; accepts_step. by apply EvalScript_accepts.
Qed.

(** With the WITNESS rules on both sides a program is verified on both. *)
Lemma verify_program_accepts script exact e w had stk : flag_on f1 SCRIPT_VERIFY_WITNESS = true ->
  accepts (verify_program CheckLowS f1 checker script exact e w had stk)
    (verify_program CheckLowS f2 checker script exact e w had stk).
Proof.
  intros H1. unfold verify_program. rewrite H1, (flag_on_mono _ _ _ Hf H1). accepts_step. apply VerifyWitnessProgram_accepts.
Qed.

(** Without them on the first side the program is not looked at. *)
Lemma verify_program_off script exact e w had stk : flag_on f1 SCRIPT_VERIFY_WITNESS = false ->
  verify_program CheckLowS f1 checker script exact e w had stk = mret (had, stk).
Proof. intros H1. unfold verify_program. by rewrite H1. Qed.

Lemma verify_p2sh_accepts_off scriptSig w had1 had2 stk r2 :
  flag_on f1 SCRIPT_VERIFY_WITNESS = false ->
  verify_p2sh CheckLowS f2 checker scriptSig w had2 stk = Ok (inr r2) ->
  exists r1, verify_p2sh CheckLowS f1 checker scriptSig w had1 stk = Ok (inr r1).
Proof.
  intros H1 H2. unfold verify_p2sh in *. apply scriptm_bind_inr in H2 as ([] & Hp & H2).
  destruct stk as [|pubKey2 s]; [discriminate|]. apply scriptm_bind_inr in H2 as (s' & He & H2).
  apply scriptm_bind_inr in H2 as ([] & Hr & _). exists (had1, s'). apply scriptm_bind_inr. exists tt. split; [exact Hp|].
  apply scriptm_bind_inr. exists s'. split; [exact (EvalScript_accepts CheckLowS f1 f2 Hf checker SIGVERSION_BASE s pubKey2 s' He)|].
  apply scriptm_bind_inr. exists tt. split; [exact Hr|]. by apply verify_program_off.
Qed.
End Verify.

(** C14: verification flags are soft forks.  Whatever [VerifyScript] accepts under a
    set of flags it accepts under every legal subset of them, as the comment of
    the flags promises. *)
Theorem flags_are_soft_forks CheckLowS f1 f2 checker scriptSig scriptPubKey witness :
  flags_le f1 f2 -> flags_legal f1 ->
  VerifyScript CheckLowS f2 checker scriptSig scriptPubKey witness = Ok (inr tt) ->
  VerifyScript CheckLowS f1 checker scriptSig scriptPubKey witness = Ok (inr tt).
Proof.
  intros Hf [Hclean Hwit]. enough (H : accepts (VerifyScript CheckLowS f1 checker scriptSig scriptPubKey witness)
    (VerifyScript CheckLowS f2 checker scriptSig scriptPubKey witness)) by exact (H tt).
  unfold VerifyScript. apply accepts_bind; [accepts_step|intros _].
  apply accepts_bind; [by apply EvalScript_accepts|intros s1]. cbv zeta.
  apply accepts_bind; [by apply EvalScript_accepts|intros s2]. apply accepts_bind; [apply accepts_refl|intros _].
  destruct (flag_on f1 SCRIPT_VERIFY_WITNESS) eqn:Ew.
  - rewrite (flag_on_mono _ _ _ Hf Ew), (Hwit eq_refl), (flag_on_mono _ _ _ Hf (Hwit eq_refl)).
    apply accepts_bind; [by apply verify_program_accepts|intros [had s3]]. apply accepts_bind.
    + cbn [andb]. destruct (IsPayToScriptHash scriptPubKey); [|apply accepts_refl]. unfold verify_p2sh. accepts_step.
      * by apply EvalScript_accepts.
      * by apply verify_program_accepts.
    + intros [had' s4]. apply accepts_bind; [|intros _; apply accepts_refl].
      destruct (flag_on f1 SCRIPT_VERIFY_CLEANSTACK) eqn:Ec; [|apply accepts_unit].
      rewrite (flag_on_mono _ _ _ Hf Ec). apply accepts_refl.
  - rewrite verify_program_off by done. apply accepts_skip. intros [had s3].
    assert (Ec : flag_on f1 SCRIPT_VERIFY_CLEANSTACK = false).
    { destruct (flag_on f1 SCRIPT_VERIFY_CLEANSTACK); [|done]. discriminate (Hclean eq_refl). }
    rewrite Ec. destruct (flag_on f1 SCRIPT_VERIFY_P2SH) eqn:Ep; [|apply accepts_unit].
    rewrite (flag_on_mono _ _ _ Hf Ep). cbn [andb].
    destruct (IsPayToScriptHash scriptPubKey); [|apply accepts_unit].
    intros []. intros ([had' s4] & H & _)%scriptm_bind_inr.
    destruct (verify_p2sh_accepts_off CheckLowS f1 f2 Hf checker scriptSig witness false had s1 _ Ew H) as [[had'' s5] H'].
    apply scriptm_bind_inr. exists (false, s2). split; [reflexivity|].
    apply scriptm_bind_inr. exists (had'', s5). split; [exact H'|reflexivity].
Qed.

Lemma flags_are_soft_forks_witness :
  VerifyScript (fun _ => true) SCRIPT_VERIFY_P2SH BaseSignatureChecker_default [OP_2] [OP_2; OP_EQUAL] [] = Ok (inr tt).
Proof.
  apply (flags_are_soft_forks _ SCRIPT_VERIFY_P2SH
    (Z.lor SCRIPT_VERIFY_P2SH (Z.lor SCRIPT_VERIFY_WITNESS (Z.lor SCRIPT_VERIFY_CLEANSTACK SCRIPT_VERIFY_MINIMALDATA)))).
  - reflexivity.
  - split; discriminate.
  - vm_compute. reflexivity.
Defined.
