(* ===== verification/InterpreterSpec.v ===== *)
(** * What the signature operations decide

    CHECKMULTISIG accepts exactly when the signatures match a subsequence of the
    keys, and a pay-to-pubkey-hash output is spent exactly by the key of its
    hash with a valid signature. *)
From S2P Require Import Prelude Crypto Script Transaction Interpreter InterpreterSafety.

#[local] Opaque SHA256 SHA1 RIPEMD160 Hash160 Hash.

(** ** CHECKMULTISIG *)

(** The signatures, in order, are valid for some of the keys, in order. *)
Inductive matches (check : bytes -> bytes -> bool) : list bytes -> list bytes -> Prop :=
  | matches_nil keys : matches check [] keys
  | matches_take sig sigs key keys :
      check sig key = true -> matches check sigs keys -> matches check (sig :: sigs) (key :: keys)
  | matches_skip sigs key keys : matches check sigs keys -> matches check sigs (key :: keys).

Lemma matches_length check sigs keys : matches check sigs keys -> (length sigs <= length keys)%nat.
Proof. induction 1; simpl; lia. Qed.

Lemma matches_tail check sig sigs keys : matches check (sig :: sigs) keys -> matches check sigs keys.
Proof.
  remember (sig :: sigs) as l eqn:E. intros H. revert sig sigs E. induction H; intros s ss E; [discriminate| |].
  - injection E as -> ->. by constructor.
  - subst. constructor. by eapply IHmatches.
Qed.

(** Matching greedily loses nothing. *)
Lemma matches_greedy check sig sigs key keys :
  check sig key = true -> matches check (sig :: sigs) (key :: keys) <-> matches check sigs keys.
Proof.
  intros Hc. split; [|by constructor]. inversion 1; subst; [done|]. by eapply matches_tail.
Qed.

Lemma matches_skip_iff check sig sigs key keys :
  check sig key = false -> matches check (sig :: sigs) (key :: keys) <-> matches check (sig :: sigs) keys.
Proof. intros Hc. split; [|by constructor]. inversion 1; subst; [congruence|done]. Qed.

(** The elements [l] are on the stack from [stacktop(-i)] down. *)
Definition on_stack (stk : Stack) (i : Z) (l : list bytes) : Prop :=
  1 <= i /\ take (length l) (drop (Z.to_nat (i - 1)) stk) = l.

Lemma on_stack_cons stk i x l :
  on_stack stk i (x :: l) -> stacktop stk i = Ok x /\ on_stack stk (i + 1) l.
Proof.
  intros [Hi H]. unfold stacktop. rewrite <- (Nat.add_0_r (Z.to_nat (i - 1))), <- lookup_drop.
  destruct (drop (Z.to_nat (i - 1)) stk) as [|y s] eqn:E; [discriminate|]. cbn [length take] in H. injection H as -> H.
  simpl. destruct (Z.leb_spec 1 i); [|lia]. split; [done|]. split; [lia|].
  replace (Z.to_nat (i + 1 - 1)) with (Z.to_nat (i - 1) + 1)%nat by lia. rewrite <- drop_drop, E. exact H.
Qed.

Section Multisig.
Context (CheckLowS : bytes -> bool) (flags : Z) (checker : BaseSignatureChecker) (sigversion : SigVersion).
Context (check : bytes -> bytes -> bool) (code : CScript).

Definition encodings_ok (sigs keys : list bytes) : Prop :=
  Forall (fun sig => CheckSignatureEncoding CheckLowS sig flags = mret tt) sigs /\
  Forall (fun key => CheckPubKeyEncoding key flags sigversion = mret tt) keys.

Definition checks (sigs keys : list bytes) : Prop :=
  forall sig key, In sig sigs -> In key keys -> CheckSig checker sig key code sigversion = Ok (check sig key).

Lemma multisig_loop_spec stk keys : forall sigs isig ikey,
  on_stack stk isig sigs -> on_stack stk ikey keys -> encodings_ok sigs keys -> checks sigs keys ->
  (length sigs <= length keys)%nat ->
  exists b, multisig_loop CheckLowS flags checker sigversion stk code (length keys) (zlen sigs) isig ikey = Ok (inr b) /\
    (b = true <-> matches check sigs keys).
Proof.
  induction keys as [|key keys IH]; intros sigs isig ikey Hs Hk [Es Ek] Hc Hl.
  - destruct sigs; [|simpl in Hl; lia]. exists true. split; [reflexivity|]. split; [constructor|done].
  - destruct sigs as [|sig sigs].
    { exists true. split; [reflexivity|]. split; [constructor|done]. }
    destruct (on_stack_cons _ _ _ _ Hs) as [Hst Hs']. destruct (on_stack_cons _ _ _ _ Hk) as [Hkt Hk'].
    cbn [length multisig_loop]. destruct (Z.ltb_spec 0 (zlen (sig :: sigs))); [|rewrite zlen_cons in *; pose proof (zlen_nonneg sigs); lia].
    cbn [negb]. rewrite Hst, Hkt. cbn [lift mbind scriptm_bind].
    apply Forall_cons_1 in Es as [Es Es']. apply Forall_cons_1 in Ek as [Ek Ek']. rewrite Es, Ek.
    cbn [mret scriptm_ret mbind scriptm_bind]. rewrite Hc by (by left). cbn [lift mbind scriptm_bind].
    assert (Hc' : forall l, incl l (sig :: sigs) -> checks l keys) by (intros l Hi s k ? ?; apply Hc; [by apply Hi|by right]).
    destruct (check sig key) eqn:Eb.
    + destruct (Z.ltb_spec (Z.of_nat (length keys)) (zlen (sig :: sigs) - 1)).
      { unfold zlen in *. simpl in *. lia. }
      replace (zlen (sig :: sigs) - 1) with (zlen sigs) by (rewrite zlen_cons; lia).
      destruct (IH sigs (isig + 1) (ikey + 1)) as (b & -> & Hb); [done..|by split|apply Hc', incl_tl, incl_refl|simpl in Hl; lia|].
      exists b. split; [done|]. by rewrite matches_greedy.
    + destruct (Z.ltb_spec (Z.of_nat (length keys)) (zlen (sig :: sigs))) as [Hlt|Hge].
      { exists false. split; [done|]. split; [done|]. rewrite matches_skip_iff by done. intros Hm%matches_length.
        unfold zlen in *. lia. }
      destruct (IH (sig :: sigs) isig (ikey + 1)) as (b & -> & Hb);
        [done|done|split; [by constructor|done]|apply Hc', incl_refl|unfold zlen in Hge; lia|].
      exists b. split; [done|]. by rewrite matches_skip_iff.
Qed.
End Multisig.

Section MultisigOp.
Context (CheckLowS : bytes -> bool) (flags : Z) (checker : BaseSignatureChecker) (sigversion : SigVersion).

(** The script that is signed: the signatures are dropped from it before segwit. *)
Definition multisig_script (sigs : list bytes) (code : CScript) : CScript :=
  if bool_decide (sigversion = SIGVERSION_BASE)
  then fold_left (fun c sig => fst (FindAndDelete c (push_vch sig []))) sigs code else code.

Lemma multisig_code_spec stk sigs : forall isig code, on_stack stk isig sigs ->
  multisig_code sigversion stk isig (length sigs) code = mret (multisig_script sigs code).
Proof.
  unfold multisig_script. induction sigs as [|sig sigs IH]; intros isig code H; [by case_bool_decide|].
  apply on_stack_cons in H as [Ht H]. cbn [length multisig_code]. rewrite Ht. cbn [lift mbind scriptm_bind].
  rewrite IH by done. by case_bool_decide.
Qed.

(** The arguments: [keys] and [sigs] are in the order from the top down. *)
Definition multisig_args (keys sigs : list bytes) (dummy : bytes) (rest : Stack) : Stack :=
  scriptnum_serialize (zlen keys) :: keys ++ scriptnum_serialize (zlen sigs) :: sigs ++ dummy :: rest.

Definition nonempty (v : bytes) : bool := negb (zlen v =? 0).

Lemma clean_args ok a k s :
  multisig_clean flags ok (length a + k) (zlen a) (a ++ s) = multisig_clean flags ok k 0 s.
Proof.
  induction a as [|x a IH]; [done|]. rewrite zlen_cons. cbn [length Nat.add app multisig_clean].
  pose proof (zlen_nonneg a). destruct (Z.eqb_spec (zlen a + 1) 0); [lia|]. rewrite andb_false_r. cbn [andb fail_if mbind scriptm_bind mret scriptm_ret].
  destruct (Z.ltb_spec 0 (zlen a + 1)); [|lia]. rewrite <- IH. f_equal. lia.
Qed.

Lemma clean_sigs ok sigs rest :
  multisig_clean flags ok (length sigs) 0 (sigs ++ rest) =
    if negb ok && flag_on flags SCRIPT_VERIFY_NULLFAIL && existsb nonempty sigs
    then set_error SCRIPT_ERR_SIG_NULLFAIL else mret rest.
Proof.
  induction sigs as [|x sigs IH]; cbn [length app multisig_clean existsb]; [by rewrite andb_false_r|].
  change (0 =? 0) with true. change (0 <? 0) with false. rewrite andb_true_r.
  change (negb (zlen x =? 0)) with (nonempty x). rewrite IH. destruct ok, (flag_on flags _), (nonempty x); done.
Qed.

Lemma num_small n : 0 <= n <= 20 -> num_arg flags (scriptnum_serialize n) nDefaultMaxNumSize = mret n.
Proof.
  intros Hn. unfold num_arg. enough (CScriptNum (scriptnum_serialize n) (fRequireMinimal flags) nDefaultMaxNumSize = Ok n) as -> by done.
  generalize (fRequireMinimal flags). intros b.
  assert (H : forallb (fun k => bool_decide (CScriptNum (scriptnum_serialize (Z.of_nat k)) b nDefaultMaxNumSize = Ok (Z.of_nat k))) (seq 0 21) = true)
    by (destruct b; vm_compute; reflexivity).
  rewrite forallb_forall in H. specialize (H (Z.to_nat n)). rewrite bool_decide_eq_true, Z2Nat.id in H by lia.
  apply H, in_seq. lia.
Qed.

Lemma getint_small n : 0 <= n <= 20 -> getint n = n.
Proof. intros H. unfold getint, INT32_MAX. destruct (Z.ltb_spec (2 ^ 31 - 1) n); [lia|]. destruct (Z.ltb_spec n (- 2 ^ 31)); lia. Qed.

Lemma args_on_stack (pre l post : Stack) : on_stack (pre ++ l ++ post) (zlen pre + 1) l.
Proof.
  split; [pose proof (zlen_nonneg pre); lia|]. replace (Z.to_nat (zlen pre + 1 - 1)) with (length pre) by (unfold zlen; lia).
  by rewrite drop_app_length, take_app_length.
Qed.

Lemma stacktop_at (pre : Stack) x post i : i = zlen pre + 1 -> stacktop (pre ++ x :: post) i = Ok x.
Proof.
  intros ->. destruct (on_stack_cons (pre ++ [x] ++ post) (zlen pre + 1) x []) as [H _]; [apply args_on_stack|done].
Qed.
End MultisigOp.

(** C25: CHECKMULTISIG decides a matching.  With well-encoded arguments, up to 20 keys
    and no more signatures than keys, the operation pushes true exactly when
    the signatures are valid for a subsequence of the keys, in order; it drops
    its arguments with the extra element below them, counts the keys as
    operations, and fails exactly where NULLFAIL, NULLDUMMY or the VERIFY
    variant say. *)
Theorem checkmultisig_correct CheckLowS flags checker sigversion check op code nOps keys sigs dummy rest :
  zlen keys <= MAX_PUBKEYS_PER_MULTISIG -> zlen sigs <= zlen keys -> nOps + zlen keys <= MAX_OPS_PER_SCRIPT ->
  zlen (multisig_args keys sigs dummy rest) < 2 ^ 31 ->
  encodings_ok CheckLowS flags sigversion sigs keys ->
  checks checker sigversion check (multisig_script sigversion sigs code) sigs keys ->
  exists b, (b = true <-> matches check sigs keys) /\
    checkmultisig_op CheckLowS flags checker sigversion op code nOps (multisig_args keys sigs dummy rest) =
      if negb b && flag_on flags SCRIPT_VERIFY_NULLFAIL && existsb nonempty sigs then set_error SCRIPT_ERR_SIG_NULLFAIL
      else if flag_on flags SCRIPT_VERIFY_NULLDUMMY && nonempty dummy then set_error SCRIPT_ERR_SIG_NULLDUMMY
      else if op =? OP_CHECKMULTISIGVERIFY
      then (if b then mret (nOps + zlen keys, rest) else set_error SCRIPT_ERR_CHECKMULTISIGVERIFY)
      else mret (nOps + zlen keys, vchBool b :: rest).
Proof.
  intros Hk Hs Ho Hl He Hc. set (a := scriptnum_serialize (zlen keys)) in *. set (b := scriptnum_serialize (zlen sigs)).
  pose proof (zlen_nonneg keys). pose proof (zlen_nonneg sigs). pose proof (zlen_nonneg rest). unfold MAX_PUBKEYS_PER_MULTISIG in *.
  assert (Hargs : multisig_args keys sigs dummy rest = (a :: keys ++ [b]) ++ sigs ++ dummy :: rest)
    by (unfold multisig_args; cbn; by rewrite <- app_assoc).
  assert (Hlen : zlen (multisig_args keys sigs dummy rest) = 3 + zlen keys + zlen sigs + zlen rest).
  { rewrite Hargs, !zlen_app, !zlen_cons, zlen_app, !zlen_cons. change (@zlen bytes []) with 0. lia. }
  assert (Hkeys : on_stack (multisig_args keys sigs dummy rest) 2 keys) by apply (args_on_stack [a] keys (b :: sigs ++ dummy :: rest)).
  assert (Hsigs : on_stack (multisig_args keys sigs dummy rest) (2 + zlen keys + 1) sigs).
  { rewrite Hargs. pose proof (args_on_stack (a :: keys ++ [b]) sigs (dummy :: rest)) as E.
    rewrite zlen_cons, zlen_app in E. change (zlen [b]) with 1 in E. replace (2 + zlen keys + 1) with (zlen keys + 1 + 1 + 1) by lia. exact E. }
  destruct (multisig_loop_spec CheckLowS flags checker sigversion check (multisig_script sigversion sigs code)
    _ keys sigs (2 + zlen keys + 1) 2 Hsigs Hkeys He Hc) as (r & Hloop & Hr); [unfold zlen in Hs; lia|].
  exists r. split; [exact Hr|]. unfold checkmultisig_op. cbv zeta.
  rewrite i32_small by (unfold is_i32; lia). destruct (Z.ltb_spec (zlen (multisig_args keys sigs dummy rest)) 1); [lia|].
  rewrite (stacktop_at [] a (keys ++ b :: sigs ++ dummy :: rest) 1 eq_refl : stacktop (multisig_args keys sigs dummy rest) 1 = _).
  cbn [lift mbind scriptm_bind]. unfold a at 1. rewrite num_small by lia. cbn [mbind scriptm_bind mret scriptm_ret].
  rewrite getint_small by lia. unfold MAX_PUBKEYS_PER_MULTISIG. destruct (Z.ltb_spec (zlen keys) 0), (Z.ltb_spec 20 (zlen keys)); try lia.
  cbn [orb fail_if mret scriptm_ret mbind scriptm_bind].
  destruct (Z.ltb_spec MAX_OPS_PER_SCRIPT (nOps + zlen keys)); [lia|]. cbn [fail_if mret scriptm_ret mbind scriptm_bind].
  destruct (Z.ltb_spec (zlen (multisig_args keys sigs dummy rest)) (1 + 1 + zlen keys)); [lia|].
  rewrite (stacktop_at (a :: keys) b (sigs ++ dummy :: rest) (1 + 1 + zlen keys) ltac:(rewrite zlen_cons; lia) : stacktop (multisig_args keys sigs dummy rest) _ = _).
  cbn [lift mbind scriptm_bind]. unfold b at 1. rewrite num_small by lia. cbn [mbind scriptm_bind mret scriptm_ret].
  rewrite getint_small by lia. destruct (Z.ltb_spec (zlen sigs) 0), (Z.ltb_spec (zlen keys) (zlen sigs)); try lia.
  cbn [orb fail_if mret scriptm_ret mbind scriptm_bind].
  destruct (Z.ltb_spec (zlen (multisig_args keys sigs dummy rest)) (1 + 1 + zlen keys + 1 + zlen sigs)); [lia|].
  replace (Z.to_nat (zlen sigs)) with (length sigs) by (unfold zlen; lia).
  replace (Z.to_nat (zlen keys)) with (length keys) by (unfold zlen; lia).
  change (1 + 1) with 2. rewrite multisig_code_spec by done. cbn [mret scriptm_ret mbind scriptm_bind]. rewrite Hloop.
  cbn [mbind scriptm_bind]. rewrite Hargs. replace (zlen keys + 2) with (zlen (a :: keys ++ [b])) by (rewrite zlen_cons, zlen_app; change (zlen [b]) with 1; lia).
  replace (Z.to_nat (2 + zlen keys + 1 + zlen sigs - 1)) with (length (a :: keys ++ [b]) + length sigs)%nat
    by (simpl; rewrite length_app; unfold zlen; simpl; lia).
  rewrite clean_args, clean_sigs. destruct (negb r && _ && _); [reflexivity|]. cbn [mret scriptm_ret mbind scriptm_bind].
  change (negb (zlen dummy =? 0)) with (nonempty dummy). destruct (flag_on flags SCRIPT_VERIFY_NULLDUMMY && nonempty dummy); [reflexivity|].
  cbn [fail_if mret scriptm_ret mbind scriptm_bind]. destruct (op =? OP_CHECKMULTISIGVERIFY), r; reflexivity.
Qed.

(** A checker that accepts a key as its own signature. *)
Definition example_checker : BaseSignatureChecker :=
  mkSigChecker (fun sig key _ _ => Ok (bool_decide (sig = key))) (fun _ => false) (fun _ => false).

Lemma checkmultisig_correct_witness :
  exists b, (b = true <-> matches (fun sig key => bool_decide (sig = key)) [[2]] [[3]; [2]; [1]]) /\
    checkmultisig_op (fun _ => true) SCRIPT_VERIFY_NULLDUMMY example_checker SIGVERSION_WITNESS_V0 OP_CHECKMULTISIG [] 0
      (multisig_args [[3]; [2]; [1]] [[2]] [] [[7]]) = mret (3, vchBool b :: [[7]]).
Proof.
  destruct (checkmultisig_correct (fun _ => true) SCRIPT_VERIFY_NULLDUMMY example_checker SIGVERSION_WITNESS_V0
    (fun sig key => bool_decide (sig = key)) OP_CHECKMULTISIG [] 0 [[3]; [2]; [1]] [[2]] [] [[7]]) as (b & Hb & Hr).
  - discriminate.
  - discriminate.
  - discriminate.
  - reflexivity.
  - split; repeat constructor.
  - intros sig key _ _. reflexivity.
  - exists b. split; [exact Hb|]. rewrite Hr. destruct b; reflexivity.
Defined.

(** ** Pay to public key hash *)

Definition p2pkh_script (h : bytes) : CScript := [OP_DUP; OP_HASH160; 20] ++ h ++ [OP_EQUALVERIFY; OP_CHECKSIG].

Section P2PKH.
Context (CheckLowS : bytes -> bool) (flags : Z) (checker : BaseSignatureChecker) (v : SigVersion).

(** One step of the loop that goes on. *)
Lemma eval_next op vch pc pc' st st' :
  GetOp2 pc = Some (op, vch, pc') -> eval_step CheckLowS flags checker v op vch pc' st = Ok (inr st') ->
  op_run (eval_body CheckLowS flags checker v) (fun _ => set_error SCRIPT_ERR_BAD_OPCODE) eval_end pc st =
  op_run (eval_body CheckLowS flags checker v) (fun _ => set_error SCRIPT_ERR_BAD_OPCODE) eval_end pc' st'.
Proof. intros H Hs. rewrite (op_run_step _ _ _ _ _ _ _ _ H). unfold eval_body. by rewrite Hs. Qed.

(** A push that is executed. *)
Lemma eval_push op vch pc stk alt n code :
  0 <= op <= OP_PUSHDATA4 -> zlen vch <= MAX_SCRIPT_ELEMENT_SIZE ->
  (fRequireMinimal flags = true -> CheckMinimalPush vch op = Ok true) ->
  zlen stk + zlen alt < MAX_STACK_SIZE ->
  eval_step CheckLowS flags checker v op vch pc (mkEvalState stk alt [] n code) =
    Ok (inr (mkEvalState (vch :: stk) alt [] n code)).
Proof.
  intros Hop Hl Hm Hs. unfold eval_step. cbn [vfExec forallb stack altstack nOpCount pbegincodehash]. cbv zeta.
  destruct (Z.ltb_spec MAX_SCRIPT_ELEMENT_SIZE (zlen vch)); [lia|]. cbn [fail_if mret scriptm_ret mbind scriptm_bind].
  destruct (Z.ltb_spec OP_16 op); [unfold OP_16, OP_PUSHDATA4 in *; lia|]. cbn [andb fail_if mret scriptm_ret mbind scriptm_bind].
  assert (disabled_opcode op = false) as ->.
  { unfold disabled_opcode. repeat (apply orb_false_iff; split);
      (apply Z.eqb_neq; unfold OP_PUSHDATA4 in Hop; match goal with |- op <> ?o => unfold o; lia end). }
  destruct (Z.leb_spec 0 op), (Z.leb_spec op OP_PUSHDATA4); try lia. cbn [andb fail_if mret scriptm_ret mbind scriptm_bind].
  assert (Hmin : (if fRequireMinimal flags then lift (CheckMinimalPush vch op) else mret true) = mret true).
  { destruct (fRequireMinimal flags); [by rewrite Hm|done]. }
  rewrite Hmin. cbn [negb fail_if mret scriptm_ret mbind scriptm_bind set_stack stack altstack].
  rewrite zlen_cons. destruct (Z.ltb_spec MAX_STACK_SIZE (zlen stk + 1 + zlen alt)); [lia|]. reflexivity.
Qed.

(** An operation that is executed. *)
Lemma eval_exec op pc stk alt n code :
  OP_16 < op -> disabled_opcode op = false -> n < MAX_OPS_PER_SCRIPT ->
  eval_step CheckLowS flags checker v op [] pc (mkEvalState stk alt [] n code) =
    (st ← exec_op CheckLowS flags checker v op true pc (mkEvalState stk alt [] (n + 1) code);
     _ ← fail_if (MAX_STACK_SIZE <? zlen (stack st) + zlen (altstack st)) SCRIPT_ERR_STACK_SIZE;
     mret st).
Proof.
  intros Hop Hd Hn. unfold eval_step. cbn [vfExec forallb stack altstack nOpCount pbegincodehash]. cbv zeta.
  change (MAX_SCRIPT_ELEMENT_SIZE <? zlen []) with false. cbn [fail_if mret scriptm_ret mbind scriptm_bind].
  destruct (Z.ltb_spec OP_16 op); [|lia]. destruct (Z.ltb_spec MAX_OPS_PER_SCRIPT (n + 1)); [lia|]. rewrite Hd.
  cbn [andb fail_if mret scriptm_ret mbind scriptm_bind].
  destruct (Z.leb_spec op OP_PUSHDATA4); [unfold OP_16, OP_PUSHDATA4 in *; lia|].
  by rewrite andb_false_r.
Qed.

Lemma minimal_push vch : 2 <= zlen vch <= 75 -> CheckMinimalPush vch (zlen vch) = Ok true.
Proof.
  intros H. unfold CheckMinimalPush, OP_PUSHDATA4. destruct (Z.leb_spec 0 (zlen vch)), (Z.leb_spec (zlen vch) 78); try lia.
  cbn [andb assert_then]. destruct (Z.eqb_spec (zlen vch) 0), (Z.eqb_spec (zlen vch) 1); try lia. cbn [andb].
  destruct (Z.leb_spec (zlen vch) 75); [|lia]. by rewrite Z.eqb_refl.
Qed.

Lemma checksig_result code key sig rest s :
  checksig_op CheckLowS flags checker v OP_CHECKSIG code (key :: sig :: rest) = Ok (inr s) -> exists b, s = vchBool b :: rest.
Proof.
  unfold checksig_op. set (c := if bool_decide _ then _ else _). clearbody c.
  destruct (CheckSignatureEncoding _ _ _) as [[|[]]|]; try discriminate.
  destruct (CheckPubKeyEncoding _ _ _) as [[|[]]|]; try discriminate. cbn [mbind scriptm_bind].
  destruct (CheckSig checker sig key c v) as [b|]; try discriminate. cbn [lift mbind scriptm_bind].
  destruct (_ && _); [discriminate|]. intros [= <-]. by exists b.
Qed.

(** The evaluation of a pay-to-pubkey-hash script on a key and a signature. *)
Lemma eval_p2pkh h key sig rest : zlen h = 20 -> zlen rest + 4 <= MAX_STACK_SIZE ->
  EvalScript CheckLowS flags checker v (key :: sig :: rest) (p2pkh_script h) =
    if bool_decide (Hash160 key = h)
    then catch_all (checksig_op CheckLowS flags checker v OP_CHECKSIG (p2pkh_script h) (key :: sig :: rest))
    else set_error SCRIPT_ERR_EQUALVERIFY.
Proof.
  intros Hh Hr. pose proof (zlen_nonneg rest). unfold EvalScript, eval_try. set (code := p2pkh_script h).
  assert (Hsz : zlen code = 25) by (unfold code, p2pkh_script; rewrite !zlen_app, Hh; reflexivity).
  rewrite Hsz. change (MAX_SCRIPT_SIZE <? 25) with false. cbv iota.
  set (after := h ++ [OP_EQUALVERIFY; OP_CHECKSIG]). assert (Hcode : code = OP_DUP :: OP_HASH160 :: 20 :: after) by reflexivity.
  assert (Hsmall : forall l : Stack, zlen l <= zlen rest + 4 -> (MAX_STACK_SIZE <? zlen l + zlen (@nil bytes)) = false).
  { intros l Hl. apply Z.ltb_ge. change (zlen (@nil bytes)) with 0. lia. }
  rewrite Hcode at 1. rewrite (eval_next OP_DUP [] _ (OP_HASH160 :: 20 :: after) _ (mkEvalState (key :: key :: sig :: rest) [] [] 1 code)).
  2: reflexivity.
  2:{ rewrite eval_exec by (vm_compute; reflexivity). cbn -[zlen MAX_STACK_SIZE]. rewrite Hsmall by (rewrite !zlen_cons; lia). reflexivity. }
  rewrite (eval_next OP_HASH160 [] _ (20 :: after) _ (mkEvalState (Hash160 key :: key :: sig :: rest) [] [] 2 code)).
  2: reflexivity.
  2:{ rewrite eval_exec by (vm_compute; reflexivity). cbn -[zlen MAX_STACK_SIZE]. rewrite Hsmall by (rewrite !zlen_cons; lia). reflexivity. }
  rewrite (eval_next 20 h _ [OP_EQUALVERIFY; OP_CHECKSIG] _ (mkEvalState (h :: Hash160 key :: key :: sig :: rest) [] [] 2 code)).
  2:{ cbn [GetOp2]. change (20 <=? OP_PUSHDATA4) with true. change (20 <? OP_PUSHDATA1) with true. cbv iota.
      rewrite <- Hh at 2. apply GetOp2_data_app. rewrite zlen_app, Hh. reflexivity. }
  2:{ apply eval_push; [unfold OP_PUSHDATA4; lia|rewrite Hh; discriminate| |].
      - intros _. rewrite <- Hh. apply minimal_push. lia.
      - rewrite !zlen_cons. change (zlen (@nil bytes)) with 0. lia. }
  case_bool_decide as Hhash.
  2:{ rewrite op_run_eq. cbn [GetOp2]. change (OP_EQUALVERIFY <=? OP_PUSHDATA4) with false. cbv iota. unfold eval_body at 1.
      rewrite eval_exec by (vm_compute; reflexivity). cbn -[bool_decide op_run]. by rewrite bool_decide_eq_false_2. }
  rewrite (eval_next OP_EQUALVERIFY [] _ [OP_CHECKSIG] _ (mkEvalState (key :: sig :: rest) [] [] 3 code)).
  2: reflexivity.
  2:{ rewrite eval_exec by (vm_compute; reflexivity). cbn -[zlen MAX_STACK_SIZE bool_decide]. rewrite bool_decide_eq_true_2 by done.
      cbn -[zlen MAX_STACK_SIZE]. rewrite Hsmall by (rewrite !zlen_cons; lia). reflexivity. }
  rewrite op_run_eq. cbn [GetOp2]. change (OP_CHECKSIG <=? OP_PUSHDATA4) with false. cbv iota. unfold eval_body at 1.
  rewrite eval_exec by (vm_compute; reflexivity). cbn -[zlen MAX_STACK_SIZE op_run checksig_op].
  pose proof (checksig_result code key sig rest) as Hres.
  destruct (checksig_op _ _ _ _ _ _ _) as [[e|s]|e]; cbn -[zlen MAX_STACK_SIZE op_run]; [done| |by destruct e].
  destruct (Hres s eq_refl) as [b ->]. rewrite Hsmall by (rewrite !zlen_cons; lia). reflexivity.
Qed.

(** A run that succeeds goes through every step. *)
Lemma eval_next_inv op vch pc pc' st s : GetOp2 pc = Some (op, vch, pc') ->
  op_run (eval_body CheckLowS flags checker v) (fun _ => set_error SCRIPT_ERR_BAD_OPCODE) eval_end pc st = Ok (inr s) ->
  exists st', eval_step CheckLowS flags checker v op vch pc' st = Ok (inr st') /\
    op_run (eval_body CheckLowS flags checker v) (fun _ => set_error SCRIPT_ERR_BAD_OPCODE) eval_end pc' st' = Ok (inr s).
Proof.
  intros H. rewrite (op_run_step _ _ _ _ _ _ _ _ H). unfold eval_body at 1.
  destruct (eval_step _ _ _ _ _ _ _ _) as [[e|st']|e]; [discriminate|by exists st'|discriminate].
Qed.

Lemma eval_exec_inv op pc stk alt n code st' : OP_16 < op -> disabled_opcode op = false -> n < MAX_OPS_PER_SCRIPT ->
  eval_step CheckLowS flags checker v op [] pc (mkEvalState stk alt [] n code) = Ok (inr st') ->
  exec_op CheckLowS flags checker v op true pc (mkEvalState stk alt [] (n + 1) code) = Ok (inr st') /\
  zlen (stack st') + zlen (altstack st') <= MAX_STACK_SIZE.
Proof.
  intros Hop Hd Hn. rewrite eval_exec by done. destruct (exec_op _ _ _ _ _ _ _ _) as [[e|st1]|e]; [discriminate| |discriminate]. cbn [mbind scriptm_bind].
  destruct (Z.ltb_spec MAX_STACK_SIZE (zlen (stack st1) + zlen (altstack st1))); [discriminate|]. cbn [fail_if mret scriptm_ret mbind scriptm_bind]. by intros [= <-].
Qed.

Lemma eval_push_inv op vch pc stk alt n code st' : 0 <= op <= OP_PUSHDATA4 ->
  eval_step CheckLowS flags checker v op vch pc (mkEvalState stk alt [] n code) = Ok (inr st') ->
  st' = mkEvalState (vch :: stk) alt [] n code /\ zlen stk + zlen alt < MAX_STACK_SIZE.
Proof.
  intros Hop. unfold eval_step. cbn [vfExec forallb stack altstack nOpCount pbegincodehash]. cbv zeta.
  destruct (MAX_SCRIPT_ELEMENT_SIZE <? zlen vch); [discriminate|]. cbn [fail_if mret scriptm_ret mbind scriptm_bind].
  destruct (Z.ltb_spec OP_16 op); [unfold OP_16, OP_PUSHDATA4 in *; lia|]. cbn [andb fail_if mret scriptm_ret mbind scriptm_bind].
  destruct (disabled_opcode op); [discriminate|]. destruct (Z.leb_spec 0 op), (Z.leb_spec op OP_PUSHDATA4); try lia. cbn [andb fail_if mret scriptm_ret mbind scriptm_bind].
  destruct (if fRequireMinimal flags then _ else _) as [[e|m]|e]; [discriminate| |discriminate]. cbn [mbind scriptm_bind].
  destruct m; [|discriminate]. cbn [negb fail_if mret scriptm_ret mbind scriptm_bind set_stack stack altstack]. rewrite zlen_cons.
  destruct (Z.ltb_spec MAX_STACK_SIZE (zlen stk + 1 + zlen alt)); [discriminate|]. intros [= <-]. split; [done|lia].
Qed.

(** A pay-to-pubkey-hash script needs a key and a signature, and room above them. *)
Lemma eval_p2pkh_inv h stk s : zlen h = 20 -> EvalScript CheckLowS flags checker v stk (p2pkh_script h) = Ok (inr s) ->
  exists key sig rest, stk = key :: sig :: rest /\ zlen rest + 4 <= MAX_STACK_SIZE.
Proof.
  intros Hh. unfold EvalScript, eval_try. destruct (MAX_SCRIPT_SIZE <? _); [discriminate|]. intros Hr.
  assert (Hrun : op_run (eval_body CheckLowS flags checker v) (fun _ => set_error SCRIPT_ERR_BAD_OPCODE) eval_end
    (OP_DUP :: OP_HASH160 :: 20 :: h ++ [OP_EQUALVERIFY; OP_CHECKSIG]) (mkEvalState stk [] [] 0 (p2pkh_script h)) = Ok (inr s)).
  { change (OP_DUP :: OP_HASH160 :: 20 :: h ++ [OP_EQUALVERIFY; OP_CHECKSIG]) with (p2pkh_script h).
    destruct (op_run _ _ _ _ _) as [[e|r]|[]]; try discriminate Hr. exact Hr. }
  clear Hr. set (code := p2pkh_script h) in *. clearbody code.
  apply (eval_next_inv OP_DUP [] _ (OP_HASH160 :: 20 :: h ++ [OP_EQUALVERIFY; OP_CHECKSIG])) in Hrun as (st1 & E1 & Hrun); [|reflexivity].
  apply eval_exec_inv in E1 as [E1 _]; [|vm_compute; reflexivity..]. cbn in E1. destruct stk as [|key stk]; [discriminate E1|]. injection E1 as <-.
  apply (eval_next_inv OP_HASH160 [] _ (20 :: h ++ [OP_EQUALVERIFY; OP_CHECKSIG])) in Hrun as (st2 & E2 & Hrun); [|reflexivity].
  apply eval_exec_inv in E2 as [E2 _]; [|vm_compute; reflexivity..]. cbn in E2. injection E2 as <-.
  apply (eval_next_inv 20 h _ [OP_EQUALVERIFY; OP_CHECKSIG]) in Hrun as (st3 & E3 & Hrun).
  2:{ cbn [GetOp2]. change (20 <=? OP_PUSHDATA4) with true. change (20 <? OP_PUSHDATA1) with true. cbv iota.
      rewrite <- Hh at 2. apply GetOp2_data_app. rewrite zlen_app, Hh. reflexivity. }
  apply eval_push_inv in E3 as [-> Hsz]; [|unfold OP_PUSHDATA4; lia]. cbn [set_stack stack altstack] in Hsz. rewrite !zlen_cons in Hsz. change (zlen (@nil bytes)) with 0 in Hsz.
  apply (eval_next_inv OP_EQUALVERIFY [] _ [OP_CHECKSIG]) in Hrun as (st4 & E4 & Hrun); [|reflexivity].
  apply eval_exec_inv in E4 as [E4 _]; [|vm_compute; reflexivity..]. cbn -[bool_decide] in E4. case_bool_decide; [|discriminate E4]. injection E4 as <-.
  apply (eval_next_inv OP_CHECKSIG [] _ []) in Hrun as (st5 & E5 & _); [|reflexivity].
  apply eval_exec_inv in E5 as [E5 _]; [|vm_compute; reflexivity..]. cbn -[checksig_op] in E5.
  destruct stk as [|sig rest]; [discriminate E5|]. exists key, sig, rest. split; [done|]. rewrite zlen_cons in Hsz. lia.
Qed.

(** The script that supplies a signature and a key. *)
Definition p2pkh_input (sig key : bytes) : CScript := push_vch sig [] ++ push_vch key [].

End P2PKH.

Lemma p2pkh_head h : zlen h = 20 ->
  zlen (p2pkh_script h) = 25 /\ script_at (p2pkh_script h) 0 = OP_DUP.
Proof. intros Hh. split; [|done]. unfold p2pkh_script. by rewrite !zlen_app, Hh. Qed.

Lemma p2pkh_not_p2sh h : zlen h = 20 -> IsPayToScriptHash (p2pkh_script h) = false.
Proof. intros [Hl _]%p2pkh_head. unfold IsPayToScriptHash. by rewrite Hl. Qed.

Lemma p2pkh_not_witness h : zlen h = 20 -> IsWitnessProgram (p2pkh_script h) = None.
Proof. intros [Hl H0]%p2pkh_head. unfold IsWitnessProgram. by rewrite Hl, H0. Qed.

Lemma script_bind_ok {A B} (m : ScriptM A) (f : A -> ScriptM B) b : (m ≫= f) = mret b <-> exists a, m = mret a /\ f a = mret b.
Proof. destruct m as [[e|a]|e]; cbn; split; try (by intros (? & ? & _)); try done; [by exists a|by intros (? & [= <-] & ?)]. Qed.

Lemma fail_if_ok b e u : fail_if b e = mret u <-> b = false.
Proof. destruct b, u; done. Qed.

(** What CHECKSIG asks of a signature and a key of the output with hash [h]. *)
Definition p2pkh_spends CheckLowS (flags : Z) (checker : BaseSignatureChecker) (h sig key : bytes) : Prop :=
  Hash160 key = h /\ CheckSignatureEncoding CheckLowS sig flags = mret tt /\
  CheckPubKeyEncoding key flags SIGVERSION_BASE = mret tt /\
  CheckSig checker sig key (fst (FindAndDelete (p2pkh_script h) (push_vch sig []))) SIGVERSION_BASE = Ok true.

Lemma eval_p2pkh_true CheckLowS flags checker h key sig rest : zlen h = 20 -> zlen rest + 4 <= MAX_STACK_SIZE ->
  (exists s, EvalScript CheckLowS flags checker SIGVERSION_BASE (key :: sig :: rest) (p2pkh_script h) = mret s /\ require_true s = mret tt) <->
  p2pkh_spends CheckLowS flags checker h sig key.
Proof.
  intros Hh Hr. rewrite eval_p2pkh by done. unfold p2pkh_spends. case_bool_decide as Hhash; [|split; [intros (? & Hx & _); discriminate Hx|by intros [? _]]].
  unfold checksig_op. change (bool_decide (SIGVERSION_BASE = SIGVERSION_BASE)) with true. cbv iota zeta.
  destruct (CheckSignatureEncoding CheckLowS sig flags) as [[|[]]|[]]; try (split; [intros (? & Hx & _); discriminate Hx|intros (_ & ? & _); discriminate]).
  cbn [mret scriptm_ret mbind scriptm_bind].
  destruct (CheckPubKeyEncoding key flags SIGVERSION_BASE) as [[|[]]|[]]; try (split; [intros (? & Hx & _); discriminate Hx|intros (_ & _ & ? & _); discriminate]).
  cbn [mret scriptm_ret mbind scriptm_bind].
  destruct (CheckSig checker sig key _ SIGVERSION_BASE) as [b|[]]; try (split; [intros (? & Hx & _); discriminate Hx|intros (_ & _ & _ & ?); discriminate]).
  change (OP_CHECKSIG =? OP_CHECKSIGVERIFY) with false. cbn [lift mbind scriptm_bind]. destruct b; cbn [negb andb fail_if mret scriptm_ret mbind scriptm_bind catch_all].
  - split; intros _; [split_and!; reflexivity || exact Hhash|]. exists (vchBool true :: rest). split; reflexivity.
  - split; [|intros (_ & _ & _ & ?); discriminate]. intros (s & Es & Ht). destruct (_ && _); [discriminate Es|]. injection Es as <-. discriminate Ht.
Qed.

Lemma eval_p2pkh_rest CheckLowS flags checker h key sig rest s : zlen h = 20 -> zlen rest + 4 <= MAX_STACK_SIZE ->
  EvalScript CheckLowS flags checker SIGVERSION_BASE (key :: sig :: rest) (p2pkh_script h) = Ok (inr s) -> zlen s = zlen rest + 1.
Proof.
  intros Hh Hr. rewrite eval_p2pkh by done. case_bool_decide; [|discriminate]. pose proof (checksig_result CheckLowS flags checker SIGVERSION_BASE (p2pkh_script h) key sig rest) as Hres.
  destruct (checksig_op _ _ _ _ _ _ _) as [[e|x]|[]]; try discriminate. intros [= <-]. destruct (Hres x eq_refl) as [b ->]. apply zlen_cons.
Qed.

(** The rest of [VerifyScript] when the output is neither a script hash nor a witness program. *)
Lemma verify_plain CheckLowS flags checker h scriptSig witness : zlen h = 20 -> flags_legal flags ->
  VerifyScript CheckLowS flags checker scriptSig (p2pkh_script h) witness = mret tt <->
  (flag_on flags SCRIPT_VERIFY_SIGPUSHONLY = true -> IsPushOnly scriptSig = true) /\
  exists stk s, EvalScript CheckLowS flags checker SIGVERSION_BASE [] scriptSig = mret stk /\
    EvalScript CheckLowS flags checker SIGVERSION_BASE stk (p2pkh_script h) = mret s /\ require_true s = mret tt /\
    (flag_on flags SCRIPT_VERIFY_CLEANSTACK = true -> zlen s = 1) /\
    (flag_on flags SCRIPT_VERIFY_WITNESS = true -> witness = []).
Proof.
  intros Hh [Hcs Hw]. unfold VerifyScript. cbv zeta. rewrite script_bind_ok. setoid_rewrite script_bind_ok. setoid_rewrite script_bind_ok. setoid_rewrite script_bind_ok.
  assert (Hvp : forall s, verify_program CheckLowS flags checker (p2pkh_script h) (zlen scriptSig =? 0) SCRIPT_ERR_WITNESS_MALLEATED witness false s = mret (false, s)).
  { intros s. unfold verify_program. rewrite p2pkh_not_witness by done. destruct (flag_on flags SCRIPT_VERIFY_WITNESS); reflexivity. }
  setoid_rewrite Hvp. cbn [mret scriptm_ret mbind scriptm_bind]. rewrite p2pkh_not_p2sh, andb_false_r by done. cbn [mret scriptm_ret mbind scriptm_bind].
  assert (Hend : forall s : Stack, (_ ← (if flag_on flags SCRIPT_VERIFY_CLEANSTACK then
         lift (assert_then (flag_on flags SCRIPT_VERIFY_P2SH) "(flags & SCRIPT_VERIFY_P2SH) != 0"
                (assert_then (flag_on flags SCRIPT_VERIFY_WITNESS) "(flags & SCRIPT_VERIFY_WITNESS) != 0" (Ok tt)))
         ≫= fun _ => fail_if (negb (zlen s =? 1)) SCRIPT_ERR_CLEANSTACK
       else mret tt);
      (if flag_on flags SCRIPT_VERIFY_WITNESS then
     lift (assert_then (flag_on flags SCRIPT_VERIFY_P2SH) "(flags & SCRIPT_VERIFY_P2SH) != 0" (Ok tt))
     ≫= fun _ => fail_if (negb false && negb (CScriptWitness_IsNull witness)) SCRIPT_ERR_WITNESS_UNEXPECTED
   else (mret tt : ScriptM unit))) = mret tt <->
    (flag_on flags SCRIPT_VERIFY_CLEANSTACK = true -> zlen s = 1) /\ (flag_on flags SCRIPT_VERIFY_WITNESS = true -> witness = [])).
  { intros s. assert (Hn : CScriptWitness_IsNull witness = true <-> witness = []) by (by destruct witness).
    destruct (flag_on flags SCRIPT_VERIFY_CLEANSTACK).
    - rewrite Hw, Hcs by auto. cbn. destruct (Z.eqb_spec (zlen s) 1), (CScriptWitness_IsNull witness); cbn; naive_solver.
    - destruct (flag_on flags SCRIPT_VERIFY_WITNESS); [rewrite Hw by auto|]; cbn; destruct (CScriptWitness_IsNull witness); cbn; naive_solver. }
  setoid_rewrite Hend. setoid_rewrite fail_if_ok.
  split.
  - intros (u & Hp%andb_false_iff & stk & E1 & s & E2 & [] & E3 & H4 & H5). split; [intros Hf; destruct Hp as [Hp|Hp%negb_false_iff]; congruence|]. by exists stk, s.
  - intros (Hp & stk & s & E1 & E2 & E3 & H4 & H5). exists tt. split; [destruct (flag_on flags SCRIPT_VERIFY_SIGPUSHONLY); [by rewrite Hp|done]|]. exists stk. split; [done|]. exists s. split; [done|]. by exists tt.
Qed.

(** C26: A pay-to-pubkey-hash output is spent by its key and by nothing else.
    Whatever script and witness the input has, under any legal combination of
    flags, verification succeeds exactly when the input's script leaves a
    signature and, on top of it, a key such that the key hashes to the hash of the
    output, both are encoded as the flags require, and the checker accepts the
    signature over the output's script; and when moreover there is room for two
    more elements on the stack, the script has only pushes if SIGPUSHONLY is set,
    nothing lies below the two if CLEANSTACK is set, and the witness is empty if
    WITNESS is set. *)
Theorem p2pkh_correct CheckLowS flags checker h scriptSig witness :
  zlen h = 20 -> flags_legal flags ->
  VerifyScript CheckLowS flags checker scriptSig (p2pkh_script h) witness = mret tt <->
  exists key sig rest, EvalScript CheckLowS flags checker SIGVERSION_BASE [] scriptSig = mret (key :: sig :: rest) /\
    p2pkh_spends CheckLowS flags checker h sig key /\ zlen rest + 4 <= MAX_STACK_SIZE /\
    (flag_on flags SCRIPT_VERIFY_SIGPUSHONLY = true -> IsPushOnly scriptSig = true) /\
    (flag_on flags SCRIPT_VERIFY_CLEANSTACK = true -> rest = []) /\
    (flag_on flags SCRIPT_VERIFY_WITNESS = true -> witness = []).
Proof.
  intros Hh Hf. rewrite verify_plain by done. split.
  - intros (Hp & stk & s & E1 & E2 & E3 & Hc & Hw). destruct (eval_p2pkh_inv _ _ _ _ _ _ _ Hh E2) as (key & sig & rest & -> & Hr).
    exists key, sig, rest. split_and!; try done; [by apply (eval_p2pkh_true CheckLowS flags checker h key sig rest Hh Hr); exists s|].
    intros Hcs%Hc. rewrite (eval_p2pkh_rest _ _ _ _ _ _ _ _ Hh Hr E2) in Hcs. destruct rest; [done|]. rewrite zlen_cons in Hcs. pose proof (zlen_nonneg rest). lia.
  - intros (key & sig & rest & E1 & Hs & Hr & Hp & Hc & Hw). split; [done|].
    apply (eval_p2pkh_true CheckLowS flags checker h key sig rest Hh Hr) in Hs as (s & E2 & E3). exists (key :: sig :: rest), s. split_and!; try done.
    intros ->%Hc. by rewrite (eval_p2pkh_rest _ _ _ _ _ _ _ _ Hh Hr E2).
Qed.

Lemma p2pkh_correct_witness :
  VerifyScript (fun _ => true) SCRIPT_VERIFY_P2SH example_checker (p2pkh_input [2; 7] [2; 7]) (p2pkh_script (Hash160 [2; 7])) [] = mret tt.
Proof.
  apply (p2pkh_correct (fun _ => true) SCRIPT_VERIFY_P2SH example_checker (Hash160 [2; 7]) (p2pkh_input [2; 7] [2; 7]) []).
  - vm_compute. reflexivity.
  - split; [discriminate|reflexivity].
  - exists [2; 7], [2; 7], []. split; [vm_compute; reflexivity|]. split; [repeat split|]. split; [discriminate|]. repeat split.
Defined.
