(* ===== verification/SigHash.v ===== *)
(** * Signature hashes and the transaction signature checker (interpreter.cpp, interpreter.h, pubkey.h)

    What a signature signs: the legacy form, in which the transaction is
    serialized with parts left out, and the form of witness version 0, with
    the three hashes that may be computed beforehand. The checker that the
    interpreter asks for signatures and lock times is built over a transaction;
    the elliptic-curve verification is a parameter. *)
From S2P Require Import Prelude StrEncodings Serialize Amount Crypto Script Transaction Interpreter InterpreterSafety.

#[local] Opaque SHA256 SHA1 RIPEMD160 Hash160 Hash.

(** ** class CTransactionSignatureSerializer *)
Record CTransactionSignatureSerializer := mkSerializer {
  txTo : CTransaction;
  scriptCode : CScript;
  nIn : Z;
  fAnyoneCanPay : bool;
  fHashSingle : bool;
  fHashNone : bool;
}.

Definition CTransactionSignatureSerializer_of (txToIn : CTransaction) (scriptCodeIn : CScript) (nInIn nHashTypeIn : Z)
    : CTransactionSignatureSerializer :=
  mkSerializer txToIn scriptCodeIn nInIn
    (negb (Z.land nHashTypeIn SIGHASH_ANYONECANPAY =? 0))
    (Z.land nHashTypeIn 0x1f =? SIGHASH_SINGLE)
    (Z.land nHashTypeIn 0x1f =? SIGHASH_NONE).

(** The counting loop of [SerializeScriptCode]. *)
Definition count_separators (code : CScript) : Z :=
  op_run (fun opcode _ _ n => inr (if opcode =? OP_CODESEPARATOR then u32 (n + 1) else n))
    (fun n => n) (fun n => n) code 0.

(** The first [k] bytes from an iterator. *)
Definition write_from (it : bytes) (k : Z) : bytes := take (Z.to_nat k) it.

(** The writing loop: the state is [itBegin], [it] and what is written; it ends
    with [it] where the failing [GetOp] leaves it. *)
Definition segment_step (opcode : Z) (_ it : bytes) (st : bytes * bytes * bytes)
    : (bytes * bytes * bytes) + (bytes * bytes * bytes) :=
  let '(itBegin, _, s) := st in
  inr (if opcode =? OP_CODESEPARATOR
       then (it, it, s ++ write_from itBegin (zlen itBegin - zlen it - 1)) else (itBegin, it, s)).

Definition segment_failed (st : bytes * bytes * bytes) : bytes * bytes * bytes :=
  let '(itBegin, it, s) := st in (itBegin, GetOp2_failed it, s).

Definition write_segments (code : bytes) : bytes * bytes * bytes :=
  op_run segment_step segment_failed (fun st => st) code (code, code, []).

Definition SerializeScriptCode (code : CScript) : bytes :=
  let '(itBegin, it, s) := write_segments code in
  WriteCompactSize (u64 (zlen code - count_separators code)) ++
  (if zlen itBegin =? 0 then s else s ++ write_from itBegin (zlen itBegin - zlen it)).

(** [v[i]] outside of a vector has no value. *)
Definition at_index {A} (v : list A) (i : Z) : result A :=
  match v !! Z.to_nat i with Some x => Ok x | None => Throw out_of_range end.

Section Serializer.
Context (ser : CTransactionSignatureSerializer).

Definition SerializeInput (nInput : Z) : result bytes :=
  let nInput := if fAnyoneCanPay ser then nIn ser else nInput in
  i ← at_index (vin (txTo ser)) nInput;
  p ← enc COutPoint_codec (prevout i);
  s ← (if negb (nInput =? nIn ser) then enc bytes_codec [] else Ok (SerializeScriptCode (scriptCode ser)));
  q ← (if negb (nInput =? nIn ser) && (fHashSingle ser || fHashNone ser)
       then enc int32_codec 0 else enc uint32_codec (nSequence i));
  mret (p ++ s ++ q).

Definition SerializeOutput (nOutput : Z) : result bytes :=
  if fHashSingle ser && negb (nOutput =? nIn ser) then enc CTxOut_codec CTxOut_null
  else o ← at_index (vout (txTo ser)) nOutput; enc CTxOut_codec o.

(** [for (unsigned int n = from; n < from + k; n++) f(s, n)]. *)
Fixpoint serialize_each (f : Z -> result bytes) (k : nat) (from : Z) : result bytes :=
  match k with
  | O => Ok []
  | S k => b ← f from; bs ← serialize_each f k (from + 1); mret (b ++ bs)
  end.

Definition Serializer_Serialize : result bytes :=
  ver ← enc int32_codec (nVersion (txTo ser));
  let nInputs := if fAnyoneCanPay ser then 1 else u32 (zlen (vin (txTo ser))) in
  ins ← serialize_each SerializeInput (Z.to_nat nInputs) 0;
  let nOutputs := if fHashNone ser then 0
                  else if fHashSingle ser then u32 (nIn ser + 1) else u32 (zlen (vout (txTo ser))) in
  outs ← serialize_each SerializeOutput (Z.to_nat nOutputs) 0;
  lock ← enc uint32_codec (nLockTime (txTo ser));
  mret (ver ++ (WriteCompactSize nInputs ++ ins) ++ (WriteCompactSize nOutputs ++ outs) ++ lock).
End Serializer.

(** ** The hashes shared by the inputs of a transaction *)

(** A [CHashWriter] hashes the bytes written to it, see [hashers_streaming]. *)
Definition hash_written (r : result bytes) : result uint256 := bs ← r; Ok (Hash bs).

Definition GetPrevoutHash (tx : CTransaction) : result uint256 :=
  hash_written (Serialize_elements COutPoint_codec (map prevout (vin tx))).

Definition GetSequenceHash (tx : CTransaction) : result uint256 :=
  hash_written (Serialize_elements uint32_codec (map nSequence (vin tx))).

Definition GetOutputsHash (tx : CTransaction) : result uint256 :=
  hash_written (Serialize_elements CTxOut_codec (vout tx)).

Record PrecomputedTransactionData := mkPrecomputed {
  hashPrevouts : uint256;
  hashSequence : uint256;
  hashOutputs : uint256;
  ready : bool;
}.

Definition PrecomputedTransactionData_of (tx : CTransaction) : result PrecomputedTransactionData :=
  if HasWitness tx then
    p ← GetPrevoutHash tx;
    q ← GetSequenceHash tx;
    o ← GetOutputsHash tx;
    mret (mkPrecomputed p q o true)
  else mret (mkPrecomputed uint256_null uint256_null uint256_null false).

(** ** SignatureHash *)

Definition uint256_one : uint256 := uint256S (chars "0000000000000000000000000000000000000000000000000000000000000001").

Section SignatureHash.
Context (scriptCode : CScript) (tx : CTransaction) (nIn nHashType : Z) (amount : CAmount)
  (cache : option PrecomputedTransactionData).

Definition from_cache (f : PrecomputedTransactionData -> uint256) (compute : result uint256) : result uint256 :=
  match cache with
  | Some c => if ready c then Ok (f c) else compute
  | None => compute
  end.

Definition anyone_can_pay : bool := negb (Z.land nHashType SIGHASH_ANYONECANPAY =? 0).
Definition base_type : Z := Z.land nHashType 0x1f.

(** The three hashes of the witness form. *)
Definition witness_hashes : result (uint256 * uint256 * uint256) :=
  hp ← (if negb anyone_can_pay then from_cache hashPrevouts (GetPrevoutHash tx) else Ok uint256_null);
  hs ← (if negb anyone_can_pay && negb (base_type =? SIGHASH_SINGLE) && negb (base_type =? SIGHASH_NONE)
        then from_cache hashSequence (GetSequenceHash tx) else Ok uint256_null);
  ho ← (if negb (base_type =? SIGHASH_SINGLE) && negb (base_type =? SIGHASH_NONE)
        then from_cache hashOutputs (GetOutputsHash tx)
        else if (base_type =? SIGHASH_SINGLE) && (nIn <? zlen (vout tx))
        then o ← at_index (vout tx) nIn; hash_written (enc CTxOut_codec o)
        else Ok uint256_null);
  mret (hp, hs, ho).

(** What is written for witness version 0. *)
Definition witness_preimage : result bytes :=
  '(hp, hs, ho) ← witness_hashes;
  i ← at_index (vin tx) nIn;
  ver ← enc int32_codec (nVersion tx);
  p ← enc uint256_codec hp;
  s ← enc uint256_codec hs;
  out ← enc COutPoint_codec (prevout i);
  code ← enc bytes_codec scriptCode;
  value ← enc int64_codec amount;
  q ← enc uint32_codec (nSequence i);
  o ← enc uint256_codec ho;
  lock ← enc uint32_codec (nLockTime tx);
  type ← enc int32_codec nHashType;
  mret (ver ++ p ++ s ++ out ++ code ++ value ++ q ++ o ++ lock ++ type).

Definition SignatureHash (sigversion : SigVersion) : result uint256 :=
  assert_then (nIn <? zlen (vin tx)) "nIn < txTo.vin.size()"
    match sigversion with
    | SIGVERSION_WITNESS_V0 => hash_written witness_preimage
    | SIGVERSION_BASE =>
        if (base_type =? SIGHASH_SINGLE) && (zlen (vout tx) <=? nIn) then Ok uint256_one
        else
          hash_written
            (b ← Serializer_Serialize (CTransactionSignatureSerializer_of tx scriptCode nIn nHashType);
             t ← enc int32_codec nHashType;
             mret (b ++ t))
    end.
End SignatureHash.

(** ** class CPubKey

    The bytes [vch[0 .. size())]; an invalid key has the header 0xFF. *)
Definition PUBLIC_KEY_SIZE : Z := 65.
Definition COMPRESSED_PUBLIC_KEY_SIZE : Z := 33.

Definition CPubKey_GetLen (chHeader : Z) : Z :=
  if (chHeader =? 2) || (chHeader =? 3) then COMPRESSED_PUBLIC_KEY_SIZE
  else if (chHeader =? 4) || (chHeader =? 6) || (chHeader =? 7) then PUBLIC_KEY_SIZE
  else 0.

Definition CPubKey := bytes.
Definition CPubKey_Invalid : CPubKey := [0xFF].

Definition CPubKey_of (vch : bytes) : CPubKey :=
  let len := match vch with [] => 0 | c :: _ => CPubKey_GetLen c end in
  if negb (len =? 0) && (len =? zlen vch) then vch else CPubKey_Invalid.

Definition CPubKey_size (key : CPubKey) : Z :=
  match key with [] => 0 | c :: _ => CPubKey_GetLen c end.

Definition CPubKey_IsValid (key : CPubKey) : bool := 0 <? CPubKey_size key.
Definition CPubKey_IsCompressed (key : CPubKey) : bool := CPubKey_size key =? COMPRESSED_PUBLIC_KEY_SIZE.

(** ** class TransactionSignatureChecker *)

Section Checker.
Context (ecdsa_verify : CPubKey -> uint256 -> bytes -> bool).
Context (tx : CTransaction) (nIn : Z) (amount : CAmount) (txdata : option PrecomputedTransactionData).

(** [CPubKey::Verify]: the parsing and the verification are libsecp256k1's. *)
Definition CPubKey_Verify (key : CPubKey) (hash : uint256) (vchSig : bytes) : bool :=
  if negb (CPubKey_IsValid key) then false else ecdsa_verify key hash vchSig.

Definition VerifySignature (vchSig : bytes) (pubkey : CPubKey) (sighash : uint256) : bool :=
  CPubKey_Verify pubkey sighash vchSig.

(** [CheckSig], for the [VerifySignature] of the object. *)
Definition CheckSig_virtual (verify : bytes -> CPubKey -> uint256 -> bool)
    (vchSigIn vchPubKey : bytes) (scriptCode : CScript) (sigversion : SigVersion) : result bool :=
  let pubkey := CPubKey_of vchPubKey in
  if negb (CPubKey_IsValid pubkey) then Ok false
  else if zlen vchSigIn =? 0 then Ok false
  else
    let nHashType := List.last vchSigIn 0 in
    let vchSig := removelast vchSigIn in
    sighash ← SignatureHash scriptCode tx nIn nHashType amount txdata sigversion;
    if negb (verify vchSig pubkey sighash) then Ok false else Ok true.

(** [txTo->vin[nIn].nSequence]; [nIn] is an input of the transaction. *)
Definition input_sequence : Z := match vin tx !! Z.to_nat nIn with Some i => nSequence i | None => 0 end.

Definition Tx_CheckLockTime (n : Z) : bool :=
  if negb (((nLockTime tx <? LOCKTIME_THRESHOLD) && (n <? LOCKTIME_THRESHOLD)) ||
           ((LOCKTIME_THRESHOLD <=? nLockTime tx) && (LOCKTIME_THRESHOLD <=? n))) then false
  else if nLockTime tx <? n then false
  else if SEQUENCE_FINAL =? input_sequence then false
  else true.

Definition nLockTimeMask : Z := Z.lor SEQUENCE_LOCKTIME_TYPE_FLAG SEQUENCE_LOCKTIME_MASK.

Definition Tx_CheckSequence (n : Z) : bool :=
  if u32 (nVersion tx) <? 2 then false
  else if negb (Z.land input_sequence SEQUENCE_LOCKTIME_DISABLE_FLAG =? 0) then false
  else
    let txToSequenceMasked := Z.land input_sequence nLockTimeMask in
    let nSequenceMasked := Z.land n nLockTimeMask in
    if negb (((txToSequenceMasked <? SEQUENCE_LOCKTIME_TYPE_FLAG) && (nSequenceMasked <? SEQUENCE_LOCKTIME_TYPE_FLAG)) ||
             ((SEQUENCE_LOCKTIME_TYPE_FLAG <=? txToSequenceMasked) && (SEQUENCE_LOCKTIME_TYPE_FLAG <=? nSequenceMasked)))
    then false
    else if txToSequenceMasked <? nSequenceMasked then false
    else true.

Definition TransactionSignatureChecker : BaseSignatureChecker :=
  mkSigChecker (CheckSig_virtual VerifySignature) Tx_CheckLockTime Tx_CheckSequence.

(** ** class CachingTransactionSignatureChecker (sigcache.cpp)

    With the entries the cache of valid signatures holds; what a check inserts
    is there for the next one. *)
Context (nonce : uint256) (setValid : gset uint256).

Definition ComputeEntry (hash : uint256) (vchSig : bytes) (pubkey : CPubKey) : uint256 :=
  SHA256 (nonce ++ hash ++ take (Z.to_nat (CPubKey_size pubkey)) pubkey ++ vchSig).

Definition Caching_VerifySignature (vchSig : bytes) (pubkey : CPubKey) (sighash : uint256) : bool :=
  if bool_decide (ComputeEntry sighash vchSig pubkey ∈ setValid) then true
  else VerifySignature vchSig pubkey sighash.

Definition CachingTransactionSignatureChecker : BaseSignatureChecker :=
  mkSigChecker (CheckSig_virtual Caching_VerifySignature) Tx_CheckLockTime Tx_CheckSequence.
End Checker.

(** ** The reference: the old SignatureHash (sighash_tests.cpp)

    The transaction is copied, stripped and serialized as a whole. *)
Section Old.
Context (nIn nHashType : Z).

Definition set_scripts (code : CScript) (v : list CTxIn) : list CTxIn :=
  imap (fun k i => mkCTxIn (prevout i) (if Z.of_nat k =? nIn then code else []) (nSequence i) (scriptWitness i)) v.

Definition zero_others (v : list CTxIn) : list CTxIn :=
  imap (fun k i => if negb (Z.of_nat k =? nIn) then mkCTxIn (prevout i) (scriptSig i) 0 (scriptWitness i) else i) v.

Definition null_before (v : list CTxOut) : list CTxOut :=
  imap (fun k o => if Z.of_nat k <? nIn then CTxOut_null else o) (take (Z.to_nat (nIn + 1)) v).

Definition only_input (v : list CTxIn) : list CTxIn :=
  match v !! Z.to_nat nIn with Some i => [i] | None => [] end.

Definition old_transaction (code : CScript) (tx : CTransaction) : CTransaction :=
  let vin1 := set_scripts (fst (FindAndDelete code [OP_CODESEPARATOR])) (vin tx) in
  let none := Z.land nHashType 0x1f =? SIGHASH_NONE in
  let single := Z.land nHashType 0x1f =? SIGHASH_SINGLE in
  let vin2 := if none || single then zero_others vin1 else vin1 in
  let vout2 := if none then [] else if single then null_before (vout tx) else vout tx in
  let vin3 := if negb (Z.land nHashType SIGHASH_ANYONECANPAY =? 0) then only_input vin2 else vin2 in
  mkCTransaction (nVersion tx) vin3 vout2 (nLockTime tx).

Definition SignatureHashOld (code : CScript) (tx : CTransaction) : result uint256 :=
  if zlen (vin tx) <=? nIn then Ok uint256_one
  else if (Z.land nHashType 0x1f =? SIGHASH_SINGLE) && (zlen (vout tx) <=? nIn) then Ok uint256_one
  else
    hash_written
      (b ← SerializeTransaction false (old_transaction code tx);
       t ← enc int32_codec nHashType;
       mret (b ++ t)).
End Old.

(** * Lemmas *)

(** Every operation of the script can be read. *)
Definition well_formed (code : CScript) : bool :=
  op_run (fun _ _ _ _ => inr tt) (fun _ => false) (fun _ => true) code tt.

Lemma well_formed_next pc op vch pc' : GetOp2 pc = Some (op, vch, pc') -> well_formed pc = well_formed pc'.
Proof. intros H. unfold well_formed at 1. by rewrite (op_run_step _ _ _ _ _ _ _ _ H). Qed.

Lemma well_formed_end pc : well_formed pc = true -> GetOp2 pc = None -> pc = [].
Proof. destruct pc as [|c pc]; [done|]. unfold well_formed. intros H E. by rewrite op_run_bad in H. Qed.

Lemma GetOp2_separator rest : GetOp2 (OP_CODESEPARATOR :: rest) = Some (OP_CODESEPARATOR, [], rest).
Proof. reflexivity. Qed.

Lemma not_separator pc op vch pc' :
  GetOp2 pc = Some (op, vch, pc') -> starts_with [OP_CODESEPARATOR] pc = false -> (op =? OP_CODESEPARATOR) = false.
Proof.
  intros Hop Hs. destruct (Z.eqb_spec op OP_CODESEPARATOR) as [->|]; [|done].
  destruct (GetOp2_split _ _ _ _ Hop) as (len & -> & _).
  assert (starts_with [OP_CODESEPARATOR] (OP_CODESEPARATOR :: len ++ vch ++ pc') = true) as E; [|congruence].
  apply starts_with_true. by eexists.
Qed.

Lemma count_separators_ok pc r m : deletes [OP_CODESEPARATOR] pc r m -> forall n, 0 <= n -> n + m < 2 ^ 32 ->
  op_run (fun opcode _ _ n => inr (if opcode =? OP_CODESEPARATOR then u32 (n + 1) else n))
    (fun n => n) (fun n => n) pc n = n + m.
Proof.
  induction 1 as [pc r m Hs Hd IH|hd op vch pc' r m Hs Hop Hd IH|pc Hs Hop]; intros n Hn Hb.
  - apply starts_with_true in Hs as [rest ->]. cbn [app length drop] in *. apply deletes_length in Hd as [_ Hm].
    rewrite (op_run_step _ _ _ _ _ _ _ _ (GetOp2_separator rest)). rewrite Z.eqb_refl, u32_small by (unfold is_u32; lia).
    rewrite IH; lia.
  - rewrite (op_run_step _ _ _ _ _ _ _ _ Hop). rewrite (not_separator _ _ _ _ Hop Hs). by apply IH.
  - destruct pc as [|c pc]; [rewrite op_run_nil|rewrite op_run_bad by done]; lia.
Qed.

Lemma write_segments_ok pc r m : deletes [OP_CODESEPARATOR] pc r m -> well_formed pc = true ->
  forall hd s, exists ib s',
    op_run segment_step segment_failed (fun st => st) pc (hd ++ pc, pc, s) = (ib, [], s') /\
    s' ++ ib = s ++ hd ++ r.
Proof.
  induction 1 as [pc r m Hs Hd IH|hd1 op vch pc' r m Hs Hop Hd IH|pc Hs Hop]; intros Hw hd s.
  - apply starts_with_true in Hs as [rest ->]. cbn [app length drop] in *.
    rewrite (well_formed_next _ _ _ _ (GetOp2_separator rest)) in Hw.
    rewrite (op_run_step _ _ _ _ _ _ _ _ (GetOp2_separator rest)).
    unfold segment_step at 1. rewrite Z.eqb_refl.
    assert (write_from (hd ++ OP_CODESEPARATOR :: rest) (zlen (hd ++ OP_CODESEPARATOR :: rest) - zlen rest - 1) = hd) as ->.
    { unfold write_from. rewrite zlen_app, zlen_cons. replace (Z.to_nat _) with (length hd) by (unfold zlen; lia).
      by rewrite take_app_length. }
    destruct (IH Hw [] (s ++ hd)) as (ib & s' & E & Heq). exists ib, s'. split; [exact E|]. by rewrite Heq, <- app_assoc.
  - rewrite (well_formed_next _ _ _ _ Hop) in Hw. rewrite (op_run_step _ _ _ _ _ _ _ _ Hop).
    unfold segment_step at 1. rewrite (not_separator _ _ _ _ Hop Hs). destruct (IH Hw (hd ++ hd1) s) as (ib & s' & E & Heq). exists ib, s'.
    rewrite <- app_assoc in E. split; [exact E|]. by rewrite Heq, <- app_assoc.
  - rewrite (well_formed_end _ Hw Hop). exists (hd ++ []), s. by rewrite op_run_nil.
Qed.

(** The serializer writes the script without its separators. *)
Lemma SerializeScriptCode_ok code : well_formed code = true -> zlen code < 2 ^ 32 ->
  Ok (SerializeScriptCode code) = enc bytes_codec (fst (FindAndDelete code [OP_CODESEPARATOR])).
Proof.
  intros Hw Hl. destruct (FindAndDelete code [OP_CODESEPARATOR]) as [r m] eqn:E.
  assert (Hd : deletes [OP_CODESEPARATOR] code r m) by (pose proof (FindAndDelete_deletes code [OP_CODESEPARATOR]) as H; rewrite E in H; by apply H).
  pose proof (deletes_length _ _ _ _ Hd) as [Hr Hm]. change (zlen [OP_CODESEPARATOR]) with 1 in Hr. pose proof (zlen_nonneg r).
  unfold SerializeScriptCode, count_separators. rewrite (count_separators_ok _ _ _ Hd) by lia.
  unfold write_segments. destruct (write_segments_ok _ _ _ Hd Hw [] []) as (ib & s' & Hws & Heq). cbn [app] in Hws, Heq. rewrite Hws.
  cbn [enc bytes_codec fst]. unfold Serialize_bytes. f_equal. f_equal.
  - rewrite u64_small by (unfold is_u64; lia). f_equal. lia.
  - rewrite <- Heq. destruct (Z.eqb_spec (zlen ib) 0) as [->%zlen_nil_iff|]; [by rewrite app_nil_r|].
    f_equal. unfold write_from. change (zlen (@nil Z)) with 0. rewrite take_ge; [done|unfold zlen; lia].
Qed.

Lemma serialize_each_ok {A} (c : codec A) f l : forall from,
  (forall j x, l !! j = Some x -> f (from + Z.of_nat j) = enc c x) -> serialize_each f (length l) from = Serialize_elements c l.
Proof.
  induction l as [|x l IH]; intros from H; [done|]. cbn [length serialize_each Serialize_elements].
  pose proof (H 0%nat x eq_refl) as H0. rewrite Z.add_0_r in H0. rewrite H0, IH; [done|].
  intros j y Hj. rewrite <- (H (S j) y Hj). f_equal. lia.
Qed.

Section Reference.
Context (code : CScript) (tx : CTransaction) (n t : Z).
Context (Hcode : well_formed code = true) (Hlen : zlen code < 2 ^ 32).
Context (Hn : 0 <= n < zlen (vin tx)) (Hin : zlen (vin tx) < 2 ^ 32) (Hout : zlen (vout tx) < 2 ^ 32).

Abbreviation ser := (CTransactionSignatureSerializer_of tx code n t).
Abbreviation old := (old_transaction n t code tx).
Abbreviation others_free := ((Z.land t 0x1f =? SIGHASH_NONE) || (Z.land t 0x1f =? SIGHASH_SINGLE)).

(** The inputs of the old copy before ANYONECANPAY. *)
Definition old_inputs : list CTxIn :=
  let vin1 := set_scripts n (fst (FindAndDelete code [OP_CODESEPARATOR])) (vin tx) in
  if others_free then zero_others n vin1 else vin1.

Lemma old_inputs_lookup j : old_inputs !! j =
  (fun i => mkCTxIn (prevout i) (if Z.of_nat j =? n then fst (FindAndDelete code [OP_CODESEPARATOR]) else [])
              (if negb (Z.of_nat j =? n) && others_free then 0 else nSequence i) (scriptWitness i)) <$> vin tx !! j.
Proof.
  unfold old_inputs, zero_others, set_scripts. destruct others_free; rewrite ?andb_true_r, ?andb_false_r.
  - rewrite !list_lookup_imap. destruct (vin tx !! j); cbn; [|done]. by destruct (Z.of_nat j =? n).
  - rewrite list_lookup_imap. by destruct (vin tx !! j).
Qed.

Lemma old_inputs_length : length old_inputs = length (vin tx).
Proof. unfold old_inputs, zero_others, set_scripts. destruct others_free; by rewrite !length_imap. Qed.

(** An input is written as the input of the copy at its index. *)
Lemma SerializeInput_ok j x :
  old_inputs !! j = Some x -> Z.of_nat j = n \/ fAnyoneCanPay ser = false ->
  SerializeInput ser (Z.of_nat j) = enc CTxIn_codec x.
Proof.
  rewrite old_inputs_lookup. intros ([p s q w] & Hj & ->)%fmap_Some_1 Hc. unfold SerializeInput.
  replace (if fAnyoneCanPay ser then nIn ser else Z.of_nat j) with (Z.of_nat j)
    by (destruct (fAnyoneCanPay ser); [destruct Hc as [->|]; done|done]).
  unfold at_index. rewrite Nat2Z.id. cbn [txTo CTransactionSignatureSerializer_of nIn fHashSingle fHashNone scriptCode]. rewrite Hj.
  rewrite SerializeScriptCode_ok, (orb_comm (_ =? SIGHASH_SINGLE)) by done. cbn [mbind result_bind prevout scriptSig nSequence scriptWitness].
  destruct (Z.of_nat j =? n), others_free; reflexivity.
Qed.

Lemma inputs_ok : exists k, k = (if fAnyoneCanPay ser then 1 else u32 (zlen (vin tx))) /\
  k = zlen (vin old) /\ serialize_each (SerializeInput ser) (Z.to_nat k) 0 = Serialize_elements CTxIn_codec (vin old).
Proof.
  eexists. split; [reflexivity|]. change (vin old) with (if fAnyoneCanPay ser then only_input n old_inputs else old_inputs).
  destruct (fAnyoneCanPay ser) eqn:Ha.
  - destruct (lookup_lt_is_Some_2 old_inputs (Z.to_nat n)) as [x Hx]; [rewrite old_inputs_length; unfold zlen in Hn; lia|].
    unfold only_input. rewrite Hx. split; [done|].
    assert (E : SerializeInput ser 0 = enc CTxIn_codec x); [|change (Z.to_nat 1) with 1%nat; cbn [serialize_each Serialize_elements]; by rewrite E].
    rewrite <- (SerializeInput_ok (Z.to_nat n) x Hx) by (left; lia). unfold SerializeInput. rewrite Ha. reflexivity.
  - rewrite u32_small by (unfold is_u32; pose proof (zlen_nonneg (vin tx)); lia). unfold zlen. rewrite Nat2Z.id, old_inputs_length. split; [done|].
    rewrite <- old_inputs_length. apply serialize_each_ok. intros j x Hj. rewrite Z.add_0_l. apply SerializeInput_ok; auto.
Qed.

Lemma null_before_lookup j : null_before n (vout tx) !! j =
  if Z.of_nat j <=? n then (fun o => if Z.of_nat j =? n then o else CTxOut_null) <$> vout tx !! j else None.
Proof.
  unfold null_before. rewrite list_lookup_imap. destruct (Z.leb_spec (Z.of_nat j) n).
  - rewrite lookup_take_lt by lia. destruct (vout tx !! j); [|done]. cbn.
    destruct (Z.ltb_spec (Z.of_nat j) n), (Z.eqb_spec (Z.of_nat j) n); try lia; done.
  - by rewrite lookup_take_ge by lia.
Qed.

Lemma outputs_ok : ((Z.land t 0x1f =? SIGHASH_SINGLE) = true -> n < zlen (vout tx)) ->
  exists k, k = (if fHashNone ser then 0 else if fHashSingle ser then u32 (n + 1) else u32 (zlen (vout tx))) /\
    k = zlen (vout old) /\ serialize_each (SerializeOutput ser) (Z.to_nat k) 0 = Serialize_elements CTxOut_codec (vout old).
Proof.
  intros Hs. eexists. split; [reflexivity|]. unfold old_transaction. cbn [vout fHashNone fHashSingle CTransactionSignatureSerializer_of].
  destruct (Z.land t 0x1f =? SIGHASH_NONE) eqn:En; [done|]. destruct (Z.land t 0x1f =? SIGHASH_SINGLE) eqn:Es.
  - specialize (Hs eq_refl). rewrite u32_small by (unfold is_u32; lia).
    assert (Hl : length (null_before n (vout tx)) = Z.to_nat (n + 1)).
    { unfold null_before. rewrite length_imap, length_take. unfold zlen in Hs. lia. }
    split; [unfold zlen; rewrite Hl; lia|]. rewrite <- Hl. apply serialize_each_ok. intros j x Hj. rewrite Z.add_0_l.
    rewrite null_before_lookup in Hj. destruct (Z.of_nat j <=? n); [|done]. apply fmap_Some_1 in Hj as (o & Hj & ->).
    unfold SerializeOutput, at_index. cbn [fHashSingle CTransactionSignatureSerializer_of nIn txTo]. rewrite Es, Nat2Z.id, Hj.
    by destruct (Z.of_nat j =? n).
  - rewrite u32_small by (unfold is_u32; pose proof (zlen_nonneg (vout tx)); lia). split; [done|]. unfold zlen. rewrite Nat2Z.id.
    apply serialize_each_ok. intros j x Hj. rewrite Z.add_0_l.
    unfold SerializeOutput, at_index. cbn [fHashSingle CTransactionSignatureSerializer_of nIn txTo]. by rewrite Es, Nat2Z.id, Hj.
Qed.

Lemma Serializer_ok : ((Z.land t 0x1f =? SIGHASH_SINGLE) = true -> n < zlen (vout tx)) ->
  Serializer_Serialize ser = SerializeTransaction false old.
Proof.
  intros Hs. unfold Serializer_Serialize, SerializeTransaction. cbn [txTo CTransactionSignatureSerializer_of nIn andb negb].
  destruct inputs_ok as (k & Ek & Lk & Hk). destruct (outputs_ok Hs) as (m & Em & Lm & Hm).
  cbv zeta. rewrite <- Ek, <- Em, Hk, Hm.
  unfold Serialize_vector. destruct (Serialize_elements CTxIn_codec (vin old)) as [bi|]; [|reflexivity].
  destruct (Serialize_elements CTxOut_codec (vout old)) as [bo|]; [|reflexivity].
  cbn [mbind result_bind mret result_ret]. rewrite Lk, Lm. reflexivity.
Qed.
End Reference.

(** ** The hashes are always computed *)

Lemma outpoint_total o : exists bs, enc COutPoint_codec o = Ok bs.
Proof. by eexists. Qed.
Lemma txout_total o : exists bs, enc CTxOut_codec o = Ok bs.
Proof. by eexists. Qed.
Lemma uint32_total n : exists bs, enc uint32_codec n = Ok bs.
Proof. by eexists. Qed.

(** A hash of bytes that can be written. *)
Definition hashed (r : result uint256) (bs : bytes) : Prop := r = Ok (Hash bs).

Lemma prevouts_hashed tx : exists bs, Serialize_elements COutPoint_codec (map prevout (vin tx)) = Ok bs /\ hashed (GetPrevoutHash tx) bs.
Proof.
  destruct (Serialize_elements_total _ (map prevout (vin tx)) outpoint_total) as [bs H]. exists bs. split; [done|].
  unfold hashed, GetPrevoutHash. by rewrite H.
Qed.

Lemma sequences_hashed tx : exists bs, Serialize_elements uint32_codec (map nSequence (vin tx)) = Ok bs /\ hashed (GetSequenceHash tx) bs.
Proof.
  destruct (Serialize_elements_total _ (map nSequence (vin tx)) uint32_total) as [bs H]. exists bs. split; [done|].
  unfold hashed, GetSequenceHash. by rewrite H.
Qed.

Lemma outputs_hashed tx : exists bs, Serialize_elements CTxOut_codec (vout tx) = Ok bs /\ hashed (GetOutputsHash tx) bs.
Proof.
  destruct (Serialize_elements_total _ (vout tx) txout_total) as [bs H]. exists bs. split; [done|].
  unfold hashed, GetOutputsHash. by rewrite H.
Qed.

Lemma null_ok : uint256_ok uint256_null.
Proof. split; [done|decide_true]. Qed.

Lemma Hash_uint256 bs : uint256_ok (Hash bs).
Proof. apply Hash_ok. Qed.

Lemma at_index_ok {A} (v : list A) i : 0 <= i < zlen v -> exists x, v !! Z.to_nat i = Some x /\ at_index v i = Ok x.
Proof.
  intros H. unfold at_index. destruct (lookup_lt_is_Some_2 v (Z.to_nat i)) as [x Hx]; [unfold zlen in H; lia|].
  exists x. by rewrite Hx.
Qed.

(** The three hashes are hashes, or null where the type leaves them out. *)
Lemma witness_hashes_ok tx n t : 0 <= n ->
  exists hp hs ho, witness_hashes tx n t None = Ok (hp, hs, ho) /\ uint256_ok hp /\ uint256_ok hs /\ uint256_ok ho.
Proof.
  intros Hn. unfold witness_hashes, from_cache.
  destruct (prevouts_hashed tx) as (bp & _ & ->). destruct (sequences_hashed tx) as (bs & _ & ->). destruct (outputs_hashed tx) as (bo & _ & ->).
  assert (Hone : (base_type t =? SIGHASH_SINGLE) && (n <? zlen (vout tx)) = true ->
    exists h, (o ← at_index (vout tx) n; hash_written (enc CTxOut_codec o)) = Ok h /\ uint256_ok h).
  { intros [_ Hl%Z.ltb_lt]%andb_true_iff. destruct (at_index_ok (vout tx) n) as (o & _ & ->); [lia|].
    destruct (txout_total o) as [b Hb]. exists (Hash b). cbn [mbind result_bind]. rewrite Hb. split; [done|apply Hash_uint256]. }
  destruct (negb (anyone_can_pay t)), (base_type t =? SIGHASH_NONE), (base_type t =? SIGHASH_SINGLE); cbn [andb negb] in *;
    try (destruct (n <? zlen (vout tx)); [destruct (Hone eq_refl) as (h & -> & Hh)|]);
    cbn [mbind result_bind mret result_ret]; do 3 eexists; (split; [reflexivity|]); auto using null_ok, Hash_uint256.
Qed.

Lemma serialize_each_total f k : forall from,
  (forall j, from <= j < from + Z.of_nat k -> exists bs, f j = Ok bs) -> exists bs, serialize_each f k from = Ok bs.
Proof.
  induction k as [|k IH]; intros from H; [by eexists|]. destruct (H from) as [b Hb]; [lia|].
  destruct (IH (from + 1)) as [bs Hbs]; [intros; apply H; lia|]. exists (b ++ bs). cbn. by rewrite Hb, Hbs.
Qed.

Lemma SerializeInput_total ser j : 0 <= nIn ser < zlen (vin (txTo ser)) -> 0 <= j < zlen (vin (txTo ser)) ->
  exists bs, SerializeInput ser j = Ok bs.
Proof.
  intros Hn Hj. unfold SerializeInput.
  destruct (at_index_ok (vin (txTo ser)) (if fAnyoneCanPay ser then nIn ser else j)) as (i & _ & ->); [by case_match|].
  cbn [mbind result_bind]. set (c := negb _). destruct c, (fHashSingle ser || fHashNone ser); by eexists.
Qed.

Lemma Serializer_total tx code n t : 0 <= n < zlen (vin tx) -> zlen (vin tx) < 2 ^ 32 -> zlen (vout tx) < 2 ^ 32 ->
  ((Z.land t 0x1f =? SIGHASH_SINGLE) = true -> n < zlen (vout tx)) ->
  exists bs, Serializer_Serialize (CTransactionSignatureSerializer_of tx code n t) = Ok bs.
Proof.
  intros Hn Hi Ho Hs. unfold Serializer_Serialize. set (ser := CTransactionSignatureSerializer_of tx code n t).
  pose proof (zlen_nonneg (vin tx)). pose proof (zlen_nonneg (vout tx)).
  set (ni := if fAnyoneCanPay ser then 1 else _). set (no := if fHashNone ser then 0 else _).
  destruct (serialize_each_total (SerializeInput ser) (Z.to_nat ni) 0) as [bi ->].
  { intros j Hj. apply SerializeInput_total; [done|]. subst ni. cbn [txTo ser CTransactionSignatureSerializer_of] in *.
    destruct (fAnyoneCanPay ser); [lia|]. rewrite u32_small in Hj by (unfold is_u32; lia). lia. }
  destruct (serialize_each_total (SerializeOutput ser) (Z.to_nat no) 0) as [bo ->]; [|by eexists].
  intros j Hj. unfold SerializeOutput. destruct (fHashSingle ser && _) eqn:E; [by eexists|].
  destruct (at_index_ok (vout (txTo ser)) j) as (o & _ & ->); [|by eexists].
  subst no. destruct (fHashNone ser) eqn:En; [lia|]. destruct (fHashSingle ser) eqn:Ef.
  - specialize (Hs Ef). cbn [andb nIn ser CTransactionSignatureSerializer_of txTo] in *.
    destruct (Z.eqb_spec j n); [lia|discriminate].
  - cbn [ser CTransactionSignatureSerializer_of txTo] in *. rewrite u32_small in Hj by (unfold is_u32; lia). lia.
Qed.

(** A signature hash exists for every input. *)
Lemma SignatureHash_ok code tx n t amount v :
  0 <= n < zlen (vin tx) -> zlen (vin tx) < 2 ^ 32 -> zlen (vout tx) < 2 ^ 32 ->
  exists h, SignatureHash code tx n t amount None v = Ok h.
Proof.
  intros Hn Hi Ho. unfold SignatureHash. destruct (Z.ltb_spec n (zlen (vin tx))); [|lia]. cbn [assert_then]. destruct v.
  - destruct (_ && _) eqn:E; [by eexists|]. destruct (Serializer_total tx code n t Hn Hi Ho) as [b ->]; [|by eexists].
    intros Hs. unfold base_type in E. rewrite Hs in E. by apply Z.leb_gt in E.
  - destruct (witness_hashes_ok tx n t) as (hp & hs & ho & E & _); [lia|]. unfold witness_preimage. rewrite E.
    destruct (at_index_ok (vin tx) n Hn) as (i & _ & ->). by eexists.
Qed.

(** ** Precomputed data *)

Lemma from_cache_ok d f r : (ready d = true -> r = Ok (f d)) -> from_cache (Some d) f r = from_cache None f r.
Proof. unfold from_cache. intros H. destruct (ready d); [by rewrite H|done]. Qed.

Lemma precomputed_ok tx : exists d, PrecomputedTransactionData_of tx = Ok d /\
  (ready d = true -> GetPrevoutHash tx = Ok (hashPrevouts d) /\ GetSequenceHash tx = Ok (hashSequence d) /\
     GetOutputsHash tx = Ok (hashOutputs d)).
Proof.
  unfold PrecomputedTransactionData_of. destruct (HasWitness tx); [|eexists; split; [reflexivity|discriminate]].
  destruct (prevouts_hashed tx) as (bp & _ & ->). destruct (sequences_hashed tx) as (bs & _ & ->). destruct (outputs_hashed tx) as (bo & _ & ->).
  eexists. split; [reflexivity|]. done.
Qed.

Lemma SignatureHash_precomputed tx : exists d, PrecomputedTransactionData_of tx = Ok d /\
  forall code n t amount v, SignatureHash code tx n t amount (Some d) v = SignatureHash code tx n t amount None v.
Proof.
  destruct (precomputed_ok tx) as (d & Hd & Hr). exists d. split; [exact Hd|]. intros code n t a v.
  unfold SignatureHash, witness_preimage, witness_hashes.
  rewrite (from_cache_ok d hashPrevouts (GetPrevoutHash tx)) by (intros; by apply Hr).
  rewrite (from_cache_ok d hashSequence (GetSequenceHash tx)) by (intros; by apply Hr).
  rewrite (from_cache_ok d hashOutputs (GetOutputsHash tx)) by (intros; by apply Hr). reflexivity.
Qed.

(** The hashes a checker may have: none, or those of its transaction. *)
Definition precomputed_for (tx : CTransaction) (txdata : option PrecomputedTransactionData) : Prop :=
  txdata = None \/ exists d, txdata = Some d /\ PrecomputedTransactionData_of tx = Ok d.

Lemma checker_total verify tx n amount txdata :
  0 <= n < zlen (vin tx) -> zlen (vin tx) < 2 ^ 32 -> zlen (vout tx) < 2 ^ 32 -> precomputed_for tx txdata ->
  checker_returns (mkSigChecker (CheckSig_virtual tx n amount txdata verify) (Tx_CheckLockTime tx n) (Tx_CheckSequence tx n)).
Proof.
  intros Hn Hi Ho Hd sig key code v. cbn [CheckSig]. unfold CheckSig_virtual.
  destruct (negb (CPubKey_IsValid _)); [by eexists|]. destruct (zlen sig =? 0); [by eexists|].
  assert (exists h, SignatureHash code tx n (List.last sig 0) amount txdata v = Ok h) as [h ->].
  { destruct (SignatureHash_ok code tx n (List.last sig 0) amount v Hn Hi Ho) as [h Hh]. exists h.
    destruct Hd as [->|(d & -> & Hd)]; [done|]. destruct (SignatureHash_precomputed tx) as (d' & Hd' & Hs). rewrite Hd in Hd'.
    apply (inj Ok) in Hd' as <-. by rewrite Hs. }
  cbn [mbind result_bind]. destruct (negb _); by eexists.
Qed.

Lemma verify_returns CheckLowS verify flags tx n i amount txdata scriptPubKey :
  tx_ok tx -> 0 <= n -> vin tx !! Z.to_nat n = Some i -> flags_legal flags -> bytes_ok scriptPubKey -> precomputed_for tx txdata ->
  exists r, VerifyScript CheckLowS flags
    (mkSigChecker (CheckSig_virtual tx n amount txdata verify) (Tx_CheckLockTime tx n) (Tx_CheckSequence tx n))
    (scriptSig i) scriptPubKey (scriptWitness i) = Ok r.
Proof.
  intros Hok Hn Hi Hf Hs Hd. destruct Hok. assert (In i (vin tx)) by (apply list_elem_of_In, list_elem_of_lookup; by eexists).
  rewrite Forall_forall in tx_ok_vin, tx_ok_wit. destruct (tx_ok_vin i) as (_ & [Hb _] & _); [done|]. destruct (tx_ok_wit i) as [Hw Hwl]; [done|].
  assert (n < zlen (vin tx)) by (apply lookup_lt_Some in Hi; unfold zlen; lia). unfold MAX_SIZE in *.
  apply VerifyScript_total; [apply checker_total; [lia..|done]|done|done|done| |done].
  eapply Forall_impl; [|exact Hw]. by intros x [? _].
Qed.

(** ** What a witness signature for all inputs and outputs signs *)

(** The fields in the order they are written. *)
Definition preimage_fields : Type := Z * (uint256 * (uint256 * (COutPoint * (bytes * (Z * (Z * (uint256 * (Z * Z)))))))).

Definition preimage_codec : codec preimage_fields :=
  pair_codec int32_codec (pair_codec uint256_codec (pair_codec uint256_codec (pair_codec COutPoint_codec
    (pair_codec bytes_codec (pair_codec int64_codec (pair_codec uint32_codec (pair_codec uint256_codec
      (pair_codec uint32_codec int32_codec)))))))).

Lemma witness_preimage_ok code tx n t a i hp hs ho :
  vin tx !! Z.to_nat n = Some i -> witness_hashes tx n t None = Ok (hp, hs, ho) ->
  witness_preimage code tx n t a None =
    enc preimage_codec (nVersion tx, (hp, (hs, (prevout i, (code, (a, (nSequence i, (ho, (nLockTime tx, t))))))))).
Proof.
  intros Hi Hh. unfold witness_preimage. rewrite Hh. unfold at_index. rewrite Hi. cbn [mbind result_bind mret result_ret].
  reflexivity.
Qed.

(** Two different strings among those hashed have the same hash. *)
Definition hash_collision (l : list bytes) : Prop :=
  exists x y, In x l /\ In y l /\ x <> y /\ Hash x = Hash y.

Lemma no_collision l : bool_decide (NoDup (map Hash l)) = true -> ~ hash_collision l.
Proof.
  intros Hn%bool_decide_eq_true_1 (x & y & [i Hx]%list_elem_of_In%list_elem_of_lookup & [j Hy]%list_elem_of_In%list_elem_of_lookup & Hne & E).
  apply Hne. pose proof (list_lookup_fmap_Some_2 Hash l i x Hx) as Ex. pose proof (list_lookup_fmap_Some_2 Hash l j y Hy) as Ey. rewrite <- E in Ey.
  rewrite (NoDup_lookup _ _ _ _ Hn Ex Ey) in Hx. rewrite Hx in Hy. exact (inj Some _ _ Hy).
Qed.

(** The strings hashed for a signature hash of all inputs and outputs. *)
Definition signed_strings (code : CScript) (tx : CTransaction) (n t : Z) (a : CAmount) : list bytes :=
  omap (fun r => match r with Ok bs => Some bs | Throw _ => None end)
    [witness_preimage code tx n t a None; Serialize_elements COutPoint_codec (map prevout (vin tx));
     Serialize_elements uint32_codec (map nSequence (vin tx)); Serialize_elements CTxOut_codec (vout tx)].

Definition covers_all (t : Z) : bool :=
  negb (anyone_can_pay t) && negb (base_type t =? SIGHASH_SINGLE) && negb (base_type t =? SIGHASH_NONE).

Definition signing_ok (code : CScript) (tx : CTransaction) (n t : Z) (a : CAmount) : Prop :=
  tx_ok tx /\ 0 <= n < zlen (vin tx) /\ script_ok code /\ is_i64 a /\ is_i32 t.

Lemma covered_hashes tx n t : covers_all t = true -> exists bp bs bo,
  Serialize_elements COutPoint_codec (map prevout (vin tx)) = Ok bp /\
  Serialize_elements uint32_codec (map nSequence (vin tx)) = Ok bs /\
  Serialize_elements CTxOut_codec (vout tx) = Ok bo /\
  witness_hashes tx n t None = Ok (Hash bp, Hash bs, Hash bo).
Proof.
  unfold covers_all, witness_hashes, from_cache. intros [[-> ->]%andb_true_iff ->]%andb_true_iff. cbn [andb].
  destruct (prevouts_hashed tx) as (bp & Hp & ->). destruct (sequences_hashed tx) as (bs & Hs & ->).
  destruct (outputs_hashed tx) as (bo & Ho & ->). by exists bp, bs, bo.
Qed.

Lemma outpoint_nonempty o : enc COutPoint_codec o <> Ok [].
Proof. cbn. intros [= [_ H]%app_nil]. discriminate. Qed.
Lemma uint32_nonempty n : enc uint32_codec n <> Ok [].
Proof. cbn. discriminate. Qed.
Lemma txout_nonempty o : enc CTxOut_codec o <> Ok [].
Proof. cbn. discriminate. Qed.

Lemma same_or_collision l x y : In x l -> In y l -> Hash x = Hash y -> x = y \/ hash_collision l.
Proof. intros Hx Hy H. destruct (decide (x = y)) as [E|E]; [left; exact E|right]. exists x, y. exact (conj Hx (conj Hy (conj E H))). Qed.

(** A transaction id stands for one transaction, up to its witnesses, among
    transactions whose hashes do not collide. *)
Lemma same_id_same_tx v a b : ~ hash_collision (map (serialized false) v) -> In a v -> In b v ->
  tx_ok a -> tx_ok b -> vin a <> [] -> vin b <> [] -> GetHash a = GetHash b -> strip_witness a = strip_witness b.
Proof.
  intros Hno Ia Ib Ha Hb Na Nb E. apply (serialized_injective a b Ha Hb Na Nb).
  destruct (same_or_collision (map (serialized false) v) (serialized false a) (serialized false b)) as [Es|Hc];
    [exact (in_map _ _ _ Ia)|exact (in_map _ _ _ Ib)|exact E|exact Es|destruct (Hno Hc)].
Qed.

(** The data two equal signature hashes agree on. *)
Record signed_alike (code1 : CScript) (tx1 : CTransaction) (n1 t1 : Z) (a1 : CAmount)
    (code2 : CScript) (tx2 : CTransaction) (n2 t2 : Z) (a2 : CAmount) : Prop := {
  alike_type : t1 = t2;
  alike_code : code1 = code2;
  alike_amount : a1 = a2;
  alike_version : nVersion tx1 = nVersion tx2;
  alike_locktime : nLockTime tx1 = nLockTime tx2;
  alike_prevouts : map prevout (vin tx1) = map prevout (vin tx2);
  alike_sequences : map nSequence (vin tx1) = map nSequence (vin tx2);
  alike_outputs : vout tx1 = vout tx2;
  alike_spent : prevout <$> vin tx1 !! Z.to_nat n1 = prevout <$> vin tx2 !! Z.to_nat n2;
}.

Lemma tx_ok_prevouts tx : tx_ok tx -> Forall outpoint_ok (map prevout (vin tx)).
Proof. intros [_ H _ _ _ _ _]. apply Forall_map. eapply Forall_impl; [|exact H]. by intros i (? & _). Qed.
Lemma tx_ok_sequences tx : tx_ok tx -> Forall is_u32 (map nSequence (vin tx)).
Proof. intros [_ H _ _ _ _ _]. apply Forall_map. eapply Forall_impl; [|exact H]. by intros i (_ & _ & ?). Qed.

Definition preimage_ok (f : preimage_fields) : Prop :=
  let '(ver, (hp, (hs, (out, (code, (a, (q, (ho, (lock, t))))))))) := f in
  is_i32 ver /\ uint256_ok hp /\ uint256_ok hs /\ outpoint_ok out /\ script_ok code /\ is_i64 a /\
  is_u32 q /\ uint256_ok ho /\ is_u32 lock /\ is_i32 t.

#[export] Instance preimage_codec_ok : CodecOk preimage_codec preimage_ok.
Proof.
  assert (H : exists P, CodecOk preimage_codec P /\ forall f, preimage_ok f -> P f).
  { eexists. split; [unfold preimage_codec; apply _|].
    intros (ver & hp & hs & out & code & a & q & ho & lock & t) Hf. exact Hf. }
  destruct H as (P & HP & Hf). intros f Hok. apply HP, Hf, Hok.
Qed.

Definition preimage_of (code : CScript) (tx : CTransaction) (t : Z) (a : CAmount) (i : CTxIn) (hp hs ho : uint256) : preimage_fields :=
  (nVersion tx, (hp, (hs, (prevout i, (code, (a, (nSequence i, (ho, (nLockTime tx, t))))))))).

Lemma preimage_valid code tx n t a i hp hs ho : signing_ok code tx n t a -> vin tx !! Z.to_nat n = Some i ->
  uint256_ok hp -> uint256_ok hs -> uint256_ok ho -> preimage_ok (preimage_of code tx t a i hp hs ho).
Proof.
  intros ([] & _ & ? & ? & ?) Hi ? ? ?. rewrite Forall_forall in tx_ok_vin.
  destruct (tx_ok_vin i) as (? & ? & ?); [by apply list_elem_of_In, list_elem_of_lookup; eexists|]. 
  unfold preimage_ok, preimage_of. by split_and!.
Qed.

Lemma signed_strings_ok code tx n t a x p q o :
  witness_preimage code tx n t a None = Ok x -> Serialize_elements COutPoint_codec (map prevout (vin tx)) = Ok p ->
  Serialize_elements uint32_codec (map nSequence (vin tx)) = Ok q -> Serialize_elements CTxOut_codec (vout tx) = Ok o ->
  signed_strings code tx n t a = [x; p; q; o].
Proof. intros H1 H2 H3 H4. unfold signed_strings. by rewrite H1, H2, H3, H4. Qed.

Lemma witness_SignatureHash code tx n t a x : 0 <= n < zlen (vin tx) -> witness_preimage code tx n t a None = Ok x ->
  SignatureHash code tx n t a None SIGVERSION_WITNESS_V0 = Ok (Hash x).
Proof. intros Hn Hx. unfold SignatureHash. destruct (Z.ltb_spec n (zlen (vin tx))); [|lia]. cbn [assert_then]. by rewrite Hx. Qed.

(** Spends with the same preimage agree, or their shared hashes collide. *)
Lemma preimages_alike code1 tx1 n1 t1 a1 code2 tx2 n2 t2 a2 x L :
  signing_ok code1 tx1 n1 t1 a1 -> signing_ok code2 tx2 n2 t2 a2 -> covers_all t1 = true ->
  witness_preimage code1 tx1 n1 t1 a1 None = Ok x -> witness_preimage code2 tx2 n2 t2 a2 None = Ok x ->
  L = signed_strings code1 tx1 n1 t1 a1 ++ signed_strings code2 tx2 n2 t2 a2 ->
  signed_alike code1 tx1 n1 t1 a1 code2 tx2 n2 t2 a2 \/ hash_collision L.
Proof.
  intros H1 H2 Ht X Y HL. pose proof H1 as (Hok1 & Hn1 & _). pose proof H2 as (Hok2 & Hn2 & _).
  destruct (at_index_ok _ _ Hn1) as (i1 & Hi1 & _). destruct (at_index_ok _ _ Hn2) as (i2 & Hi2 & _).
  destruct (covered_hashes tx1 n1 t1 Ht) as (p1 & s1 & o1 & Ep1 & Es1 & Eo1 & Hh1).
  destruct (witness_hashes_ok tx2 n2 t2) as (hp & hs & ho & Hh2 & Hhp & Hhs & Hho); [lia|].
  pose proof (preimage_valid _ _ _ _ _ _ _ _ _ H1 Hi1 (Hash_uint256 p1) (Hash_uint256 s1) (Hash_uint256 o1)) as V1.
  pose proof (preimage_valid _ _ _ _ _ _ _ _ _ H2 Hi2 Hhp Hhs Hho) as V2.
  pose proof (witness_preimage_ok code1 tx1 n1 t1 a1 i1 _ _ _ Hi1 Hh1) as W1.
  pose proof (witness_preimage_ok code2 tx2 n2 t2 a2 i2 _ _ _ Hi2 Hh2) as W2.
  assert (E : preimage_of code1 tx1 t1 a1 i1 (Hash p1) (Hash s1) (Hash o1) = preimage_of code2 tx2 t2 a2 i2 hp hs ho).
  { apply (codec_inj preimage_codec preimage_ok); [apply _|exact V1|exact V2|]. rewrite X in W1. rewrite Y in W2.
    unfold preimage_of. rewrite <- W1, <- W2. reflexivity. }
  unfold preimage_of in E. injection E as Ever Ehp Ehs Eout Ecode Ea Eq Eho Elock Et. subst t2.
  destruct (covered_hashes tx2 n2 t1 Ht) as (p2 & s2 & o2 & Ep2 & Es2 & Eo2 & Hh2'). rewrite Hh2' in Hh2.
  injection Hh2 as E1 E2 E3. rewrite (signed_strings_ok _ _ _ _ _ _ _ _ _ X Ep1 Es1 Eo1), (signed_strings_ok _ _ _ _ _ _ _ _ _ Y Ep2 Es2 Eo2) in HL.
  destruct (same_or_collision L p1 p2) as [Hp|]; [subst L; simpl; tauto|subst L; simpl; tauto|exact (eq_trans Ehp (eq_sym E1))| |by right].
  destruct (same_or_collision L s1 s2) as [Hs|]; [subst L; simpl; tauto|subst L; simpl; tauto|exact (eq_trans Ehs (eq_sym E2))| |by right].
  destruct (same_or_collision L o1 o2) as [Ho|]; [subst L; simpl; tauto|subst L; simpl; tauto|exact (eq_trans Eho (eq_sym E3))| |by right].
  left. split; [reflexivity|exact Ecode|exact Ea|exact Ever|exact Elock|..].
  - apply (elements_inj COutPoint_codec outpoint_ok); auto using outpoint_nonempty, tx_ok_prevouts, COutPoint_codec_ok. congruence.
  - apply (elements_inj uint32_codec is_u32); auto using uint32_nonempty, tx_ok_sequences. { apply _. } congruence.
  - apply (elements_inj CTxOut_codec txout_ok); auto using txout_nonempty, CTxOut_codec_ok. { apply Hok1. } { apply Hok2. } congruence.
  - rewrite Hi1, Hi2. cbn. by rewrite Eout.
Qed.

(** C23: A version 0 signature for all inputs and outputs signs the whole spend.
    If the signature hash of one spend, whose type covers everything, equals
    that of another spend of any type, then the two have the same type, script,
    amount, version, lock time, previous outputs, sequence numbers, outputs and
    spent output, unless two different strings that are hashed in the process
    have the same hash. *)
Theorem witness_signature_binds code1 tx1 n1 t1 a1 code2 tx2 n2 t2 a2 :
  signing_ok code1 tx1 n1 t1 a1 -> signing_ok code2 tx2 n2 t2 a2 -> covers_all t1 = true ->
  SignatureHash code1 tx1 n1 t1 a1 None SIGVERSION_WITNESS_V0 = SignatureHash code2 tx2 n2 t2 a2 None SIGVERSION_WITNESS_V0 ->
  signed_alike code1 tx1 n1 t1 a1 code2 tx2 n2 t2 a2 \/
  hash_collision (signed_strings code1 tx1 n1 t1 a1 ++ signed_strings code2 tx2 n2 t2 a2).
Proof.
  intros H1 H2 Ht Heq. pose proof H1 as (_ & Hn1 & _). pose proof H2 as (_ & Hn2 & _).
  destruct (at_index_ok _ _ Hn1) as (i1 & Hi1 & _). destruct (at_index_ok _ _ Hn2) as (i2 & Hi2 & _).
  destruct (witness_hashes_ok tx1 n1 t1) as (p1 & s1 & o1 & Hh1 & _); [lia|].
  destruct (witness_hashes_ok tx2 n2 t2) as (p2 & s2 & o2 & Hh2 & _); [lia|].
  destruct (witness_preimage code1 tx1 n1 t1 a1 None) as [x|] eqn:X; [|rewrite (witness_preimage_ok _ _ _ _ _ _ _ _ _ Hi1 Hh1) in X; discriminate X].
  destruct (witness_preimage code2 tx2 n2 t2 a2 None) as [y|] eqn:Y; [|rewrite (witness_preimage_ok _ _ _ _ _ _ _ _ _ Hi2 Hh2) in Y; discriminate Y].
  rewrite (witness_SignatureHash _ _ _ _ _ _ Hn1 X), (witness_SignatureHash _ _ _ _ _ _ Hn2 Y) in Heq. apply (inj Ok) in Heq.
  assert (Hin : forall code tx n t a z, witness_preimage code tx n t a None = Ok z -> In z (signed_strings code tx n t a)).
  { intros code tx n t a z Hz. unfold signed_strings. cbn [omap list_omap]. rewrite Hz. left. reflexivity. }
  destruct (same_or_collision (signed_strings code1 tx1 n1 t1 a1 ++ signed_strings code2 tx2 n2 t2 a2) x y) as [<-|];
    [apply in_or_app; left; exact (Hin _ _ _ _ _ _ X)|apply in_or_app; right; exact (Hin _ _ _ _ _ _ Y)|exact Heq| |right; assumption].
  exact (preimages_alike _ _ _ _ _ _ _ _ _ _ x _ H1 H2 Ht X Y eq_refl).
Qed.

Definition example_stripped : CTransaction := strip_witness example_tx.

Lemma example_stripped_ok : tx_ok example_stripped.
Proof. constructor; simpl; repeat constructor; simpl; try (by vm_compute); try (unfold is_i32; lia). Qed.

Lemma witness_signature_binds_witness :
  signed_alike [OP_DUP] example_tx 0 SIGHASH_ALL 7 [OP_DUP] example_stripped 0 SIGHASH_ALL 7 \/
  hash_collision (signed_strings [OP_DUP] example_tx 0 SIGHASH_ALL 7 ++ signed_strings [OP_DUP] example_stripped 0 SIGHASH_ALL 7).
Proof.
  apply (witness_signature_binds [OP_DUP] example_tx 0 SIGHASH_ALL 7 [OP_DUP] example_stripped 0 SIGHASH_ALL 7).
  - split_and!; try done; [apply example_tx_ok|decide_true].
  - split_and!; try done; [apply example_stripped_ok|decide_true].
  - reflexivity.
  - vm_compute. reflexivity.
Defined.

(** C24: The legacy signature hash is that of a stripped copy of the transaction.
    For a script whose operations can all be read, the serializer that skips
    parts of the transaction on the fly gives the hash of the original
    algorithm, which copies the transaction, deletes the code separators from
    the script, clears the other scripts, the outputs and the sequence numbers
    as the type asks, and serializes the copy. *)
Theorem SignatureHash_reference code tx n t amount cache :
  well_formed code = true -> zlen code < 2 ^ 32 -> 0 <= n < zlen (vin tx) ->
  zlen (vin tx) < 2 ^ 32 -> zlen (vout tx) < 2 ^ 32 ->
  SignatureHash code tx n t amount cache SIGVERSION_BASE = SignatureHashOld n t code tx.
Proof.
  intros Hw Hl Hn Hi Ho. unfold SignatureHash, SignatureHashOld, base_type.
  destruct (Z.ltb_spec n (zlen (vin tx))); [|lia]. destruct (Z.leb_spec (zlen (vin tx)) n); [lia|]. cbn [assert_then].
  destruct (_ && _) eqn:E; [reflexivity|]. rewrite Serializer_ok; [reflexivity|done..|].
  intros Hs. rewrite Hs in E. by apply Z.leb_gt in E.
Qed.

Lemma SignatureHash_reference_witness :
  SignatureHash [OP_CODESEPARATOR; OP_DUP; OP_CODESEPARATOR] example_tx 0 SIGHASH_SINGLE 7 None SIGVERSION_BASE =
    SignatureHashOld 0 SIGHASH_SINGLE [OP_CODESEPARATOR; OP_DUP; OP_CODESEPARATOR] example_tx.
Proof.
  apply SignatureHash_reference; [reflexivity|reflexivity|split; [discriminate|reflexivity]|reflexivity|reflexivity].
Defined.

(** Precomputing the shared hashes changes no signature hash.  The data can
    be precomputed for every transaction, and with it every signature hash, of
    any script, input, type, amount and version, is what it is without it. *)
Theorem precomputed_data_sound tx : exists d, PrecomputedTransactionData_of tx = Ok d /\
  forall code n t amount v, SignatureHash code tx n t amount (Some d) v = SignatureHash code tx n t amount None v.
Proof. apply SignatureHash_precomputed. Qed.

(** C13: Checking an input of a transaction never aborts.  For every transaction
    within the ranges of its types, every input of it and every script it may
    spend, verification of the input's script and witness with
    TransactionSignatureChecker, and with CachingTransactionSignatureChecker
    whatever entries its cache holds, with or without precomputed data of the
    transaction, under a legal combination of flags, ends with a verdict: no
    assertion fails in the interpreter or in the signature hashes it asks for. *)
Theorem verify_input_total CheckLowS ecdsa_verify flags tx n i amount txdata nonce cache scriptPubKey :
  tx_ok tx -> 0 <= n -> vin tx !! Z.to_nat n = Some i -> flags_legal flags -> bytes_ok scriptPubKey -> precomputed_for tx txdata ->
  (exists r, VerifyScript CheckLowS flags (TransactionSignatureChecker ecdsa_verify tx n amount txdata)
    (scriptSig i) scriptPubKey (scriptWitness i) = Ok r) /\
  (exists r, VerifyScript CheckLowS flags (CachingTransactionSignatureChecker ecdsa_verify tx n amount txdata nonce cache)
    (scriptSig i) scriptPubKey (scriptWitness i) = Ok r).
Proof. intros Hok Hn Hi Hf Hs Hd. split; by apply verify_returns. Qed.

Lemma verify_input_total_witness :
  exists r, VerifyScript (fun _ => true) SCRIPT_VERIFY_P2SH
    (CachingTransactionSignatureChecker (fun _ _ _ => true) example_tx 0 7 None uint256_null {[uint256_null]})
    [OP_0] [OP_DUP; OP_CHECKSIG] [[1; 2; 3]] = Ok r.
Proof.
  apply (verify_input_total (fun _ => true) (fun _ _ _ => true) SCRIPT_VERIFY_P2SH example_tx 0
    (mkCTxIn (mkCOutPoint (repeat 7 32) 1) [OP_0] SEQUENCE_FINAL [[1; 2; 3]]) 7 None uint256_null {[uint256_null]} [OP_DUP; OP_CHECKSIG]).
  - exact example_tx_ok.
  - discriminate.
  - reflexivity.
  - split; [discriminate|reflexivity].
  - decide_true.
  - left. reflexivity.
Defined.
