(* ===== verification/TxVerify.v ===== *)
(** * Transaction verification (tx_verify.cpp, consensus.h)

    The checks of a transaction: final lock times, relative lock times,
    signature operation costs, the checks that need no context and those of the
    inputs against a view of the unspent outputs. A check that rejects through
    [state.DoS] or [state.Invalid] is the verdict [Invalid] with the ban score and
    the reason; an assertion or an exception is a [Throw]. The class
    CValidationState itself is not part of the sources. *)
From S2P Require Import Prelude Serialize Amount Crypto Script Transaction Cash ArithUint256 Block Chain VersionBits.
From S2P Require Import Interpreter SigHash.

#[local] Opaque SHA256 SHA1 RIPEMD160 Hash160 Hash.

(** ** Verdicts

    [CValidationState] when it is not valid: [isError] tells [MODE_ERROR], a
    failure of the node, from [MODE_INVALID], a verdict on the data. *)
Record Reject := mkReject { nDoS : Z; strRejectReason : string; corruptionPossible : bool; isError : bool }.

Inductive verdict (A : Type) :=
  | Valid (a : A)
  | Invalid (r : Reject).
Arguments Valid {A} a.
Arguments Invalid {A} r.

(** [return state.DoS(level, false, REJECT_INVALID, reason)]; [state.Invalid] has level 0. *)
Definition DoS {A} (level : Z) (reason : string) : verdict A := Invalid (mkReject level reason false false).

(** The same with [corruptionIn] set: the data may be damaged, not the block. *)
Definition DoS_corrupt {A} (level : Z) (reason : string) : verdict A := Invalid (mkReject level reason true false).

(** [return state.Error(reason)], which [AbortNode] does besides asking for a shutdown. *)
Definition state_Error {A} (reason : string) : verdict A := Invalid (mkReject 0 reason false true).

(** A check in sequence: go on when it passes. *)
Definition and_then {A B} (v : verdict A) (k : A -> verdict B) : verdict B :=
  match v with Valid a => k a | Invalid r => Invalid r end.

(** [if (c) return state.DoS(level, ...)]. *)
Definition reject_if (c : bool) (level : Z) (reason : string) : verdict unit :=
  if c then DoS level reason else Valid tt.

(** ** consensus.h *)
Definition MAX_BLOCK_SIGOPS_COST : Z := 80000.
Definition CASHBASE_MATURITY : Z := 100.
Definition LOCKTIME_VERIFY_SEQUENCE : Z := 1.
Definition LOCKTIME_MEDIAN_TIME_PAST : Z := 2.

(** ** Lock times *)

Definition IsFinalTx (tx : CTransaction) (nBlockHeight nBlockTime : Z) : bool :=
  if nLockTime tx =? 0 then true
  else if nLockTime tx <? (if nLockTime tx <? LOCKTIME_THRESHOLD then nBlockHeight else nBlockTime) then true
  else forallb (fun txin => nSequence txin =? SEQUENCE_FINAL) (vin tx).

(** The loop of [CalculateSequenceLocks] over the inputs and [prevHeights], from
    the lock pair on: the pair and the heights that were overwritten. *)
Fixpoint sequence_locks_loop (h : Heap) (block : Ptr) (v : list CTxIn) (prevHeights : list Z) (nMinHeight nMinTime : Z)
    : result (Z * Z * list Z) :=
  match v, prevHeights with
  | txin :: v, nCashHeight :: prevHeights =>
      if negb (Z.land (nSequence txin) SEQUENCE_LOCKTIME_DISABLE_FLAG =? 0) then
        '(mh, mt, heights) ← sequence_locks_loop h block v prevHeights nMinHeight nMinTime;
        mret (mh, mt, 0 :: heights)
      else if negb (Z.land (nSequence txin) SEQUENCE_LOCKTIME_TYPE_FLAG =? 0) then
        q ← GetAncestor h block (Z.max (nCashHeight - 1) 0);
        match q with
        | None => Throw null_deref
        | Some q =>
            let nCashTime := GetMedianTimePast h q in
            let nMinTime := Z.max nMinTime
              (i64 (nCashTime + Z.shiftl (Z.land (nSequence txin) SEQUENCE_LOCKTIME_MASK) SEQUENCE_LOCKTIME_GRANULARITY - 1)) in
            '(mh, mt, heights) ← sequence_locks_loop h block v prevHeights nMinHeight nMinTime;
            mret (mh, mt, nCashHeight :: heights)
        end
      else
        let nMinHeight := Z.max nMinHeight (i32 (nCashHeight + Z.land (nSequence txin) SEQUENCE_LOCKTIME_MASK - 1)) in
        '(mh, mt, heights) ← sequence_locks_loop h block v prevHeights nMinHeight nMinTime;
        mret (mh, mt, nCashHeight :: heights)
  | _, _ => Ok (nMinHeight, nMinTime, prevHeights)
  end.

Definition CalculateSequenceLocks (h : Heap) (tx : CTransaction) (flags : Z) (prevHeights : list Z) (block : Ptr)
    : result (Z * Z * list Z) :=
  assert_then (zlen prevHeights =? zlen (vin tx)) "prevHeights->size() == tx.vin.size()"
    (if negb ((2 <=? u32 (nVersion tx)) && negb (Z.land flags LOCKTIME_VERIFY_SEQUENCE =? 0)) then Ok (-1, -1, prevHeights)
     else sequence_locks_loop h block (vin tx) prevHeights (-1) (-1)).

Definition EvaluateSequenceLocks (h : Heap) (block : Ptr) (lockPair : Z * Z) : result bool :=
  match pprev (at_ h block) with
  | None => Throw (assert_failed "block.pprev")
  | Some prev =>
      let nBlockTime := GetMedianTimePast h prev in
      Ok (negb ((Chain.nHeight (at_ h block) <=? lockPair.1) || (nBlockTime <=? lockPair.2)))
  end.

Definition SequenceLocks (h : Heap) (tx : CTransaction) (flags : Z) (prevHeights : list Z) (block : Ptr) : result (bool * list Z) :=
  '(mh, mt, heights) ← CalculateSequenceLocks h tx flags prevHeights block;
  b ← EvaluateSequenceLocks h block (mh, mt);
  mret (b, heights).

(** ** Signature operations *)

Definition GetLegacySigOpCount (tx : CTransaction) : Z :=
  let nSigOps := foldl (fun n txin => u32 (n + GetSigOpCount (scriptSig txin) false)) 0 (vin tx) in
  foldl (fun n txout => u32 (n + GetSigOpCount (scriptPubKey txout) false)) nSigOps (vout tx).

Section View.
Context {S : Type} `{!CashView S} `{!ScriptMemory}.
Implicit Types (c : CCashViewCache S).

(** [AccessCash(prevout)] and [assert(!cash.IsSpent())], as the loops over inputs do. *)
Definition access_unspent (o : COutPoint) c : result (Cash * CCashViewCache S) :=
  let '(cash, c) := AccessCash o c in
  assert_then (negb (IsSpent cash)) "!cash.IsSpent()" (Ok (cash, c)).

Fixpoint P2SHSigOps_loop (v : list CTxIn) (nSigOps : Z) c : result (Z * CCashViewCache S) :=
  match v with
  | [] => Ok (nSigOps, c)
  | txin :: v =>
      '(cash, c) ← access_unspent (prevout txin) c;
      let script := scriptPubKey (out cash) in
      let nSigOps := if IsPayToScriptHash script then u32 (nSigOps + GetSigOpCount_P2SH script (scriptSig txin)) else nSigOps in
      P2SHSigOps_loop v nSigOps c
  end.

Definition GetP2SHSigOpCount (tx : CTransaction) c : result (Z * CCashViewCache S) :=
  if IsCashBase tx then Ok (0, c) else P2SHSigOps_loop (vin tx) 0 c.

Fixpoint WitnessSigOps_loop (flags : Z) (v : list CTxIn) (nSigOps : Z) c : result (Z * CCashViewCache S) :=
  match v with
  | [] => Ok (nSigOps, c)
  | txin :: v =>
      '(cash, c) ← access_unspent (prevout txin) c;
      n ← CountWitnessSigOps (scriptSig txin) (scriptPubKey (out cash)) (scriptWitness txin) flags;
      WitnessSigOps_loop flags v (i64 (nSigOps + n)) c
  end.

Definition GetTransactionSigOpCost (tx : CTransaction) (flags : Z) c : result (Z * CCashViewCache S) :=
  let nSigOps := u32 (GetLegacySigOpCount tx * WITNESS_SCALE_FACTOR) in
  if IsCashBase tx then Ok (nSigOps, c)
  else
    '(nSigOps, c) ← (if flag_on flags SCRIPT_VERIFY_P2SH then
                       '(n, c) ← GetP2SHSigOpCount tx c; mret (i64 (nSigOps + u32 (n * WITNESS_SCALE_FACTOR)), c)
                     else mret (nSigOps, c));
    WitnessSigOps_loop flags (vin tx) nSigOps c.

(** ** The inputs against a view *)

Fixpoint inputs_loop (nSpendHeight : Z) (v : list CTxIn) (nValueIn : CAmount) c
    : result (verdict CAmount * CCashViewCache S) :=
  match v with
  | [] => Ok (Valid nValueIn, c)
  | txin :: v =>
      '(cash, c) ← access_unspent (prevout txin) c;
      if fCashBase cash && (i32 (nSpendHeight - Cash.nHeight cash) <? CASHBASE_MATURITY)
      then Ok (DoS 0 "bad-txns-premature-spend-of-cashbase", c)
      else
        let nValueIn := i64 (nValueIn + nValue (out cash)) in
        if negb (MoneyRange (nValue (out cash))) || negb (MoneyRange nValueIn)
        then Ok (DoS 100 "bad-txns-inputvalues-outofrange", c)
        else inputs_loop nSpendHeight v nValueIn c
  end.

(** The fee of a transaction whose inputs are all right. *)
Definition CheckTxInputs (tx : CTransaction) (nSpendHeight : Z) c : result (verdict CAmount * CCashViewCache S) :=
  let '(have, c) := HaveInputs tx c in
  if negb have then Ok (DoS 100 "bad-txns-inputs-missingorspent", c)
  else
    '(v, c) ← inputs_loop nSpendHeight (vin tx) 0 c;
    match v with
    | Invalid r => Ok (Invalid r, c)
    | Valid nValueIn =>
        value_out ← GetValueOut tx;
        if nValueIn <? value_out then Ok (DoS 100 "bad-txns-in-belowout", c)
        else
          let txfee_aux := i64 (nValueIn - value_out) in
          if negb (MoneyRange txfee_aux) then Ok (DoS 100 "bad-txns-fee-outofrange", c)
          else Ok (Valid txfee_aux, c)
    end.
End View.

(** ** Checks without context *)

Fixpoint outputs_loop (v : list CTxOut) (nValueOut : CAmount) : verdict unit :=
  match v with
  | [] => Valid tt
  | txout :: v =>
      if nValue txout <? 0 then DoS 100 "bad-txns-vout-negative"
      else if MAX_MONEY <? nValue txout then DoS 100 "bad-txns-vout-toolarge"
      else
        let nValueOut := i64 (nValueOut + nValue txout) in
        if negb (MoneyRange nValueOut) then DoS 100 "bad-txns-txouttotal-toolarge"
        else outputs_loop v nValueOut
  end.

(** [vInOutPoints.insert(prevout).second] for every input. *)
Fixpoint no_duplicates_loop (v : list CTxIn) (vInOutPoints : gset COutPoint) : bool :=
  match v with
  | [] => true
  | txin :: v =>
      if bool_decide (prevout txin ∈ vInOutPoints) then false
      else no_duplicates_loop v ({[prevout txin]} ∪ vInOutPoints)
  end.

Definition CheckTransaction (tx : CTransaction) (fCheckDuplicateInputs : bool) : verdict unit :=
  and_then (reject_if (zlen (vin tx) =? 0) 10 "bad-txns-vin-empty") (fun _ =>
  and_then (reject_if (zlen (vout tx) =? 0) 10 "bad-txns-vout-empty") (fun _ =>
  and_then (reject_if (MAX_BLOCK_WEIGHT <? u64 (zlen (serialized false tx) * WITNESS_SCALE_FACTOR)) 100 "bad-txns-oversize") (fun _ =>
  and_then (outputs_loop (vout tx) 0) (fun _ =>
  and_then (reject_if (fCheckDuplicateInputs && negb (no_duplicates_loop (vin tx) ∅)) 100 "bad-txns-inputs-duplicate") (fun _ =>
  if IsCashBase tx then
    let size := match vin tx with i :: _ => zlen (scriptSig i) | [] => 0 end in
    reject_if ((size <? 2) || (100 <? size)) 100 "bad-cb-length"
  else reject_if (existsb (fun txin => COutPoint_IsNull (prevout txin)) (vin tx)) 10 "bad-txns-prevout-null"))))).

(** * Lemmas *)

(** ** Checks without context *)

Lemma outputs_loop_ok v acc : 0 <= acc <= MAX_MONEY ->
  outputs_loop v acc = Valid tt <-> money_vout v /\ acc + zsum (map nValue v) <= MAX_MONEY.
Proof.
  revert acc; induction v as [|o v IH]; intros acc Hacc; cbn [outputs_loop map].
  { change (zsum []) with 0. split; [intros _; split; [constructor|lia]|done]. }
  assert (Hr : MoneyRange (nValue o) = negb (nValue o <? 0) && negb (MAX_MONEY <? nValue o)).
  { unfold MoneyRange. by rewrite !Z.leb_antisym. }
  rewrite zsum_cons, Z.add_assoc. unfold money_vout. rewrite Forall_cons_iff, Hr.
  destruct (Z.ltb_spec (nValue o) 0); [split; [done|by intros [[? _] _]]|].
  destruct (Z.ltb_spec MAX_MONEY (nValue o)); [split; [done|by intros [[? _] _]]|]. cbn [negb andb].
  rewrite i64_small by (unfold is_i64, MAX_MONEY, CASH in *; lia).
  destruct (MoneyRange (acc + nValue o)) eqn:Ha; cbn [negb].
  - apply MoneyRange_spec in Ha. rewrite IH by done. tauto.
  - split; [done|]. intros [[_ Hm] Hs]. pose proof (zsum_nonneg _ (money_vout_nonneg v Hm)).
    assert (MoneyRange (acc + nValue o) = true) by (apply MoneyRange_spec; lia). congruence.
Qed.

Lemma no_duplicates_loop_ok v (s : gset COutPoint) :
  no_duplicates_loop v s = true <-> NoDup (map prevout v) /\ Forall (fun i => prevout i ∉ s) v.
Proof.
  revert s; induction v as [|i v IH]; intros s; cbn [no_duplicates_loop map].
  { split; [intros _; split; constructor|done]. }
  rewrite list.NoDup_cons, Forall_cons_iff. case_bool_decide as Hi; [split; [done|by intros [_ [? _]]]|].
  rewrite IH, !Forall_forall. setoid_rewrite not_elem_of_union. setoid_rewrite not_elem_of_singleton.
  rewrite list_elem_of_In, in_map_iff. split.
  - intros (Hn & H). split_and!; [|done|done|by intros j Hin; apply H]. intros (j & Hj & Hin). by destruct (H j Hin) as [? _].
  - intros ([Hni Hn] & _ & H). split; [done|]. intros j Hin. split; [|auto]. intros E. apply Hni. by exists j.
Qed.

Lemma and_then_Valid (v k : verdict unit) : and_then v (fun _ => k) = Valid tt <-> v = Valid tt /\ k = Valid tt.
Proof. destruct v as [[]|]; cbn; [tauto|]. split; [done|by intros [? _]]. Qed.

Lemma reject_if_Valid b l s : reject_if b l s = Valid tt <-> b = false.
Proof. by destruct b. Qed.

Lemma reject_then b l s (k : verdict unit) : and_then (reject_if b l s) (fun _ => k) = Valid tt <-> b = false /\ k = Valid tt.
Proof. by rewrite and_then_Valid, reject_if_Valid. Qed.

Lemma nonempty_iff {A} (l : list A) : (zlen l =? 0) = false <-> l <> [].
Proof. rewrite Z.eqb_neq. by rewrite zlen_nil_iff. Qed.

Lemma cashbase_script_ok tx : IsCashBase tx = true ->
  let size := match vin tx with i :: _ => zlen (scriptSig i) | [] => 0 end in
  (size <? 2) || (100 <? size) = false <-> exists i, vin tx = [i] /\ 2 <= zlen (scriptSig i) <= 100.
Proof.
  unfold IsCashBase. destruct (vin tx) as [|i [|]]; try done. intros _. cbv zeta. rewrite orb_false_iff, !Z.ltb_ge.
  split; [intros ?; by exists i|]. by intros (j & [= <-] & ?).
Qed.

Lemma no_null_ok (v : list CTxIn) :
  existsb (fun txin => COutPoint_IsNull (prevout txin)) v = false <-> Forall (fun i => COutPoint_IsNull (prevout i) = false) v.
Proof.
  rewrite <- not_true_iff_false, existsb_exists, Forall_forall. split.
  - intros Hn i Hi. apply not_true_iff_false. intros Hnull. apply Hn. by exists i.
  - intros Hn (i & Hi & Hnull). by rewrite Hn in Hnull.
Qed.

Lemma duplicates_ok (b : bool) (v : list CTxIn) :
  b && negb (no_duplicates_loop v ∅) = false <-> (b = true -> NoDup (map prevout v)).
Proof.
  destruct b; cbn [andb]; [|done]. rewrite negb_false_iff, no_duplicates_loop_ok. split; [by intros [? _]|].
  intros Hn. split; [by apply Hn|]. apply Forall_forall. intros i _. set_solver.
Qed.

Lemma CheckTransaction_money tx b : CheckTransaction tx b = Valid tt ->
  money_vout (vout tx) /\ zsum (map nValue (vout tx)) <= MAX_MONEY.
Proof.
  unfold CheckTransaction. rewrite !reject_then, and_then_Valid. intros (_ & _ & _ & Ho & _).
  apply outputs_loop_ok in Ho; [by rewrite Z.add_0_l in Ho|unfold MAX_MONEY, CASH; lia].
Qed.

(** ** Inputs *)

Section ViewLemmas.
Context {S : Type} `{!CashView S} `{!CashViewOk S} `{!ScriptMemory} `{!ScriptMemoryOk}.
Implicit Types (c : CCashViewCache S).

Lemma access_unspent_ok c o cash : cache_inv c -> cache_abs c !! o = Some cash ->
  exists c', access_unspent o c = Ok (cash, c') /\ same_view c c'.
Proof.
  intros Hc Ho. unfold access_unspent. pose proof (AccessCash_ok c o Hc) as Ha. destruct (AccessCash o c) as [r c'].
  destruct Ha as [Hr Hs]. rewrite Ho in Hr. apply unspent_Some in Hr as [-> Hsp]. rewrite Hsp. by exists c'.
Qed.

(** An output that may be spent at a height. *)
Definition mature (nSpendHeight : Z) (cash : Cash) : Prop :=
  fCashBase cash = true -> CASHBASE_MATURITY <= nSpendHeight - Cash.nHeight cash.

(** The outputs the inputs spend. *)
Definition spends (u : utxo) (v : list CTxIn) (coins : list Cash) : Prop :=
  Forall2 (fun i cash => u !! prevout i = Some cash) v coins.

Definition value_of (cash : Cash) : CAmount := nValue (out cash).

Definition money (coins : list Cash) : Prop := Forall (fun cash => MoneyRange (value_of cash) = true) coins.

Lemma money_sum_nonneg coins : money coins -> 0 <= zsum (map value_of coins).
Proof.
  intros Hm. apply zsum_nonneg, Forall_map. eapply Forall_impl; [|exact Hm]. by intros cash [? _]%MoneyRange_spec.
Qed.

Definition heights_ok (u : utxo) : Prop := forall o cash, u !! o = Some cash -> 0 <= Cash.nHeight cash < 2 ^ 31.

Lemma inputs_loop_ok h v coins : forall acc c, 0 <= h < 2 ^ 31 ->
  cache_inv c -> heights_ok (cache_abs c) -> spends (cache_abs c) v coins -> 0 <= acc <= MAX_MONEY ->
  exists r c', inputs_loop h v acc c = Ok (r, c') /\ same_view c c' /\
    forall total, r = Valid total <->
      Forall (mature h) coins /\ money coins /\ acc + zsum (map value_of coins) <= MAX_MONEY /\
      total = acc + zsum (map value_of coins).
Proof.
  intros acc c Hh Hc Hht Hsp. revert acc c Hc Hht Hsp.
  revert coins; induction v as [|i v IH]; intros coins acc c Hc Hht Hsp Hacc.
  { apply Forall2_nil_inv_l in Hsp as ->. exists (Valid acc), c. split_and!; [done|by apply same_view_refl|].
    intros total. change (zsum (map value_of [])) with 0. rewrite Z.add_0_r. unfold money.
    split; [intros [= ->]; split_and!; [constructor|constructor|lia|done]|]. by intros (_ & _ & _ & ->). }
  apply Forall2_cons_inv_l in Hsp as (cash & coins' & Hi & Hsp & ->). cbn [inputs_loop].
  destruct (access_unspent_ok c (prevout i) cash Hc Hi) as (c1 & -> & Hs1). cbn [mbind result_bind].
  destruct Hs1 as (Hc1 & Ha1 & Hb1). unfold money. cbn [map]. setoid_rewrite Forall_cons_iff. rewrite zsum_cons, Z.add_assoc.
  rewrite i32_small by (pose proof (Hht _ _ Hi); unfold is_i32; lia).
  destruct (fCashBase cash && _) eqn:Em.
  { eexists _, c1. split_and!; [done..|]. intros total. split; [done|]. intros ([Hm _] & _).
    apply andb_true_iff in Em as [Ef Em%Z.ltb_lt]. specialize (Hm Ef). lia. }
  assert (Hm : mature h cash).
  { intros Ef. rewrite Ef in Em. cbn [andb] in Em. by apply Z.ltb_ge in Em. }
  change (nValue (out cash)) with (value_of cash). destruct (MoneyRange (value_of cash)) eqn:Ev; cbn [negb orb].
  2:{ eexists _, c1. split_and!; [done..|]. intros total. split; [done|]. by intros (_ & [? _] & _). }
  pose proof Ev as Hv%MoneyRange_spec. rewrite i64_small by (unfold is_i64, MAX_MONEY, CASH in *; lia).
  destruct (MoneyRange (acc + value_of cash)) eqn:Ea; cbn [negb].
  - apply MoneyRange_spec in Ea. rewrite <- Ha1 in Hht, Hsp.
    destruct (IH coins' (acc + value_of cash) c1 Hc1 Hht Hsp Ea) as (r & c2 & -> & Hs2 & Hr). exists r, c2.
    split_and!; [done|by eapply same_view_trans|]. intros total. rewrite Hr. unfold money. tauto.
  - eexists _, c1. split_and!; [done..|]. intros total. split; [done|]. intros (_ & [_ Hmo] & Hle & _).
    pose proof (money_sum_nonneg coins' Hmo). assert (MoneyRange (acc + value_of cash) = true) by (apply MoneyRange_spec; lia).
    congruence.
Qed.

Lemma spends_all (u : utxo) v : Forall (fun i => is_Some (u !! prevout i)) v -> exists coins, spends u v coins.
Proof.
  induction 1 as [|i v [cash Hi] _ [coins IH]]; [exists []; constructor|]. exists (cash :: coins). by constructor.
Qed.

Lemma spends_some (u : utxo) v coins : spends u v coins -> Forall (fun i => is_Some (u !! prevout i)) v.
Proof. induction 1; constructor; [by eexists|done]. Qed.

Lemma spends_unique (u : utxo) v l1 l2 : spends u v l1 -> spends u v l2 -> l1 = l2.
Proof.
  intros H1. revert l2. induction H1 as [|i cash v l1 Hi _ IH]; intros l2 H2; [by apply Forall2_nil_inv_l in H2|].
  apply Forall2_cons_inv_l in H2 as (cash' & l2' & Hi' & H2 & ->). f_equal; [congruence|auto].
Qed.

(** What [CheckTxInputs] asks of a transaction at a height. *)
Definition inputs_ok (u : utxo) (tx : CTransaction) (nSpendHeight : Z) (fee : CAmount) : Prop :=
  exists coins, spends u (vin tx) coins /\ Forall (mature nSpendHeight) coins /\ money coins /\
    zsum (map value_of coins) <= MAX_MONEY /\ zsum (map nValue (vout tx)) <= zsum (map value_of coins) /\
    fee = zsum (map value_of coins) - zsum (map nValue (vout tx)).

Lemma CheckTxInputs_ok tx h c : 0 <= h < 2 ^ 31 -> cache_inv c -> heights_ok (cache_abs c) -> IsCashBase tx = false ->
  money_vout (vout tx) -> zsum (map nValue (vout tx)) <= MAX_MONEY ->
  exists r c', CheckTxInputs tx h c = Ok (r, c') /\ same_view c c' /\
    forall fee, r = Valid fee <-> inputs_ok (cache_abs c) tx h fee.
Proof.
  intros Hh Hc Hht Hcb Hmo Hle. unfold CheckTxInputs. pose proof (HaveInputs_ok tx c Hc) as Hi.
  destruct (HaveInputs tx c) as [b c1]. destruct Hi as [Hi Hs1]. rewrite Hcb in Hi. destruct b; cbn [negb].
  2:{ eexists _, c1. split_and!; [done..|]. intros fee. split; [done|]. intros (coins & Hsp & _).
      discriminate (proj2 Hi (or_intror (spends_some _ _ _ Hsp))). }
  destruct (proj1 Hi eq_refl) as [?|Hav]; [done|]. destruct (spends_all _ _ Hav) as [coins Hsp].
  pose proof Hs1 as (Hc1 & Ha1 & _). pose proof Hsp as Hsp1. rewrite <- Ha1 in Hsp1, Hht.
  destruct (inputs_loop_ok h (vin tx) coins 0 c1 Hh Hc1 Hht Hsp1) as (r & c2 & -> & Hs2 & Hr); [unfold MAX_MONEY, CASH; lia|].
  assert (Hs : same_view c c2) by (by eapply same_view_trans). cbn [mbind result_bind].
  destruct r as [total|r].
  2:{ eexists _, c2. split_and!; [done..|]. intros fee. split; [done|]. intros (l & Hl & Hm & Hmn & Hsm & _).
      rewrite (spends_unique _ _ _ _ Hl Hsp) in *. discriminate (proj2 (Hr (0 + zsum (map value_of coins)))); by rewrite Z.add_0_l. }
  destruct (proj1 (Hr total) eq_refl) as (Hm & Hmn & Hsm & ->). rewrite Z.add_0_l in *.
  rewrite (proj2 (GetValueOut_spec tx (zsum (map nValue (vout tx))))) by done. cbn [mbind result_bind].
  pose proof (zsum_nonneg _ (money_vout_nonneg _ Hmo)). pose proof (money_sum_nonneg coins Hmn).
  destruct (Z.ltb_spec (zsum (map value_of coins)) (zsum (map nValue (vout tx)))).
  { eexists _, c2. split_and!; [done..|]. intros fee. split; [done|]. intros (l & Hl & _ & _ & _ & Hv & _).
    rewrite (spends_unique _ _ _ _ Hl Hsp) in *. lia. }
  rewrite i64_small by (unfold is_i64, MAX_MONEY, CASH in *; lia).
  assert (MoneyRange (zsum (map value_of coins) - zsum (map nValue (vout tx))) = true) as -> by (apply MoneyRange_spec; lia).
  eexists _, c2. split_and!; [done..|]. intros fee. split.
  - intros [= <-]. by exists coins.
  - intros (l & Hl & _ & _ & _ & _ & ->). by rewrite (spends_unique _ _ _ _ Hl Hsp).
Qed.
End ViewLemmas.

(** ** Lock times *)

Lemma input_sequence_at tx n i : vin tx !! Z.to_nat n = Some i -> input_sequence tx n = nSequence i.
Proof. unfold input_sequence. by intros ->. Qed.

Lemma mask_split z : Z.land z nLockTimeMask =
  (if Z.land z SEQUENCE_LOCKTIME_TYPE_FLAG =? 0 then 0 else SEQUENCE_LOCKTIME_TYPE_FLAG) + Z.land z SEQUENCE_LOCKTIME_MASK.
Proof.
  unfold nLockTimeMask. rewrite Z.land_lor_distr_r, <- Z.lxor_lor, <- Z.add_nocarry_lxor.
  - f_equal. unfold SEQUENCE_LOCKTIME_TYPE_FLAG. rewrite land_pow2 by lia. apply Z.bits_inj'. intros k Hk.
    rewrite Z.land_spec, Z.pow2_bits_eqb by lia. destruct (Z.eqb_spec 22 k) as [<-|Hne].
    + destruct (Z.testbit z 22); cbn [negb andb]; [by rewrite Z.pow2_bits_true|by rewrite Z.bits_0].
    + rewrite andb_false_r. destruct (negb _); [by rewrite Z.bits_0|by rewrite Z.pow2_bits_false].
  - rewrite <- Z.land_assoc, (Z.land_comm z SEQUENCE_LOCKTIME_MASK), (Z.land_assoc SEQUENCE_LOCKTIME_TYPE_FLAG).
    change (Z.land SEQUENCE_LOCKTIME_TYPE_FLAG SEQUENCE_LOCKTIME_MASK) with 0. by rewrite Z.land_0_l, Z.land_0_r.
  - rewrite <- Z.land_assoc, (Z.land_comm z SEQUENCE_LOCKTIME_MASK), (Z.land_assoc SEQUENCE_LOCKTIME_TYPE_FLAG).
    change (Z.land SEQUENCE_LOCKTIME_TYPE_FLAG SEQUENCE_LOCKTIME_MASK) with 0. by rewrite Z.land_0_l, Z.land_0_r.
Qed.

Lemma mask_range z : 0 <= Z.land z SEQUENCE_LOCKTIME_MASK < 2 ^ 16.
Proof.
  change SEQUENCE_LOCKTIME_MASK with (2 ^ 16 - 1). rewrite land_ones_mod by lia. apply Z.mod_pos_bound. lia.
Qed.

(** A sequence number that satisfies an operand locks at least as long, in the same unit. *)
Lemma CheckSequence_ok tx n m : Tx_CheckSequence tx n m = true ->
  2 <= u32 (nVersion tx) /\ Z.land (input_sequence tx n) SEQUENCE_LOCKTIME_DISABLE_FLAG = 0 /\
  (Z.land m SEQUENCE_LOCKTIME_TYPE_FLAG =? 0) = (Z.land (input_sequence tx n) SEQUENCE_LOCKTIME_TYPE_FLAG =? 0) /\
  Z.land m SEQUENCE_LOCKTIME_MASK <= Z.land (input_sequence tx n) SEQUENCE_LOCKTIME_MASK.
Proof.
  unfold Tx_CheckSequence. cbv zeta. set (q := input_sequence tx n). destruct (Z.ltb_spec (u32 (nVersion tx)) 2); [done|].
  destruct (Z.eqb_spec (Z.land q SEQUENCE_LOCKTIME_DISABLE_FLAG) 0); [|done]. cbn [negb]. rewrite !mask_split.
  pose proof (mask_range q). pose proof (mask_range m). destruct (negb _) eqn:E1; [done|].
  apply negb_false_iff, orb_true_iff in E1. rewrite !andb_true_iff, !Z.ltb_lt, !Z.leb_le in E1.
  destruct (_ <? _) eqn:E2; [done|]. intros _. apply Z.ltb_ge in E2.
  unfold SEQUENCE_LOCKTIME_TYPE_FLAG in *.
  destruct (Z.land q (2 ^ 22) =? 0), (Z.land m (2 ^ 22) =? 0); split_and!; try done; lia.
Qed.

(** The lock that one input asks for, in the last height and time that are too early. *)
Definition input_lock (h : Heap) (block : Ptr) (i : CTxIn) (nCashHeight mh mt : Z) : Prop :=
  Z.land (nSequence i) SEQUENCE_LOCKTIME_DISABLE_FLAG = 0 ->
  if Z.land (nSequence i) SEQUENCE_LOCKTIME_TYPE_FLAG =? 0
  then nCashHeight + Z.land (nSequence i) SEQUENCE_LOCKTIME_MASK - 1 <= mh
  else exists q, back h (Z.to_nat (Chain.nHeight (at_ h block) - Z.max (nCashHeight - 1) 0)) block = Some q /\
    GetMedianTimePast h q + Z.land (nSequence i) SEQUENCE_LOCKTIME_MASK * 512 - 1 <= mt.

Lemma input_lock_mono h block i ch mh mt mh' mt' :
  input_lock h block i ch mh mt -> mh <= mh' -> mt <= mt' -> input_lock h block i ch mh' mt'.
Proof.
  unfold input_lock. intros H H1 H2 Hd. specialize (H Hd). destruct (_ =? 0); [lia|].
  destruct H as (q & Hq & H). exists q. split; [done|lia].
Qed.

Section SequenceLocks.
Context (h : Heap) (block : Ptr) (Hh : heap_ok h) (Ht : times_ok h) (Hb : is_Some (h !! block)).
Context (Hheight : Chain.nHeight (at_ h block) < 2 ^ 30).

Lemma ancestor_before ch : 0 <= ch <= Chain.nHeight (at_ h block) -> exists q,
  GetAncestor h block (Z.max (ch - 1) 0) = Ok (Some q) /\
  back h (Z.to_nat (Chain.nHeight (at_ h block) - Z.max (ch - 1) 0)) block = Some q.
Proof.
  intros Hc. destruct (back_spec h Hh (Z.to_nat (Chain.nHeight (at_ h block) - Z.max (ch - 1) 0)) block Hb) as (q & Hq & _); [lia|].
  exists q. split; [|done]. rewrite GetAncestor_ok by done.
  destruct (Z.leb_spec 0 (Z.max (ch - 1) 0)), (Z.leb_spec (Z.max (ch - 1) 0) (Chain.nHeight (at_ h block))); try lia.
  cbn [andb]. by rewrite Hq.
Qed.

Lemma sequence_locks_loop_ok v : forall pvh mh mt, length pvh = length v ->
  Forall (fun ch => 0 <= ch <= Chain.nHeight (at_ h block)) pvh ->
  exists mh' mt' hs, sequence_locks_loop h block v pvh mh mt = Ok (mh', mt', hs) /\ mh <= mh' /\ mt <= mt' /\
    forall j i ch, v !! j = Some i -> pvh !! j = Some ch -> input_lock h block i ch mh' mt'.
Proof.
  induction v as [|i v IH]; intros [|ch pvh] mh mt Hl Hp; try discriminate Hl.
  { exists mh, mt, []. split_and!; [done|lia|lia|done]. }
  injection Hl as Hl. apply Forall_cons_1 in Hp as [Hc Hp]. cbn [sequence_locks_loop].
  assert (Hmask := mask_range (nSequence i)).
  assert (Hgo : forall a b x, mh <= a -> mt <= b -> input_lock h block i ch a b ->
    exists mh' mt' hs, ('(mh, mt, heights) ← sequence_locks_loop h block v pvh a b; mret (mh, mt, x :: heights)) = Ok (mh', mt', hs) /\
      mh <= mh' /\ mt <= mt' /\
      forall j i' ch', (i :: v) !! j = Some i' -> (ch :: pvh) !! j = Some ch' -> input_lock h block i' ch' mh' mt').
  { intros a b x Ha Hb' Hlock. destruct (IH pvh a b Hl Hp) as (mh' & mt' & hs & -> & H1 & H2 & H3).
    exists mh', mt', (x :: hs). split_and!; [done|lia|lia|]. intros [|j] i' ch'; cbn; [|by apply H3].
    intros [= <-] [= <-]. by eapply input_lock_mono. }
  destruct (Z.eqb_spec (Z.land (nSequence i) SEQUENCE_LOCKTIME_DISABLE_FLAG) 0) as [Hd|Hd]; cbn [negb].
  2:{ apply Hgo; [lia..|]. by intros ?. }
  destruct (Z.land (nSequence i) SEQUENCE_LOCKTIME_TYPE_FLAG =? 0) eqn:Hty; cbn [negb].
  - apply Hgo; [lia..|]. intros _. rewrite Hty. rewrite i32_small by (unfold is_i32; lia). lia.
  - destruct (ancestor_before ch Hc) as (q & -> & Hq). cbn [mbind result_bind]. pose proof (median_time_range h q Ht).
    assert (Hsh : Z.shiftl (Z.land (nSequence i) SEQUENCE_LOCKTIME_MASK) SEQUENCE_LOCKTIME_GRANULARITY =
      Z.land (nSequence i) SEQUENCE_LOCKTIME_MASK * 512) by (by rewrite Z.shiftl_mul_pow2).
    apply Hgo; [lia..|]. intros _. rewrite Hty. exists q. split; [done|].
    rewrite Hsh, i64_small by (unfold is_i64; lia). lia.
Qed.
End SequenceLocks.

(** * Properties *)

(** C27: CHECKSEQUENCEVERIFY keeps its promise.  When the operation accepts its
    operand in an input of a transaction, and the block's relative lock check
    accepts the transaction, then the output spent by that input is at least as
    old as the operand says: by blocks, the block is that many heights above it;
    by time, the median time before the block is that many units of 512 seconds
    after the median time before the output's block. The lock check itself
    always returns. *)
Theorem csv_enforced h block prev tx n i ch prevHeights ecdsa_verify amount cache sflags flags x stk :
  heap_ok h -> times_ok h -> is_Some (h !! block) -> Chain.nHeight (at_ h block) < 2 ^ 30 -> pprev (at_ h block) = Some prev ->
  length prevHeights = length (vin tx) -> Forall (fun ch => 0 <= ch <= Chain.nHeight (at_ h block)) prevHeights ->
  vin tx !! Z.to_nat n = Some i -> prevHeights !! Z.to_nat n = Some ch -> Z.land flags LOCKTIME_VERIFY_SEQUENCE <> 0 ->
  flag_on sflags SCRIPT_VERIFY_CHECKSEQUENCEVERIFY = true ->
  sequence_op sflags (TransactionSignatureChecker ecdsa_verify tx n amount cache) (x :: stk) = mret tt ->
  exists m ok hs, CScriptNum x (fRequireMinimal sflags) 5 = Ok m /\ 0 <= m /\
    SequenceLocks h tx flags prevHeights block = Ok (ok, hs) /\
    (ok = true -> Z.land m SEQUENCE_LOCKTIME_DISABLE_FLAG = 0 ->
     if Z.land m SEQUENCE_LOCKTIME_TYPE_FLAG =? 0
     then ch + Z.land m SEQUENCE_LOCKTIME_MASK <= Chain.nHeight (at_ h block)
     else exists q, back h (Z.to_nat (Chain.nHeight (at_ h block) - Z.max (ch - 1) 0)) block = Some q /\
       GetMedianTimePast h q + Z.land m SEQUENCE_LOCKTIME_MASK * 512 <= GetMedianTimePast h prev).
Proof.
  intros Hh Ht Hb Hht Hprev Hl Hp Hi Hch Hf Hsf Hop. unfold sequence_op, num_arg in Hop. rewrite Hsf in Hop. cbn [negb] in Hop.
  destruct (CScriptNum x (fRequireMinimal sflags) 5) as [m|] eqn:Em; [|discriminate]. cbn [lift mbind scriptm_bind] in Hop.
  destruct (Z.ltb_spec m 0); [discriminate|]. cbn [fail_if mret scriptm_ret mbind scriptm_bind] in Hop.
  unfold SequenceLocks, CalculateSequenceLocks. assert ((zlen prevHeights =? zlen (vin tx)) = true) as -> by (unfold zlen; rewrite Hl; apply Z.eqb_refl).
  cbn [assert_then]. apply Z.eqb_neq in Hf. rewrite Hf. cbn [negb]. rewrite andb_true_r.
  destruct (sequence_locks_loop_ok h block Hh Ht Hb Hht (vin tx) prevHeights (-1) (-1) Hl Hp) as (mh & mt & hs & Hrun & _ & _ & Hlock).
  unfold EvaluateSequenceLocks. rewrite Hrun, Hprev. specialize (Hlock _ _ _ Hi Hch).
  destruct (Z.leb_spec 2 (u32 (nVersion tx))) as [Hv|Hv]; cbn [negb mbind result_bind mret result_ret fst snd].
  - do 3 eexists. split_and!; [done|done|done|]. intros Hok Hd. rewrite Hd in Hop. cbn [negb Z.eqb fail_if] in Hop.
    cbn [CheckSequence TransactionSignatureChecker] in Hop. destruct (Tx_CheckSequence tx n m) eqn:Ec; [|discriminate].
    apply CheckSequence_ok in Ec as (_ & Hdis & Hty & Hle). rewrite (input_sequence_at _ _ _ Hi) in *. specialize (Hlock Hdis).
    rewrite Hty. apply negb_true_iff, orb_false_iff in Hok as [Hk1%Z.leb_gt Hk2%Z.leb_gt].
    destruct (Z.land (nSequence i) SEQUENCE_LOCKTIME_TYPE_FLAG =? 0); [lia|]. destruct Hlock as (q & Hq & Hlock). exists q. split; [done|lia].
  - do 3 eexists. split_and!; [done|done|done|]. intros Hok Hd. rewrite Hd in Hop. cbn [negb Z.eqb fail_if] in Hop.
    cbn [CheckSequence TransactionSignatureChecker] in Hop. destruct (Tx_CheckSequence tx n m) eqn:Ec; [|discriminate].
    apply CheckSequence_ok in Ec as (? & _). lia.
Qed.

(** C28: CHECKLOCKTIMEVERIFY keeps its promise.  When the operation accepts its
    operand in an input of a transaction that is final at a height and time,
    the operand, if not 0, is below that height, or that time if it is a time:
    the script cannot be satisfied before. *)
Theorem cltv_enforced tx n i ecdsa_verify amount cache sflags x stk nBlockHeight nBlockTime :
  vin tx !! Z.to_nat n = Some i -> flag_on sflags SCRIPT_VERIFY_CHECKLOCKTIMEVERIFY = true ->
  locktime_op sflags (TransactionSignatureChecker ecdsa_verify tx n amount cache) (x :: stk) = mret tt ->
  IsFinalTx tx nBlockHeight nBlockTime = true ->
  exists m, CScriptNum x (fRequireMinimal sflags) 5 = Ok m /\ 0 <= m /\
    (m = 0 \/ m < if m <? LOCKTIME_THRESHOLD then nBlockHeight else nBlockTime).
Proof.
  intros Hi Hsf Hop Hfin. unfold locktime_op, num_arg in Hop. rewrite Hsf in Hop. cbn [negb] in Hop.
  destruct (CScriptNum x (fRequireMinimal sflags) 5) as [m|] eqn:Em; [|discriminate]. cbn [lift mbind scriptm_bind] in Hop.
  destruct (Z.ltb_spec m 0); [discriminate|]. cbn [fail_if mret scriptm_ret mbind scriptm_bind CheckLockTime TransactionSignatureChecker] in Hop.
  exists m. split_and!; [done..|]. unfold Tx_CheckLockTime in Hop. rewrite (input_sequence_at _ _ _ Hi) in Hop.
  destruct (negb (_ || _)) eqn:E1; [discriminate|]. apply negb_false_iff, orb_true_iff in E1.
  rewrite !andb_true_iff, !Z.ltb_lt, !Z.leb_le in E1.
  destruct (Z.ltb_spec (nLockTime tx) m); [discriminate|]. destruct (Z.eqb_spec SEQUENCE_FINAL (nSequence i)) as [|Hns]; [discriminate|].
  unfold IsFinalTx in Hfin. destruct (Z.eqb_spec (nLockTime tx) 0); [left; lia|]. right.
  destruct (nLockTime tx <? (if nLockTime tx <? LOCKTIME_THRESHOLD then nBlockHeight else nBlockTime)) eqn:E2.
  - apply Z.ltb_lt in E2. destruct (Z.ltb_spec (nLockTime tx) LOCKTIME_THRESHOLD), (Z.ltb_spec m LOCKTIME_THRESHOLD); lia.
  - rewrite forallb_forall in Hfin. specialize (Hfin i). rewrite Z.eqb_eq in Hfin. destruct Hns. symmetry. apply Hfin.
    apply list_elem_of_In, list_elem_of_lookup. by eexists.
Qed.

(** C19: [CheckTransaction] accepts exactly the well-formed transactions: with
    inputs and outputs, of at most the size of a block, whose output values and
    their total are money, without duplicate inputs when asked to look for
    them, and with a cashbase script of 2 to 100 bytes or, for other
    transactions, no null input. *)
Theorem CheckTransaction_correct tx fCheckDuplicateInputs : zlen (serialized false tx) < 2 ^ 61 ->
  CheckTransaction tx fCheckDuplicateInputs = Valid tt <->
    vin tx <> [] /\ vout tx <> [] /\ zlen (serialized false tx) * 4 <= MAX_BLOCK_WEIGHT /\
    money_vout (vout tx) /\ zsum (map nValue (vout tx)) <= MAX_MONEY /\
    (fCheckDuplicateInputs = true -> NoDup (map prevout (vin tx))) /\
    (if IsCashBase tx then exists i, vin tx = [i] /\ 2 <= zlen (scriptSig i) <= 100
     else Forall (fun i => COutPoint_IsNull (prevout i) = false) (vin tx)).
Proof.
  intros Hsz. pose proof (zlen_nonneg (serialized false tx)). unfold CheckTransaction.
  rewrite !reject_then, and_then_Valid, reject_then, !nonempty_iff, duplicates_ok, Z.ltb_ge.
  rewrite outputs_loop_ok, Z.add_0_l by (unfold MAX_MONEY, CASH; lia).
  rewrite u64_small by (unfold is_u64, WITNESS_SCALE_FACTOR; lia). unfold WITNESS_SCALE_FACTOR.
  destruct (IsCashBase tx) eqn:Ecb; rewrite reject_if_Valid; [rewrite (cashbase_script_ok tx Ecb)|rewrite no_null_ok]; tauto.
Qed.

Lemma CheckTransaction_correct_witness : CheckTransaction example_tx true = Valid tt.
Proof.
  apply (CheckTransaction_correct example_tx true); [vm_compute; reflexivity|].
  split_and!; [discriminate|discriminate|vm_compute; discriminate| |vm_compute; discriminate| |].
  - repeat constructor.
  - intros _. repeat constructor. intros H. by apply elem_of_nil in H.
  - vm_compute. repeat constructor.
Defined.

(** C20: [CheckTxInputs] lets no value appear from nowhere.  On a coherent cache it
    always returns, leaves the view as it is, and accepts with a fee exactly
    when every input spends an output of the view that is mature, the values
    and their total are money, and the total covers the outputs; the fee is
    the difference. *)
Theorem CheckTxInputs_correct {S} `{!CashView S, !CashViewOk S, !ScriptMemory, !ScriptMemoryOk}
    (c : CCashViewCache S) tx nSpendHeight :
  0 <= nSpendHeight < 2 ^ 31 -> cache_inv c -> heights_ok (cache_abs c) -> IsCashBase tx = false ->
  CheckTransaction tx false = Valid tt ->
  exists r c', CheckTxInputs tx nSpendHeight c = Ok (r, c') /\ same_view c c' /\
    forall fee, r = Valid fee <-> inputs_ok (cache_abs c) tx nSpendHeight fee.
Proof. intros Hh Hc Hht Hcb [Hm Hs]%CheckTransaction_money. by apply CheckTxInputs_ok. Qed.

(** An example: one output of 6 coins at height 10, cached over an empty map. *)
Definition example_coin : Cash := mkCash (mkCTxOut (6 * CASH) [OP_1]) true 10.
Definition example_view : MapView := mkMapView {[ mkCOutPoint (repeat 7 32) 1 := example_coin ]} uint256_null.
#[local] Existing Instances no_script_memory no_script_memory_ok.

Lemma example_view_cache_inv : cache_inv (CCashViewCache_new example_view).
Proof.
  split; [|intros o e; cbn; by rewrite lookup_empty|reflexivity]. cbn. unfold map_view_inv, example_view. cbn [mv_map].
  apply map_Forall_singleton. reflexivity.
Qed.

Lemma example_view_lookup o cash :
  cache_abs (CCashViewCache_new example_view) !! o = Some cash -> o = mkCOutPoint (repeat 7 32) 1 /\ cash = example_coin.
Proof. unfold cache_abs. rewrite lookup_overlay. cbn. rewrite lookup_empty. by intros [<- <-]%lookup_singleton_Some. Qed.

Lemma CheckTxInputs_correct_witness :
  exists r c', CheckTxInputs example_tx 200 (CCashViewCache_new example_view) = Ok (r, c') /\
    same_view (CCashViewCache_new example_view) c' /\ r = Valid CASH.
Proof.
  destruct (CheckTxInputs_correct (CCashViewCache_new example_view) example_tx 200) as (r & c' & H & Hs & Hr).
  - split; [discriminate|reflexivity].
  - exact example_view_cache_inv.
  - intros o cash [_ ->]%example_view_lookup. split; [discriminate|reflexivity].
  - reflexivity.
  - vm_compute. reflexivity.
  - exists r, c'. split; [exact H|]. split; [exact Hs|]. apply Hr. exists [example_coin]. unfold spends, money. split_and!.
    + repeat constructor.
    + constructor; [intros _; discriminate|constructor].
    + repeat constructor.
    + discriminate.
    + discriminate.
    + reflexivity.
Defined.

Lemma times_ok_map (h : Heap) : map_Forall (fun _ e => is_u32 (bi_nTime e)) h -> times_ok h.
Proof. intros H p. unfold at_. destruct (h !! p) as [e|] eqn:E; [exact (H p e E)|]. split; [discriminate|reflexivity]. Qed.

Lemma example_times_ok : times_ok example_heap.
Proof. apply times_ok_map. decide_true. Qed.

(** A transaction that spends an output of height 1 one block later. *)
Definition example_relative : CTransaction :=
  mkCTransaction 2 [mkCTxIn (mkCOutPoint (repeat 7 32) 1) [] 1 []] [mkCTxOut CASH [OP_1]] 0.

Lemma csv_enforced_witness :
  exists m ok hs, CScriptNum [1] (fRequireMinimal SCRIPT_VERIFY_CHECKSEQUENCEVERIFY) 5 = Ok m /\ 0 <= m /\
    SequenceLocks example_heap example_relative LOCKTIME_VERIFY_SEQUENCE [1] 3 = Ok (ok, hs) /\
    (ok = true -> Z.land m SEQUENCE_LOCKTIME_DISABLE_FLAG = 0 ->
     if Z.land m SEQUENCE_LOCKTIME_TYPE_FLAG =? 0
     then 1 + Z.land m SEQUENCE_LOCKTIME_MASK <= Chain.nHeight (at_ example_heap 3)
     else exists q, back example_heap (Z.to_nat (Chain.nHeight (at_ example_heap 3) - Z.max (1 - 1) 0)) 3 = Some q /\
       GetMedianTimePast example_heap q + Z.land m SEQUENCE_LOCKTIME_MASK * 512 <= GetMedianTimePast example_heap 2).
Proof.
  apply (csv_enforced example_heap 3 2 example_relative 0 (mkCTxIn (mkCOutPoint (repeat 7 32) 1) [] 1 []) 1 [1]
    (fun _ _ _ => true) 7 None SCRIPT_VERIFY_CHECKSEQUENCEVERIFY LOCKTIME_VERIFY_SEQUENCE [1] []).
  - exact example_heap_ok.
  - exact example_times_ok.
  - vm_compute. eauto.
  - reflexivity.
  - reflexivity.
  - reflexivity.
  - constructor; [split; discriminate|constructor].
  - reflexivity.
  - reflexivity.
  - discriminate.
  - reflexivity.
  - reflexivity.
Defined.

(** A transaction locked until height 99. *)
Definition example_locked : CTransaction :=
  mkCTransaction 2 [mkCTxIn (mkCOutPoint (repeat 7 32) 1) [] 0 []] [mkCTxOut CASH [OP_1]] 99.

Lemma cltv_enforced_witness :
  exists m, CScriptNum [98] (fRequireMinimal SCRIPT_VERIFY_CHECKLOCKTIMEVERIFY) 5 = Ok m /\ 0 <= m /\
    (m = 0 \/ m < if m <? LOCKTIME_THRESHOLD then 100 else 1500000000).
Proof.
  apply (cltv_enforced example_locked 0 (mkCTxIn (mkCOutPoint (repeat 7 32) 1) [] 0 []) (fun _ _ _ => true) 7 None
    SCRIPT_VERIFY_CHECKLOCKTIMEVERIFY [98] [] 100 1500000000); reflexivity.
Defined.
