(* ===== verification/Compressor.v ===== *)
(** * Compact forms of outputs and undo data (compressor.h, compressor.cpp, cash.h, undo.h)

    Amounts and standard scripts have a shorter form in the databases; undo
    data keeps the outputs a block spends in that form. The validity of an
    uncompressed public key and its recovery from the compressed form are
    elliptic-curve operations and parameters. *)
From S2P Require Import Prelude Serialize Amount Crypto Script Transaction Cash SigHash.

#[local] Opaque SHA256 SHA1 RIPEMD160 Hash160 Hash.

(** ** Amounts *)

(** [while (((n % 10) == 0) && e < 9) { n /= 10; e++; }] with [k = 9 - e]. *)
Fixpoint drop_zeros (k : nat) (n e : Z) : Z * Z :=
  match k with
  | O => (n, e)
  | S k => if n mod 10 =? 0 then drop_zeros k (n / 10) (e + 1) else (n, e)
  end.

Definition CompressAmount (n : Z) : result Z :=
  if n =? 0 then Ok 0
  else
    let '(n, e) := drop_zeros 9 n 0 in
    if e <? 9 then
      let d := n mod 10 in
      assert_then ((1 <=? d) && (d <=? 9)) "d >= 1 && d <= 9"
        (let n := n / 10 in Ok (u64 (1 + (n * 9 + d - 1) * 10 + e)))
    else Ok (u64 (1 + (n - 1) * 10 + 9)).

(** [while (e) { n *= 10; e--; }]. *)
Fixpoint times_ten (e : nat) (n : Z) : Z :=
  match e with
  | O => n
  | S e => times_ten e (u64 (n * 10))
  end.

Definition DecompressAmount (x : Z) : Z :=
  if x =? 0 then 0
  else
    let x := x - 1 in
    let e := x mod 10 in
    let x := x / 10 in
    let n := if e <? 9 then (let d := x mod 9 + 1 in let x := x / 9 in u64 (x * 10 + d)) else u64 (x + 1) in
    times_ten (Z.to_nat e) n.

(** ** class CScriptCompressor *)

Definition nSpecialScripts : Z := 6.

(** [memcpy(&hash, &script[i], k)]. *)
Definition script_part (script : CScript) (i k : nat) : bytes := take k (drop i script).

Definition IsToKeyID (script : CScript) : option bytes :=
  if (zlen script =? 25) && (script_at script 0 =? OP_DUP) && (script_at script 1 =? OP_HASH160) &&
     (script_at script 2 =? 20) && (script_at script 23 =? OP_EQUALVERIFY) && (script_at script 24 =? OP_CHECKSIG)
  then Some (script_part script 3 20) else None.

Definition IsToScriptID (script : CScript) : option bytes :=
  if (zlen script =? 23) && (script_at script 0 =? OP_HASH160) && (script_at script 1 =? 20) &&
     (script_at script 22 =? OP_EQUAL)
  then Some (script_part script 2 20) else None.

Definition GetSpecialSize (nSize : Z) : Z :=
  if (nSize =? 0) || (nSize =? 1) then 20
  else if (nSize =? 2) || (nSize =? 3) || (nSize =? 4) || (nSize =? 5) then 32
  else 0.

(** The two elliptic-curve operations of CPubKey. *)
Class Curve := {
  IsFullyValid : CPubKey -> bool;
  Decompress_key : CPubKey -> option CPubKey;
}.

Section CScriptCompressor.
Context {curve : Curve}.

Definition IsToPubKey (script : CScript) : option CPubKey :=
  if (zlen script =? 35) && (script_at script 0 =? 33) && (script_at script 34 =? OP_CHECKSIG) &&
     ((script_at script 1 =? 2) || (script_at script 1 =? 3))
  then Some (CPubKey_of (script_part script 1 33))
  else if (zlen script =? 67) && (script_at script 0 =? 65) && (script_at script 66 =? OP_CHECKSIG) &&
          (script_at script 1 =? 4)
  then let pubkey := CPubKey_of (script_part script 1 65) in
       if IsFullyValid pubkey then Some pubkey else None
  else None.

Definition Compress (script : CScript) : option bytes :=
  match IsToKeyID script with
  | Some keyID => Some (0 :: keyID)
  | None =>
      match IsToScriptID script with
      | Some scriptID => Some (1 :: scriptID)
      | None =>
          match IsToPubKey script with
          | Some pubkey =>
              let header := script_at pubkey 0 in
              if (header =? 2) || (header =? 3) then Some (header :: script_part pubkey 1 32)
              else if header =? 4 then Some (Z.lor 4 (Z.land (script_at pubkey 64) 1) :: script_part pubkey 1 32)
              else None
          | None => None
          end
      end
  end.

(** The script after [Decompress], [script] when it returns [false]. *)
Definition Decompress (script : CScript) (nSize : Z) (data : bytes) : result CScript :=
  if nSize =? 0 then Ok ([OP_DUP; OP_HASH160; 20] ++ data ++ [OP_EQUALVERIFY; OP_CHECKSIG])
  else if nSize =? 1 then Ok ([OP_HASH160; 20] ++ data ++ [OP_EQUAL])
  else if (nSize =? 2) || (nSize =? 3) then Ok ([33; nSize] ++ data ++ [OP_CHECKSIG])
  else if (nSize =? 4) || (nSize =? 5) then
    match Decompress_key (CPubKey_of (nSize - 2 :: data)) with
    | None => Ok script
    | Some pubkey =>
        assert_then (CPubKey_size pubkey =? 65) "pubkey.size() == 65" (Ok ([65] ++ take 65 pubkey ++ [OP_CHECKSIG]))
    end
  else Ok script.

Definition CScriptCompressor_Serialize (script : CScript) : result bytes :=
  match Compress script with
  | Some compr => Ok compr
  | None =>
      let nSize := u32 (zlen script + nSpecialScripts) in
      n ← WriteVarInt uint32_t nSize;
      mret (n ++ script)
  end.

Definition reader_of {A} (r : result A) : Reader A := fun s => a ← r; Ok (a, s).

(** Reading into a fresh (empty) script. *)
Definition CScriptCompressor_Unserialize : Reader CScript :=
  nSize ← ReadVarInt uint32_t;
  if nSize <? nSpecialScripts then
    vch ← stream_read (GetSpecialSize nSize);
    reader_of (Decompress [] nSize vch)
  else
    let nSize := nSize - nSpecialScripts in
    if MAX_SCRIPT_SIZE <? nSize then _ ← stream_ignore nSize; mret [OP_RETURN]
    else stream_read nSize.

Definition CScriptCompressor_codec : codec CScript :=
  mkCodec CScriptCompressor_Serialize CScriptCompressor_Unserialize.

(** ** class CTxOutCompressor *)

Definition CTxOutCompressor_codec : codec CTxOut :=
  mkCodec
    (fun txout =>
       nVal ← CompressAmount (u64 (nValue txout));
       v ← WriteVarInt uint64_t nVal;
       s ← enc CScriptCompressor_codec (scriptPubKey txout);
       mret (v ++ s))
    (nVal ← ReadVarInt uint64_t;
     script ← dec CScriptCompressor_codec;
     mret (mkCTxOut (i64 (DecompressAmount nVal)) script)).

(** ** Cash::Serialize and Cash::Unserialize *)

Definition cash_code (cash : Cash) : Z := u32 (nHeight cash * 2 + (if fCashBase cash then 1 else 0)).

Definition Cash_codec : codec Cash :=
  mkCodec
    (fun cash =>
       assert_then (negb (IsSpent cash)) "!IsSpent()"
         (c ← WriteVarInt uint32_t (cash_code cash);
          o ← enc CTxOutCompressor_codec (out cash);
          mret (c ++ o)))
    (code ← ReadVarInt uint32_t;
     o ← dec CTxOutCompressor_codec;
     mret (mkCash o (negb (Z.land code 1 =? 0)) (Z.shiftr code 1))).

(** ** undo.h *)

Definition TxInUndo_codec : codec Cash :=
  mkCodec
    (fun txout =>
       c ← WriteVarInt uint32_t (cash_code txout);
       d ← (if 0 <? nHeight txout then enc uint8_codec 0 else Ok []);
       o ← enc CTxOutCompressor_codec (out txout);
       mret (c ++ d ++ o))
    (nCode ← ReadVarInt uint32_t;
     let height := nCode / 2 in
     _ ← (if 0 <? height then _ ← ReadVarInt uint32_t; mret tt else mret tt);
     o ← dec CTxOutCompressor_codec;
     mret (mkCash o (negb (Z.land nCode 1 =? 0)) height)).

Definition MIN_TRANSACTION_INPUT_WEIGHT : Z :=
  WITNESS_SCALE_FACTOR *
  match enc CTxIn_codec (mkCTxIn COutPoint_null [] SEQUENCE_FINAL []) with Ok bs => zlen bs | Throw _ => 0 end.
Definition MAX_INPUTS_PER_BLOCK : Z := MAX_BLOCK_WEIGHT / MIN_TRANSACTION_INPUT_WEIGHT.

Record CTxUndo := mkCTxUndo { vprevout : list Cash }.

Definition CTxUndo_codec : codec CTxUndo :=
  mkCodec
    (fun u =>
       bs ← Serialize_elements TxInUndo_codec (vprevout u);
       mret (WriteCompactSize (zlen (vprevout u)) ++ bs))
    (count ← ReadCompactSize;
     if MAX_INPUTS_PER_BLOCK <? count then reader_throw (ios_failure "Too many input undo records")
     else v ← Unserialize_elements TxInUndo_codec (Z.to_nat count); mret (mkCTxUndo v)).

Record CBlockUndo := mkCBlockUndo { vtxundo : list CTxUndo }.

Definition CBlockUndo_codec (batch : Z) : codec CBlockUndo :=
  map_codec vtxundo mkCBlockUndo (vector_codec CTxUndo_codec batch).
End CScriptCompressor.

(** * Lemmas *)

(** ** Amounts *)

Lemma drop_zeros_ok k n e n' e' : 0 < n -> drop_zeros k n e = (n', e') ->
  e <= e' <= e + Z.of_nat k /\ n = n' * 10 ^ (e' - e) /\ 0 < n' /\ (e' < e + Z.of_nat k -> n' mod 10 <> 0).
Proof.
  revert n e; induction k as [|k IH]; intros n e Hn; cbn [drop_zeros].
  - intros [= <- <-]. rewrite Z.sub_diag. split_and!; lia.
  - destruct (Z.eqb_spec (n mod 10) 0) as [Hm|Hm].
    + assert (Hd : n = 10 * (n / 10)) by (pose proof (Z.div_mod n 10); lia).
      intros (He & Hv & Hp & Hl)%IH; [|lia]. split_and!; [lia|lia| |done|intros; apply Hl; lia].
      replace (e' - e) with (1 + (e' - (e + 1))) by lia. rewrite Z.pow_add_r by lia. lia.
    + intros [= <- <-]. rewrite Z.sub_diag. split_and!; lia.
Qed.

Lemma times_ten_ok e n : 0 <= n -> n * 10 ^ Z.of_nat e < 2 ^ 64 -> times_ten e n = n * 10 ^ Z.of_nat e.
Proof.
  revert n; induction e as [|e IH]; intros n Hn Hb; cbn [times_ten]; [lia|].
  rewrite Nat2Z.inj_succ, Z.pow_succ_r in * by lia. assert (1 <= 10 ^ Z.of_nat e) by (apply Z.lt_pred_le, Z.pow_pos_nonneg; lia).
  rewrite u64_small by (unfold is_u64; nia). rewrite IH; nia.
Qed.

Lemma CompressAmount_ok n : 0 <= n < 2 ^ 60 ->
  exists x, CompressAmount n = Ok x /\ 0 <= x < 2 ^ 64 /\ DecompressAmount x = n.
Proof.
  intros Hn. unfold CompressAmount. destruct (Z.eqb_spec n 0) as [->|Hn0]; [by exists 0|].
  destruct (drop_zeros 9 n 0) as [m e] eqn:E. apply drop_zeros_ok in E as (He & Hv & Hm & Hl); [|lia]. rewrite Z.sub_0_r, Z.add_0_l in *.
  change (Z.of_nat 9) with 9 in *. assert (1 <= 10 ^ e) by (apply Z.lt_pred_le, Z.pow_pos_nonneg; lia). assert (m <= n) by nia.
  destruct (Z.ltb_spec e 9) as [He9|He9].
  - specialize (Hl He9). pose proof (Z.mod_pos_bound m 10). pose proof (Z.div_mod m 10).
    destruct (Z.leb_spec 1 (m mod 10)), (Z.leb_spec (m mod 10) 9); try lia. cbn [andb assert_then].
    rewrite u64_small by (unfold is_u64; lia). eexists. split; [done|]. split; [lia|]. unfold DecompressAmount.
    destruct (Z.eqb_spec (1 + (m / 10 * 9 + m mod 10 - 1) * 10 + e) 0); [lia|].
    replace (1 + (m / 10 * 9 + m mod 10 - 1) * 10 + e - 1) with (e + (m / 10 * 9 + (m mod 10 - 1)) * 10) by lia.
    rewrite Z.mod_add, Z.div_add, (Z.mod_small e), (Z.div_small e), Z.add_0_l by lia.
    destruct (Z.ltb_spec e 9); [|lia]. replace (m / 10 * 9 + (m mod 10 - 1)) with (m mod 10 - 1 + m / 10 * 9) by lia.
    rewrite Z.mod_add, Z.div_add, (Z.mod_small (m mod 10 - 1)), (Z.div_small (m mod 10 - 1)), Z.add_0_l by lia.
    replace (m / 10 * 10 + (m mod 10 - 1 + 1)) with m by lia. rewrite u64_small by (unfold is_u64; lia).
    rewrite times_ten_ok, Z2Nat.id; rewrite ?Z2Nat.id; lia.
  - assert (e = 9) as -> by lia. rewrite u64_small by (unfold is_u64; lia). eexists. split; [done|]. split; [lia|]. unfold DecompressAmount.
    destruct (Z.eqb_spec (1 + (m - 1) * 10 + 9) 0); [lia|]. replace (1 + (m - 1) * 10 + 9 - 1) with (9 + (m - 1) * 10) by lia.
    rewrite Z.mod_add, Z.div_add by lia. change (9 mod 10) with 9. change (9 / 10) with 0. change (9 <? 9) with false. cbv iota.
    replace (0 + (m - 1) + 1) with m by lia. rewrite u64_small by (unfold is_u64; lia).
    rewrite times_ten_ok; change (Z.of_nat (Z.to_nat 9)) with 9; lia.
Qed.

(** ** Scripts *)

(** What the curve operations promise: a valid uncompressed key is recovered
    from its first coordinate and the parity of the second. *)
Class CurveOk `{Curve} : Prop :=
  Decompress_key_ok key : zlen key = 65 -> bytes_ok key -> script_at key 0 = 4 -> IsFullyValid key = true ->
    Decompress_key (2 + Z.land (script_at key 64) 1 :: script_part key 1 32) = Some key.

(** A list of a known length is the list of its elements. *)
Ltac explode l H :=
  unfold zlen in H; apply (f_equal Z.to_nat) in H; rewrite Nat2Z.id in H; simpl in H;
  repeat (destruct l as [|? l]; [discriminate H|]; simpl in H; apply Nat.succ_inj in H); destruct l; [|discriminate H]; clear H.

Lemma IsToKeyID_ok script h : IsToKeyID script = Some h ->
  zlen h = 20 /\ script = [OP_DUP; OP_HASH160; 20] ++ h ++ [OP_EQUALVERIFY; OP_CHECKSIG].
Proof.
  unfold IsToKeyID. destruct (_ && _) eqn:E; [|done]. rewrite !andb_true_iff, !Z.eqb_eq in E.
  destruct E as [[[[[Hl H0] H1] H2] H3] H4]. explode script Hl. cbn in *. subst. by intros [= <-].
Qed.

Lemma IsToScriptID_ok script h : IsToScriptID script = Some h ->
  zlen h = 20 /\ script = [OP_HASH160; 20] ++ h ++ [OP_EQUAL].
Proof.
  unfold IsToScriptID. destruct (_ && _) eqn:E; [|done]. rewrite !andb_true_iff, !Z.eqb_eq in E.
  destruct E as [[[Hl H0] H1] H2]. explode script Hl. cbn in *. subst. by intros [= <-].
Qed.

Section ScriptCodec.
Context {curve : Curve} {curve_ok : CurveOk}.

Lemma CPubKey_of_ok key : zlen key = CPubKey_GetLen (script_at key 0) -> 0 < zlen key -> CPubKey_of key = key.
Proof.
  intros Hl Hp. unfold CPubKey_of. destruct key as [|c key]; [done|]. change (script_at (c :: key) 0) with c in Hl.
  rewrite <- Hl, Z.eqb_refl. destruct (Z.eqb_spec (zlen (c :: key)) 0); [lia|done].
Qed.

Lemma IsToPubKey_ok script key : IsToPubKey script = Some key ->
  (zlen key = 33 /\ (script_at key 0 = 2 \/ script_at key 0 = 3) /\ script = [33] ++ key ++ [OP_CHECKSIG]) \/
  (zlen key = 65 /\ script_at key 0 = 4 /\ IsFullyValid key = true /\ script = [65] ++ key ++ [OP_CHECKSIG]).
Proof.
  unfold IsToPubKey. destruct (_ && (_ || _)) eqn:E.
  - rewrite !andb_true_iff, orb_true_iff, !Z.eqb_eq in E. destruct E as [[[Hl H0] H1] H2].
    assert (Hk : zlen (script_part script 1 33) = 33 /\ script_at (script_part script 1 33) 0 = script_at script 1 /\
      script = [33] ++ script_part script 1 33 ++ [OP_CHECKSIG]) by (explode script Hl; cbn in *; by subst).
    destruct Hk as (Hk & Hh & Hs). rewrite CPubKey_of_ok; rewrite ?Hk, ?Hh; [|by destruct H2 as [-> | ->]|lia].
    intros [= <-]. left. rewrite Hh. done.
  - clear E. destruct (_ && _) eqn:E; [|done]. rewrite !andb_true_iff, !Z.eqb_eq in E. destruct E as [[[Hl H0] H1] H2].
    assert (Hk : zlen (script_part script 1 65) = 65 /\ script_at (script_part script 1 65) 0 = script_at script 1 /\
      script = [65] ++ script_part script 1 65 ++ [OP_CHECKSIG]) by (explode script Hl; cbn in *; by subst).
    destruct Hk as (Hk & Hh & Hs). rewrite CPubKey_of_ok; rewrite ?Hk, ?Hh; [|by rewrite H2|lia].
    destruct (IsFullyValid _) eqn:Ev; [|done]. intros [= <-]. right. rewrite Hh. done.
Qed.

(** Reading a special script: its number and its data. *)
Lemma read_special b data rest script : 0 <= b < 6 -> zlen data = GetSpecialSize b -> Decompress [] b data = Ok script ->
  CScriptCompressor_Unserialize ((b :: data) ++ rest) = Ok (script, rest).
Proof.
  intros Hb Hl Hd. unfold CScriptCompressor_Unserialize.
  assert (Hv : ReadVarInt uint32_t ((b :: data) ++ rest) = Ok (b, data ++ rest)).
  { assert (b = 0 \/ b = 1 \/ b = 2 \/ b = 3 \/ b = 4 \/ b = 5) as H6 by lia.
    destruct H6 as [-> | [-> | [-> | [-> | [-> | ->]]]]]; reflexivity. }
  erewrite reader_bind_step by exact Hv. unfold nSpecialScripts. destruct (Z.ltb_spec b 6); [|lia].
  erewrite reader_bind_step by (rewrite <- Hl; by apply stream_read_app). unfold reader_of. by rewrite Hd.
Qed.

Lemma low_bit z : Z.land z 1 = z mod 2.
Proof. exact (Z.land_ones z 1 ltac:(lia)). Qed.

(** A valid uncompressed key. *)
Lemma Compress_uncompressed key compr : zlen key = 65 -> bytes_ok key -> script_at key 0 = 4 -> IsFullyValid key = true ->
  Some (Z.lor 4 (Z.land (script_at key 64) 1) :: script_part key 1 32) = Some compr ->
  bytes_ok compr /\ forall rest, CScriptCompressor_Unserialize (compr ++ rest) = Ok ([65] ++ key ++ [OP_CHECKSIG], rest).
Proof.
  intros Hl Hk Hh Hv [= <-]. pose proof (Decompress_key_ok key Hl Hk Hh Hv) as Hd.
  assert (Hp : Z.land (script_at key 64) 1 = 0 \/ Z.land (script_at key 64) 1 = 1).
  { rewrite !low_bit. pose proof (Z.mod_pos_bound (script_at key 64) 2). lia. }
  set (p := Z.land (script_at key 64) 1) in *. assert (Z.lor 4 p = 4 + p) as -> by (by destruct Hp as [-> | ->]).
  assert (Hx : zlen (script_part key 1 32) = 32) by (explode key Hl; done).
  assert (Hxb : bytes_ok (script_part key 1 32)) by (by apply Forall_take, Forall_drop).
  split; [constructor; [split; lia|done]|]. intros rest. apply read_special; [lia|by destruct Hp as [-> | ->]|].
  unfold Decompress. replace (4 + p - 2) with (2 + p) by lia.
  rewrite CPubKey_of_ok; [|rewrite zlen_cons, Hx; by destruct Hp as [-> | ->]|rewrite zlen_cons; lia]. rewrite Hd.
  assert (CPubKey_size key = 65) as -> by (destruct key as [|c key]; [done|]; change (script_at (c :: key) 0) with c in Hh; by rewrite Hh).
  rewrite take_ge by (unfold zlen in Hl; lia). by destruct Hp as [-> | ->].
Qed.

Lemma Compress_ok script compr : bytes_ok script -> Compress script = Some compr ->
  bytes_ok compr /\ forall rest, CScriptCompressor_Unserialize (compr ++ rest) = Ok (script, rest).
Proof.
  intros Hb. unfold Compress. destruct (IsToKeyID script) as [h|] eqn:E1; [|destruct (IsToScriptID script) as [h|] eqn:E2;
    [|destruct (IsToPubKey script) as [key|] eqn:E3; [|done]]].
  - apply IsToKeyID_ok in E1 as [Hl ->]. apply Forall_app in Hb as [_ [Hh _]%Forall_app]. intros [= <-].
    split; [constructor; [split; lia|done]|]. intros rest. by apply read_special.
  - apply IsToScriptID_ok in E2 as [Hl ->]. apply Forall_app in Hb as [_ [Hh _]%Forall_app]. intros [= <-].
    split; [constructor; [split; lia|done]|]. intros rest. by apply read_special.
  - apply IsToPubKey_ok in E3 as [(Hl & Hh & ->)|(Hl & Hh & Hv & ->)].
    + apply Forall_app in Hb as [_ [Hk _]%Forall_app]. assert (Hkey : key = script_at key 0 :: script_part key 1 32).
      { explode key Hl. done. }
      assert (Hl32 : zlen (script_part key 1 32) = 32) by (rewrite Hkey, zlen_cons in Hl; lia).
      assert (((script_at key 0 =? 2) || (script_at key 0 =? 3)) = true) as ->.
      { apply orb_true_iff. rewrite !Z.eqb_eq. done. }
      intros [= <-]. rewrite <- Hkey. split; [done|]. intros rest. rewrite Hkey. apply read_special; [lia| |].
      * by destruct Hh as [-> | ->].
      * destruct Hh as [Hh | Hh]; rewrite Hh; unfold Decompress; cbn [Z.eqb orb]; do 2 f_equal; by rewrite Hkey at 2; rewrite Hh.
    + apply Forall_app in Hb as [_ [Hk _]%Forall_app]. rewrite Hh. cbn [Z.eqb orb]. apply Compress_uncompressed; done.
Qed.

(** ** The codecs *)

Definition compressed_script_ok (script : CScript) : Prop := bytes_ok script /\ zlen script <= MAX_SCRIPT_SIZE.

#[export] Instance CScriptCompressor_codec_ok : CodecOk CScriptCompressor_codec compressed_script_ok.
Proof.
  intros script [Hb Hl]. cbn [enc dec CScriptCompressor_codec]. unfold CScriptCompressor_Serialize.
  destruct (Compress script) as [compr|] eqn:E.
  { destruct (Compress_ok script compr Hb E) as [Hc Hr]. by exists compr. }
  pose proof (zlen_nonneg script). unfold MAX_SCRIPT_SIZE in Hl. rewrite u32_small by (unfold is_u32, nSpecialScripts; lia).
  destruct (varint_codec_ok uint32_t uint32_t_ok (zlen script + nSpecialScripts)) as (n & Hn & Hnb & Hr).
  { unfold nSpecialScripts. cbn. unfold UINT32_MAX. lia. }
  cbn [enc dec varint_codec] in Hn, Hr. rewrite Hn. exists (n ++ script). split_and!; [done|by apply bytes_ok_app|].
  intros rest. rewrite <- app_assoc. unfold CScriptCompressor_Unserialize. erewrite reader_bind_step by apply Hr.
  unfold nSpecialScripts. destruct (Z.ltb_spec (zlen script + 6) 6); [lia|]. cbv zeta. rewrite Z.add_simpl_r.
  unfold MAX_SCRIPT_SIZE. destruct (Z.ltb_spec 10000 (zlen script)); [lia|]. by apply stream_read_app.
Qed.

Definition compressed_out_ok (o : CTxOut) : Prop := 0 <= nValue o < 2 ^ 60 /\ compressed_script_ok (scriptPubKey o).

#[export] Instance CTxOutCompressor_codec_ok : CodecOk CTxOutCompressor_codec compressed_out_ok.
Proof.
  intros [v script] [Hv Hs]. cbn [nValue scriptPubKey] in *. cbn [enc dec CTxOutCompressor_codec nValue scriptPubKey].
  rewrite u64_small by (unfold is_u64; lia). destruct (CompressAmount_ok v Hv) as (x & -> & Hx & Hd). cbn [mbind result_bind].
  destruct (varint_codec_ok uint64_t uint64_t_ok x) as (n & Hn & Hnb & Hr); [cbn; unfold UINT64_MAX; lia|].
  cbn [enc dec varint_codec] in Hn, Hr. rewrite Hn. destruct (CScriptCompressor_codec_ok script Hs) as (b & Hb & Hbb & Hrb).
  cbn [mbind result_bind]. rewrite Hb. exists (n ++ b). split_and!; [done|by apply bytes_ok_app|].
  intros rest. rewrite <- app_assoc. erewrite reader_bind_step by apply Hr. erewrite reader_bind_step by apply Hrb.
  rewrite Hd, i64_small by (unfold is_i64; lia). done.
Qed.

Definition cash_ok (cash : Cash) : Prop := 0 <= nHeight cash < 2 ^ 31 /\ compressed_out_ok (out cash).

Lemma cash_code_ok cash : 0 <= nHeight cash < 2 ^ 31 ->
  0 <= cash_code cash < 2 ^ 32 /\ Z.shiftr (cash_code cash) 1 = nHeight cash /\ cash_code cash / 2 = nHeight cash /\
  negb (Z.land (cash_code cash) 1 =? 0) = fCashBase cash.
Proof.
  intros Hh. unfold cash_code. rewrite u32_small by (unfold is_u32; destruct (fCashBase cash); lia).
  rewrite Z.shiftr_div_pow2 by lia. change (2 ^ 1) with 2. rewrite low_bit.
  replace (nHeight cash * 2 + _) with ((if fCashBase cash then 1 else 0) + nHeight cash * 2) by lia.
  rewrite Z.div_add, Z.mod_add by lia. destruct (fCashBase cash); split_and!; cbn; lia || done.
Qed.

#[export] Instance Cash_codec_ok : CodecOk Cash_codec cash_ok.
Proof.
  intros cash [Hh Ho]. destruct (cash_code_ok cash Hh) as (Hc & Hs & _ & Hb). cbn [enc dec Cash_codec].
  assert (IsSpent cash = false) as -> by (apply Z.eqb_neq; destruct Ho; lia). cbn [negb assert_then].
  destruct (varint_codec_ok uint32_t uint32_t_ok (cash_code cash)) as (n & Hn & Hnb & Hr); [cbn; unfold UINT32_MAX; lia|].
  cbn [enc dec varint_codec] in Hn, Hr. rewrite Hn. destruct (CTxOutCompressor_codec_ok (out cash) Ho) as (b & Hbo & Hbb & Hrb).
  cbn [mbind result_bind]. rewrite Hbo. exists (n ++ b). split_and!; [done|by apply bytes_ok_app|].
  intros rest. rewrite <- app_assoc. erewrite reader_bind_step by apply Hr. erewrite reader_bind_step by apply Hrb.
  rewrite Hs, Hb. by destruct cash.
Qed.

#[export] Instance TxInUndo_codec_ok : CodecOk TxInUndo_codec cash_ok.
Proof.
  intros cash [Hh Ho]. destruct (cash_code_ok cash Hh) as (Hc & _ & Hs & Hb). cbn [enc dec TxInUndo_codec].
  destruct (varint_codec_ok uint32_t uint32_t_ok (cash_code cash)) as (n & Hn & Hnb & Hr); [cbn; unfold UINT32_MAX; lia|].
  cbn [enc dec varint_codec] in Hn, Hr. rewrite Hn. destruct (CTxOutCompressor_codec_ok (out cash) Ho) as (b & Hbo & Hbb & Hrb).
  cbn [mbind result_bind]. set (d := if 0 <? nHeight cash then [0] else []).
  replace (if 0 <? nHeight cash then enc uint8_codec 0 else Ok []) with (Ok d) by (subst d; by destruct (0 <? nHeight cash)).
  cbn [mbind result_bind]. rewrite Hbo. exists (n ++ d ++ b). split_and!; [done| |].
  { apply bytes_ok_app; split; [done|]. apply bytes_ok_app; split; [|done]. subst d. destruct (0 <? nHeight cash); [by constructor|constructor]. }
  intros rest. rewrite <- !app_assoc. erewrite reader_bind_step by apply Hr. cbv zeta. rewrite Hs.
  erewrite (reader_bind_step _ _ (d ++ b ++ rest) tt (b ++ rest)); [|subst d; by destruct (0 <? nHeight cash)].
  erewrite reader_bind_step by apply Hrb. rewrite Hb. by destruct cash.
Qed.

Definition undo_ok (u : CTxUndo) : Prop := Forall cash_ok (vprevout u) /\ zlen (vprevout u) <= MAX_INPUTS_PER_BLOCK.

#[export] Instance CTxUndo_codec_ok : CodecOk CTxUndo_codec undo_ok.
Proof.
  intros [v] [Hv Hl]. cbn [vprevout] in *. change MAX_INPUTS_PER_BLOCK with 24390 in Hl. pose proof (zlen_nonneg v).
  destruct (Serialize_elements_roundtrip TxInUndo_codec cash_ok v Hv) as (bs & Hbs & Hbb & Hr).
  cbn [enc dec CTxUndo_codec vprevout]. rewrite Hbs. exists (WriteCompactSize (zlen v) ++ bs).
  split_and!; [done|apply bytes_ok_app; auto using WriteCompactSize_ok|]. intros rest. rewrite <- app_assoc.
  erewrite reader_bind_step by (apply ReadCompactSize_app; unfold MAX_SIZE; lia). change MAX_INPUTS_PER_BLOCK with 24390.
  destruct (Z.ltb_spec 24390 (zlen v)); [lia|]. unfold zlen. rewrite Nat2Z.id. by erewrite reader_bind_step by apply Hr.
Qed.
End ScriptCodec.

(** * Properties *)

(** C29: Undo data and unspent outputs survive storage.  Every amount below 2^60
    is recovered from its compressed form; with curve operations that recover
    a key from its compressed form, every output of the set is read back from
    its record, and every block's undo data from what is written for it,
    whatever follows. *)
Theorem undo_roundtrip {curve : Curve} {curve_ok : CurveOk} batch (undo : CBlockUndo) (cash : Cash) n rest :
  1 <= batch -> Forall undo_ok (vtxundo undo) -> zlen (vtxundo undo) <= MAX_SIZE -> cash_ok cash -> 0 <= n < 2 ^ 60 ->
  (exists x, CompressAmount n = Ok x /\ DecompressAmount x = n) /\
  (exists bs, enc Cash_codec cash = Ok bs /\ dec Cash_codec (bs ++ rest) = Ok (cash, rest)) /\
  (exists bs, enc (CBlockUndo_codec batch) undo = Ok bs /\ dec (CBlockUndo_codec batch) (bs ++ rest) = Ok (undo, rest)).
Proof.
  intros Hb Hu Hl Hc Hn. split_and!.
  - destruct (CompressAmount_ok n Hn) as (x & ? & _ & ?). by exists x.
  - destruct (Cash_codec_ok cash Hc) as (bs & ? & _ & ?). by exists bs.
  - destruct undo as [v]. cbn [vtxundo] in *. destruct (vector_codec_ok CTxUndo_codec undo_ok batch Hb v (conj Hu Hl)) as (bs & Hbs & _ & Hr).
    exists bs. split; [done|]. cbn [dec CBlockUndo_codec map_codec]. by erewrite reader_bind_step by apply Hr.
Qed.

(** A curve with one point. *)
Definition example_key : CPubKey := 4 :: repeat 1 64.
#[local] Instance example_curve : Curve := {
  IsFullyValid key := bool_decide (key = example_key);
  Decompress_key _ := Some example_key;
}.
#[local] Instance example_curve_ok : CurveOk.
Proof. intros key _ _ _ H. by apply bool_decide_eq_true in H as ->. Qed.

Definition example_undo : Cash := mkCash (mkCTxOut (5 * CASH) ([65] ++ example_key ++ [OP_CHECKSIG])) true 7.

Lemma example_undo_ok : cash_ok example_undo.
Proof.
  split; [split; [discriminate|reflexivity]|]. split; [split; [discriminate|reflexivity]|]. split; [decide_true|discriminate].
Qed.

Lemma undo_roundtrip_witness :
  (exists x, CompressAmount (25 * CASH) = Ok x /\ DecompressAmount x = 25 * CASH) /\
  (exists bs, enc Cash_codec example_undo = Ok bs /\ dec Cash_codec (bs ++ [9]) = Ok (example_undo, [9])) /\
  (exists bs, enc (CBlockUndo_codec 1) (mkCBlockUndo [mkCTxUndo [example_undo]]) = Ok bs /\
     dec (CBlockUndo_codec 1) (bs ++ [9]) = Ok (mkCBlockUndo [mkCTxUndo [example_undo]], [9])).
Proof.
  apply (undo_roundtrip 1 (mkCBlockUndo [mkCTxUndo [example_undo]]) example_undo (25 * CASH) [9]).
  - lia.
  - constructor; [|constructor]. split; [constructor; [exact example_undo_ok|constructor]|discriminate].
  - discriminate.
  - exact example_undo_ok.
  - split; [discriminate|reflexivity].
Defined.
