(* ===== verification/CheckBlock.v ===== *)
(** * Block checks that do not look at the unspent outputs (validation.cpp, checkpoints.cpp)

    The checks of a header and a block on their own and against the block
    index, the witness commitment, the script flags and the version of a block,
    and the acceptance of headers. The caches of the version bits are passed
    along, one per deployment. The weight of a block is computed by a header
    that is not part of the sources and is a parameter. *)
From S2P Require Import Prelude Serialize Amount Crypto Script Transaction Cash ArithUint256 Block Chain Pow VersionBits Merkle.
From S2P Require Import Interpreter SigHash TxVerify.

#[local] Opaque SHA256 SHA1 RIPEMD160 Hash160 Hash Hash2.

(** ** Sequencing of checks *)
Definition check {A B} (v : verdict A) (k : A -> result (verdict B)) : result (verdict B) :=
  match v with Valid a => k a | Invalid r => Ok (Invalid r) end.

(** ** CheckBlockHeader and CheckBlock *)

Definition CheckBlockHeader (block : CBlockHeader) (params : Params) (fCheckPOW : bool) : verdict unit :=
  reject_if (fCheckPOW && negb (CheckProofOfWork (CBlockHeader_GetHash block) (bh_nBits block) params)) 50 "high-hash".

Definition CheckMerkleRoot (block : CBlock) : result (verdict unit) :=
  r ← BlockMerkleRoot block;
  let '(root, mutated) := (r : uint256 * bool) in
  Ok (if negb (bool_decide (hashMerkleRoot (header block) = root)) then DoS_corrupt 100 "bad-txnmrklroot"
      else if mutated then DoS_corrupt 100 "bad-txns-duplicate"
      else Valid tt).

(** [CheckTransaction] without the check for duplicate inputs, for every transaction. *)
Fixpoint CheckTransactions (v : list CTransaction) : verdict unit :=
  match v with
  | [] => Valid tt
  | tx :: v => and_then (CheckTransaction tx false) (fun _ => CheckTransactions v)
  end.

Definition BlockSigOps (v : list CTransaction) : Z :=
  foldl (fun n tx => u32 (n + GetLegacySigOpCount tx)) 0 v.

(** The checks after the merkle root. *)
Definition CheckBlockTransactions (block : CBlock) : verdict unit :=
  let v := vtx block in
  and_then (reject_if ((zlen v =? 0) || (MAX_BLOCK_WEIGHT <? u64 (zlen v * WITNESS_SCALE_FACTOR)) ||
      (MAX_BLOCK_WEIGHT <? u64 (zlen (block_bytes false block) * WITNESS_SCALE_FACTOR))) 100 "bad-blk-length") (fun _ =>
  and_then (reject_if (match v with [] => true | tx :: _ => negb (IsCashBase tx) end) 100 "bad-cb-missing") (fun _ =>
  and_then (reject_if (existsb IsCashBase (tail v)) 100 "bad-cb-multiple") (fun _ =>
  and_then (CheckTransactions v) (fun _ =>
  reject_if (MAX_BLOCK_SIGOPS_COST <? u32 (BlockSigOps v * WITNESS_SCALE_FACTOR)) 100 "bad-blk-sigops")))).

(** The block with [fChecked] as the function leaves it. *)
Definition CheckBlock (block : CBlock) (params : Params) (fCheckPOW fCheckMerkleRoot : bool) : result (verdict CBlock) :=
  if fChecked block then Ok (Valid block)
  else
    check (CheckBlockHeader (header block) params fCheckPOW) (fun _ =>
    root ← (if fCheckMerkleRoot then CheckMerkleRoot block else Ok (Valid tt));
    check root (fun _ =>
    check (CheckBlockTransactions block) (fun _ =>
    Ok (Valid (if fCheckPOW && fCheckMerkleRoot then mkCBlock (header block) (vtx block) true else block))))).

(** ** Deployments *)
Definition DEPLOYMENT_TESTDUMMY : Z := 0.
Definition DEPLOYMENT_CSV : Z := 1.
Definition DEPLOYMENT_SEGWIT : Z := 2.
Definition MAX_VERSION_BITS_DEPLOYMENTS : Z := 3.

(** [VersionBitsCache]: a cache per deployment. *)
Abbreviation VersionBitsCache := (list ThresholdConditionCache).

Section Deployments.
Context (h : Heap) (params : Params).

(** [VersionBitsState(pindexPrev, params, pos, versionbitscache)]. *)
Definition deployment_state (pindexPrev : option Ptr) (pos : Z) (caches : VersionBitsCache)
    : result (ThresholdState * VersionBitsCache) :=
  d ← at_index (vDeployments params) pos;
  cache ← at_index caches pos;
  '(st, cache) ← VersionBitsState h pindexPrev params d cache;
  mret (st, <[Z.to_nat pos := cache]> caches).

Definition IsWitnessEnabled (pindexPrev : option Ptr) (caches : VersionBitsCache) : result (bool * VersionBitsCache) :=
  '(st, caches) ← deployment_state pindexPrev DEPLOYMENT_SEGWIT caches;
  mret (bool_decide (st = THRESHOLD_ACTIVE), caches).

(** The loop of [ComputeBlockVersion] with [k] deployments to go, from [i] on. *)
Fixpoint block_version_loop (pindexPrev : option Ptr) (k : nat) (i nVersion : Z) (caches : VersionBitsCache)
    : result (Z * VersionBitsCache) :=
  match k with
  | O => Ok (nVersion, caches)
  | S k =>
      '(st, caches) ← deployment_state pindexPrev i caches;
      d ← at_index (vDeployments params) i;
      let nVersion := if bool_decide (st = THRESHOLD_LOCKED_IN) || bool_decide (st = THRESHOLD_STARTED)
                      then i32 (Z.lor nVersion (VersionBitsMask d)) else nVersion in
      block_version_loop pindexPrev k (i + 1) nVersion caches
  end.

Definition ComputeBlockVersion (pindexPrev : option Ptr) (caches : VersionBitsCache) : result (Z * VersionBitsCache) :=
  block_version_loop pindexPrev (Z.to_nat MAX_VERSION_BITS_DEPLOYMENTS) 0 VERSIONBITS_TOP_BITS caches.

(** The script rules a block enforces, from its height and deployments. *)
Definition GetBlockScriptFlags (pindex : Ptr) (caches : VersionBitsCache) : result (Z * VersionBitsCache) :=
  let e := at_ h pindex in
  let flags := SCRIPT_VERIFY_NONE in
  let flags := if BIP16Height params <=? Chain.nHeight e then Z.lor flags SCRIPT_VERIFY_P2SH else flags in
  let flags := if BIP66Height params <=? Chain.nHeight e then Z.lor flags SCRIPT_VERIFY_DERSIG else flags in
  let flags := if BIP65Height params <=? Chain.nHeight e then Z.lor flags SCRIPT_VERIFY_CHECKLOCKTIMEVERIFY else flags in
  '(st, caches) ← deployment_state (pprev e) DEPLOYMENT_CSV caches;
  let flags := if bool_decide (st = THRESHOLD_ACTIVE) then Z.lor flags SCRIPT_VERIFY_CHECKSEQUENCEVERIFY else flags in
  '(witness, caches) ← IsWitnessEnabled (pprev e) caches;
  let flags := if (witness : bool) then Z.lor (Z.lor flags SCRIPT_VERIFY_WITNESS) SCRIPT_VERIFY_NULLDUMMY else flags in
  mret (flags, caches).
End Deployments.

(** ** The witness commitment *)

Definition is_commitment (script : CScript) : bool :=
  (38 <=? zlen script) && (script_at script 0 =? OP_RETURN) && (script_at script 1 =? 0x24) &&
  (script_at script 2 =? 0xaa) && (script_at script 3 =? 0x21) && (script_at script 4 =? 0xa9) && (script_at script 5 =? 0xed).

(** The loop over the outputs, from index [o] on. *)
Fixpoint commitment_loop (v : list CTxOut) (o commitpos : Z) : Z :=
  match v with
  | [] => commitpos
  | txout :: v => commitment_loop v (o + 1) (if is_commitment (scriptPubKey txout) then i32 o else commitpos)
  end.

Definition GetWitnessCommitmentIndex (block : CBlock) : Z :=
  match vtx block with
  | [] => -1
  | tx :: _ => commitment_loop (vout tx) 0 (-1)
  end.

Definition nonce : bytes := repeat 0 32.

(** [tx.vin[0].scriptWitness.stack = {nonce}] for the first transaction. *)
Definition set_nonce (tx : CTransaction) : result CTransaction :=
  match vin tx with
  | [] => Throw out_of_range
  | i :: v => Ok (mkCTransaction (nVersion tx) (mkCTxIn (prevout i) (scriptSig i) (nSequence i) [nonce] :: v) (vout tx) (nLockTime tx))
  end.

Definition set_first (block : CBlock) (tx : CTransaction) : CBlock :=
  mkCBlock (header block) (tx :: tail (vtx block)) (fChecked block).

Definition first_tx (block : CBlock) : result CTransaction := at_index (vtx block) 0.

Definition UpdateUncommittedBlockStructures (h : Heap) (params : Params) (block : CBlock) (pindexPrev : option Ptr)
    (caches : VersionBitsCache) : result (CBlock * VersionBitsCache) :=
  if GetWitnessCommitmentIndex block =? -1 then Ok (block, caches)
  else
    '(enabled, caches) ← IsWitnessEnabled h params pindexPrev caches;
    if negb enabled then Ok (block, caches)
    else
      tx ← first_tx block;
      if HasWitness tx then Ok (block, caches)
      else tx' ← set_nonce tx; Ok (set_first block tx', caches).

(** [OP_RETURN 0x24 0xaa21a9ed <hash>]. *)
Definition commitment_script (hash : uint256) : CScript := [OP_RETURN; 0x24; 0xaa; 0x21; 0xa9; 0xed] ++ hash.

Definition GenerateCashbaseCommitment (h : Heap) (params : Params) (block : CBlock) (pindexPrev : option Ptr)
    (caches : VersionBitsCache) : result (bytes * CBlock * VersionBitsCache) :=
  d ← at_index (vDeployments params) DEPLOYMENT_SEGWIT;
  '(commitment, block) ←
    (if negb (nTimeout d =? 0) && (GetWitnessCommitmentIndex block =? -1) then
       '(witnessroot, _) ← BlockWitnessMerkleRoot block;
       let script := commitment_script (Hash2 witnessroot nonce) in
       tx ← first_tx block;
       mret (script, set_first block (mkCTransaction (nVersion tx) (vin tx) (vout tx ++ [mkCTxOut 0 script]) (nLockTime tx)))
     else mret ([], block));
  '(block, caches) ← UpdateUncommittedBlockStructures h params block pindexPrev caches;
  mret (commitment, block, caches).

(** The validation of the commitment: [fHaveWitness]. *)
Definition check_commitment (block : CBlock) : result (verdict bool) :=
  let commitpos := GetWitnessCommitmentIndex block in
  if commitpos =? -1 then Ok (Valid false)
  else
    '(hashWitness, _) ← BlockWitnessMerkleRoot block;
    tx ← first_tx block;
    i ← at_index (vin tx) 0;
    match scriptWitness i with
    | [n] =>
        if negb (zlen n =? 32) then Ok (DoS_corrupt 100 "bad-witness-nonce-size")
        else
          o ← at_index (vout tx) commitpos;
          if negb (bool_decide (Hash2 hashWitness n = take 32 (drop 6 (scriptPubKey o))))
          then Ok (DoS_corrupt 100 "bad-witness-merkle-match")
          else Ok (Valid true)
    | _ => Ok (DoS_corrupt 100 "bad-witness-nonce-size")
    end.

(** ** Checks in the context of the block index *)

Definition MAX_FUTURE_BLOCK_TIME : Z := 2 * 60 * 60.

(** [Checkpoints::GetLastCheckpoint]: the checkpoints in the order of their heights. *)
Definition GetLastCheckpoint (mapCheckpoints : list (Z * uint256)) (t : BlockTree) : option Ptr :=
  head (omap (fun i => mapBlockIndex t !! snd i) (rev mapCheckpoints)).

Section Context.
Context (params : Params) (fCheckpointsEnabled : bool) (mapCheckpoints : list (Z * uint256)).

Definition ContextualCheckBlockHeader (t : BlockTree) (block : CBlockHeader) (pindexPrev : option Ptr) (nAdjustedTime : Z)
    : result (verdict unit) :=
  match pindexPrev with
  | None => Throw (assert_failed "pindexPrev != nullptr")
  | Some prev =>
      let h := bt_heap t in
      let height := i32 (Chain.nHeight (at_ h prev) + 1) in
      work ← GetNextWorkRequired h (Some prev) (GetBlockTime block) params;
      Ok (and_then (reject_if (negb (bh_nBits block =? work)) 100 "bad-diffbits") (fun _ =>
          and_then (match (if fCheckpointsEnabled then GetLastCheckpoint mapCheckpoints t else None) with
                    | Some c => reject_if (height <? Chain.nHeight (at_ h c)) 100 "bad-fork-prior-to-checkpoint"
                    | None => Valid tt
                    end) (fun _ =>
          and_then (reject_if (GetBlockTime block <=? GetMedianTimePast h prev) 0 "time-too-old") (fun _ =>
          and_then (reject_if (i64 (nAdjustedTime + MAX_FUTURE_BLOCK_TIME) <? GetBlockTime block) 0 "time-too-new") (fun _ =>
          reject_if (((bh_nVersion block <? 2) && (BIP34Height params <=? height)) ||
                     ((bh_nVersion block <? 3) && (BIP66Height params <=? height)) ||
                     ((bh_nVersion block <? 4) && (BIP65Height params <=? height))) 0 "bad-version")))))
  end.

(** [GetBlockWeight] of consensus/validation.h. *)
Context (GetBlockWeight : CBlock -> Z).

Definition ContextualCheckBlock (h : Heap) (block : CBlock) (pindexPrev : option Ptr) (caches : VersionBitsCache)
    : result (verdict unit * VersionBitsCache) :=
  let height := match pindexPrev with None => 0 | Some prev => i32 (Chain.nHeight (at_ h prev) + 1) end in
  '(csv, caches) ← deployment_state h params pindexPrev DEPLOYMENT_CSV caches;
  cutoff ← (if bool_decide (csv = THRESHOLD_ACTIVE)
            then match pindexPrev with Some prev => Ok (GetMedianTimePast h prev) | None => Throw null_deref end
            else Ok (GetBlockTime (header block)));
  if negb (forallb (fun tx => IsFinalTx tx height cutoff) (vtx block)) then Ok (DoS 10 "bad-txns-nonfinal", caches)
  else
    good ← (if BIP34Height params <=? height then
              tx ← first_tx block; i ← at_index (vin tx) 0;
              Ok (starts_with (push_int64 height []) (scriptSig i))
            else Ok true);
    if negb good then Ok (DoS 100 "bad-cb-height", caches)
    else
      '(segwit, caches) ← deployment_state h params pindexPrev DEPLOYMENT_SEGWIT caches;
      have ← (if bool_decide (segwit = THRESHOLD_ACTIVE) then check_commitment block else Ok (Valid false));
      Ok (and_then have (fun fHaveWitness : bool =>
          and_then (if negb fHaveWitness && existsb HasWitness (vtx block) then DoS_corrupt 100 "unexpected-witness" else Valid tt) (fun _ =>
          reject_if (MAX_BLOCK_WEIGHT <? GetBlockWeight block) 100 "bad-blk-weight")), caches).

(** ** Accepting headers *)

(** [pindex->nStatus = status]. *)
Definition set_status (h : Heap) (p : Ptr) (status : Z) : Heap :=
  alter (with_status status) p h.

(** [while (invalid_walk != failedit)]: at most the height of the block in steps. *)
Fixpoint mark_children (fuel : nat) (h : Heap) (invalid_walk failedit : Ptr) : result Heap :=
  if bool_decide (invalid_walk = failedit) then Ok h
  else
    match fuel, pprev (at_ h invalid_walk) with
    | S fuel, Some prev => mark_children fuel (set_status h invalid_walk (Z.lor (nStatus (at_ h invalid_walk)) BLOCK_FAILED_CHILD)) prev failedit
    | _, _ => Throw null_deref
    end.

(** The loop over [g_failed_blocks]: the heap with the descendants of a failed
    block marked, when [pindexPrev] is one of them. *)
Fixpoint failed_loop (h : Heap) (pindexPrev : Ptr) (failed : list Ptr) : result (option Heap) :=
  match failed with
  | [] => Ok None
  | failedit :: failed =>
      a ← GetAncestor h pindexPrev (Chain.nHeight (at_ h failedit));
      if bool_decide (a = Some failedit) then
        assert_then (negb (Z.land (nStatus (at_ h failedit)) BLOCK_FAILED_VALID =? 0)) "failedit->nStatus & BLOCK_FAILED_VALID"
          (h' ← mark_children (S (Z.to_nat (Chain.nHeight (at_ h pindexPrev)))) h pindexPrev failedit; mret (Some h'))
      else failed_loop h pindexPrev failed
  end.

(** The entry of the header, and the index. The set of entries to write to disk
    and the optional consistency check are left out. *)
Definition AcceptBlockHeader (g_failed_blocks : list Ptr) (block : CBlockHeader) (nAdjustedTime : Z) (t : BlockTree)
    : result (verdict Ptr * BlockTree) :=
  let hash := CBlockHeader_GetHash block in
  let add := '(p, t) ← AddToBlockIndex block t; Ok (Valid p, t) in
  if bool_decide (hash = hashGenesisBlock params) then add
  else
    match mapBlockIndex t !! hash with
    | Some p => if negb (Z.land (nStatus (at_ (bt_heap t) p)) BLOCK_FAILED_MASK =? 0) then Ok (DoS 0 "duplicate", t) else Ok (Valid p, t)
    | None =>
        match CheckBlockHeader block params true with
        | Invalid r => Ok (Invalid r, t)
        | Valid _ =>
            match mapBlockIndex t !! hashPrevBlock block with
            | None => Ok (DoS 10 "prev-blk-not-found", t)
            | Some prev =>
                if negb (Z.land (nStatus (at_ (bt_heap t) prev)) BLOCK_FAILED_MASK =? 0) then Ok (DoS 100 "bad-prevblk", t)
                else
                  v ← ContextualCheckBlockHeader t block (Some prev) nAdjustedTime;
                  match v with
                  | Invalid r => Ok (Invalid r, t)
                  | Valid _ =>
                      valid ← IsValid (at_ (bt_heap t) prev) BLOCK_VALID_SCRIPTS;
                      marked ← (if negb valid then failed_loop (bt_heap t) prev g_failed_blocks else Ok None);
                      match marked with
                      | Some h' => Ok (DoS 100 "bad-prevblk", mkBlockTree h' (mapBlockIndex t) (pindexBestHeader t))
                      | None => add
                      end
                  end
            end
        end
    end.

(** A batch of headers, each with the adjusted time when it is looked at: the
    entry of the last one; the first that is rejected ends the batch. *)
Fixpoint ProcessNewBlockHeaders (g_failed_blocks : list Ptr) (headers : list (CBlockHeader * Z)) (ppindex : option Ptr)
    (t : BlockTree) : result (verdict (option Ptr) * BlockTree) :=
  match headers with
  | [] => Ok (Valid ppindex, t)
  | (block, nAdjustedTime) :: headers =>
      '(v, t) ← AcceptBlockHeader g_failed_blocks block nAdjustedTime t;
      match v with
      | Invalid r => Ok (Invalid r, t)
      | Valid p => ProcessNewBlockHeaders g_failed_blocks headers (Some p) t
      end
  end.

(** Batch after batch. *)
Fixpoint process_batches (g_failed_blocks : list Ptr) (batches : list (list (CBlockHeader * Z))) (t : BlockTree) : result BlockTree :=
  match batches with
  | [] => Ok t
  | headers :: batches =>
      '(_, t) ← ProcessNewBlockHeaders g_failed_blocks headers None t;
      process_batches g_failed_blocks batches t
  end.
End Context.

(** * Lemmas *)

(** ** Changing a status *)

(** What never changes in an entry. *)
Definition link_data (e : CBlockIndex) :=
  (phashBlock e, pprev e, pskip e, Chain.nHeight e, nChainWork e, bi_nTime e, bi_nBits e, nTimeMax e, bi_nVersion e).

(** The two heaps have the same entries up to their status and what was received. *)
Definition same_links (h h' : Heap) : Prop := forall p, link_data <$> h !! p = link_data <$> h' !! p.

Lemma same_links_at h h' p : same_links h h' ->
  (is_Some (h !! p) <-> is_Some (h' !! p)) /\ phashBlock (at_ h' p) = phashBlock (at_ h p) /\ pprev (at_ h' p) = pprev (at_ h p) /\
  pskip (at_ h' p) = pskip (at_ h p) /\ Chain.nHeight (at_ h' p) = Chain.nHeight (at_ h p) /\
  nChainWork (at_ h' p) = nChainWork (at_ h p) /\ bi_nTime (at_ h' p) = bi_nTime (at_ h p) /\ bi_nBits (at_ h' p) = bi_nBits (at_ h p) /\
  nTimeMax (at_ h' p) = nTimeMax (at_ h p).
Proof.
  intros H. specialize (H p). unfold at_. destruct (h !! p) as [e|], (h' !! p) as [e'|]; try discriminate H; cbn in *.
  - injection H as -> -> -> -> -> -> -> -> _. split_and!; try done.
  - split_and!; try done.
Qed.

Lemma same_links_refl h : same_links h h.
Proof. by intros p. Qed.

Lemma same_links_trans h1 h2 h3 : same_links h1 h2 -> same_links h2 h3 -> same_links h1 h3.
Proof. intros H1 H2 p. by rewrite (H1 p). Qed.

Lemma set_status_links h p status : same_links h (set_status h p status).
Proof.
  intros q. unfold set_status. destruct (decide (p = q)) as [->|Hne].
  - rewrite lookup_alter_eq. by destruct (h !! q).
  - by rewrite lookup_alter_ne.
Qed.

Lemma same_links_back h h' n : same_links h h' -> forall p, back h' n p = back h n p.
Proof.
  intros H. induction n as [|n IH]; intros p; [done|]. cbn [back]. destruct (same_links_at h h' p H) as (_ & _ & -> & _).
  destruct (pprev (at_ h p)); [apply IH|done].
Qed.

Lemma same_links_median_times h h' n : same_links h h' -> forall p, median_times h' n p = median_times h n p.
Proof.
  intros H. induction n as [|n IH]; intros p; [by destruct p|]. destruct p as [p|]; [|done]. cbn [median_times].
  destruct (same_links_at h h' p H) as (_ & _ & -> & _ & _ & _ & -> & _). by rewrite IH.
Qed.

Lemma same_links_median h h' p : same_links h h' -> GetMedianTimePast h' p = GetMedianTimePast h p.
Proof. intros H. unfold GetMedianTimePast. by rewrite (same_links_median_times h h'). Qed.

Lemma same_links_heap_ok h h' : same_links h h' -> heap_ok h -> heap_ok h'.
Proof.
  intros H Hh p e He. assert (Hs : is_Some (h !! p)) by (apply (same_links_at h h' p H); by eexists).
  destruct (same_links_at h h' p H) as (_ & _ & Hp & Hsk & Hht & _). destruct (at_ok h Hh p Hs) as [H1 H2 H3].
  assert (He' : at_ h' p = e) by (unfold at_; by rewrite He). rewrite He' in *. split.
  - by rewrite Hht.
  - rewrite Hp, Hht. destruct (pprev (at_ h p)) as [q|]; [|done]. destruct (same_links_at h h' q H) as (Hq & _ & _ & _ & -> & _).
    by rewrite <- Hq.
  - intros q Hq. rewrite Hsk in Hq. rewrite (same_links_back h h' _ H), Hht. by apply H3.
Qed.

Lemma same_links_tree t h' : same_links (bt_heap t) h' -> tree_ok t -> tree_ok (mkBlockTree h' (mapBlockIndex t) (pindexBestHeader t)).
Proof.
  intros H [H1 H2 H3 H4 H5 H6 H7]. pose proof (fun p => same_links_at _ _ p H) as Hat. split; cbn [bt_heap mapBlockIndex pindexBestHeader].
  - by eapply same_links_heap_ok.
  - intros hash p Hp. destruct (Hat p) as (<- & -> & _). by apply H2.
  - intros p. destruct (Hat p) as (<- & -> & _). apply H3.
  - intros p. destruct (Hat p) as (<- & _ & -> & _ & _ & _ & -> & _ & ->). intros Hp. destruct (H4 p Hp) as [Ha Hb]. split; [done|].
    intros q Hq. destruct (Hat q) as (_ & _ & _ & _ & _ & _ & _ & _ & ->). by apply Hb.
  - intros p. destruct (Hat p) as (<- & _ & -> & _ & _ & -> & _ & -> & _). intros Hp. rewrite (proj2 (H5 p Hp)). split; [apply H5, Hp|].
    destruct (pprev (at_ (bt_heap t) p)) as [q|]; [|done]. by destruct (Hat q) as (_ & _ & _ & _ & _ & -> & _).
  - intros b Hb. destruct (Hat b) as (<- & _ & _ & _ & _ & -> & _). destruct (H6 b Hb) as [Ha Hc]. split; [done|].
    intros p. destruct (Hat p) as (<- & _ & _ & _ & _ & -> & _). apply Hc.
  - intros Hb. specialize (H7 Hb). apply map_empty. intros p. specialize (H p). rewrite H7, lookup_empty in H.
    by destruct (h' !! p).
Qed.

(** ** Marking the descendants of a failed block *)

Definition failed_flag (h : Heap) (p : Ptr) : Prop := is_Some (h !! p) /\ Z.land (nStatus (at_ h p)) BLOCK_FAILED_VALID <> 0.

Lemma set_status_at h p status q : is_Some (h !! p) -> nStatus (at_ (set_status h p status) q) = if bool_decide (p = q) then status else nStatus (at_ h q).
Proof.
  intros [e He]. unfold set_status, at_. case_bool_decide as Hpq.
  - subst q. by rewrite lookup_alter_eq, He.
  - by rewrite lookup_alter_ne.
Qed.

Lemma failed_flag_kept h p q : is_Some (h !! p) -> failed_flag h q ->
  failed_flag (set_status h p (Z.lor (nStatus (at_ h p)) BLOCK_FAILED_CHILD)) q.
Proof.
  intros Hp [Hq Hf]. split; [by apply (same_links_at _ _ q (set_status_links h p _))|].
  rewrite set_status_at by done. case_bool_decide as Hpq; [subst q|done].
  unfold BLOCK_FAILED_CHILD, BLOCK_FAILED_VALID in *. rewrite Z.land_lor_distr_l. change (Z.land 64 32) with 0. by rewrite Z.lor_0_r.
Qed.

Lemma mark_children_ok n : forall h fuel walk failedit, heap_ok h -> is_Some (h !! walk) -> (n < fuel)%nat -> back h n walk = Some failedit ->
  exists h', mark_children fuel h walk failedit = Ok h' /\ same_links h h' /\ forall q, failed_flag h q -> failed_flag h' q.
Proof.
  induction n as [|n IH]; intros h fuel walk failedit Hh Hw Hf Hb.
  - injection Hb as <-. exists h. split; [|split; [apply same_links_refl|done]]. destruct fuel; cbn; by rewrite bool_decide_eq_true_2.
  - destruct fuel as [|fuel]; [lia|]. cbn [mark_children]. case_bool_decide as He.
    { exists h. split; [done|split; [apply same_links_refl|done]]. }
    cbn [back] in Hb. destruct (at_ok h Hh walk Hw) as [_ Hprev _]. destruct (pprev (at_ h walk)) as [q|] eqn:Eq; [|done]. cbn in Hb.
    set (h1 := set_status h walk _). assert (Hl : same_links h h1) by apply set_status_links.
    destruct (IH h1 fuel q failedit) as (h' & -> & Hl' & Hk).
    + by eapply same_links_heap_ok.
    + apply (same_links_at h h1 q Hl), Hprev.
    + lia.
    + by rewrite (same_links_back h h1).
    + exists h'. split; [done|]. split; [by eapply same_links_trans|]. intros r Hr. by apply Hk, failed_flag_kept.
Qed.

Lemma failed_loop_ok h prev failed : heap_ok h -> is_Some (h !! prev) -> Forall (failed_flag h) failed ->
  exists r, failed_loop h prev failed = Ok r /\
    forall h', r = Some h' -> same_links h h' /\ forall q, failed_flag h q -> failed_flag h' q.
Proof.
  intros Hh Hp Hf. induction Hf as [|f failed [Hs Hfl] _ IH]; cbn [failed_loop]; [by eexists|].
  rewrite GetAncestor_ok by done. cbn [mbind result_bind]. case_bool_decide as Ha; [|done].
  apply Z.eqb_neq in Hfl. rewrite Hfl. cbn [negb assert_then]. destruct (_ && _) eqn:E; [|done].
  apply andb_true_iff in E as [E1%Z.leb_le E2%Z.leb_le].
  edestruct (mark_children_ok (Z.to_nat (Chain.nHeight (at_ h prev) - Chain.nHeight (at_ h f))) h (S (Z.to_nat (Chain.nHeight (at_ h prev)))) prev f Hh Hp) as (h' & -> & Hl & Hk); [|exact Ha|]; [lia|].
  eexists. split; [done|]. by intros ? [= <-].
Qed.

(** ** The invariant of the header tree *)

(** The target the chain rules ask of a block on top of [q]: unchanged within an
    interval, and rescaled by the time the last interval took at its end. *)
Definition difficulty_rule (h : Heap) (params : Params) (q : Ptr) (c : Z) : Prop :=
  let I := DifficultyAdjustmentInterval params in
  ((Chain.nHeight (at_ h q) + 1) mod I <> 0 -> fPowAllowMinDifficultyBlocks params = false -> c = bi_nBits (at_ h q)) /\
  ((Chain.nHeight (at_ h q) + 1) mod I = 0 -> fPowNoRetargeting params = false ->
     exists r, back h (Z.to_nat (I - 1)) q = Some r /\
       c = compact_enc (next_target params (compact_value (bi_nBits (at_ h q))) (i64 (bi_nTime (at_ h q)) - i64 (bi_nTime (at_ h r))))).

(** What a header on top of [q] has to satisfy to be in the tree: proof of work
    for a valid target, the target the rules ask for, and a time after the median
    of the eleven blocks before. *)
Definition header_rules (h : Heap) (params : Params) (e : CBlockIndex) (q : Ptr) : Prop :=
  target_valid params (bi_nBits e) /\ le_value (phashBlock e) <= compact_value (bi_nBits e) /\
  difficulty_rule h params q (bi_nBits e) /\ GetMedianTimePast h q < i64 (bi_nTime e).

Record headers_inv (params : Params) (t : BlockTree) : Prop := {
  hi_tree : tree_ok t;
  hi_u32 : times_ok (bt_heap t);
  hi_bits : forall p, is_Some (bt_heap t !! p) -> is_u32 (bi_nBits (at_ (bt_heap t) p)) /\
    no_wrap params (compact_value (bi_nBits (at_ (bt_heap t) p)));
  hi_rules : forall p q, is_Some (bt_heap t !! p) -> pprev (at_ (bt_heap t) p) = Some q ->
    header_rules (bt_heap t) params (at_ (bt_heap t) p) q;
}.

Lemma headers_inv_times params t : headers_inv params t -> times_monotone (bt_heap t).
Proof. intros H p q Hp Hq. apply median_time_monotone; [done|]. by apply (hi_rules _ _ H p q Hp Hq). Qed.

Lemma same_links_rules h h' params p q : same_links h h' ->
  header_rules h params (at_ h p) q -> header_rules h' params (at_ h' p) q.
Proof.
  intros H (Hv & Hw & [Hd1 Hd2] & Ht). destruct (same_links_at _ _ p H) as (_ & E1 & _ & _ & _ & _ & E2 & E3 & _).
  destruct (same_links_at _ _ q H) as (_ & _ & _ & _ & E4 & _ & E5 & E6 & _).
  unfold header_rules, difficulty_rule. rewrite E1, E2, E3, E4, E5, E6, (same_links_median h h' q H), (same_links_back h h' _ H).
  split_and!; [done..| |done]. intros Hm Hn. destruct (Hd2 Hm Hn) as (r & Hr & He). exists r. split; [done|].
  by destruct (same_links_at _ _ r H) as (_ & _ & _ & _ & _ & _ & -> & _).
Qed.

Lemma headers_inv_links params t h' : same_links (bt_heap t) h' -> headers_inv params t ->
  headers_inv params (mkBlockTree h' (mapBlockIndex t) (pindexBestHeader t)).
Proof.
  intros H [H1 H2 H3 H4]. pose proof (fun p => same_links_at _ _ p H) as Hat. split; cbn [bt_heap].
  - by apply same_links_tree.
  - intros p. destruct (Hat p) as (_ & _ & _ & _ & _ & _ & -> & _). apply H2.
  - intros p. destruct (Hat p) as (<- & _ & _ & _ & _ & _ & _ & -> & _). apply H3.
  - intros p q. destruct (Hat p) as (<- & _ & -> & _). intros Hp Hq. apply (same_links_rules _ _ _ _ _ H), H4; done.
Qed.

(** The rules of a header look at its ancestors only. *)
Lemma header_rules_insert h params p e x q : heap_ok h -> h !! p = None -> is_Some (h !! q) ->
  header_rules h params x q -> header_rules (<[p := e]> h) params x q.
Proof.
  intros Hh Hp Hq (Hv & Hw & [Hd1 Hd2] & Ht). assert (Hne : forall r, is_Some (h !! r) -> p <> r) by (intros r [? ?] ->; congruence).
  unfold header_rules, difficulty_rule. rewrite median_insert, back_insert, (at_insert_ne h p e q) by auto.
  split_and!; [done..| |done]. intros Hm Hn. destruct (Hd2 Hm Hn) as (r & Hr & He). exists r. split; [done|].
  rewrite at_insert_ne; [done|]. by apply Hne, (back_height h Hh _ _ _ Hq Hr).
Qed.

(** A new entry that follows the rules keeps the invariant. *)
Lemma headers_inv_insert params t t' p e :
  headers_inv params t -> tree_ok t' -> bt_heap t !! p = None -> bt_heap t' = <[p := e]> (bt_heap t) ->
  is_u32 (bi_nTime e) -> is_u32 (bi_nBits e) -> no_wrap params (compact_value (bi_nBits e)) ->
  (forall q, pprev e = Some q -> is_Some (bt_heap t !! q) /\ header_rules (bt_heap t) params e q) ->
  headers_inv params t'.
Proof.
  intros [H1 H2 H3 H4] Ht Hp Hh Hu Hb Hc Hq. pose proof (tree_heap t H1) as Hok. split; [done| | |].
  - intros a. rewrite Hh. destruct (decide (p = a)) as [<-|Hpa]; [by rewrite at_insert_eq|rewrite at_insert_ne by done; apply H2].
  - intros a. rewrite Hh. destruct (decide (p = a)) as [<-|Hpa]; [by rewrite at_insert_eq|].
    rewrite lookup_insert_ne, at_insert_ne by done. apply H3.
  - intros a b. rewrite Hh. destruct (decide (p = a)) as [<-|Hpa].
    + rewrite at_insert_eq. intros _ Hab. destruct (Hq b Hab). by apply header_rules_insert.
    + rewrite lookup_insert_ne, at_insert_ne by done. intros Ha Hab. apply header_rules_insert; [done..| |by apply H4].
      destruct (at_ok _ Hok a Ha) as [_ Hprev _]. rewrite Hab in Hprev. apply Hprev.
Qed.

(** ** Accepting a header *)

Record accepted (params : Params) (failed : list Ptr) (n : Z) (t : BlockTree) : Prop := {
  acc_inv : headers_inv params t;
  acc_failed : Forall (failed_flag (bt_heap t)) failed;
  acc_heights : heights_below t n;
  acc_genesis : is_Some (mapBlockIndex t !! hashGenesisBlock params);
}.

Lemma accepted_weaken params failed n m t : n <= m -> accepted params failed n t -> accepted params failed m t.
Proof. intros Hnm [H1 H2 H3 H4]. split; [done..| |done]. intros p Hp. specialize (H3 p Hp). lia. Qed.

Lemma accepted_marked params failed n t h' : same_links (bt_heap t) h' -> (forall q, failed_flag (bt_heap t) q -> failed_flag h' q) ->
  accepted params failed n t -> accepted params failed n (mkBlockTree h' (mapBlockIndex t) (pindexBestHeader t)).
Proof.
  intros H Hf [H1 H2 H3 H4]. split; cbn [bt_heap mapBlockIndex]; [by apply headers_inv_links|by eapply Forall_impl| |done].
  intros p. cbn [bt_heap]. destruct (same_links_at _ _ p H) as (<- & _ & _ & _ & -> & _). apply H3.
Qed.

Lemma failed_flag_insert h p e q : h !! p = None -> failed_flag h q -> failed_flag (<[p := e]> h) q.
Proof.
  intros Hp [Hq Hf]. assert (p <> q) by (intros ->; destruct Hq; congruence). split; [by rewrite lookup_insert_ne|by rewrite at_insert_ne].
Qed.

(** A header the checks let through is added to the tree. *)
Lemma accepted_add params failed n t block prev :
  params_ok params -> no_wrap params (le_value (powLimit params)) ->
  accepted params failed n t -> 0 <= n < 2 ^ 31 -> is_u32 (bh_nBits block) -> is_u32 (bh_nTime block) ->
  mapBlockIndex t !! CBlockHeader_GetHash block = None -> mapBlockIndex t !! hashPrevBlock block = Some prev ->
  target_valid params (bh_nBits block) -> le_value (CBlockHeader_GetHash block) <= compact_value (bh_nBits block) ->
  difficulty_rule (bt_heap t) params prev (bh_nBits block) -> GetMedianTimePast (bt_heap t) prev < i64 (bh_nTime block) ->
  exists p t', AddToBlockIndex block t = Ok (p, t') /\ accepted params failed (n + 1) t' /\
    mapBlockIndex t' !! CBlockHeader_GetHash block = Some p.
Proof.
  intros Hpar Hlim [H1 H2 H3 H4] Hn Hb Htm Hno Hprev Hv Hw Hd Hmtp. pose proof (hi_tree _ _ H1) as Ht.
  assert (Hne : CBlockHeader_GetHash block <> hashPrevBlock block) by (intros E; rewrite E in Hno; congruence).
  destruct (AddToBlockIndex_ok block t n Ht Hb Hne H3 Hn) as (p & t' & Ha & Ht' & Hlow & Hm & _).
  destruct (AddToBlockIndex_new block t p t' Hno Hne Ha) as (Hp & Hmap & e & Hh & Epp & Eph & Etm & Ebits & _).
  exists p, t'. split; [exact Ha|]. split; [|exact Hm]. split; [|  |exact Hlow|].
  - apply (headers_inv_insert params t t' p e H1 Ht' Hp Hh); rewrite ?Etm, ?Ebits; [done..| |].
    + destruct Hv as [_ [_ Hv]]. by apply (no_wrap_le params _ _ Hpar Hv).
    + intros q Hq. rewrite Epp, Hprev in Hq. injection Hq as <-. split; [by apply (tree_map t Ht _ _ Hprev)|].
      unfold header_rules. rewrite Eph, Etm, Ebits. split_and!; assumption.
  - rewrite Hh. eapply Forall_impl; [|exact H2]. intros q. by apply failed_flag_insert.
  - rewrite Hmap. destruct (decide (CBlockHeader_GetHash block = hashGenesisBlock params)) as [->|Hg];
      [rewrite lookup_insert_eq; by eexists|by rewrite lookup_insert_ne].
Qed.

Section Accept.
Context (params : Params) (Hpar : params_ok params) (Hlim : no_wrap params (le_value (powLimit params))).
Context (fCheckpointsEnabled : bool) (mapCheckpoints : list (Z * uint256)).

Lemma ContextualCheckBlockHeader_ok t block prev time :
  headers_inv params t -> is_Some (bt_heap t !! prev) ->
  exists v, ContextualCheckBlockHeader params fCheckpointsEnabled mapCheckpoints t block (Some prev) time = Ok v /\
    (v = Valid tt -> difficulty_rule (bt_heap t) params prev (bh_nBits block) /\ GetMedianTimePast (bt_heap t) prev < i64 (bh_nTime block)).
Proof.
  intros Hi Hp. destruct (hi_bits _ _ Hi prev Hp) as [Hb Hc]. unfold ContextualCheckBlockHeader.
  destruct (GetNextWorkRequired_spec (bt_heap t) prev (GetBlockTime block) params (tree_heap _ (hi_tree _ _ Hi)) Hp Hb Hpar Hc)
    as (c & -> & Hd1 & Hd2 & _). pose proof (conj Hd1 Hd2) as Hd. cbn [mbind result_bind]. eexists. split; [done|].
  destruct (bh_nBits block =? c) eqn:E; [apply Z.eqb_eq in E; subst c|done]. cbn [negb reject_if and_then].
  destruct (match _ with Some _ => _ | None => _ end); [|done]. cbn [and_then].
  destruct (GetBlockTime block <=? _) eqn:Et; [done|]. apply Z.leb_gt in Et. intros _. split; [exact Hd|exact Et].
Qed.

Lemma CheckBlockHeader_pow block : is_u32 (bh_nBits block) -> CheckBlockHeader block params true = Valid tt ->
  target_valid params (bh_nBits block) /\ le_value (CBlockHeader_GetHash block) <= compact_value (bh_nBits block).
Proof.
  intros Hb. unfold CheckBlockHeader, reject_if. cbn [andb]. destruct (CheckProofOfWork _ _ _) eqn:E; [|done]. intros _.
  apply CheckProofOfWork_ok in E; [done|apply (params_limit _ Hpar)|apply Hash_uint256|done].
Qed.

(** What accepting a header does to the index: nothing, or it marks blocks below
    which one has failed, or it adds an entry on top of one that has not failed. *)
Lemma AcceptBlockHeader_cases failed n t block time :
  accepted params failed n t -> 0 <= n < 2 ^ 31 -> is_u32 (bh_nBits block) -> is_u32 (bh_nTime block) ->
  exists v t', AcceptBlockHeader params fCheckpointsEnabled mapCheckpoints failed block time t = Ok (v, t') /\
    ((t' = t /\ forall p, v = Valid p -> mapBlockIndex t !! CBlockHeader_GetHash block = Some p /\
        (CBlockHeader_GetHash block <> hashGenesisBlock params -> Z.land (nStatus (at_ (bt_heap t) p)) BLOCK_FAILED_MASK = 0)) \/
     (exists r prev h', v = Invalid r /\ t' = mkBlockTree h' (mapBlockIndex t) (pindexBestHeader t) /\ is_Some (bt_heap t !! prev) /\
        failed_loop (bt_heap t) prev failed = Ok (Some h')) \/
     (exists p prev, v = Valid p /\ AddToBlockIndex block t = Ok (p, t') /\ accepted params failed (n + 1) t' /\
        mapBlockIndex t' !! CBlockHeader_GetHash block = Some p /\ mapBlockIndex t !! CBlockHeader_GetHash block = None /\
        mapBlockIndex t !! hashPrevBlock block = Some prev /\ target_valid params (bh_nBits block))).
Proof.
  intros Ha Hn Hb Htm. pose proof (hi_tree _ _ (acc_inv _ _ _ _ Ha)) as Ht.
  unfold AcceptBlockHeader. case_bool_decide as Hg.
  { destruct (acc_genesis _ _ _ _ Ha) as [p Hp]. rewrite <- Hg in Hp. unfold AddToBlockIndex. rewrite Hp. cbn.
    exists (Valid p), t. split; [done|]. left. split; [done|]. by intros ? [= <-]. }
  destruct (mapBlockIndex t !! CBlockHeader_GetHash block) as [p|] eqn:Em.
  { destruct (Z.eqb_spec (Z.land (nStatus (at_ (bt_heap t) p)) BLOCK_FAILED_MASK) 0) as [E|E]; eexists _, t; (split; [done|]); left; (split; [done|]); [|done].
    by intros ? [= <-]. }
  destruct (CheckBlockHeader block params true) as [[]|r] eqn:Ec; [|eexists _, t; split; [done|by left]].
  apply CheckBlockHeader_pow in Ec as [Hv Hw]; [|done].
  destruct (mapBlockIndex t !! hashPrevBlock block) as [prev|] eqn:Eprev; [|eexists _, t; split; [done|by left]].
  destruct (negb _); [eexists _, t; split; [done|by left]|]. destruct (tree_map t Ht _ _ Eprev) as [Hp _].
  destruct (ContextualCheckBlockHeader_ok t block prev time (acc_inv _ _ _ _ Ha) Hp) as (v & -> & Hctx). cbn [mbind result_bind].
  destruct v as [[]|r]; [|eexists _, t; split; [done|by left]]. destruct (Hctx eq_refl) as [Hd Hm].
  destruct (IsValid_scripts (at_ (bt_heap t) prev)) as (valid & ->). cbn [mbind result_bind].
  destruct (failed_loop_ok (bt_heap t) prev failed (tree_heap t Ht) Hp (acc_failed _ _ _ _ Ha)) as (r & Er & _).
  assert (exists r', (if negb valid then failed_loop (bt_heap t) prev failed else Ok None) = Ok r' /\ (r' = r \/ r' = None)) as (r' & -> & Hr').
  { destruct (negb valid); [exists r; auto|exists None; auto]. }
  cbn [mbind result_bind]. destruct r' as [h'|].
  - destruct Hr' as [<-|?]; [|done]. eexists _, _. split; [done|]. right. left. by exists (mkReject 100 "bad-prevblk" false false), prev, h'.
  - destruct (accepted_add params failed n t block prev Hpar Hlim Ha Hn Hb Htm Em Eprev Hv Hw Hd Hm) as (p & t' & Hadd & Hacc & Hin). rewrite Hadd. cbn.
    eexists _, _. split; [done|]. right. right. by exists p, prev.
Qed.

Lemma AcceptBlockHeader_ok failed n t block time :
  accepted params failed n t -> 0 <= n < 2 ^ 31 -> is_u32 (bh_nBits block) -> is_u32 (bh_nTime block) ->
  exists v t', AcceptBlockHeader params fCheckpointsEnabled mapCheckpoints failed block time t = Ok (v, t') /\
    accepted params failed (n + 1) t' /\ forall p, v = Valid p -> mapBlockIndex t' !! CBlockHeader_GetHash block = Some p.
Proof.
  intros Ha Hn Hb Htm. pose proof (accepted_weaken params failed n (n + 1) t ltac:(lia) Ha) as Hk.
  destruct (AcceptBlockHeader_cases failed n t block time Ha Hn Hb Htm) as (v & t' & E & [[-> Hv]|[(r & prev & h' & -> & -> & Hp & Hf)|(p & prev & -> & _ & Hacc & Hm & _)]]);
    exists v || eexists _; eexists _; (split; [exact E|]).
  - split; [exact Hk|]. intros p Hp. by apply Hv.
  - destruct (failed_loop_ok (bt_heap t) prev failed (tree_heap t (hi_tree _ _ (acc_inv _ _ _ _ Ha))) Hp (acc_failed _ _ _ _ Ha)) as (x & Ex & Hx).
    rewrite Hf in Ex. apply (inj Ok) in Ex as <-. destruct (Hx h' eq_refl). split; [by apply accepted_marked|done].
  - split; [exact Hacc|]. by intros ? [= <-].
Qed.

Definition header_u32 (b : CBlockHeader * Z) : Prop := is_u32 (bh_nBits (fst b)) /\ is_u32 (bh_nTime (fst b)).

Lemma ProcessNewBlockHeaders_ok failed headers : forall n t last,
  accepted params failed n t -> 0 <= n -> n + zlen headers <= 2 ^ 31 -> Forall header_u32 headers ->
  exists v t', ProcessNewBlockHeaders params fCheckpointsEnabled mapCheckpoints failed headers last t = Ok (v, t') /\
    accepted params failed (n + zlen headers) t'.
Proof.
  induction headers as [|[b time] headers IH]; intros n t last Ha Hn Hlen Hall.
  - eexists _, t. split; [done|]. revert Ha. apply accepted_weaken. unfold zlen. lia.
  - apply Forall_cons_1 in Hall as [[Hb Htm] Hall]. rewrite zlen_cons in *. pose proof (zlen_nonneg headers). cbn [ProcessNewBlockHeaders].
    destruct (AcceptBlockHeader_ok failed n t b time Ha ltac:(lia) Hb Htm) as (v & t' & -> & Ha' & _). cbn [mbind result_bind].
    destruct v as [p|r].
    + destruct (IH (n + 1) t' (Some p) Ha' ltac:(lia) ltac:(lia) Hall) as (v & t'' & Hv & Ha''). exists v, t''. split; [exact Hv|].
      revert Ha''. apply accepted_weaken. lia.
    + eexists _, t'. split; [done|]. revert Ha'. apply accepted_weaken. lia.
Qed.
End Accept.

Lemma headers_inv_empty params : headers_inv params tree_empty.
Proof.
  assert (Hempty : forall q, ~ is_Some (bt_heap tree_empty !! q)) by (intros q [x Hx]; cbn in Hx; by rewrite lookup_empty in Hx).
  split; [apply tree_empty_ok| |intros q Hq; by destruct (Hempty q Hq)|intros p q Hq; by destruct (Hempty p Hq)].
  intros q. unfold at_. cbn [bt_heap tree_empty]. rewrite lookup_empty. unfold is_u32. cbn. lia.
Qed.

(** The tree that holds the genesis block only. *)
Lemma accepted_genesis params g :
  is_u32 (bh_nBits g) -> is_u32 (bh_nTime g) -> no_wrap params (compact_value (bh_nBits g)) ->
  CBlockHeader_GetHash g = hashGenesisBlock params -> CBlockHeader_GetHash g <> hashPrevBlock g ->
  exists p t, AddToBlockIndex g tree_empty = Ok (p, t) /\ accepted params [] 1 t.
Proof.
  intros Hb Htm Hc Hg Hne. assert (Hlow : heights_below tree_empty 0) by (intros p [e He]; cbn in He; by rewrite lookup_empty in He).
  destruct (AddToBlockIndex_ok g tree_empty 0 tree_empty_ok Hb Hne Hlow ltac:(lia)) as (p & t & Ha & Ht & Hl & Hm & _).
  destruct (AddToBlockIndex_new g tree_empty p t (lookup_empty _) Hne Ha) as (Hp & Hmap & e & Hh & Epp & Eph & Etm & Ebits & _).
  exists p, t. split; [exact Ha|]. split; [|by constructor|exact Hl|rewrite <- Hg, Hm; by eexists].
  rewrite <- Etm in Htm. rewrite <- Ebits in Hb, Hc.
  apply (headers_inv_insert params tree_empty t p e (headers_inv_empty params) Ht Hp Hh Htm Hb Hc).
  intros q Hq. rewrite Epp in Hq. cbn in Hq. by rewrite lookup_empty in Hq.
Qed.

(** ** Counting signature operations *)

Lemma foldl_u32 {A} (f : A -> Z) l : forall n, 0 <= n -> Forall (fun x => 0 <= f x) l -> n + zsum (map f l) < 2 ^ 32 ->
  foldl (fun n x => u32 (n + f x)) n l = n + zsum (map f l).
Proof.
  induction l as [|x l IH]; intros n Hn Hall Hlt; cbn [foldl map] in *; [unfold zsum; simpl; lia|].
  apply Forall_cons_1 in Hall as [Hx Hall]. rewrite zsum_cons in *. pose proof (zsum_nonneg (map f l)) as Hs. rewrite Forall_map in Hs. specialize (Hs Hall).
  rewrite u32_small by (unfold is_u32; lia). rewrite IH; [lia..|done|lia].
Qed.

(** The scripts of a transaction, and what they count for without the accurate count of keys. *)
Definition tx_scripts (tx : CTransaction) : list CScript := map scriptSig (vin tx) ++ map scriptPubKey (vout tx).
Definition script_bytes (tx : CTransaction) : Z := zsum (map zlen (tx_scripts tx)).
Definition legacy_sigops (tx : CTransaction) : Z := zsum (map (fun s => GetSigOpCount s false) (tx_scripts tx)).

Lemma zsum_map_le {A} (f g : A -> Z) l : Forall (fun x => f x <= g x) l -> zsum (map f l) <= zsum (map g l).
Proof. induction 1; cbn [map]; [done|]. rewrite !zsum_cons. lia. Qed.

Lemma zsum_map_mul {A} (f : A -> Z) c l : zsum (map (fun x => c * f x) l) = c * zsum (map f l).
Proof. induction l as [|x l IH]; cbn [map]; [unfold zsum; simpl; lia|]. rewrite !zsum_cons, IH. lia. Qed.

Lemma script_bytes_each tx : Forall (fun s => zlen s <= script_bytes tx) (tx_scripts tx).
Proof.
  apply Forall_forall. intros s Hs. apply zsum_elem; [apply Forall_map, Forall_forall; intros ? _; apply zlen_nonneg|].
  apply list_elem_of_In, in_map, Hs.
Qed.

Lemma legacy_sigops_bound tx : script_bytes tx < 2 ^ 27 ->
  Forall (fun s => 0 <= GetSigOpCount s false) (tx_scripts tx) /\ 0 <= legacy_sigops tx <= 20 * script_bytes tx.
Proof.
  intros Hlt. pose proof (script_bytes_each tx) as He.
  assert (Hb : Forall (fun s => 0 <= GetSigOpCount s false <= 20 * zlen s) (tx_scripts tx)).
  { eapply Forall_impl; [|exact He]. intros s Hs. cbn in Hs. destruct (GetSigOpCount_bounds s) as [? ?]; [lia|].
    unfold MAX_PUBKEYS_PER_MULTISIG in *. lia. }
  assert (Hpos : Forall (fun s => 0 <= GetSigOpCount s false) (tx_scripts tx)) by (eapply Forall_impl; [|exact Hb]; intros s Hs; cbn in Hs; lia).
  split; [done|]. unfold legacy_sigops, script_bytes. split; [by apply zsum_nonneg, Forall_map|].
  rewrite <- zsum_map_mul. apply zsum_map_le. eapply Forall_impl; [|exact Hb]. intros s Hs. cbn in Hs. lia.
Qed.

Lemma GetLegacySigOpCount_ok tx : script_bytes tx < 2 ^ 27 -> GetLegacySigOpCount tx = legacy_sigops tx.
Proof.
  intros Hlt. destruct (legacy_sigops_bound tx Hlt) as [Hpos Hle]. unfold GetLegacySigOpCount, legacy_sigops, tx_scripts in *.
  apply Forall_app in Hpos as [Hi Ho]. rewrite Forall_map in Hi, Ho. rewrite map_app, zsum_app, !map_map in *.
  pose proof (zsum_nonneg _ (proj2 (Forall_map _ _ _) Hi)) as Hni. pose proof (zsum_nonneg _ (proj2 (Forall_map _ _ _) Ho)) as Hno.
  rewrite (foldl_u32 (fun i => GetSigOpCount (scriptSig i) false)); [|lia|done|lia].
  rewrite (foldl_u32 (fun o => GetSigOpCount (scriptPubKey o) false)); [lia..|done|lia].
Qed.

Lemma BlockSigOps_ok v : zsum (map script_bytes v) < 2 ^ 25 -> BlockSigOps v = zsum (map legacy_sigops v) /\
  0 <= zsum (map legacy_sigops v) < 20 * 2 ^ 25.
Proof.
  intros Hlt. assert (Hnn : Forall (fun tx => 0 <= script_bytes tx) v).
  { apply Forall_forall. intros tx _. apply zsum_nonneg, Forall_map, Forall_forall. intros ? _. apply zlen_nonneg. }
  assert (Heach : Forall (fun tx => script_bytes tx < 2 ^ 27) v).
  { apply Forall_forall. intros tx Htx. enough (script_bytes tx <= zsum (map script_bytes v)) by lia.
    apply zsum_elem; [by apply Forall_map|]. by apply list_elem_of_In, in_map. }
  assert (Hb : Forall (fun tx => 0 <= legacy_sigops tx <= 20 * script_bytes tx) v) by (eapply Forall_impl; [|exact Heach]; intros tx Htx; by apply legacy_sigops_bound).
  assert (Hp : Forall (fun tx => 0 <= legacy_sigops tx) v) by (eapply Forall_impl; [|exact Hb]; intros tx Htx; cbn in Htx; lia).
  assert (Hle : zsum (map legacy_sigops v) <= 20 * zsum (map script_bytes v)).
  { rewrite <- zsum_map_mul. apply zsum_map_le. eapply Forall_impl; [|exact Hb]. intros tx Htx. cbn in Htx. lia. }
  pose proof (zsum_nonneg _ (proj2 (Forall_map _ _ _) Hp)) as Hs. split; [|lia].
  unfold BlockSigOps. transitivity (foldl (fun n tx => u32 (n + legacy_sigops tx)) 0 v); [|rewrite foldl_u32; [lia..|done|lia]]. clear -Heach. generalize 0.
  induction Heach as [|tx v Htx _ IH]; intros n; [done|]. cbn [foldl]. by rewrite (GetLegacySigOpCount_ok tx Htx), IH.
Qed.

(** ** The rules of a block *)

Definition one_cashbase (v : list CTransaction) : Prop :=
  exists tx rest, v = tx :: rest /\ IsCashBase tx = true /\ Forall (fun tx => IsCashBase tx = false) rest.

Lemma CheckTransactions_ok v : CheckTransactions v = Valid tt <-> Forall (fun tx => CheckTransaction tx false = Valid tt) v.
Proof.
  induction v as [|tx v IH]; cbn [CheckTransactions]; [done|]. by rewrite and_then_Valid, IH, Forall_cons_iff.
Qed.

Lemma existsb_false {A} (f : A -> bool) l : existsb f l = false <-> Forall (fun x => f x = false) l.
Proof. induction l as [|x l IH]; cbn [existsb]; [done|]. by rewrite orb_false_iff, Forall_cons_iff, IH. Qed.

Lemma CheckBlockTransactions_ok block :
  zlen (vtx block) < 2 ^ 31 -> zlen (block_bytes false block) < 2 ^ 61 -> zsum (map script_bytes (vtx block)) < 2 ^ 25 ->
  CheckBlockTransactions block = Valid tt <->
    one_cashbase (vtx block) /\ zlen (vtx block) * 4 <= MAX_BLOCK_WEIGHT /\ zlen (block_bytes false block) * 4 <= MAX_BLOCK_WEIGHT /\
    Forall (fun tx => CheckTransaction tx false = Valid tt) (vtx block) /\
    zsum (map legacy_sigops (vtx block)) * 4 <= MAX_BLOCK_SIGOPS_COST.
Proof.
  intros Hn Hsz Hs. destruct (BlockSigOps_ok _ Hs) as [Eops Hops]. unfold CheckBlockTransactions. cbv zeta.
  rewrite !reject_then, and_then_Valid, CheckTransactions_ok, reject_if_Valid, !orb_false_iff, !Z.ltb_ge, Eops, existsb_false.
  pose proof (zlen_nonneg (vtx block)). pose proof (zlen_nonneg (block_bytes false block)). unfold WITNESS_SCALE_FACTOR.
  rewrite (u64_small (zlen (vtx block) * 4)), (u64_small (zlen (block_bytes false block) * 4)), u32_small by (unfold is_u64, is_u32; lia).
  rewrite nonempty_iff. unfold one_cashbase. destruct (vtx block) as [|tx rest].
  - split; [by intros ([[] _] & _)|]. by intros ((? & ? & [=] & _) & _).
  - cbn [tail]. rewrite negb_false_iff. split.
    + intros ([[_ ?] ?] & ? & ? & ? & ?). split_and!; try done. by exists tx, rest.
    + intros ((? & ? & [= <- <-] & ? & ?) & ? & ? & ? & ?). by split_and!.
Qed.

Lemma check_Valid {A B} (v : verdict A) (k : A -> result (verdict B)) b :
  check v k = Ok (Valid b) <-> exists a, v = Valid a /\ k a = Ok (Valid b).
Proof. destruct v; cbn [check]; [|by split; [|intros (? & [=] & _)]]. split; [eauto|]. by intros (? & [= <-] & ?). Qed.

Lemma CheckMerkleRoot_ok block : zlen (vtx block) < 2 ^ 31 ->
  exists v, CheckMerkleRoot block = Ok v /\
    (v = Valid tt <-> hashMerkleRoot (header block) = merkle_root (map GetHash (vtx block)) /\ ~ duplicated (map GetHash (vtx block))).
Proof.
  intros Hn. unfold CheckMerkleRoot, BlockMerkleRoot. destruct (ComputeMerkleRoot_spec (map GetHash (vtx block))) as (m & -> & Hm).
  { unfold zlen in *. by rewrite length_map. }
  cbn [mbind result_bind]. eexists. split; [reflexivity|]. rewrite <- Hm. case_bool_decide as Hr; cbn [negb].
  - destruct m; [split; [discriminate|by intros [_ []]]|]. by split.
  - split; [discriminate|by intros [? _]].
Qed.

(** ** The witness commitment *)

Lemma commitment_loop_app v o : forall n pos,
  commitment_loop (v ++ [o]) n pos = if is_commitment (scriptPubKey o) then i32 (n + zlen v) else commitment_loop v n pos.
Proof.
  induction v as [|x v IH]; intros n pos; cbn [app commitment_loop]; [unfold zlen; cbn [length]; by rewrite Z.add_0_r|].
  rewrite IH, zlen_cons. destruct (is_commitment (scriptPubKey o)); [f_equal; lia|done].
Qed.

Lemma is_commitment_script hash : uint256_ok hash -> is_commitment (commitment_script hash) = true.
Proof.
  intros [Hl _]. unfold is_commitment, commitment_script. rewrite zlen_app, Hl. reflexivity.
Qed.

Lemma commitment_at hash v : uint256_ok hash -> zlen v < 2 ^ 31 ->
  commitment_loop (v ++ [mkCTxOut 0 (commitment_script hash)]) 0 (-1) = zlen v.
Proof.
  intros Hh Hv. rewrite commitment_loop_app. cbn [scriptPubKey]. rewrite is_commitment_script by done. rewrite Z.add_0_l.
  apply i32_small. pose proof (zlen_nonneg v). unfold is_i32. lia.
Qed.

Lemma at_index_last {A} (v : list A) x : at_index (v ++ [x]) (zlen v) = Ok x.
Proof. unfold at_index, zlen. by rewrite Nat2Z.id, list_lookup_middle. Qed.

Section Commitment.
Context (block : CBlock) (cb : CTransaction) (rest : list CTransaction) (root : uint256) (m : bool).
Context (Hv : vtx block = cb :: rest) (Hr : ComputeMerkleRoot (uint256_null :: map GetWitnessHash rest) = Ok (root, m)).
Let script : CScript := commitment_script (Hash2 root nonce).

Lemma first_tx_ok : first_tx block = Ok cb.
Proof. unfold first_tx. by rewrite Hv. Qed.

(** A cashbase that ends with the commitment and has the nonce as its witness passes. *)
Lemma check_commitment_ok v i ins : zlen v < 2 ^ 31 ->
  vin cb = i :: ins -> scriptWitness i = [nonce] -> vout cb = v ++ [mkCTxOut 0 script] -> check_commitment block = Ok (Valid true).
Proof.
  intros Hn Hi Hw Ho. pose proof (zlen_nonneg v). pose proof (Hash2_ok root nonce) as Hh. unfold check_commitment, GetWitnessCommitmentIndex, BlockWitnessMerkleRoot.
  rewrite Hv, Ho, (commitment_at (Hash2 root nonce)) by done. destruct (Z.eqb_spec (zlen v) (-1)); [lia|]. rewrite Hr, first_tx_ok. cbn [mbind result_bind].
  rewrite Hi. change (at_index (i :: ins) 0) with (Ok i). cbn [mbind result_bind]. rewrite Hw, Ho, at_index_last. cbn [mbind result_bind scriptPubKey].
  change (negb (zlen nonce =? 32)) with false. cbn iota. unfold script, commitment_script. change (drop 6 ([OP_RETURN; 0x24; 0xaa; 0x21; 0xa9; 0xed] ++ Hash2 root nonce)) with (Hash2 root nonce).
  rewrite take_ge by (destruct Hh as [Hl _]; unfold zlen in Hl; lia). by rewrite bool_decide_eq_true_2.
Qed.

Lemma set_nonce_ok i ins : vin cb = i :: ins ->
  set_nonce cb = Ok (mkCTransaction (nVersion cb) (mkCTxIn (prevout i) (scriptSig i) (nSequence i) [nonce] :: ins) (vout cb) (nLockTime cb)).
Proof. unfold set_nonce. by intros ->. Qed.

Lemma UpdateUncommitted_ok h params prev caches caches' v i ins : zlen v < 2 ^ 31 ->
  vin cb = i :: ins -> HasWitness cb = false -> vout cb = v ++ [mkCTxOut 0 script] ->
  IsWitnessEnabled h params prev caches = Ok (true, caches') ->
  UpdateUncommittedBlockStructures h params block prev caches =
    Ok (set_first block (mkCTransaction (nVersion cb) (mkCTxIn (prevout i) (scriptSig i) (nSequence i) [nonce] :: ins) (vout cb) (nLockTime cb)), caches').
Proof.
  intros Hn Hi Hw Ho He. pose proof (zlen_nonneg v). unfold UpdateUncommittedBlockStructures, GetWitnessCommitmentIndex.
  rewrite Hv, Ho, (commitment_at (Hash2 root nonce)) by (done || apply Hash2_ok). destruct (Z.eqb_spec (zlen v) (-1)); [lia|].
  rewrite He. cbn [mbind result_bind negb]. rewrite first_tx_ok. cbn [mbind result_bind]. rewrite Hw, (set_nonce_ok i ins Hi). cbn [mbind result_bind]. by rewrite <- Ho.
Qed.
End Commitment.

Lemma process_batches_ok (params : Params) (fCheckpointsEnabled : bool) (mapCheckpoints : list (Z * uint256))
    (failed : list Ptr) (batches : list (list (CBlockHeader * Z))) (n : Z) (t : BlockTree) :
  params_ok params -> no_wrap params (le_value (powLimit params)) ->
  accepted params failed n t -> 0 <= n -> n + zlen (concat batches) <= 2 ^ 31 -> Forall (Forall header_u32) batches ->
  exists t', process_batches params fCheckpointsEnabled mapCheckpoints failed batches t = Ok t' /\
    headers_inv params t' /\ times_monotone (bt_heap t') /\ Forall (failed_flag (bt_heap t')) failed.
Proof.
  intros Hpar Hlim Ha Hn Hlen Hall. revert n t Ha Hn Hlen. induction Hall as [|hs batches Hhs Hall IH]; intros n t Ha Hn Hlen.
  - exists t. split; [done|]. destruct Ha as [Hi Hf _ _]. split_and!; [done|by eapply headers_inv_times|done].
  - cbn [concat] in Hlen. rewrite zlen_app in Hlen. pose proof (zlen_nonneg hs). pose proof (zlen_nonneg (concat batches)). cbn [process_batches].
    destruct (ProcessNewBlockHeaders_ok params Hpar Hlim fCheckpointsEnabled mapCheckpoints failed hs n t None Ha Hn ltac:(lia) Hhs)
      as (v & t' & -> & Ha'). cbn [mbind result_bind]. apply (IH (n + zlen hs) t' Ha'); lia.
Qed.

(** Parameters with a low difficulty, a genesis block and a header on top of it
    that has the work they ask for. *)
Definition easy_genesis : CBlockHeader := mkCBlockHeader 4 uint256_null (repeat 5 32) 1231006505 0x2001ffff 42.
Definition easy_params : Params :=
  mkParams (CBlockHeader_GetHash easy_genesis) 210000 0 0 uint256_null 0 0 1916 2016
    [mkBIP9Deployment 28 0 0; mkBIP9Deployment 0 0 0; mkBIP9Deployment 1 ALWAYS_ACTIVE NO_TIMEOUT] (repeat 255 31 ++ [1]) false false 1 16.
Definition easy_header : CBlockHeader := mkCBlockHeader 4 (CBlockHeader_GetHash easy_genesis) (repeat 6 32) 1231006999 0x2001ffff 38.

Definition easy_cashbase : CTransaction :=
  mkCTransaction 1 [mkCTxIn COutPoint_null [OP_1; OP_1] 0xffffffff []] [mkCTxOut 5000000000 [OP_1]] 0.
Definition easy_block : CBlock :=
  mkCBlock (mkCBlockHeader 4 (CBlockHeader_GetHash easy_genesis) (GetHash easy_cashbase) 1231006999 0x2001ffff 179) [easy_cashbase] false.

Lemma easy_params_ok : params_ok easy_params.
Proof. split; [split; [done|decide_true]|cbn; lia|cbn; lia]. Qed.

(** * Properties *)

(** C7: However many batches of headers the node is sent, in whatever order and
    at whatever adjusted times, their acceptance never fails an assertion or
    follows a null pointer, and the tree stays one in which the links, the skip
    pointers and the chain work are right and every header but the first has
    proof of work for a target within the limit, the target the retargeting rule
    asks for and a time after the median of its eleven predecessors, so that
    median times never go back along a branch. Marking the descendants of failed
    blocks keeps all of it. The bound is the 31 bits of a height; the limit of the
    network leaves room for a retarget in 256 bits, or the network has none, as is
    so on all three networks of chainparams.cpp. *)
Theorem header_tree_invariant (params : Params) (fCheckpointsEnabled : bool) (mapCheckpoints : list (Z * uint256))
    (failed : list Ptr) (batches : list (list (CBlockHeader * Z))) (n : Z) (t : BlockTree) :
  params_ok params -> no_wrap params (le_value (powLimit params)) ->
  accepted params failed n t -> 0 <= n -> n + zlen (concat batches) <= 2 ^ 31 -> Forall (Forall header_u32) batches ->
  exists t', process_batches params fCheckpointsEnabled mapCheckpoints failed batches t = Ok t' /\
    headers_inv params t' /\ times_monotone (bt_heap t') /\ Forall (failed_flag (bt_heap t')) failed.
Proof. apply process_batches_ok. Qed.

Lemma header_tree_invariant_witness :
  exists p t t', AddToBlockIndex easy_genesis tree_empty = Ok (p, t) /\
    process_batches easy_params true [] [] [[(easy_header, 1231007000)]] t = Ok t' /\ headers_inv easy_params t'.
Proof.
  destruct (accepted_genesis easy_params easy_genesis) as (p & t & Hp & Ht);
    [unfold is_u32; cbn; lia..|right; vm_compute; reflexivity|exact eq_refl|apply (bool_decide_eq_false_1 (_ = _)); vm_compute; reflexivity|].
  destruct (header_tree_invariant easy_params true [] [] [[(easy_header, 1231007000)]] 1 t easy_params_ok) as (t' & Ht' & Hi & _);
    [right; vm_compute; reflexivity|exact Ht|lia|vm_compute; discriminate|repeat constructor; unfold is_u32; cbn; lia|].
  exists p, t, t'. split; [exact Hp|]. split; [exact Ht'|exact Hi].
Defined.

(** The header in the example is accepted. *)
Example easy_header_accepted :
  ('(_, t) ← AddToBlockIndex easy_genesis tree_empty;
   t' ← process_batches easy_params true [] [] [[(easy_header, 1231007000)]] t;
   mret (mapBlockIndex t' !! CBlockHeader_GetHash easy_header)) = Ok (Some 2%positive).
Proof. vm_compute. reflexivity. Qed.

(** C10: [CheckBlock] always returns, and accepts exactly the blocks with proof of
    work for a target within the limit, the merkle root of their transactions
    and no way to repeat some of them under that root, one cashbase, in front,
    at most a million bytes without witnesses, only well-formed transactions and
    at most 20,000 signature operations, counted without wrapping around. *)
Theorem CheckBlock_correct (block : CBlock) (params : Params) :
  fChecked block = false -> uint256_ok (powLimit params) -> is_u32 (bh_nBits (header block)) ->
  zlen (vtx block) < 2 ^ 31 -> zlen (block_bytes false block) < 2 ^ 61 -> zsum (map script_bytes (vtx block)) < 2 ^ 25 ->
  exists v, CheckBlock block params true true = Ok v /\
    (v = Valid (mkCBlock (header block) (vtx block) true) <->
      (target_valid params (bh_nBits (header block)) /\ le_value (CBlockHeader_GetHash (header block)) <= compact_value (bh_nBits (header block))) /\
      (hashMerkleRoot (header block) = merkle_root (map GetHash (vtx block)) /\ ~ duplicated (map GetHash (vtx block))) /\
      one_cashbase (vtx block) /\ zlen (vtx block) * 4 <= MAX_BLOCK_WEIGHT /\ zlen (block_bytes false block) * 4 <= MAX_BLOCK_WEIGHT /\
      Forall (fun tx => CheckTransaction tx false = Valid tt) (vtx block) /\
      zsum (map legacy_sigops (vtx block)) * 4 <= MAX_BLOCK_SIGOPS_COST).
Proof.
  intros Hch Hlim Hb Hn Hsz Hs. destruct (CheckMerkleRoot_ok block Hn) as (m & Em & Hm).
  pose proof (CheckBlockTransactions_ok block Hn Hsz Hs) as Ht. unfold CheckBlock. rewrite Hch, Em. unfold CheckBlockHeader, reject_if.
  pose proof (CheckProofOfWork_ok (CBlockHeader_GetHash (header block)) (bh_nBits (header block)) params Hlim (Hash_uint256 _) Hb) as Hp.
  setoid_rewrite <- Hp. setoid_rewrite <- Hm. setoid_rewrite <- Ht. clear. cbn [andb]. destruct (CheckProofOfWork _ _ _); cbn [negb check mbind result_bind].
  - destruct m as [[]|r]; cbn [check]; [|eexists; split; [reflexivity|]; split; [discriminate|by intros (_ & ? & _)]].
    destruct (CheckBlockTransactions block) as [[]|r]; cbn [check]; eexists; (split; [reflexivity|]); [done|].
    split; [discriminate|by intros (_ & _ & ?)].
  - eexists. split; [reflexivity|]. split; [discriminate|by intros [? _]].
Qed.

Lemma CheckBlock_correct_witness : CheckBlock easy_block easy_params true true = Ok (Valid (mkCBlock (header easy_block) (vtx easy_block) true)).
Proof.
  destruct (CheckBlock_correct easy_block easy_params) as (v & Ev & Hv);
    [reflexivity|apply easy_params_ok|unfold is_u32; cbn; lia|vm_compute; reflexivity..|].
  rewrite Ev. f_equal. apply Hv. repeat match goal with |- _ /\ _ => split end.
  - split; [vm_compute; by intros [_ ?]|vm_compute; split; [reflexivity|discriminate]].
  - vm_compute. discriminate.
  - vm_compute. reflexivity.
  - intros (k & j & Hk & _). pose proof (Nat.pow_nonzero 2 k). change (length (map GetHash (vtx easy_block))) with 1%nat in Hk. nia.
  - exists easy_cashbase, []. split; [reflexivity|]. split; [vm_compute; reflexivity|constructor].
  - vm_compute. discriminate.
  - vm_compute. discriminate.
  - constructor; [vm_compute; reflexivity|constructor].
  - vm_compute. discriminate.
Defined.

(** C30: A miner's commitment passes the check.  When segregated witness is active
    and the block has a cashbase without a witness and no commitment yet,
    [GenerateCashbaseCommitment] adds one output to the cashbase and its witness,
    touches nothing else of the block, and the block it returns passes the
    commitment check of [ContextualCheckBlock]: neither the new output nor the
    nonce changes the witness root they commit to. *)
Theorem commitment_roundtrip h params (block : CBlock) prev caches caches' cb i ins rest d :
  vtx block = cb :: rest -> vin cb = i :: ins -> HasWitness cb = false -> GetWitnessCommitmentIndex block = -1 ->
  zlen (vout cb) < 2 ^ 31 -> zlen (vtx block) < 2 ^ 31 ->
  at_index (vDeployments params) DEPLOYMENT_SEGWIT = Ok d -> nTimeout d <> 0 ->
  IsWitnessEnabled h params prev caches = Ok (true, caches') ->
  exists script cb', GenerateCashbaseCommitment h params block prev caches =
      Ok (script, mkCBlock (header block) (cb' :: rest) (fChecked block), caches') /\
    vout cb' = vout cb ++ [mkCTxOut 0 script] /\ map prevout (vin cb') = map prevout (vin cb) /\
    map scriptSig (vin cb') = map scriptSig (vin cb) /\
    check_commitment (mkCBlock (header block) (cb' :: rest) (fChecked block)) = Ok (Valid true).
Proof.
  intros Hv Hi Hw Hc Ho Hn Hd Ht He. destruct (ComputeMerkleRoot_spec (uint256_null :: map GetWitnessHash rest)) as (m & Hr & _).
  { rewrite Hv, zlen_cons in Hn. rewrite zlen_cons. unfold zlen in *. by rewrite length_map. }
  set (root := merkle_root _) in Hr. set (script := commitment_script (Hash2 root nonce)).
  set (cb1 := mkCTransaction (nVersion cb) (vin cb) (vout cb ++ [mkCTxOut 0 script]) (nLockTime cb)).
  assert (H1 : vtx (set_first block cb1) = cb1 :: rest) by (cbn [set_first vtx]; by rewrite Hv).
  set (cb' := mkCTransaction (nVersion cb) (mkCTxIn (prevout i) (scriptSig i) (nSequence i) [nonce] :: ins) (vout cb1) (nLockTime cb)).
  exists script, cb'. split_and!.
  - unfold GenerateCashbaseCommitment. rewrite Hd. cbn [mbind result_bind]. apply Z.eqb_neq in Ht. rewrite Ht, Hc, Z.eqb_refl. cbn [negb andb].
    unfold BlockWitnessMerkleRoot. rewrite Hv, Hr, (first_tx_ok block cb rest Hv). cbn [mbind result_bind mret result_ret].
    fold script cb1. rewrite (UpdateUncommitted_ok (set_first block cb1) cb1 rest root H1 h params prev caches caches' (vout cb) i ins Ho Hi Hw eq_refl He).
    cbn [mbind result_bind mret result_ret]. unfold set_first at 1. rewrite H1. reflexivity.
  - reflexivity.
  - cbn [cb' vin map prevout]. by rewrite Hi.
  - cbn [cb' vin map scriptSig]. by rewrite Hi.
  - eapply (check_commitment_ok _ cb' rest root m); [done|exact Hr|exact Ho|done..].
Qed.

Lemma commitment_roundtrip_witness :
  exists script cb', GenerateCashbaseCommitment ∅ easy_params easy_block None [∅; ∅; ∅] =
      Ok (script, mkCBlock (header easy_block) [cb'] false, [∅; ∅; ∅]) /\
    check_commitment (mkCBlock (header easy_block) [cb'] false) = Ok (Valid true).
Proof.
  destruct (commitment_roundtrip ∅ easy_params easy_block None [∅; ∅; ∅] [∅; ∅; ∅] easy_cashbase
    (mkCTxIn COutPoint_null [OP_1; OP_1] 0xffffffff []) [] [] (mkBIP9Deployment 1 ALWAYS_ACTIVE NO_TIMEOUT))
    as (script & cb' & Hg & _ & _ & _ & Hc); [reflexivity..|discriminate|vm_compute; reflexivity|].
  exists script, cb'. split; [exact Hg|exact Hc].
Defined.
