(* ===== verification/Connect.v ===== *)
(** * Connecting and disconnecting blocks (validation.cpp)

    What a block does to the set of unspent outputs, the undo data that takes it
    back, and the checks that need the outputs: values, relative locks, signature
    operations and scripts. The view is a cache over any view of class
    [CashView]. Script checks run inline or are handed to the check queue, whose
    answer is the conjunction of theirs. Reading and writing files is a
    parameter: whether the undo data and the transaction index could be written,
    and what was read. A rejected block leaves a view that its callers drop, so
    no state is returned with a rejection. *)
From S2P Require Import Prelude StrEncodings Serialize Amount Crypto Script Transaction Cash ArithUint256 Block Chain Pow VersionBits Merkle.
From S2P Require Import Interpreter InterpreterSafety SigHash TxVerify Compressor CheckBlock.

#[local] Opaque SHA256 SHA1 RIPEMD160 Hash160 Hash Hash2.

(** ** The subsidy of a block *)
Definition GetBlockSubsidy (nHeight : Z) (params : Params) : CAmount :=
  let halvings := Z.quot nHeight (nSubsidyHalvingInterval params) in
  if 64 <=? halvings then 0
  else Z.shiftr (50 * CASH) halvings.

(** ** The node: the block assumed to be valid, and its script check threads *)
Record NodeConfig := mkNodeConfig {
  hashAssumeValid : uint256;
  nMinimumChainWork : arith_uint256;
  nScriptCheckThreads : Z;
}.

(** [fScriptChecks]: scripts of blocks deep below the assumed valid block are not checked. *)
Definition script_checks_needed (params : Params) (cfg : NodeConfig) (t : BlockTree) (pindex : Ptr) : result bool :=
  let h := bt_heap t in
  let height := Chain.nHeight (at_ h pindex) in
  if uint256_IsNull (hashAssumeValid cfg) then Ok true
  else
    match mapBlockIndex t !! hashAssumeValid cfg with
    | None => Ok true
    | Some it =>
        a ← GetAncestor h it height;
        if negb (bool_decide (a = Some pindex)) then Ok true
        else
          match pindexBestHeader t with
          | None => Throw null_deref
          | Some best =>
              a ← GetAncestor h best height;
              if negb (bool_decide (a = Some pindex)) then Ok true
              else if CompareTo (nChainWork (at_ h best)) (nMinimumChainWork cfg) <? 0 then Ok true
              else
                time ← GetBlockProofEquivalentTime (nChainWork (at_ h best)) (nChainWork (at_ h pindex))
                         (bi_nBits (at_ h best)) (nPowTargetSpacing params);
                Ok (time <=? 60 * 60 * 24 * 7 * 2)
          end
    end.

Definition BIP34_IMPLIES_BIP30_LIMIT : Z := 1983702.

(** [fEnforceBIP30]: transactions may not overwrite older ones, except in two
    old blocks and where the block at the BIP34 height is the known one. *)
Definition enforce_bip30 (params : Params) (h : Heap) (pindex prev : Ptr) : result bool :=
  let e := at_ h pindex in
  let known := ((Chain.nHeight e =? 91842) && bool_decide (phashBlock e = uint256S (chars "0x00000000000a4d0a398161ffc163c503763b1f4360639393e0e4c8e300e0caec"))) ||
               ((Chain.nHeight e =? 91880) && bool_decide (phashBlock e = uint256S (chars "0x00000000000743f190a18c5577a3c2d2a1f610ae9601ac046a38084ccb7cd721"))) in
  pindexBIP34height ← GetAncestor h prev (BIP34Height params);
  let fEnforceBIP30 := negb known &&
    match pindexBIP34height with
    | None => true
    | Some q => negb (bool_decide (phashBlock (at_ h q) = BIP34Hash params))
    end in
  Ok (fEnforceBIP30 || (BIP34_IMPLIES_BIP30_LIMIT <=? Chain.nHeight e)).

(** ** Script checks *)
Definition MANDATORY_SCRIPT_VERIFY_FLAGS : Z := SCRIPT_VERIFY_P2SH.
Definition STANDARD_SCRIPT_VERIFY_FLAGS : Z :=
  foldl Z.lor MANDATORY_SCRIPT_VERIFY_FLAGS
    [SCRIPT_VERIFY_DERSIG; SCRIPT_VERIFY_STRICTENC; SCRIPT_VERIFY_MINIMALDATA; SCRIPT_VERIFY_NULLDUMMY;
     SCRIPT_VERIFY_DISCOURAGE_UPGRADABLE_NOPS; SCRIPT_VERIFY_CLEANSTACK; SCRIPT_VERIFY_MINIMALIF; SCRIPT_VERIFY_NULLFAIL;
     SCRIPT_VERIFY_CHECKLOCKTIMEVERIFY; SCRIPT_VERIFY_CHECKSEQUENCEVERIFY; SCRIPT_VERIFY_LOW_S; SCRIPT_VERIFY_WITNESS;
     SCRIPT_VERIFY_DISCOURAGE_UPGRADABLE_WITNESS_PROGRAM; SCRIPT_VERIFY_WITNESS_PUBKEYTYPE].
Definition STANDARD_NOT_MANDATORY_VERIFY_FLAGS : Z :=
  Z.land STANDARD_SCRIPT_VERIFY_FLAGS (u32 (Z.lnot MANDATORY_SCRIPT_VERIFY_FLAGS)).

Record CScriptCheck := mkCScriptCheck {
  m_tx_out : CTxOut;
  ptxTo : CTransaction;
  check_nIn : Z;
  nFlags : Z;
  check_txdata : PrecomputedTransactionData;
}.

(** What the script checks depend on besides their data: libsecp256k1, and the
    two caches with their nonces. *)
Record ScriptEnv := mkScriptEnv {
  CheckLowS : bytes -> bool;
  ecdsa_verify : CPubKey -> uint256 -> bytes -> bool;
  signatureCache_nonce : uint256;
  signatureCache : gset uint256;
  scriptExecutionCacheNonce : uint256;
}.

Section Checks.
Context (env : ScriptEnv).

(** [CScriptCheck::operator()]. *)
Definition run_check (check : CScriptCheck) : result bool :=
  i ← at_index (vin (ptxTo check)) (check_nIn check);
  r ← VerifyScript (CheckLowS env) (nFlags check)
        (CachingTransactionSignatureChecker (ecdsa_verify env) (ptxTo check) (check_nIn check) (nValue (m_tx_out check))
           (Some (check_txdata check)) (signatureCache_nonce env) (signatureCache env))
        (scriptSig i) (scriptPubKey (m_tx_out check)) (scriptWitness i);
  mret (match (r : ScriptError + unit) with inl _ => false | inr _ => true end).

(** [control.Wait()]: whether all checks pass; the rest is skipped after a failure. *)
Fixpoint run_checks (vChecks : list CScriptCheck) : result bool :=
  match vChecks with
  | [] => Ok true
  | check :: vChecks => b ← run_check check; if (b : bool) then run_checks vChecks else Ok false
  end.

Definition hashCacheEntry (tx : CTransaction) (flags : Z) : uint256 :=
  SHA256 (take 19 (scriptExecutionCacheNonce env) ++ GetWitnessHash tx ++ le_bytes 4 flags).

Section View.
Context {S : Type} `{!CashView S} `{!ScriptMemory}.
Implicit Types (c : CCashViewCache S).

(** The loop of [CheckInputs] over the inputs from index [i] on: the checks that
    were queued, when they are. *)
Fixpoint script_loop (tx : CTransaction) (flags : Z) (txdata : PrecomputedTransactionData) (queue : bool)
    (v : list CTxIn) (i : Z) (vChecks : list CScriptCheck) c : result (verdict (list CScriptCheck * CCashViewCache S)) :=
  match v with
  | [] => Ok (Valid (vChecks, c))
  | txin :: v =>
      '(cash, c) ← access_unspent (prevout txin) c;
      if queue then script_loop tx flags txdata queue v (i + 1) (vChecks ++ [mkCScriptCheck (out cash) tx i flags txdata]) c
      else
        ok ← run_check (mkCScriptCheck (out cash) tx i flags txdata);
        if (ok : bool) then script_loop tx flags txdata queue v (i + 1) vChecks c
        else
          ok2 ← (if negb (Z.land flags STANDARD_NOT_MANDATORY_VERIFY_FLAGS =? 0)
                 then run_check (mkCScriptCheck (out cash) tx i (Z.land flags (u32 (Z.lnot STANDARD_NOT_MANDATORY_VERIFY_FLAGS))) txdata)
                 else Ok false);
          Ok (if (ok2 : bool) then DoS 0 "non-mandatory-script-verify-flag" else DoS 100 "mandatory-script-verify-flag-failed")
  end.

(** The queued checks, the view, and the script execution cache. *)
Definition CheckInputs (tx : CTransaction) (fScriptChecks : bool) (flags : Z) (cacheFullScriptStore : bool)
    (txdata : PrecomputedTransactionData) (queue : bool) (scriptExecutionCache : gset uint256) c
    : result (verdict (list CScriptCheck * CCashViewCache S * gset uint256)) :=
  if IsCashBase tx || negb fScriptChecks then Ok (Valid ([], c, scriptExecutionCache))
  else
    let entry := hashCacheEntry tx flags in
    if bool_decide (entry ∈ scriptExecutionCache) then Ok (Valid ([], c, scriptExecutionCache))
    else
      v ← script_loop tx flags txdata queue (vin tx) 0 [] c;
      check v (fun r => Ok (Valid (r.1, r.2,
        if cacheFullScriptStore && negb queue then {[entry]} ∪ scriptExecutionCache else scriptExecutionCache))).

(** ** UpdateCash *)

(** The inputs are spent; each must be in the view. *)
Fixpoint spend_loop (v : list CTxIn) c : result (list Cash * CCashViewCache S) :=
  match v with
  | [] => Ok ([], c)
  | txin :: v =>
      match SpendCash (prevout txin) c with
      | (None, _) => Throw (assert_failed "is_spent")
      | (Some cash, c) => '(undo, c) ← spend_loop v c; mret (cash :: undo, c)
      end
  end.

Definition UpdateCash (tx : CTransaction) (nHeight : Z) c : result (CTxUndo * CCashViewCache S) :=
  '(undo, c) ← (if IsCashBase tx then Ok ([], c) else spend_loop (vin tx) c);
  c ← AddCash_tx tx nHeight false c;
  mret (mkCTxUndo undo, c).

(** ** Disconnecting a block *)
Inductive DisconnectResult := DISCONNECT_OK | DISCONNECT_UNCLEAN | DISCONNECT_FAILED.

#[local] Instance DisconnectResult_eq_dec : EqDecision DisconnectResult.
Proof. solve_decision. Defined.

Definition ApplyTxInUndo (undo : Cash) (o : COutPoint) c : result (DisconnectResult * CCashViewCache S) :=
  let '(have, c) := HaveCash o c in
  let fClean := negb have in
  let '(alternate, c) := if Cash.nHeight undo =? 0
                         then (let '(a, c) := AccessByTxid (op_hash o) c in (Some a, c)) else (None, c) in
  let add undo := c ← AddCash o undo (negb fClean) c; mret (if fClean then DISCONNECT_OK else DISCONNECT_UNCLEAN, c) in
  match alternate with
  | Some alternate =>
      if negb (IsSpent alternate) then add (mkCash (out undo) (fCashBase alternate) (Cash.nHeight alternate))
      else Ok (DISCONNECT_FAILED, c)
  | None => add undo
  end.

(** The outputs of a transaction from index [o] on: whether the view had them as the block says. *)
Fixpoint disconnect_outputs (txid : uint256) (is_cashbase : bool) (nHeight : Z) (v : list CTxOut) (o : Z) (fClean : bool) c
    : bool * CCashViewCache S :=
  match v with
  | [] => (fClean, c)
  | txout :: v =>
      if negb (IsUnspendable (scriptPubKey txout)) then
        let '(r, c) := SpendCash (mkCOutPoint txid o) c in
        let good := match r with
                    | None => false
                    | Some cash => bool_decide (txout = out cash) && (nHeight =? Cash.nHeight cash) && bool_decide (is_cashbase = fCashBase cash)
                    end in
        disconnect_outputs txid is_cashbase nHeight v (o + 1) (if good then fClean else false) c
      else disconnect_outputs txid is_cashbase nHeight v (o + 1) fClean c
  end.

(** Outputs restored one after the other. *)
Fixpoint restore_inputs (l : list (COutPoint * Cash)) (fClean : bool) c : result (option bool * CCashViewCache S) :=
  match l with
  | [] => Ok (Some fClean, c)
  | (o, undo) :: l =>
      '(res, c) ← ApplyTxInUndo undo o c;
      if bool_decide (res = DISCONNECT_FAILED) then Ok (None, c)
      else restore_inputs l (fClean && negb (bool_decide (res = DISCONNECT_UNCLEAN))) c
  end.

(** Transactions undone one after the other, each with its undo data; the cashbase has none. *)
Fixpoint disconnect_loop (nHeight : Z) (l : list (CTransaction * option CTxUndo)) (fClean : bool) c
    : result (option bool * CCashViewCache S) :=
  match l with
  | [] => Ok (Some fClean, c)
  | (tx, txundo) :: l =>
      let '(fClean, c) := disconnect_outputs (GetHash tx) (IsCashBase tx) nHeight (vout tx) 0 fClean c in
      match txundo with
      | None => disconnect_loop nHeight l fClean c
      | Some txundo =>
          if negb (zlen (vprevout txundo) =? zlen (vin tx)) then Ok (None, c)
          else
            '(r, c) ← restore_inputs (rev (zip (map prevout (vin tx)) (vprevout txundo))) fClean c;
            match r with
            | None => Ok (None, c)
            | Some fClean => disconnect_loop nHeight l fClean c
            end
      end
  end.

(** [blockUndo] is what [UndoReadFromDisk] reads, [None] when it fails. *)
Definition DisconnectBlock (h : Heap) (block : CBlock) (pindex : Ptr) (blockUndo : option CBlockUndo) c
    : result (DisconnectResult * CCashViewCache S) :=
  match blockUndo with
  | None => Ok (DISCONNECT_FAILED, c)
  | Some blockUndo =>
      if negb (zlen (vtxundo blockUndo) + 1 =? zlen (vtx block)) then Ok (DISCONNECT_FAILED, c)
      else
        '(r, c) ← disconnect_loop (Chain.nHeight (at_ h pindex)) (rev (zip (vtx block) (None :: map Some (vtxundo blockUndo)))) true c;
        match (r : option bool), pprev (at_ h pindex) with
        | None, _ => Ok (DISCONNECT_FAILED, c)
        | Some _, None => Throw null_deref
        | Some fClean, Some prev =>
            Ok (if (fClean : bool) then DISCONNECT_OK else DISCONNECT_UNCLEAN, SetBestBlock (phashBlock (at_ h prev)) c)
        end
  end.

(** ** Connecting a block *)

Fixpoint prev_heights (v : list CTxIn) c : list Z * CCashViewCache S :=
  match v with
  | [] => ([], c)
  | txin :: v =>
      let '(cash, c) := AccessCash (prevout txin) c in
      let '(l, c) := prev_heights v c in (Cash.nHeight cash :: l, c)
  end.

(** What the loop over the transactions carries along. *)
Record Connecting := mkConnecting {
  cn_view : CCashViewCache S;
  cn_scripts : gset uint256;
  cn_fees : CAmount;
  cn_sigops : Z;
  cn_undo : list CTxUndo;
  cn_checks : list CScriptCheck;
}.

(** The checks of the inputs that need the view: the fees so far, and the view. *)
Definition connect_inputs (h : Heap) (pindex : Ptr) (nLockTimeFlags : Z) (tx : CTransaction) (nFees : CAmount) c
    : result (verdict (CAmount * CCashViewCache S)) :=
  if IsCashBase tx then Ok (Valid (nFees, c))
  else
    '(v, c) ← CheckTxInputs tx (Chain.nHeight (at_ h pindex)) c;
    check v (fun txfee =>
      let nFees := i64 (nFees + txfee) in
      if negb (MoneyRange nFees) then Ok (DoS 100 "bad-txns-accumulated-fee-outofrange")
      else
        let '(prevheights, c) := prev_heights (vin tx) c in
        '(final, _) ← SequenceLocks h tx nLockTimeFlags prevheights pindex;
        Ok (if negb (final : bool) then DoS 100 "bad-txns-nonfinal" else Valid (nFees, c))).

Definition connect_tx (h : Heap) (pindex : Ptr) (nLockTimeFlags flags : Z) (fScriptChecks fJustCheck threads : bool)
    (first : bool) (tx : CTransaction) (st : Connecting) : result (verdict Connecting) :=
  inputs ← connect_inputs h pindex nLockTimeFlags tx (cn_fees st) (cn_view st);
  check inputs (fun r : CAmount * CCashViewCache S =>
  let '(nFees, c) := r in
  '(cost, c) ← GetTransactionSigOpCost tx flags c;
  let nSigOpsCost := i64 (cn_sigops st + cost) in
  if MAX_BLOCK_SIGOPS_COST <? nSigOpsCost then Ok (DoS 100 "bad-blk-sigops")
  else
    txdata ← PrecomputedTransactionData_of tx;
    scripts ← CheckInputs tx fScriptChecks flags fJustCheck txdata threads (cn_scripts st) c;
    check scripts (fun r : list CScriptCheck * CCashViewCache S * gset uint256 =>
    let '(vChecks, c, cache) := r in
    '(undo, c) ← UpdateCash tx (Chain.nHeight (at_ h pindex)) c;
    Ok (Valid (mkConnecting c cache nFees nSigOpsCost (if first then cn_undo st else cn_undo st ++ [undo]) (cn_checks st ++ vChecks))))).

Fixpoint connect_loop (h : Heap) (pindex : Ptr) (nLockTimeFlags flags : Z) (fScriptChecks fJustCheck threads : bool)
    (first : bool) (v : list CTransaction) (st : Connecting) : result (verdict Connecting) :=
  match v with
  | [] => Ok (Valid st)
  | tx :: v =>
      r ← connect_tx h pindex nLockTimeFlags flags fScriptChecks fJustCheck threads first tx st;
      check r (connect_loop h pindex nLockTimeFlags flags fScriptChecks fJustCheck threads false v)
  end.

(** [view.HaveCash(COutPoint(tx->GetHash(), o))] for the outputs from index [o] on. *)
Fixpoint have_outputs (txid : uint256) (v : list CTxOut) (o : Z) c : bool * CCashViewCache S :=
  match v with
  | [] => (false, c)
  | _ :: v =>
      let '(have, c) := HaveCash (mkCOutPoint txid o) c in
      if have then (true, c) else have_outputs txid v (o + 1) c
  end.

Fixpoint bip30_loop (v : list CTransaction) c : bool * CCashViewCache S :=
  match v with
  | [] => (false, c)
  | tx :: v =>
      let '(have, c) := have_outputs (GetHash tx) (vout tx) 0 c in
      if have then (true, c) else bip30_loop v c
  end.

(** What a block that connects leaves. *)
Record Connected := mkConnected {
  cd_view : CCashViewCache S;
  cd_tree : BlockTree;
  cd_caches : VersionBitsCache;
  cd_scripts : gset uint256;
  cd_undo : CBlockUndo;
}.

Section Block.
Context (params : Params) (cfg : NodeConfig).

(** The rest of [ConnectBlock] once the block can change the view: its script
    flags, its transactions, the reward, and the queued checks. *)
Definition connect_transactions (h : Heap) (block : CBlock) (pindex : Ptr) (fScriptChecks fJustCheck : bool)
    (nLockTimeFlags flags : Z) (scripts : gset uint256) c : result (verdict Connecting) :=
  let threads := negb (nScriptCheckThreads cfg =? 0) in
  st ← connect_loop h pindex nLockTimeFlags flags fScriptChecks fJustCheck threads true (vtx block) (mkConnecting c scripts 0 0 [] []);
  check st (fun st =>
    let blockReward := i64 (cn_fees st + GetBlockSubsidy (Chain.nHeight (at_ h pindex)) params) in
    tx ← first_tx block;
    value_out ← GetValueOut tx;
    if blockReward <? value_out then Ok (DoS 100 "bad-cb-amount")
    else
      ok ← run_checks (cn_checks st);
      Ok (if negb (ok : bool) then DoS 100 "block-validation-failed" else Valid st)).

(** The block index entry of a block that connects: [nUndoPos] is written once. *)
Definition connected_status (written : bool) (e : CBlockIndex) : result (option Z) :=
  let haveUndo := negb (Z.land (nStatus e) BLOCK_HAVE_UNDO =? 0) in
  if negb haveUndo && negb written then Ok None
  else
    let status := if haveUndo then nStatus e else Z.lor (nStatus e) BLOCK_HAVE_UNDO in
    valid ← IsValid (with_status status e) BLOCK_VALID_SCRIPTS;
    if (valid : bool) then Ok (Some status)
    else '(_, status) ← RaiseValidity status BLOCK_VALID_SCRIPTS; Ok (Some status).

(** [undo_written] and [index_written]: whether the files could be written. When
    one could not, the node aborts: an error, and no verdict on the block. *)
Definition ConnectBlock (t : BlockTree) (block : CBlock) (pindex : Ptr) (fJustCheck undo_written index_written : bool)
    (caches : VersionBitsCache) (scripts : gset uint256) c : result (verdict Connected) :=
  let h := bt_heap t in
  let e := at_ h pindex in
  assert_then (bool_decide (phashBlock e = CBlockHeader_GetHash (header block))) "*pindex->phashBlock == block.GetHash()" (
  checked ← CheckBlock block params (negb fJustCheck) (negb fJustCheck);
  check checked (fun _ =>
  let prev_hash := match pprev e with None => uint256_null | Some prev => phashBlock (at_ h prev) end in
  let '(best, c) := GetBestBlock c in
  assert_then (bool_decide (prev_hash = best)) "hashPrevBlock == view.GetBestBlock()" (
  if bool_decide (CBlockHeader_GetHash (header block) = hashGenesisBlock params)
  then Ok (Valid (mkConnected (if negb fJustCheck then SetBestBlock (phashBlock e) c else c) t caches scripts (mkCBlockUndo [])))
  else
    fScriptChecks ← script_checks_needed params cfg t pindex;
    match pprev e with
    | None => Throw (assert_failed "pindex->pprev")
    | Some prev =>
        bip30 ← enforce_bip30 params h pindex prev;
        let '(overwrites, c) := if (bip30 : bool) then bip30_loop (vtx block) c else (false, c) in
        if overwrites then Ok (DoS 100 "bad-txns-BIP30")
        else
          '(csv, caches) ← deployment_state h params (Some prev) DEPLOYMENT_CSV caches;
          let nLockTimeFlags := if bool_decide (csv = THRESHOLD_ACTIVE) then LOCKTIME_VERIFY_SEQUENCE else 0 in
          '(flags, caches) ← GetBlockScriptFlags h params pindex caches;
          st ← connect_transactions h block pindex fScriptChecks fJustCheck nLockTimeFlags flags scripts c;
          check st (fun st =>
            let undo := mkCBlockUndo (cn_undo st) in
            if fJustCheck then Ok (Valid (mkConnected (cn_view st) t caches (cn_scripts st) undo))
            else
              status ← connected_status undo_written e;
              match status with
              | None => Ok (state_Error "Failed to write undo data")
              | Some status =>
                  if negb index_written then Ok (state_Error "Failed to write transaction index")
                  else Ok (Valid (mkConnected (SetBestBlock (phashBlock e) (cn_view st))
                                    (mkBlockTree (set_status h pindex status) (mapBlockIndex t) (pindexBestHeader t))
                                    caches (cn_scripts st) undo))
              end)
    end))).
End Block.
End View.
End Checks.
