(* ===== verification/ConnectSpec.v ===== *)
(** * What connecting a block means for the set of unspent outputs

    [block_effect] is the specification: every transaction takes the outputs its
    inputs name out of the set and puts its own in. Connecting a block implements
    it on any coherent cache, disconnecting it with the undo data takes it back,
    and the value in the set grows by no more than the subsidy. *)
From S2P Require Import Prelude Serialize Amount Crypto Script Transaction Cash ArithUint256 Block Chain Pow VersionBits Merkle.
From S2P Require Import Interpreter InterpreterSafety SigHash TxVerify Compressor CheckBlock Connect.

#[local] Opaque SHA256 SHA1 RIPEMD160 Hash160 Hash Hash2 GetHash GetWitnessHash.

(** ** The effect of a transaction and of a block *)

Definition spend_inputs (v : list CTxIn) (u : utxo) : utxo := foldl (fun u i => delete (prevout i) u) u v.

Definition tx_inputs (tx : CTransaction) : list CTxIn := if IsCashBase tx then [] else vin tx.

(** The outputs the transaction spends, and the set after it. *)
Definition tx_effect (nHeight : Z) (tx : CTransaction) (u : utxo) : option (list Cash * utxo) :=
  coins ← mapM (fun i => u !! prevout i) (tx_inputs tx);
  mret (coins, add_outputs (GetHash tx) 0 (vout tx) nHeight (IsCashBase tx) (spend_inputs (tx_inputs tx) u)).

Fixpoint block_effect (nHeight : Z) (v : list CTransaction) (u : utxo) : option (list (list Cash) * utxo) :=
  match v with
  | [] => Some ([], u)
  | tx :: v =>
      '(coins, u) ← tx_effect nHeight tx u;
      '(undo, u) ← block_effect nHeight v u;
      mret (coins :: undo, u)
  end.

(** The outputs of a transaction. *)
Definition own_output (tx : CTransaction) (o : COutPoint) : Prop :=
  exists k, 0 <= k < zlen (vout tx) /\ o = mkCOutPoint (GetHash tx) k.

(** A list of transactions that overwrite nothing and spend nothing twice. *)
Record block_fresh (u : utxo) (v : list CTransaction) : Prop := {
  bf_ids : NoDup (map GetHash v);
  bf_new : forall tx o, tx ∈ v -> own_output tx o -> u !! o = None;
  bf_inputs : forall tx, tx ∈ v -> NoDup (map prevout (tx_inputs tx));
  bf_outputs : forall tx, tx ∈ v -> Forall (fun x => CTxOut_IsNull x = false) (vout tx);
}.

(** What a set of outputs that grew from blocks up to a height holds. *)
Definition coins_ok (nHeight : Z) (u : utxo) : Prop :=
  forall o cash, u !! o = Some cash -> IsSpent cash = false /\ IsUnspendable (scriptPubKey (out cash)) = false /\ 0 < Cash.nHeight cash <= nHeight /\
    bytes_ok (scriptPubKey (out cash)).

(** ** Sets *)

Lemma spend_inputs_lookup v : forall (u : utxo) o, spend_inputs v u !! o = if bool_decide (o ∈ map prevout v) then None else u !! o.
Proof.
  induction v as [|i v IH]; intros u o; [done|]. unfold spend_inputs in *. cbn [foldl map]. rewrite IH.
  destruct (decide (o = prevout i)) as [->|Hne].
  - rewrite lookup_delete_eq, (bool_decide_eq_true_2 (prevout i ∈ prevout i :: map prevout v)) by apply list_elem_of_here. by case_bool_decide.
  - rewrite lookup_delete_ne by done. apply (f_equal (fun b : bool => if b then None else u !! o)), bool_decide_ext. rewrite elem_of_cons. tauto.
Qed.

Lemma add_outputs_lookup txid vout h cb : forall i (u : utxo) o, 0 <= i ->
  add_outputs txid i vout h cb u !! o =
    match (if bool_decide (op_hash o = txid) && (i <=? op_n o) then vout !! Z.to_nat (op_n o - i) else None) with
    | Some x => if IsUnspendable (scriptPubKey x) then u !! o else Some (Cash_ctor x h cb)
    | None => u !! o
    end.
Proof.
  induction vout as [|x vout IH]; intros i u o Hi; cbn [add_outputs]; [by destruct (_ && _)|]. rewrite IH by lia.
  destruct o as [ho no]. cbn [op_hash op_n]. case_bool_decide as Hh; cbn [andb].
  2:{ destruct (IsUnspendable _); [done|]. rewrite lookup_insert_ne by congruence. done. }
  subst ho. destruct (Z.leb_spec i no) as [Hle|Hlt]; destruct (Z.leb_spec (i + 1) no) as [Hle'|Hlt']; try lia.
  - replace (Z.to_nat (no - i)) with (Datatypes.S (Z.to_nat (no - (i + 1)))) by lia.
    change ((x :: vout) !! Datatypes.S (Z.to_nat (no - (i + 1)))) with (vout !! Z.to_nat (no - (i + 1))).
    assert (Hne : mkCOutPoint txid i <> mkCOutPoint txid no) by (intros [= ?]; lia).
    destruct (IsUnspendable (scriptPubKey x)); [done|]. by rewrite lookup_insert_ne.
  - assert (no = i) as -> by lia. rewrite Z.sub_diag. change ((x :: vout) !! Z.to_nat 0) with (Some x). cbn iota.
    destruct (IsUnspendable (scriptPubKey x)); [done|]. by rewrite lookup_insert_eq.
  - destruct (IsUnspendable _); [done|]. rewrite lookup_insert_ne; [done|]. intros [= ?]; lia.
Qed.

Lemma spends_delete (u : utxo) v coins o : spends u v coins -> o ∉ map prevout v -> spends (delete o u) v coins.
Proof.
  induction 1 as [|i cash v coins Hi _ IH]; cbn [map]; intros Ho; [constructor|]. apply not_elem_of_cons in Ho as [Hne Ho].
  constructor; [by rewrite lookup_delete_ne|by apply IH].
Qed.

Lemma tx_effect_spends h tx (u u' : utxo) coins : tx_effect h tx u = Some (coins, u') <->
  spends u (tx_inputs tx) coins /\ u' = add_outputs (GetHash tx) 0 (vout tx) h (IsCashBase tx) (spend_inputs (tx_inputs tx) u).
Proof.
  unfold tx_effect, spends. split.
  - intros Hm. destruct (mapM _ _) as [l|] eqn:E; [|done]. cbn in Hm. injection Hm as <- <-. split; [|done]. by apply mapM_Some_1.
  - intros [Hs ->]. by rewrite (mapM_Some_2 _ _ _ Hs).
Qed.

Lemma coins_ok_effect h tx (u u' : utxo) coins : 0 < h < 2 ^ 31 -> tx_ok tx -> Forall (fun x => CTxOut_IsNull x = false) (vout tx) ->
  coins_ok h u -> tx_effect h tx u = Some (coins, u') -> coins_ok h u'.
Proof.
  intros Hh Htx Hn Hok [_ ->]%tx_effect_spends o cash. rewrite add_outputs_lookup, spend_inputs_lookup by lia.
  assert (Hold : (if bool_decide (o ∈ map prevout (tx_inputs tx)) then None else u !! o) = Some cash -> u !! o = Some cash) by (by case_bool_decide).
  destruct (if _ && _ then _ else None) as [x|] eqn:E; [|by intros ?%Hold%Hok].
  destruct (IsUnspendable (scriptPubKey x)) eqn:Eu; [by intros ?%Hold%Hok|]. intros [= <-]. cbn [Cash_ctor out Cash.nHeight IsSpent].
  destruct (_ && _); [|done]. assert (In x (vout tx)) by (apply list_elem_of_In, list_elem_of_lookup; by eexists).
  rewrite Forall_forall in Hn. destruct Htx as [_ _ _ _ Ho _ _]. rewrite Forall_forall in Ho. destruct (Ho x) as (_ & Hb & _); [done|].
  unfold IsSpent, Cash_ctor. cbn [out]. split_and!; [by apply Hn|done| |rewrite Z.mod_small; lia|done]. rewrite Z.mod_small; lia.
Qed.

(** What does not belong to the transactions stays. *)
Lemma tx_effect_other h tx (u u' : utxo) coins o : tx_effect h tx u = Some (coins, u') ->
  u !! o = None -> ~ own_output tx o -> u' !! o = None.
Proof.
  intros [_ ->]%tx_effect_spends Hu Ho. rewrite add_outputs_other.
  - rewrite spend_inputs_lookup, Hu. by case_bool_decide.
  - intros k Hk ->. apply Ho. exists k. split; [lia|done].
Qed.

Lemma block_fresh_first (u : utxo) tx v : block_fresh u (tx :: v) -> block_fresh u [tx].
Proof.
  intros [_ H2 H3 H4]. split; [apply NoDup_singleton|..]; intros tx'; intros; apply list_elem_of_singleton in H as ->;
    [eapply H2; [apply list_elem_of_here|done]|apply H3, list_elem_of_here|apply H4, list_elem_of_here].
Qed.

Lemma block_fresh_next h tx v (u u' : utxo) coins :
  block_fresh u (tx :: v) -> tx_effect h tx u = Some (coins, u') -> block_fresh u' v.
Proof.
  intros [H1 H2 H3 H4] He. cbn [map] in H1. apply list.NoDup_cons in H1 as [Hn H1]. split; [done| | |].
  - intros tx' o Hin Ho. eapply tx_effect_other; [exact He|apply (H2 tx'); [set_solver|done]|].
    intros (k & _ & ->). destruct Ho as (k' & _ & Eo). apply (f_equal op_hash) in Eo. cbn [op_hash] in Eo.
    apply Hn. rewrite Eo. by apply (list_elem_of_fmap_2 GetHash).
  - intros tx' Hin. apply H3. set_solver.
  - intros tx' Hin. apply H4. set_solver.
Qed.

(** ** Blocks whose transactions have different inputs

    Nothing in [ConnectBlock] looks for a transaction that a block holds twice.
    It needs not: the second copy spends what the first one spent. *)

(** What holds of the transactions of a block on their own: an id stands for one
    choice of inputs, only the first transaction is a cashbase, inputs are named
    once, and no output is null. *)
Record block_shape (v : list CTransaction) : Prop := {
  bs_ids : forall a b, a ∈ v -> b ∈ v -> GetHash a = GetHash b -> map prevout (tx_inputs a) = map prevout (tx_inputs b);
  bs_cashbase : Forall (fun tx => IsCashBase tx = false) (tail v);
  bs_named : forall tx, tx ∈ v -> IsCashBase tx = false -> vin tx <> [];
  bs_once : forall tx, tx ∈ v -> NoDup (map prevout (tx_inputs tx));
  bs_outputs : forall tx, tx ∈ v -> Forall (fun x => CTxOut_IsNull x = false) (vout tx);
}.

(** The set between the transactions that are [past] and the [rest]. *)
Record block_inv (u : utxo) (past rest : list CTransaction) : Prop := {
  bi_new : forall tx o, tx ∈ rest -> GetHash tx ∉ map GetHash past -> own_output tx o -> u !! o = None;
  bi_spent : forall tx o, tx ∈ past -> o ∈ map prevout (tx_inputs tx) -> u !! o = None;
  bi_never : forall tx tx' o, tx ∈ past -> o ∈ map prevout (tx_inputs tx) -> tx' ∈ rest -> GetHash tx' ∉ map GetHash past -> ~ own_output tx' o;
}.

Lemma block_inv_start u v : (forall tx o, tx ∈ v -> own_output tx o -> u !! o = None) -> block_inv u [] v.
Proof. intros Hn. split; [intros; by eapply Hn|by intros ? ? []%elem_of_nil|by intros ? ? ? []%elem_of_nil]. Qed.

Lemma spends_in (u : utxo) v coins o : spends u v coins -> o ∈ map prevout v -> is_Some (u !! o).
Proof.
  induction 1 as [|i cash v coins Hi _ IH]; cbn [map]; [by intros []%elem_of_nil|]. intros [-> |Ho]%elem_of_cons; [by eexists|by apply IH].
Qed.

(** A transaction whose inputs are there is new. *)
Lemma block_inv_id u past tx rest coins : block_shape (past ++ tx :: rest) -> block_inv u past (tx :: rest) ->
  spends u (tx_inputs tx) coins -> GetHash tx ∉ map GetHash past.
Proof.
  intros [Hids Hcb Hnamed _ _] [_ Hspent _] Hs (tx' & Eid & Hin)%list_elem_of_fmap_1.
  assert (Htx : tx ∈ past ++ tx :: rest) by (apply elem_of_app; right; apply list_elem_of_here).
  assert (Ecb : IsCashBase tx = false).
  { destruct past as [|d past]; [apply elem_of_nil in Hin; destruct Hin|]. cbn [app tail] in Hcb. rewrite Forall_forall in Hcb. apply Hcb.
    apply in_or_app. right. left. reflexivity. }
  specialize (Hnamed tx Htx Ecb). specialize (Hids tx tx' Htx ltac:(apply elem_of_app; left; exact Hin) Eid). clear Eid.
  unfold tx_inputs in Hs, Hids at 1. rewrite Ecb in *. destruct (vin tx) as [|i v]; [done|]. cbn [map] in Hids.
  destruct (spends_in _ _ _ (prevout i) Hs) as [cash Hc]; [apply list_elem_of_here|].
  rewrite (Hspent tx' (prevout i) Hin) in Hc; [done|]. rewrite <- Hids. apply list_elem_of_here.
Qed.

Lemma block_inv_fresh u past tx rest coins : block_shape (past ++ tx :: rest) -> block_inv u past (tx :: rest) ->
  spends u (tx_inputs tx) coins -> block_fresh u [tx].
Proof.
  intros Hb Hi Hs. assert (Htx : tx ∈ past ++ tx :: rest) by (apply elem_of_app; right; apply list_elem_of_here).
  pose proof (block_inv_id _ _ _ _ _ Hb Hi Hs) as Hid.
  split; [apply NoDup_singleton| | |]; intros tx'; intros; apply list_elem_of_singleton in H as ->.
  - by apply (bi_new _ _ _ Hi tx); [apply list_elem_of_here|..].
  - by apply (bs_once _ Hb).
  - by apply (bs_outputs _ Hb).
Qed.

Lemma block_inv_next h u past tx rest coins u' : block_shape (past ++ tx :: rest) -> block_inv u past (tx :: rest) ->
  tx_effect h tx u = Some (coins, u') -> block_inv u' (past ++ [tx]) rest.
Proof.
  intros Hb Hi He. pose proof He as [Hs _]%tx_effect_spends. pose proof (block_inv_id _ _ _ _ _ Hb Hi Hs) as Hid.
  destruct Hi as [Hnew Hspent Hnever].
  assert (Hother : forall tx' o, own_output tx' o -> GetHash tx' <> GetHash tx -> ~ own_output tx o).
  { intros tx' o (k & _ & ->) Hne (k' & _ & E). apply Hne. exact (f_equal op_hash E). }
  assert (Hgone : forall o, o ∈ map prevout (tx_inputs tx) -> forall tx', tx' ∈ tx :: rest -> GetHash tx' ∉ map GetHash past -> ~ own_output tx' o).
  { intros o Ho tx' Hin Hid' Hown. destruct (spends_in _ _ _ o Hs Ho) as [cash Hc]. rewrite (Hnew tx' o Hin Hid' Hown) in Hc. discriminate Hc. }
  split; rewrite ?map_app.
  - intros tx' o Hin [Hid' Hne]%not_elem_of_app Hown. cbn [map] in Hne. apply not_elem_of_cons in Hne as [Hne _].
    eapply tx_effect_other; [exact He|by apply (Hnew tx'); [apply elem_of_cons; right|..]|by eapply Hother].
  - intros tx' o [Hin| ->%list_elem_of_singleton]%elem_of_app Ho.
    + eapply tx_effect_other; [exact He|by eapply Hspent|by apply (Hnever tx'); [..|apply list_elem_of_here|]].
    + apply tx_effect_spends in He as [_ ->]. rewrite add_outputs_other.
      * by rewrite spend_inputs_lookup, bool_decide_eq_true_2.
      * intros k Hk ->. refine (Hgone _ Ho tx (list_elem_of_here _ _) Hid _). exists k. split; [lia|done].
  - intros tx' tx2 o [Hin| ->%list_elem_of_singleton]%elem_of_app Ho Hin2 [Hid2 _]%not_elem_of_app.
    + by apply (Hnever tx'); [..|apply elem_of_cons; right|].
    + by apply Hgone; [|apply elem_of_cons; right|].
Qed.

Lemma block_effect_ids h v : forall u past undo u', block_shape (past ++ v) -> block_inv u past v -> block_effect h v u = Some (undo, u') ->
  NoDup (map GetHash v) /\ forall tx, tx ∈ v -> GetHash tx ∉ map GetHash past.
Proof.
  induction v as [|tx v IH]; intros u past undo u' Hb Hi He; cbn [block_effect] in He; [split; [constructor|by intros ? []%elem_of_nil]|].
  destruct (tx_effect h tx u) as [[coins u1]|] eqn:E1; [|done]. cbn in He. destruct (block_effect h v u1) as [[undo1 u2]|] eqn:E2; [|done].
  pose proof (block_inv_next _ _ _ _ _ _ _ Hb Hi E1) as Hi1. pose proof E1 as [Hs _]%tx_effect_spends.
  pose proof (block_inv_id _ _ _ _ _ Hb Hi Hs) as Hid. destruct (IH u1 (past ++ [tx]) undo1 u2) as [Hn Hp]; [by rewrite <- app_assoc|done|done|].
  rewrite map_app in Hp. cbn [map] in *. split.
  - apply list.NoDup_cons. split; [|done]. intros (tx' & E & Hin)%list_elem_of_fmap_1. apply (Hp tx' Hin), elem_of_app. right. rewrite <- E. apply list_elem_of_here.
  - intros tx' [-> |Hin]%elem_of_cons; [done|]. by destruct (proj1 (not_elem_of_app _ _ _) (Hp tx' Hin)).
Qed.

(** A block that takes effect holds no transaction twice. *)
Lemma block_effect_fresh h v u undo u' : block_shape v -> (forall tx o, tx ∈ v -> own_output tx o -> u !! o = None) ->
  block_effect h v u = Some (undo, u') -> block_fresh u v.
Proof.
  intros Hb Hnew He. split; [|exact Hnew|apply (bs_once _ Hb)|apply (bs_outputs _ Hb)].
  by eapply (block_effect_ids h v u []); [|apply block_inv_start|].
Qed.

(** Without a collision among the hashes of a block, an id stands for its inputs. *)
Lemma same_id_inputs v : Forall tx_ok v -> Forall (fun tx => vin tx <> []) v -> ~ hash_collision (map (serialized false) v) ->
  forall a b, a ∈ v -> b ∈ v -> GetHash a = GetHash b -> map prevout (tx_inputs a) = map prevout (tx_inputs b).
Proof.
  rewrite !Forall_forall. intros Hok Hne Hno a b Ha%list_elem_of_In Hb%list_elem_of_In E.
  pose proof (f_equal vin (same_id_same_tx v a b Hno Ha Hb (Hok a Ha) (Hok b Hb) (Hne a Ha) (Hne b Hb) E)) as Ev. clear E. cbn [strip_witness vin] in Ev.
  assert (Ep : map prevout (vin a) = map prevout (vin b)).
  { apply (f_equal (map prevout)) in Ev. by rewrite !map_map in Ev. }
  assert (Ecb : IsCashBase a = IsCashBase b).
  { unfold IsCashBase. destruct (vin a) as [|i [|? ?]], (vin b) as [|j [|? ?]]; try discriminate Ep; try done. injection Ep as Ep. by rewrite Ep. }
  unfold tx_inputs. rewrite Ecb. by destruct (IsCashBase b).
Qed.

(** Taking the first of the added outputs away again. *)
Lemma add_outputs_delete txid i x v h cb (u : utxo) : 0 <= i -> u !! mkCOutPoint txid i = None ->
  delete (mkCOutPoint txid i) (add_outputs txid (i + 1) v h cb (<[mkCOutPoint txid i := x]> u)) = add_outputs txid (i + 1) v h cb u.
Proof.
  intros Hi Hu. apply map_eq. intros o. destruct (decide (o = mkCOutPoint txid i)) as [->|Hne].
  - rewrite lookup_delete_eq, add_outputs_lookup by lia. cbn [op_hash op_n]. destruct (Z.leb_spec (i + 1) i); [lia|]. by rewrite andb_false_r.
  - rewrite lookup_delete_ne, !add_outputs_lookup by (done || lia). by rewrite lookup_insert_ne.
Qed.

(** The outputs put back: the last one first. *)
Definition restore (l : list (COutPoint * Cash)) (u : utxo) : utxo := foldr (fun oc u => <[oc.1 := oc.2]> u) u l.

Lemma restore_spent v coins : forall u, NoDup (map prevout v) -> spends u v coins ->
  restore (zip (map prevout v) coins) (spend_inputs v u) = u.
Proof.
  revert coins; induction v as [|i v IH]; intros coins u Hn Hs; [by apply Forall2_nil_inv_l in Hs as ->|].
  apply Forall2_cons_inv_l in Hs as (cash & coins' & Hi & Hs & ->). cbn [map] in Hn. apply list.NoDup_cons in Hn as [Hni Hn].
  unfold restore, spend_inputs in *. cbn [map zip zip_with foldr foldl fst snd]. rewrite IH; [|done|by apply spends_delete].
  by apply insert_delete_id.
Qed.

Lemma restore_lookup_ne l (u : utxo) o : o ∉ l.*1 -> restore l u !! o = u !! o.
Proof.
  induction l as [|[o' cash] l IH]; cbn; intros Ho; [done|]. apply not_elem_of_cons in Ho as [Hne Ho]. cbn [fst snd].
  rewrite lookup_insert_ne by done. by apply IH.
Qed.

(** ** UpdateCash implements the effect *)
Section ViewLemmas.
Context {S : Type} `{!CashView S} `{!CashViewOk S} `{!ScriptMemory} `{!ScriptMemoryOk}.
Implicit Types (c : CCashViewCache S).

Lemma SpendCash_some c o cash : cache_inv c -> cache_abs c !! o = Some cash ->
  exists c', SpendCash o c = (Some cash, c') /\ cache_inv c' /\ cache_abs c' = delete o (cache_abs c) /\ cache_best c' = cache_best c.
Proof.
  intros Hc Ho. pose proof (SpendCash_ok c o Hc) as Hs. destruct (SpendCash o c) as [r c']. destruct Hs as (Hi & Ha & Hb & Hr).
  rewrite Ho in Hr. destruct r as [r|]; [|done]. cbn in Hr. apply unspent_Some in Hr as [-> _]. by exists c'.
Qed.

Lemma spend_loop_ok v coins : forall c, cache_inv c -> NoDup (map prevout v) -> spends (cache_abs c) v coins ->
  exists c', spend_loop v c = Ok (coins, c') /\ cache_inv c' /\ cache_abs c' = spend_inputs v (cache_abs c) /\ cache_best c' = cache_best c.
Proof.
  revert coins; induction v as [|i v IH]; intros coins c Hc Hn Hs.
  { apply Forall2_nil_inv_l in Hs as ->. by exists c. }
  apply Forall2_cons_inv_l in Hs as (cash & coins' & Hi & Hs & ->). cbn [map] in Hn. apply list.NoDup_cons in Hn as [Hni Hn].
  cbn [spend_loop]. destruct (SpendCash_some c (prevout i) cash Hc Hi) as (c1 & -> & Hc1 & Ha1 & Hb1).
  destruct (IH coins' c1 Hc1 Hn) as (c2 & -> & Hc2 & Ha2 & Hb2).
  { rewrite Ha1. by apply spends_delete. }
  exists c2. cbn [mbind result_bind]. split_and!; [done|done| |congruence]. rewrite Ha2, Ha1. done.
Qed.

Lemma UpdateCash_ok tx h c coins u' :
  cache_inv c -> block_fresh (cache_abs c) [tx] -> tx_effect h tx (cache_abs c) = Some (coins, u') ->
  exists c', UpdateCash tx h c = Ok (mkCTxUndo coins, c') /\ cache_inv c' /\ cache_abs c' = u' /\ cache_best c' = cache_best c.
Proof.
  intros Hc [_ Hnew Hin Hout] [Hs ->]%tx_effect_spends. specialize (Hin tx ltac:(apply list_elem_of_here)). specialize (Hout tx ltac:(apply list_elem_of_here)).
  destruct (spend_loop_ok (tx_inputs tx) coins c Hc Hin Hs) as (c1 & E1 & Hc1 & Ha1 & Hb1). unfold UpdateCash.
  replace (if IsCashBase tx then Ok ([], c) else spend_loop (vin tx) c) with (spend_loop (tx_inputs tx) c) by (unfold tx_inputs; by destruct (IsCashBase tx)).
  rewrite E1. cbn [mbind result_bind]. unfold AddCash_tx.
  destruct (AddCash_loop_ok (GetHash tx) (vout tx) h (IsCashBase tx) false 0 c1 Hc1 Hout) as (c2 & -> & Hc2 & Ha2 & Hb2).
  { intros _ _ k Hk. rewrite Ha1, spend_inputs_lookup. case_bool_decide; [done|]. apply (Hnew tx); [apply list_elem_of_here|].
    exists k. split; [lia|done]. }
  cbn [mbind result_bind]. exists c2. split_and!; [done|done| |congruence]. by rewrite Ha2, Ha1.
Qed.

(** ** Disconnecting takes the effect back *)

Lemma disconnect_outputs_ok txid cb h v : forall o fClean c u, 0 <= h < 2 ^ 31 -> 0 <= o -> cache_inv c ->
  Forall (fun x => CTxOut_IsNull x = false) v -> (forall k, o <= k < o + zlen v -> u !! mkCOutPoint txid k = None) ->
  cache_abs c = add_outputs txid o v h cb u ->
  exists c', disconnect_outputs txid cb h v o fClean c = (fClean, c') /\ cache_inv c' /\ cache_abs c' = u /\ cache_best c' = cache_best c.
Proof.
  induction v as [|x v IH]; intros o fClean c u Hh Ho Hc Hn Hu Ha; [by exists c|]. rewrite zlen_cons in Hu. pose proof (zlen_nonneg v).
  apply Forall_cons_1 in Hn as [Hx Hn]. cbn [disconnect_outputs add_outputs] in *. destruct (IsUnspendable (scriptPubKey x)); cbn [negb].
  { apply IH; [done|lia|done..| |done]. intros k Hk. apply Hu. lia. }
  destruct (SpendCash_some c (mkCOutPoint txid o) (Cash_ctor x h cb) Hc) as (c1 & -> & Hc1 & Ha1 & Hb1).
  { rewrite Ha, add_outputs_lookup by lia. cbn [op_n]. destruct (Z.leb_spec (o + 1) o); [lia|]. by rewrite andb_false_r, lookup_insert_eq. }
  cbn [Cash_ctor out Cash.nHeight fCashBase]. rewrite Z.mod_small, !bool_decide_eq_true_2, Z.eqb_refl by (done || lia). cbn [andb].
  destruct (IH (o + 1) fClean c1 u Hh ltac:(lia) Hc1 Hn) as (c2 & -> & Hc2 & Ha2 & Hb2).
  - intros k Hk. apply Hu. lia.
  - rewrite Ha1, Ha. apply add_outputs_delete; [lia|apply Hu; lia].
  - exists c2. by split_and!; [..|congruence].
Qed.

Lemma ApplyTxInUndo_ok cash o c : cache_inv c -> cache_abs c !! o = None ->
  IsSpent cash = false -> IsUnspendable (scriptPubKey (out cash)) = false -> Cash.nHeight cash <> 0 ->
  exists c', ApplyTxInUndo cash o c = Ok (DISCONNECT_OK, c') /\ cache_inv c' /\ cache_abs c' = <[o := cash]> (cache_abs c) /\ cache_best c' = cache_best c.
Proof.
  intros Hc Ho Hs Hu Hh. unfold ApplyTxInUndo. pose proof (HaveCash_ok c o Hc) as Hv. destruct (HaveCash o c) as [b c1].
  destruct Hv as [-> (Hc1 & Ha1 & Hb1)]. rewrite Ho. rewrite bool_decide_eq_false_2 by (by intros []). cbn [negb].
  destruct (Z.eqb_spec (Cash.nHeight cash) 0); [done|].
  destruct (AddCash_ok c1 o cash false Hc1 Hs) as (c2 & -> & Hc2 & Ha2 & Hb2); [by rewrite Ha1|]. cbn [mbind result_bind].
  exists c2. rewrite Hu in Ha2. rewrite <- Ha1, <- Hb1. by split_and!.
Qed.

Definition coin_ok (cash : Cash) : Prop :=
  IsSpent cash = false /\ IsUnspendable (scriptPubKey (out cash)) = false /\ Cash.nHeight cash <> 0.

Lemma restore_inputs_app a b : forall fClean c, restore_inputs (a ++ b) fClean c =
  ('(r, c) ← restore_inputs a fClean c; match (r : option bool) with None => Ok (None, c) | Some fClean => restore_inputs b fClean c end).
Proof.
  induction a as [|[o cash] a IH]; intros fClean c; cbn [app restore_inputs]; [done|].
  destruct (ApplyTxInUndo cash o c) as [[res c1]|]; [|done]. cbn [mbind result_bind]. case_bool_decide; [done|]. apply IH.
Qed.

Lemma restore_inputs_ok l : forall fClean c, cache_inv c -> NoDup (l.*1) -> Forall (fun oc => coin_ok oc.2) l ->
  (forall o, o ∈ l.*1 -> cache_abs c !! o = None) ->
  exists c', restore_inputs (rev l) fClean c = Ok (Some fClean, c') /\ cache_inv c' /\ cache_abs c' = restore l (cache_abs c) /\ cache_best c' = cache_best c.
Proof.
  induction l as [|[o cash] l IH]; intros fClean c Hc Hn Hok Hu; [by exists c|]. cbn [rev]. rewrite restore_inputs_app.
  cbn in Hn. apply list.NoDup_cons in Hn as [Hno Hn]. apply Forall_cons_1 in Hok as [(H1 & H2 & H3) Hok]. cbn [snd] in *.
  destruct (IH fClean c Hc Hn Hok) as (c1 & -> & Hc1 & Ha1 & Hb1); [intros o' Ho'; apply Hu; by apply elem_of_cons; right|].
  cbn [mbind result_bind restore_inputs].
  destruct (ApplyTxInUndo_ok cash o c1 Hc1) as (c2 & -> & Hc2 & Ha2 & Hb2); [|done..|].
  { rewrite Ha1, restore_lookup_ne by done. apply Hu. apply elem_of_cons. by left. }
  cbn [mbind result_bind]. rewrite !bool_decide_eq_false_2 by done. rewrite andb_true_r. exists c2.
  split_and!; [done|done| |congruence]. rewrite Ha2, Ha1. done.
Qed.

Lemma disconnect_loop_app h a b : forall fClean c, disconnect_loop h (a ++ b) fClean c =
  ('(r, c) ← disconnect_loop h a fClean c; match (r : option bool) with None => Ok (None, c) | Some fClean => disconnect_loop h b fClean c end).
Proof.
  induction a as [|[tx undo] a IH]; intros fClean c; cbn [app disconnect_loop]; [done|].
  destruct (disconnect_outputs _ _ _ _ _ _ _) as [f c1]. destruct undo as [undo|]; [|apply IH].
  destruct (negb _); [done|]. destruct (restore_inputs _ _ _) as [[r c2]|]; [|done]. cbn [mbind result_bind]. destruct r; [apply IH|done].
Qed.

(** The undo data of a transaction; a cashbase has none. *)
Definition undo_of (tx : CTransaction) (coins : list Cash) : CTransaction * option CTxUndo :=
  (tx, if IsCashBase tx then None else Some (mkCTxUndo coins)).

Lemma coins_ok_spent h u v coins : coins_ok h u -> spends u v coins -> Forall coin_ok coins.
Proof.
  intros Hok. induction 1 as [|i cash v coins Hi _ IH]; constructor; [|done]. destruct (Hok _ _ Hi) as (? & ? & ? & ?). split_and!; [done..|lia].
Qed.

Lemma zip_fst {A B} (l : list A) (k : list B) : length l = length k -> (zip l k).*1 = l.
Proof. intros. apply fst_zip. lia. Qed.

Lemma disconnect_tx_ok h tx fClean c u u' coins : 0 <= h < 2 ^ 31 -> cache_inv c -> coins_ok h u -> block_fresh u [tx] ->
  tx_effect h tx u = Some (coins, u') -> cache_abs c = u' ->
  exists c', disconnect_loop h [undo_of tx coins] fClean c = Ok (Some fClean, c') /\ cache_inv c' /\ cache_abs c' = u /\ cache_best c' = cache_best c.
Proof.
  intros Hh Hc Hok [_ Hnew Hin Hout] [Hs ->]%tx_effect_spends Ha. specialize (Hin tx ltac:(apply list_elem_of_here)). specialize (Hout tx ltac:(apply list_elem_of_here)).
  cbn [disconnect_loop undo_of].
  destruct (disconnect_outputs_ok (GetHash tx) (IsCashBase tx) h (vout tx) 0 fClean c (spend_inputs (tx_inputs tx) u) Hh ltac:(lia) Hc Hout) as (c1 & -> & Hc1 & Ha1 & Hb1).
  { intros k Hk. rewrite spend_inputs_lookup. case_bool_decide; [done|]. apply (Hnew tx); [apply list_elem_of_here|]. exists k. split; [lia|done]. }
  { exact Ha. }
  unfold tx_inputs in *. destruct (IsCashBase tx) eqn:Ecb.
  - exists c1. split_and!; done.
  - pose proof (Forall2_length Hs) as Hl. cbn [vprevout]. unfold zlen. rewrite Hl, Z.eqb_refl. cbn [negb].
    assert (Hl' : length (map prevout (vin tx)) = length coins) by (by rewrite length_map).
    destruct (restore_inputs_ok (zip (map prevout (vin tx)) coins) fClean c1 Hc1) as (c2 & -> & Hc2 & Ha2 & Hb2).
    + by rewrite zip_fst.
    + pose proof (coins_ok_spent _ _ _ _ Hok Hs) as Hcs. apply Forall_forall. intros [o cash] Hin'. cbn [snd].
      rewrite Forall_forall in Hcs. apply Hcs. by apply in_combine_r in Hin'.
    + intros o. rewrite zip_fst, Ha1, spend_inputs_lookup by done. intros Ho. by rewrite bool_decide_eq_true_2.
    + cbn [mbind result_bind]. exists c2. split_and!; [done|done| |congruence]. rewrite Ha2, Ha1. by apply restore_spent.
Qed.

Lemma disconnect_txs_ok h v : forall u undos u' fClean c, 0 < h < 2 ^ 31 -> cache_inv c -> coins_ok h u -> block_fresh u v -> Forall tx_ok v ->
  block_effect h v u = Some (undos, u') -> cache_abs c = u' ->
  exists c', disconnect_loop h (rev (zip_with undo_of v undos)) fClean c = Ok (Some fClean, c') /\ cache_inv c' /\ cache_abs c' = u /\ cache_best c' = cache_best c.
Proof.
  induction v as [|tx v IH]; intros u undos u' fClean c Hh Hc Hok Hf Hall He Ha; cbn [block_effect] in He.
  { injection He as <- <-. exists c. by split_and!. }
  apply Forall_cons_1 in Hall as [Htx Hall]. destruct (tx_effect h tx u) as [[coins u1]|] eqn:E1; [|done]. cbn in He.
  destruct (block_effect h v u1) as [[undos' u2]|] eqn:E2; [|done]. cbn in He. injection He as <- <-. cbn [zip_with rev].
  assert (Ho : Forall (fun x => CTxOut_IsNull x = false) (vout tx)) by (apply (bf_outputs _ _ Hf); apply list_elem_of_here).
  destruct (IH u1 undos' u2 fClean c Hh Hc (coins_ok_effect _ _ _ _ _ Hh Htx Ho Hok E1) (block_fresh_next _ _ _ _ _ _ Hf E1) Hall E2 Ha)
    as (c1 & E3 & Hc1 & Ha1 & Hb1).
  rewrite disconnect_loop_app, E3. cbn [mbind result_bind].
  destruct (disconnect_tx_ok h tx fClean c1 u u1 coins ltac:(lia) Hc1 Hok (block_fresh_first _ _ _ Hf) E1 Ha1) as (c2 & -> & Hc2 & Ha2 & Hb2).
  exists c2. by split_and!; [..|congruence].
Qed.
End ViewLemmas.

(** ** The rules a block's transactions follow *)

Section Rules.
Context (env : ScriptEnv) (h : Heap) (pindex : Ptr) (nLockTimeFlags flags : Z) (fScriptChecks : bool) (scripts : gset uint256).
Abbreviation height := (Chain.nHeight (at_ h pindex)).

(** The cost of the signature operations, with the outputs spent. *)
Definition p2sh_sigops (v : list CTxIn) (coins : list Cash) : Z :=
  foldl (fun n ic => if IsPayToScriptHash (scriptPubKey (out ic.2))
                     then u32 (n + GetSigOpCount_P2SH (scriptPubKey (out ic.2)) (scriptSig ic.1)) else n) 0 (zip v coins).

Definition witness_sigops (i : CTxIn) (cash : Cash) : Z :=
  match CountWitnessSigOps (scriptSig i) (scriptPubKey (out cash)) (scriptWitness i) flags with Ok n => n | Throw _ => 0 end.

Definition sig_cost (tx : CTransaction) (coins : list Cash) : Z :=
  let n := u32 (GetLegacySigOpCount tx * WITNESS_SCALE_FACTOR) in
  if IsCashBase tx then n
  else
    let n := if flag_on flags SCRIPT_VERIFY_P2SH then i64 (n + u32 (p2sh_sigops (vin tx) coins * WITNESS_SCALE_FACTOR)) else n in
    foldl (fun n ic => i64 (n + witness_sigops ic.1 ic.2)) n (zip (vin tx) coins).

(** The script checks of a transaction. *)
Definition tx_checks (tx : CTransaction) (d : PrecomputedTransactionData) (coins : list Cash) : list CScriptCheck :=
  imap (fun j cash => mkCScriptCheck (out cash) tx (Z.of_nat j) flags d) coins.

Definition check_passes (k : CScriptCheck) : Prop := run_check env k = Ok true.

Definition scripts_pass (tx : CTransaction) (coins : list Cash) : Prop :=
  fScriptChecks = true -> IsCashBase tx = false -> hashCacheEntry env tx flags ∉ scripts ->
  exists d, PrecomputedTransactionData_of tx = Ok d /\ Forall check_passes (tx_checks tx d coins).

(** The inputs of a transaction with the fees before and after it. *)
Definition inputs_connect (u : utxo) (tx : CTransaction) (fees fees' : CAmount) : Prop :=
  if IsCashBase tx then fees' = fees
  else exists fee coins locks, inputs_ok u tx height fee /\ spends u (vin tx) coins /\ fees' = fees + fee /\ fees' <= MAX_MONEY /\
    SequenceLocks h tx nLockTimeFlags (map Cash.nHeight coins) pindex = Ok (true, locks).

(** Transactions that may be connected to a set, from the fees and cost so far. *)
Fixpoint txs_connect (v : list CTransaction) (u : utxo) (fees ops : Z) (u' : utxo) (undo : list (list Cash)) (fees' : CAmount) : Prop :=
  match v with
  | [] => u' = u /\ undo = [] /\ fees' = fees
  | tx :: v =>
      exists coins u1 fees1 undo1, undo = coins :: undo1 /\ tx_effect height tx u = Some (coins, u1) /\ inputs_connect u tx fees fees1 /\
        i64 (ops + sig_cost tx coins) <= MAX_BLOCK_SIGOPS_COST /\ scripts_pass tx coins /\
        txs_connect v u1 fees1 (i64 (ops + sig_cost tx coins)) u' undo1 fees'
  end.

Lemma txs_connect_effect v : forall u fees ops u' undo fees', txs_connect v u fees ops u' undo fees' -> block_effect height v u = Some (undo, u').
Proof.
  induction v as [|tx v IH]; intros u fees ops u' undo fees' Hv; cbn [txs_connect block_effect] in *; [by destruct Hv as (-> & -> & _)|].
  destruct Hv as (coins & u1 & fees1 & undo1 & -> & -> & _ & _ & _ & Hv). cbn. by rewrite (IH _ _ _ _ _ _ Hv).
Qed.

(** The node's state at the block. *)
Record node_ok : Prop := {
  no_heap : heap_ok h;
  no_times : times_ok h;
  no_index : is_Some (h !! pindex);
  no_height : 0 < height < 2 ^ 30;
  no_prev : is_Some (pprev (at_ h pindex));
  no_flags : flags_legal flags;
}.
Context (Hnode : node_ok).

Lemma masked_flags_legal : flags_legal (Z.land flags (u32 (Z.lnot STANDARD_NOT_MANDATORY_VERIFY_FLAGS))).
Proof.
  unfold flags_legal, flag_on. rewrite <- !Z.land_assoc.
  change (Z.land (u32 (Z.lnot STANDARD_NOT_MANDATORY_VERIFY_FLAGS)) SCRIPT_VERIFY_CLEANSTACK) with 0.
  change (Z.land (u32 (Z.lnot STANDARD_NOT_MANDATORY_VERIFY_FLAGS)) SCRIPT_VERIFY_WITNESS) with 0.
  rewrite Z.land_0_r. done.
Qed.

Lemma SequenceLocks_total tx heights : length heights = length (vin tx) -> Forall (fun n => 0 <= n <= height) heights ->
  exists b locks, SequenceLocks h tx nLockTimeFlags heights pindex = Ok (b, locks).
Proof.
  intros Hl Hh. unfold SequenceLocks, CalculateSequenceLocks, EvaluateSequenceLocks.
  assert ((zlen heights =? zlen (vin tx)) = true) as -> by (unfold zlen; rewrite Hl; apply Z.eqb_refl). cbn [assert_then].
  destruct (no_prev Hnode) as [prev ->]. destruct (negb _); [by do 2 eexists|].
  destruct (sequence_locks_loop_ok h pindex (no_heap Hnode) (no_times Hnode) (no_index Hnode) ltac:(apply (no_height Hnode)) (vin tx) heights (-1) (-1) Hl Hh)
    as (mh & mt & hs & -> & _). cbn [mbind result_bind]. by do 2 eexists.
Qed.

(** A check of an input always returns. *)
Lemma run_check_total tx j i cash fl d : tx_ok tx -> vin tx !! j = Some i -> bytes_ok (scriptPubKey (out cash)) -> flags_legal fl ->
  PrecomputedTransactionData_of tx = Ok d -> exists b, run_check env (mkCScriptCheck (out cash) tx (Z.of_nat j) fl d) = Ok b.
Proof.
  intros Htx Hi Hb Hf Hd. unfold run_check. cbn [ptxTo check_nIn nFlags m_tx_out check_txdata]. unfold at_index. rewrite Nat2Z.id, Hi. cbn [mbind result_bind].
  destruct (verify_returns (CheckLowS env) (Caching_VerifySignature (ecdsa_verify env) (signatureCache_nonce env) (signatureCache env)) fl tx (Z.of_nat j) i
    (nValue (out cash)) (Some d) (scriptPubKey (out cash)) Htx ltac:(lia)) as (r & Hr); [by rewrite Nat2Z.id|done|done|right; by exists d|].
  unfold CachingTransactionSignatureChecker. rewrite Hr. by eexists.
Qed.

Section RulesView.
Context {S : Type} `{!CashView S} `{!CashViewOk S} `{!ScriptMemory} `{!ScriptMemoryOk}.
Implicit Types (c : CCashViewCache S).

Lemma prev_heights_ok v coins : forall c, cache_inv c -> spends (cache_abs c) v coins ->
  exists c', prev_heights v c = (map Cash.nHeight coins, c') /\ same_view c c'.
Proof.
  revert coins; induction v as [|i v IH]; intros coins c Hc Hs.
  { apply Forall2_nil_inv_l in Hs as ->. exists c. split; [done|by apply same_view_refl]. }
  apply Forall2_cons_inv_l in Hs as (cash & coins' & Hi & Hs & ->). cbn [prev_heights map].
  pose proof (AccessCash_ok c (prevout i) Hc) as Ha. destruct (AccessCash (prevout i) c) as [r c1]. destruct Ha as [Hr Hs1].
  rewrite Hi in Hr. apply unspent_Some in Hr as [-> _]. pose proof Hs1 as (Hc1 & Ha1 & _).
  destruct (IH coins' c1 Hc1) as (c2 & -> & Hs2); [by rewrite Ha1|]. exists c2. split; [done|by eapply same_view_trans].
Qed.

Lemma coins_ok_heights u v coins : coins_ok height u -> spends u v coins -> Forall (fun n => 0 <= n <= height) (map Cash.nHeight coins).
Proof.
  intros Hok. induction 1 as [|i cash v coins Hi _ IH]; constructor; [|done]. destruct (Hok _ _ Hi) as (_ & _ & ? & _). lia.
Qed.

Lemma coins_ok_range u : coins_ok height u -> heights_ok u.
Proof. intros Hok o cash Ho. destruct (Hok _ _ Ho) as (_ & _ & ? & _). pose proof (no_height Hnode). lia. Qed.

Lemma connect_inputs_ok tx fees c : cache_inv c -> coins_ok height (cache_abs c) -> CheckTransaction tx false = Valid tt -> 0 <= fees <= MAX_MONEY ->
  exists v, connect_inputs h pindex nLockTimeFlags tx fees c = Ok v /\
    match v with
    | Valid (fees', c') => same_view c c' /\ inputs_connect (cache_abs c) tx fees fees'
    | Invalid _ => forall fees', ~ inputs_connect (cache_abs c) tx fees fees'
    end.
Proof.
  intros Hc Hok Htx Hfees. unfold connect_inputs, inputs_connect. destruct (IsCashBase tx) eqn:Ecb.
  { eexists. split; [done|]. split; [by apply same_view_refl|done]. }
  apply CheckTransaction_money in Htx as [Hm Hs]. pose proof (no_height Hnode).
  destruct (CheckTxInputs_ok tx height c ltac:(lia) Hc (coins_ok_range _ Hok) Ecb Hm Hs) as (r & c1 & -> & Hs1 & Hr). cbn [mbind result_bind].
  destruct r as [fee|r]; cbn [check].
  2:{ eexists. split; [done|]. intros fees' (fee & coins & locks & Hi & _). by apply Hr in Hi. }
  pose proof (proj1 (Hr fee) eq_refl) as Hi. pose proof Hi as (coins & Hsp & _ & Hmo & Hle & Hout & Efee).
  pose proof (money_sum_nonneg _ Hmo). pose proof (zsum_nonneg _ (money_vout_nonneg _ Hm)).
  rewrite i64_small by (unfold is_i64, MAX_MONEY, CASH in *; lia).
  destruct (MoneyRange (fees + fee)) eqn:Em; cbn [negb].
  2:{ eexists. split; [done|]. intros fees' (fee' & coins' & locks & Hi' & _ & -> & Hmax & _). apply Hr in Hi'. injection Hi' as <-.
      assert (MoneyRange (fees + fee) = true) by (apply MoneyRange_spec; lia). congruence. }
  apply MoneyRange_spec in Em. pose proof Hs1 as (Hc1 & Ha1 & _).
  destruct (prev_heights_ok (vin tx) coins c1 Hc1) as (c2 & -> & Hs2); [by rewrite Ha1|].
  destruct (SequenceLocks_total tx (map Cash.nHeight coins)) as (b & locks & El);
    [rewrite length_map; symmetry; apply (Forall2_length Hsp)|by eapply coins_ok_heights|].
  rewrite El. cbn [mbind result_bind]. eexists. split; [done|]. destruct b; cbn [negb].
  - split; [by eapply same_view_trans|]. exists fee, coins, locks. by split_and!; [..|lia|].
  - intros fees' (fee' & coins' & locks' & _ & Hsp' & _ & _ & El'). rewrite (spends_unique _ _ _ _ Hsp' Hsp), El in El'. discriminate El'.
Qed.

(** ** Signature operations *)

Lemma P2SHSigOps_ok v coins : forall n c, cache_inv c -> spends (cache_abs c) v coins ->
  exists c', P2SHSigOps_loop v n c =
    Ok (foldl (fun n ic => if IsPayToScriptHash (scriptPubKey (out ic.2))
                     then u32 (n + GetSigOpCount_P2SH (scriptPubKey (out ic.2)) (scriptSig ic.1)) else n) n (zip v coins), c') /\ same_view c c'.
Proof.
  revert coins; induction v as [|i v IH]; intros coins n c Hc Hs.
  { apply Forall2_nil_inv_l in Hs as ->. exists c. split; [done|by apply same_view_refl]. }
  apply Forall2_cons_inv_l in Hs as (cash & coins' & Hi & Hs & ->). cbn [P2SHSigOps_loop].
  destruct (access_unspent_ok c (prevout i) cash Hc Hi) as (c1 & -> & Hs1). cbn [mbind result_bind]. pose proof Hs1 as (Hc1 & Ha1 & _).
  edestruct (IH coins') as (c2 & -> & Hs2); [done|by rewrite Ha1|]. exists c2. split; [done|by eapply same_view_trans].
Qed.

Lemma CountWitnessSigOps_total sig pub wit : exists n, CountWitnessSigOps sig pub wit flags = Ok n.
Proof.
  unfold CountWitnessSigOps. destruct (flag_on flags SCRIPT_VERIFY_WITNESS) eqn:E; cbn [negb]; [|by eexists].
  rewrite (proj2 (no_flags Hnode) E). by eexists.
Qed.

Lemma WitnessSigOps_ok v coins : forall n c, cache_inv c -> spends (cache_abs c) v coins ->
  exists c', WitnessSigOps_loop flags v n c = Ok (foldl (fun n ic => i64 (n + witness_sigops ic.1 ic.2)) n (zip v coins), c') /\ same_view c c'.
Proof.
  revert coins; induction v as [|i v IH]; intros coins n c Hc Hs.
  { apply Forall2_nil_inv_l in Hs as ->. exists c. split; [done|by apply same_view_refl]. }
  apply Forall2_cons_inv_l in Hs as (cash & coins' & Hi & Hs & ->). cbn [WitnessSigOps_loop].
  destruct (access_unspent_ok c (prevout i) cash Hc Hi) as (c1 & -> & Hs1). cbn [mbind result_bind]. pose proof Hs1 as (Hc1 & Ha1 & _).
  destruct (CountWitnessSigOps_total (scriptSig i) (scriptPubKey (out cash)) (scriptWitness i)) as (w & Ew). rewrite Ew. cbn [mbind result_bind].
  edestruct (IH coins') as (c2 & -> & Hs2); [done|by rewrite Ha1|]. exists c2. cbn [zip zip_with foldl fst snd].
  assert (witness_sigops i cash = w) as -> by (unfold witness_sigops; by rewrite Ew). split; [done|by eapply same_view_trans].
Qed.

Lemma GetTransactionSigOpCost_ok tx coins c : cache_inv c -> spends (cache_abs c) (tx_inputs tx) coins ->
  exists c', GetTransactionSigOpCost tx flags c = Ok (sig_cost tx coins, c') /\ same_view c c'.
Proof.
  intros Hc Hs. unfold GetTransactionSigOpCost, sig_cost, GetP2SHSigOpCount, tx_inputs in *. destruct (IsCashBase tx); [exists c; split; [done|by apply same_view_refl]|].
  destruct (flag_on flags SCRIPT_VERIFY_P2SH).
  - destruct (P2SHSigOps_ok (vin tx) coins 0 c Hc Hs) as (c1 & -> & Hs1). cbn [mbind result_bind mret result_ret]. pose proof Hs1 as (Hc1 & Ha1 & _).
    edestruct (WitnessSigOps_ok (vin tx) coins) as (c2 & -> & Hs2); [done|by rewrite Ha1|]. exists c2. split; [done|by eapply same_view_trans].
  - cbn [mbind result_bind mret result_ret]. by apply WitnessSigOps_ok.
Qed.

(** ** Script checks *)

Definition checks_from (k : nat) (tx : CTransaction) (d : PrecomputedTransactionData) (coins : list Cash) : list CScriptCheck :=
  imap (fun j cash => mkCScriptCheck (out cash) tx (Z.of_nat (k + j)) flags d) coins.

Lemma checks_from_cons k tx d cash coins :
  checks_from k tx d (cash :: coins) = mkCScriptCheck (out cash) tx (Z.of_nat k) flags d :: checks_from (Datatypes.S k) tx d coins.
Proof.
  unfold checks_from. cbn [imap]. f_equal; [by rewrite Nat.add_0_r|]. apply imap_ext. intros j x _. unfold compose. do 2 f_equal. lia.
Qed.

Definition returns (k : CScriptCheck) : Prop := exists b, run_check env k = Ok b.

Lemma script_loop_ok tx d queue v coins : forall k vChecks c, tx_ok tx -> PrecomputedTransactionData_of tx = Ok d ->
  v = drop k (vin tx) -> cache_inv c -> coins_ok height (cache_abs c) -> spends (cache_abs c) v coins ->
  Forall returns (checks_from k tx d coins) /\
  exists r, script_loop env tx flags d queue v (Z.of_nat k) vChecks c = Ok r /\
    match r with
    | Valid (checks, c') => same_view c c' /\
        if queue then checks = vChecks ++ checks_from k tx d coins else checks = vChecks /\ Forall check_passes (checks_from k tx d coins)
    | Invalid _ => queue = false /\ ~ Forall check_passes (checks_from k tx d coins)
    end.
Proof.
  revert coins; induction v as [|i v IH]; intros coins k vChecks c Htx Hd Hv Hc Hok Hs.
  { apply Forall2_nil_inv_l in Hs as ->. split; [constructor|]. eexists. split; [done|]. split; [by apply same_view_refl|].
    destruct queue; [by rewrite app_nil_r|split; [done|constructor]]. }
  apply Forall2_cons_inv_l in Hs as (cash & coins' & Hi & Hs & ->). rewrite checks_from_cons.
  assert (Hk : vin tx !! k = Some i) by (rewrite <- (Nat.add_0_r k), <- lookup_drop, <- Hv; done).
  assert (Hb : bytes_ok (scriptPubKey (out cash))) by (by destruct (Hok _ _ Hi) as (_ & _ & _ & ?)).
  destruct (run_check_total tx k i cash flags d Htx Hk Hb (no_flags Hnode) Hd) as (b & Eb).
  cbn [script_loop]. destruct (access_unspent_ok c (prevout i) cash Hc Hi) as (c1 & -> & Hs1). cbn [mbind result_bind]. pose proof Hs1 as (Hc1 & Ha1 & _).
  assert (Hv' : v = drop (Datatypes.S k) (vin tx)) by (rewrite <- Nat.add_1_r, <- drop_drop, <- Hv; done).
  replace (Z.of_nat k + 1) with (Z.of_nat (Datatypes.S k)) by lia.
  assert (Hok1 : coins_ok height (cache_abs c1)) by (by rewrite Ha1). rewrite <- Ha1 in Hs.
  pose proof (fun vc => IH coins' (Datatypes.S k) vc c1 Htx Hd Hv' Hc1 Hok1 Hs) as IH'.
  split; [constructor; [by exists b|by apply (IH' [])]|]. destruct queue.
  - destruct (IH' (vChecks ++ [mkCScriptCheck (out cash) tx (Z.of_nat k) flags d])) as (_ & r & -> & Hr). exists r. split; [done|].
    destruct r as [[checks c2]|]; [|by destruct Hr]. destruct Hr as [Hs2 ->]. split; [by eapply same_view_trans|]. by rewrite <- app_assoc.
  - rewrite Eb. cbn [mbind result_bind]. destruct b.
    + destruct (IH' vChecks) as (_ & r & -> & Hr). exists r. split; [done|]. destruct r as [[checks c2]|].
      * destruct Hr as (Hs2 & -> & Hp). split; [by eapply same_view_trans|]. split; [done|]. by constructor.
      * destruct Hr as [_ Hr]. split; [done|]. by intros [_ ?]%Forall_cons_1.
    + assert (Hno : ~ Forall check_passes (mkCScriptCheck (out cash) tx (Z.of_nat k) flags d :: checks_from (Datatypes.S k) tx d coins')).
      { intros [Hp _]%Forall_cons_1. unfold check_passes in Hp. rewrite Eb in Hp. discriminate Hp. }
      destruct (run_check_total tx k i cash _ d Htx Hk Hb masked_flags_legal Hd) as (b2 & Eb2). rewrite Eb2.
      destruct (negb _); cbn [mbind result_bind]; [destruct b2|]; eexists; (split; [done|]); by split.
Qed.

Lemma CheckInputs_ok tx coins d queue c : tx_ok tx -> PrecomputedTransactionData_of tx = Ok d ->
  cache_inv c -> coins_ok height (cache_abs c) -> spends (cache_abs c) (tx_inputs tx) coins ->
  exists r, CheckInputs env tx fScriptChecks flags false d queue scripts c = Ok r /\
    match r with
    | Valid (checks, c', scripts') => same_view c c' /\ scripts' = scripts /\ Forall returns checks /\
        (Forall check_passes checks <-> scripts_pass tx coins)
    | Invalid _ => ~ scripts_pass tx coins
    end.
Proof.
  intros Htx Hd Hc Hok Hs. unfold CheckInputs, tx_inputs in *.
  assert (Hskip : (fScriptChecks = true -> IsCashBase tx = false -> hashCacheEntry env tx flags ∉ scripts -> False) ->
    exists r, Ok (Valid ([], c, scripts)) = Ok r /\ match r with
      | Valid (checks, c', scripts') => same_view c c' /\ scripts' = scripts /\ Forall returns checks /\ (Forall check_passes checks <-> scripts_pass tx coins)
      | Invalid _ => ~ scripts_pass tx coins end).
  { intros Hno. eexists. split; [done|]. split_and!; [by apply same_view_refl|done|constructor|]. split; [|constructor]. intros _ H1 H2 H3. by destruct Hno. }
  destruct (IsCashBase tx) eqn:Ecb; cbn [orb]; [by apply Hskip|]. destruct fScriptChecks eqn:Ef; cbn [negb]; [|by apply Hskip].
  case_bool_decide as Hin; [by apply Hskip|]. clear Hskip.
  destruct (script_loop_ok tx d queue (vin tx) coins 0 [] c Htx Hd eq_refl Hc Hok Hs) as (Hret & r & Er & Hr).
  change (Z.of_nat 0) with 0 in Er. rewrite Er. cbn [mbind result_bind].
  assert (Hiff : scripts_pass tx coins <-> Forall check_passes (checks_from 0 tx d coins)).
  { split; [|by exists d]. intros Hp. destruct Hp as (d' & Hd' & Hp); [done..|]. rewrite Hd in Hd'. apply (inj Ok) in Hd' as <-. exact Hp. }
  destruct r as [[checks c']|r]; cbn [check]; (eexists; split; [done|]).
  - cbn [fst snd andb]. destruct Hr as [Hs1 Hr]. rewrite Hiff. split_and!; [done|done| |]; destruct queue; cbn [app] in Hr.
    + by subst.
    + destruct Hr as [-> _]. constructor.
    + by subst.
    + destruct Hr as [-> Hp]. split; [done|constructor].
  - destruct Hr as [_ Hr]. by rewrite Hiff.
Qed.

(** ** A transaction *)

Definition tx_fine (tx : CTransaction) : Prop := tx_ok tx /\ CheckTransaction tx false = Valid tt.

Lemma tx_fine_null tx : tx_fine tx -> Forall (fun x => CTxOut_IsNull x = false) (vout tx).
Proof.
  intros [_ [Hm _]%CheckTransaction_money]. eapply Forall_impl; [|exact Hm]. intros x Hx%MoneyRange_spec. unfold CTxOut_IsNull. apply Z.eqb_neq. lia.
Qed.

Lemma tx_fine_vin tx : tx_fine tx -> vin tx <> [].
Proof. intros [_ Hc] E. unfold CheckTransaction in Hc. by rewrite E in Hc. Qed.

Lemma block_shape_ok v : one_cashbase v -> Forall tx_fine v -> ~ hash_collision (map (serialized false) v) ->
  (forall tx, tx ∈ v -> NoDup (map prevout (tx_inputs tx))) -> block_shape v.
Proof.
  intros (cb & rest & -> & _ & Hrest) Hall Hno Honce. pose proof Hall as Hall'. rewrite Forall_forall in Hall'.
  split; [|done| |done|].
  - apply same_id_inputs; [|by eapply Forall_impl; [|exact Hall]; apply tx_fine_vin|done]. eapply Forall_impl; [|exact Hall]. by intros tx [].
  - intros tx Hin%list_elem_of_In _. by apply tx_fine_vin, Hall'.
  - intros tx Hin%list_elem_of_In. by apply tx_fine_null, Hall'.
Qed.

Lemma inputs_connect_spends u tx fees fees' : inputs_connect u tx fees fees' -> exists coins, spends u (tx_inputs tx) coins.
Proof. unfold inputs_connect, tx_inputs. destruct (IsCashBase tx); [exists []; constructor|]. intros (? & coins & ? & _ & Hs & _). by exists coins. Qed.

Lemma inputs_connect_range u tx fees fees' : 0 <= fees <= MAX_MONEY -> inputs_connect u tx fees fees' -> 0 <= fees' <= MAX_MONEY.
Proof.
  unfold inputs_connect. destruct (IsCashBase tx); [by intros ? ->|]. intros Hf (fee & coins & locks & (l & _ & _ & _ & _ & Ho & ->) & _ & -> & Hle & _). lia.
Qed.

Lemma inputs_connect_fun u tx fees f1 f2 : inputs_connect u tx fees f1 -> inputs_connect u tx fees f2 -> f1 = f2.
Proof.
  unfold inputs_connect. destruct (IsCashBase tx); [congruence|].
  intros (fee & c1 & l1 & (k1 & Hs1 & _ & _ & _ & _ & ->) & _ & -> & _) (fee' & c2 & l2 & (k2 & Hs2 & _ & _ & _ & _ & ->) & _ & -> & _).
  by rewrite (spends_unique _ _ _ _ Hs1 Hs2).
Qed.

Lemma txs_connect_fun v : forall u fees ops u1 un1 f1 u2 un2 f2,
  txs_connect v u fees ops u1 un1 f1 -> txs_connect v u fees ops u2 un2 f2 -> f1 = f2.
Proof.
  induction v as [|tx v IH]; intros u fees ops u1 un1 f1 u2 un2 f2; cbn [txs_connect]; [by intros (_ & _ & ->) (_ & _ & ->)|].
  intros (c1 & a1 & b1 & d1 & _ & E1 & I1 & _ & _ & R1) (c2 & a2 & b2 & d2 & _ & E2 & I2 & _ & _ & R2). rewrite E1 in E2. injection E2 as <- <-.
  rewrite (inputs_connect_fun _ _ _ _ _ I2 I1) in R2. by eapply IH.
Qed.

Section Loop.
Context (threads : bool).

Lemma connect_tx_ok first tx (st : Connecting) : tx_fine tx -> cache_inv (cn_view st) -> coins_ok height (cache_abs (cn_view st)) ->
  (forall coins, spends (cache_abs (cn_view st)) (tx_inputs tx) coins -> block_fresh (cache_abs (cn_view st)) [tx]) ->
  cn_scripts st = scripts -> 0 <= cn_fees st <= MAX_MONEY ->
  let u := cache_abs (cn_view st) in
  exists r, connect_tx env h pindex nLockTimeFlags flags fScriptChecks false threads first tx st = Ok r /\
    match r with
    | Valid st' => exists coins checks, tx_effect height tx u = Some (coins, cache_abs (cn_view st')) /\ cache_inv (cn_view st') /\
        cache_best (cn_view st') = cache_best (cn_view st) /\
        inputs_connect u tx (cn_fees st) (cn_fees st') /\ cn_sigops st' = i64 (cn_sigops st + sig_cost tx coins) /\
        cn_sigops st' <= MAX_BLOCK_SIGOPS_COST /\ cn_scripts st' = scripts /\
        cn_undo st' = (if first then cn_undo st else cn_undo st ++ [mkCTxUndo coins]) /\
        cn_checks st' = cn_checks st ++ checks /\ Forall returns checks /\ (Forall check_passes checks <-> scripts_pass tx coins)
    | Invalid _ => forall coins u1 fees', tx_effect height tx u = Some (coins, u1) -> inputs_connect u tx (cn_fees st) fees' ->
        i64 (cn_sigops st + sig_cost tx coins) <= MAX_BLOCK_SIGOPS_COST -> ~ scripts_pass tx coins
    end.
Proof.
  intros [Htx Hck] Hc Hok Hfr Hsc Hfees u. unfold connect_tx.
  destruct (connect_inputs_ok tx (cn_fees st) (cn_view st) Hc Hok Hck Hfees) as (v & -> & Hv). cbn [mbind result_bind].
  destruct v as [[nFees c1]|r]; cbn [check]; [|eexists; split; [done|]; intros coins u1 fees' _ Hi; by destruct (Hv fees')].
  destruct Hv as [Hs1 Hin]. pose proof Hs1 as (Hc1 & Ha1 & Hb1). destruct (inputs_connect_spends _ _ _ _ Hin) as [coins Hs]. fold u in Ha1, Hs, Hok, Hfr, Hin.
  rewrite <- Ha1 in Hs. destruct (GetTransactionSigOpCost_ok tx coins c1 Hc1 Hs) as (c2 & -> & Hs2). cbn [mbind result_bind]. pose proof Hs2 as (Hc2 & Ha2 & Hb2).
  rewrite Ha1 in Ha2, Hs. specialize (Hfr coins Hs).
  assert (Heff : tx_effect height tx u = Some (coins, add_outputs (GetHash tx) 0 (vout tx) height (IsCashBase tx) (spend_inputs (tx_inputs tx) u))) by (by apply tx_effect_spends).
  destruct (Z.ltb_spec MAX_BLOCK_SIGOPS_COST (i64 (cn_sigops st + sig_cost tx coins))) as [Hops|Hops].
  { eexists. split; [done|]. intros coins' u1 fees' He _ Hle. rewrite Heff in He. injection He as <- _. lia. }
  destruct (precomputed_ok tx) as (d & Hd & _). rewrite Hd. cbn [mbind result_bind]. rewrite Hsc.
  destruct (CheckInputs_ok tx coins d threads c2 Htx Hd Hc2) as (r & -> & Hr); [by rewrite Ha2..|]. cbn [mbind result_bind].
  destruct r as [[[checks c3] sc']|r]; cbn [check].
  2:{ eexists. split; [done|]. intros coins' u1 fees' He _ _. rewrite Heff in He. injection He as <- _. exact Hr. }
  destruct Hr as (Hs3 & -> & Hret & Hiff). pose proof Hs3 as (Hc3 & Ha3 & Hb3). rewrite Ha2 in Ha3.
  pose proof Heff as Heff3. rewrite <- Ha3 in Heff3, Hfr.
  destruct (UpdateCash_ok tx height c3 coins _ Hc3 Hfr Heff3) as (c4 & -> & Hc4 & Ha4 & Hb4). rewrite Ha3 in Ha4. cbn [mbind result_bind].
  eexists. split; [done|]. exists coins, checks. cbn [cn_view cn_fees cn_sigops cn_scripts cn_undo cn_checks].
  rewrite Ha4. split_and!; done || congruence.
Qed.

Lemma connect_loop_ok v : forall first past (st : Connecting), Forall tx_fine v -> cache_inv (cn_view st) -> coins_ok height (cache_abs (cn_view st)) ->
  block_shape (past ++ v) -> block_inv (cache_abs (cn_view st)) past v -> cn_scripts st = scripts -> 0 <= cn_fees st <= MAX_MONEY ->
  exists r, connect_loop env h pindex nLockTimeFlags flags fScriptChecks false threads first v st = Ok r /\
    match r with
    | Valid st' => exists undo checks, cache_inv (cn_view st') /\ cache_best (cn_view st') = cache_best (cn_view st) /\
        cn_undo st' = cn_undo st ++ map mkCTxUndo (if first : bool then tail undo else undo) /\ cn_scripts st' = scripts /\
        0 <= cn_fees st' <= MAX_MONEY /\ cn_checks st' = cn_checks st ++ checks /\ Forall returns checks /\
        (Forall check_passes checks -> txs_connect v (cache_abs (cn_view st)) (cn_fees st) (cn_sigops st) (cache_abs (cn_view st')) undo (cn_fees st')) /\
        (forall u' un f', txs_connect v (cache_abs (cn_view st)) (cn_fees st) (cn_sigops st) u' un f' -> Forall check_passes checks)
    | Invalid _ => forall u' un f', ~ txs_connect v (cache_abs (cn_view st)) (cn_fees st) (cn_sigops st) u' un f'
    end.
Proof.
  induction v as [|tx v IH]; intros first past st Hall Hc Hok Hsh Hfr Hsc Hfees; cbn [connect_loop txs_connect].
  { eexists. split; [done|]. exists [], []. rewrite app_nil_r. split_and!; try done; [destruct first; by rewrite app_nil_r|lia|lia]. }
  apply Forall_cons_1 in Hall as [Htx Hall]. pose proof (no_height Hnode) as Hh.
  destruct (connect_tx_ok first tx st Htx Hc Hok (fun coins => block_inv_fresh _ _ _ _ coins Hsh Hfr) Hsc Hfees) as (r & -> & Hr). cbn [mbind result_bind].
  destruct r as [st1|r]; cbn [check].
  2:{ eexists. split; [done|]. intros u' un f' (coins & u1 & f1 & un1 & _ & He & Hi & Ho & Hp & _). by eapply Hr. }
  destruct Hr as (coins & checks & He & Hc1 & Hb1 & Hin & Eops & Hops & Esc & Eundo & Ech & Hret & Hiff).
  assert (Hok1 : coins_ok height (cache_abs (cn_view st1))) by (eapply coins_ok_effect; [..|exact Hok|exact He]; [lia|apply Htx|by apply tx_fine_null]).
  pose proof (block_inv_next _ _ _ _ _ _ _ Hsh Hfr He) as Hfr1. change (tx :: v) with ([tx] ++ v) in Hsh. rewrite app_assoc in Hsh.
  destruct (IH false (past ++ [tx]) st1 Hall Hc1 Hok1 Hsh Hfr1 Esc (inputs_connect_range _ _ _ _ Hfees Hin)) as (r & -> & Hr).
  exists r. split; [done|]. destruct r as [st2|r].
  - destruct Hr as (undo & checks2 & Hc2 & Hb2 & Eundo2 & Esc2 & Hf2 & Ech2 & Hret2 & Hfwd & Hbwd).
    exists (coins :: undo), (checks ++ checks2). split_and!; try done; try lia.
    + congruence.
    + rewrite Eundo2, Eundo. destruct first; [done|]. by rewrite <- app_assoc.
    + by rewrite Ech2, Ech, app_assoc.
    + by apply Forall_app.
    + intros [Hp1 Hp2]%Forall_app. exists coins, (cache_abs (cn_view st1)), (cn_fees st1), undo. rewrite <- Eops.
      split_and!; [done|done|done|done|by apply Hiff|by apply Hfwd].
    + intros u' un f' (coins' & u1 & f1 & un1 & _ & He' & Hi' & _ & Hp & Hrest). rewrite He in He'. injection He' as <- <-.
      rewrite (inputs_connect_fun _ _ _ _ _ Hi' Hin), <- Eops in Hrest. apply Forall_app. split; [by apply Hiff|by eapply Hbwd].
  - intros u' un f' (coins' & u1 & f1 & un1 & _ & He' & Hi' & _ & _ & Hrest). rewrite He in He'. injection He' as <- <-.
    rewrite (inputs_connect_fun _ _ _ _ _ Hi' Hin), <- Eops in Hrest. by eapply Hr.
Qed.

Lemma run_checks_ok l : Forall returns l -> exists b, run_checks env l = Ok b /\ (b = true <-> Forall check_passes l).
Proof.
  induction 1 as [|k l [b Hb] _ (b' & Hb' & IH)]; cbn [run_checks]; [by exists true|]. rewrite Hb. cbn [mbind result_bind]. destruct b.
  - exists b'. split; [done|]. rewrite IH, Forall_cons_iff. split; [by split|by intros [_ ?]].
  - exists false. split; [done|]. split; [done|]. intros [Hp _]%Forall_cons_1. unfold check_passes in Hp. rewrite Hb in Hp. discriminate Hp.
Qed.
End Loop.
End RulesView.
End Rules.
