(* ===== verification/ConnectProps.v ===== *)
(** * Connecting blocks: the whole of ConnectBlock, its inverse, and the supply *)
From S2P Require Import Prelude Serialize Amount Crypto Script Transaction Cash ArithUint256 Block Chain Pow VersionBits Merkle.
From S2P Require Import Interpreter InterpreterSafety SigHash TxVerify Compressor CheckBlock Connect ConnectSpec.

#[local] Opaque SHA256 SHA1 RIPEMD160 Hash160 Hash Hash2 GetHash GetWitnessHash CBlockHeader_GetHash.

(** ** The subsidy *)

Lemma subsidy_range n params : 0 <= n -> 0 < nSubsidyHalvingInterval params -> 0 <= GetBlockSubsidy n params <= 50 * CASH.
Proof.
  intros Hn Hi. unfold GetBlockSubsidy. rewrite Z.quot_div_nonneg by lia. pose proof (Z.div_pos n (nSubsidyHalvingInterval params) Hn Hi).
  destruct (Z.leb_spec 64 (n / nSubsidyHalvingInterval params)); [unfold CASH; lia|]. rewrite Z.shiftr_div_pow2 by done.
  set (k := n / nSubsidyHalvingInterval params) in *. pose proof (Z.pow_pos_nonneg 2 k ltac:(lia) ltac:(lia)).
  split; [apply Z.div_pos; [unfold CASH|]; lia|]. apply Z.div_le_upper_bound; [lia|]. unfold CASH. nia.
Qed.

(** The subsidies of the heights below [n]. *)
Fixpoint subsidies (params : Params) (n : nat) : CAmount :=
  match n with
  | O => 0
  | S n => subsidies params n + GetBlockSubsidy (Z.of_nat n) params
  end.

(** The subsidy after [k] halvings, and the sum of the first [k] of them. *)
Definition halved (k : Z) : CAmount := if 64 <=? k then 0 else Z.shiftr (50 * CASH) k.
Fixpoint halved_sum (k : nat) : CAmount := match k with O => 0 | S k => halved_sum k + halved (Z.of_nat k) end.

Lemma subsidies_closed params n : 0 < nSubsidyHalvingInterval params ->
  let I := nSubsidyHalvingInterval params in
  subsidies params n = I * halved_sum (Z.to_nat (Z.of_nat n / I)) + (Z.of_nat n mod I) * halved (Z.of_nat n / I).
Proof.
  intros Hi I. assert (HI : 0 < I) by exact Hi. induction n as [|n IH]; [change (Z.of_nat 0) with 0; rewrite Z.div_0_l, Z.mod_0_l by lia; rewrite Z.mul_0_l, Z.add_0_r; symmetry; apply Z.mul_0_r|]. cbn [subsidies]. rewrite IH.
  assert (GetBlockSubsidy (Z.of_nat n) params = halved (Z.of_nat n / I)) as ->.
  { unfold GetBlockSubsidy, halved. by rewrite Z.quot_div_nonneg by lia. }
  pose proof (Z.div_mod (Z.of_nat n) I ltac:(lia)) as Hd. pose proof (Z.mod_pos_bound (Z.of_nat n) I ltac:(lia)) as Hr.
  pose proof (Z.div_pos (Z.of_nat n) I ltac:(lia) ltac:(lia)) as Hq. set (q := Z.of_nat n / I) in *. set (r := Z.of_nat n mod I) in *.
  destruct (decide (r + 1 = I)) as [E|E].
  - assert (Z.of_nat (S n) / I = q + 1 /\ Z.of_nat (S n) mod I = 0) as [-> ->].
    { rewrite Z.mod_eq by lia. replace (Z.of_nat (S n)) with ((q + 1) * I) by lia. rewrite Z.div_mul by lia. lia. }
    replace (Z.to_nat (q + 1)) with (S (Z.to_nat q)) by lia. cbn [halved_sum]. rewrite Z2Nat.id by lia. lia.
  - assert (Z.of_nat (S n) / I = q /\ Z.of_nat (S n) mod I = r + 1) as [-> ->]; [|lia].
    assert (Z.of_nat (S n) / I = q) as Eq by (symmetry; apply Z.div_unique with (r := r + 1); lia). split; [done|]. rewrite Z.mod_eq, Eq by lia. lia.
Qed.

Lemma halved_sum_S k : halved_sum (S k) = halved_sum k + halved (Z.of_nat k).
Proof. reflexivity. Qed.

Lemma halved_zero k : 33 <= k -> halved k = 0.
Proof.
  intros Hk. unfold halved. destruct (Z.leb_spec 64 k); [done|]. rewrite Z.shiftr_div_pow2 by lia. apply Z.div_small.
  pose proof (Z.pow_le_mono_r 2 33 k ltac:(lia) Hk). unfold CASH. lia.
Qed.

Lemma halved_sum_end k : (33 <= k)%nat -> halved_sum k = halved_sum 33.
Proof.
  induction k as [|k IH]; intros Hk; [lia|]. destruct (decide (S k = 33%nat)) as [->|]; [done|].
  rewrite halved_sum_S, IH, halved_zero by lia. apply Z.add_0_r.
Qed.

(** ** The value in a set of outputs *)

Definition total_value (u : utxo) : Z := map_fold (fun _ cash n => value_of cash + n) 0 u.

Lemma total_insert (u : utxo) o cash : u !! o = None -> total_value (<[o := cash]> u) = value_of cash + total_value u.
Proof. intros Ho. unfold total_value. rewrite map_fold_insert_L; [done| |done]. intros. lia. Qed.

Lemma total_delete (u : utxo) o cash : u !! o = Some cash -> total_value u = value_of cash + total_value (delete o u).
Proof. intros Ho. rewrite <- (insert_delete_id u o cash Ho) at 1. apply total_insert, lookup_delete_eq. Qed.

Lemma total_spend v coins : forall u, NoDup (map prevout v) -> spends u v coins ->
  total_value u = zsum (map value_of coins) + total_value (spend_inputs v u).
Proof.
  revert coins; induction v as [|i v IH]; intros coins u Hn Hs; [by apply Forall2_nil_inv_l in Hs as ->|].
  apply Forall2_cons_inv_l in Hs as (cash & coins' & Hi & Hs & ->). cbn [map] in *. apply list.NoDup_cons in Hn as [Hni Hn].
  rewrite zsum_cons, (total_delete _ _ _ Hi), (IH coins' (delete (prevout i) u) Hn); [unfold spend_inputs; cbn [foldl]; lia|by apply spends_delete].
Qed.

Lemma total_add txid h cb v : forall i u, money_vout v -> (forall k, i <= k < i + zlen v -> u !! mkCOutPoint txid k = None) ->
  total_value (add_outputs txid i v h cb u) <= total_value u + zsum (map nValue v).
Proof.
  induction v as [|x v IH]; intros i u Hm Hu; cbn [add_outputs map]; [unfold zsum; simpl; lia|]. rewrite zlen_cons in Hu. pose proof (zlen_nonneg v).
  apply Forall_cons_1 in Hm as [Hx%MoneyRange_spec Hm]. rewrite zsum_cons. destruct (IsUnspendable _).
  - enough (total_value (add_outputs txid (i + 1) v h cb u) <= total_value u + zsum (map nValue v)) by lia. apply IH; [done|]. intros k Hk. apply Hu. lia.
  - etransitivity; [apply IH; [done|]|].
    + intros k Hk. rewrite lookup_insert_ne by (intros [= ?]; lia). apply Hu. lia.
    + rewrite total_insert by (apply Hu; lia). unfold value_of, Cash_ctor. cbn [out]. lia.
Qed.

(** A transaction adds its outputs' value at most, and takes that of its inputs. *)
Lemma total_effect h tx u coins u' : block_fresh u [tx] -> money_vout (vout tx) -> tx_effect h tx u = Some (coins, u') ->
  total_value u' + zsum (map value_of coins) <= total_value u + zsum (map nValue (vout tx)).
Proof.
  intros [_ Hnew Hin _] Hm [Hs ->]%tx_effect_spends. rewrite (total_spend _ _ u (Hin tx (list_elem_of_here _ _)) Hs).
  enough (total_value (add_outputs (GetHash tx) 0 (vout tx) h (IsCashBase tx) (spend_inputs (tx_inputs tx) u)) <=
    total_value (spend_inputs (tx_inputs tx) u) + zsum (map nValue (vout tx))) by lia.
  apply total_add; [done|]. intros k Hk. rewrite spend_inputs_lookup. case_bool_decide; [done|].
  apply (Hnew tx); [apply list_elem_of_here|]. exists k. split; [lia|done].
Qed.

(** The value the cashbase of a block may take. *)
Definition reward_ok (params : Params) (height : Z) (block : CBlock) (fees : CAmount) : Prop :=
  exists tx rest, vtx block = tx :: rest /\ zsum (map nValue (vout tx)) <= fees + GetBlockSubsidy height params.

Section Supply.
Context (env : ScriptEnv) (h : Heap) (pindex : Ptr) (lock flags : Z) (fsc : bool) (scripts : gset uint256).

(** Transactions that are not cashbases pay their fees out of the set. *)
Lemma total_txs v : forall u fees ops u' undo fees', Forall tx_fine v -> Forall (fun tx => IsCashBase tx = false) v -> block_fresh u v ->
  txs_connect env h pindex lock flags fsc scripts v u fees ops u' undo fees' -> total_value u' + fees' <= total_value u + fees.
Proof.
  induction v as [|tx v IH]; intros u fees ops u' undo fees' Hall Hcb Hfr Hv; cbn [txs_connect] in Hv; [destruct Hv as (-> & _ & ->); lia|].
  destruct Hv as (coins & u1 & fees1 & undo1 & _ & He & Hin & _ & _ & Hv). apply Forall_cons_1 in Hall as [Htx Hall], Hcb as [Ecb Hcb].
  specialize (IH _ _ _ _ _ _ Hall Hcb (block_fresh_next _ _ _ _ _ _ Hfr He) Hv). pose proof He as [Hs _]%tx_effect_spends.
  unfold inputs_connect, tx_inputs in *. rewrite Ecb in *. destruct Hin as (fee & coins' & locks & (l & Hl & _ & _ & _ & _ & ->) & _ & -> & _).
  rewrite (spends_unique _ _ _ _ Hl Hs) in *. destruct Htx as [_ [Hm _]%CheckTransaction_money].
  pose proof (total_effect _ _ _ _ _ (block_fresh_first _ _ _ Hfr) Hm He). lia.
Qed.

Lemma total_block block u u' undo fees params : one_cashbase (vtx block) -> Forall tx_fine (vtx block) -> block_fresh u (vtx block) ->
  txs_connect env h pindex lock flags fsc scripts (vtx block) u 0 0 u' undo fees ->
  reward_ok params (Chain.nHeight (at_ h pindex)) block fees -> total_value u' <= total_value u + GetBlockSubsidy (Chain.nHeight (at_ h pindex)) params.
Proof.
  intros (cb & rest & Ev & Hcb & Hrest) Hall Hfr Hv (cb' & rest' & Ev' & Hrw). rewrite Ev in *. injection Ev' as <- <-. cbn [txs_connect] in Hv.
  destruct Hv as (coins & u1 & fees1 & undo1 & _ & He & Hin & _ & _ & Hv). apply Forall_cons_1 in Hall as [[_ [Hm _]%CheckTransaction_money] Hall].
  pose proof (total_txs _ _ _ _ _ _ _ Hall Hrest (block_fresh_next _ _ _ _ _ _ Hfr He) Hv).
  unfold inputs_connect in Hin. rewrite Hcb in Hin. subst fees1. pose proof (total_effect _ _ _ _ _ (block_fresh_first _ _ _ Hfr) Hm He).
  pose proof He as [Hs _]%tx_effect_spends. unfold tx_inputs in Hs. rewrite Hcb in Hs. apply Forall2_nil_inv_l in Hs as ->. change (zsum (map value_of [])) with 0 in *. lia.
Qed.
End Supply.

(** ** The deployments of a block *)

Record deployments_ok (h : Heap) (params : Params) (caches : VersionBitsCache) : Prop := {
  dep_window : 1 <= i32 (nMinerConfirmationWindow params);
  dep_times : Forall (fun d => nStartTime d <= nTimeout d) (vDeployments params);
  dep_count : (3 <= length (vDeployments params))%nat;
  dep_caches : Forall2 (fun d cache => cache_valid h (VersionBitsConditionChecker params d) cache) (vDeployments params) caches;
}.

(** Whether a deployment is active after [prev], by its definition. *)
Definition rule_active (h : Heap) (params : Params) (prev : option Ptr) (pos : Z) : bool :=
  match vDeployments params !! Z.to_nat pos with
  | Some d => bool_decide (bip9_state h (VersionBitsConditionChecker params d) prev = THRESHOLD_ACTIVE)
  | None => false
  end.

(** The script rules of a block. *)
Definition block_flags (h : Heap) (params : Params) (pindex : Ptr) : Z :=
  let e := at_ h pindex in
  foldl Z.lor SCRIPT_VERIFY_NONE
    [if BIP16Height params <=? Chain.nHeight e then SCRIPT_VERIFY_P2SH else 0;
     if BIP66Height params <=? Chain.nHeight e then SCRIPT_VERIFY_DERSIG else 0;
     if BIP65Height params <=? Chain.nHeight e then SCRIPT_VERIFY_CHECKLOCKTIMEVERIFY else 0;
     if rule_active h params (pprev e) DEPLOYMENT_CSV then SCRIPT_VERIFY_CHECKSEQUENCEVERIFY else 0;
     if rule_active h params (pprev e) DEPLOYMENT_SEGWIT then Z.lor SCRIPT_VERIFY_WITNESS SCRIPT_VERIFY_NULLDUMMY else 0].

Definition block_lock_flags (h : Heap) (params : Params) (pindex : Ptr) : Z :=
  if rule_active h params (pprev (at_ h pindex)) DEPLOYMENT_CSV then LOCKTIME_VERIFY_SEQUENCE else 0.

Lemma deployment_state_ok h params prev pos caches : heap_ok h -> times_monotone h -> (forall q, prev = Some q -> is_Some (h !! q)) ->
  deployments_ok h params caches -> 0 <= pos < 3 ->
  exists st caches', deployment_state h params prev pos caches = Ok (st, caches') /\ deployments_ok h params caches' /\
    bool_decide (st = THRESHOLD_ACTIVE) = rule_active h params prev pos.
Proof.
  intros Hh Ht Hp [H1 H2 H3 H4] Hpos. unfold deployment_state, at_index.
  destruct (lookup_lt_is_Some_2 (vDeployments params) (Z.to_nat pos)) as [d Hd]; [lia|]. rewrite Hd. cbn [mbind result_bind].
  destruct (Forall2_lookup_l _ _ _ _ _ H4 Hd) as (cache & Hc & Hv). rewrite Hc. cbn [mbind result_bind]. unfold VersionBitsState.
  pose proof (Forall_lookup_1 _ _ _ _ H2 Hd) as Hdt.
  destruct (GetStateFor_ok h Hh (VersionBitsConditionChecker params d) H1 Ht Hdt prev cache Hv Hp) as (cache' & -> & Hv').
  cbn [mbind result_bind]. eexists _, _. split; [done|]. split; [|unfold rule_active; by rewrite Hd].
  split; [done..|]. rewrite <- (list_insert_id (vDeployments params) (Z.to_nat pos) d Hd). by apply Forall2_insert.
Qed.

Lemma GetBlockScriptFlags_ok h params pindex caches : heap_ok h -> times_monotone h -> is_Some (h !! pindex) ->
  deployments_ok h params caches -> (rule_active h params (pprev (at_ h pindex)) DEPLOYMENT_SEGWIT = true -> BIP16Height params <= Chain.nHeight (at_ h pindex)) ->
  exists caches', GetBlockScriptFlags h params pindex caches = Ok (block_flags h params pindex, caches') /\
    deployments_ok h params caches' /\ flags_legal (block_flags h params pindex).
Proof.
  intros Hh Ht Hp Hd Hb. unfold GetBlockScriptFlags, IsWitnessEnabled. destruct (at_ok h Hh pindex Hp) as [_ Hprev _].
  assert (Hq : forall q, pprev (at_ h pindex) = Some q -> is_Some (h !! q)) by (intros q E; rewrite E in Hprev; apply Hprev).
  destruct (deployment_state_ok h params (pprev (at_ h pindex)) DEPLOYMENT_CSV caches Hh Ht Hq Hd) as (csv & caches1 & -> & Hd1 & Ecsv); [unfold DEPLOYMENT_CSV; lia|].
  cbn [mbind result_bind].
  destruct (deployment_state_ok h params (pprev (at_ h pindex)) DEPLOYMENT_SEGWIT caches1 Hh Ht Hq Hd1) as (sw & caches2 & -> & Hd2 & Esw); [unfold DEPLOYMENT_SEGWIT; lia|].
  cbn [mbind result_bind mret result_ret]. rewrite Ecsv, Esw. exists caches2. unfold flags_legal, block_flags.
  destruct (Z.leb_spec (BIP16Height params) (Chain.nHeight (at_ h pindex)));
  destruct (BIP66Height params <=? _), (BIP65Height params <=? _), (rule_active _ _ _ DEPLOYMENT_CSV), (rule_active _ _ _ DEPLOYMENT_SEGWIT);
    try (specialize (Hb eq_refl); lia); (split; [vm_compute; reflexivity|split; [exact Hd2|vm_compute; try done]]); by split.
Qed.

(** ** Which checks a block needs *)

Definition assumed_ok (cfg : NodeConfig) (t : BlockTree) : Prop :=
  uint256_IsNull (hashAssumeValid cfg) = true \/
  exists best, pindexBestHeader t = Some best /\ is_u32 (bi_nBits (at_ (bt_heap t) best)) /\ block_work (bi_nBits (at_ (bt_heap t) best)) <> 0.

Lemma equivalent_time_total a b bits spacing : arith_ok a -> arith_ok b -> is_u32 bits -> block_work bits <> 0 ->
  exists time, GetBlockProofEquivalentTime a b bits spacing = Ok time.
Proof.
  intros Ha Hb Hbits Hw. unfold GetBlockProofEquivalentTime. destruct (if 0 <? CompareTo a b then _ else _) as [r sign] eqn:E.
  assert (Hr : arith_ok r) by (destruct (0 <? CompareTo a b); injection E as <- _; by apply arith_sub_ok).
  destruct (GetBlockProof_ok bits Hbits) as (w & -> & Hwok & Hval). cbn [mbind result_bind].
  pose proof (arith_div_ok (arith_mul r (arith_of_uint64 (u64 spacing))) w) as Hdiv.
  destruct (Z.eqb_spec (val w) 0) as [E0|_]; [congruence|].
  destruct Hdiv as (q & -> & _); [apply arith_mul_ok; [done|apply arith_of_uint64_ok; unfold is_u64, u64; apply Z.mod_pos_bound; lia]|done|]. by eexists.
Qed.

Lemma script_checks_needed_total params cfg t pindex : tree_ok t -> is_Some (bt_heap t !! pindex) -> assumed_ok cfg t ->
  exists b, script_checks_needed params cfg t pindex = Ok b.
Proof.
  intros Ht Hp Ha. unfold script_checks_needed. destruct Ha as [->|(best & Eb & Hbits & Hw)]; [by eexists|].
  destruct (uint256_IsNull _); [by eexists|]. destruct (mapBlockIndex t !! hashAssumeValid cfg) as [it|] eqn:Em; [|by eexists].
  destruct (tree_map t Ht _ _ Em) as [Hit _]. destruct (tree_best t Ht best Eb) as [Hbest _].
  rewrite GetAncestor_ok by (done || apply (tree_heap t Ht)). cbn [mbind result_bind]. destruct (negb _); [by eexists|]. rewrite Eb.
  rewrite GetAncestor_ok by (done || apply (tree_heap t Ht)). cbn [mbind result_bind]. destruct (negb _); [by eexists|]. destruct (_ <? 0); [by eexists|].
  destruct (equivalent_time_total (nChainWork (at_ (bt_heap t) best)) (nChainWork (at_ (bt_heap t) pindex)) (bi_nBits (at_ (bt_heap t) best)) (nPowTargetSpacing params))
    as (time & ->); [by apply (tree_work t Ht)|by apply (tree_work t Ht)|done|done|]. by eexists.
Qed.

Lemma enforce_bip30_total params h pindex prev : heap_ok h -> is_Some (h !! prev) -> exists b, enforce_bip30 params h pindex prev = Ok b.
Proof. intros Hh Hp. unfold enforce_bip30. rewrite GetAncestor_ok by done. by eexists. Qed.

Lemma CheckBlock_unchecked block params pow root : fChecked block = false -> zlen (vtx block) < 2 ^ 31 ->
  exists r, CheckBlock block params pow root = Ok r /\
    forall b, r = Valid b -> one_cashbase (vtx block) /\ Forall (fun tx => CheckTransaction tx false = Valid tt) (vtx block).
Proof.
  intros Hch Hn. unfold CheckBlock. rewrite Hch. destruct (CheckMerkleRoot_ok block Hn) as (m & Hm & _).
  destruct (CheckBlockHeader _ _ _) as [[]|r]; cbn [check]; [|by eexists].
  assert (exists v, (if root then CheckMerkleRoot block else Ok (Valid tt)) = Ok v) as (v & ->) by (destruct root; [by exists m|by eexists]).
  cbn [mbind result_bind]. destruct v as [[]|r]; cbn [check]; [|by eexists]. destruct (CheckBlockTransactions block) as [[]|r] eqn:E; cbn [check]; [|by eexists].
  eexists. split; [done|]. intros b _. unfold CheckBlockTransactions in E. cbv zeta in E.
  rewrite !reject_then, and_then_Valid, CheckTransactions_ok, existsb_false in E. destruct E as (_ & E1 & E2 & E3 & _). split; [|done].
  unfold one_cashbase. destruct (vtx block) as [|tx rest]; [done|]. apply negb_false_iff in E1. by exists tx, rest.
Qed.

(** A block that says it was checked has been. *)
Definition unchecked (block : CBlock) : CBlock := mkCBlock (header block) (vtx block) false.
Definition checked_ok (params : Params) (block : CBlock) : Prop :=
  fChecked block = true -> exists b, CheckBlock (unchecked block) params true true = Ok (Valid b).

Lemma CheckBlock_returns block params : checked_ok params block -> zlen (vtx block) < 2 ^ 31 ->
  exists r, CheckBlock block params true true = Ok r /\
    forall b, r = Valid b -> one_cashbase (vtx block) /\ Forall (fun tx => CheckTransaction tx false = Valid tt) (vtx block).
Proof.
  intros Hch Hn. destruct (fChecked block) eqn:Ef; [|by apply CheckBlock_unchecked].
  destruct (CheckBlock_unchecked (unchecked block) params true true eq_refl Hn) as (r & Er & Hr). destruct (Hch Ef) as [b Hb]. rewrite Hb in Er.
  apply (inj Ok) in Er as <-. exists (Valid block). split; [by unfold CheckBlock; rewrite Ef|]. intros _ _. exact (Hr b eq_refl).
Qed.

(** ** A verdict on the transactions blames neither the data nor the node *)

Definition blames {A} (v : verdict A) : Prop := forall r, v = Invalid r -> corruptionPossible r = false /\ isError r = false.

Lemma blames_DoS {A} level reason : blames (@DoS A level reason).
Proof. by intros r [= <-]. Qed.

Lemma blames_Valid {A} (a : A) : blames (Valid a).
Proof. by intros r. Qed.

Lemma blames_Invalid {A B} (v : verdict A) r : blames v -> v = Invalid r -> blames (@Invalid B r).
Proof. intros Hv -> r' [= <-]. by apply Hv. Qed.

Lemma blames_check {A B} (v : verdict A) (k : A -> result (verdict B)) w :
  blames v -> (forall a w, k a = Ok w -> blames w) -> check v k = Ok w -> blames w.
Proof. intros Hv Hk Hw. destruct v as [a|r]; cbn in Hw; [by eapply Hk|]. apply (inj Ok) in Hw as <-. by eapply blames_Invalid. Qed.
#[local] Hint Resolve blames_DoS blames_Valid : core.

Section Blames.
Context (env : ScriptEnv) {S : Type} `{!CashView S} `{!ScriptMemory}.
Implicit Types (c : CCashViewCache S).

Lemma inputs_loop_blames n v : forall a c w c', inputs_loop n v a c = Ok (w, c') -> blames w.
Proof.
  induction v as [|i v IH]; intros a c w c' Hw; cbn [inputs_loop] in Hw; [by injection Hw as <- _|].
  destruct (access_unspent _ _) as [[cash c1]|]; [|done]. cbn [mbind result_bind] in Hw. case_if; [by injection Hw as <- _|].
  cbv zeta in Hw. case_if; [by injection Hw as <- _|]. by eapply IH.
Qed.

Lemma CheckTxInputs_blames tx n c w c' : CheckTxInputs tx n c = Ok (w, c') -> blames w.
Proof.
  unfold CheckTxInputs. destruct (HaveInputs tx c) as [have c1]. intros Hw. case_if; [by injection Hw as <- _|].
  destruct (inputs_loop n (vin tx) 0 c1) as [[v c2]|] eqn:E; [|done]. cbn [mbind result_bind] in Hw. destruct v as [a|r].
  - inv_bind. case_if; [by injection Hw as <- _|]. case_if; by injection Hw as <- _.
  - injection Hw as <- _. eapply blames_Invalid; [by eapply inputs_loop_blames|done].
Qed.

Lemma script_loop_blames tx fl d q v : forall i l c w, script_loop env tx fl d q v i l c = Ok w -> blames w.
Proof.
  induction v as [|x v IH]; intros i l c w Hw; cbn [script_loop] in Hw; [by apply (inj Ok) in Hw as <-|].
  destruct (access_unspent _ _) as [[cash c1]|]; [|done]. cbn [mbind result_bind] in Hw. destruct q; [by eapply IH|].
  destruct (run_check _ (mkCScriptCheck (out cash) tx i fl d)) as [[]|]; cbn [mbind result_bind] in Hw; [eapply IH; exact Hw| |done].
  destruct (if negb _ then _ else _) as [ok2|]; [|done]. cbn [mbind result_bind] in Hw. apply (inj Ok) in Hw as <-. by destruct ok2.
Qed.

Lemma connect_loop_blames h p lf fl fsc fjc th v : forall first (st : Connecting) w,
  connect_loop env h p lf fl fsc fjc th first v st = Ok w -> blames w.
Proof.
  induction v as [|tx v IH]; intros first st w Hw; cbn [connect_loop] in Hw; [by apply (inj Ok) in Hw as <-|].
  destruct (connect_tx _ _ _ _ _ _ _ _ _ _ _) as [r|] eqn:E; [|done]. cbn [mbind result_bind] in Hw.
  eapply blames_check; [clear Hw|intros ? ?; apply IH|exact Hw]. unfold connect_tx in E.
  destruct (connect_inputs _ _ _ _ _ _) as [inputs|] eqn:Ei; [|done]. cbn [mbind result_bind] in E. eapply blames_check; [| |exact E].
  - clear E. unfold connect_inputs in Ei. destruct (IsCashBase tx); [by apply (inj Ok) in Ei as <-|].
    destruct (CheckTxInputs _ _ _) as [[v' c1]|] eqn:Ev; [|done]. cbn [mbind result_bind] in Ei.
    eapply blames_check; [by eapply CheckTxInputs_blames| |exact Ei]. clear Ei. intros fee w' Hw'. cbv beta zeta in Hw'. case_if; [by apply (inj Ok) in Hw' as <-|].
    destruct (prev_heights _ _) as [hs c2]. destruct (SequenceLocks _ _ _ _ _) as [[final lk]|]; [|done]. cbn [mbind result_bind] in Hw'.
    apply (inj Ok) in Hw' as <-. destruct final; cbn [negb]; done.
  - clear E. intros [fees c1] w' Hw'. destruct (GetTransactionSigOpCost _ _ _) as [[cost c2]|]; [|done]. cbn [mbind result_bind] in Hw'. cbv beta zeta in Hw'.
    case_if; [by apply (inj Ok) in Hw' as <-|]. destruct (PrecomputedTransactionData_of tx) as [d|]; [|done]. cbn [mbind result_bind] in Hw'.
    destruct (CheckInputs _ _ _ _ _ _ _ _ _) as [sc|] eqn:Es; [|done]. cbn [mbind result_bind] in Hw'. eapply blames_check; [| |exact Hw'].
    + clear Hw'. unfold CheckInputs in Es. case_if; [by apply (inj Ok) in Es as <-|]. cbv zeta in Es. case_if; [by apply (inj Ok) in Es as <-|].
      destruct (script_loop _ _ _ _ _ _ _ _ _) as [v'|] eqn:El; [|done]. cbn [mbind result_bind] in Es.
      eapply blames_check; [by eapply script_loop_blames| |exact Es]. by intros a w'' [= <-].
    + intros [[l c3] cache] w'' Hw''. destruct (UpdateCash _ _ _) as [[undo c4]|]; [|done]. cbn [mbind result_bind] in Hw''. by apply (inj Ok) in Hw'' as <-.
Qed.

Lemma connect_transactions_blames params cfg h (block : CBlock) p fsc fjc lf fl scripts c w :
  connect_transactions env params cfg h block p fsc fjc lf fl scripts c = Ok w -> blames w.
Proof.
  unfold connect_transactions. cbv zeta. destruct (connect_loop _ _ _ _ _ _ _ _ _ _ _) as [st|] eqn:E; [|done]. cbn [mbind result_bind].
  apply blames_check; [by eapply connect_loop_blames|]. intros a w' Hw'. destruct (first_tx block); [|done]. cbn [mbind result_bind] in Hw'.
  destruct (GetValueOut _); [|done]. cbn [mbind result_bind] in Hw'. case_if; [by apply (inj Ok) in Hw' as <-|].
  destruct (run_checks _ _) as [ok|]; [|done]. cbn [mbind result_bind] in Hw'. apply (inj Ok) in Hw' as <-. destruct ok; cbn [negb]; done.
Qed.
End Blames.

(** ** Connecting *)
Section View.
Context {S : Type} `{!CashView S} `{!CashViewOk S} `{!ScriptMemory} `{!ScriptMemoryOk}.
Implicit Types (c : CCashViewCache S).

Lemma have_outputs_ok txid v : forall o c, cache_inv c -> let '(b, c') := have_outputs txid v o c in
  same_view c c' /\ (b = false <-> forall k, o <= k < o + zlen v -> cache_abs c !! mkCOutPoint txid k = None).
Proof.
  induction v as [|x v IH]; intros o c Hc; cbn [have_outputs].
  { split; [by apply same_view_refl|]. split; [|done]. intros _ k Hk. unfold zlen in Hk. cbn in Hk. lia. }
  rewrite zlen_cons. pose proof (zlen_nonneg v). pose proof (HaveCash_ok c (mkCOutPoint txid o) Hc) as Hh.
  destruct (HaveCash (mkCOutPoint txid o) c) as [b c1]. destruct Hh as [-> Hs1]. pose proof Hs1 as (Hc1 & Ha1 & _). case_bool_decide as Hb.
  - split; [done|]. split; [done|]. intros Hk. rewrite Hk in Hb by lia. by destruct Hb.
  - specialize (IH (o + 1) c1 Hc1). destruct (have_outputs txid v (o + 1) c1) as [b c2]. destruct IH as [Hs2 IH]. split; [by eapply same_view_trans|].
    rewrite IH, Ha1. split; intros Hk k Hr; [|apply Hk; lia]. destruct (decide (k = o)) as [->|]; [|apply Hk; lia].
    by destruct (cache_abs c !! mkCOutPoint txid o); [destruct Hb|].
Qed.

Lemma bip30_loop_ok v : forall c, cache_inv c -> let '(b, c') := bip30_loop v c in
  same_view c c' /\ (b = false <-> forall tx o, tx ∈ v -> own_output tx o -> cache_abs c !! o = None).
Proof.
  induction v as [|tx v IH]; intros c Hc; cbn [bip30_loop].
  { split; [by apply same_view_refl|]. split; [|done]. by intros _ tx o Hin%elem_of_nil. }
  pose proof (have_outputs_ok (GetHash tx) (vout tx) 0 c Hc) as Hh. destruct (have_outputs (GetHash tx) (vout tx) 0 c) as [b c1].
  destruct Hh as [Hs1 Hb]. pose proof Hs1 as (Hc1 & Ha1 & _). destruct b.
  - split; [done|]. split; [done|]. intros Hall. apply Hb. intros k Hk. apply (Hall tx); [apply list_elem_of_here|]. exists k. split; [lia|done].
  - specialize (IH c1 Hc1). destruct (bip30_loop v c1) as [b c2]. destruct IH as [Hs2 IH]. split; [by eapply same_view_trans|]. rewrite IH, Ha1. split.
    + intros Hall tx' o [->|Hin]%elem_of_cons Ho; [|by eapply Hall]. destruct Ho as (k & Hk & ->). by apply (proj1 Hb eq_refl).
    + intros Hall tx' o Hin Ho. apply (Hall tx'); [|done]. apply elem_of_cons. by right.
Qed.

Lemma connect_transactions_ok env params cfg h (block : CBlock) pindex nLockTimeFlags flags fScriptChecks scripts c :
  node_ok h pindex flags -> 0 < nSubsidyHalvingInterval params -> one_cashbase (vtx block) -> Forall tx_fine (vtx block) -> block_shape (vtx block) ->
  cache_inv c -> coins_ok (Chain.nHeight (at_ h pindex)) (cache_abs c) -> (forall tx o, tx ∈ vtx block -> own_output tx o -> cache_abs c !! o = None) ->
  let spec := txs_connect env h pindex nLockTimeFlags flags fScriptChecks scripts (vtx block) (cache_abs c) 0 0 in
  exists r, connect_transactions env params cfg h block pindex fScriptChecks false nLockTimeFlags flags scripts c = Ok r /\
    match r with
    | Valid st => exists undo, cache_inv (cn_view st) /\ cache_best (cn_view st) = cache_best c /\ cn_undo st = map mkCTxUndo (tail undo) /\
        cn_scripts st = scripts /\ spec (cache_abs (cn_view st)) undo (cn_fees st) /\ reward_ok params (Chain.nHeight (at_ h pindex)) block (cn_fees st)
    | Invalid _ => forall u undo fees, spec u undo fees -> ~ reward_ok params (Chain.nHeight (at_ h pindex)) block fees
    end.
Proof.
  intros Hnode Hint (cb & rest & Ev & Hcb & Hrest) Hall Hsh Hc Hok Hfr spec. unfold connect_transactions. pose proof (no_height _ _ _ Hnode).
  destruct (connect_loop_ok env h pindex nLockTimeFlags flags fScriptChecks scripts Hnode (negb (nScriptCheckThreads cfg =? 0)) (vtx block) true []
    (mkConnecting c scripts 0 0 [] []) Hall Hc Hok Hsh (block_inv_start _ _ Hfr) eq_refl) as (r & -> & Hr); [cbn; unfold MAX_MONEY, CASH; lia|].
  cbn [mbind result_bind cn_view cn_fees cn_sigops cn_undo cn_checks app] in *. destruct r as [st|r]; cbn [check].
  2:{ eexists. split; [done|]. intros u undo fees Hs. by destruct (Hr _ _ _ Hs). }
  destruct Hr as (undo & checks & Hc' & Hb' & Eundo & Esc & Hfees & -> & Hret & Hfwd & Hbwd). rewrite (first_tx_ok _ _ _ Ev). cbn [mbind result_bind].
  assert (Hm : money_vout (vout cb) /\ zsum (map nValue (vout cb)) <= MAX_MONEY).
  { rewrite Ev in Hall. apply Forall_cons_1 in Hall as [[_ Hx%CheckTransaction_money] _]. exact Hx. }
  rewrite (proj2 (GetValueOut_spec cb (zsum (map nValue (vout cb))))) by (destruct Hm; done). cbn [mbind result_bind].
  pose proof (subsidy_range (Chain.nHeight (at_ h pindex)) params ltac:(lia) Hint) as Hsub.
  rewrite i64_small by (unfold is_i64, MAX_MONEY, CASH in *; lia).
  assert (Hrew : forall fees, reward_ok params (Chain.nHeight (at_ h pindex)) block fees <->
    zsum (map nValue (vout cb)) <= fees + GetBlockSubsidy (Chain.nHeight (at_ h pindex)) params).
  { intros fees. unfold reward_ok. rewrite Ev. split; [by intros (? & ? & [= <- <-] & ?)|]. intros ?. by exists cb, rest. }
  assert (Hfun : forall u un fees, spec u un fees -> fees = cn_fees st).
  { intros u un fees Hs. specialize (Hfwd (Hbwd _ _ _ Hs)). by eapply (txs_connect_fun _ _ _ _ _ _ _ _ _ _ _ _ _ _ _ _ _ Hs Hfwd). }
  destruct (Z.ltb_spec (cn_fees st + GetBlockSubsidy (Chain.nHeight (at_ h pindex)) params) (zsum (map nValue (vout cb)))) as [Hlt|Hge].
  { eexists. split; [done|]. intros u un fees Hs Hrw%Hrew. rewrite (Hfun _ _ _ Hs) in Hrw. lia. }
  destruct (run_checks_ok env checks Hret) as (b & -> & Hb). cbn [mbind result_bind]. eexists. split; [done|]. destruct b; cbn [negb].
  - exists undo. split_and!; [done..|apply Hfwd; by apply Hb|by apply Hrew].
  - intros u un fees Hs _. discriminate (proj2 Hb (Hbwd _ _ _ Hs)).
Qed.

(** ** ConnectBlock *)

(** A node about to connect a block: its index, its view at the block's parent,
    and a block within the ranges of its types.  [ca_p2sh]: the network does not
    turn on segregated witness before BIP 16, which [CountWitnessSigOps] asserts;
    [ca_ids]: no two different transactions of the block have the same hash;
    [ca_new]: a block that BIP 30 is not enforced for overwrites nothing. *)
Record connectable (params : Params) (cfg : NodeConfig) (t : BlockTree) (block : CBlock) (pindex prev : Ptr) (caches : VersionBitsCache) c : Prop := {
  ca_tree : tree_ok t;
  ca_times : times_ok (bt_heap t);
  ca_monotone : times_monotone (bt_heap t);
  ca_index : is_Some (bt_heap t !! pindex);
  ca_prev : pprev (at_ (bt_heap t) pindex) = Some prev;
  ca_height : 0 < Chain.nHeight (at_ (bt_heap t) pindex) < 2 ^ 30;
  ca_p2sh : rule_active (bt_heap t) params (pprev (at_ (bt_heap t) pindex)) DEPLOYMENT_SEGWIT = true ->
            BIP16Height params <= Chain.nHeight (at_ (bt_heap t) pindex);
  ca_interval : 0 < nSubsidyHalvingInterval params;
  ca_deployments : deployments_ok (bt_heap t) params caches;
  ca_assumed : assumed_ok cfg t;
  ca_hash : phashBlock (at_ (bt_heap t) pindex) = CBlockHeader_GetHash (header block);
  ca_hash_null : uint256_IsNull (CBlockHeader_GetHash (header block)) = false;
  ca_not_genesis : CBlockHeader_GetHash (header block) <> hashGenesisBlock params;
  ca_checked : checked_ok params block;
  ca_count : zlen (vtx block) < 2 ^ 31;
  ca_txs : Forall tx_ok (vtx block);
  ca_ids : ~ hash_collision (map (serialized false) (vtx block));
  ca_new : enforce_bip30 params (bt_heap t) pindex prev = Ok true \/
           (forall tx o, tx ∈ vtx block -> own_output tx o -> cache_abs c !! o = None);
  ca_view : cache_inv c;
  ca_coins : coins_ok (Chain.nHeight (at_ (bt_heap t) pindex)) (cache_abs c);
  ca_best : cache_best c = phashBlock (at_ (bt_heap t) prev);
}.

(** No transaction names an input twice, which [CheckBlock] does not look at. *)
Definition inputs_once (block : CBlock) : Prop := forall tx, tx ∈ vtx block -> NoDup (map prevout (tx_inputs tx)).

(** What [ConnectBlock] checks beyond [CheckBlock], and the set it leaves. *)
Definition block_connects (env : ScriptEnv) (params : Params) (cfg : NodeConfig) (t : BlockTree) (block : CBlock) (pindex : Ptr)
    (scripts : gset uint256) (u u' : utxo) (undo : list (list Cash)) : Prop :=
  exists fScriptChecks fees, script_checks_needed params cfg t pindex = Ok fScriptChecks /\
    (forall tx o, tx ∈ vtx block -> own_output tx o -> u !! o = None) /\
    txs_connect env (bt_heap t) pindex (block_lock_flags (bt_heap t) params pindex) (block_flags (bt_heap t) params pindex) fScriptChecks scripts
      (vtx block) u 0 0 u' undo fees /\
    reward_ok params (Chain.nHeight (at_ (bt_heap t) pindex)) block fees.

Lemma connected_status_ok e : exists status, connected_status true e = Ok (Some status).
Proof.
  unfold connected_status. rewrite andb_false_r. set (status := if negb _ then _ else _).
  edestruct IsValid_scripts as (v & ->). cbn [mbind result_bind]. destruct v; [by eexists|].
  unfold RaiseValidity. cbn [assert_then]. case_if; cbn [mbind result_bind]; [by eexists|]. case_if; by eexists.
Qed.

Lemma ConnectBlock_ok env params cfg t block pindex prev caches scripts c :
  connectable params cfg t block pindex prev caches c -> inputs_once block ->
  exists v, ConnectBlock env params cfg t block pindex false true true caches scripts c = Ok v /\
    match v with
    | Valid r => exists undo, cache_inv (cd_view r) /\ cache_best (cd_view r) = CBlockHeader_GetHash (header block) /\
        cd_undo r = mkCBlockUndo (map mkCTxUndo (tail undo)) /\ one_cashbase (vtx block) /\ Forall tx_fine (vtx block) /\
        (exists status, connected_status true (at_ (bt_heap t) pindex) = Ok (Some status) /\
           cd_tree r = mkBlockTree (set_status (bt_heap t) pindex status) (mapBlockIndex t) (pindexBestHeader t)) /\
        deployments_ok (bt_heap t) params (cd_caches r) /\ cd_scripts r = scripts /\ (exists b, CheckBlock block params true true = Ok (Valid b)) /\
        block_connects env params cfg t block pindex scripts (cache_abs c) (cache_abs (cd_view r)) undo
    | Invalid rj => (exists r, CheckBlock block params true true = Ok (Invalid r)) \/
        (corruptionPossible rj = false /\ isError rj = false /\ forall u' undo, ~ block_connects env params cfg t block pindex scripts (cache_abs c) u' undo)
    end.
Proof.
  intros [Ht Htm Hmono Hp Hprev Hht Hb16 Hint Hdep Has Hhash Hnull Hgen Hch Hn Htx Hids Hnew Hc Hok Hbest] Hins.
  pose proof (tree_heap t Ht) as Hh. destruct (at_ok _ Hh pindex Hp) as [_ Hpr _]. rewrite Hprev in Hpr. destruct Hpr as [Hpin _].
  unfold ConnectBlock. rewrite Hhash, bool_decide_eq_true_2 by done. cbn [assert_then negb].
  destruct (CheckBlock_returns block params Hch Hn) as (ck & Eck & Hck). rewrite Eck. cbn [mbind result_bind].
  destruct ck as [b|r]; cbn [check]; [|eexists; split; [done|]; left; by eexists]. destruct (Hck b eq_refl) as [Hcb Hchk]. rewrite Hprev.
  pose proof (GetBestBlock_ok c Hc) as Hg. destruct (GetBestBlock c) as [best c1]. destruct Hg as [-> (Hc1 & Ha1 & Hb1)].
  rewrite Hbest, bool_decide_eq_true_2 by done. cbn [assert_then]. rewrite bool_decide_eq_false_2 by done.
  destruct (script_checks_needed_total params cfg t pindex Ht Hp Has) as (fsc & Efsc). rewrite Efsc. cbn [mbind result_bind].
  destruct (enforce_bip30_total params (bt_heap t) pindex prev Hh Hpin) as (b30 & E30). rewrite E30 in *. cbn [mbind result_bind].
  pose proof (bip30_loop_ok (vtx block) c1 Hc1) as Hb30. destruct (bip30_loop (vtx block) c1) as [over c2] eqn:Eover. destruct Hb30 as [Hs2 Hover].
  set (v30 := if b30 then (over, c2) else (false, c1)).
  assert (Hv30 : same_view c1 v30.2 /\ (v30.1 = false <-> forall tx o, tx ∈ vtx block -> own_output tx o -> cache_abs c !! o = None)).
  { subst v30. rewrite <- Ha1. destruct b30; [exact (conj Hs2 Hover)|]. split; [by apply same_view_refl|]. split; [|done]. intros _. rewrite Ha1. by destruct Hnew as [?|?]. }
  destruct v30 as [over' c3]. cbn [fst snd] in Hv30. destruct Hv30 as [Hs3 Hnew']. destruct over'.
  { eexists. split; [done|]. right. split; [done|]. split; [done|]. intros u' undo (fsc' & fees & _ & Hnw & _). by apply Hnew' in Hnw. }
  pose proof (proj1 Hnew' eq_refl) as Hnw. pose proof Hs3 as (Hc3 & Ha3 & Hb3). rewrite Ha1 in Ha3.
  assert (Hq : forall q, Some prev = Some q -> is_Some (bt_heap t !! q)) by (by intros q [= <-]).
  destruct (deployment_state_ok (bt_heap t) params (Some prev) DEPLOYMENT_CSV caches Hh Hmono Hq Hdep) as (csv & caches1 & -> & Hdep1 & Ecsv);
    [unfold DEPLOYMENT_CSV; lia|]. cbn [mbind result_bind]. rewrite Ecsv.
  destruct (GetBlockScriptFlags_ok (bt_heap t) params pindex caches1 Hh Hmono Hp Hdep1 Hb16) as (caches2 & -> & Hdep2 & Hlegal). cbn [mbind result_bind].
  assert (Hfine : Forall tx_fine (vtx block)) by (apply Forall_forall; intros tx Hin; rewrite Forall_forall in Htx, Hchk; split; auto).
  assert (Hnode : node_ok (bt_heap t) pindex (block_flags (bt_heap t) params pindex)) by (split; [done..|by rewrite Hprev|done]).
  assert (Hfr : forall tx o, tx ∈ vtx block -> own_output tx o -> cache_abs c3 !! o = None) by (by rewrite Ha3).
  assert (Hok3 : coins_ok (Chain.nHeight (at_ (bt_heap t) pindex)) (cache_abs c3)) by (by rewrite Ha3).
  rewrite <- Hprev. fold (block_lock_flags (bt_heap t) params pindex).
  destruct (connect_transactions_ok env params cfg (bt_heap t) block pindex (block_lock_flags (bt_heap t) params pindex) (block_flags (bt_heap t) params pindex)
    fsc scripts c3 Hnode Hint Hcb Hfine (block_shape_ok _ Hcb Hfine Hids Hins) Hc3 Hok3 Hfr) as (r & Er & Hr). rewrite Er. cbn [mbind result_bind]. rewrite Ha3 in Hr.
  destruct r as [st|r]; cbn [check].
  2:{ eexists. split; [done|]. right. destruct (connect_transactions_blames _ _ _ _ _ _ _ _ _ _ _ _ _ Er _ eq_refl) as [B1 B2]. split; [exact B1|]. split; [exact B2|]. intros u' undo (fsc' & fees & Ef' & _ & Hspec & Hrw). rewrite Efsc in Ef'. injection Ef' as <-. by eapply Hr. }
  destruct (connected_status_ok (at_ (bt_heap t) pindex)) as (status & Est). rewrite Est. cbn [mbind result_bind negb]. eexists. split; [done|].
  destruct Hr as (undo & Hcv & _ & Eundo & Esc & Hspec & Hrw). exists undo. cbn [cd_view cd_undo cd_tree cd_caches cd_scripts].
  destruct (SetBestBlock_ok (cn_view st) (CBlockHeader_GetHash (header block)) Hcv Hnull) as (Hi & Ha & Hb).
  refine (conj Hi (conj Hb (conj (f_equal mkCBlockUndo Eundo) (conj Hcb (conj Hfine (conj (ex_intro _ status (conj eq_refl eq_refl))
    (conj Hdep2 (conj Esc (conj (ex_intro _ b eq_refl) _))))))))). exists fsc, (cn_fees st). rewrite Ha. exact (conj Efsc (conj Hnw (conj Hspec Hrw))).
Qed.

Lemma connectable_fresh env params cfg t block pindex prev caches scripts c u' undo :
  connectable params cfg t block pindex prev caches c -> inputs_once block -> one_cashbase (vtx block) -> Forall tx_fine (vtx block) ->
  block_connects env params cfg t block pindex scripts (cache_abs c) u' undo -> block_fresh (cache_abs c) (vtx block).
Proof.
  intros Hca Hins Hcb Hfine (_ & _ & _ & Hnew & Hs%txs_connect_effect & _). eapply block_effect_fresh; [|exact Hnew|exact Hs].
  apply block_shape_ok; [exact Hcb|exact Hfine|apply (ca_ids _ _ _ _ _ _ _ _ Hca)|exact Hins].
Qed.

(** The undo data in front of the transactions it belongs to. *)
Lemma undo_pairs cb rest undo : IsCashBase cb = true -> Forall (fun tx => IsCashBase tx = false) rest -> length undo = length (cb :: rest) ->
  zip (cb :: rest) (None :: map Some (map mkCTxUndo (tail undo))) = zip_with undo_of (cb :: rest) undo.
Proof.
  intros Hcb Hrest Hl. destruct undo as [|coins undo]; [discriminate Hl|]. injection Hl as Hl. cbn [tail zip zip_with]. unfold undo_of at 1. rewrite Hcb. f_equal.
  revert undo Hl. induction Hrest as [|tx rest Htx _ IH]; intros [|coins' undo] Hl; try discriminate Hl; [done|]. injection Hl as Hl. cbn [map zip zip_with].
  unfold undo_of at 1. rewrite Htx. f_equal. by apply IH.
Qed.

Lemma block_effect_length h v : forall u undo u', block_effect h v u = Some (undo, u') -> length undo = length v.
Proof.
  induction v as [|tx v IH]; intros u undo u' He; cbn [block_effect] in He; [by injection He as <- <-|].
  destruct (tx_effect h tx u) as [[coins u1]|]; [|done]. cbn in He. destruct (block_effect h v u1) as [[un u2]|] eqn:E; [|done]. cbn in He.
  injection He as <- <-. cbn [length]. f_equal. by eapply IH.
Qed.

Lemma DisconnectBlock_ok h block pindex prev c u undo :
  cache_inv c -> one_cashbase (vtx block) -> Forall tx_ok (vtx block) -> 0 < Chain.nHeight (at_ h pindex) < 2 ^ 31 ->
  coins_ok (Chain.nHeight (at_ h pindex)) u -> block_fresh u (vtx block) -> block_effect (Chain.nHeight (at_ h pindex)) (vtx block) u = Some (undo, cache_abs c) ->
  pprev (at_ h pindex) = Some prev -> uint256_IsNull (phashBlock (at_ h prev)) = false ->
  exists c', DisconnectBlock h block pindex (Some (mkCBlockUndo (map mkCTxUndo (tail undo)))) c = Ok (DISCONNECT_OK, c') /\
    cache_inv c' /\ cache_abs c' = u /\ cache_best c' = phashBlock (at_ h prev).
Proof.
  intros Hc (cb & rest & Ev & Hcb & Hrest) Htx Hh Hok Hfr He Hprev Hnull. pose proof (block_effect_length _ _ _ _ _ He) as Hl. unfold DisconnectBlock.
  cbn [vtxundo]. assert ((zlen (map mkCTxUndo (tail undo)) + 1 =? zlen (vtx block)) = true) as ->.
  { rewrite Ev in *. unfold zlen. destruct undo as [|x undo]; [discriminate Hl|]. injection Hl as Hl. cbn [tail length]. rewrite length_map, Hl. apply Z.eqb_eq. lia. }
  cbn [negb]. destruct (disconnect_txs_ok (Chain.nHeight (at_ h pindex)) (vtx block) u undo (cache_abs c) true c Hh Hc Hok Hfr Htx He eq_refl)
    as (c1 & E1 & Hc1 & Ha1 & _). rewrite Ev in E1, Hl |- *. rewrite (undo_pairs cb rest undo Hcb Hrest Hl), E1. cbn [mbind result_bind]. rewrite Hprev.
  destruct (SetBestBlock_ok c1 (phashBlock (at_ h prev)) Hc1 Hnull) as (Hi & Ha & Hb). eexists. split; [done|]. rewrite Ha. exact (conj Hi (conj Ha1 Hb)).
Qed.
End View.

(** ** An example

    A block at height 1 whose transaction pays a fee, over a view with one output. *)
Definition spend_cashbase : CTransaction :=
  mkCTransaction 1 [mkCTxIn COutPoint_null [OP_1; OP_1] 0xffffffff []] [mkCTxOut (51 * CASH) [OP_1]] 0.
Definition spend_tx : CTransaction :=
  mkCTransaction 1 [mkCTxIn (mkCOutPoint (repeat 7 32) 1) [] 0xffffffff []] [mkCTxOut (5 * CASH) [OP_1]] 0.
Definition spend_block : CBlock := Eval vm_compute in
  mkCBlock (mkCBlockHeader 4 (CBlockHeader_GetHash easy_genesis) (Hash2 (GetHash spend_cashbase) (GetHash spend_tx)) 1231006999 0x2001ffff 240)
    [spend_cashbase; spend_tx] false.

Definition spend_env : ScriptEnv := mkScriptEnv (fun _ => true) (fun _ _ _ => true) uint256_null ∅ uint256_null.
Definition spend_cfg (threads : Z) : NodeConfig := mkNodeConfig uint256_null arith_zero threads.
(** The tree of the genesis header of the example and one header on top. *)
Definition tree_with (block : CBlock) : BlockTree :=
  match ('(_, t) ← AddToBlockIndex easy_genesis tree_empty;
         process_batches easy_params true [] [] [[(header block, 1231007000)]] t) with
  | Ok t => t
  | Throw _ => tree_empty
  end.
Definition spend_tree : BlockTree := Eval vm_compute in tree_with spend_block.
Definition spend_coin : Cash := mkCash (mkCTxOut (6 * CASH) [OP_1]) false 1.
Definition spend_view : CCashViewCache MapView :=
  CCashViewCache_new (mkMapView {[ mkCOutPoint (repeat 7 32) 1 := spend_coin ]} (hashPrevBlock (header spend_block))).

#[local] Existing Instances no_script_memory no_script_memory_ok.

Lemma spend_tree_inv : headers_inv easy_params spend_tree /\ times_monotone (bt_heap spend_tree).
Proof.
  destruct (accepted_genesis easy_params easy_genesis) as (p & t & Hp & Ht);
    [unfold is_u32; cbn; lia..|right; vm_compute; reflexivity|exact eq_refl|apply (bool_decide_eq_false_1 (_ = _)); vm_compute; reflexivity|].
  destruct (process_batches_ok easy_params true [] [] [[(header spend_block, 1231007000)]] 1 t easy_params_ok) as (t' & Ht' & Hi & Hm & _);
    [right; vm_compute; reflexivity|exact Ht|lia|vm_compute; discriminate|repeat constructor; unfold is_u32; cbn; lia|].
  assert (spend_tree = tree_with spend_block) as -> by (vm_compute; reflexivity).
  unfold tree_with. rewrite Hp. cbn [mbind result_bind]. rewrite Ht'. exact (conj Hi Hm).
Qed.

Lemma spend_view_lookup o cash : cache_abs spend_view !! o = Some cash -> o = mkCOutPoint (repeat 7 32) 1 /\ cash = spend_coin.
Proof. unfold cache_abs. rewrite lookup_overlay. cbn. rewrite lookup_empty. by intros [<- <-]%lookup_singleton_Some. Qed.

Lemma spend_view_inv : cache_inv spend_view.
Proof.
  split; [|intros o e; cbn; by rewrite lookup_empty|reflexivity]. cbn. unfold map_view_inv. cbn [mv_map]. apply map_Forall_singleton. reflexivity.
Qed.

Lemma spend_txs_ok : Forall tx_ok (vtx spend_block).
Proof.
  constructor; [|constructor; [|constructor]]; constructor; simpl; repeat constructor; simpl; try (by vm_compute); try (unfold is_i32; lia).
Qed.

Lemma spend_connectable threads : connectable easy_params (spend_cfg threads) spend_tree spend_block 2 1 [∅; ∅; ∅] spend_view.
Proof.
  destruct spend_tree_inv as [Hi Hm]. split.
  - apply (hi_tree _ _ Hi).
  - apply (hi_u32 _ _ Hi).
  - exact Hm.
  - vm_compute. eauto.
  - vm_compute. reflexivity.
  - vm_compute. split; reflexivity.
  - intros _. vm_compute. discriminate.
  - reflexivity.
  - split; [vm_compute; discriminate| |cbn; lia|constructor; [apply empty_cache_valid|constructor; [apply empty_cache_valid|constructor; [apply empty_cache_valid|constructor]]]].
    apply (Forall_cons_2 _); [done|apply (Forall_cons_2 _); [done|apply (Forall_cons_2 _); [vm_compute; discriminate|apply Forall_nil_2]]].
  - left. reflexivity.
  - vm_compute. reflexivity.
  - vm_compute. reflexivity.
  - apply (bool_decide_eq_false_1 (_ = _)). vm_compute. reflexivity.
  - intros Hch. discriminate Hch.
  - reflexivity.
  - exact spend_txs_ok.
  - apply no_collision. vm_compute. reflexivity.
  - left. vm_compute. reflexivity.
  - exact spend_view_inv.
  - intros o cash [_ ->]%spend_view_lookup. split_and!; [reflexivity|reflexivity|reflexivity|vm_compute; discriminate|decide_true].
  - vm_compute. reflexivity.
Qed.

Lemma spend_once : inputs_once spend_block.
Proof. intros tx [->|[->|[]%elem_of_nil]%elem_of_cons]%elem_of_cons; apply (bool_decide_eq_true_1 (NoDup _)); vm_compute; reflexivity. Qed.

Definition spend_connects (threads : Z) : result (verdict Connected) :=
  ConnectBlock spend_env easy_params (spend_cfg threads) spend_tree spend_block 2 false true true [∅; ∅; ∅] ∅ spend_view.

Definition accepts {A} (r : result (verdict A)) : bool := match r with Ok (Valid _) => true | _ => false end.

Lemma accepts_Valid {A} (r : result (verdict A)) v : r = Ok v -> accepts r = true -> exists a, v = Valid a.
Proof. intros ->. destruct v as [a|]; [by exists a|discriminate]. Qed.

Lemma spend_accepted : accepts (spend_connects 0) = true.
Proof. vm_compute. reflexivity. Qed.

(** * Properties *)

Section Properties.
Context {S : Type} `{!CashView S} `{!CashViewOk S} `{!ScriptMemory} `{!ScriptMemoryOk}.

(** C4: [ConnectBlock] implements its rules.  For every block on top of the view
    it returns without failing an assertion or throwing, and it accepts exactly
    the blocks that pass [CheckBlock], overwrite no output and whose
    transactions, one after the other, spend mature outputs of the set, conserve
    value, respect their relative locks, the limit on signature operations and,
    unless the block is assumed valid, the scripts under the rules of the block,
    and whose cashbase takes no more than fees and subsidy. The view is then the
    set with the effects of the transactions, its best block is the block, and
    the undo data are the outputs spent.  This is for blocks within the ranges of
    their types none of whose transactions names an input twice ([inputs_once]):
    nothing here rejects one that does, as [twice_block] below shows.  [connectable]
    further assumes that no two different transactions of the block have the same
    hash, that segregated witness is in force only where BIP 16 is, and that a
    block BIP 30 is not enforced for overwrites no output; and undo data and
    index are written. *)
Theorem ConnectBlock_correct env params cfg t block pindex prev caches scripts (c : CCashViewCache S) :
  connectable params cfg t block pindex prev caches c -> inputs_once block ->
  exists v, ConnectBlock env params cfg t block pindex false true true caches scripts c = Ok v /\
    match v with
    | Valid r => exists undo, cache_inv (cd_view r) /\ cache_best (cd_view r) = CBlockHeader_GetHash (header block) /\
        cd_undo r = mkCBlockUndo (map mkCTxUndo (tail undo)) /\ (exists b, CheckBlock block params true true = Ok (Valid b)) /\
        block_effect (Chain.nHeight (at_ (bt_heap t) pindex)) (vtx block) (cache_abs c) = Some (undo, cache_abs (cd_view r)) /\
        block_connects env params cfg t block pindex scripts (cache_abs c) (cache_abs (cd_view r)) undo
    | Invalid _ => (exists r, CheckBlock block params true true = Ok (Invalid r)) \/
        forall u' undo, ~ block_connects env params cfg t block pindex scripts (cache_abs c) u' undo
    end.
Proof.
  intros Hca Hins. destruct (ConnectBlock_ok env params cfg t block pindex prev caches scripts c Hca Hins) as (v & -> & Hv). exists v. split; [done|].
  destruct v as [r|r]; [|destruct Hv as [Hv|(_ & _ & Hv)]; [by left|by right]]. destruct Hv as (undo & Hi & Hb & Hu & _ & _ & _ & _ & _ & Hck & Hs). exists undo. split_and!; [exact Hi|exact Hb|exact Hu|exact Hck| |exact Hs].
  destruct Hs as (? & ? & _ & _ & Hs & _). by eapply txs_connect_effect.
Qed.

(** C6: Disconnecting undoes connecting.  When [ConnectBlock] accepts a block,
    [DisconnectBlock] with the undo data it wrote reports a clean result and
    gives back a view of the same outputs with the parent as its best block.  The
    node is as [connectable] says (ids of the block do not collide, segregated
    witness only with BIP 16, a block exempt from BIP 30 overwrites nothing), the
    files are written, and no transaction names an input twice ([inputs_once]),
    which [ConnectBlock] does not check. *)
Theorem disconnect_inverts_connect env params cfg t block pindex prev caches scripts (c : CCashViewCache S) :
  connectable params cfg t block pindex prev caches c -> inputs_once block -> uint256_IsNull (phashBlock (at_ (bt_heap t) prev)) = false ->
  exists v, ConnectBlock env params cfg t block pindex false true true caches scripts c = Ok v /\
    forall r, v = Valid r ->
      exists c', DisconnectBlock (bt_heap (cd_tree r)) block pindex (Some (cd_undo r)) (cd_view r) = Ok (DISCONNECT_OK, c') /\
        cache_inv c' /\ cache_abs c' = cache_abs c /\ cache_best c' = cache_best c.
Proof.
  intros Hca Hins Hnull. destruct (ConnectBlock_ok env params cfg t block pindex prev caches scripts c Hca Hins) as (v & -> & Hv). exists v. split; [done|].
  intros r ->. destruct Hv as (undo & Hi & _ & -> & Hcb & Hfine & (status & _ & Etree) & _ & _ & _ & Hs).
  assert (Hl : same_links (bt_heap t) (bt_heap (cd_tree r))) by (rewrite Etree; apply set_status_links). pose proof (connectable_fresh _ _ _ _ _ _ _ _ _ _ _ _ Hca Hins Hcb Hfine Hs) as Hfr.
  destruct Hs as (? & ? & _ & _ & Hs & _). apply txs_connect_effect in Hs.
  destruct (same_links_at _ _ pindex Hl) as (_ & _ & Ep & _ & Eh & _). destruct (same_links_at _ _ prev Hl) as (_ & Eph & _).
  pose proof (ca_height _ _ _ _ _ _ _ _ Hca). pose proof (ca_prev _ _ _ _ _ _ _ _ Hca) as Hprev.
  destruct (DisconnectBlock_ok (bt_heap (cd_tree r)) block pindex prev (cd_view r) (cache_abs c) undo Hi Hcb (ca_txs _ _ _ _ _ _ _ _ Hca)) as (c' & Hd & Hi' & Ha' & Hb');
    rewrite ?Eh, ?Ep, ?Eph; [lia|apply (ca_coins _ _ _ _ _ _ _ _ Hca)|exact Hfr|exact Hs|exact Hprev|exact Hnull|].
  exists c'. rewrite Eph in Hb'. split_and!; [exact Hd|exact Hi'|exact Ha'|]. rewrite Hb'. symmetry. apply (ca_best _ _ _ _ _ _ _ _ Hca).
Qed.

(** C5: The supply.  Connecting a block none of whose transactions names an input
    twice raises the total value of the unspent outputs by no more than the
    subsidy of its height.  The condition, [inputs_once], is not one that
    [ConnectBlock] checks, and without it the claim fails, as [twice_block] below
    shows; the other conditions on the node and the block are [connectable]. *)
Theorem supply_grows_by_subsidy env params cfg t block pindex prev caches scripts (c : CCashViewCache S) :
  connectable params cfg t block pindex prev caches c -> inputs_once block ->
  exists v, ConnectBlock env params cfg t block pindex false true true caches scripts c = Ok v /\
    forall r, v = Valid r ->
      total_value (cache_abs (cd_view r)) <= total_value (cache_abs c) + GetBlockSubsidy (Chain.nHeight (at_ (bt_heap t) pindex)) params.
Proof.
  intros Hca Hins. destruct (ConnectBlock_ok env params cfg t block pindex prev caches scripts c Hca Hins) as (v & -> & Hv). exists v. split; [done|].
  intros r ->. destruct Hv as (undo & _ & _ & _ & Hcb & Hfine & _ & _ & _ & _ & Hs). pose proof (connectable_fresh _ _ _ _ _ _ _ _ _ _ _ _ Hca Hins Hcb Hfine Hs) as Hfr.
  destruct Hs as (fsc & fees & _ & _ & Hs & Hrw). by eapply total_block.
Qed.

(** C16: Script checks in threads change no verdict.  Whether scripts are checked
    while the transactions are connected or by the check queue at the end, a
    block is accepted or rejected alike, with the same outputs, undo data and
    best block.  The node is as [connectable] says, the files are written, and no
    transaction of the block names an input twice ([inputs_once]), which
    [ConnectBlock] does not check. *)
Theorem parallel_is_serial env params t block pindex prev caches scripts (c : CCashViewCache S) assume work n m :
  connectable params (mkNodeConfig assume work n) t block pindex prev caches c -> inputs_once block ->
  exists v w, ConnectBlock env params (mkNodeConfig assume work n) t block pindex false true true caches scripts c = Ok v /\
    ConnectBlock env params (mkNodeConfig assume work m) t block pindex false true true caches scripts c = Ok w /\
    match v, w with
    | Valid r, Valid s => cache_abs (cd_view r) = cache_abs (cd_view s) /\ cd_undo r = cd_undo s /\ cache_best (cd_view r) = cache_best (cd_view s)
    | Invalid _, Invalid _ => True
    | _, _ => False
    end.
Proof.
  intros Hca Hins. destruct (ConnectBlock_ok env params (mkNodeConfig assume work n) t block pindex prev caches scripts c Hca Hins) as (v & -> & Hv).
  assert (Hca' : connectable params (mkNodeConfig assume work m) t block pindex prev caches c) by (destruct Hca; split; assumption).
  destruct (ConnectBlock_ok env params (mkNodeConfig assume work m) t block pindex prev caches scripts c Hca' Hins) as (w & -> & Hw).
  exists v, w. split_and!; [done..|].
  destruct v as [r|r], w as [s|s]; [| | |done].
  - destruct Hv as (un1 & _ & Eb1 & -> & _ & _ & _ & _ & _ & _ & ? & ? & _ & _ & H1 & _), Hw as (un2 & _ & Eb2 & -> & _ & _ & _ & _ & _ & _ & ? & ? & _ & _ & H2 & _).
    apply txs_connect_effect in H1, H2. rewrite H1 in H2. injection H2 as -> ->. rewrite Eb1, Eb2. done.
  - destruct Hv as (un & _ & _ & _ & _ & _ & _ & _ & _ & Hck & Hs). destruct Hw as [(x & Hx)|(_ & _ & Hw)]; [destruct Hck as [b Hb]; rewrite Hb in Hx; discriminate Hx|].
    by destruct (Hw _ _ Hs).
  - destruct Hw as (un & _ & _ & _ & _ & _ & _ & _ & _ & Hck & Hs). destruct Hv as [(x & Hx)|(_ & _ & Hv)]; [destruct Hck as [b Hb]; rewrite Hb in Hx; discriminate Hx|].
    by destruct (Hv _ _ Hs).
Qed.
End Properties.

Lemma ConnectBlock_correct_witness : exists r undo, spend_connects 0 = Ok (Valid r) /\
  block_effect 1 [spend_cashbase; spend_tx] (cache_abs spend_view) = Some (undo, cache_abs (cd_view r)).
Proof.
  destruct (ConnectBlock_correct spend_env easy_params (spend_cfg 0) spend_tree spend_block 2 1 [∅; ∅; ∅] ∅ spend_view (spend_connectable 0) spend_once) as (v & Ev & Hv).
  destruct (accepts_Valid _ _ Ev spend_accepted) as [r ->]. destruct Hv as (undo & _ & _ & _ & _ & Hu & _). exists r, undo. split; [exact Ev|].
  replace (Chain.nHeight (at_ (bt_heap spend_tree) 2)) with 1 in Hu by (vm_compute; reflexivity). exact Hu.
Defined.

Lemma disconnect_inverts_connect_witness : exists r c', spend_connects 0 = Ok (Valid r) /\
  DisconnectBlock (bt_heap (cd_tree r)) spend_block 2 (Some (cd_undo r)) (cd_view r) = Ok (DISCONNECT_OK, c') /\ cache_abs c' = cache_abs spend_view.
Proof.
  destruct (disconnect_inverts_connect spend_env easy_params (spend_cfg 0) spend_tree spend_block 2 1 [∅; ∅; ∅] ∅ spend_view (spend_connectable 0) spend_once) as (v & Ev & Hv);
    [vm_compute; reflexivity|].
  destruct (accepts_Valid _ _ Ev spend_accepted) as [r ->]. destruct (Hv r eq_refl) as (c' & Hd & _ & Ha & _). exists r, c'. exact (conj Ev (conj Hd Ha)).
Defined.

Lemma supply_grows_by_subsidy_witness : exists r, spend_connects 0 = Ok (Valid r) /\ total_value (cache_abs (cd_view r)) <= 56 * CASH.
Proof.
  destruct (supply_grows_by_subsidy spend_env easy_params (spend_cfg 0) spend_tree spend_block 2 1 [∅; ∅; ∅] ∅ spend_view (spend_connectable 0) spend_once) as (v & Ev & Hv).
  destruct (accepts_Valid _ _ Ev spend_accepted) as [r ->]. specialize (Hv r eq_refl). exists r. split; [exact Ev|].
  replace (total_value (cache_abs spend_view) + GetBlockSubsidy (Chain.nHeight (at_ (bt_heap spend_tree) 2)) easy_params) with (56 * CASH) in Hv by (vm_compute; reflexivity).
  exact Hv.
Defined.

Lemma parallel_is_serial_witness : exists r s, spend_connects 0 = Ok (Valid r) /\ spend_connects 4 = Ok (Valid s) /\
  cache_abs (cd_view r) = cache_abs (cd_view s).
Proof.
  destruct (parallel_is_serial spend_env easy_params spend_tree spend_block 2 1 [∅; ∅; ∅] ∅ spend_view uint256_null arith_zero 0 4 (spend_connectable 0) spend_once)
    as (v & w & Ev & Ew & Hvw).
  destruct (accepts_Valid _ _ Ev spend_accepted) as [r ->]. destruct w as [s|]; [|destruct Hvw]. exists r, s. exact (conj Ev (conj Ew (proj1 Hvw))).
Defined.

(** ** A transaction that names an input twice *)
Definition twice_tx : CTransaction :=
  let i := mkCTxIn (mkCOutPoint (repeat 7 32) 1) [] 0xffffffff [] in mkCTransaction 1 [i; i] [mkCTxOut (12 * CASH) [OP_1]] 0.
Definition twice_block : CBlock := Eval vm_compute in
  mkCBlock (mkCBlockHeader 4 (CBlockHeader_GetHash easy_genesis) (Hash2 (GetHash easy_cashbase) (GetHash twice_tx)) 1231006999 0x2001ffff 35)
    [easy_cashbase; twice_tx] false.
Definition twice_tree : BlockTree := Eval vm_compute in tree_with twice_block.

(** C17: Without the rule that no transaction names an input twice the supply is
    not safe.  [CheckBlock] asks [CheckTransaction] not to look for duplicate
    inputs, and spending an output that is in the cache but not FRESH twice
    succeeds, so a block with such a transaction is accepted and creates value:
    six coins and the subsidy of fifty become sixty-two. *)
Theorem duplicate_inputs_create_value :
  CheckTransaction twice_tx true = DoS 100 "bad-txns-inputs-duplicate" /\
  CheckTransaction twice_tx false = Valid tt /\
  exists r, ConnectBlock spend_env easy_params (spend_cfg 0) twice_tree twice_block 2 false true true [∅; ∅; ∅] ∅ spend_view = Ok (Valid r) /\
    total_value (cache_abs spend_view) + GetBlockSubsidy 1 easy_params = 56 * CASH /\ total_value (cache_abs (cd_view r)) = 62 * CASH.
Proof.
  split; [vm_compute; reflexivity|]. split; [vm_compute; reflexivity|].
  assert (Htot : match ConnectBlock spend_env easy_params (spend_cfg 0) twice_tree twice_block 2 false true true [∅; ∅; ∅] ∅ spend_view with
    | Ok (Valid r) => Some (total_value (cache_abs (cd_view r))) | _ => None end = Some (62 * CASH)) by (vm_compute; reflexivity).
  destruct (ConnectBlock _ _ _ _ _ _ _ _ _ _ _ _) as [[r|]|]; [|discriminate Htot|discriminate Htot]. apply (inj Some) in Htot.
  exists r. split; [reflexivity|]. split; [vm_compute; reflexivity|exact Htot].
Qed.

(** C38: The money supply.  With the halving interval of the network, 210000, the
    subsidies of all heights add up to 2099999997690000 units from height 6930000
    on, and no more are ever paid; this is more than [MAX_MONEY], the largest
    amount [MoneyRange] lets pass. *)
Theorem total_subsidy (params : Params) (n : nat) :
  nSubsidyHalvingInterval params = 210000 -> 33 * 210000 <= Z.of_nat n ->
  subsidies params n = 2099999997690000 /\ MoneyRange (subsidies params n) = false.
Proof.
  intros Hi Hn. rewrite subsidies_closed by lia. rewrite Hi.
  assert (Hq : 33 <= Z.of_nat n / 210000) by (apply Z.div_le_lower_bound; lia).
  rewrite halved_zero by done.
  rewrite (halved_sum_end (Z.to_nat _)) by lia. rewrite Z.mul_0_r. vm_compute. split; reflexivity.
Qed.

Lemma total_subsidy_witness : subsidies easy_params (Z.to_nat 6930000) = 2099999997690000.
Proof. apply (total_subsidy easy_params (Z.to_nat 6930000)); [reflexivity|rewrite Z2Nat.id by lia; lia]. Defined.
