(* ===== verification/CheckQueue.v ===== *)
(** * The queue of checks (checkqueue.h)

    Worker threads and one master process a queue of checks under a mutex. What a
    thread does while it holds the mutex is one step, so the model is a relation
    between states of the queue and of every thread; checks run outside of the
    mutex, one step each. A thread that waits on its condition variable stays
    there until it is notified; waking up without a notification is a step of
    its own. The master adds batches of checks and then calls [Wait]; when that
    has returned it may start over ([CCheckQueueControl]). *)
From S2P Require Import Prelude.

Section CheckQueue.
Context {T : Type} (run : T -> bool) (nBatchSize : Z).

(** ** The state *)
Record CCheckQueue := mkCCheckQueue {
  queue : list T;
  nIdle : Z;
  nTotal : Z;
  fAllOk : bool;
  nTodo : Z;
}.

(** Where a thread is in [Loop]: about to take the lock, in [cond.wait], notified
    and about to take the lock again, or running its batch. *)
Inductive Pc := Lock | Waiting | Notified | Work (vChecks : list T).
Record Thread := mkThread { pc : Pc; nNow : Z; fOk : bool }.

(** A thread that calls [Loop]. *)
Definition Loop_start : Thread := mkThread Lock 0 true.

Inductive Master := Adding (batches : list (list T)) | Looping (t : Thread) | Returned (fRet : bool).

(** [checks] are those added since the last [Wait]. *)
Record State := mkState { shared : CCheckQueue; workers : list Thread; master : Master; checks : list T }.

(** ** The critical section of Loop *)

(** The clean-up of the previous run: the queue, and whether the master is notified. *)
Definition clean_up (fMaster : bool) (t : Thread) (q : CCheckQueue) : CCheckQueue * bool :=
  if negb (nNow t =? 0) then
    let todo := u32 (nTodo q - nNow t) in
    (mkCCheckQueue (queue q) (nIdle q) (nTotal q) (fAllOk q && fOk t) todo, (todo =? 0) && negb fMaster)
  else (mkCCheckQueue (queue q) (nIdle q) (nTotal q + 1) (fAllOk q) (nTodo q), false).

(** How many checks to take: [(unsigned int)queue.size() / (nTotal + nIdle + 1)], at least one and at most a batch. *)
Definition batch_size (q : CCheckQueue) : Z :=
  Z.max 1 (Z.min nBatchSize (u32 (zlen (queue q)) / u32 (nTotal q + nIdle q + 1))).

(** The loop while the queue is empty, then the batch from the back of the
    queue: the queue, and what the thread does or returns. *)
Definition take_batch (fMaster : bool) (t : Thread) (q : CCheckQueue) : CCheckQueue * (Thread + bool) :=
  match queue q with
  | [] =>
      if fMaster && (nTodo q =? 0) then (mkCCheckQueue [] (nIdle q) (nTotal q - 1) true (nTodo q), inr (fAllOk q))
      else (mkCCheckQueue [] (nIdle q + 1) (nTotal q) (fAllOk q) (nTodo q), inl (mkThread Waiting (nNow t) (fOk t)))
  | _ =>
      let n := batch_size q in
      (mkCCheckQueue (take (length (queue q) - Z.to_nat n) (queue q)) (nIdle q) (nTotal q) (fAllOk q) (nTodo q),
       inl (mkThread (Work (take (Z.to_nat n) (rev (queue q)))) n (fAllOk q)))
  end.

(** From taking the lock to giving it up, from the top of the loop or from the
    wait: the queue, the thread and whether the master is notified. *)
Definition critical_section (fMaster : bool) (t : Thread) (q : CCheckQueue) : option (CCheckQueue * (Thread + bool) * bool) :=
  match pc t with
  | Lock => let '(q, notify) := clean_up fMaster t q in Some (take_batch fMaster t q, notify)
  | Notified => Some (take_batch fMaster t (mkCCheckQueue (queue q) (nIdle q - 1) (nTotal q) (fAllOk q) (nTodo q)), false)
  | _ => None
  end.

(** The next check of a batch, or the way back to the lock. *)
Definition work (t : Thread) : option Thread :=
  match pc t with
  | Work (check :: vChecks) => Some (mkThread (Work vChecks) (nNow t) (if fOk t then run check else fOk t))
  | Work [] => Some (mkThread Lock (nNow t) (fOk t))
  | _ => None
  end.

(** ** Notifications *)
Definition notify (t : Thread) : Thread :=
  match pc t with Waiting => mkThread Notified (nNow t) (fOk t) | _ => t end.

Definition is_waiting (t : Thread) : bool := match pc t with Waiting => true | _ => false end.

Definition notify_master (b : bool) (m : Master) : Master :=
  match m with Looping t => if b then Looping (notify t) else m | _ => m end.

(** [condWorker.notify_one] for one check, [notify_all] for more. *)
Inductive notify_workers (n : Z) (ws : list Thread) : list Thread -> Prop :=
  | notify_none : n = 0 -> notify_workers n ws ws
  | notify_nobody : n = 1 -> Forall (fun t => is_waiting t = false) ws -> notify_workers n ws ws
  | notify_one l1 t l2 : n = 1 -> ws = l1 ++ t :: l2 -> is_waiting t = true -> notify_workers n ws (l1 ++ notify t :: l2)
  | notify_all : 1 < n -> notify_workers n ws (map notify ws).

(** [Add]. *)
Definition Add (vChecks : list T) (q : CCheckQueue) : CCheckQueue :=
  mkCCheckQueue (queue q ++ vChecks) (nIdle q) (nTotal q) (fAllOk q) (u32 (nTodo q + zlen vChecks)).

(** ** Steps *)
Inductive step : State -> State -> Prop :=
  | step_add vChecks batches q ws ws' l : notify_workers (zlen vChecks) ws ws' ->
      step (mkState q ws (Adding (vChecks :: batches)) l) (mkState (Add vChecks q) ws' (Adding batches) (l ++ vChecks))
  | step_wait q ws l : step (mkState q ws (Adding []) l) (mkState q ws (Looping Loop_start) l)
  | step_worker q q' l1 t t' l2 b m l : critical_section false t q = Some (q', inl t', b) ->
      step (mkState q (l1 ++ t :: l2) m l) (mkState q' (l1 ++ t' :: l2) (notify_master b m) l)
  | step_worker_work q l1 t t' l2 m l : work t = Some t' -> step (mkState q (l1 ++ t :: l2) m l) (mkState q (l1 ++ t' :: l2) m l)
  | step_master q q' ws t t' b l : critical_section true t q = Some (q', inl t', b) ->
      step (mkState q ws (Looping t) l) (mkState q' ws (Looping t') l)
  | step_master_work q ws t t' l : work t = Some t' -> step (mkState q ws (Looping t) l) (mkState q ws (Looping t') l)
  | step_return q q' ws t fRet b l : critical_section true t q = Some (q', inr fRet, b) ->
      step (mkState q ws (Looping t) l) (mkState q' ws (Returned fRet) l).

(** Wake-ups nobody asked for. *)
Inductive spurious : State -> State -> Prop :=
  | spurious_worker q l1 t l2 m l : is_waiting t = true -> spurious (mkState q (l1 ++ t :: l2) m l) (mkState q (l1 ++ notify t :: l2) m l)
  | spurious_master q ws t l : is_waiting t = true -> spurious (mkState q ws (Looping t) l) (mkState q ws (Looping (notify t)) l).

(** A new control with the batches it will add. *)
Inductive new_control : State -> State -> Prop :=
  | new_round q ws b l batches : zlen (concat batches) < 2 ^ 32 ->
      new_control (mkState q ws (Returned b) l) (mkState q ws (Adding batches) []).

(** A queue with [n] threads that are about to start, and a master with its first batches. *)
Definition initial (n : nat) (batches : list (list T)) : State :=
  mkState (mkCCheckQueue [] 0 0 true 0) (replicate n Loop_start) (Adding batches) [].

Definition reachable (n : nat) (batches : list (list T)) (s : State) : Prop :=
  rtc (fun s s' => step s s' \/ spurious s s' \/ new_control s s') (initial n batches) s.

(** * The invariant *)

(** Checks a thread has taken and not reported, whether they are all right as far
    as the thread knows or will know, whether it is idle and whether it is counted. *)
Definition pend (t : Thread) : Z := match pc t with Lock | Work _ => nNow t | _ => 0 end.
Definition good (t : Thread) : bool :=
  match pc t with Lock => (nNow t =? 0) || fOk t | Work v => fOk t && forallb run v | _ => true end.
Definition idle (t : Thread) : Z := match pc t with Waiting | Notified => 1 | _ => 0 end.
Definition started (t : Thread) : Z := match pc t with Lock => if nNow t =? 0 then 0 else 1 | _ => 1 end.
Definition thread_ok (t : Thread) : Prop := 0 <= nNow t /\ match pc t with Work v => 1 <= nNow t | _ => True end.

Definition master_threads (m : Master) : list Thread := match m with Looping t => [t] | _ => [] end.
Definition threads (s : State) : list Thread := workers s ++ master_threads (master s).
Definition to_add (m : Master) : list T := match m with Adding l => concat l | _ => [] end.

(** The outcome as it stands. *)
Definition outcome (q : CCheckQueue) (l : list Thread) : bool := fAllOk q && forallb good l && forallb run (queue q).

Record inv (s : State) : Prop := {
  inv_threads : Forall thread_ok (threads s);
  inv_todo : nTodo (shared s) = zlen (queue (shared s)) + zsum (map pend (threads s));
  inv_idle : nIdle (shared s) = zsum (map idle (threads s));
  inv_total : nTotal (shared s) = zsum (map started (threads s));
  inv_count : zlen (workers s) < 2 ^ 30;
  inv_bound : zlen (checks s) + zlen (to_add (master s)) < 2 ^ 32;
  inv_few : nTodo (shared s) <= zlen (checks s);
  inv_outcome : outcome (shared s) (threads s) = match master s with Returned _ => true | _ => forallb run (checks s) end;
  inv_waiting : forall t, master s = Looping t -> pc t = Waiting -> queue (shared s) = [] /\ nTodo (shared s) <> 0;
  inv_returned : forall fRet, master s = Returned fRet -> fRet = forallb run (checks s) /\ nTodo (shared s) = 0;
}.

(** ** Sums over threads *)

Lemma sum_middle {A} (f : A -> Z) l1 x l2 : zsum (map f (l1 ++ x :: l2)) = f x + zsum (map f (l1 ++ l2)).
Proof. rewrite !map_app. cbn [map]. rewrite !zsum_app, zsum_cons. lia. Qed.

Lemma forallb_middle {A} (f : A -> bool) l1 x l2 : forallb f (l1 ++ x :: l2) = f x && forallb f (l1 ++ l2).
Proof. rewrite !forallb_app. cbn [forallb]. destruct (f x), (forallb f l1), (forallb f l2); reflexivity. Qed.

Lemma pend_nonneg l : Forall thread_ok l -> 0 <= zsum (map pend l).
Proof.
  intros Hl. apply zsum_nonneg, Forall_map. eapply Forall_impl; [|exact Hl]. intros t [? _]. unfold pend. by destruct (pc t).
Qed.

Lemma idle_bounds l : 0 <= zsum (map idle l) <= zlen l.
Proof.
  induction l as [|t l IH]; cbn [map]; [unfold zsum, zlen; simpl; lia|]. rewrite zsum_cons, zlen_cons. unfold idle at 1 3. destruct (pc t); lia.
Qed.

Lemma started_bounds l : 0 <= zsum (map started l) <= zlen l.
Proof.
  induction l as [|t l IH]; cbn [map]; [unfold zsum, zlen; simpl; lia|]. rewrite zsum_cons, zlen_cons. unfold started at 1 3.
  destruct (pc t); try lia. destruct (nNow t =? 0); lia.
Qed.

(** ** The critical section *)

(** The queue and a thread, with the sums over the other threads. *)
Record local_inv (P I U : Z) (q : CCheckQueue) (t : Thread) : Prop := {
  li_thread : thread_ok t;
  li_todo : nTodo q = zlen (queue q) + pend t + P;
  li_idle : nIdle q = idle t + I;
  li_total : nTotal q = started t + U;
  li_others : 0 <= P /\ 0 <= I < 2 ^ 30 + 1 /\ 0 <= U < 2 ^ 30 + 1;
  li_bound : nTodo q < 2 ^ 32;
}.

Lemma batch_size_ok q : queue q <> [] -> zlen (queue q) < 2 ^ 32 -> 0 <= nTotal q + nIdle q < 2 ^ 32 - 1 -> 1 <= batch_size q <= zlen (queue q).
Proof.
  intros Hq Hl Hn. unfold batch_size. pose proof (zlen_nonneg (queue q)). assert (zlen (queue q) <> 0) by (by rewrite zlen_nil_iff).
  rewrite !u32_small by (unfold is_u32; lia). split; [lia|]. apply Z.max_lub; [lia|]. etransitivity; [apply Z.le_min_r|].
  apply Z.div_le_upper_bound; [lia|]. nia.
Qed.

Lemma forallb_rev {A} (f : A -> bool) l : forallb f (rev l) = forallb f l.
Proof. induction l as [|x l IH]; cbn [rev forallb]; [done|]. rewrite forallb_app, IH. cbn [forallb]. rewrite andb_true_r. apply andb_comm. Qed.

Lemma take_back {A} (f : A -> bool) (l : list A) n : (n <= length l)%nat ->
  forallb f (take (length l - n) l) && forallb f (take n (rev l)) = forallb f l.
Proof.
  intros Hn. rewrite <- (forallb_rev f (take n (rev l))). rewrite <- (take_drop (length l - n) l) at 4. rewrite forallb_app. f_equal. f_equal.
  by rewrite firstn_rev, rev_involutive.
Qed.

Lemma take_batch_ok fMaster P I U t q q' r :
  take_batch fMaster t q = (q', r) -> 0 <= nNow t -> nTodo q = zlen (queue q) + P -> nIdle q = I -> nTotal q = 1 + U ->
  0 <= P -> 0 <= I < 2 ^ 30 + 1 -> 0 <= U < 2 ^ 30 + 1 -> nTodo q < 2 ^ 32 ->
  nTodo q' = nTodo q /\
  match r with
  | inl t' => local_inv P I U q' t' /\ fAllOk q' && good t' && forallb run (queue q') = fAllOk q && forallb run (queue q) /\
      (pc t' = Waiting -> queue q' = [] /\ (fMaster = true -> nTodo q <> 0)) /\ pc t' <> Lock /\ pc t' <> Notified /\
      (queue q = [] -> queue q' = [] /\ pc t' = Waiting) /\
      (queue q <> [] -> zlen (queue q') < zlen (queue q) /\ exists v, pc t' = Work v /\ zlen v + zlen (queue q') = zlen (queue q))
  | inr fRet => fMaster = true /\ nTodo q' = 0 /\ queue q' = [] /\ P = 0 /\ fRet = fAllOk q && forallb run (queue q) /\ fAllOk q' = true /\ nIdle q' = I /\ nTotal q' = U
  end.
Proof.
  intros Hr Hnow Htodo Hidle Htot HP HI HU Hb. unfold take_batch in Hr. destruct (queue q) as [|x l] eqn:Eq.
  - change (zlen (@nil T)) with 0 in *. destruct (fMaster && (nTodo q =? 0)) eqn:E; injection Hr as <- <-; cbn [nTodo queue fAllOk nIdle nTotal].
    + apply andb_true_iff in E as [-> E%Z.eqb_eq]. split_and!; try done; try lia. by rewrite andb_true_r.
    + split; [done|]. split_and!; try done; [split; unfold thread_ok, pend, idle, started; cbn [pc nNow nTodo nIdle nTotal queue];
        change (zlen (@nil T)) with 0; try lia; by split|by rewrite andb_true_r|].
      intros _. split; [done|]. intros ->. cbn [andb] in E. by apply Z.eqb_neq.
  - rewrite <- Eq in *. assert (Hne : queue q <> []) by (by rewrite Eq). pose proof (zlen_nonneg (queue q)).
    destruct (batch_size_ok q Hne ltac:(lia) ltac:(lia)) as [H1 H2]. set (n := batch_size q) in *. clearbody n. injection Hr as <- <-. cbn [nTodo queue fAllOk].
    assert (Hln : (Z.to_nat n <= length (queue q))%nat) by (unfold zlen in H2; lia).
    assert (Hq' : zlen (take (length (queue q) - Z.to_nat n) (queue q)) = zlen (queue q) - n) by (unfold zlen in *; rewrite length_take; lia).
    split; [done|]. split_and!; try done.
    + split; cbn [nTodo queue nIdle nTotal]; unfold thread_ok, pend, idle, started; cbn [pc nNow]; lia.
    + unfold good. cbn [pc fOk]. rewrite <- (take_back run (queue q) (Z.to_nat n) Hln). destruct (fAllOk q); [|done]. cbn [andb]. apply andb_comm.
    + intros _. split; [lia|]. eexists. split; [done|]. rewrite Hq'. unfold zlen. rewrite length_take, length_rev. unfold zlen in *. lia.
Qed.

Lemma critical_section_ok fMaster P I U t q q' r b :
  critical_section fMaster t q = Some (q', r, b) -> local_inv P I U q t ->
  0 <= nTodo q' <= nTodo q /\ (b = true -> fMaster = false /\ nTodo q' = 0) /\ (b = false -> fMaster = false -> nTodo q' = 0 -> nTodo q = 0) /\
  match r with
  | inl t' => local_inv P I U q' t' /\ fAllOk q' && good t' && forallb run (queue q') = fAllOk q && good t && forallb run (queue q) /\
      (pc t' = Waiting -> queue q' = [] /\ (fMaster = true -> nTodo q' <> 0)) /\ pc t' <> Lock /\ pc t' <> Notified /\
      (queue q = [] -> queue q' = [] /\ pc t' = Waiting) /\
      (queue q <> [] -> zlen (queue q') < zlen (queue q) /\ exists v, pc t' = Work v /\ zlen v + zlen (queue q') = zlen (queue q))
  | inr fRet => fMaster = true /\ nTodo q' = 0 /\ queue q' = [] /\ P = 0 /\ fRet = fAllOk q && good t && forallb run (queue q) /\ fAllOk q' = true /\ nIdle q' = I /\ nTotal q' = U
  end.
Proof.
  intros Hcs [Ht Htodo Hidle Htot (HP & HI & HU) Hb]. unfold critical_section in Hcs. pose proof (zlen_nonneg (queue q)). destruct Ht as [Hnow Ht].
  unfold pend, idle, started, good in *. destruct (pc t) eqn:Ep; try discriminate Hcs.
  - unfold clean_up in Hcs. destruct (Z.eqb_spec (nNow t) 0) as [E0|E0]; cbn [negb orb] in *.
    + destruct (take_batch _ _ _) as [q1 r1] eqn:Eb. injection Hcs as <- <- <-. apply (take_batch_ok _ P I U) in Eb; cbn [nTodo queue nIdle nTotal fAllOk]; try lia.
      cbn [nTodo queue fAllOk] in Eb. destruct Eb as [E1 Eb]. rewrite E1 in *. rewrite andb_true_r. split; [lia|]. split; [done|]. split; [done|exact Eb].
    + rewrite u32_small in Hcs by (unfold is_u32; lia).
      destruct (take_batch _ _ _) as [q1 r1] eqn:Eb. injection Hcs as <- <- <-. apply (take_batch_ok _ P I U) in Eb; cbn [nTodo queue nIdle nTotal fAllOk]; try lia.
      cbn [nTodo queue fAllOk] in Eb. destruct Eb as [E1 Eb]. rewrite E1 in *. split; [lia|]. split.
      { intros [?%Z.eqb_eq ->%negb_true_iff]%andb_true_iff. done. }
      split; [|exact Eb]. intros [Hz%Z.eqb_neq|?%negb_false_iff]%andb_false_iff; [done|congruence].
  - destruct (take_batch _ _ _) as [q1 r1] eqn:Eb. injection Hcs as <- <- <-. apply (take_batch_ok _ P I U) in Eb; cbn [nTodo queue nIdle nTotal fAllOk]; try lia.
    cbn [nTodo queue fAllOk] in Eb. destruct Eb as [E1 Eb]. rewrite E1 in *. rewrite andb_true_r. split; [lia|]. split; [done|]. split; [done|exact Eb].
Qed.

(** ** Notifications change nothing that counts *)

Definition woken (l l' : list Thread) : Prop := Forall2 (fun t t' => t' = t \/ t' = notify t) l l'.

Lemma notify_same t : pend (notify t) = pend t /\ good (notify t) = good t /\ idle (notify t) = idle t /\ started (notify t) = started t /\
  (thread_ok t -> thread_ok (notify t)).
Proof. unfold notify. destruct (pc t) eqn:E; try done. unfold pend, good, idle, started, thread_ok. cbn [pc nNow fOk]. by rewrite E. Qed.

Lemma woken_same l l' : woken l l' ->
  map pend l' = map pend l /\ forallb good l' = forallb good l /\ map idle l' = map idle l /\ map started l' = map started l /\
  (Forall thread_ok l -> Forall thread_ok l') /\ length l' = length l.
Proof.
  induction 1 as [|t t' l l' Ht _ (H1 & H2 & H3 & H4 & H5 & H6)]; [done|]. cbn [map forallb length]. rewrite H1, H2, H3, H4, H6.
  destruct (notify_same t) as (G1 & G2 & G3 & G4 & G5). destruct Ht as [-> | ->]; rewrite ?G1, ?G2, ?G3, ?G4; split_and!; try done;
    intros [? ?]%Forall_cons_1; constructor; auto.
Qed.

Lemma woken_refl l : woken l l.
Proof. induction l; constructor; [by left|done]. Qed.

Lemma notify_workers_woken n ws ws' : notify_workers n ws ws' -> woken ws ws'.
Proof.
  destruct 1 as [Hn|Hn Hf|l1 t l2 Hn Hws Hw|Hn]; [apply woken_refl..| |]; subst.
  - apply Forall2_app; [apply woken_refl|]. constructor; [by right|apply woken_refl].
  - induction ws; constructor; [by right|done].
Qed.

Lemma notify_master_woken b m : woken (master_threads m) (master_threads (notify_master b m)).
Proof. destruct m as [|t|], b; try apply woken_refl. constructor; [by right|constructor]. Qed.

(** ** The invariant is kept *)

Lemma sums_woken q l l' : woken l l' -> Forall thread_ok l -> nTodo q = zlen (queue q) + zsum (map pend l) ->
  nIdle q = zsum (map idle l) -> nTotal q = zsum (map started l) ->
  Forall thread_ok l' /\ nTodo q = zlen (queue q) + zsum (map pend l') /\ nIdle q = zsum (map idle l') /\ nTotal q = zsum (map started l') /\
  outcome q l' = outcome q l.
Proof. intros (H1 & H2 & H3 & H4 & H5 & _)%woken_same ? ? ? ?. unfold outcome. rewrite H1, H2, H3, H4. auto. Qed.

Lemma inv_wake q ws ws' m m' l : inv (mkState q ws m l) -> woken ws ws' ->
  (m' = m \/ exists t, m = Looping t /\ m' = Looping (notify t)) -> inv (mkState q ws' m' l).
Proof.
  intros [H1 H2 H3 H4 H5 H6 H7 H8 H9 H10] Hw Hm. unfold threads in *. cbn [shared workers master checks] in *.
  assert (Hwm : woken (master_threads m) (master_threads m')).
  { destruct Hm as [->|(t & -> & ->)]; [apply woken_refl|constructor; [by right|constructor]]. }
  destruct (sums_woken q _ _ (Forall2_app Hw Hwm) H1 H2 H3 H4) as (G1 & G2 & G3 & G4 & G5).
  split; cbn [shared workers master checks]; unfold threads; cbn [shared workers master checks]; try done.
  - apply woken_same in Hw as (_ & _ & _ & _ & _ & Hlen). unfold zlen in *. by rewrite Hlen.
  - by destruct Hm as [->|(t & -> & ->)].
  - rewrite G5, H8. by destruct Hm as [->|(t & -> & ->)].
  - intros t Ht Hp. destruct Hm as [->|(t0 & -> & ->)]; [by eapply H9|]. injection Ht as <-. unfold notify in Hp. destruct (pc t0) eqn:E; cbn in Hp; congruence.
  - destruct Hm as [->|(t & -> & ->)]; [done|]. by intros fRet [=].
Qed.

Lemma local_of_inv q l1 t l2 : Forall thread_ok (l1 ++ t :: l2) -> nTodo q = zlen (queue q) + zsum (map pend (l1 ++ t :: l2)) ->
  nIdle q = zsum (map idle (l1 ++ t :: l2)) -> nTotal q = zsum (map started (l1 ++ t :: l2)) -> zlen (l1 ++ l2) < 2 ^ 30 + 1 -> nTodo q < 2 ^ 32 ->
  local_inv (zsum (map pend (l1 ++ l2))) (zsum (map idle (l1 ++ l2))) (zsum (map started (l1 ++ l2))) q t /\ Forall thread_ok (l1 ++ l2).
Proof.
  rewrite !sum_middle. intros Hok H1 H2 H3 Hl Hb. assert (Hok' : thread_ok t /\ Forall thread_ok (l1 ++ l2)).
  { apply Forall_app in Hok as [? [? ?]%Forall_cons_1]. split; [done|]. by apply Forall_app. }
  destruct Hok' as [Ht Ho]. split; [|done]. pose proof (pend_nonneg _ Ho). pose proof (idle_bounds (l1 ++ l2)). pose proof (started_bounds (l1 ++ l2)).
  split; [done|lia..].
Qed.

Lemma inv_of_local q l1 t l2 : local_inv (zsum (map pend (l1 ++ l2))) (zsum (map idle (l1 ++ l2))) (zsum (map started (l1 ++ l2))) q t ->
  Forall thread_ok (l1 ++ l2) ->
  Forall thread_ok (l1 ++ t :: l2) /\ nTodo q = zlen (queue q) + zsum (map pend (l1 ++ t :: l2)) /\
  nIdle q = zsum (map idle (l1 ++ t :: l2)) /\ nTotal q = zsum (map started (l1 ++ t :: l2)).
Proof.
  intros [Ht H1 H2 H3 _ _] [Ho1 Ho2]%Forall_app. rewrite !sum_middle. split_and!; [apply Forall_app; split; [done|by constructor]|lia..].
Qed.

Lemma outcome_middle q l1 t l2 : outcome q (l1 ++ t :: l2) = fAllOk q && good t && forallb run (queue q) && forallb good (l1 ++ l2).
Proof. unfold outcome. rewrite forallb_middle. destruct (fAllOk q), (good t), (forallb run (queue q)), (forallb good (l1 ++ l2)); reflexivity. Qed.

(** A worker's critical section; the master may be notified. *)
Lemma inv_worker q q' l1 t t' l2 b m l : inv (mkState q (l1 ++ t :: l2) m l) -> critical_section false t q = Some (q', inl t', b) ->
  inv (mkState q' (l1 ++ t' :: l2) (notify_master b m) l).
Proof.
  intros [H1 H2 H3 H4 H5 H6 H7 H8 H9 H10] Hcs. unfold threads in *. cbn [shared workers master checks] in *. rewrite <- app_assoc in *. cbn [app] in *.
  set (mt := master_threads m) in *. pose proof (zlen_nonneg (to_add m)).
  assert (Hlen : zlen (l1 ++ l2 ++ mt) < 2 ^ 30 + 1).
  { rewrite zlen_app, zlen_cons in H5. rewrite !zlen_app. subst mt. destruct m; unfold zlen in *; cbn; lia. }
  destruct (local_of_inv q l1 t (l2 ++ mt) H1 H2 H3 H4 Hlen ltac:(lia)) as [Hloc Ho].
  destruct (critical_section_ok false _ _ _ _ _ _ _ _ Hcs Hloc) as (Htodo & Hb1 & Hb2 & Hloc' & Hout & Hw & _ & _ & Hq0 & _).
  destruct (inv_of_local q' l1 t' (l2 ++ mt) Hloc' Ho) as (G1 & G2 & G3 & G4).
  assert (Hwk : woken (l1 ++ t' :: l2 ++ mt) ((l1 ++ t' :: l2) ++ master_threads (notify_master b m))).
  { rewrite <- app_assoc. cbn [app]. apply Forall2_app; [apply woken_refl|]. constructor; [by left|]. apply Forall2_app; [apply woken_refl|apply notify_master_woken]. }
  destruct (sums_woken q' _ _ Hwk G1 G2 G3 G4) as (K1 & K2 & K3 & K4 & K5).
  split; cbn [shared workers master checks]; unfold threads; cbn [shared workers master checks]; try done.
  - rewrite zlen_app, zlen_cons in *. done.
  - destruct m; [done| |done]. by destruct b.
  - lia.
  - rewrite K5, outcome_middle, Hout, <- outcome_middle, H8. destruct m; [done| |done]. by destruct b.
  - intros tm Htm Hp. destruct m as [|tm0|]; [done| |done]. destruct b; cbn in Htm; injection Htm as <-.
    + unfold notify in Hp. destruct (pc tm0) eqn:E; cbn in Hp; congruence.
    + destruct (H9 tm0 eq_refl Hp) as [Hq Hn]. split; [by apply Hq0|]. intros E. by apply Hn, Hb2.
  - intros fRet Hr. destruct m as [|tm|f]; [done|by destruct b|]. destruct (H10 fRet Hr) as [-> E]. split; [done|lia].
Qed.

Lemma work_local P I U q t t' : work t = Some t' -> local_inv P I U q t -> local_inv P I U q t' /\
  fAllOk q && good t' && forallb run (queue q) = fAllOk q && good t && forallb run (queue q) /\ pc t' <> Waiting.
Proof.
  unfold work. intros Hw [[Hn Ht] H1 H2 H3 H4 H5]. destruct (pc t) as [| | |[|x v]] eqn:E; try discriminate Hw; injection Hw as <-;
    unfold thread_ok, pend, idle, started, good in *; rewrite E in *; (split; [|split; [|done]]).
  - split; unfold thread_ok, pend, idle, started; cbn [pc nNow]; [by split|lia|lia| |done|done]. destruct (Z.eqb_spec (nNow t) 0); lia.
  - cbn [pc nNow fOk forallb]. destruct (Z.eqb_spec (nNow t) 0); [lia|]. by rewrite andb_true_r.
  - split; unfold thread_ok, pend, idle, started; cbn [pc nNow]; [by split|lia..].
  - cbn [pc nNow fOk forallb]. by destruct (fOk t), (run x).
Qed.

Lemma inv_worker_work q l1 t t' l2 m l : inv (mkState q (l1 ++ t :: l2) m l) -> work t = Some t' -> inv (mkState q (l1 ++ t' :: l2) m l).
Proof.
  intros [H1 H2 H3 H4 H5 H6 H7 H8 H9 H10] Hw. unfold threads in *. cbn [shared workers master checks] in *. rewrite <- app_assoc in *. cbn [app] in *.
  set (mt := master_threads m) in *. pose proof (zlen_nonneg (to_add m)).
  assert (Hlen : zlen (l1 ++ l2 ++ mt) < 2 ^ 30 + 1).
  { rewrite zlen_app, zlen_cons in H5. rewrite !zlen_app. subst mt. destruct m; unfold zlen in *; cbn; lia. }
  destruct (local_of_inv q l1 t (l2 ++ mt) H1 H2 H3 H4 Hlen ltac:(lia)) as [Hloc Ho]. destruct (work_local _ _ _ _ _ _ Hw Hloc) as (Hloc' & Hout & _).
  destruct (inv_of_local q l1 t' (l2 ++ mt) Hloc' Ho) as (G1 & G2 & G3 & G4).
  split; cbn [shared workers master checks]; unfold threads; cbn [shared workers master checks]; rewrite <- ?app_assoc; cbn [app]; try done.
  - rewrite zlen_app, zlen_cons in *. done.
  - by rewrite outcome_middle, Hout, <- outcome_middle.
Qed.

(** The master's steps: it is the last of the threads. *)
Lemma inv_master_local q ws t l : inv (mkState q ws (Looping t) l) ->
  local_inv (zsum (map pend ws)) (zsum (map idle ws)) (zsum (map started ws)) q t /\ Forall thread_ok ws /\
  fAllOk q && good t && forallb run (queue q) && forallb good ws = forallb run l.
Proof.
  intros [H1 H2 H3 H4 H5 H6 H7 H8 H9 H10]. unfold threads in *. cbn [shared workers master checks master_threads to_add] in *. pose proof (zlen_nonneg (@nil T)).
  destruct (local_of_inv q ws t [] H1 H2 H3 H4) as [Hloc Ho]; rewrite ?app_nil_r in *; [lia|lia|]. split; [done|]. split; [done|].
  rewrite outcome_middle, app_nil_r in H8. done.
Qed.

Lemma inv_master q q' ws t t' l : inv (mkState q ws (Looping t) l) ->
  local_inv (zsum (map pend ws)) (zsum (map idle ws)) (zsum (map started ws)) q' t' ->
  fAllOk q' && good t' && forallb run (queue q') = fAllOk q && good t && forallb run (queue q) -> nTodo q' <= nTodo q ->
  (pc t' = Waiting -> queue q' = [] /\ nTodo q' <> 0) -> inv (mkState q' ws (Looping t') l).
Proof.
  intros Hinv Hloc Hout Hle Hw. destruct (inv_master_local q ws t l Hinv) as (_ & Ho & Hall). destruct Hinv as [_ _ _ _ H5 H6 H7 _ _ _].
  cbn [shared workers master checks] in *. rewrite <- (app_nil_r ws) in Ho, Hloc. destruct (inv_of_local q' ws t' [] Hloc Ho) as (G1 & G2 & G3 & G4).
  split; cbn [shared workers master checks]; unfold threads; cbn [shared workers master checks master_threads]; try done.
  - lia.
  - rewrite outcome_middle, app_nil_r, Hout. exact Hall.
  - intros t0 [= <-]. exact Hw.
Qed.

(** Threads without pending checks have nothing bad to report. *)
Lemma no_pending_good l : Forall thread_ok l -> zsum (map pend l) = 0 -> forallb good l = true /\ Forall (fun t => pend t = 0) l.
Proof.
  induction 1 as [|t l [Hn Ht] Hl IH]; cbn [map forallb]; [done|]. rewrite zsum_cons. intros Hs. pose proof (pend_nonneg l Hl).
  assert (0 <= pend t) by (unfold pend; destruct (pc t); lia). destruct IH as [-> IH]; [lia|]. rewrite andb_true_r. split; [|constructor; [lia|done]].
  unfold pend, good in *. destruct (pc t); try done; [|lia]. destruct (Z.eqb_spec (nNow t) 0); [done|lia].
Qed.

Lemma inv_return q q' ws t fRet b l : inv (mkState q ws (Looping t) l) -> critical_section true t q = Some (q', inr fRet, b) ->
  inv (mkState q' ws (Returned fRet) l).
Proof.
  intros Hinv Hcs. destruct (inv_master_local q ws t l Hinv) as (Hloc & Ho & Hall). destruct Hinv as [_ _ _ _ H5 H6 H7 _ _ _]. cbn [shared workers master checks to_add] in *.
  destruct (critical_section_ok true _ _ _ _ _ _ _ _ Hcs Hloc) as (Htodo & _ & _ & _ & E1 & E2 & E3 & E4 & E5 & E6 & E7).
  destruct (no_pending_good ws Ho E3) as [Hg _].
  split; cbn [shared workers master checks]; unfold threads; cbn [shared workers master checks master_threads]; rewrite ?app_nil_r; try done.
  - rewrite E1, E2, E3. reflexivity.
  - lia.
  - unfold outcome. by rewrite E5, E2, Hg.
  - intros f [= <-]. split; [|done]. rewrite Hg, andb_true_r in Hall. by rewrite E4.
Qed.

Lemma inv_add q ws ws' vChecks batches l : inv (mkState q ws (Adding (vChecks :: batches)) l) -> notify_workers (zlen vChecks) ws ws' ->
  inv (mkState (Add vChecks q) ws' (Adding batches) (l ++ vChecks)).
Proof.
  intros [H1 H2 H3 H4 H5 H6 H7 H8 H9 H10] Hn. apply notify_workers_woken in Hn. unfold threads in *. cbn [shared workers master checks master_threads to_add concat] in *.
  rewrite zlen_app in H6. pose proof (zlen_nonneg vChecks). pose proof (zlen_nonneg (concat batches)). rewrite app_nil_r in *. pose proof (pend_nonneg _ H1). pose proof (zlen_nonneg (queue q)).
  pose proof (woken_same _ _ Hn) as (K1 & K2 & K3 & K4 & K5 & K6).
  split; cbn [shared workers master checks Add nTodo nIdle nTotal fAllOk queue]; unfold threads; cbn [shared workers master checks master_threads to_add]; rewrite ?app_nil_r, ?zlen_app; try done.
  - auto.
  - rewrite u32_small by (unfold is_u32; lia). rewrite K1. lia.
  - by rewrite K3.
  - by rewrite K4.
  - unfold zlen in *. by rewrite K6.
  - lia.
  - rewrite u32_small by (unfold is_u32; lia). lia.
  - unfold outcome in *. cbn [Add fAllOk queue]. rewrite K2, !forallb_app, <- H8. destruct (fAllOk q), (forallb good ws); reflexivity.
Qed.

Lemma inv_step s s' : inv s -> step s s' -> inv s'.
Proof.
  intros Hinv Hs. destruct Hs as [vChecks batches q ws ws' l Hn|q ws l|q q' l1 t t' l2 b m l Hcs|q l1 t t' l2 m l Hw|q q' ws t t' b l Hcs|q ws t t' l Hw|q q' ws t fRet b l Hcs].
  - by eapply inv_add.
  - destruct Hinv as [H1 H2 H3 H4 H5 H6 H7 H8 H9 H10]. unfold threads in *. cbn [shared workers master checks master_threads to_add concat] in *. rewrite app_nil_r in *.
    split; cbn [shared workers master checks]; unfold threads; cbn [shared workers master checks master_threads to_add]; rewrite ?map_app, ?zsum_app; try done.
    + apply Forall_app. split; [done|]. constructor; [split; [cbn; lia|done]|constructor].
    + cbn. unfold zsum at 2. cbn. lia.
    + cbn. unfold zsum at 2. cbn. lia.
    + cbn. unfold zsum at 2. cbn. lia.
    + unfold outcome in *. rewrite forallb_app. cbn. rewrite andb_true_r. exact H8.
    + by intros t [= <-].
  - by eapply inv_worker.
  - by eapply inv_worker_work.
  - destruct (inv_master_local q ws t l Hinv) as (Hloc & _). destruct (critical_section_ok true _ _ _ _ _ _ _ _ Hcs Hloc) as (Htodo & _ & _ & Hloc' & Hout & Hwt & _).
    apply (inv_master q q' ws t t' l Hinv Hloc' Hout); [lia|]. intros Hp. destruct (Hwt Hp) as [Hq Hn]. split; [done|by apply Hn].
  - destruct (inv_master_local q ws t l Hinv) as (Hloc & _). destruct (work_local _ _ _ _ _ _ Hw Hloc) as (Hloc' & Hout & Hp).
    by apply (inv_master q q ws t t' l Hinv Hloc' Hout).
  - by eapply inv_return.
Qed.

Lemma inv_spurious s s' : inv s -> spurious s s' -> inv s'.
Proof.
  intros Hinv Hs. destruct Hs as [q l1 t l2 m l _|q ws t l _]; (eapply inv_wake; [exact Hinv| |]).
  - apply Forall2_app; [apply woken_refl|]. constructor; [by right|apply woken_refl].
  - by left.
  - apply woken_refl.
  - right. by exists t.
Qed.

Lemma inv_round s s' : inv s -> new_control s s' -> inv s'.
Proof.
  intros Hinv Hs. destruct Hs as [q ws b l batches Hb]. destruct Hinv as [H1 H2 H3 H4 H5 H6 H7 H8 H9 H10].
  unfold threads in *. cbn [shared workers master checks master_threads to_add] in *. destruct (H10 b eq_refl) as [_ E].
  split; cbn [shared workers master checks]; unfold threads; cbn [shared workers master checks master_threads to_add]; try done. by rewrite E.
Qed.

Lemma inv_initial n batches : Z.of_nat n < 2 ^ 30 -> zlen (concat batches) < 2 ^ 32 -> inv (initial n batches).
Proof.
  intros Hn Hb. assert (Hsum : forall f : Thread -> Z, f Loop_start = 0 -> zsum (map f (replicate n Loop_start)) = 0).
  { intros f Hf. clear Hn. induction n as [|n IH]; [done|]. cbn [replicate map]. rewrite zsum_cons, Hf, IH. done. }
  split; unfold threads, initial; cbn [shared workers master checks master_threads to_add queue nTodo nIdle nTotal]; rewrite ?app_nil_r, ?Hsum; try done.
  - apply Forall_replicate. split; [cbn; lia|done].
  - unfold zlen. by rewrite length_replicate.
  - unfold outcome. cbn [fAllOk queue forallb]. rewrite andb_true_r. clear Hn Hsum. induction n as [|n IH]; [done|]. exact IH.
Qed.

Lemma reachable_inv n batches s : Z.of_nat n < 2 ^ 30 -> zlen (concat batches) < 2 ^ 32 -> reachable n batches s -> inv s.
Proof.
  intros Hn Hb Hr. assert (inv (initial n batches)) as Hi by (by apply inv_initial). unfold reachable in Hr. revert Hi. induction Hr as [s|s s1 s2 Hs _ IH]; [done|].
  intros Hi. apply IH. destruct Hs as [Hs|[Hs|Hs]]; [by eapply inv_step|by eapply inv_spurious|by eapply inv_round].
Qed.

(** ** Every run ends *)

(** What is left to do: for every thread, check and batch, counted so that every
    step takes something away. *)
Definition thread_cost (t : Thread) : Z :=
  match pc t with Lock => 2 | Waiting => 0 | Notified => 1 | Work v => 3 + zlen v end.

Definition master_cost (n : Z) (m : Master) : Z :=
  match m with
  | Adding l => 3 + zsum (map (fun v => 1 + n + 4 * zlen v) l)
  | Looping t => thread_cost t
  | Returned _ => 0
  end.

Definition cost (s : State) : Z :=
  4 * zlen (queue (shared s)) + zsum (map thread_cost (workers s)) + master_cost (zlen (workers s)) (master s).

Lemma thread_cost_nonneg t : 0 <= thread_cost t.
Proof. unfold thread_cost. destruct (pc t) as [| | |v]; [lia..|]. pose proof (zlen_nonneg v). lia. Qed.

Lemma threads_cost_nonneg l : 0 <= zsum (map thread_cost l).
Proof. apply zsum_nonneg, Forall_map, Forall_forall. intros t _. apply thread_cost_nonneg. Qed.

Lemma cost_nonneg s : 0 <= cost s.
Proof.
  unfold cost. pose proof (zlen_nonneg (queue (shared s))). pose proof (threads_cost_nonneg (workers s)). pose proof (zlen_nonneg (workers s)).
  enough (0 <= master_cost (zlen (workers s)) (master s)) by lia. unfold master_cost. destruct (master s) as [l|t|]; [|apply thread_cost_nonneg|lia].
  enough (0 <= zsum (map (fun v : list T => 1 + zlen (workers s) + 4 * zlen v) l)) by lia. apply zsum_nonneg, Forall_map, Forall_forall. intros v _. pose proof (zlen_nonneg v). lia.
Qed.

Lemma notify_cost t : thread_cost t <= thread_cost (notify t) <= thread_cost t + 1.
Proof. unfold notify, thread_cost. destruct (pc t) as [| | |v] eqn:E; rewrite ?E; cbn [pc]; lia. Qed.

Lemma woken_cost l l' : woken l l' -> zsum (map thread_cost l') <= zsum (map thread_cost l) + zlen l.
Proof.
  induction 1 as [|t t' l l' Ht _ IH]; cbn [map]; [unfold zsum, zlen; simpl; lia|]. rewrite !zsum_cons, zlen_cons. pose proof (notify_cost t).
  destruct Ht as [-> | ->]; lia.
Qed.

Lemma notify_master_cost n b m : master_cost n (notify_master b m) <= master_cost n m + 1.
Proof. destruct m as [|t|]; cbn; [lia| |lia]. destruct b; cbn; [pose proof (notify_cost t); lia|lia]. Qed.

Lemma section_cost fMaster P I U t q q' r b : critical_section fMaster t q = Some (q', r, b) -> local_inv P I U q t ->
  4 * zlen (queue q') + match r with inl t' => thread_cost t' | inr _ => 0 end + (if b then 1 else 0) < 4 * zlen (queue q) + thread_cost t.
Proof.
  intros Hcs Hloc. destruct (critical_section_ok _ _ _ _ _ _ _ _ _ Hcs Hloc) as (Htodo & Hb1 & _ & Hr). pose proof (zlen_nonneg (queue q)).
  assert (Ht : thread_cost t = if b then 2 else thread_cost t).
  { destruct b; [|done]. unfold critical_section in Hcs. unfold thread_cost. by destruct (pc t). }
  assert (1 <= thread_cost t) by (unfold critical_section in Hcs; unfold thread_cost; destruct (pc t); try discriminate Hcs; lia).
  destruct r as [t'|fRet].
  - destruct Hr as (_ & _ & _ & Hp1 & Hp2 & Hq0 & Hq). destruct (queue q) as [|x l] eqn:Eq.
    + destruct Hq0 as [-> Ew]; [done|]. unfold thread_cost at 1. rewrite Ew. destruct b; lia.
    + destruct Hq as (Hlt & v & Ev & Hv); [done|]. unfold thread_cost at 1. rewrite Ev. pose proof (zlen_nonneg v). destruct b; lia.
  - destruct Hr as (_ & _ & -> & _). change (zlen (@nil T)) with 0. destruct b; lia.
Qed.

Lemma work_cost t t' : work t = Some t' -> thread_cost t' < thread_cost t.
Proof.
  unfold work, thread_cost. destruct (pc t) as [| | |[|x v]]; try discriminate; intros [= <-]; cbn [pc]; [unfold zlen; cbn; lia|]. rewrite zlen_cons. lia.
Qed.

Lemma step_cost s s' : inv s -> step s s' -> cost s' < cost s.
Proof.
  intros Hinv Hs. unfold cost. destruct Hs as [vChecks batches q ws ws' l Hn|q ws l|q q' l1 t t' l2 b m l Hcs|q l1 t t' l2 m l Hw|q q' ws t t' b l Hcs|q ws t t' l Hw|q q' ws t fRet b l Hcs];
    cbn [shared workers master queue Add].
  - apply notify_workers_woken in Hn. pose proof (woken_cost _ _ Hn). apply woken_same in Hn as (_ & _ & _ & _ & _ & Hlen).
    assert (zlen ws' = zlen ws) as -> by (unfold zlen; by rewrite Hlen). cbn [master_cost map]. rewrite zlen_app, zsum_cons. lia.
  - cbn. unfold zsum at 3. cbn. lia.
  - assert (zlen (l1 ++ t' :: l2) = zlen (l1 ++ t :: l2)) as -> by (by rewrite !zlen_app, !zlen_cons). rewrite !sum_middle.
    pose proof Hinv as [H1 H2 H3 H4 H5 H6 H7 _ _ _]. unfold threads in *. cbn [shared workers master checks] in *. rewrite <- app_assoc in *. cbn [app] in *.
    pose proof (zlen_nonneg (to_add m)).
    assert (Hlen : zlen (l1 ++ l2 ++ master_threads m) < 2 ^ 30 + 1).
    { rewrite zlen_app, zlen_cons in H5. rewrite !zlen_app. destruct m; unfold zlen in *; cbn; lia. }
    destruct (local_of_inv q l1 t (l2 ++ master_threads m) H1 H2 H3 H4 Hlen ltac:(lia)) as [Hloc _]. pose proof (section_cost _ _ _ _ _ _ _ _ _ Hcs Hloc) as Hc.
    pose proof (notify_master_cost (zlen (l1 ++ t :: l2)) b m). destruct b; [lia|]. destruct m; cbn [notify_master] in *; lia.
  - assert (zlen (l1 ++ t' :: l2) = zlen (l1 ++ t :: l2)) as -> by (by rewrite !zlen_app, !zlen_cons). rewrite !sum_middle. pose proof (work_cost _ _ Hw). lia.
  - destruct (inv_master_local q ws t l Hinv) as (Hloc & _). pose proof (section_cost _ _ _ _ _ _ _ _ _ Hcs Hloc). cbn [master_cost]. destruct b; lia.
  - pose proof (work_cost _ _ Hw). cbn [master_cost]. lia.
  - destruct (inv_master_local q ws t l Hinv) as (Hloc & _). pose proof (section_cost _ _ _ _ _ _ _ _ _ Hcs Hloc). cbn [master_cost]. destruct b; lia.
Qed.

(** ** Somebody can always go on *)

Lemma thread_goes_on fMaster t q : is_waiting t = false ->
  (exists q' r b, critical_section fMaster t q = Some (q', r, b)) \/ exists t', work t = Some t'.
Proof.
  unfold is_waiting, critical_section, work. destruct (pc t) as [| | |[|x v]]; try discriminate; intros _.
  - left. destruct (clean_up fMaster t q) as [q1 b]. destruct (take_batch fMaster t q1) as [q2 r]. by exists q2, r, b.
  - left. destruct (take_batch fMaster t _) as [q2 r]. by exists q2, r, false.
  - right. by eexists.
  - right. by eexists.
Qed.

Lemma worker_section_inl t q q' r b : critical_section false t q = Some (q', r, b) -> exists t', r = inl t'.
Proof.
  unfold critical_section. destruct (pc t); try discriminate.
  - destruct (clean_up false t q) as [q1 b1]. unfold take_batch. cbn [andb]. destruct (queue q1); intros [= _ <- _]; by eexists.
  - unfold take_batch. cbn [andb queue]. destruct (queue q); intros [= _ <- _]; by eexists.
Qed.

Lemma worker_goes_on q l1 t l2 m l : is_waiting t = false -> exists s', step (mkState q (l1 ++ t :: l2) m l) s'.
Proof.
  intros Ht. destruct (thread_goes_on false t q Ht) as [(q' & r & b & Hcs)|(t' & Hw)]; [|eexists; by eapply step_worker_work].
  destruct (worker_section_inl _ _ _ _ _ Hcs) as [t' ->]. eexists. by eapply step_worker.
Qed.

Lemma progress s : inv s -> (forall b, master s <> Returned b) -> exists s', step s s'.
Proof.
  intros Hinv Hret. destruct s as [q ws [[|v bs]|t|b] l]; [| | |by destruct (Hret b)].
  - eexists. apply step_wait.
  - assert (exists ws', notify_workers (zlen v) ws ws') as [ws' Hn]; [|eexists; by apply step_add]. pose proof (zlen_nonneg v).
    destruct (decide (zlen v = 0)); [eexists; by apply notify_none|]. destruct (decide (1 < zlen v)); [eexists; by apply notify_all|].
    destruct (decide (Forall (fun t => is_waiting t = false) ws)) as [Hf|Hf]; [eexists; by apply notify_nobody; [lia|]|].
    apply not_Forall_Exists in Hf; [|intros t; apply _]. apply Exists_exists in Hf as (t & Hin & Ht). apply list_elem_of_In, list_elem_of_split in Hin as (l1 & l2 & ->).
    eexists. eapply notify_one; [lia|done|]. destruct (is_waiting t) eqn:Ew; [done|]. by destruct Ht.
  - destruct (is_waiting t) eqn:Et.
    + assert (pc t = Waiting) as Ep by (unfold is_waiting in Et; by destruct (pc t)). destruct (inv_waiting _ Hinv t eq_refl Ep) as [Hq Hn].
      destruct (inv_master_local q ws t l Hinv) as ([_ Htodo _ _ _ _] & Ho & _). cbn [shared] in Hq, Hn. rewrite Hq in Htodo. unfold pend in Htodo at 1. rewrite Ep in Htodo. change (zlen (@nil T)) with 0 in Htodo.
      destruct (decide (Forall (fun t => pend t = 0) ws)) as [Hz|Hz].
      { exfalso. apply Hn. rewrite Htodo. clear -Hz. induction Hz as [|x ws Hx _ IH]; [done|]. cbn [map]. rewrite zsum_cons. lia. }
      apply not_Forall_Exists in Hz; [|intros x; apply _]. apply Exists_exists in Hz as (x & Hin & Hx). apply list_elem_of_In, list_elem_of_split in Hin as (l1 & l2 & ->).
      apply worker_goes_on. unfold is_waiting. destruct (pc x) eqn:Ex; try done. destruct Hx. unfold pend. by rewrite Ex.
    + destruct (thread_goes_on true t q Et) as [(q' & [t'|fRet] & b & Hcs)|(t' & Hw)]; eexists; [by eapply step_master|by eapply step_return|by eapply step_master_work].
Qed.

(** * Properties *)

(** C8: The queue answers right, whatever the schedule.  In every state that any
    number of workers and the master can reach, with any interleaving of their
    critical sections and checks, any choice of the thread that is notified, and
    wake-ups without a notification: when [Wait] has returned, its answer is
    whether all the checks added since the last time pass, no check is left in
    the queue or in the hands of a worker, and the queue is ready for new work. *)
Theorem Wait_answers (n : nat) (batches : list (list T)) (s : State) (fRet : bool) :
  Z.of_nat n < 2 ^ 30 -> zlen (concat batches) < 2 ^ 32 -> reachable n batches s -> master s = Returned fRet ->
  fRet = forallb run (checks s) /\ queue (shared s) = [] /\ nTodo (shared s) = 0 /\ fAllOk (shared s) = true /\
  Forall (fun t => pend t = 0) (workers s).
Proof.
  intros Hn Hb Hr Hm. apply reachable_inv in Hr as [H1 H2 H3 H4 H5 H6 H7 H8 H9 H10]; [|done..]. destruct (H10 fRet Hm) as [Hf Ht].
  unfold threads in *. rewrite Hm in *. cbn [master_threads] in *. rewrite app_nil_r in *. pose proof (pend_nonneg _ H1). pose proof (zlen_nonneg (queue (shared s))).
  destruct (no_pending_good (workers s) H1 ltac:(lia)) as [Hg Hp]. assert (queue (shared s) = []) as Hq by (apply zlen_nil_iff; lia).
  unfold outcome in H8. rewrite Hg, Hq, !andb_true_r in H8. done.
Qed.

(** C9: [Wait] always returns.  From every state the threads can reach, every
    sequence of steps is at most as long as the work left, even if no thread
    ever wakes up without being notified; and where no step is possible, the
    master has returned its answer. No wake-up is lost and nobody waits forever. *)
Theorem Wait_returns (n : nat) (batches : list (list T)) (s : State) :
  Z.of_nat n < 2 ^ 30 -> zlen (concat batches) < 2 ^ 32 -> reachable n batches s ->
  (forall k s', nsteps step k s s' -> Z.of_nat k <= cost s) /\
  (forall s', rtc step s s' -> nf step s' -> master s' = Returned (forallb run (checks s'))).
Proof.
  intros Hn Hb Hr. apply reachable_inv in Hr; [|done..]. split.
  - intros k s' Hk. revert Hr. induction Hk as [s|k s s1 s2 Hs _ IH]; intros Hi; [apply cost_nonneg|].
    pose proof (step_cost _ _ Hi Hs). specialize (IH (inv_step _ _ Hi Hs)). lia.
  - intros s' Hs Hnf. assert (Hi : inv s') by (revert Hr; induction Hs as [|s s1 s2 H1 _ IH]; intros Hi; [done|]; apply IH; [done|by eapply inv_step]).
    destruct (master s') as [bs|t|b] eqn:Em; [destruct Hnf; apply progress; [done|congruence]..|]. f_equal. by apply (inv_returned _ Hi).
Qed.
End CheckQueue.

(** Two checks, one of which fails, by a worker and the master. *)
Lemma Wait_answers_witness : exists s, reachable (fun b : bool => b) 128 1 [[true; false]] s /\ master s = Returned false /\ queue (shared s) = [].
Proof.
  assert (exists s, reachable (fun b : bool => b) 128 1 [[true; false]] s /\ master s = Returned false /\ checks s = [true; false]) as (s & Hr & Hm & Hc).
  { eexists. split; [|split; [|]].
    - unfold reachable, initial. cbn [replicate].
      eapply rtc_l; [left; eapply (step_worker _ _ _ _ []); vm_compute; reflexivity|].
      eapply rtc_l; [left; apply step_add, notify_all; reflexivity|].
      eapply rtc_l; [left; apply step_wait|].
      eapply rtc_l; [left; eapply (step_worker _ _ _ _ []); vm_compute; reflexivity|].
      eapply rtc_l; [left; eapply step_master; vm_compute; reflexivity|].
      eapply rtc_l; [left; eapply (step_worker_work _ _ _ []); vm_compute; reflexivity|].
      eapply rtc_l; [left; eapply (step_worker_work _ _ _ []); vm_compute; reflexivity|].
      eapply rtc_l; [left; eapply (step_worker _ _ _ _ []); vm_compute; reflexivity|].
      eapply rtc_l; [left; eapply step_master_work; vm_compute; reflexivity|].
      eapply rtc_l; [left; eapply step_master_work; vm_compute; reflexivity|].
      eapply rtc_l; [left; eapply step_return; vm_compute; reflexivity|]. apply rtc_refl.
    - reflexivity.
    - reflexivity. }
  exists s. split; [exact Hr|]. split; [exact Hm|].
  apply (Wait_answers (fun b : bool => b) 128 1 [[true; false]] s false); [reflexivity|reflexivity|exact Hr|exact Hm].
Defined.

Lemma Wait_returns_witness : ~ exists k s', nsteps (step (fun b : bool => b) 128) k (initial 2 [[true]; [true; true]]) s' /\
  cost (initial 2 [[true]; [true; true]]) < Z.of_nat k.
Proof.
  intros (k & s' & Hk & Hlt). destruct (Wait_returns (fun b : bool => b) 128 2 [[true]; [true; true]] (initial 2 [[true]; [true; true]])) as [Hb _];
    [reflexivity|reflexivity|apply rtc_refl|]. specialize (Hb k s' Hk). lia.
Defined.
