(* ===== verification/ChainState.v ===== *)
(** * The chain state: which chain is active (validation.cpp, class CChainState)

    The block index with the blocks that were received, the candidates for the
    tip, the active chain, and the view of unspent outputs that goes with it.
    [ActivateBestChain] moves the active chain to the candidate with the most
    work, block by block, and marks the blocks that turn out to be invalid.

    The block and undo files are maps from index entries to what was written for
    them; writing to them succeeds. The clock, the memory in use and the limits
    on it are inputs. Pruning of files, the memory pool, notifications, warnings
    and the sets of entries still to be written to the index are left out, and so
    are the locks: each operation runs by itself. *)
From stdpp Require Import sorting.
From S2P Require Import Prelude Serialize Amount Crypto Script Transaction Cash ArithUint256 Block Chain Pow VersionBits Merkle.
From S2P Require Import Interpreter InterpreterSafety SigHash TxVerify Compressor CheckBlock Connect.

#[local] Opaque SHA256 SHA1 RIPEMD160 Hash160 Hash Hash2.

(** ** The order of the candidates *)

(** Less work, or later, or at the greater address: worse. *)
Definition CBlockIndexWorkComparator (h : Heap) (pa pb : Ptr) : bool :=
  let a := at_ h pa in
  let b := at_ h pb in
  if 0 <? CompareTo (nChainWork a) (nChainWork b) then false
  else if CompareTo (nChainWork a) (nChainWork b) <? 0 then true
  else if nSequenceId a <? nSequenceId b then false
  else if nSequenceId b <? nSequenceId a then true
  else if (pa <? pb)%positive then false
  else if (pb <? pa)%positive then true
  else false.

(** The last element of a set in this order, [rbegin]. *)
Definition better (h : Heap) (p : Ptr) (best : option Ptr) : option Ptr :=
  match best with
  | None => Some p
  | Some q => if CBlockIndexWorkComparator h q p then Some p else Some q
  end.
Definition rbegin (h : Heap) (s : gset Ptr) : option Ptr := foldr (better h) None (elements s).

(** ** Changing an entry of the index *)

(** What [ReceivedBlockTransactions] stores about the block. *)
Definition with_received (tx file pos status : Z) (e : CBlockIndex) : CBlockIndex :=
  mkCBlockIndex (phashBlock e) (pprev e) (pskip e) (Chain.nHeight e) file pos 0 (nChainWork e) tx 0 status
    (bi_nVersion e) (bi_hashMerkleRoot e) (bi_nTime e) (bi_nBits e) (bi_nNonce e) (nSequenceId e) (nTimeMax e).

(** [nChainTx] and [nSequenceId] of a block all of whose ancestors are there. *)
Definition with_linked (chain_tx seq : Z) (e : CBlockIndex) : CBlockIndex :=
  mkCBlockIndex (phashBlock e) (pprev e) (pskip e) (Chain.nHeight e) (nFile e) (nDataPos e) (nUndoPos e) (nChainWork e) (nTx e) chain_tx (nStatus e)
    (bi_nVersion e) (bi_hashMerkleRoot e) (bi_nTime e) (bi_nBits e) (bi_nNonce e) seq (nTimeMax e).

(** ** The state *)
Record ChainState (S : Type) := mkChainState {
  cs_tree : BlockTree;
  chainActive : CChain;
  setBlockIndexCandidates : gset Ptr;
  mapBlocksUnlinked : list (Ptr * Ptr);
  pindexBestInvalid : option Ptr;
  g_failed_blocks : gset Ptr;
  nBlockSequenceId : Z;
  nBlockReverseSequenceId : Z;
  nLastPreciousChainwork : arith_uint256;
  versionbitscache : VersionBitsCache;
  scriptExecutionCache : gset uint256;
  pcashTip : CCashViewCache S;
  block_files : gmap Ptr CBlock;
  undo_files : gmap Ptr CBlockUndo;
  nLastWrite : Z;
  nLastFlush : Z;
  flushes : nat;
}.
Arguments mkChainState {S}.
Arguments cs_tree {S}.
Arguments chainActive {S}.
Arguments setBlockIndexCandidates {S}.
Arguments mapBlocksUnlinked {S}.
Arguments pindexBestInvalid {S}.
Arguments g_failed_blocks {S}.
Arguments nBlockSequenceId {S}.
Arguments nBlockReverseSequenceId {S}.
Arguments nLastPreciousChainwork {S}.
Arguments versionbitscache {S}.
Arguments scriptExecutionCache {S}.
Arguments pcashTip {S}.
Arguments block_files {S}.
Arguments undo_files {S}.
Arguments nLastWrite {S}.
Arguments nLastFlush {S}.
Arguments flushes {S}.

(** How often the state is written. *)
Inductive FlushStateMode := FLUSH_STATE_NONE | FLUSH_STATE_IF_NEEDED | FLUSH_STATE_PERIODIC | FLUSH_STATE_ALWAYS.
#[export] Instance FlushStateMode_eq_dec : EqDecision FlushStateMode.
Proof. solve_decision. Defined.

Definition DATABASE_WRITE_INTERVAL : Z := 60 * 60.
Definition DATABASE_FLUSH_INTERVAL : Z := 24 * 60 * 60.
Definition MAX_BLOCK_CASHDB_USAGE : Z := 10.
Definition MIN_BLOCKS_TO_KEEP : Z := 288.

(** What the [n]th call of [FlushStateToDisk] reads: the clock in microseconds
    and the memory the transaction pool uses; and the limits of the node. *)
Record Machine (S : Type) := mkMachine {
  GetTimeMicros : nat -> Z;
  nMempoolUsage : nat -> Z;
  nMempoolSizeMax : Z;
  nCashCacheUsage : Z;
  cache_memory : CCashViewCache S -> Z;
}.
Arguments GetTimeMicros {S}.
Arguments nMempoolUsage {S}.
Arguments nMempoolSizeMax {S}.
Arguments nCashCacheUsage {S}.
Arguments cache_memory {S}.

(** The end of [ConnectTip]: the block is the tip, it breaks a rule, or the node is stopped. *)
Inductive TipResult := TipConnected | TipInvalid (r : Reject) | TipError.

Section ChainState.
Context (env : ScriptEnv) (params : Params) (cfg : NodeConfig) (fCheckpointsEnabled : bool) (mapCheckpoints : list (Z * uint256)).
(** [GetBlockWeight] of consensus/validation.h. *)
Context (GetBlockWeight : CBlock -> Z).
Context {S : Type} `{!CashView S} `{!ScriptMemory} (machine : Machine S).
Abbreviation State := (ChainState S).
Implicit Types (s : ChainState S).

Definition cs_heap s : Heap := bt_heap (cs_tree s).
Definition Tip s : option Ptr := Chain_Tip (chainActive s).

Definition set_tree s (t : BlockTree) : State :=
  mkChainState t (chainActive s) (setBlockIndexCandidates s) (mapBlocksUnlinked s) (pindexBestInvalid s) (g_failed_blocks s)
    (nBlockSequenceId s) (nBlockReverseSequenceId s) (nLastPreciousChainwork s) (versionbitscache s) (scriptExecutionCache s)
    (pcashTip s) (block_files s) (undo_files s) (nLastWrite s) (nLastFlush s) (flushes s).
Definition set_heap s (h : Heap) : State :=
  set_tree s (mkBlockTree h (mapBlockIndex (cs_tree s)) (pindexBestHeader (cs_tree s))).
Definition set_chain s (chain : CChain) : State :=
  mkChainState (cs_tree s) chain (setBlockIndexCandidates s) (mapBlocksUnlinked s) (pindexBestInvalid s) (g_failed_blocks s)
    (nBlockSequenceId s) (nBlockReverseSequenceId s) (nLastPreciousChainwork s) (versionbitscache s) (scriptExecutionCache s)
    (pcashTip s) (block_files s) (undo_files s) (nLastWrite s) (nLastFlush s) (flushes s).
Definition set_candidates s (c : gset Ptr) : State :=
  mkChainState (cs_tree s) (chainActive s) c (mapBlocksUnlinked s) (pindexBestInvalid s) (g_failed_blocks s)
    (nBlockSequenceId s) (nBlockReverseSequenceId s) (nLastPreciousChainwork s) (versionbitscache s) (scriptExecutionCache s)
    (pcashTip s) (block_files s) (undo_files s) (nLastWrite s) (nLastFlush s) (flushes s).
Definition set_unlinked s (l : list (Ptr * Ptr)) : State :=
  mkChainState (cs_tree s) (chainActive s) (setBlockIndexCandidates s) l (pindexBestInvalid s) (g_failed_blocks s)
    (nBlockSequenceId s) (nBlockReverseSequenceId s) (nLastPreciousChainwork s) (versionbitscache s) (scriptExecutionCache s)
    (pcashTip s) (block_files s) (undo_files s) (nLastWrite s) (nLastFlush s) (flushes s).
Definition set_invalid s (best : option Ptr) (failed : gset Ptr) : State :=
  mkChainState (cs_tree s) (chainActive s) (setBlockIndexCandidates s) (mapBlocksUnlinked s) best failed
    (nBlockSequenceId s) (nBlockReverseSequenceId s) (nLastPreciousChainwork s) (versionbitscache s) (scriptExecutionCache s)
    (pcashTip s) (block_files s) (undo_files s) (nLastWrite s) (nLastFlush s) (flushes s).
Definition set_counters s (seq rev : Z) (work : arith_uint256) : State :=
  mkChainState (cs_tree s) (chainActive s) (setBlockIndexCandidates s) (mapBlocksUnlinked s) (pindexBestInvalid s) (g_failed_blocks s)
    seq rev work (versionbitscache s) (scriptExecutionCache s)
    (pcashTip s) (block_files s) (undo_files s) (nLastWrite s) (nLastFlush s) (flushes s).
Definition set_caches s (caches : VersionBitsCache) (scripts : gset uint256) : State :=
  mkChainState (cs_tree s) (chainActive s) (setBlockIndexCandidates s) (mapBlocksUnlinked s) (pindexBestInvalid s) (g_failed_blocks s)
    (nBlockSequenceId s) (nBlockReverseSequenceId s) (nLastPreciousChainwork s) caches scripts
    (pcashTip s) (block_files s) (undo_files s) (nLastWrite s) (nLastFlush s) (flushes s).
Definition set_view s (view : CCashViewCache S) : State :=
  mkChainState (cs_tree s) (chainActive s) (setBlockIndexCandidates s) (mapBlocksUnlinked s) (pindexBestInvalid s) (g_failed_blocks s)
    (nBlockSequenceId s) (nBlockReverseSequenceId s) (nLastPreciousChainwork s) (versionbitscache s) (scriptExecutionCache s)
    view (block_files s) (undo_files s) (nLastWrite s) (nLastFlush s) (flushes s).
Definition set_files s (blocks : gmap Ptr CBlock) (undos : gmap Ptr CBlockUndo) : State :=
  mkChainState (cs_tree s) (chainActive s) (setBlockIndexCandidates s) (mapBlocksUnlinked s) (pindexBestInvalid s) (g_failed_blocks s)
    (nBlockSequenceId s) (nBlockReverseSequenceId s) (nLastPreciousChainwork s) (versionbitscache s) (scriptExecutionCache s)
    (pcashTip s) blocks undos (nLastWrite s) (nLastFlush s) (flushes s).
Definition set_times s (write flush : Z) : State :=
  mkChainState (cs_tree s) (chainActive s) (setBlockIndexCandidates s) (mapBlocksUnlinked s) (pindexBestInvalid s) (g_failed_blocks s)
    (nBlockSequenceId s) (nBlockReverseSequenceId s) (nLastPreciousChainwork s) (versionbitscache s) (scriptExecutionCache s)
    (pcashTip s) (block_files s) (undo_files s) write flush (Datatypes.S (flushes s)).

(** ** Writing the state *)

(** [fDoFullFlush], and whether the index is written: [nNow] against the times of
    the last writes, the cache against the memory that is left. *)
Definition flush_wanted (mode : FlushStateMode) (nNow cacheSize mempool lastWrite lastFlush : Z) : bool * bool :=
  let nTotalSpace := nCashCacheUsage machine + Z.max (nMempoolSizeMax machine - mempool) 0 in
  let periodic := bool_decide (mode = FLUSH_STATE_PERIODIC) in
  let fCacheLarge := periodic && (Z.max (Z.quot (9 * nTotalSpace) 10) (nTotalSpace - MAX_BLOCK_CASHDB_USAGE * 1024 * 1024) <? cacheSize) in
  let fCacheCritical := bool_decide (mode = FLUSH_STATE_IF_NEEDED) && (nTotalSpace <? cacheSize) in
  let fPeriodicWrite := periodic && (lastWrite + DATABASE_WRITE_INTERVAL * 1000000 <? nNow) in
  let fPeriodicFlush := periodic && (lastFlush + DATABASE_FLUSH_INTERVAL * 1000000 <? nNow) in
  let fDoFullFlush := bool_decide (mode = FLUSH_STATE_ALWAYS) || fCacheLarge || fCacheCritical || fPeriodicFlush in
  (fDoFullFlush, fDoFullFlush || fPeriodicWrite).

Definition FlushStateToDisk (mode : FlushStateMode) s : result (bool * State) :=
  let nNow := GetTimeMicros machine (flushes s) in
  let lastWrite := if nLastWrite s =? 0 then nNow else nLastWrite s in
  let lastFlush := if nLastFlush s =? 0 then nNow else nLastFlush s in
  let '(full, write) := flush_wanted mode nNow (cache_memory machine (pcashTip s)) (nMempoolUsage machine (flushes s)) lastWrite lastFlush in
  let lastWrite := if write then nNow else lastWrite in
  let '(best, view) := GetBestBlock (pcashTip s) in
  if full && negb (uint256_IsNull best) then
    '(ok, view) ← Flush view;
    Ok (ok : bool, set_times (set_view s view) lastWrite (if ok then nNow else lastFlush))
  else Ok (true, set_times (set_view s (if full then view else pcashTip s)) lastWrite lastFlush).

(** What the block files hold for an entry: the block, when its header is right. *)
Definition ReadBlockFromDisk s (pindex : Ptr) : option CBlock :=
  block ← block_files s !! pindex;
  if negb (CheckProofOfWork (CBlockHeader_GetHash (header block)) (bh_nBits (header block)) params) then None
  else if negb (bool_decide (CBlockHeader_GetHash (header block) = phashBlock (at_ (cs_heap s) pindex))) then None
  else Some block.

(** ** Blocks that are found to be invalid *)

(** [nChainWork] of the first is greater. *)
Definition more_work (h : Heap) (p q : Ptr) : bool := 0 <? CompareTo (nChainWork (at_ h p)) (nChainWork (at_ h q)).

(** [pindexBestInvalid] once a chain is known to be invalid. *)
Definition best_invalid s (pindexNew : Ptr) : option Ptr :=
  match pindexBestInvalid s with
  | Some b => if more_work (cs_heap s) pindexNew b then Some pindexNew else Some b
  | None => Some pindexNew
  end.

Definition InvalidChainFound (pindexNew : Ptr) s : result State :=
  assert_then (bool_decide (is_Some (Tip s))) "tip" (Ok (set_invalid s (best_invalid s pindexNew) (g_failed_blocks s))).

(** [pindex->nStatus |= flag]. *)
Definition or_status (h : Heap) (p : Ptr) (flag : Z) : Heap := set_status h p (Z.lor (nStatus (at_ h p)) flag).

Definition InvalidBlockFound (pindex : Ptr) (r : Reject) s : result State :=
  if corruptionPossible r then Ok s
  else
    let s := set_heap s (or_status (cs_heap s) pindex BLOCK_FAILED_VALID) in
    let s := set_invalid s (pindexBestInvalid s) ({[pindex]} ∪ g_failed_blocks s) in
    let s := set_candidates s (setBlockIndexCandidates s ∖ {[pindex]}) in
    InvalidChainFound pindex s.

(** ** One block more, or one less *)

Definition DisconnectTip s : result (bool * State) :=
  match Tip s with
  | None => Throw (assert_failed "pindexDelete")
  | Some pindexDelete =>
      match ReadBlockFromDisk s pindexDelete with
      | None => Ok (false, s)
      | Some block =>
          let view := CCashViewCache_new (pcashTip s) in
          let '(best, view) := GetBestBlock view in
          assert_then (bool_decide (best = phashBlock (at_ (cs_heap s) pindexDelete))) "view.GetBestBlock() == pindexDelete->GetBlockHash()" (
          '(res, view) ← DisconnectBlock (cs_heap s) block pindexDelete (undo_files s !! pindexDelete) view;
          match res with
          | DISCONNECT_OK =>
              '(flushed, view) ← Flush view;
              assert_then flushed "flushed" (
              '(ok, s) ← FlushStateToDisk FLUSH_STATE_IF_NEEDED (set_view s (base view));
              if negb ok then Ok (false, s)
              else
                chain ← SetTip (cs_heap s) (chainActive s) (pprev (at_ (cs_heap s) pindexDelete));
                Ok (true, set_chain s chain))
          | _ => Ok (false, set_view s (base view))
          end)
      end
  end.

(** The undo data is written the first time the block is connected. *)
Definition write_undo (e : CBlockIndex) (pindex : Ptr) (undo : CBlockUndo) (files : gmap Ptr CBlockUndo) : gmap Ptr CBlockUndo :=
  if Z.land (nStatus e) BLOCK_HAVE_UNDO =? 0 then <[pindex := undo]> files else files.

(** [pblock]: the block, when it is at hand. *)
Definition ConnectTip (pindexNew : Ptr) (pblock : option CBlock) s : result (TipResult * State) :=
  assert_then (bool_decide (pprev (at_ (cs_heap s) pindexNew) = Tip s)) "pindexNew->pprev == chainActive.Tip()" (
  match (match pblock with Some block => Some block | None => ReadBlockFromDisk s pindexNew end) with
  | None => Ok (TipError, s)
  | Some blockConnecting =>
      rv ← ConnectBlock env params cfg (cs_tree s) blockConnecting pindexNew false true true (versionbitscache s) (scriptExecutionCache s)
             (CCashViewCache_new (pcashTip s));
      match rv with
      | Invalid r =>
          if isError r then Ok (TipError, s)
          else s ← InvalidBlockFound pindexNew r s; Ok (TipInvalid r, s)
      | Valid done =>
          '(flushed, view) ← Flush (cd_view done);
          assert_then flushed "flushed" (
          let genesis := bool_decide (CBlockHeader_GetHash (header blockConnecting) = hashGenesisBlock params) in
          let undos := if genesis then undo_files s else write_undo (at_ (cs_heap s) pindexNew) pindexNew (cd_undo done) (undo_files s) in
          let s := set_tree (set_caches (set_files (set_view s (base view)) (block_files s) undos) (cd_caches done) (cd_scripts done)) (cd_tree done) in
          '(ok, s) ← FlushStateToDisk FLUSH_STATE_IF_NEEDED s;
          if negb ok then Ok (TipError, s)
          else
            chain ← SetTip (cs_heap s) (chainActive s) (Some pindexNew);
            Ok (TipConnected, set_chain s chain))
      end
  end).

(** ** The best candidate *)

(** Whether the path from a candidate back to the active chain has a block that
    failed, or whose data is missing: the first of them, and which it is. *)
Fixpoint first_unusable (fuel : nat) (pindexTest : option Ptr) s : result (option (Ptr * bool)) :=
  match pindexTest with
  | None => Ok None
  | Some p =>
      if Contains (cs_heap s) (chainActive s) p then Ok None
      else
        let e := at_ (cs_heap s) p in
        assert_then (negb (nChainTx e =? 0) || (Chain.nHeight e =? 0)) "pindexTest->nChainTx || pindexTest->nHeight == 0" (
        let fFailedChain := negb (Z.land (nStatus e) BLOCK_FAILED_MASK =? 0) in
        let fMissingData := Z.land (nStatus e) BLOCK_HAVE_DATA =? 0 in
        if fFailedChain || fMissingData then Ok (Some (p, fFailedChain))
        else match fuel with
             | O => Throw (assert_failed "FindMostWorkChain: no progress")
             | Datatypes.S fuel => first_unusable fuel (pprev e) s
             end)
  end.

(** [while (pindexTest != pindexFailed)]: the blocks above the unusable one. *)
Fixpoint drop_chain (fuel : nat) (pindexFailed pindexTest : Ptr) (fFailedChain : bool) s : result State :=
  if bool_decide (pindexTest = pindexFailed) then Ok s
  else
    match fuel, pprev (at_ (cs_heap s) pindexFailed) with
    | Datatypes.S fuel, Some prev =>
        let s := if fFailedChain then set_heap s (or_status (cs_heap s) pindexFailed BLOCK_FAILED_CHILD)
                 else set_unlinked s (mapBlocksUnlinked s ++ [(prev, pindexFailed)]) in
        drop_chain fuel prev pindexTest fFailedChain (set_candidates s (setBlockIndexCandidates s ∖ {[pindexFailed]}))
    | _, _ => Throw null_deref
    end.

(** Every round that does not end the search takes a candidate away. *)
Fixpoint find_loop (fuel : nat) s : result (option Ptr * State) :=
  match rbegin (cs_heap s) (setBlockIndexCandidates s) with
  | None => Ok (None, s)
  | Some pindexNew =>
      let height := Z.to_nat (Chain.nHeight (at_ (cs_heap s) pindexNew) + 1) in
      unusable ← first_unusable height (Some pindexNew) s;
      match unusable with
      | None => Ok (Some pindexNew, s)
      | Some (pindexTest, fFailedChain) =>
          let s := if (fFailedChain : bool) then set_invalid s (best_invalid s pindexNew) (g_failed_blocks s) else s in
          s ← drop_chain height pindexNew pindexTest fFailedChain s;
          match fuel with
          | O => Throw (assert_failed "FindMostWorkChain: no progress")
          | Datatypes.S fuel => find_loop fuel (set_candidates s (setBlockIndexCandidates s ∖ {[pindexTest]}))
          end
      end
  end.

Definition FindMostWorkChain s : result (option Ptr * State) := find_loop (size (setBlockIndexCandidates s)) s.

(** The set is ordered, so the entries worse than the tip come first. *)
Definition PruneBlockIndexCandidates s : result State :=
  if bool_decide (setBlockIndexCandidates s = ∅) then Throw (assert_failed "!setBlockIndexCandidates.empty()")
  else
    match Tip s with
    | None => Throw null_deref
    | Some tip =>
        let c := filter (fun p => CBlockIndexWorkComparator (cs_heap s) p tip = false) (setBlockIndexCandidates s) in
        assert_then (negb (bool_decide (c = ∅))) "!setBlockIndexCandidates.empty()" (Ok (set_candidates s c))
    end.

(** ** Moving towards the best candidate *)

(** [while (chainActive.Tip() && chainActive.Tip() != pindexFork)]. *)
Fixpoint disconnect_to (fuel : nat) (pindexFork : option Ptr) s : result (bool * State) :=
  match Tip s with
  | None => Ok (true, s)
  | Some tip =>
      if bool_decide (Some tip = pindexFork) then Ok (true, s)
      else
        match fuel with
        | O => Throw (assert_failed "ActivateBestChainStep: no progress")
        | Datatypes.S fuel =>
            '(ok, s) ← DisconnectTip s;
            if negb (ok : bool) then Ok (false, s) else disconnect_to fuel pindexFork s
        end
  end.

(** [vpindexToConnect] from the last block to the first. *)
Fixpoint to_connect (h : Heap) (fuel : nat) (pindexIter : option Ptr) (nHeight : Z) : list Ptr :=
  match fuel, pindexIter with
  | Datatypes.S fuel, Some p => if Chain.nHeight (at_ h p) =? nHeight then [] else to_connect h fuel (pprev (at_ h p)) nHeight ++ [p]
  | _, _ => []
  end.

(** Why connecting the blocks of a chunk ended. *)
Inductive ChunkResult := ChunkDone | ChunkBetter | ChunkInvalid | ChunkError.

(** [first]: the first block of the chunk, [vpindexToConnect.back()]. *)
Fixpoint connect_chunk (pindexMostWork : Ptr) (pblock : option CBlock) (pindexOldTip : option Ptr) (first : Ptr) (l : list Ptr) s
    : result (ChunkResult * State) :=
  match l with
  | [] => Ok (ChunkDone, s)
  | pindexConnect :: l =>
      '(r, s) ← ConnectTip pindexConnect (if bool_decide (pindexConnect = pindexMostWork) then pblock else None) s;
      match r with
      | TipInvalid r =>
          s ← (if negb (corruptionPossible r) then InvalidChainFound first s else Ok s);
          Ok (ChunkInvalid, s)
      | TipError => Ok (ChunkError, s)
      | TipConnected =>
          s ← PruneBlockIndexCandidates s;
          match pindexOldTip, Tip s with
          | Some old, Some tip =>
              if more_work (cs_heap s) tip old then Ok (ChunkBetter, s)
              else connect_chunk pindexMostWork pblock pindexOldTip first l s
          | None, _ => Ok (ChunkBetter, s)
          | _, None => Throw null_deref
          end
      end
  end.

(** [while (fContinue && nHeight != pindexMostWork->nHeight)]: 32 blocks at a time. *)
Fixpoint chunk_loop (fuel : nat) (pindexMostWork : Ptr) (pblock : option CBlock) (pindexOldTip : option Ptr) (nHeight : Z) s
    : result (ChunkResult * State) :=
  let height := Chain.nHeight (at_ (cs_heap s) pindexMostWork) in
  if nHeight =? height then Ok (ChunkDone, s)
  else
    match fuel with
    | O => Throw (assert_failed "ActivateBestChainStep: no progress")
    | Datatypes.S fuel =>
        let nTargetHeight := Z.min (nHeight + 32) height in
        pindexIter ← GetAncestor (cs_heap s) pindexMostWork nTargetHeight;
        let l := to_connect (cs_heap s) (Z.to_nat (nTargetHeight + 1)) pindexIter nHeight in
        '(r, s) ← connect_chunk pindexMostWork pblock pindexOldTip (default pindexMostWork (head l)) l s;
        match r with
        | ChunkDone => chunk_loop fuel pindexMostWork pblock pindexOldTip nTargetHeight s
        | _ => Ok (r, s)
        end
    end.

(** [fInvalidFound], or nothing when the node has to stop. *)
Definition ActivateBestChainStep (pindexMostWork : Ptr) (pblock : option CBlock) s : result (option bool * State) :=
  let pindexOldTip := Tip s in
  pindexFork ← FindFork (cs_heap s) (chainActive s) (Some pindexMostWork);
  '(ok, s) ← disconnect_to (length (chainActive s)) pindexFork s;
  if negb (ok : bool) then Ok (None, s)
  else
    let nHeight := match pindexFork with Some f => Chain.nHeight (at_ (cs_heap s) f) | None => -1 end in
    '(r, s) ← chunk_loop (Z.to_nat (Chain.nHeight (at_ (cs_heap s) pindexMostWork) + 1)) pindexMostWork pblock pindexOldTip nHeight s;
    Ok (match r with ChunkError => None | ChunkInvalid => Some true | _ => Some false end, s).

(** The loop of [ActivateBestChain], until the tip is the best candidate; no
    shutdown is requested meanwhile. [fuel] bounds the number of steps. *)
Fixpoint activate_loop (fuel : nat) (pindexMostWork : option Ptr) (pblock : option CBlock) s : result (bool * State) :=
  '(most, s) ← (match pindexMostWork with None => FindMostWorkChain s | Some m => Ok (Some m, s) end);
  match most with
  | None => Ok (true, s)
  | Some m =>
      if bool_decide (Tip s = Some m) then Ok (true, s)
      else
        let same := match pblock with
                    | Some b => bool_decide (CBlockHeader_GetHash (header b) = phashBlock (at_ (cs_heap s) m))
                    | None => false
                    end in
        '(r, s) ← ActivateBestChainStep m (if same then pblock else None) s;
        match r with
        | None => Ok (false, s)
        | Some fInvalidFound =>
            let pindexMostWork := if (fInvalidFound : bool) then None else Some m in
            if bool_decide (Tip s = pindexMostWork) then FlushStateToDisk FLUSH_STATE_PERIODIC s
            else
              match fuel with
              | O => Throw (assert_failed "ActivateBestChain: no progress")
              | Datatypes.S fuel => activate_loop fuel pindexMostWork pblock s
              end
        end
  end.

Definition ActivateBestChain (fuel : nat) (pblock : option CBlock) s : result (bool * State) := activate_loop fuel None pblock s.

(** ** Receiving blocks *)

(** The queue of blocks all of whose ancestors are there; each block that leaves
    it brings the blocks that waited for it. *)
Fixpoint link_loop (fuel : nat) (queue : list Ptr) s : result State :=
  match queue with
  | [] => Ok s
  | pindex :: queue =>
      let h := cs_heap s in
      let e := at_ h pindex in
      let chain_tx := u32 (match pprev e with Some q => nChainTx (at_ h q) | None => 0 end + nTx e) in
      let s := set_heap s (alter (with_linked chain_tx (nBlockSequenceId s)) pindex h) in
      let s := set_counters s (i32 (nBlockSequenceId s + 1)) (nBlockReverseSequenceId s) (nLastPreciousChainwork s) in
      let s := match Tip s with
               | Some tip => if CBlockIndexWorkComparator (cs_heap s) pindex tip then s
                             else set_candidates s ({[pindex]} ∪ setBlockIndexCandidates s)
               | None => set_candidates s ({[pindex]} ∪ setBlockIndexCandidates s)
               end in
      let waiting := filter (fun x => x.1 = pindex) (mapBlocksUnlinked s) in
      let s := set_unlinked s (filter (fun x => x.1 <> pindex) (mapBlocksUnlinked s)) in
      match fuel with
      | O => match queue ++ map snd waiting with [] => Ok s | _ => Throw (assert_failed "ReceivedBlockTransactions: no progress") end
      | Datatypes.S fuel => link_loop fuel (queue ++ map snd waiting) s
      end
  end.

(** [pos]: the file and the position the block was saved at. *)
Definition ReceivedBlockTransactions (block : CBlock) (pindexNew : Ptr) (pos : Z * Z) s : result State :=
  let h := cs_heap s in
  let e := at_ h pindexNew in
  let status := Z.lor (nStatus e) BLOCK_HAVE_DATA in
  '(witness, caches) ← IsWitnessEnabled h params (pprev e) (versionbitscache s);
  let status := if (witness : bool) then Z.lor status BLOCK_OPT_WITNESS else status in
  '(_, status) ← RaiseValidity status BLOCK_VALID_TRANSACTIONS;
  let s := set_caches s caches (scriptExecutionCache s) in
  let s := set_heap s (alter (with_received (u32 (zlen (vtx block))) pos.1 pos.2 status) pindexNew h) in
  let linked := match pprev e with None => true | Some q => negb (nChainTx (at_ (cs_heap s) q) =? 0) end in
  if linked then link_loop (length (mapBlocksUnlinked s)) [pindexNew] s
  else
    match pprev e with
    | None => Ok s
    | Some q =>
        valid ← IsValid (at_ (cs_heap s) q) BLOCK_VALID_TREE;
        Ok (if (valid : bool) then set_unlinked s (mapBlocksUnlinked s ++ [(q, pindexNew)]) else s)
    end.

(** The genesis block, when it is not in the index yet. [pos]: where it was saved. *)
Definition LoadGenesisBlock (block : CBlock) (pos : Z * Z) s : result (bool * State) :=
  match mapBlockIndex (cs_tree s) !! CBlockHeader_GetHash (header block) with
  | Some _ => Ok (true, s)
  | None =>
      '(pindex, t) ← AddToBlockIndex (header block) (cs_tree s);
      let s := set_tree s t in
      let s := set_files s (<[pindex := mkCBlock (header block) (vtx block) false]> (block_files s)) (undo_files s) in
      s ← ReceivedBlockTransactions block pindex pos s;
      Ok (true, s)
  end.

(** The blocks found to be invalid, by address. *)
Definition failed_in_order s : list Ptr := merge_sort Pos.le (elements (g_failed_blocks s)).

(** The entry of the block, the block with its [fChecked], and whether it is new.
    [pos]: the position that is found for it in the block files. *)
Definition AcceptBlock (block : CBlock) (fRequested : bool) (nAdjustedTime : Z) (pos : Z * Z) s
    : result (verdict (Ptr * CBlock * bool) * State) :=
  '(v, t) ← AcceptBlockHeader params fCheckpointsEnabled mapCheckpoints (failed_in_order s) (header block) nAdjustedTime (cs_tree s);
  let s := set_tree s t in
  match v with
  | Invalid r => Ok (Invalid r, s)
  | Valid pindex =>
      let h := cs_heap s in
      let e := at_ h pindex in
      let fAlreadyHave := negb (Z.land (nStatus e) BLOCK_HAVE_DATA =? 0) in
      let fHasMoreOrSameWork := match Tip s with Some tip => negb (more_work h tip pindex) | None => true end in
      let fTooFarAhead := i32 (Chain_Height (chainActive s) + MIN_BLOCKS_TO_KEEP) <? Chain.nHeight e in
      if fAlreadyHave then Ok (Valid (pindex, block, false), s)
      else if negb fRequested && (negb (nTx e =? 0) || negb fHasMoreOrSameWork || fTooFarAhead ||
                                  (CompareTo (nChainWork e) (nMinimumChainWork cfg) <? 0)) then Ok (Valid (pindex, block, false), s)
      else
        let mark r := if corruptionPossible r then s else set_heap s (or_status h pindex BLOCK_FAILED_VALID) in
        checked ← CheckBlock block params true true;
        match checked with
        | Invalid r => Ok (Invalid r, mark r)
        | Valid block =>
            '(ctx, caches) ← ContextualCheckBlock params GetBlockWeight h block (pprev e) (versionbitscache s);
            match ctx with
            | Invalid r => Ok (Invalid r, set_caches (mark r) caches (scriptExecutionCache s))
            | Valid _ =>
                let s := set_caches s caches (scriptExecutionCache s) in
                let s := set_files s (<[pindex := mkCBlock (header block) (vtx block) false]> (block_files s)) (undo_files s) in
                s ← ReceivedBlockTransactions block pindex pos s;
                Ok (Valid (pindex, block, true), s)
            end
        end
  end.

Definition ProcessNewBlock (fuel : nat) (block : CBlock) (fForceProcessing : bool) (nAdjustedTime : Z) (pos : Z * Z) s : result (bool * State) :=
  checked ← CheckBlock block params true true;
  match checked with
  | Invalid _ => Ok (false, s)
  | Valid block =>
      '(v, s) ← AcceptBlock block fForceProcessing nAdjustedTime pos s;
      match v with
      | Invalid _ => Ok (false, s)
      | Valid (_, block, _) => ActivateBestChain fuel (Some block) s
      end
  end.

(** A batch of headers, each with the adjusted time when it is looked at. *)
Definition ProcessHeaders (headers : list (CBlockHeader * Z)) s : result (verdict (option Ptr) * State) :=
  '(v, t) ← ProcessNewBlockHeaders params fCheckpointsEnabled mapCheckpoints (failed_in_order s) headers None (cs_tree s);
  Ok (v, set_tree s t).

(** ** Changing the order and the validity of blocks by hand *)

(** [pindex->nSequenceId = nBlockReverseSequenceId], and the counter goes down. *)
Definition PreciousBlock (fuel : nat) (pindex : Ptr) s : result (bool * State) :=
  match Tip s with
  | None => Throw null_deref
  | Some tip =>
      let h := cs_heap s in
      let tip_work := nChainWork (at_ h tip) in
      if CompareTo (nChainWork (at_ h pindex)) tip_work <? 0 then Ok (true, s)
      else
        let rev := if 0 <? CompareTo tip_work (nLastPreciousChainwork s) then -1 else nBlockReverseSequenceId s in
        let s := set_candidates s (setBlockIndexCandidates s ∖ {[pindex]}) in
        let s := set_heap s (alter (with_linked (nChainTx (at_ h pindex)) rev) pindex h) in
        let s := set_counters s (nBlockSequenceId s) (if - 2 ^ 31 <? rev then rev - 1 else rev) tip_work in
        valid ← IsValid (at_ (cs_heap s) pindex) BLOCK_VALID_TRANSACTIONS;
        s ← (if valid && negb (nChainTx (at_ (cs_heap s) pindex) =? 0)
             then PruneBlockIndexCandidates (set_candidates s ({[pindex]} ∪ setBlockIndexCandidates s)) else Ok s);
        ActivateBestChain fuel None s
  end.

(** [while (chainActive.Contains(pindex))]: whether it was there, and whether all
    blocks could be disconnected. *)
Fixpoint disconnect_while (fuel : nat) (pindex : Ptr) (was_in_chain : bool) s : result (bool * bool * State) :=
  if negb (Contains (cs_heap s) (chainActive s) pindex) then Ok (was_in_chain, true, s)
  else
    match fuel with
    | O => Throw (assert_failed "InvalidateBlock: no progress")
    | Datatypes.S fuel =>
        '(ok, s) ← DisconnectTip s;
        if negb (ok : bool) then Ok (true, false, s) else disconnect_while fuel pindex true s
    end.

(** [while (invalid_walk_tip != pindex)]. *)
Fixpoint fail_children (fuel : nat) (walk : option Ptr) (pindex : Ptr) s : result State :=
  if bool_decide (walk = Some pindex) then Ok s
  else
    match fuel, walk with
    | Datatypes.S fuel, Some p =>
        let s := set_heap s (or_status (cs_heap s) p BLOCK_FAILED_CHILD) in
        fail_children fuel (pprev (at_ (cs_heap s) p)) pindex (set_candidates s (setBlockIndexCandidates s ∖ {[p]}))
    | _, _ => Throw null_deref
    end.

(** The blocks of the index that may be connected. *)
Definition usable (e : CBlockIndex) : bool :=
  match IsValid e BLOCK_VALID_TRANSACTIONS with Ok valid => valid && negb (nChainTx e =? 0) | Throw _ => false end.

Definition all_blocks s : list Ptr := (map_to_list (mapBlockIndex (cs_tree s))).*2.

Definition InvalidateBlock (pindex : Ptr) s : result (bool * State) :=
  let invalid_walk_tip := Tip s in
  let length := length (chainActive s) in
  '(was_in_chain, ok, s) ← disconnect_while length pindex false s;
  if negb (ok : bool) then Ok (false, s)
  else
    s ← (if (was_in_chain : bool) then fail_children length invalid_walk_tip pindex s else Ok s);
    let s := set_heap s (or_status (cs_heap s) pindex BLOCK_FAILED_VALID) in
    let s := set_candidates s (setBlockIndexCandidates s ∖ {[pindex]}) in
    let s := set_invalid s (pindexBestInvalid s) ({[pindex]} ∪ g_failed_blocks s) in
    match Tip s with
    | None => Throw null_deref
    | Some tip =>
        let again := filter (fun p => usable (at_ (cs_heap s) p) && negb (CBlockIndexWorkComparator (cs_heap s) p tip) = true) (all_blocks s) in
        s ← InvalidChainFound pindex (set_candidates s (list_to_set again ∪ setBlockIndexCandidates s));
        Ok (true, s)
    end.

(** [nStatus &= ~BLOCK_FAILED_MASK]. *)
Definition clear_failed (h : Heap) (p : Ptr) : Heap :=
  set_status h p (Z.land (nStatus (at_ h p)) (u32 (Z.lnot BLOCK_FAILED_MASK))).

(** The descendants of [pindex], and the block itself. *)
Fixpoint reset_loop (l : list Ptr) (pindex : Ptr) (nHeight : Z) s : result State :=
  match l with
  | [] => Ok s
  | p :: l =>
      valid ← IsValid (at_ (cs_heap s) p) BLOCK_VALID_TRANSACTIONS;
      a ← (if (valid : bool) then Ok None else GetAncestor (cs_heap s) p nHeight);
      if bool_decide (a = Some pindex) then
        let s := set_heap s (clear_failed (cs_heap s) p) in
        match (if usable (at_ (cs_heap s) p) then Tip s else Some p) with
        | None => Throw null_deref
        | Some tip =>
            let s := if usable (at_ (cs_heap s) p) && CBlockIndexWorkComparator (cs_heap s) tip p
                     then set_candidates s ({[p]} ∪ setBlockIndexCandidates s) else s in
            let best := if bool_decide (pindexBestInvalid s = Some p) then None else pindexBestInvalid s in
            reset_loop l pindex nHeight (set_invalid s best (g_failed_blocks s ∖ {[p]}))
        end
      else reset_loop l pindex nHeight s
  end.

(** The ancestors; what [g_failed_blocks] says of them stays. *)
Fixpoint reset_ancestors (fuel : nat) (pindex : option Ptr) s : result State :=
  match pindex with
  | None => Ok s
  | Some p =>
      match fuel with
      | O => Throw (assert_failed "ResetBlockFailureFlags: no progress")
      | Datatypes.S fuel =>
          reset_ancestors fuel (pprev (at_ (cs_heap s) p))
            (if negb (Z.land (nStatus (at_ (cs_heap s) p)) BLOCK_FAILED_MASK =? 0) then set_heap s (clear_failed (cs_heap s) p) else s)
      end
  end.

Definition ResetBlockFailureFlags (pindex : Ptr) s : result State :=
  s ← reset_loop (all_blocks s) pindex (Chain.nHeight (at_ (cs_heap s) pindex)) s;
  reset_ancestors (Z.to_nat (Chain.nHeight (at_ (cs_heap s) pindex) + 1)) (Some pindex) s.
End ChainState.
