(* ===== verification/ChainGrowth.v ===== *)
(** * What stays true while the block index grows

    The index only ever gets new entries, and of the old ones only the status and
    what was received change. So the ancestors of a block, its times and heights,
    the deployments that are active at it and the rules its transactions follow
    never change; and the order of the candidates is a strict total order. *)
From S2P Require Import Prelude Serialize Amount Crypto Script Transaction Cash ArithUint256 Block Chain Pow VersionBits Merkle.
From S2P Require Import Interpreter InterpreterSafety SigHash TxVerify Compressor CheckBlock Connect ConnectSpec ConnectProps ChainState.

#[local] Opaque SHA256 SHA1 RIPEMD160 Hash160 Hash Hash2 GetHash GetWitnessHash CBlockHeader_GetHash.

(** ** Growth *)

Definition grows (h h' : Heap) : Prop :=
  forall p e, h !! p = Some e -> exists e', h' !! p = Some e' /\ link_data e' = link_data e.

Lemma grows_refl h : grows h h.
Proof. intros p e He. by exists e. Qed.

Lemma grows_trans h1 h2 h3 : grows h1 h2 -> grows h2 h3 -> grows h1 h3.
Proof. intros H1 H2 p e He. destruct (H1 p e He) as (e1 & He1 & <-). by apply H2. Qed.

Lemma same_links_grows h h' : same_links h h' -> grows h h'.
Proof.
  intros H p e He. specialize (H p). rewrite He in H. cbn in H. destruct (h' !! p) as [e'|]; [|done]. cbn in H. apply (inj Some) in H. by exists e'.
Qed.

Lemma insert_grows h p e : h !! p = None -> grows h (<[p := e]> h).
Proof. intros Hp q e' Hq. exists e'. split; [|done]. rewrite lookup_insert_ne; [done|congruence]. Qed.

Section Growth.
Context (h h' : Heap) (Hh : heap_ok h) (Hh' : heap_ok h') (Hg : grows h h').

Lemma grows_is_Some p : is_Some (h !! p) -> is_Some (h' !! p).
Proof. intros [e He]. destruct (Hg p e He) as (e' & He' & _). by exists e'. Qed.

Lemma grows_at p : is_Some (h !! p) ->
  phashBlock (at_ h' p) = phashBlock (at_ h p) /\ pprev (at_ h' p) = pprev (at_ h p) /\ Chain.nHeight (at_ h' p) = Chain.nHeight (at_ h p) /\
  nChainWork (at_ h' p) = nChainWork (at_ h p) /\ bi_nTime (at_ h' p) = bi_nTime (at_ h p) /\ bi_nVersion (at_ h' p) = bi_nVersion (at_ h p).
Proof.
  intros [e He]. destruct (Hg p e He) as (e' & He' & Hl). unfold at_. rewrite He, He'. cbn. unfold link_data in Hl.
  injection Hl as -> -> _ -> -> -> _ _ ->. done.
Qed.

Lemma prev_in p q : is_Some (h !! p) -> pprev (at_ h p) = Some q -> is_Some (h !! q).
Proof. intros Hp Hq. destruct (at_ok h Hh p Hp) as [_ Hprev _]. rewrite Hq in Hprev. apply Hprev. Qed.

Lemma grows_back n : forall p, is_Some (h !! p) -> back h' n p = back h n p.
Proof.
  induction n as [|n IH]; intros p Hp; [done|]. cbn [back]. destruct (grows_at p Hp) as (_ & -> & _).
  destruct (pprev (at_ h p)) as [q|] eqn:Eq; [|done]. cbn. apply IH. by eapply prev_in.
Qed.

Lemma grows_median_times n : forall p, is_Some (h !! p) -> median_times h' n (Some p) = median_times h n (Some p).
Proof.
  induction n as [|n IH]; intros p Hp; [done|]. cbn [median_times]. destruct (grows_at p Hp) as (_ & -> & _ & _ & -> & _). f_equal.
  destruct (pprev (at_ h p)) as [q|] eqn:Eq; [|by destruct n]. apply IH. by eapply prev_in.
Qed.

Lemma grows_median p : is_Some (h !! p) -> GetMedianTimePast h' p = GetMedianTimePast h p.
Proof. intros Hp. unfold GetMedianTimePast. by rewrite grows_median_times. Qed.

Lemma grows_GetAncestor p k : is_Some (h !! p) -> GetAncestor h' p k = GetAncestor h p k.
Proof.
  intros Hp. rewrite !GetAncestor_ok by eauto using grows_is_Some. destruct (grows_at p Hp) as (_ & _ & -> & _). by rewrite grows_back.
Qed.

Lemma grows_SequenceLocks tx fl hs p : is_Some (h !! p) -> SequenceLocks h' tx fl hs p = SequenceLocks h tx fl hs p.
Proof.
  intros Hp. assert (Hloop : forall v hs a b, sequence_locks_loop h' p v hs a b = sequence_locks_loop h p v hs a b).
  { induction v as [|i v IH]; intros [|x l] a b; try done. cbn [sequence_locks_loop]. rewrite grows_GetAncestor by done.
    case_if; [by rewrite IH|]. case_if; [|cbv zeta; by rewrite IH]. rewrite GetAncestor_ok by done. cbn [mbind result_bind].
    destruct (if _ && _ then _ else None) as [q|] eqn:Eq; [|done]. cbv zeta. rewrite grows_median; [by rewrite IH|].
    destruct (_ && _); [|done]. apply (back_height h Hh _ _ _ Hp Eq). }
  unfold SequenceLocks, CalculateSequenceLocks, EvaluateSequenceLocks. rewrite Hloop. destruct (grows_at p Hp) as (_ & -> & -> & _).
  destruct (pprev (at_ h p)) as [q|] eqn:Eq; [|done]. by rewrite grows_median by (by eapply prev_in).
Qed.

(** ** Deployments *)
Section Deployment.
Context (params : Params) (d : BIP9Deployment).
Abbreviation c := (VersionBitsConditionChecker params d).

Lemma grows_signals n : forall p, is_Some (h !! p) -> signals h' c n p = signals h c n p.
Proof.
  induction n as [|n IH]; intros p Hp; [done|]. cbn [signals]. destruct (grows_at p Hp) as (_ & -> & _ & _ & _ & Ev).
  f_equal; [unfold Condition, VersionBitsConditionChecker; by rewrite Ev|].
  destruct (pprev (at_ h p)) as [q|] eqn:Eq; [|done]. apply IH. by eapply prev_in.
Qed.

Lemma grows_bip9 k : forall p, (forall q, p = Some q -> is_Some (h !! q)) -> bip9 h' c k p = bip9 h c k p.
Proof.
  induction k as [|k IH]; intros [p|] Hp; try done. specialize (Hp p eq_refl). cbn [bip9]. rewrite grows_back, IH by (done ||
    (intros q Hq; apply (back_height h Hh _ _ _ Hp Hq))).
  unfold bip9_next. by rewrite grows_median, grows_signals.
Qed.

Lemma grows_state_at p : (forall q, p = Some q -> is_Some (h !! q)) -> state_at h' c p = state_at h c p.
Proof.
  intros Hp. unfold state_at. destruct p as [p|]; [|done]. destruct (grows_at p (Hp p eq_refl)) as (_ & _ & -> & _). by apply grows_bip9.
Qed.

Lemma grows_bip9_state p : (forall q, p = Some q -> is_Some (h !! q)) -> bip9_state h' c p = bip9_state h c p.
Proof.
  intros Hp. unfold bip9_state. destruct (_ =? _); [done|]. unfold boundary_of. destruct p as [p|]; [|done]. specialize (Hp p eq_refl).
  destruct (grows_at p Hp) as (_ & _ & -> & _). rewrite grows_back by done. apply grows_state_at. intros q Hq.
  destruct (_ <=? _); [|done]. apply (back_height h Hh _ _ _ Hp Hq).
Qed.

Lemma grows_cache_valid cache : cache_valid h c cache -> cache_valid h' c cache.
Proof.
  intros Hc p st Hp. destruct (Hc p st Hp) as [Hb ->]. destruct p as [p|]; [|done]. destruct Hb as [Hp' Hm]. split.
  - split; [by apply grows_is_Some|]. by destruct (grows_at p Hp') as (_ & _ & -> & _).
  - symmetry. apply grows_state_at. by intros q [= <-].
Qed.
End Deployment.

Lemma grows_rule_active params p pos : (forall q, p = Some q -> is_Some (h !! q)) -> rule_active h' params p pos = rule_active h params p pos.
Proof. intros Hp. unfold rule_active. destruct (_ !! _) as [d|]; [|done]. by rewrite grows_bip9_state. Qed.

Lemma grows_deployments params caches : deployments_ok h params caches -> deployments_ok h' params caches.
Proof. intros [H1 H2 H3 H4]. split; [done..|]. eapply Forall2_impl; [|exact H4]. intros d cache. apply grows_cache_valid. Qed.

(** ** The rules of a block *)

Lemma grows_flags params p : is_Some (h !! p) ->
  block_flags h' params p = block_flags h params p /\ block_lock_flags h' params p = block_lock_flags h params p.
Proof.
  intros Hp. unfold block_flags, block_lock_flags. cbv zeta. destruct (grows_at p Hp) as (_ & -> & -> & _).
  rewrite !grows_rule_active by (intros q Hq; by eapply prev_in). done.
Qed.

Lemma grows_txs_connect env p lock fl fsc scripts v : is_Some (h !! p) -> forall u fees ops u' undo fees',
  txs_connect env h' p lock fl fsc scripts v u fees ops u' undo fees' <-> txs_connect env h p lock fl fsc scripts v u fees ops u' undo fees'.
Proof.
  intros Hp. destruct (grows_at p Hp) as (_ & _ & Eh & _).
  assert (Hin : forall u tx fees fees', inputs_connect h' p lock u tx fees fees' <-> inputs_connect h p lock u tx fees fees').
  { intros u tx fees fees'. unfold inputs_connect. rewrite Eh. destruct (IsCashBase tx); [done|].
    split; intros (fee & l & locks & H1); exists fee, l, locks; [rewrite grows_SequenceLocks in H1 by done|rewrite grows_SequenceLocks by done]; exact H1. }
  induction v as [|tx v IH]; intros u fees ops u' undo fees'; cbn [txs_connect]; [done|]. setoid_rewrite IH. setoid_rewrite Hin. by rewrite Eh.
Qed.
End Growth.

(** ** Ancestors *)

Lemma ancestor_refl h p : ancestor h p p.
Proof. by exists O. Qed.

Lemma ancestor_trans h p q r : ancestor h p q -> ancestor h q r -> ancestor h p r.
Proof. intros [n Hn] [m Hm]. exists (n + m)%nat. by rewrite back_add, Hn. Qed.

Lemma ancestor_prev h p q : pprev (at_ h p) = Some q -> ancestor h p q.
Proof. intros Hq. exists 1%nat. cbn. by rewrite Hq. Qed.

Lemma ancestor_in h p q : heap_ok h -> is_Some (h !! p) -> ancestor h p q -> is_Some (h !! q) /\ Chain.nHeight (at_ h q) <= Chain.nHeight (at_ h p).
Proof. intros Hh Hp [n Hn]. destruct (back_height h Hh _ _ _ Hp Hn) as (? & ? & ?). split; [done|lia]. Qed.

Lemma ancestor_same h p q : heap_ok h -> is_Some (h !! p) -> ancestor h p q -> Chain.nHeight (at_ h q) = Chain.nHeight (at_ h p) -> q = p.
Proof.
  intros Hh Hp [n Hn] He. destruct (back_height h Hh _ _ _ Hp Hn) as (? & ? & ?). assert (n = O) as -> by lia. by injection Hn.
Qed.

Lemma grows_ancestor h h' p q : heap_ok h -> grows h h' -> is_Some (h !! p) -> ancestor h' p q <-> ancestor h p q.
Proof. intros Hh Hg Hp. unfold ancestor. by setoid_rewrite (grows_back h h' Hh Hg) at 1. Qed.

(** ** The active chain *)

Lemma chain_of_contains h p q : heap_ok h -> is_Some (h !! p) -> is_Some (h !! q) -> Contains h (chain_of h p) q = true <-> ancestor h p q.
Proof.
  intros Hh Hp Hq. unfold Contains, Chain_at. rewrite bool_decide_eq_true. destruct (at_ok h Hh q Hq) as [Hpos _ _].
  assert (Hl : zlen (chain_of h p) = Chain.nHeight (at_ h p) + 1).
  { unfold zlen, chain_of. rewrite length_map, length_seq. destruct (at_ok h Hh p Hp) as [? _ _]. lia. }
  rewrite Hl. split.
  - destruct (_ || _); [done|]. rewrite chain_of_nth by done. destruct (_ <=? _)%nat; [|done]. intros Hb. by eexists.
  - intros [n Hn]. destruct (back_height h Hh _ _ _ Hp Hn) as (Hle & _ & Hhq).
    destruct (Z.ltb_spec (Chain.nHeight (at_ h q)) 0); [lia|]. destruct (Z.leb_spec (Chain.nHeight (at_ h p) + 1) (Chain.nHeight (at_ h q))); [lia|].
    cbn [orb]. rewrite chain_of_nth by done. destruct (Nat.leb_spec (Z.to_nat (Chain.nHeight (at_ h q))) (Z.to_nat (Chain.nHeight (at_ h p)))); [|lia].
    by replace (Z.to_nat (Chain.nHeight (at_ h p)) - Z.to_nat (Chain.nHeight (at_ h q)))%nat with n by lia.
Qed.

Lemma chain_of_length h p : length (chain_of h p) = S (Z.to_nat (Chain.nHeight (at_ h p))).
Proof. unfold chain_of. by rewrite length_map, length_seq. Qed.

Lemma chain_of_tip h p : is_Some (h !! p) -> Chain_Tip (chain_of h p) = Some p.
Proof.
  intros Hp. unfold Chain_Tip. rewrite chain_of_nth by done. unfold zlen. rewrite chain_of_length. destruct (Z.ltb_spec 0 (Z.of_nat (S (Z.to_nat (Chain.nHeight (at_ h p)))))); [|lia].
  cbn [Nat.sub]. rewrite Nat.sub_0_r, Nat.leb_refl, Nat.sub_diag. done.
Qed.

Lemma grows_chain_of h h' p : heap_ok h -> grows h h' -> is_Some (h !! p) -> chain_of h' p = chain_of h p.
Proof.
  intros Hh Hg Hp. unfold chain_of. destruct (grows_at h h' Hg p Hp) as (_ & _ & -> & _). apply map_ext. intros i. by apply grows_back.
Qed.

(** ** The order of the candidates *)

(** Less work, or as much and received later, or at a greater address. *)
Definition worse (h : Heap) (p q : Ptr) : Prop :=
  let w p := val (nChainWork (at_ h p)) in
  let n p := nSequenceId (at_ h p) in
  w p < w q \/ (w p = w q /\ (n q < n p \/ (n p = n q /\ (Z.pos q < Z.pos p)))).

Lemma worse_irrefl h p : ~ worse h p p.
Proof. unfold worse. lia. Qed.

Lemma worse_trans h p q r : worse h p q -> worse h q r -> worse h p r.
Proof. unfold worse. lia. Qed.

Lemma worse_total h p q : ~ worse h p q -> ~ worse h q p -> p = q.
Proof. unfold worse. intros. assert (Z.pos p = Z.pos q) by lia. congruence. Qed.

Lemma worse_not_trans h p q r : ~ worse h q p -> ~ worse h r q -> ~ worse h r p.
Proof. unfold worse. lia. Qed.

Lemma worse_cut h p q r : worse h p q -> ~ worse h r q -> worse h p r.
Proof. unfold worse. lia. Qed.

Lemma worse_work h p q : val (nChainWork (at_ h p)) < val (nChainWork (at_ h q)) -> worse h p q.
Proof. unfold worse. lia. Qed.

Lemma CompareTo_gt a b : arith_ok a -> arith_ok b -> (0 <? CompareTo a b) = (val b <? val a).
Proof. intros Ha Hb. rewrite CompareTo_ok by done. apply eq_true_iff_eq. rewrite !Z.ltb_lt. lia. Qed.

Definition works_ok (h : Heap) : Prop := forall p, is_Some (h !! p) -> arith_ok (nChainWork (at_ h p)).

Section Order.
Context (h : Heap) (Hw : works_ok h).

Lemma comparator_worse p q : is_Some (h !! p) -> is_Some (h !! q) -> CBlockIndexWorkComparator h p q = true <-> worse h p q.
Proof.
  intros Hp Hq. unfold CBlockIndexWorkComparator, worse. cbv zeta. rewrite CompareTo_lt, CompareTo_gt by auto.
  destruct (Z.ltb_spec (val (nChainWork (at_ h q))) (val (nChainWork (at_ h p)))); [lia|].
  destruct (Z.ltb_spec (val (nChainWork (at_ h p))) (val (nChainWork (at_ h q)))); [lia|].
  destruct (Z.ltb_spec (nSequenceId (at_ h p)) (nSequenceId (at_ h q))); [lia|].
  destruct (Z.ltb_spec (nSequenceId (at_ h q)) (nSequenceId (at_ h p))); [lia|].
  destruct (Pos.ltb_spec p q); [lia|]. destruct (Pos.ltb_spec q p); [lia|]. split; [done|lia].
Qed.

Lemma comparator_not_worse p q : is_Some (h !! p) -> is_Some (h !! q) -> CBlockIndexWorkComparator h p q = false <-> ~ worse h p q.
Proof. intros Hp Hq. rewrite <- not_true_iff_false. by rewrite comparator_worse. Qed.

Lemma more_work_spec p q : is_Some (h !! p) -> is_Some (h !! q) ->
  more_work h p q = (val (nChainWork (at_ h q)) <? val (nChainWork (at_ h p))).
Proof.
  intros Hp Hq. unfold more_work. by rewrite CompareTo_gt by auto.
Qed.

(** The last element is the best one. *)
Lemma rbegin_spec (s : gset Ptr) : (forall p, p ∈ s -> is_Some (h !! p)) ->
  match rbegin h s with
  | Some m => m ∈ s /\ forall p, p ∈ s -> ~ worse h m p
  | None => s = ∅
  end.
Proof.
  intros Hs. unfold rbegin. assert (Hl : forall l, (forall p, p ∈ l -> is_Some (h !! p)) ->
    match foldr (better h) None l with Some m => m ∈ l /\ forall p, p ∈ l -> ~ worse h m p | None => l = [] end).
  { induction l as [|p l IH]; intros Hin; [done|]. cbn [foldr]. assert (Hp : is_Some (h !! p)) by (apply Hin, list_elem_of_here).
    specialize (IH (fun q Hq => Hin q (list_elem_of_further q p l Hq))). destruct (foldr (better h) None l) as [m|]; cbn [better].
    - destruct IH as [Hm IH]. assert (Hm' : is_Some (h !! m)) by (by apply Hin, list_elem_of_further).
      destruct (CBlockIndexWorkComparator h m p) eqn:E.
      + apply comparator_worse in E; [|done..]. split; [apply list_elem_of_here|]. intros q [->|Hq]%elem_of_cons; [apply worse_irrefl|].
        intros Hw'. apply (IH q Hq). by eapply worse_trans.
      + apply comparator_not_worse in E; [|done..]. split; [by apply list_elem_of_further|]. intros q [->|Hq]%elem_of_cons; [done|by apply IH].
    - subst l. split; [apply list_elem_of_here|]. intros q [->|[]%elem_of_nil]%elem_of_cons. apply worse_irrefl. }
  specialize (Hl (elements s)). destruct (foldr _ _ _) as [m|].
  - destruct Hl as [Hm Hmax]; [intros p Hp%elem_of_elements; by apply Hs|]. apply elem_of_elements in Hm. split; [done|].
    intros p Hp. apply Hmax. by apply elem_of_elements.
  - apply leibniz_equiv, elements_empty_iff, Hl. intros p Hp%elem_of_elements. by apply Hs.
Qed.
End Order.
