(* ===== verification/ChainStateInv.v ===== *)
(** * The invariant of the chain state

    What the developers' own consistency check asserts, and more: the index is a
    tree of headers that follow the rules, every block that was received is
    stored, the undo data of a block takes it back, the active chain is a path
    from the genesis block without a failed block, the view is the set of unspent
    outputs that the blocks of the active chain leave, and the candidates are
    exactly the blocks worth trying. *)
From S2P Require Import Prelude StrEncodings Serialize Amount Crypto Script Transaction Cash ArithUint256 Block Chain Pow VersionBits Merkle.
From S2P Require Import Interpreter InterpreterSafety SigHash TxVerify Compressor CheckBlock Connect ConnectSpec ConnectProps ChainState ChainGrowth.

#[local] Opaque SHA256 SHA1 RIPEMD160 Hash160 Hash Hash2 GetHash GetWitnessHash CBlockHeader_GetHash.

(** ** The status of an entry *)

Definition failed_bits (st : Z) : Z := Z.land st BLOCK_FAILED_MASK.
Definition data_bit (st : Z) : Z := Z.land st BLOCK_HAVE_DATA.
Definition undo_bit (st : Z) : Z := Z.land st BLOCK_HAVE_UNDO.
Definition level (st : Z) : Z := Z.land st BLOCK_VALID_MASK.

(** The bits of a constant in a union, by distributing the intersection. *)
Ltac bits :=
  unfold failed_bits, data_bit, undo_bit, level in *;
  rewrite ?Z.land_lor_distr_l, <- ?Z.land_assoc;
  repeat match goal with |- context [Z.land ?a ?b] =>
    let c := eval vm_compute in (Z.land a b) in
    match c with Z0 => change (Z.land a b) with 0 | Zpos _ => change (Z.land a b) with c end end;
  rewrite ?Z.land_0_r, ?Z.lor_0_r, ?Z.lor_0_l; try reflexivity.

(** The levels the code asks for. *)
Definition asked (up : Z) : Prop := up = BLOCK_VALID_TREE \/ up = BLOCK_VALID_TRANSACTIONS \/ up = BLOCK_VALID_SCRIPTS.

Lemma asked_mask up : asked up -> (Z.land up (u32 (Z.lnot BLOCK_VALID_MASK)) =? 0) = true.
Proof. intros [-> |[-> | ->]]; reflexivity. Qed.

Lemma IsValid_spec e up : asked up -> IsValid e up = Ok ((failed_bits (nStatus e) =? 0) && (up <=? level (nStatus e))).
Proof. intros Hup. unfold IsValid. rewrite asked_mask by done. cbn [assert_then]. unfold failed_bits, level. by destruct (_ =? 0). Qed.

Lemma lor_failed st flag : flag = BLOCK_FAILED_VALID \/ flag = BLOCK_FAILED_CHILD ->
  failed_bits (Z.lor st flag) <> 0 /\ data_bit (Z.lor st flag) = data_bit st /\ undo_bit (Z.lor st flag) = undo_bit st /\
  level (Z.lor st flag) = level st.
Proof.
  intros [-> | ->]; (split; [|split_and!; bits]); unfold failed_bits; rewrite Z.land_lor_distr_l; intros [_ H]%Z.lor_eq_0_iff; discriminate H.
Qed.

Lemma RaiseValidity_spec st up : asked up ->
  exists b st', RaiseValidity st up = Ok (b, st') /\ failed_bits st' = failed_bits st /\ data_bit st' = data_bit st /\ undo_bit st' = undo_bit st /\
    level st <= level st' /\ (failed_bits st = 0 -> up <= level st').
Proof.
  intros Hup. unfold RaiseValidity. rewrite asked_mask by done. cbn [assert_then]. fold (failed_bits st) (level st). destruct (Z.eqb_spec (failed_bits st) 0) as [E|E]; cbn [negb].
  - destruct (Z.ltb_spec (level st) up) as [Hlt|Hge]; eexists _, _; (split; [done|]); [|split_and!; auto with lia].
    assert (level (Z.lor (Z.land st (u32 (Z.lnot BLOCK_VALID_MASK))) up) = up) as -> by (destruct Hup as [-> |[-> | ->]]; bits).
    split_and!; [destruct Hup as [-> |[-> | ->]]; bits..|lia|lia].
  - eexists _, _. split; [done|]. split_and!; done || lia.
Qed.

Lemma connected_status_spec e st : connected_status true e = Ok (Some st) ->
  failed_bits st = failed_bits (nStatus e) /\ data_bit st = data_bit (nStatus e) /\ undo_bit st <> 0 /\ level (nStatus e) <= level st.
Proof.
  unfold connected_status. rewrite andb_false_r. set (st0 := if negb _ then _ else _).
  assert (H0 : failed_bits st0 = failed_bits (nStatus e) /\ data_bit st0 = data_bit (nStatus e) /\ undo_bit st0 <> 0 /\ level st0 = level (nStatus e)).
  { subst st0. fold (undo_bit (nStatus e)). destruct (Z.eqb_spec (undo_bit (nStatus e)) 0) as [E|E]; cbn [negb]; [|done].
    split_and!; [bits..| |bits]. unfold undo_bit. rewrite Z.land_lor_distr_l. intros [_ H]%Z.lor_eq_0_iff. discriminate H. }
  rewrite IsValid_spec by (unfold asked; auto). cbn [mbind result_bind with_status nStatus]. destruct H0 as (H1 & H2 & H3 & H4).
  destruct (_ && _); [intros [= <-]; split_and!; done || lia|].
  destruct (RaiseValidity_spec st0 BLOCK_VALID_SCRIPTS) as (b & st' & -> & E1 & E2 & E3 & E4 & _); [unfold asked; auto|]. cbn [mbind result_bind].
  intros [= <-]. rewrite E1, E2, E3. split_and!; done || lia.
Qed.

(** ** The transactions of a chain *)

Fixpoint path_tx (h : Heap) (n : nat) (p : Ptr) : Z :=
  nTx (at_ h p) + match n, pprev (at_ h p) with S n, Some q => path_tx h n q | _, _ => 0 end.
Definition path_sum (h : Heap) (p : Ptr) : Z := path_tx h (Z.to_nat (Chain.nHeight (at_ h p))) p.

Lemma path_sum_step h p : heap_ok h -> is_Some (h !! p) ->
  path_sum h p = nTx (at_ h p) + match pprev (at_ h p) with Some q => path_sum h q | None => 0 end.
Proof.
  intros Hh Hp. unfold path_sum. destruct (at_ok h Hh p Hp) as [Hpos Hprev _]. destruct (pprev (at_ h p)) as [q|] eqn:Eq.
  - destruct Hprev as [_ ->]. replace (Z.to_nat (Chain.nHeight (at_ h p))) with (S (Z.to_nat (Chain.nHeight (at_ h p) - 1))).
    + cbn [path_tx]. by rewrite Eq.
    + destruct (at_ok h Hh q (prev_in h Hh p q Hp Eq)) as [Hq _ _]. assert (Chain.nHeight (at_ h q) = Chain.nHeight (at_ h p) - 1); [|lia].
      pose proof (at_ok h Hh p Hp) as [_ Hprev _]. rewrite Eq in Hprev. apply Hprev.
  - rewrite Hprev. change (Z.to_nat 0) with O. done.
Qed.

(** ** Blocks along a chain *)

Definition clean (h : Heap) (p : Ptr) : Prop := forall q, ancestor h p q -> failed_bits (nStatus (at_ h q)) = 0.
Definition linked (h : Heap) (p : Ptr) : Prop := nChainTx (at_ h p) <> 0.

Lemma clean_ancestor h p q : clean h p -> ancestor h p q -> clean h q.
Proof. intros Hc Ha r Hr. apply Hc. by eapply ancestor_trans. Qed.

(** ** What may arrive

    The headers and the blocks a node may get to see. What is shown of the node
    holds for every such collection with [arrivals_ok]. *)
Class Arrivals := {
  arrives_header : CBlockHeader -> Prop;
  arrives_block : CBlock -> Prop;
}.

(** The entry of a header that may arrive. *)
Definition entry_of (h : Heap) (p : Ptr) (b : CBlockHeader) : Prop :=
  let e := at_ h p in
  phashBlock e = CBlockHeader_GetHash b /\ bi_nVersion e = bh_nVersion b /\ bi_nTime e = bh_nTime b /\ bi_nBits e = bh_nBits b /\
  forall q, pprev e = Some q -> phashBlock (at_ h q) = hashPrevBlock b.

Definition entry_in `{!Arrivals} (h : Heap) (p : Ptr) : Prop :=
  uint256_IsNull (phashBlock (at_ h p)) = false /\ exists b, arrives_header b /\ entry_of h p b.

Lemma entry_in_grows `{!Arrivals} h h' p : heap_ok h -> grows h h' -> is_Some (h !! p) -> bi_nBits (at_ h' p) = bi_nBits (at_ h p) -> entry_in h p -> entry_in h' p.
Proof.
  intros Hh Hg Hp Hb (Hn & b & Ha & E1 & E2 & E3 & E4 & E5). destruct (grows_at _ _ Hg p Hp) as (F1 & F2 & _ & _ & F5 & F6).
  split; [by rewrite F1|]. exists b. split; [done|]. unfold entry_of. cbv zeta. rewrite F1, F2, F5, F6, Hb. split_and!; [done..|]. intros q Hq.
  destruct (grows_at _ _ Hg q (prev_in _ Hh _ _ Hp Hq)) as (-> & _). by apply E5.
Qed.

(** A hash none of the exceptions to BIP 30 names. *)
Definition plain_hash (params : Params) (x : uint256) : Prop :=
  uint256_IsNull x = false /\ x <> BIP34Hash params /\
  x <> uint256S (chars "0x00000000000a4d0a398161ffc163c503763b1f4360639393e0e4c8e300e0caec") /\
  x <> uint256S (chars "0x00000000000743f190a18c5577a3c2d2a1f610ae9601ac046a38084ccb7cd721").

(** A block that was checked and is stored: within the ranges of its types,
    without two different transactions with the same hash, and without an input
    that a transaction names twice. *)
Record block_good `{!Arrivals} (params : Params) (b : CBlock) : Prop := {
  bg_flag : fChecked b = false;
  bg_valid : exists b', CheckBlock b params true true = Ok (Valid b');
  bg_count : zlen (vtx b) < 2 ^ 31;
  bg_txs : Forall tx_ok (vtx b);
  bg_ids : ~ hash_collision (map (serialized false) (vtx b));
  bg_inputs : inputs_once b;
  bg_arrives : arrives_block b;
}.

Lemma block_good_fine `{!Arrivals} params b : block_good params b -> one_cashbase (vtx b) /\ Forall tx_fine (vtx b).
Proof.
  intros [Hf [b' Hb] Hn Htx _ _ _]. destruct (CheckBlock_unchecked b params true true Hf Hn) as (r & Er & Hr). rewrite Hb in Er.
  apply (inj Ok) in Er as <-. destruct (Hr b' eq_refl) as [H1 H2]. split; [done|]. apply Forall_forall. intros tx Hin.
  rewrite Forall_forall in Htx, H2. split; auto.
Qed.

Lemma block_good_fresh `{!Arrivals} params b n u undo u' : block_good params b -> (forall tx o, tx ∈ vtx b -> own_output tx o -> u !! o = None) ->
  block_effect n (vtx b) u = Some (undo, u') -> block_fresh u (vtx b).
Proof.
  intros Hb Hnew He. destruct (block_good_fine params b Hb) as [Hcb Hfine]. eapply block_effect_fresh; [|exact Hnew|exact He].
  apply block_shape_ok; [exact Hcb|exact Hfine|apply Hb|apply Hb].
Qed.

Section Reaches.
Context (env : ScriptEnv) (params : Params) (scripts : gset uint256).

(** The block follows the rules on top of the set [u]; all scripts are checked. *)
Definition connects (h : Heap) (block : CBlock) (p : Ptr) (u u' : utxo) (undo : list (list Cash)) : Prop :=
  exists fees, (forall tx o, tx ∈ vtx block -> own_output tx o -> u !! o = None) /\
    txs_connect env h p (block_lock_flags h params p) (block_flags h params p) true scripts (vtx block) u 0 0 u' undo fees /\
    reward_ok params (Chain.nHeight (at_ h p)) block fees.

Lemma block_connects_connects cfg t block p u u' undo : uint256_IsNull (hashAssumeValid cfg) = true ->
  block_connects env params cfg t block p scripts u u' undo <-> connects (bt_heap t) block p u u' undo.
Proof.
  intros Hn. unfold block_connects, connects, script_checks_needed. rewrite Hn. split.
  - intros (fsc & fees & [= <-] & H). by exists fees.
  - intros (fees & H). by exists true, fees.
Qed.

(** The blocks up to [p] follow the rules one after the other and leave the set [u]. *)
Inductive valid_chain (h : Heap) (blocks : gmap Ptr CBlock) : Ptr -> utxo -> Prop :=
  | valid_genesis p : is_Some (h !! p) -> pprev (at_ h p) = None -> valid_chain h blocks p ∅
  | valid_next p q b u undo u' : is_Some (h !! p) -> pprev (at_ h p) = Some q -> valid_chain h blocks q u ->
      blocks !! p = Some b -> connects h b p u u' undo -> valid_chain h blocks p u'.

(** The same, and the undo files hold what takes each of them back. *)
Inductive reaches (h : Heap) (blocks : gmap Ptr CBlock) (undos : gmap Ptr CBlockUndo) : Ptr -> utxo -> Prop :=
  | reaches_genesis p : is_Some (h !! p) -> pprev (at_ h p) = None -> reaches h blocks undos p ∅
  | reaches_next p q b u undo u' : is_Some (h !! p) -> pprev (at_ h p) = Some q -> reaches h blocks undos q u ->
      blocks !! p = Some b -> connects h b p u u' undo -> undos !! p = Some (mkCBlockUndo (map mkCTxUndo (tail undo))) ->
      reaches h blocks undos p u'.

(** A block that does not follow the rules on top of a chain that does. *)
Definition refused (h : Heap) (blocks : gmap Ptr CBlock) (p : Ptr) : Prop :=
  exists q b u, is_Some (h !! p) /\ pprev (at_ h p) = Some q /\ valid_chain h blocks q u /\ blocks !! p = Some b /\ forall u' undo, ~ connects h b p u u' undo.

Lemma connects_effect h b p u u' undo : connects h b p u u' undo -> block_effect (Chain.nHeight (at_ h p)) (vtx b) u = Some (undo, u').
Proof. intros (fees & _ & Hs & _). by eapply txs_connect_effect. Qed.

(** The set is determined by the block. *)
Lemma valid_fun h blocks p u : valid_chain h blocks p u -> forall u', valid_chain h blocks p u' -> u' = u.
Proof.
  induction 1 as [p Hp Hn|p q b u undo u' Hp Hq _ IH Hb Hc]; intros w Hw; inversion Hw as [? ? Hn'|? q' b' u1 undo1 ? ? Hq' Hw1 Hb' Hc']; subst;
    [done|congruence|congruence|].
  assert (q' = q) as -> by congruence. assert (b' = b) as -> by congruence. rewrite (IH u1 Hw1) in *.
  apply connects_effect in Hc, Hc'. congruence.
Qed.

Lemma valid_inv h blocks p q u' : valid_chain h blocks p u' -> pprev (at_ h p) = Some q ->
  exists b u undo, valid_chain h blocks q u /\ blocks !! p = Some b /\ connects h b p u u' undo.
Proof.
  intros Hr Hq. inversion Hr as [? ? Hn|? q' b u undo ? ? Hq' Hr' Hb Hc]; subst; [congruence|]. assert (q' = q) as -> by congruence.
  exists b, u, undo. done.
Qed.

Lemma valid_in h blocks p u : valid_chain h blocks p u -> is_Some (h !! p).
Proof. by destruct 1. Qed.

Lemma valid_ancestor h blocks p u q : valid_chain h blocks p u -> ancestor h p q -> exists u', valid_chain h blocks q u'.
Proof.
  intros Hr. revert q. induction Hr as [p Hp Hn|p r b u undo u' Hp Hq Hr IH Hb Hc]; intros q Hq'.
  - apply ancestor_step in Hq' as [-> |(r & Er & _)]; [|congruence]. exists ∅. by apply valid_genesis.
  - apply ancestor_step in Hq' as [-> |(r' & Er & Ha)]; [exists u'; by eapply valid_next|]. assert (r' = r) as -> by congruence. by apply IH.
Qed.

(** A chain with a block that was refused is not valid. *)
Lemma refused_not_valid h blocks p u q : valid_chain h blocks p u -> ancestor h p q -> ~ refused h blocks q.
Proof.
  intros Hv Ha (r & b & w & _ & Hr & Hw & Hb & Hno). destruct (valid_ancestor _ _ _ _ _ Hv Ha) as [u1 Hu1].
  destruct (valid_inv _ _ _ _ _ Hu1 Hr) as (b1 & u2 & undo & Hv2 & Hb1 & Hc). assert (b1 = b) as -> by congruence.
  rewrite (valid_fun _ _ _ _ Hw _ Hv2) in Hc. by eapply Hno.
Qed.

Lemma reaches_valid h blocks undos p u : reaches h blocks undos p u -> valid_chain h blocks p u.
Proof. induction 1; [by apply valid_genesis|by eapply valid_next]. Qed.

Lemma reaches_fun h blocks undos p u : reaches h blocks undos p u -> forall u', reaches h blocks undos p u' -> u' = u.
Proof. intros Hr u' Hr'. eapply valid_fun; by eapply reaches_valid. Qed.

Lemma reaches_in h blocks undos p u : reaches h blocks undos p u -> is_Some (h !! p).
Proof. by destruct 1. Qed.

Lemma reaches_inv h blocks undos p q u' : reaches h blocks undos p u' -> pprev (at_ h p) = Some q ->
  exists b u undo, reaches h blocks undos q u /\ blocks !! p = Some b /\ connects h b p u u' undo /\
    undos !! p = Some (mkCBlockUndo (map mkCTxUndo (tail undo))).
Proof.
  intros Hr Hq. inversion Hr as [? ? Hn|? q' b u undo ? ? Hq' Hr' Hb Hc Hu]; subst; [congruence|]. assert (q' = q) as -> by congruence.
  exists b, u, undo. done.
Qed.

(** Every block on the way was connected. *)
Lemma reaches_ancestor h blocks undos p u q : reaches h blocks undos p u -> ancestor h p q -> exists u', reaches h blocks undos q u'.
Proof.
  intros Hr. revert q. induction Hr as [p Hp Hn|p r b u undo u' Hp Hq Hr IH Hb Hc Hu]; intros q Hq'.
  - apply ancestor_step in Hq' as [-> |(r & Er & _)]; [|congruence]. exists ∅. by apply reaches_genesis.
  - apply ancestor_step in Hq' as [-> |(r' & Er & Ha)]; [exists u'; by eapply reaches_next|]. assert (r' = r) as -> by congruence. by apply IH.
Qed.

Lemma connects_grows h h' b p u u' undo : heap_ok h -> heap_ok h' -> grows h h' -> is_Some (h !! p) ->
  connects h' b p u u' undo <-> connects h b p u u' undo.
Proof.
  intros Hh Hh' Hg Hp. unfold connects. destruct (grows_flags h h' Hh Hg params p Hp) as [-> ->].
  destruct (grows_at h h' Hg p Hp) as (_ & _ & -> & _). by setoid_rewrite (grows_txs_connect h h' Hh Hh' Hg env p _ _ true scripts (vtx b) Hp).
Qed.

(** What is true of a chain stays true when the index and the files grow. *)
Lemma reaches_grows h h' blocks blocks' undos undos' p u : heap_ok h -> heap_ok h' -> grows h h' ->
  (forall q b, blocks !! q = Some b -> blocks' !! q = Some b) -> (forall q x, undos !! q = Some x -> undos' !! q = Some x) ->
  reaches h blocks undos p u -> reaches h' blocks' undos' p u.
Proof.
  intros Hh Hh' Hg Hb Hu. induction 1 as [p Hp Hn|p q b u undo u' Hp Hq _ IH Hbp Hc Hup]; destruct (grows_at h h' Hg p Hp) as (_ & Ep & _).
  - apply reaches_genesis; [by eapply grows_is_Some|congruence].
  - eapply reaches_next; [by eapply grows_is_Some|by rewrite Ep|exact IH|by apply Hb|by apply (connects_grows h h' b p u u' undo Hh Hh' Hg Hp)|by apply Hu].
Qed.

Lemma valid_grows h h' blocks blocks' p u : heap_ok h -> heap_ok h' -> grows h h' -> (forall q b, blocks !! q = Some b -> blocks' !! q = Some b) ->
  valid_chain h blocks p u -> valid_chain h' blocks' p u.
Proof.
  intros Hh Hh' Hg Hb. induction 1 as [p Hp Hn|p q b u undo u' Hp Hq _ IH Hbp Hc]; destruct (grows_at h h' Hg p Hp) as (_ & Ep & _).
  - apply valid_genesis; [by eapply grows_is_Some|congruence].
  - eapply valid_next; [by eapply grows_is_Some|by rewrite Ep|exact IH|by apply Hb|by apply (connects_grows h h' b p u u' undo Hh Hh' Hg Hp)].
Qed.

Lemma refused_grows h h' blocks blocks' p : heap_ok h -> heap_ok h' -> grows h h' -> (forall q b, blocks !! q = Some b -> blocks' !! q = Some b) ->
  refused h blocks p -> refused h' blocks' p.
Proof.
  intros Hh Hh' Hg Hb (q & b & u & Hp & Hq & Hv & Hbp & Hno). destruct (grows_at h h' Hg p Hp) as (_ & Ep & _). exists q, b, u.
  split_and!; [by eapply grows_is_Some|by rewrite Ep|exact (valid_grows h h' blocks blocks' q u Hh Hh' Hg Hb Hv)|by apply Hb|]. intros u' undo Hc.
  apply (Hno u' undo). by apply (connects_grows h h' b p u u' undo Hh Hh' Hg Hp).
Qed.

Lemma coins_ok_block n v : forall u undo u', 0 < n < 2 ^ 31 -> Forall tx_fine v -> coins_ok n u ->
  block_effect n v u = Some (undo, u') -> coins_ok n u'.
Proof.
  induction v as [|tx v IH]; intros u undo u' Hn Hall Hok He; cbn [block_effect] in He; [by injection He as <- <-|].
  apply Forall_cons_1 in Hall as [Htx Hall]. destruct (tx_effect n tx u) as [[coins u1]|] eqn:E1; [|done]. cbn in He.
  destruct (block_effect n v u1) as [[un u2]|] eqn:E2; [|done]. cbn in He. injection He as <- <-. eapply IH; [done..| |exact E2].
  eapply coins_ok_effect; [done|apply Htx|by apply tx_fine_null|exact Hok|exact E1].
Qed.

Lemma coins_ok_later n m u : n <= m -> coins_ok n u -> coins_ok m u.
Proof. intros Hnm Hok o cash Ho. destruct (Hok o cash Ho) as (? & ? & ? & ?). split_and!; done || lia. Qed.

(** The outputs in the set are those of the blocks up to here. *)
Lemma reaches_coins `{!Arrivals} h blocks undos p u : heap_ok h -> (forall q b, blocks !! q = Some b -> block_good params b) ->
  reaches h blocks undos p u -> Chain.nHeight (at_ h p) < 2 ^ 30 -> coins_ok (Chain.nHeight (at_ h p)) u.
Proof.
  intros Hh Hg. induction 1 as [p Hp Hn|p q b u undo u' Hp Hq Hr IH Hb Hc _]; intros Hlt; [intros o cash Ho; by rewrite lookup_empty in Ho|].
  destruct (at_ok h Hh p Hp) as [_ Hprev _]. rewrite Hq in Hprev. destruct Hprev as [Hqs Hhq].
  destruct (at_ok h Hh q Hqs) as [Hq0 _ _]. apply connects_effect in Hc. eapply coins_ok_block; [lia|apply (block_good_fine params b), (Hg _ _ Hb)| |exact Hc].
  eapply coins_ok_later; [|apply IH; lia]. lia.
Qed.
End Reaches.

(** ** The invariant *)

(** The network and the node: the computation of the next target does not wrap
    around, or targets never change, and no block is assumed to be valid. *)
Record config_ok (params : Params) (cfg : NodeConfig) : Prop := {
  cf_params : params_ok params;
  cf_limit : no_wrap params (le_value (powLimit params));
  cf_interval : 0 < nSubsidyHalvingInterval params;
  cf_assume : uint256_IsNull (hashAssumeValid cfg) = true;
}.

(** What arrives, taken together: whatever chains it makes, segregated witness is
    not in force below the height of BIP 16, and a block on top of valid ones for
    which BIP 30 is not enforced overwrites no output. *)
Record arrivals_ok `{!Arrivals} (env : ScriptEnv) (params : Params) (scripts : gset uint256) : Prop := {
  ar_p2sh : forall h p q, heap_ok h -> times_monotone h -> (forall q, is_Some (h !! q) -> entry_in h q) -> is_Some (h !! p) -> pprev (at_ h p) = Some q ->
    rule_active h params (Some q) DEPLOYMENT_SEGWIT = true -> BIP16Height params <= Chain.nHeight (at_ h p);
  ar_bip30 : forall h blocks p q b u, heap_ok h -> (forall q, is_Some (h !! q) -> entry_in h q) ->
    (forall q b, blocks !! q = Some b -> block_good params b /\ phashBlock (at_ h q) = CBlockHeader_GetHash (header b)) ->
    is_Some (h !! p) -> pprev (at_ h p) = Some q -> valid_chain env params scripts h blocks q u -> blocks !! p = Some b ->
    enforce_bip30 params h p q = Ok true \/ (forall tx o, tx ∈ vtx b -> own_output tx o -> u !! o = None);
}.

Definition setting_ok `{!Arrivals} (env : ScriptEnv) (params : Params) (cfg : NodeConfig) (scripts : gset uint256) : Prop :=
  config_ok params cfg /\ arrivals_ok env params scripts.

Lemma plain_bip30 params h p q : heap_ok h -> (forall q, is_Some (h !! q) -> plain_hash params (phashBlock (at_ h q))) -> is_Some (h !! p) ->
  pprev (at_ h p) = Some q -> enforce_bip30 params h p q = Ok true.
Proof.
  intros Hh Hall Hp Hq. pose proof (prev_in h Hh p q Hp Hq) as Hqs. unfold enforce_bip30. rewrite GetAncestor_ok by done. cbn [mbind result_bind].
  destruct (Hall p Hp) as (_ & _ & H1 & H2). rewrite !bool_decide_eq_false_2 with (P := phashBlock (at_ h p) = _) by done.
  rewrite !andb_false_r. cbn [orb negb andb].
  destruct (if _ && _ then _ else None) as [a|] eqn:Ea; [|done]. rewrite bool_decide_eq_false_2; [done|].
  apply Hall. destruct (_ && _); [|done]. apply (back_height h Hh _ _ _ Hqs Ea).
Qed.

Section Invariant.
Context `{Arr : !Arrivals} (env : ScriptEnv) (params : Params) (scripts : gset uint256).
Abbreviation reach := (reaches env params scripts).

(** The index and the files. Heights are below [n], no chain has more than [N]
    transactions, and the work of a block is at most 2^224, so that neither
    counter wraps around. *)
Record index_ok (n N : Z) (t : BlockTree) (failed : gset Ptr) (blocks : gmap Ptr CBlock) (undos : gmap Ptr CBlockUndo)
    (caches : VersionBitsCache) (unlinked : list (Ptr * Ptr)) : Prop := {
  ix_headers : headers_inv params t;
  ix_heights : heights_below t n;
  ix_n : 0 <= n <= 2 ^ 30;
  ix_genesis : is_Some (mapBlockIndex t !! hashGenesisBlock params);
  ix_root : forall p, is_Some (bt_heap t !! p) -> pprev (at_ (bt_heap t) p) = None -> mapBlockIndex t !! hashGenesisBlock params = Some p;
  ix_failed : forall p, p ∈ failed -> failed_flag (bt_heap t) p;
  ix_bound : forall p, is_Some (bt_heap t !! p) -> val (nChainWork (at_ (bt_heap t) p)) <= (Chain.nHeight (at_ (bt_heap t) p) + 1) * 2 ^ 224;
  ix_work : forall p q, is_Some (bt_heap t !! p) -> pprev (at_ (bt_heap t) p) = Some q ->
    val (nChainWork (at_ (bt_heap t) q)) < val (nChainWork (at_ (bt_heap t) p));
  ix_hash : forall p, is_Some (bt_heap t !! p) -> entry_in (bt_heap t) p;
  ix_level : forall p, is_Some (bt_heap t !! p) -> BLOCK_VALID_TREE <= level (nStatus (at_ (bt_heap t) p));
  ix_absent : forall p, is_Some (bt_heap t !! p) -> data_bit (nStatus (at_ (bt_heap t) p)) = 0 ->
    nTx (at_ (bt_heap t) p) = 0 /\ nChainTx (at_ (bt_heap t) p) = 0 /\ blocks !! p = None;
  ix_data : forall p, is_Some (bt_heap t !! p) -> data_bit (nStatus (at_ (bt_heap t) p)) <> 0 ->
    BLOCK_VALID_TRANSACTIONS <= level (nStatus (at_ (bt_heap t) p)) /\ 0 < nTx (at_ (bt_heap t) p) /\
    forall q, pprev (at_ (bt_heap t) p) = Some q -> is_Some (blocks !! p);
  ix_linked : forall p, is_Some (bt_heap t !! p) -> linked (bt_heap t) p ->
    nChainTx (at_ (bt_heap t) p) = path_sum (bt_heap t) p /\ forall q, pprev (at_ (bt_heap t) p) = Some q -> linked (bt_heap t) q;
  ix_total : forall p, is_Some (bt_heap t !! p) -> path_sum (bt_heap t) p <= N;
  ix_N : N < 2 ^ 32;
  ix_blocks : forall p b, blocks !! p = Some b -> is_Some (bt_heap t !! p) /\ block_good params b /\
    phashBlock (at_ (bt_heap t) p) = CBlockHeader_GetHash (header b);
  ix_undo : forall p, is_Some (bt_heap t !! p) -> undo_bit (nStatus (at_ (bt_heap t) p)) <> 0 -> exists u, reach (bt_heap t) blocks undos p u;
  ix_undos : forall p x, undos !! p = Some x -> is_Some (bt_heap t !! p) /\ undo_bit (nStatus (at_ (bt_heap t) p)) <> 0;
  ix_deploy : deployments_ok (bt_heap t) params caches;
  ix_unlinked : forall q c, (q, c) ∈ unlinked -> is_Some (bt_heap t !! c) /\ pprev (at_ (bt_heap t) c) = Some q /\
    data_bit (nStatus (at_ (bt_heap t) c)) <> 0 /\ ~ linked (bt_heap t) c;
  ix_nodup : NoDup unlinked;
}.

(** The candidates, seen from the tip, when the best block that was ever the tip is [r]. *)
Record cands_ok (h : Heap) (blocks : gmap Ptr CBlock) (undos : gmap Ptr CBlockUndo) (cands : gset Ptr) (tip r : Ptr) : Prop := {
  ck_sound : forall p, p ∈ cands -> is_Some (h !! p) /\ linked h p /\ ~ worse h p tip;
  ck_complete : forall p, is_Some (h !! p) -> linked h p -> clean h p -> ~ worse h p r -> p ∈ cands;
  ck_in : is_Some (h !! r);
  ck_linked : linked h r;
  ck_clean : clean h r;
  ck_set : exists u, reach h blocks undos r u;
  ck_best : ~ worse h r tip;
}.

Section View.
Context {S : Type} `{!CashView S} `{!CashViewOk S} `{!ScriptMemory} `{!ScriptMemoryOk}.

(** The active chain and its view. *)
Record active_ok (h : Heap) (blocks : gmap Ptr CBlock) (undos : gmap Ptr CBlockUndo) (chain : CChain) (view : CCashViewCache S) (tip : Ptr) : Prop := {
  ac_in : is_Some (h !! tip);
  ac_chain : chain = chain_of h tip;
  ac_clean : clean h tip;
  ac_linked : linked h tip;
  ac_view : cache_inv view;
  ac_set : reach h blocks undos tip (cache_abs view);
  ac_best : cache_best view = phashBlock (at_ h tip);
}.

Record state_ok (n N : Z) (s : ChainState S) (tip r : Ptr) : Prop := {
  st_index : index_ok n N (cs_tree s) (g_failed_blocks s) (block_files s) (undo_files s) (versionbitscache s) (mapBlocksUnlinked s);
  st_active : active_ok (cs_heap s) (block_files s) (undo_files s) (chainActive s) (pcashTip s) tip;
  st_cands : cands_ok (cs_heap s) (block_files s) (undo_files s) (setBlockIndexCandidates s) tip r;
  st_scripts : scriptExecutionCache s = scripts;
}.
End View.

(** ** Consequences *)
Section Index.
Context (n N : Z) (t : BlockTree) (failed : gset Ptr) (blocks : gmap Ptr CBlock) (undos : gmap Ptr CBlockUndo)
  (caches : VersionBitsCache) (unlinked : list (Ptr * Ptr)) (Hix : index_ok n N t failed blocks undos caches unlinked).
Abbreviation h := (bt_heap t).

Lemma ix_tree : tree_ok t.
Proof. apply (hi_tree _ _ (ix_headers _ _ _ _ _ _ _ _ Hix)). Qed.

Lemma ix_heap : heap_ok h.
Proof. apply tree_heap, ix_tree. Qed.

Lemma ix_works : works_ok h.
Proof. intros p Hp. by apply (tree_work t ix_tree). Qed.

Lemma ix_accepted l : (forall p, p ∈ l -> p ∈ failed) -> accepted params l n t.
Proof.
  intros Hl. split; [apply Hix| |apply Hix|apply Hix]. apply Forall_forall. intros p Hp%list_elem_of_In. by apply (ix_failed _ _ _ _ _ _ _ _ Hix), Hl.
Qed.

Lemma ix_height p : is_Some (h !! p) -> 0 <= Chain.nHeight (at_ h p) < n.
Proof.
  intros Hp. destruct (at_ok h ix_heap p Hp) as [H0 _ _]. pose proof (ix_heights _ _ _ _ _ _ _ _ Hix p Hp). lia.
Qed.

Lemma linked_ancestor p q : is_Some (h !! p) -> linked h p -> ancestor h p q -> linked h q.
Proof.
  intros Hp Hl [k Hk]. revert p Hp Hl Hk. induction k as [|k IH]; intros p Hp Hl Hk; cbn [back] in Hk; [by injection Hk as <-|].
  destruct (pprev (at_ h p)) as [r|] eqn:Er; [|done]. cbn in Hk. eapply IH; [by eapply prev_in; [apply ix_heap| |]| |exact Hk].
  by apply (ix_linked _ _ _ _ _ _ _ _ Hix p Hp Hl).
Qed.

Lemma linked_data p : is_Some (h !! p) -> linked h p -> data_bit (nStatus (at_ h p)) <> 0.
Proof. intros Hp Hl Hd. by destruct (ix_absent _ _ _ _ _ _ _ _ Hix p Hp Hd) as (_ & ? & _). Qed.

(** Ancestors have less work. *)
Lemma ancestor_work p q : is_Some (h !! p) -> ancestor h p q -> q = p \/ val (nChainWork (at_ h q)) < val (nChainWork (at_ h p)).
Proof.
  intros Hp [k Hk]. revert p Hp Hk. induction k as [|k IH]; intros p Hp Hk; cbn [back] in Hk; [left; by injection Hk|].
  destruct (pprev (at_ h p)) as [r|] eqn:Er; [|done]. cbn in Hk. right. pose proof (ix_work _ _ _ _ _ _ _ _ Hix p r Hp Er).
  destruct (IH r) as [-> |?]; [by eapply prev_in; [apply ix_heap| |]|done|done|lia].
Qed.

Lemma ancestor_worse p q : is_Some (h !! p) -> ancestor h p q -> ~ worse h p q.
Proof. intros Hp [-> |Hw]%ancestor_work; [apply worse_irrefl|unfold worse; lia|done]. Qed.

(** Only the genesis block has no parent. *)
Lemma not_genesis p : is_Some (h !! p) -> is_Some (pprev (at_ h p)) -> phashBlock (at_ h p) <> hashGenesisBlock params.
Proof.
  intros Hp [q Hq] He. pose proof (tree_hashes t ix_tree p Hp) as Hm. rewrite He in Hm.
  destruct (back_spec h ix_heap (Z.to_nat (Chain.nHeight (at_ h p))) p Hp) as (g & Hg & Hgs & Hh0); [destruct (ix_height p Hp); lia|].
  destruct (ix_height p Hp). destruct (at_ok h ix_heap g Hgs) as [_ Hprev _]. destruct (pprev (at_ h g)) as [x|] eqn:Ex.
  - destruct Hprev as [Hx Hhx]. destruct (ix_height x Hx). lia.
  - pose proof (ix_root _ _ _ _ _ _ _ _ Hix g Hgs Ex) as Hr. assert (g = p) as -> by congruence. congruence.
Qed.

(** Every two blocks have the genesis block in common. *)
Lemma common_root p q : is_Some (h !! p) -> is_Some (h !! q) -> exists g, ancestor h p g /\ ancestor h q g.
Proof.
  intros Hp Hq. assert (Hroot : forall p, is_Some (h !! p) -> exists g, ancestor h p g /\ mapBlockIndex t !! hashGenesisBlock params = Some g).
  { intros r Hr. destruct (ix_height r Hr). destruct (back_spec h ix_heap (Z.to_nat (Chain.nHeight (at_ h r))) r Hr) as (g & Hg & Hgs & Hh0); [lia|].
    exists g. split; [by eexists|]. apply (ix_root _ _ _ _ _ _ _ _ Hix g Hgs). destruct (at_ok h ix_heap g Hgs) as [_ Hprev _].
    destruct (pprev (at_ h g)) as [x|]; [|done]. destruct Hprev as [Hx Hhx]. destruct (ix_height x Hx). lia. }
  destruct (Hroot p Hp) as (g & Hg & Em), (Hroot q Hq) as (g' & Hg' & Em'). exists g. split; [done|]. congruence.
Qed.

Lemma ix_coins p u : reach h blocks undos p u -> coins_ok (Chain.nHeight (at_ h p)) u.
Proof.
  intros Hr. eapply reaches_coins; [apply ix_heap| |exact Hr|].
  - intros q b Hb. by destruct (ix_blocks _ _ _ _ _ _ _ _ Hix q b Hb) as (_ & ? & _).
  - pose proof (ix_height p (reaches_in _ _ _ _ _ _ _ _ Hr)). pose proof (ix_n _ _ _ _ _ _ _ _ Hix). lia.
Qed.

(** Where BIP 30 is not enforced, nothing is overwritten. *)
Lemma ix_bip30 p q b u : arrivals_ok env params scripts -> is_Some (h !! p) -> pprev (at_ h p) = Some q -> reach h blocks undos q u -> blocks !! p = Some b ->
  enforce_bip30 params h p q = Ok true \/ (forall tx o, tx ∈ vtx b -> own_output tx o -> u !! o = None).
Proof.
  intros Har Hp Hq Hr%reaches_valid Hb. eapply (ar_bip30 _ _ _ Har); [apply ix_heap|apply Hix| |exact Hp|exact Hq|exact Hr|exact Hb].
  intros x c Hc. by destruct (ix_blocks _ _ _ _ _ _ _ _ Hix x c Hc) as (_ & ? & ?).
Qed.
End Index.

(** ** Changing the status of an entry *)

Lemma alter_at (h : Heap) f p q : is_Some (h !! p) -> at_ (alter f p h) q = if bool_decide (p = q) then f (at_ h q) else at_ h q.
Proof.
  intros [e He]. unfold at_. case_bool_decide as E; [subst q; by rewrite lookup_alter_eq, He|by rewrite lookup_alter_ne].
Qed.

Lemma alter_links (h : Heap) f p : (forall e, link_data (f e) = link_data e) -> same_links h (alter f p h).
Proof.
  intros Hf q. destruct (decide (p = q)) as [<-|Hne]; [|by rewrite lookup_alter_ne].
  rewrite lookup_alter_eq. destruct (h !! p) as [e|]; [|done]. cbn. by rewrite Hf.
Qed.

Lemma set_status_same h p st q : is_Some (h !! p) ->
  nTx (at_ (set_status h p st) q) = nTx (at_ h q) /\ nChainTx (at_ (set_status h p st) q) = nChainTx (at_ h q) /\
  nSequenceId (at_ (set_status h p st) q) = nSequenceId (at_ h q).
Proof. intros Hp. unfold set_status. rewrite alter_at by done. by case_bool_decide. Qed.

Lemma path_tx_ext h h' n : same_links h h' -> (forall q, nTx (at_ h' q) = nTx (at_ h q)) -> forall p, path_tx h' n p = path_tx h n p.
Proof.
  intros Hl Ht. induction n as [|n IH]; intros p; cbn [path_tx]; rewrite Ht; [done|].
  destruct (same_links_at h h' p Hl) as (_ & _ & -> & _). by destruct (pprev (at_ h p)); rewrite ?IH.
Qed.

Lemma path_sum_ext h h' p : same_links h h' -> (forall q, nTx (at_ h' q) = nTx (at_ h q)) -> path_sum h' p = path_sum h p.
Proof. intros Hl Ht. unfold path_sum. destruct (same_links_at h h' p Hl) as (_ & _ & _ & _ & -> & _). by apply path_tx_ext. Qed.

Lemma worse_ext h h' p q : (forall q, nChainWork (at_ h' q) = nChainWork (at_ h q)) -> (forall q, nSequenceId (at_ h' q) = nSequenceId (at_ h q)) ->
  worse h' p q <-> worse h p q.
Proof. intros Hw Hs. unfold worse. cbv zeta. by rewrite !Hw, !Hs. Qed.

Lemma same_links_ancestor h h' p q : same_links h h' -> ancestor h' p q <-> ancestor h p q.
Proof. intros Hl. unfold ancestor. by setoid_rewrite (same_links_back h h' _ Hl). Qed.

Lemma set_status_worse h p st a b : is_Some (h !! p) -> worse (set_status h p st) a b <-> worse h a b.
Proof.
  intros Hp. apply worse_ext; intros q.
  - by destruct (same_links_at _ _ q (set_status_links h p st)) as (_ & _ & _ & _ & _ & -> & _).
  - by apply set_status_same.
Qed.

(** One entry changes: its status, what was received, whether it is linked. *)
Lemma index_alter n N N' t failed failed' blocks blocks' undos undos' caches caches' unlinked unlinked' p f :
  let h := bt_heap t in let h' := alter f p h in let e' := f (at_ h p) in
  index_ok n N t failed blocks undos caches unlinked -> is_Some (h !! p) -> (forall e, link_data (f e) = link_data e) ->
  BLOCK_VALID_TREE <= level (nStatus e') ->
  (data_bit (nStatus e') = 0 -> nTx e' = 0 /\ nChainTx e' = 0 /\ blocks' !! p = None) ->
  (data_bit (nStatus e') <> 0 -> BLOCK_VALID_TRANSACTIONS <= level (nStatus e') /\ 0 < nTx e' /\ forall q, pprev (at_ h p) = Some q -> is_Some (blocks' !! p)) ->
  (forall q, q <> p -> blocks' !! q = blocks !! q) -> (forall b, blocks !! p = Some b -> blocks' !! p = Some b) ->
  (forall b, blocks' !! p = Some b -> block_good params b /\ phashBlock (at_ h p) = CBlockHeader_GetHash (header b)) ->
  (forall q, is_Some (h !! q) -> linked h' q -> nChainTx (at_ h' q) = path_sum h' q /\ forall r, pprev (at_ h q) = Some r -> linked h' r) ->
  (forall q, is_Some (h !! q) -> path_sum h' q <= N') -> N' < 2 ^ 32 ->
  (forall q x, undos !! q = Some x -> undos' !! q = Some x) -> (forall q x, undos' !! q = Some x -> undos !! q = Some x \/ q = p) ->
  (undo_bit (nStatus (at_ h p)) <> 0 \/ is_Some (undos' !! p) -> undo_bit (nStatus e') <> 0) ->
  (undo_bit (nStatus e') <> 0 -> exists u, reach h blocks' undos' p u) ->
  (forall q, q ∈ failed' -> failed_flag h' q) -> deployments_ok h params caches' ->
  (forall q c, (q, c) ∈ unlinked' -> is_Some (h !! c) /\ pprev (at_ h c) = Some q /\ data_bit (nStatus (at_ h' c)) <> 0 /\ ~ linked h' c) -> NoDup unlinked' ->
  index_ok n N' (mkBlockTree h' (mapBlockIndex t) (pindexBestHeader t)) failed' blocks' undos' caches' unlinked'.
Proof.
  intros h h' e' Hix Hp Hf Hlev Habs Hdat Hb Hbs Hbp Hsum Htot HN Hun Hun' Hu1 Hu2 Hfail Hdep Hunl Hnd. pose proof (ix_heap _ _ _ _ _ _ _ _ Hix) as Hh.
  pose proof (alter_links h f p Hf) as Hl. fold h' in Hl. pose proof (same_links_grows _ _ Hl) as Hg. pose proof (same_links_heap_ok _ _ Hl Hh) as Hh'.
  pose proof (fun q => same_links_at _ _ q Hl) as Hat. pose proof (fun q => alter_at h f p q Hp) as Hst. fold h' in Hst.
  assert (Hblocks : forall q b, blocks !! q = Some b -> blocks' !! q = Some b).
  { intros q b Hq. destruct (decide (q = p)) as [-> |Hne]; [by apply Hbs|by rewrite Hb]. }
  destruct Hix as [H1 H2 H3 H4 H5 H6 H7 H8 H9 HL H10 H11 H12 H13 H14 H15 H16 H17 H18 H19 H20].
  split; cbn [bt_heap mapBlockIndex pindexBestHeader]; [by apply headers_inv_links| |done|done| |exact Hfail| | | | | | | | |exact HN| | | | | |exact Hnd].
  - intros q. cbn [bt_heap]. destruct (Hat q) as (<- & _ & _ & _ & -> & _). apply H2.
  - intros q. destruct (Hat q) as (<- & _ & -> & _). apply H5.
  - intros q. destruct (Hat q) as (<- & _ & _ & _ & -> & -> & _). apply H7.
  - intros q r. destruct (Hat q) as (<- & _ & -> & _ & _ & -> & _). destruct (Hat r) as (_ & _ & _ & _ & _ & -> & _). apply H8.
  - intros q. destruct (Hat q) as (<- & _ & _ & _ & _ & _ & _ & Eb & _). intros Hq. by apply (entry_in_grows h h' q Hh Hg Hq Eb), H9.
  - intros q. rewrite Hst. destruct (Hat q) as (<- & _). intros Hq. case_bool_decide; [by subst q|by apply HL].
  - intros q. rewrite Hst. destruct (Hat q) as (<- & _). intros Hq. case_bool_decide; [by subst q|]. rewrite Hb by done. by apply H10.
  - intros q. destruct (Hat q) as (<- & _ & -> & _). rewrite Hst. intros Hq. case_bool_decide; [by subst q|]. rewrite Hb by done. by apply H11.
  - intros q. destruct (Hat q) as (<- & _ & -> & _). apply Hsum.
  - intros q. destruct (Hat q) as (<- & _). apply Htot.
  - intros q b Hq. destruct (Hat q) as (<- & -> & _). destruct (decide (q = p)) as [-> |Hne]; [split; [done|by apply Hbp]|]. rewrite Hb in Hq by done. by apply H15.
  - intros q. rewrite Hst. destruct (Hat q) as (<- & _). intros Hq Hu. case_bool_decide.
    + subst q. destruct (Hu2 Hu) as [u Hru]. exists u. by apply (reaches_grows _ _ _ h h' blocks' blocks' undos' undos' p u Hh Hh' Hg).
    + destruct (H16 q Hq Hu) as [u Hru]. exists u. exact (reaches_grows _ _ _ h h' blocks blocks' undos undos' q u Hh Hh' Hg Hblocks Hun Hru).
  - intros q x Hx. rewrite Hst. destruct (Hat q) as (<- & _). case_bool_decide as E; [subst q; split; [done|]; apply Hu1; right; by eexists|].
    destruct (Hun' q x Hx) as [Hq| ->]; [by eapply H17|done].
  - exact (grows_deployments _ _ Hh Hg params caches' Hdep).
  - intros q c Hqc. destruct (Hat c) as (<- & _ & -> & _). by apply Hunl.
Qed.

(** A status may gain validity, and failures; the undo data may be written. *)
Lemma index_status n N t failed failed' blocks undos undos' caches caches' unlinked p st :
  index_ok n N t failed blocks undos caches unlinked -> is_Some (bt_heap t !! p) ->
  data_bit st = data_bit (nStatus (at_ (bt_heap t) p)) -> level (nStatus (at_ (bt_heap t) p)) <= level st ->
  (forall q x, undos !! q = Some x -> undos' !! q = Some x) ->
  (forall q x, undos' !! q = Some x -> undos !! q = Some x \/ q = p) ->
  (undo_bit (nStatus (at_ (bt_heap t) p)) <> 0 \/ is_Some (undos' !! p) -> undo_bit st <> 0) ->
  (undo_bit st <> 0 -> exists u, reach (bt_heap t) blocks undos' p u) ->
  (forall q, q ∈ failed' -> failed_flag (set_status (bt_heap t) p st) q) -> deployments_ok (bt_heap t) params caches' ->
  index_ok n N (mkBlockTree (set_status (bt_heap t) p st) (mapBlockIndex t) (pindexBestHeader t)) failed' blocks undos' caches' unlinked.
Proof.
  intros Hix Hp Hd Hlv Hun Hun' Hb1 Hb2 Hf Hdep. pose proof (set_status_links (bt_heap t) p st) as Hl.
  pose proof (fun q => set_status_same (bt_heap t) p st q Hp) as Hs. pose proof (fun q => set_status_at (bt_heap t) p st q Hp) as Hst.
  apply (index_alter n N N t failed failed' blocks blocks undos undos' caches caches' unlinked unlinked p (with_status st) Hix Hp);
    cbn [with_status nStatus nTx nChainTx]; try done; fold (set_status (bt_heap t) p st).
  - pose proof (ix_level _ _ _ _ _ _ _ _ Hix p Hp). lia.
  - rewrite Hd. by apply (ix_absent _ _ _ _ _ _ _ _ Hix).
  - rewrite Hd. intros Hdq. destruct (ix_data _ _ _ _ _ _ _ _ Hix p Hp Hdq) as (? & ? & ?). split_and!; [lia|done|done].
  - intros b Hb. by apply (ix_blocks _ _ _ _ _ _ _ _ Hix).
  - intros q. unfold linked. rewrite (path_sum_ext _ _ _ Hl) by (intros ?; apply Hs). destruct (Hs q) as (_ & -> & _). intros Hq Hlq.
    destruct (ix_linked _ _ _ _ _ _ _ _ Hix q Hq Hlq) as [E1 E2]. split; [done|]. intros r Hr. destruct (Hs r) as (_ & -> & _). by apply E2.
  - intros q. rewrite (path_sum_ext _ _ _ Hl) by (intros ?; apply Hs). apply (ix_total _ _ _ _ _ _ _ _ Hix).
  - apply Hix.
  - intros q c Hqc. rewrite Hst. unfold linked. destruct (Hs c) as (_ & -> & _). destruct (ix_unlinked _ _ _ _ _ _ _ _ Hix q c Hqc) as (E1 & E2 & E3 & E4).
    split_and!; [done|done| |done]. case_bool_decide; [subst c; by rewrite Hd|done].
  - apply Hix.
Qed.

(** Marking a block as failed. *)
Lemma index_mark n N t failed failed' blocks undos caches unlinked p flag : flag = BLOCK_FAILED_VALID \/ flag = BLOCK_FAILED_CHILD ->
  index_ok n N t failed blocks undos caches unlinked -> is_Some (bt_heap t !! p) ->
  (forall q, q ∈ failed' -> q ∈ failed \/ (q = p /\ flag = BLOCK_FAILED_VALID)) ->
  index_ok n N (mkBlockTree (or_status (bt_heap t) p flag) (mapBlockIndex t) (pindexBestHeader t)) failed' blocks undos caches unlinked.
Proof.
  intros Hfl Hix Hp Hf. destruct (lor_failed (nStatus (at_ (bt_heap t) p)) flag Hfl) as (_ & E1 & E2 & E3). unfold or_status.
  apply (index_status n N t failed failed' blocks undos undos caches caches unlinked p _ Hix Hp E1); [by rewrite E3|done|by left| | | |apply Hix].
  - rewrite E2. intros [?|[x Hx]]; [done|]. by eapply (ix_undos _ _ _ _ _ _ _ _ Hix).
  - rewrite E2. apply (ix_undo _ _ _ _ _ _ _ _ Hix p Hp).
  - intros q Hq. split; [apply (same_links_at _ _ q (set_status_links (bt_heap t) p (Z.lor (nStatus (at_ (bt_heap t) p)) flag)))|].
    + destruct (Hf q Hq) as [Hq'|[-> _]]; [by apply (ix_failed _ _ _ _ _ _ _ _ Hix q Hq')|done].
    + rewrite set_status_at by done. case_bool_decide as E.
      * subst q. rewrite Z.land_lor_distr_l. intros [Ha Hb]%Z.lor_eq_0_iff. destruct (Hf p Hq) as [Hq'|[_ ->]]; [|done].
        by apply (ix_failed _ _ _ _ _ _ _ _ Hix p Hq').
      * destruct (Hf q Hq) as [Hq'|[-> _]]; [|done]. apply (ix_failed _ _ _ _ _ _ _ _ Hix q Hq').
Qed.

(** A new status on a block leaves a chain clean when the block is not on it. *)
Lemma clean_status h p st q : heap_ok h -> is_Some (h !! p) -> (ancestor h q p -> failed_bits st = 0) -> clean h q -> clean (set_status h p st) q.
Proof.
  intros Hh Hp Ha Hc a Hq. apply (same_links_ancestor _ _ _ _ (set_status_links h p st)) in Hq. rewrite set_status_at by done.
  case_bool_decide; [subst a; by apply Ha|by apply Hc].
Qed.

Lemma clean_status_inv h p st q : is_Some (h !! p) -> (failed_bits st = 0 -> failed_bits (nStatus (at_ h p)) = 0) ->
  clean (set_status h p st) q -> clean h q.
Proof.
  intros Hp Hf Hc a Hq. specialize (Hc a (proj2 (same_links_ancestor _ _ _ _ (set_status_links h p st)) Hq)). rewrite set_status_at in Hc by done.
  case_bool_decide; [subst a; by apply Hf|done].
Qed.

Lemma cands_status h blocks undos undos' cands cands' tip r p st : heap_ok h -> is_Some (h !! p) ->
  (failed_bits st = 0 -> failed_bits (nStatus (at_ h p)) = 0) -> (ancestor h r p -> failed_bits st = 0) ->
  (forall q x, undos !! q = Some x -> undos' !! q = Some x) ->
  cands' ⊆ cands -> (forall q, q ∈ cands -> (q = p -> failed_bits st = 0) -> q ∈ cands') ->
  cands_ok h blocks undos cands tip r -> cands_ok (set_status h p st) blocks undos' cands' tip r.
Proof.
  intros Hh Hp Hf Ha Hun Hc Hc' [C1 C2 C3 C4 C5 C6 C7]. pose proof (set_status_links h p st) as Hl. pose proof (same_links_heap_ok _ _ Hl Hh) as Hh'.
  pose proof (fun q => same_links_at _ _ q Hl) as Hat. split.
  - intros q Hq%Hc. rewrite set_status_worse by done. unfold linked. destruct (set_status_same h p st q Hp) as (_ & -> & _).
    destruct (Hat q) as (<- & _). by apply C1.
  - intros q. rewrite set_status_worse by done. unfold linked. destruct (set_status_same h p st q Hp) as (_ & -> & _).
    destruct (Hat q) as (<- & _). intros Hq Hlq Hcl Hw. apply Hc'; [apply C2; [done..|exact (clean_status_inv h p st q Hp Hf Hcl)|done]|].
    intros ->. specialize (Hcl p (ancestor_refl _ p)). rewrite set_status_at in Hcl by done. by rewrite bool_decide_eq_true_2 in Hcl.
  - destruct (Hat r) as (<- & _). done.
  - unfold linked. by destruct (set_status_same h p st r Hp) as (_ & -> & _).
  - by apply clean_status.
  - destruct C6 as [u Hu]. exists u. eapply reaches_grows; [exact Hh|exact Hh'|by apply same_links_grows|done|exact Hun|exact Hu].
  - by rewrite set_status_worse.
Qed.

(** A failed block may stay a candidate; it may be dropped. *)
Lemma cands_mark h blocks undos cands cands' tip r p st : heap_ok h -> is_Some (h !! p) -> failed_bits st <> 0 -> ~ ancestor h r p ->
  cands' = cands \/ cands' = cands ∖ {[p]} -> cands_ok h blocks undos cands tip r -> cands_ok (set_status h p st) blocks undos cands' tip r.
Proof.
  intros Hh Hp Hf Hr Hc. apply cands_status; try done.
  - destruct Hc as [-> | ->]; [done|]. by apply subseteq_difference_l.
  - intros q Hq Hz. destruct Hc as [-> | ->]; [done|]. apply elem_of_difference. split; [done|]. intros ->%elem_of_singleton. by apply Hf, Hz.
Qed.

Lemma active_status {S : Type} `{!CashView S} `{!CashViewOk S} `{!ScriptMemory} `{!ScriptMemoryOk} h blocks undos undos' chain (view : CCashViewCache S) tip p st :
  heap_ok h -> is_Some (h !! p) -> (ancestor h tip p -> failed_bits st = 0) -> (forall q x, undos !! q = Some x -> undos' !! q = Some x) ->
  active_ok h blocks undos chain view tip -> active_ok (set_status h p st) blocks undos' chain view tip.
Proof.
  intros Hh Hp Ha Hun [A1 A2 A3 A4 A5 A6 A7]. pose proof (set_status_links h p st) as Hl. pose proof (same_links_heap_ok _ _ Hl Hh) as Hh'.
  pose proof (fun q => same_links_at _ _ q Hl) as Hat. split.
  - destruct (Hat tip) as (<- & _). done.
  - rewrite A2. symmetry. apply grows_chain_of; [done|by apply same_links_grows|done].
  - by apply clean_status.
  - unfold linked. by destruct (set_status_same h p st tip Hp) as (_ & -> & _).
  - done.
  - eapply reaches_grows; [exact Hh|exact Hh'|by apply same_links_grows|done|exact Hun|exact A6].
  - destruct (Hat tip) as (_ & -> & _). done.
Qed.
End Invariant.
