(* ===== verification/ChainActivate.v ===== *)
(** * Activating the best chain

    Disconnecting and connecting the tip keep the invariant of the chain state,
    and [ActivateBestChain] ends, within a bound that is given, with the best
    candidate as the tip. *)
From S2P Require Import Prelude StrEncodings Serialize Amount Crypto Script Transaction Cash ArithUint256 Block Chain Pow VersionBits Merkle.
From S2P Require Import Interpreter InterpreterSafety SigHash TxVerify Compressor CheckBlock Connect ConnectSpec ConnectProps.
From S2P Require Import ChainState ChainGrowth ChainStateInv.

#[local] Opaque SHA256 SHA1 RIPEMD160 Hash160 Hash Hash2 GetHash GetWitnessHash CBlockHeader_GetHash.

(** ** Views *)
Section Views.
Context {S : Type} `{!CashView S} `{!CashViewOk S} `{!ScriptMemory} `{!ScriptMemoryOk}.

Lemma GetBestBlock_hash (c : CCashViewCache S) : hashBlock (GetBestBlock c).2 = (GetBestBlock c).1.
Proof. unfold GetBestBlock. destruct (uint256_IsNull _); [|done]. by destruct (view_GetBestBlock _). Qed.

Lemma DisconnectBlock_best h block p undo (c c' : CCashViewCache S) prev :
  DisconnectBlock h block p undo c = Ok (DISCONNECT_OK, c') -> pprev (at_ h p) = Some prev -> hashBlock c' = phashBlock (at_ h prev).
Proof.
  unfold DisconnectBlock. intros Hd Hp. destruct undo as [undo|]; [|done]. destruct (negb _); [done|].
  destruct (disconnect_loop _ _ _ _) as [[r c1]|]; [|done]. cbn [mbind result_bind] in Hd. rewrite Hp in Hd. destruct r as [f|]; [|done].
  injection Hd as _ <-. reflexivity.
Qed.

Lemma ConnectBlock_best env params cfg t block p caches scripts (c : CCashViewCache S) r :
  ConnectBlock env params cfg t block p false true true caches scripts c = Ok (Valid r) ->
  hashBlock (cd_view r) = phashBlock (at_ (bt_heap t) p).
Proof.
  unfold ConnectBlock. cbv zeta. intros Hr. unfold assert_then in Hr. case_if; [|done]. destruct (CheckBlock _ _ _ _) as [ck|]; [|done]. cbn [mbind result_bind] in Hr.
  destruct ck as [b|]; [|discriminate Hr]. cbn [check] in Hr. destruct (GetBestBlock c) as [best c1]. case_if; [|done]. case_if.
  { apply (inj Ok) in Hr. injection Hr as <-. reflexivity. }
  destruct (script_checks_needed _ _ _ _) as [fsc|]; [|done]. cbn [mbind result_bind] in Hr. destruct (pprev _) as [prev|]; [|done].
  destruct (enforce_bip30 _ _ _ _) as [b30|]; [|done]. cbn [mbind result_bind] in Hr.
  destruct (if b30 then _ else _) as [over c2]. destruct over; [discriminate Hr|].
  destruct (deployment_state _ _ _ _ _) as [[csv caches1]|]; [|done]. cbn [mbind result_bind] in Hr.
  destruct (GetBlockScriptFlags _ _ _ _) as [[flags caches2]|]; [|done]. cbn [mbind result_bind] in Hr.
  destruct (connect_transactions _ _ _ _ _ _ _ _ _ _ _ _) as [st|]; [|done]. cbn [mbind result_bind] in Hr. destruct st as [st|]; [|discriminate Hr].
  cbn [check] in Hr. destruct (connected_status _ _) as [[status|]|]; [|discriminate Hr|done]. cbn [mbind result_bind negb] in Hr.
  apply (inj Ok) in Hr. injection Hr as <-. reflexivity.
Qed.

(** A cache over the view of the chain, and what is left of it when it is flushed. *)
Lemma child_cache_ok (v : CCashViewCache S) : cache_inv v ->
  cache_inv (CCashViewCache_new v) /\ cache_abs (CCashViewCache_new v) = cache_abs v /\ cache_best (CCashViewCache_new v) = cache_best v.
Proof. intros Hv. split_and!; [|unfold cache_abs at 1; apply map_eq; intros o; by rewrite lookup_overlay|done]. split; [exact Hv|intros o e; cbn; by rewrite lookup_empty|reflexivity]. Qed.

Lemma child_flush_ok (c : CCashViewCache (CCashViewCache S)) : cache_inv c -> uint256_IsNull (hashBlock c) = false ->
  exists c', Flush c = Ok (true, c') /\ cache_inv (base c') /\ cache_abs (base c') = cache_abs c /\ cache_best (base c') = cache_best c.
Proof. intros Hc Hn. destruct (Flush_ok c Hc Hn) as (c' & E & _ & _ & _ & F1 & F2 & F3). exists c'. exact (conj E (conj F1 (conj F2 F3))). Qed.
End Views.

Section Activate.
Context `{Arr : !Arrivals} (env : ScriptEnv) (params : Params) (cfg : NodeConfig) (scripts : gset uint256) (Hcf : setting_ok env params cfg scripts).
Context {S : Type} `{!CashView S} `{!CashViewOk S} `{!ScriptMemory} `{!ScriptMemoryOk} (machine : Machine S).
Abbreviation State := (ChainState S).
Abbreviation inv := (state_ok env params scripts).
Abbreviation reach := (reaches env params scripts).
Implicit Types (s : ChainState S).

Lemma FlushStateToDisk_ok mode s : cache_inv (pcashTip s) -> uint256_IsNull (cache_best (pcashTip s)) = false ->
  exists v a b, FlushStateToDisk machine mode s = Ok (true, set_times (set_view s v) a b) /\ same_view (pcashTip s) v.
Proof.
  intros Hc Hn. unfold FlushStateToDisk. cbv zeta. destruct (flush_wanted _ _ _ _ _ _ _) as [full write].
  pose proof (GetBestBlock_ok (pcashTip s) Hc) as Hg. pose proof (GetBestBlock_hash (pcashTip s)) as Hhash. destruct (GetBestBlock (pcashTip s)) as [best v].
  cbn [fst snd] in Hhash. destruct Hg as [-> Hs]. rewrite Hn. destruct full; cbn [andb negb].
  - rewrite <- Hhash in Hn. destruct (Flush_ok v (proj1 Hs) Hn) as (v' & -> & Hs' & _). cbn [mbind result_bind].
    eexists _, _, _. split; [done|]. by eapply same_view_trans.
  - eexists _, _, _. split; [done|]. by apply same_view_refl.
Qed.

(** ** Reading blocks *)

Lemma read_stored n N t failed blocks undos caches unlinked s p b :
  index_ok env params scripts n N t failed blocks undos caches unlinked -> cs_tree s = t -> block_files s = blocks -> blocks !! p = Some b ->
  ReadBlockFromDisk params s p = Some b.
Proof.
  intros Hix Ht Hbs Hbp. unfold ReadBlockFromDisk, cs_heap. rewrite Ht, Hbs, Hbp. cbn.
  destruct (ix_blocks _ _ _ _ _ _ _ _ _ _ _ Hix p b Hbp) as (_ & Hg & Hhash). rewrite Hhash, (bool_decide_eq_true_2 (_ = _)) by done.
  destruct (bg_valid _ _ Hg) as [b' Hv]. unfold CheckBlock in Hv. rewrite (bg_flag _ _ Hg) in Hv. unfold CheckBlockHeader, reject_if in Hv. cbn [andb] in Hv.
  by destruct (CheckProofOfWork _ _ _).
Qed.

Lemma ReadBlock_ok n N t failed blocks undos caches unlinked s p q :
  index_ok env params scripts n N t failed blocks undos caches unlinked -> cs_tree s = t -> block_files s = blocks ->
  is_Some (bt_heap t !! p) -> pprev (at_ (bt_heap t) p) = Some q -> data_bit (nStatus (at_ (bt_heap t) p)) <> 0 ->
  exists b, blocks !! p = Some b /\ ReadBlockFromDisk params s p = Some b.
Proof.
  intros Hix Ht Hbs Hp Hq Hd. destruct (ix_data _ _ _ _ _ _ _ _ _ _ _ Hix p Hp Hd) as (_ & _ & Hb). destruct (Hb q Hq) as [b Hbp].
  exists b. split; [done|]. by eapply read_stored.
Qed.

(** ** Disconnecting the tip *)

Lemma DisconnectTip_ok n N s tip r q : inv n N s tip r -> pprev (at_ (cs_heap s) tip) = Some q ->
  exists s', DisconnectTip params machine s = Ok (true, s') /\ inv n N s' q r /\ cs_tree s' = cs_tree s /\
    setBlockIndexCandidates s' = setBlockIndexCandidates s /\ block_files s' = block_files s /\ mapBlocksUnlinked s' = mapBlocksUnlinked s.
Proof.
  intros [Hix [A1 A2 A3 A4 A5 A6 A7] Hck Hsc] Hq. pose proof (ix_heap _ _ _ _ _ _ _ _ _ _ _ Hix) as Hh. fold (cs_heap s) in Hh.
  pose proof (prev_in _ Hh _ _ A1 Hq) as Hqs. unfold DisconnectTip, Tip. rewrite A2, chain_of_tip by done.
  destruct (ReadBlock_ok _ _ _ _ _ _ _ _ s tip q Hix eq_refl eq_refl A1 Hq (linked_data _ _ _ _ _ _ _ _ _ _ _ Hix tip A1 A4)) as (b & Hb & ->).
  destruct (child_cache_ok (pcashTip s) A5) as (N1 & N2 & N3).
  pose proof (GetBestBlock_ok _ N1) as Hg. destruct (GetBestBlock (CCashViewCache_new (pcashTip s))) as [best v]. destruct Hg as [-> (V1 & V2 & V3)].
  rewrite N3, A7, bool_decide_eq_true_2 by done. cbn [assert_then].
  destruct (reaches_inv _ _ _ _ _ _ _ _ _ A6 Hq) as (b' & u & undo & Hr & Hb' & Hcon & Hun). assert (b' = b) as -> by congruence.
  destruct (ix_blocks _ _ _ _ _ _ _ _ _ _ _ Hix tip b Hb) as (_ & Hgood & _). destruct (block_good_fine _ _ Hgood) as [Hcb _].
  destruct (ix_height _ _ _ _ _ _ _ _ _ _ _ Hix tip A1) as [_ Ht]. pose proof (ix_n _ _ _ _ _ _ _ _ _ _ _ Hix) as Hn.
  destruct (ix_height _ _ _ _ _ _ _ _ _ _ _ Hix q Hqs) as [Hq0 _]. destruct (at_ok _ Hh tip A1) as [_ Hprev _]. rewrite Hq in Hprev. destruct Hprev as [_ Hhq].
  fold (cs_heap s) in Ht, Hq0. pose proof (connects_effect _ _ _ _ _ _ _ _ _ Hcon) as Heff. rewrite <- N2, <- V2 in Heff.
  assert (Hnull : uint256_IsNull (phashBlock (at_ (cs_heap s) q)) = false) by apply (ix_hash _ _ _ _ _ _ _ _ _ _ _ Hix q Hqs).
  destruct (DisconnectBlock_ok (cs_heap s) b tip q v u undo V1 Hcb (bg_txs _ _ Hgood)) as (v' & Hd & D1 & D2 & D3); [lia| | |exact Heff|exact Hq|exact Hnull|].
  { eapply coins_ok_later; [|apply (ix_coins _ _ _ _ _ _ _ _ _ _ _ Hix q u Hr)]. fold (cs_heap s). lia. }
  { destruct Hcon as (fees & Hnew & _). by eapply block_good_fresh. }
  rewrite Hun, Hd. cbn [mbind result_bind]. pose proof (DisconnectBlock_best _ _ _ _ _ _ _ Hd Hq) as Hhb. rewrite <- Hhb in Hnull.
  destruct (child_flush_ok v' D1 Hnull) as (v2 & -> & F1 & F2 & F3). cbn [mbind result_bind assert_then].
  rewrite D2 in F2. rewrite D3 in F3. rewrite Hhb in Hnull.
  destruct (FlushStateToDisk_ok FLUSH_STATE_IF_NEEDED (set_view s (base v2))) as (v3 & a & c & -> & (W1 & W2 & W3)); [exact F1|cbn; by rewrite F3|].
  cbn [mbind result_bind negb]. cbn [pcashTip set_view] in W2, W3. change (cs_heap (set_times _ _ _)) with (cs_heap s). change (chainActive (set_times _ _ _)) with (chainActive s).
  rewrite Hq, A2, (SetTip_ok (cs_heap s) Hh) by (done || by apply chain_of_path). cbn [mbind result_bind]. eexists. split; [done|]. split; [|done]. split.
  - exact Hix.
  - split; [exact Hqs|done|by eapply clean_ancestor; [|apply ancestor_prev]|by apply (ix_linked _ _ _ _ _ _ _ _ _ _ _ Hix tip A1 A4)|exact W1| |].
    + change (reach (cs_heap s) (block_files s) (undo_files s) q (cache_abs v3)). rewrite W2, F2. exact Hr.
    + change (cache_best v3 = phashBlock (at_ (cs_heap s) q)). rewrite W3, F3. done.
  - destruct Hck as [C1 C2 C3 C4 C5 C6 C7]. pose proof (ix_work _ _ _ _ _ _ _ _ _ _ _ Hix tip q A1 Hq) as Hw.
    assert (Hlow : forall p, ~ worse (cs_heap s) p tip -> ~ worse (cs_heap s) p q).
    { intros p Hp Hpq. apply Hp. eapply worse_trans; [exact Hpq|]. by apply worse_work. }
    split; [|exact C2|exact C3|exact C4|exact C5|exact C6|by apply Hlow].
    intros p Hp. destruct (C1 p Hp) as (? & ? & ?). split_and!; [done|done|by apply Hlow].
  - exact Hsc.
Qed.

(** ** Connecting the tip *)

(** A block that is handed over is the one that is stored. *)
Definition at_hand (blocks : gmap Ptr CBlock) (p : Ptr) (pblock : option CBlock) : Prop :=
  forall b, pblock = Some b -> blocks !! p = Some (unchecked b).

Lemma tip_block n N s tip r p pblock : inv n N s tip r -> is_Some (cs_heap s !! p) -> pprev (at_ (cs_heap s) p) = Some tip -> linked (cs_heap s) p ->
  at_hand (block_files s) p pblock ->
  exists b, match pblock with Some b => Some b | None => ReadBlockFromDisk params s p end = Some b /\ block_files s !! p = Some (unchecked b).
Proof.
  intros [Hix _ _ _] Hp Hq Hl Hb. destruct pblock as [b|]; [exists b; split; [done|by apply Hb]|].
  destruct (ReadBlock_ok _ _ _ _ _ _ _ _ s p tip Hix eq_refl eq_refl Hp Hq (linked_data _ _ _ _ _ _ _ _ _ _ _ Hix p Hp Hl)) as (b & Hbp & ->).
  exists b. split; [done|]. destruct (ix_blocks _ _ _ _ _ _ _ _ _ _ _ Hix p b Hbp) as (_ & Hg & _). rewrite Hbp. f_equal.
  destruct b as [hd v f]. pose proof (bg_flag _ _ Hg) as Hf. cbn in Hf. by subst f.
Qed.

Lemma tip_connectable n N s tip r p b : inv n N s tip r -> is_Some (cs_heap s !! p) -> pprev (at_ (cs_heap s) p) = Some tip -> linked (cs_heap s) p ->
  block_files s !! p = Some (unchecked b) ->
  connectable params cfg (cs_tree s) b p tip (versionbitscache s) (CCashViewCache_new (pcashTip s)).
Proof.
  intros [Hix [A1 A2 A3 A4 A5 A6 A7] _ _] Hp Hq Hl Hb. destruct (child_cache_ok (pcashTip s) A5) as (N1 & N2 & N3).
  destruct (ix_blocks _ _ _ _ _ _ _ _ _ _ _ Hix p _ Hb) as (_ & [G1 G2 G3 G4 G5 G6 _] & Hhash). pose proof (ix_heap _ _ _ _ _ _ _ _ _ _ _ Hix) as Hh.
  destruct (ix_height _ _ _ _ _ _ _ _ _ _ _ Hix p Hp) as [_ Hlt]. destruct (ix_height _ _ _ _ _ _ _ _ _ _ _ Hix tip A1) as [Ht0 _].
  pose proof (ix_n _ _ _ _ _ _ _ _ _ _ _ Hix). destruct (at_ok _ Hh p Hp) as [_ Hprev _]. unfold cs_heap in Hq. rewrite Hq in Hprev. destruct Hprev as [_ Hht].
  assert (Hhp : 0 < Chain.nHeight (at_ (bt_heap (cs_tree s)) p) < 2 ^ 30) by (unfold cs_heap in *; lia).
  split; try assumption.
  - apply (ix_tree _ _ _ _ _ _ _ _ _ _ _ Hix).
  - apply (hi_u32 _ _ (ix_headers _ _ _ _ _ _ _ _ _ _ _ Hix)).
  - apply (headers_inv_times params), Hix.
  - rewrite Hq. apply (ar_p2sh _ _ _ (proj2 Hcf)); [exact Hh|apply (headers_inv_times params), Hix|apply Hix|exact Hp|exact Hq].
  - apply Hcf.
  - apply Hix.
  - left. apply Hcf.
  - cbn [header] in Hhash. change (header b) with (header (unchecked b)). rewrite <- Hhash. apply (ix_hash _ _ _ _ _ _ _ _ _ _ _ Hix p Hp).
  - change (header b) with (header (unchecked b)). rewrite <- Hhash. apply (not_genesis _ _ _ _ _ _ _ _ _ _ _ Hix p Hp). rewrite Hq. by eexists.
  - intros _. exact G2.
  - rewrite N2. by apply (ix_bip30 _ _ _ _ _ _ _ _ _ _ _ Hix p tip (unchecked b) _ (proj2 Hcf)).
  - rewrite N2. eapply coins_ok_later; [|apply (ix_coins _ _ _ _ _ _ _ _ _ _ _ Hix tip), A6]. lia.
Qed.

Lemma stored_checked b x : block_good params (unchecked b) -> CheckBlock b params true true <> Ok (Invalid x).
Proof.
  intros Hg Hc. destruct (bg_valid _ _ Hg) as [b' Hv]. unfold CheckBlock in Hc. destruct (fChecked b) eqn:Ef; [discriminate Hc|].
  destruct b as [hd v f]. cbn in Ef. subst f. unfold unchecked in Hv. cbn [header vtx] in Hv. unfold CheckBlock in Hv. cbn [fChecked] in Hv. rewrite Hv in Hc. discriminate Hc.
Qed.

(** The undo data of a block that connects again is the one that is stored. *)
Lemma undo_written n N s tip r p b u' undo : inv n N s tip r -> is_Some (cs_heap s !! p) -> pprev (at_ (cs_heap s) p) = Some tip ->
  block_files s !! p = Some (unchecked b) -> connects env params scripts (cs_heap s) (unchecked b) p (cache_abs (pcashTip s)) u' undo ->
  let undos := write_undo (at_ (cs_heap s) p) p (mkCBlockUndo (map mkCTxUndo (tail undo))) (undo_files s) in
  (forall q x, undo_files s !! q = Some x -> undos !! q = Some x) /\ (forall q x, undos !! q = Some x -> undo_files s !! q = Some x \/ q = p) /\
  reach (cs_heap s) (block_files s) undos p u'.
Proof.
  intros [Hix [A1 A2 A3 A4 A5 A6 A7] _ _] Hp Hq Hb Hcon undos. pose proof (ix_heap _ _ _ _ _ _ _ _ _ _ _ Hix) as Hh. subst undos. unfold write_undo. fold (undo_bit (nStatus (at_ (cs_heap s) p))).
  destruct (Z.eqb_spec (undo_bit (nStatus (at_ (cs_heap s) p))) 0) as [E|E].
  - assert (Hno : undo_files s !! p = None).
    { destruct (undo_files s !! p) as [x|] eqn:Ex; [|done]. by destruct (ix_undos _ _ _ _ _ _ _ _ _ _ _ Hix p x Ex) as [_ []]. }
    assert (Hsub : forall q x, undo_files s !! q = Some x -> <[p := mkCBlockUndo (map mkCTxUndo (tail undo))]> (undo_files s) !! q = Some x).
    { intros q x Hx. rewrite lookup_insert_ne; [done|]. intros ->. congruence. }
    split; [exact Hsub|]. split.
    + intros q x. destruct (decide (q = p)) as [-> |Hne]; [by right|]. rewrite lookup_insert_ne by done. by left.
    + eapply reaches_next; [exact Hp|exact Hq| |exact Hb|exact Hcon|by rewrite lookup_insert_eq].
      eapply reaches_grows; [exact Hh|exact Hh|apply grows_refl|done|exact Hsub|exact A6].
  - split; [done|]. split; [by left|]. destruct (ix_undo _ _ _ _ _ _ _ _ _ _ _ Hix p Hp E) as [u0 Hr]. fold (cs_heap s) in Hr.
    destruct (reaches_inv _ _ _ _ _ _ _ _ _ Hr Hq) as (b1 & u1 & undo1 & Hr1 & Hb1 & Hc1 & _). assert (b1 = unchecked b) as -> by congruence.
    rewrite (reaches_fun _ _ _ _ _ _ _ _ A6 _ Hr1) in Hc1. apply connects_effect in Hcon, Hc1. rewrite Hcon in Hc1. injection Hc1 as -> ->. exact Hr.
Qed.

(** A block that breaks the rules is marked, and no candidate any more. *)
Lemma InvalidBlockFound_ok n N s tip r p rj : inv n N s tip r -> is_Some (cs_heap s !! p) -> pprev (at_ (cs_heap s) p) = Some tip ->
  refused env params scripts (cs_heap s) (block_files s) p -> corruptionPossible rj = false ->
  exists s', InvalidBlockFound p rj s = Ok s' /\ inv n N s' tip r /\ block_files s' = block_files s /\ mapBlocksUnlinked s' = mapBlocksUnlinked s /\
    cs_tree s' = mkBlockTree (or_status (cs_heap s) p BLOCK_FAILED_VALID) (mapBlockIndex (cs_tree s)) (pindexBestHeader (cs_tree s)) /\
    setBlockIndexCandidates s' = setBlockIndexCandidates s ∖ {[p]}.
Proof.
  intros [Hix [A1 A2 A3 A4 A5 A6 A7] Hck Hsc] Hp Hq Href Hcor. pose proof (ix_heap _ _ _ _ _ _ _ _ _ _ _ Hix) as Hh.
  assert (Hno : forall z u, reach (cs_heap s) (block_files s) (undo_files s) z u -> ~ ancestor (cs_heap s) z p).
  { intros z u Hu Ha. eapply refused_not_valid; [by eapply reaches_valid|exact Ha|exact Href]. }
  unfold InvalidBlockFound, InvalidChainFound. rewrite Hcor. cbv zeta. unfold Tip. cbn [chainActive set_candidates set_invalid set_heap set_tree].
  rewrite A2, chain_of_tip, bool_decide_eq_true_2 by (done || by eexists). cbn [assert_then mbind result_bind]. eexists. split; [done|].
  split; [|done]. destruct (lor_failed (nStatus (at_ (cs_heap s) p)) BLOCK_FAILED_VALID) as (Hf & _); [by left|].
  split; [|eapply (active_status _ _ _ (cs_heap s) _ (undo_files s)); [exact Hh|exact Hp|intros Ha; by destruct (Hno _ _ A6)|done|]| |exact Hsc].
  - apply (index_mark env params scripts n N (cs_tree s) (g_failed_blocks s) _ (block_files s) (undo_files s) (versionbitscache s) (mapBlocksUnlinked s) p); [by left|exact Hix|exact Hp|].
    intros q Hq'. cbn [g_failed_blocks set_invalid set_candidates] in Hq'. apply elem_of_union in Hq' as [->%elem_of_singleton|?]; [by right|by left].
  - split; assumption.
  - apply (cands_mark env params scripts (cs_heap s) _ _ (setBlockIndexCandidates s)); [exact Hh|exact Hp|exact Hf| |by right|exact Hck].
    intros Ha. destruct (ck_set _ _ _ _ _ _ _ _ _ Hck) as [u Hu]. by destruct (Hno r u Hu).
Qed.

(** The index and the candidates once a block is connected. *)
Lemma index_connected n N s tip r p b u' undo st caches : inv n N s tip r -> is_Some (cs_heap s !! p) -> pprev (at_ (cs_heap s) p) = Some tip ->
  clean (cs_heap s) p -> block_files s !! p = Some (unchecked b) -> connects env params scripts (cs_heap s) (unchecked b) p (cache_abs (pcashTip s)) u' undo ->
  connected_status true (at_ (cs_heap s) p) = Ok (Some st) -> deployments_ok (cs_heap s) params caches ->
  let undos := write_undo (at_ (cs_heap s) p) p (mkCBlockUndo (map mkCTxUndo (tail undo))) (undo_files s) in
  let h := set_status (cs_heap s) p st in
  index_ok env params scripts n N (mkBlockTree h (mapBlockIndex (cs_tree s)) (pindexBestHeader (cs_tree s))) (g_failed_blocks s) (block_files s) undos caches (mapBlocksUnlinked s) /\
  cands_ok env params scripts h (block_files s) undos (setBlockIndexCandidates s) tip r /\ clean h p /\ reach h (block_files s) undos p u' /\
  failed_bits st = failed_bits (nStatus (at_ (cs_heap s) p)).
Proof.
  intros Hinv Hp Hq Hcl Hbp Hcon Est Hdep undos h. destruct (undo_written n N s tip r p b u' undo Hinv Hp Hq Hbp Hcon) as (U1 & U2 & U3). fold undos in U1, U2, U3.
  destruct Hinv as [Hix _ Hck _]. pose proof (ix_heap _ _ _ _ _ _ _ _ _ _ _ Hix) as Hh. destruct (connected_status_spec _ _ Est) as (B1 & B2 & B3 & B4).
  assert (Hz : failed_bits st = 0) by (rewrite B1; apply (Hcl p), ancestor_refl).
  assert (Hix' : index_ok env params scripts n N (mkBlockTree h (mapBlockIndex (cs_tree s)) (pindexBestHeader (cs_tree s))) (g_failed_blocks s) (block_files s) undos caches (mapBlocksUnlinked s)).
  { apply (index_status env params scripts n N (cs_tree s) (g_failed_blocks s) _ (block_files s) (undo_files s) undos (versionbitscache s) _ (mapBlocksUnlinked s)); try assumption; [done| |].
    - intros _. by eexists.
    - intros q Hq'. destruct (ix_failed _ _ _ _ _ _ _ _ _ _ _ Hix q Hq') as [Hqs Hqf]. split; [by apply (same_links_at _ _ q (set_status_links (cs_heap s) p st))|].
      rewrite set_status_at by done. case_bool_decide; [subst q|exact Hqf]. exfalso. apply Hqf. rewrite Hz in B1. unfold failed_bits in B1.
      fold (cs_heap s). change BLOCK_FAILED_VALID with (Z.land BLOCK_FAILED_MASK BLOCK_FAILED_VALID). by rewrite Z.land_assoc, <- B1. }
  pose proof (ix_heap _ _ _ _ _ _ _ _ _ _ _ Hix') as Hh'. split_and!; [exact Hix'| | | |exact B1].
  - eapply (cands_status _ _ _ (cs_heap s)); [exact Hh|exact Hp|by rewrite B1|by intros _|exact U1|done|by intros q|exact Hck].
  - eapply clean_status; [exact Hh|exact Hp|by intros _|exact Hcl].
  - eapply (reaches_grows _ _ _ (cs_heap s) _ (block_files s) _ undos undos); [exact Hh|exact Hh'|apply same_links_grows, set_status_links|done|done|exact U3].
Qed.

Lemma ConnectTip_ok n N s tip r p pblock :
  inv n N s tip r -> is_Some (cs_heap s !! p) -> pprev (at_ (cs_heap s) p) = Some tip -> linked (cs_heap s) p -> clean (cs_heap s) p ->
  at_hand (block_files s) p pblock ->
  exists res s', ConnectTip env params cfg machine p pblock s = Ok (res, s') /\ block_files s' = block_files s /\ mapBlocksUnlinked s' = mapBlocksUnlinked s /\
    match res with
    | TipConnected => exists st, failed_bits st = failed_bits (nStatus (at_ (cs_heap s) p)) /\
        cs_tree s' = mkBlockTree (set_status (cs_heap s) p st) (mapBlockIndex (cs_tree s)) (pindexBestHeader (cs_tree s)) /\
        index_ok env params scripts n N (cs_tree s') (g_failed_blocks s') (block_files s') (undo_files s') (versionbitscache s') (mapBlocksUnlinked s') /\
        active_ok env params scripts (cs_heap s') (block_files s') (undo_files s') (chainActive s') (pcashTip s') p /\
        cands_ok env params scripts (cs_heap s') (block_files s') (undo_files s') (setBlockIndexCandidates s') tip r /\
        setBlockIndexCandidates s' = setBlockIndexCandidates s /\ scriptExecutionCache s' = scripts
    | TipInvalid rj => corruptionPossible rj = false /\ inv n N s' tip r /\ refused env params scripts (cs_heap s) (block_files s) p /\
        cs_tree s' = mkBlockTree (or_status (cs_heap s) p BLOCK_FAILED_VALID) (mapBlockIndex (cs_tree s)) (pindexBestHeader (cs_tree s)) /\
        setBlockIndexCandidates s' = setBlockIndexCandidates s ∖ {[p]}
    | TipError => False
    end.
Proof.
  intros Hinv Hp Hq Hl Hcl Hb. destruct (tip_block _ _ _ _ _ _ _ Hinv Hp Hq Hl Hb) as (b & Eb & Hbp). pose proof Hinv as [Hix [A1 A2 A3 A4 A5 A6 A7] Hck Hsc].
  pose proof (ix_heap _ _ _ _ _ _ _ _ _ _ _ Hix) as Hh. pose proof (tip_connectable _ _ _ _ _ _ _ Hinv Hp Hq Hl Hbp) as Hca.
  destruct (ix_blocks _ _ _ _ _ _ _ _ _ _ _ Hix p _ Hbp) as (_ & Hg & Hhash). destruct (child_cache_ok (pcashTip s) A5) as (_ & N2 & _).
  unfold ConnectTip, Tip. rewrite Hq, A2, chain_of_tip, bool_decide_eq_true_2 by done. cbn [assert_then]. rewrite Eb.
  destruct (ConnectBlock_ok env params cfg (cs_tree s) b p tip (versionbitscache s) (scriptExecutionCache s) _ Hca (bg_inputs _ _ Hg)) as (v & Ev & Hv). rewrite Ev. cbn [mbind result_bind].
  rewrite N2, Hsc in Hv. destruct v as [dn|rj].
  2:{ destruct Hv as [[x Hx]|(Hcor & Herr & Hno)]; [by destruct (stored_checked b x Hg)|].
      assert (Href : refused env params scripts (cs_heap s) (block_files s) p).
      { exists tip, (unchecked b), (cache_abs (pcashTip s)). split_and!; [done|done|by eapply reaches_valid|done|]. intros u' undo Hc. apply (Hno u' undo).
        apply block_connects_connects; [apply Hcf|exact Hc]. }
      rewrite Herr. destruct (InvalidBlockFound_ok n N s tip r p rj Hinv Hp Hq Href Hcor) as (s' & -> & I1 & I2 & I3 & I4 & I5). cbn [mbind result_bind].
      exists (TipInvalid rj), s'. split_and!; done. }
  destruct Hv as (undo & V1 & V2 & V3 & _ & _ & (st & Est & Etree) & V5 & V6 & _ & Hcon). apply block_connects_connects in Hcon; [|apply Hcf]. rewrite V3, V6.
  destruct (index_connected n N s tip r p b _ undo st (cd_caches dn) Hinv Hp Hq Hcl Hbp Hcon Est V5) as (Hix' & Hck' & Hcl' & Hre & Hst).
  assert (Hnull : uint256_IsNull (phashBlock (at_ (cs_heap s) p)) = false) by apply (ix_hash _ _ _ _ _ _ _ _ _ _ _ Hix p Hp).
  pose proof (ConnectBlock_best _ _ _ _ _ _ _ _ _ _ Ev) as Ehb. fold (cs_heap s) in Ehb. rewrite <- Ehb in Hnull.
  destruct (child_flush_ok (cd_view dn) V1 Hnull) as (v2 & -> & F1 & F2 & F3). cbn [mbind result_bind assert_then]. rewrite Ehb in Hnull.
  rewrite (bool_decide_eq_false_2 (_ = hashGenesisBlock params)) by apply (ca_not_genesis _ _ _ _ _ _ _ _ Hca).
  set (undos := write_undo _ _ _ _) in *. cbv zeta. rewrite Etree. fold (cs_heap s).
  assert (Hgr : grows (cs_heap s) (set_status (cs_heap s) p st)) by (apply same_links_grows, set_status_links).
  pose proof (ix_heap _ _ _ _ _ _ _ _ _ _ _ Hix') as Hh'. cbn [bt_heap] in Hh'. assert (Hp' : is_Some (set_status (cs_heap s) p st !! p)) by (by eapply grows_is_Some).
  match goal with |- context [FlushStateToDisk machine FLUSH_STATE_IF_NEEDED ?x] => set (s1 := x) end.
  destruct (FlushStateToDisk_ok FLUSH_STATE_IF_NEEDED s1) as (v3 & ta & tb & -> & (W1 & W2 & W3)); [exact F1|cbn; rewrite F3, V2; change (header b) with (header (unchecked b)); rewrite <- Hhash; exact Hnull|].
  cbn [mbind result_bind negb]. cbn in W2, W3. change (cs_heap (set_times (set_view s1 v3) ta tb)) with (set_status (cs_heap s) p st).
  change (chainActive (set_times (set_view s1 v3) ta tb)) with (chainActive s).
  rewrite A2, <- (grows_chain_of (cs_heap s) (set_status (cs_heap s) p st) tip Hh Hgr A1), (SetTip_ok _ Hh') by (done || (apply chain_of_path; [done|by eapply grows_is_Some])). cbn [mbind result_bind].
  eexists _, _. split; [done|]. split; [done|]. split; [done|]. exists st. split; [exact Hst|]. split; [done|]. split; [exact Hix'|]. split; [|split; [exact Hck'|split; done]].
  split; [exact Hp'|done|exact Hcl'| |exact W1| |].
  - unfold linked. change (nChainTx (at_ (set_status (cs_heap s) p st) p) <> 0). by destruct (set_status_same (cs_heap s) p st p Hp) as (_ & -> & _).
  - change (reach (set_status (cs_heap s) p st) (block_files s) undos p (cache_abs v3)). rewrite W2, F2. exact Hre.
  - change (cache_best v3 = phashBlock (at_ (set_status (cs_heap s) p st) p)). rewrite W3, F3, V2. destruct (grows_at _ _ Hgr p Hp) as (-> & _). symmetry. exact Hhash.
Qed.

(** ** How the state evolves while a chain is activated *)

Record evolves s s' : Prop := {
  ev_links : same_links (cs_heap s) (cs_heap s');
  ev_linked : forall q, nChainTx (at_ (cs_heap s') q) = nChainTx (at_ (cs_heap s) q);
  ev_seq : forall q, nSequenceId (at_ (cs_heap s') q) = nSequenceId (at_ (cs_heap s) q);
  ev_failed : forall q, failed_bits (nStatus (at_ (cs_heap s') q)) = 0 -> failed_bits (nStatus (at_ (cs_heap s) q)) = 0;
  ev_cands : setBlockIndexCandidates s' ⊆ setBlockIndexCandidates s;
  ev_files : block_files s' = block_files s;
  ev_map : mapBlockIndex (cs_tree s') = mapBlockIndex (cs_tree s);
  ev_unlinked : mapBlocksUnlinked s' = mapBlocksUnlinked s;
  ev_reason : heap_ok (cs_heap s) -> forall p, failed_bits (nStatus (at_ (cs_heap s') p)) <> 0 -> failed_bits (nStatus (at_ (cs_heap s) p)) = 0 ->
    exists a, ancestor (cs_heap s) p a /\ (failed_bits (nStatus (at_ (cs_heap s) a)) <> 0 \/ refused env params scripts (cs_heap s) (block_files s) a);
}.

Lemma evolves_refl s : evolves s s.
Proof. split; try done. Qed.

Lemma evolves_trans s1 s2 s3 : evolves s1 s2 -> evolves s2 s3 -> evolves s1 s3.
Proof.
  intros [A1 A2 A3 A4 A5 A6 A7 A8 A9] [B1 B2 B3 B4 B5 B6 B7 B8 B9].
  split; [by eapply same_links_trans| | |by auto|by etransitivity|congruence|congruence|congruence|].
  - intros q. by rewrite B2.
  - intros q. by rewrite B3.
  - intros Hh p Hf Hz. pose proof (same_links_heap_ok _ _ A1 Hh) as Hh2. specialize (A9 Hh). specialize (B9 Hh2).
    destruct (Z.eq_dec (failed_bits (nStatus (at_ (cs_heap s2) p))) 0) as [Hz2|Hf2]; [|by apply A9].
    destruct (B9 p Hf Hz2) as (a & Ha%(same_links_ancestor _ _ _ _ A1) & Hr). destruct Hr as [Hr|Hr].
    + destruct (Z.eq_dec (failed_bits (nStatus (at_ (cs_heap s1) a))) 0) as [Hza|Hfa]; [|exists a; auto]. destruct (A9 a Hr Hza) as (c & Hc & Hr').
      exists c. split; [by eapply ancestor_trans|done].
    + exists a. split; [done|]. right. rewrite A6 in Hr. eapply (refused_grows _ _ _ (cs_heap s2)); [done|done| |done|exact Hr].
      apply same_links_grows. intros q. by rewrite A1.
Qed.

Lemma evolves_tree s s' : cs_tree s' = cs_tree s -> setBlockIndexCandidates s' = setBlockIndexCandidates s -> block_files s' = block_files s ->
  mapBlocksUnlinked s' = mapBlocksUnlinked s -> evolves s s'.
Proof. intros Ht Hc Hf Hu. unfold cs_heap. split; unfold cs_heap; rewrite ?Ht, ?Hc; done. Qed.

Lemma evolves_cands s c : c ⊆ setBlockIndexCandidates s -> evolves s (set_candidates s c).
Proof. intros Hc. split; done. Qed.

Lemma evolves_status s s' p st : is_Some (cs_heap s !! p) ->
  cs_tree s' = mkBlockTree (set_status (cs_heap s) p st) (mapBlockIndex (cs_tree s)) (pindexBestHeader (cs_tree s)) ->
  (failed_bits st = 0 -> failed_bits (nStatus (at_ (cs_heap s) p)) = 0) -> setBlockIndexCandidates s' ⊆ setBlockIndexCandidates s ->
  block_files s' = block_files s -> mapBlocksUnlinked s' = mapBlocksUnlinked s ->
  (failed_bits st <> 0 -> exists a, ancestor (cs_heap s) p a /\
     (failed_bits (nStatus (at_ (cs_heap s) a)) <> 0 \/ refused env params scripts (cs_heap s) (block_files s) a)) -> evolves s s'.
Proof.
  intros Hp Ht Hf Hc Hb Hu Hr. assert (Eh : cs_heap s' = set_status (cs_heap s) p st) by (unfold cs_heap; by rewrite Ht). split; rewrite ?Eh; [apply set_status_links| | | |done|done|by rewrite Ht|done|].
  - intros q. by apply set_status_same.
  - intros q. by apply set_status_same.
  - intros q. rewrite set_status_at by done. case_bool_decide; [subst q; done|done].
  - intros _ q. rewrite set_status_at by done. case_bool_decide; [subst q; auto|done].
Qed.

Section Evolves.
Context (s s' : State) (Hev : evolves s s').

Lemma evolves_in q : is_Some (cs_heap s' !! q) <-> is_Some (cs_heap s !! q).
Proof. by destruct (same_links_at _ _ q (ev_links _ _ Hev)) as (-> & _). Qed.

Lemma evolves_prev q : pprev (at_ (cs_heap s') q) = pprev (at_ (cs_heap s) q).
Proof. by destruct (same_links_at _ _ q (ev_links _ _ Hev)) as (_ & _ & -> & _). Qed.

Lemma evolves_height q : Chain.nHeight (at_ (cs_heap s') q) = Chain.nHeight (at_ (cs_heap s) q).
Proof. by destruct (same_links_at _ _ q (ev_links _ _ Hev)) as (_ & _ & _ & _ & -> & _). Qed.

Lemma evolves_hash q : phashBlock (at_ (cs_heap s') q) = phashBlock (at_ (cs_heap s) q).
Proof. by destruct (same_links_at _ _ q (ev_links _ _ Hev)) as (_ & -> & _). Qed.

Lemma evolves_worse p q : worse (cs_heap s') p q <-> worse (cs_heap s) p q.
Proof.
  apply worse_ext; [|apply Hev]. intros x. by destruct (same_links_at _ _ x (ev_links _ _ Hev)) as (_ & _ & _ & _ & _ & -> & _).
Qed.

Lemma evolves_link q : linked (cs_heap s') q <-> linked (cs_heap s) q.
Proof. unfold linked. by rewrite (ev_linked _ _ Hev). Qed.

Lemma evolves_ancestor p q : ancestor (cs_heap s') p q <-> ancestor (cs_heap s) p q.
Proof. apply same_links_ancestor, Hev. Qed.
End Evolves.

(** ** Pruning the candidates *)

Lemma Prune_ok n N s tip r p :
  index_ok env params scripts n N (cs_tree s) (g_failed_blocks s) (block_files s) (undo_files s) (versionbitscache s) (mapBlocksUnlinked s) ->
  active_ok env params scripts (cs_heap s) (block_files s) (undo_files s) (chainActive s) (pcashTip s) p ->
  cands_ok env params scripts (cs_heap s) (block_files s) (undo_files s) (setBlockIndexCandidates s) tip r -> scriptExecutionCache s = scripts ->
  exists c r', PruneBlockIndexCandidates s = Ok (set_candidates s c) /\ inv n N (set_candidates s c) p r' /\ ~ worse (cs_heap s) r' r /\
    (forall q, q ∈ c <-> q ∈ setBlockIndexCandidates s /\ ~ worse (cs_heap s) q p).
Proof.
  intros Hix Hac Hck Hsc. pose proof (ix_works _ _ _ _ _ _ _ _ _ _ _ Hix) as Hw. pose proof Hac as [A1 A2 A3 A4 A5 A6 A7]. pose proof Hck as [C1 C2 C3 C4 C5 C6 C7].
  set (c := filter (fun q => CBlockIndexWorkComparator (cs_heap s) q p = false) (setBlockIndexCandidates s)).
  assert (Hc : forall q, q ∈ c <-> q ∈ setBlockIndexCandidates s /\ ~ worse (cs_heap s) q p).
  { intros q. unfold c. rewrite elem_of_filter. split.
    - intros [Hf Hq]. split; [done|]. apply (comparator_not_worse (cs_heap s) Hw); [by apply C1|done|done].
    - intros [Hq Hf]. split; [|done]. apply (comparator_not_worse (cs_heap s) Hw); [by apply C1|done|done]. }
  assert (Hr' : exists r', r' ∈ c /\ is_Some (cs_heap s !! r') /\ linked (cs_heap s) r' /\ clean (cs_heap s) r' /\
    (exists u, reach (cs_heap s) (block_files s) (undo_files s) r' u) /\ ~ worse (cs_heap s) r' r /\ ~ worse (cs_heap s) r' p).
  { destruct (CBlockIndexWorkComparator (cs_heap s) r p) eqn:E.
    - apply (comparator_worse (cs_heap s) Hw) in E; [|done..]. assert (~ worse (cs_heap s) p r) by (intros Hpr; by apply (worse_irrefl (cs_heap s) p); eapply worse_trans).
      exists p. split; [apply Hc; split; [by apply C2|apply worse_irrefl]|]. split_and!; [done..|by eexists|done|apply worse_irrefl].
    - apply (comparator_not_worse (cs_heap s) Hw) in E; [|done..]. exists r. split; [apply Hc; split; [|done]; apply C2; [done..|apply worse_irrefl]|].
      split_and!; [done..|apply worse_irrefl|done]. }
  destruct Hr' as (r' & Hr'c & R1 & R2 & R3 & R4 & R5 & R6). exists c, r'. split.
  - unfold PruneBlockIndexCandidates, Tip. rewrite A2, chain_of_tip by done. rewrite bool_decide_eq_false_2.
    + fold c. rewrite bool_decide_eq_false_2; [done|]. intros E. rewrite E in Hr'c. by apply elem_of_empty in Hr'c.
    + intros E. apply Hc in Hr'c as [Hr'c _]. rewrite E in Hr'c. by apply elem_of_empty in Hr'c.
  - split; [|split; [done|exact Hc]]. split; [exact Hix|exact Hac| |exact Hsc]. split; [|  |exact R1|exact R2|exact R3|exact R4|exact R6].
    + intros q [Hq Hqp]%Hc. destruct (C1 q Hq) as (? & ? & _). done.
    + intros q Hq Hlq Hcq Hwq. apply Hc. split; [apply (C2 q Hq Hlq Hcq); eapply worse_not_trans; [exact R5|exact Hwq]|].
      eapply worse_not_trans; [exact R6|exact Hwq].
Qed.

(** ** Climbing towards the best candidate *)

Record climb (n N : Z) s (tip r m : Ptr) : Prop := {
  cl_inv : inv n N s tip r;
  cl_cand : m ∈ setBlockIndexCandidates s;
  cl_max : forall p, p ∈ setBlockIndexCandidates s -> ~ worse (cs_heap s) m p;
  cl_clean : clean (cs_heap s) m;
  cl_path : ancestor (cs_heap s) m tip;
}.

Definition newly_failed s s' : Prop :=
  exists p, is_Some (cs_heap s !! p) /\ failed_bits (nStatus (at_ (cs_heap s) p)) = 0 /\ failed_bits (nStatus (at_ (cs_heap s') p)) <> 0.

Lemma newly_failed_trans s1 s2 s3 : evolves s1 s2 -> newly_failed s2 s3 -> newly_failed s1 s3.
Proof. intros Hev (p & H1 & H2 & H3). exists p. split_and!; [by apply (evolves_in _ _ Hev)|by apply Hev|done]. Qed.

Lemma climb_step n N s tip r m p pblock : climb n N s tip r m -> ancestor (cs_heap s) m p -> pprev (at_ (cs_heap s) p) = Some tip ->
  at_hand (block_files s) p pblock ->
  exists res s1, ConnectTip env params cfg machine p pblock s = Ok (res, s1) /\
    match res with
    | TipConnected => exists c r', PruneBlockIndexCandidates s1 = Ok (set_candidates s1 c) /\ evolves s (set_candidates s1 c) /\
        climb n N (set_candidates s1 c) p r' m /\ ~ worse (cs_heap s) r' r
    | TipInvalid rj => corruptionPossible rj = false /\ inv n N s1 tip r /\ evolves s s1 /\ newly_failed s s1
    | TipError => False
    end.
Proof.
  intros [Hinv Hm Hmax Hcl Hpath] Ha Hq Hb. pose proof Hinv as [Hix _ Hck _]. pose proof (ix_heap _ _ _ _ _ _ _ _ _ _ _ Hix) as Hh.
  destruct (ck_sound _ _ _ _ _ _ _ _ _ Hck m Hm) as (Hms & Hml & _). destruct (ancestor_in _ _ _ Hh Hms Ha) as [Hp _].
  pose proof (linked_ancestor _ _ _ _ _ _ _ _ _ _ _ Hix m p Hms Hml Ha) as Hlp. pose proof (clean_ancestor _ _ _ Hcl Ha) as Hcp.
  destruct (ConnectTip_ok n N s tip r p pblock Hinv Hp Hq Hlp Hcp Hb) as (res & s1 & E & Hfiles & Hunl & Hres). exists res, s1. split; [exact E|]. destruct res as [|rj|]; [| |done].
  - destruct Hres as (st & Hst & Ht & Hix1 & Hac1 & Hck1 & Hc1 & Hsc1). destruct (Prune_ok n N s1 tip r p Hix1 Hac1 Hck1 Hsc1) as (c & r' & Epr & Hinv' & Hr' & Hc).
    assert (Hev1 : evolves s s1) by (eapply evolves_status; [exact Hp|exact Ht|by rewrite Hst|by rewrite Hc1|exact Hfiles|exact Hunl|rewrite Hst; intros Hx; by destruct Hx; apply (Hcp p), ancestor_refl]).
    assert (Hev : evolves s (set_candidates s1 c)).
    { eapply evolves_trans; [exact Hev1|]. apply evolves_cands. intros q Hq'. by apply Hc. }
    exists c, r'. split; [exact Epr|]. split; [exact Hev|]. split; [|by rewrite <- (evolves_worse _ _ Hev1)]. split.
    + exact Hinv'.
    + apply Hc. rewrite Hc1, (evolves_worse _ _ Hev1). split; [done|]. by apply (ancestor_worse _ _ _ _ _ _ _ _ _ _ _ Hix m p).
    + intros q Hq'. cbn in Hq'. apply Hc in Hq' as [Hq' _]. rewrite Hc1 in Hq'. rewrite (evolves_worse _ _ Hev). by apply Hmax.
    + intros q Hq'%(evolves_ancestor _ _ Hev). change (cs_heap (set_candidates s1 c)) with (cs_heap s1). assert (Eh : cs_heap s1 = set_status (cs_heap s) p st) by (unfold cs_heap; by rewrite Ht).
      rewrite Eh, set_status_at by done. case_bool_decide; [subst q; rewrite Hst|]; by apply Hcl.
    + by apply (evolves_ancestor _ _ Hev).
  - destruct Hres as (Hcor & Hinv1 & Href & Ht & Hc). assert (Hev : evolves s s1).
    { eapply evolves_status; [exact Hp|exact Ht| |rewrite Hc; apply subseteq_difference_l; done|exact Hfiles|exact Hunl|intros _; exists p; split; [apply ancestor_refl|by right]]. intros Hz.
      by destruct (lor_failed (nStatus (at_ (cs_heap s) p)) BLOCK_FAILED_VALID) as (? & _); [left|]. }
    split_and!; [done|done|done|]. exists p. split; [exact Hp|]. split; [apply (Hcp p), ancestor_refl|]. unfold cs_heap at 1. rewrite Ht. cbn [bt_heap]. unfold or_status.
    rewrite set_status_at, bool_decide_eq_true_2 by done. by destruct (lor_failed (nStatus (at_ (cs_heap s) p)) BLOCK_FAILED_VALID) as (? & _); [left|].
Qed.

Lemma inv_best_invalid n N s tip r best : inv n N s tip r -> inv n N (set_invalid s best (g_failed_blocks s)) tip r.
Proof. intros [H1 H2 H3 H4]. split; [exact H1|exact H2|exact H3|exact H4]. Qed.

Lemma inv_tip n N s tip r : inv n N s tip r -> Tip s = Some tip.
Proof. intros [_ Hac _ _]. unfold Tip. rewrite (ac_chain _ _ _ _ _ _ _ _ _ Hac). apply chain_of_tip, Hac. Qed.

Lemma InvalidChainFound_ok n N s tip r p : inv n N s tip r ->
  exists s', InvalidChainFound p s = Ok s' /\ inv n N s' tip r /\ evolves s s' /\ cs_heap s' = cs_heap s.
Proof.
  intros Hinv. unfold InvalidChainFound. rewrite (inv_tip _ _ _ _ _ Hinv), bool_decide_eq_true_2 by (by eexists). cbn [assert_then].
  eexists. split; [done|]. split; [by apply inv_best_invalid|]. split; [by apply evolves_tree|done].
Qed.

(** The blocks from one on top of [tip] on, each on top of the one before. *)
Fixpoint path_from (h : Heap) (tip : Ptr) (l : list Ptr) : Prop :=
  match l with [] => True | p :: l => pprev (at_ h p) = Some tip /\ path_from h p l end.

Lemma path_from_links h h' l : same_links h h' -> forall tip, path_from h tip l -> path_from h' tip l.
Proof.
  intros Hl. induction l as [|p l IH]; intros tip; [done|]. cbn [path_from]. destruct (same_links_at _ _ p Hl) as (_ & _ & -> & _). intros [H1 H2]. split; [done|by apply IH].
Qed.

Lemma path_from_app h l p : forall tip, path_from h tip l -> pprev (at_ h p) = Some (List.last l tip) -> path_from h tip (l ++ [p]).
Proof.
  induction l as [|x l IH]; intros tip Hl Hp; cbn [path_from app] in *; [done|]. destruct Hl as [Hx Hl]. split; [done|]. apply IH; [done|].
  rewrite Hp. f_equal. destruct l as [|y l]; [done|]. change (List.last (x :: y :: l) tip) with (List.last (y :: l) tip). clear. revert x y.
  induction l as [|z l IH]; intros x y; [done|]. apply (IH x z).
Qed.

(** Where a chunk that was tried leaves the state: at [top], above [tip], or below a block that failed. *)
Definition chunk_spec (n N : Z) s (tip r m top : Ptr) (res : ChunkResult) s' : Prop :=
  evolves s s' /\ exists tip' r', ~ worse (cs_heap s) r' r /\
    match res with
    | ChunkDone => climb n N s' tip' r' m /\ tip' = top
    | ChunkBetter => climb n N s' tip' r' m /\ Chain.nHeight (at_ (cs_heap s) tip) < Chain.nHeight (at_ (cs_heap s) tip')
    | ChunkInvalid => inv n N s' tip' r' /\ newly_failed s s'
    | ChunkError => False
    end.

Lemma connect_chunk_ok n N m pblock old first l : forall s tip r,
  climb n N s tip r m -> at_hand (block_files s) m pblock -> is_Some (cs_heap s !! old) ->
  path_from (cs_heap s) tip l -> (forall p, p ∈ l -> ancestor (cs_heap s) m p) ->
  exists res s', connect_chunk env params cfg machine m pblock (Some old) first l s = Ok (res, s') /\ chunk_spec n N s tip r m (List.last l tip) res s'.
Proof.
  induction l as [|p l IH]; intros s tip r Hcl Hb Hold Hpath Hanc.
  { exists ChunkDone, s. split; [done|]. split; [apply evolves_refl|]. exists tip, r. split; [apply worse_irrefl|done]. }
  cbn [connect_chunk]. destruct Hpath as [Hp Hpath]. pose proof (Hanc p (list_elem_of_here _ _)) as Hap.
  assert (Hbp : at_hand (block_files s) p (if bool_decide (p = m) then pblock else None)) by (case_bool_decide; [subst p; done|by intros b]).
  destruct (climb_step n N s tip r m p _ Hcl Hap Hp Hbp) as (res & s1 & -> & Hres). cbn [mbind result_bind]. destruct res as [|rj|]; [| |done].
  - destruct Hres as (c & r1 & -> & Hev & Hcl1 & Hr1). cbn [mbind result_bind]. set (s2 := set_candidates s1 c) in *. rewrite (inv_tip _ _ _ _ _ (cl_inv _ _ _ _ _ _ Hcl1)).
    pose proof (cl_inv _ _ _ _ _ _ Hcl) as [Hix _ Hck _]. pose proof (ix_heap _ _ _ _ _ _ _ _ _ _ _ Hix) as Hh.
    assert (Hheight : Chain.nHeight (at_ (cs_heap s) tip) < Chain.nHeight (at_ (cs_heap s) p)).
    { destruct (ck_sound _ _ _ _ _ _ _ _ _ Hck m (cl_cand _ _ _ _ _ _ Hcl)) as (Hms & _). destruct (ancestor_in _ _ _ Hh Hms Hap) as [Hps _].
      destruct (at_ok _ Hh p Hps) as [_ Hprev _]. unfold cs_heap in *. rewrite Hp in Hprev. lia. }
    destruct (more_work (cs_heap s2) p old) eqn:Emw.
    + exists ChunkBetter, s2. split; [done|]. split; [exact Hev|]. exists p, r1. done.
    + destruct (IH s2 p r1 Hcl1) as (res & s3 & E & Hev' & tip' & r' & Hr' & Hsp).
      * by rewrite (ev_files _ _ Hev).
      * by apply (evolves_in _ _ Hev).
      * eapply path_from_links; [apply Hev|exact Hpath].
      * intros q Hq. apply (evolves_ancestor _ _ Hev), Hanc. by apply list_elem_of_further.
      * exists res, s3. split; [exact E|]. split; [by eapply evolves_trans|]. exists tip', r'. rewrite (evolves_worse _ _ Hev) in Hr'. split; [by eapply worse_not_trans|].
        destruct res; [| | |done].
        -- destruct Hsp as [Hcl3 ->]. split; [exact Hcl3|]. destruct l as [|y l]; [done|]. change (List.last (y :: l) p = List.last (y :: l) tip). clear. revert y.
           induction l as [|z l IH]; intros y; [done|]. apply (IH z).
        -- rewrite !(evolves_height _ _ Hev) in Hsp. destruct Hsp as [Hcl3 Hlt]. split; [exact Hcl3|lia].
        -- destruct Hsp as [Hinv3 Hnf]. split; [exact Hinv3|by eapply newly_failed_trans].
  - destruct Hres as (Hcor & Hinv1 & Hev & Hnf). rewrite Hcor. cbn [negb]. destruct (InvalidChainFound_ok n N s1 tip r first Hinv1) as (s2 & -> & Hinv2 & Hev2 & Eh).
    cbn [mbind result_bind]. exists ChunkInvalid, s2. split; [done|]. split; [by eapply evolves_trans|]. exists tip, r. split; [apply worse_irrefl|]. split; [exact Hinv2|].
    destruct Hnf as (q & Q1 & Q2 & Q3). exists q. by rewrite Eh.
Qed.

(** The blocks between the tip and a block above it. *)
Lemma to_connect_ok h tip : heap_ok h -> is_Some (h !! tip) -> forall fuel p, is_Some (h !! p) -> ancestor h p tip -> Chain.nHeight (at_ h p) < Z.of_nat fuel ->
  let l := to_connect h fuel (Some p) (Chain.nHeight (at_ h tip)) in
  path_from h tip l /\ List.last l tip = p /\ forall q, q ∈ l -> ancestor h p q.
Proof.
  intros Hh Ht. induction fuel as [|fuel IH]; intros p Hp Ha Hf; destruct (at_ok h Hh p Hp) as [Hp0 Hprev _]; [lia|]. cbn [to_connect].
  destruct (Z.eqb_spec (Chain.nHeight (at_ h p)) (Chain.nHeight (at_ h tip))) as [E|E].
  { pose proof (ancestor_same h p tip Hh Hp Ha (eq_sym E)) as ->. split_and!; [done|done|]. by intros q Hq%elem_of_nil. }
  apply ancestor_step in Ha as [-> |(q & Eq & Ha)]; [done|]. rewrite Eq in *. destruct Hprev as [Hq Hhq].
  destruct (IH q Hq Ha) as (P1 & P2 & P3); [lia|]. split_and!.
  - apply path_from_app; [done|]. by rewrite P2.
  - by rewrite last_last.
  - intros x [Hx|Hx]%elem_of_app; [|apply list_elem_of_singleton in Hx as ->; apply ancestor_refl].
    eapply ancestor_trans; [by apply ancestor_prev|by apply P3].
Qed.

Lemma chunk_loop_ok n N m pblock old fuel : forall s tip r,
  climb n N s tip r m -> at_hand (block_files s) m pblock -> is_Some (cs_heap s !! old) ->
  Chain.nHeight (at_ (cs_heap s) m) - Chain.nHeight (at_ (cs_heap s) tip) <= Z.of_nat fuel ->
  exists res s', chunk_loop env params cfg machine fuel m pblock (Some old) (Chain.nHeight (at_ (cs_heap s) tip)) s = Ok (res, s') /\
    chunk_spec n N s tip r m m res s'.
Proof.
  induction fuel as [|fuel IH]; intros s tip r Hcl Hb Hold Hf; pose proof Hcl as [[Hix Hac Hck _] Hm _ _ Hpath]; pose proof (ix_heap _ _ _ _ _ _ _ _ _ _ _ Hix) as Hh;
    fold (cs_heap s) in Hh; destruct (ck_sound _ _ _ _ _ _ _ _ _ Hck m Hm) as (Hms & _); destruct (ancestor_in _ _ _ Hh Hms Hpath) as [Hts Hle].
  - cbn [chunk_loop]. assert (E : Chain.nHeight (at_ (cs_heap s) tip) = Chain.nHeight (at_ (cs_heap s) m)) by lia. rewrite E, Z.eqb_refl.
    exists ChunkDone, s. split; [done|]. split; [apply evolves_refl|]. exists tip, r. split; [apply worse_irrefl|]. split; [done|]. by eapply ancestor_same.
  - cbn [chunk_loop]. destruct (Z.eqb_spec (Chain.nHeight (at_ (cs_heap s) tip)) (Chain.nHeight (at_ (cs_heap s) m))) as [E|E].
    { exists ChunkDone, s. split; [done|]. split; [apply evolves_refl|]. exists tip, r. split; [apply worse_irrefl|]. split; [done|]. by eapply ancestor_same. }
    set (k := Z.min (Chain.nHeight (at_ (cs_heap s) tip) + 32) (Chain.nHeight (at_ (cs_heap s) m))). destruct (at_ok _ Hh tip Hts) as [Ht0 _ _].
    assert (Hk : Chain.nHeight (at_ (cs_heap s) tip) < k <= Chain.nHeight (at_ (cs_heap s) m)) by lia. rewrite GetAncestor_ok by done.
    rewrite (proj2 (Z.leb_le 0 k)), (proj2 (Z.leb_le k _)) by lia. cbn [andb mbind result_bind].
    destruct (back_spec _ Hh (Z.to_nat (Chain.nHeight (at_ (cs_heap s) m) - k)) m Hms) as (a & Ea & Has & Hha); [lia|]. rewrite Ea.
    assert (Hma : ancestor (cs_heap s) m a) by (by eexists). assert (Hat : ancestor (cs_heap s) a tip) by (eapply ancestor_cut; [exact Hh|exact Hms|exact Ea|exact Hpath|lia]).
    destruct (to_connect_ok (cs_heap s) tip Hh Hts (Z.to_nat (k + 1)) a Has Hat) as (P1 & P2 & P3); [lia|].
    set (l := to_connect _ _ _ _) in *. destruct (connect_chunk_ok n N m pblock old (default m (head l)) l s tip r Hcl Hb Hold P1) as (res & s1 & -> & Hev & tip1 & r1 & Hr1 & Hsp).
    { intros q Hq. eapply ancestor_trans; [exact Hma|by apply P3]. }
    cbn [mbind result_bind]. destruct res; [|eexists _, _; split; [done|]; split; [exact Hev|]; by exists tip1, r1..|done].
    destruct Hsp as [Hcl1 ->]. rewrite P2 in Hcl1. assert (Hk1 : k = Chain.nHeight (at_ (cs_heap s1) a)) by (rewrite (evolves_height _ _ Hev); lia). rewrite Hk1.
    destruct (IH s1 a r1 Hcl1) as (res & s2 & Eres & Hev2 & tip2 & r2 & Hr2 & Hsp2); [by rewrite (ev_files _ _ Hev)|by apply (evolves_in _ _ Hev)|rewrite !(evolves_height _ _ Hev); lia|].
    exists res, s2. split; [exact Eres|]. split; [by eapply evolves_trans|]. exists tip2, r2. rewrite (evolves_worse _ _ Hev) in Hr2. split; [by eapply worse_not_trans|].
    destruct res; [done| | |done].
    + rewrite !(evolves_height _ _ Hev) in Hsp2. destruct Hsp2 as [? ?]. split; [done|lia].
    + destruct Hsp2 as [? Hnf]. split; [done|by eapply newly_failed_trans].
Qed.

(** ** One step *)

Lemma disconnect_to_ok n N f fuel : forall s tip r, inv n N s tip r -> ancestor (cs_heap s) tip f ->
  Chain.nHeight (at_ (cs_heap s) tip) - Chain.nHeight (at_ (cs_heap s) f) <= Z.of_nat fuel ->
  exists s', disconnect_to params machine fuel (Some f) s = Ok (true, s') /\ inv n N s' f r /\ cs_tree s' = cs_tree s /\
    setBlockIndexCandidates s' = setBlockIndexCandidates s /\ block_files s' = block_files s /\ mapBlocksUnlinked s' = mapBlocksUnlinked s.
Proof.
  induction fuel as [|fuel IH]; intros s tip r Hinv Ha Hf; pose proof Hinv as [Hix Hac _ _]; pose proof (ix_heap _ _ _ _ _ _ _ _ _ _ _ Hix) as Hh; fold (cs_heap s) in Hh;
    pose proof (ac_in _ _ _ _ _ _ _ _ _ Hac) as Ht; cbn [disconnect_to]; rewrite (inv_tip _ _ _ _ _ Hinv);
    (destruct (decide (tip = f)) as [-> |Hne]; [rewrite bool_decide_eq_true_2 by done; by exists s|]); destruct (ancestor_in _ _ _ Hh Ht Ha) as [_ Hle].
  - destruct Hne. symmetry. apply (ancestor_same _ _ _ Hh Ht Ha). lia.
  - rewrite bool_decide_eq_false_2 by congruence. apply ancestor_step in Ha as [-> |(q & Eq & Ha)]; [done|].
    destruct (DisconnectTip_ok n N s tip r q Hinv Eq) as (s1 & -> & Hinv1 & Et & Ec & Ef & Eu). cbn [mbind result_bind negb]. assert (Eh : cs_heap s1 = cs_heap s) by (unfold cs_heap; by rewrite Et).
    destruct (at_ok _ Hh tip Ht) as [_ Hprev _]. rewrite Eq in Hprev. destruct Hprev as [_ Hhq].
    destruct (IH s1 q r Hinv1) as (s2 & E2 & Hinv2 & Et2 & Ec2 & Ef2 & Eu2); rewrite ?Eh; [done|lia|]. exists s2. split; [exact E2|]. split_and!; congruence || done.
Qed.

Lemma Step_ok n N s tip r m pblock : inv n N s tip r -> m ∈ setBlockIndexCandidates s -> (forall p, p ∈ setBlockIndexCandidates s -> ~ worse (cs_heap s) m p) ->
  clean (cs_heap s) m -> at_hand (block_files s) m pblock -> tip <> m ->
  exists res s', ActivateBestChainStep env params cfg machine m pblock s = Ok (Some res, s') /\ evolves s s' /\ exists tip' r', ~ worse (cs_heap s) r' r /\
    if (res : bool) then inv n N s' tip' r' /\ newly_failed s s'
    else climb n N s' tip' r' m /\ forall g, ancestor (cs_heap s) m g -> ancestor (cs_heap s) tip g ->
      Chain.nHeight (at_ (cs_heap s) g) < Chain.nHeight (at_ (cs_heap s) tip').
Proof.
  intros Hinv Hm Hmax Hcl Hb Hne. pose proof Hinv as [Hix Hac Hck Hsc]. pose proof (ix_heap _ _ _ _ _ _ _ _ _ _ _ Hix) as Hh. fold (cs_heap s) in Hh.
  pose proof (ac_in _ _ _ _ _ _ _ _ _ Hac) as Ht. destruct (ck_sound _ _ _ _ _ _ _ _ _ Hck m Hm) as (Hms & _ & Hmt).
  unfold ActivateBestChainStep. rewrite (inv_tip _ _ _ _ _ Hinv). destruct (FindFork_ok (cs_heap s) Hh (chainActive s) m Hms) as (fo & -> & Hfo).
  cbn [mbind result_bind]. rewrite (ac_chain _ _ _ _ _ _ _ _ _ Hac) in Hfo.
  assert (exists f, fo = Some f /\ ancestor (cs_heap s) m f /\ ancestor (cs_heap s) tip f /\
    forall g, ancestor (cs_heap s) m g -> ancestor (cs_heap s) tip g -> Chain.nHeight (at_ (cs_heap s) g) <= Chain.nHeight (at_ (cs_heap s) f)) as (f & -> & Hmf & Htf & Hmaxf).
  { destruct fo as [f|].
    - destruct Hfo as (Hmf & Hcf' & Hg). exists f. split_and!; [done|done|by apply chain_of_contains in Hcf'; [|done|done|by eapply ancestor_in]|].
      intros g Hmg Htg. apply Hg; [done|]. apply chain_of_contains; [done|done|by eapply ancestor_in|done].
    - destruct (common_root _ _ _ _ _ _ _ _ _ _ _ Hix m tip Hms Ht) as (g & Hmg & Htg). fold (cs_heap s) in Hmg, Htg. specialize (Hfo g Hmg).
      rewrite (proj2 (chain_of_contains _ _ _ Hh Ht (proj1 (ancestor_in _ _ _ Hh Hms Hmg)))) in Hfo by done. discriminate Hfo. }
  clear Hfo. destruct (ancestor_in _ _ _ Hh Ht Htf) as [Hfs _]. destruct (at_ok _ Hh f Hfs) as [Hf0 _ _].
  destruct (disconnect_to_ok n N f (length (chainActive s)) s tip r Hinv Htf) as (s1 & -> & Hinv1 & Et & Ec & Ef & Eu).
  { rewrite (ac_chain _ _ _ _ _ _ _ _ _ Hac), chain_of_length. lia. }
  cbn [mbind result_bind negb]. assert (Eh : cs_heap s1 = cs_heap s) by (unfold cs_heap; by rewrite Et).
  assert (Hcl1 : climb n N s1 f r m) by (split; rewrite ?Eh, ?Ec; done). assert (Hev1 : evolves s s1) by (by apply evolves_tree).
  destruct (at_ok _ Hh m Hms) as [Hm0 _ _].
  destruct (chunk_loop_ok n N m pblock tip (Z.to_nat (Chain.nHeight (at_ (cs_heap s1) m) + 1)) s1 f r Hcl1) as (res & s2 & -> & Hev2 & tip2 & r2 & Hr2 & Hsp);
    [by rewrite Ef|by rewrite Eh|rewrite Eh; lia|]. cbn [mbind result_bind]. rewrite Eh in Hr2. pose proof (evolves_trans _ _ _ Hev1 Hev2) as Hev.
  assert (Hfm : Chain.nHeight (at_ (cs_heap s) f) < Chain.nHeight (at_ (cs_heap s) m)).
  { destruct (ancestor_in _ _ _ Hh Hms Hmf) as [_ Hle]. destruct (Z.eq_dec (Chain.nHeight (at_ (cs_heap s) f)) (Chain.nHeight (at_ (cs_heap s) m))) as [E|]; [|lia].
    pose proof (ancestor_same _ _ _ Hh Hms Hmf E) as ->. destruct (ancestor_work _ _ _ _ _ _ _ _ _ _ _ Hix tip m Ht Htf) as [-> |Hw]; [done|].
    destruct Hmt. by apply worse_work. }
  destruct res; [| | |done].
  - destruct Hsp as [Hcl2 ->]. exists false, s2. split; [done|]. split; [exact Hev|]. exists m, r2. split; [done|]. split; [done|]. intros g Hmg Htg. specialize (Hmaxf g Hmg Htg). lia.
  - destruct Hsp as [Hcl2 Hlt]. rewrite Eh in Hlt. exists false, s2. split; [done|]. split; [exact Hev|]. exists tip2, r2. split; [done|]. split; [done|]. intros g Hmg Htg. specialize (Hmaxf g Hmg Htg). lia.
  - destruct Hsp as [Hinv2 Hnf]. exists true, s2. split; [done|]. split; [exact Hev|]. exists tip2, r2. split; [done|]. split; [done|]. exact (newly_failed_trans _ _ _ Hev1 Hnf).
Qed.

(** ** The search for the best candidate *)

Lemma first_unusable_ok n N s tip r fuel : inv n N s tip r -> forall p, is_Some (cs_heap s !! p) -> linked (cs_heap s) p ->
  Chain.nHeight (at_ (cs_heap s) p) < Z.of_nat fuel ->
  exists res, first_unusable fuel (Some p) s = Ok res /\
    match res with
    | None => clean (cs_heap s) p
    | Some (x, f) => f = true /\ ancestor (cs_heap s) p x /\ failed_bits (nStatus (at_ (cs_heap s) x)) <> 0
    end.
Proof.
  intros [Hix Hac _ _]. pose proof (ix_heap _ _ _ _ _ _ _ _ _ _ _ Hix) as Hh. fold (cs_heap s) in Hh.
  induction fuel as [|fuel IH]; intros p Hp Hl Hf; destruct (at_ok _ Hh p Hp) as [Hp0 Hprev _]; [lia|]. cbn [first_unusable].
  destruct (Contains (cs_heap s) (chainActive s) p) eqn:Ec.
  { exists None. split; [done|]. rewrite (ac_chain _ _ _ _ _ _ _ _ _ Hac) in Ec. apply chain_of_contains in Ec; [|done|apply Hac|done].
    eapply clean_ancestor; [apply Hac|exact Ec]. }
  rewrite (proj2 (Z.eqb_neq _ _) Hl). cbn [negb orb assert_then]. pose proof (linked_data _ _ _ _ _ _ _ _ _ _ _ Hix p Hp Hl) as Hd. unfold data_bit in Hd. fold (cs_heap s) in Hd.
  rewrite (proj2 (Z.eqb_neq _ _) Hd), orb_false_r. fold (failed_bits (nStatus (at_ (cs_heap s) p))).
  destruct (Z.eqb_spec (failed_bits (nStatus (at_ (cs_heap s) p))) 0) as [E|E]; cbn [negb].
  2:{ exists (Some (p, true)). split; [done|]. split_and!; [done|apply ancestor_refl|done]. }
  destruct (pprev (at_ (cs_heap s) p)) as [q|] eqn:Eq.
  - destruct Hprev as [Hqs Hhq]. destruct (IH q Hqs) as (res & -> & Hres); [by apply (ix_linked _ _ _ _ _ _ _ _ _ _ _ Hix p Hp Hl)|lia|].
    exists res. split; [done|]. destruct res as [[x f]|].
    + destruct Hres as (-> & Ha & Hx). split_and!; [done|eapply ancestor_trans; [by apply ancestor_prev|done]|done].
    + intros a [-> |(q' & Eq' & Ha)]%ancestor_step; [done|]. assert (q' = q) as -> by congruence. by apply Hres.
  - exists None. split; [by destruct fuel|]. intros a [-> |(q' & Eq' & _)]%ancestor_step; [done|congruence].
Qed.

(** A block below which another failed can be marked, and forgotten. *)
Lemma mark_ok n N s s' tip r y x : inv n N s tip r -> is_Some (cs_heap s !! y) -> ancestor (cs_heap s) y x -> failed_bits (nStatus (at_ (cs_heap s) x)) <> 0 ->
  s' = set_heap s (or_status (cs_heap s) y BLOCK_FAILED_CHILD) \/
  s' = set_candidates (set_heap s (or_status (cs_heap s) y BLOCK_FAILED_CHILD)) (setBlockIndexCandidates s ∖ {[y]}) ->
  inv n N s' tip r /\ evolves s s' /\ failed_bits (nStatus (at_ (cs_heap s') x)) <> 0.
Proof.
  intros [Hix Hac Hck Hsc] Hy Ha Hx Hs'. pose proof (ix_heap _ _ _ _ _ _ _ _ _ _ _ Hix) as Hh. fold (cs_heap s) in Hh.
  destruct (lor_failed (nStatus (at_ (cs_heap s) y)) BLOCK_FAILED_CHILD) as (Hf & _); [by right|].
  assert (Hno : forall z, clean (cs_heap s) z -> ~ ancestor (cs_heap s) z y) by (intros z Hz Hzy; apply Hx, Hz; by eapply ancestor_trans).
  assert (Hc : setBlockIndexCandidates s' = setBlockIndexCandidates s \/ setBlockIndexCandidates s' = setBlockIndexCandidates s ∖ {[y]})
    by (destruct Hs' as [-> | ->]; [by left|by right]).
  assert (Hev : evolves s s').
  { eapply (evolves_status _ _ y); [exact Hy|by destruct Hs' as [-> | ->]|done| |by destruct Hs' as [-> | ->]..|intros _; exists x; auto].
    destruct Hc as [-> | ->]; [done|]. by apply subseteq_difference_l. }
  split; [|split; [exact Hev|]].
  - assert (Hix' := index_mark env params scripts n N (cs_tree s) (g_failed_blocks s) (g_failed_blocks s) (block_files s) (undo_files s) (versionbitscache s) (mapBlocksUnlinked s) y
      BLOCK_FAILED_CHILD (or_intror eq_refl) Hix Hy (fun q Hq => or_introl Hq)).
    assert (Hac' : active_ok env params scripts (or_status (cs_heap s) y BLOCK_FAILED_CHILD) (block_files s) (undo_files s) (chainActive s) (pcashTip s) tip).
    { eapply (active_status _ _ _ (cs_heap s) _ (undo_files s)); [exact Hh|exact Hy| |done|exact Hac]. intros Hty. by destruct (Hno tip (ac_clean _ _ _ _ _ _ _ _ _ Hac)). }
    pose proof (cands_mark env params scripts (cs_heap s) (block_files s) (undo_files s) (setBlockIndexCandidates s) _ tip r y _ Hh Hy Hf (Hno r (ck_clean _ _ _ _ _ _ _ _ _ Hck)) Hc Hck) as Hck'.
    destruct Hs' as [-> | ->]; (split; [exact Hix'|exact Hac'|exact Hck'|exact Hsc]).
  - intros Hz. by apply Hx, Hev.
Qed.

Lemma drop_chain_ok n N x fuel : forall s tip r y, inv n N s tip r -> is_Some (cs_heap s !! y) -> ancestor (cs_heap s) y x ->
  failed_bits (nStatus (at_ (cs_heap s) x)) <> 0 -> Chain.nHeight (at_ (cs_heap s) y) < Z.of_nat fuel ->
  exists s', drop_chain fuel y x true s = Ok s' /\ inv n N s' tip r /\ evolves s s' /\ failed_bits (nStatus (at_ (cs_heap s') x)) <> 0 /\
    (y = x \/ y ∉ setBlockIndexCandidates s').
Proof.
  induction fuel as [|fuel IH]; intros s tip r y Hinv Hy Ha Hx Hf; pose proof Hinv as [Hix Hac _ _]; pose proof (ix_heap _ _ _ _ _ _ _ _ _ _ _ Hix) as Hh; fold (cs_heap s) in Hh;
    destruct (at_ok _ Hh y Hy) as [Hy0 Hprev _]; [lia|]. cbn [drop_chain]. case_bool_decide as E.
  { exists s. split; [done|]. split_and!; [done|apply evolves_refl|done|by left]. }
  destruct (mark_ok n N s _ tip r y x Hinv Hy Ha Hx (or_intror eq_refl)) as (Hinv1 & Hev1 & Hx1). apply ancestor_step in Ha as [-> |(q & Eq & Ha)]; [done|]. rewrite Eq in *. destruct Hprev as [Hq Hhq].
  cbn [setBlockIndexCandidates set_heap set_tree]. destruct (IH _ tip r q Hinv1) as (s2 & -> & Hinv2 & Hev2 & Hx2 & _).
  - by apply (evolves_in _ _ Hev1).
  - by apply (evolves_ancestor _ _ Hev1).
  - done.
  - rewrite (evolves_height _ _ Hev1). lia.
  - exists s2. split; [done|]. split_and!; [done|by eapply evolves_trans|done|]. right. intros Hc%(ev_cands _ _ Hev2). cbn [setBlockIndexCandidates set_candidates] in Hc. apply elem_of_difference in Hc as [_ Hc]. by apply Hc, elem_of_singleton.
Qed.

Lemma cands_remove h blocks undos cands tip r x : cands_ok env params scripts h blocks undos cands tip r -> failed_bits (nStatus (at_ h x)) <> 0 ->
  cands_ok env params scripts h blocks undos (cands ∖ {[x]}) tip r.
Proof.
  intros [C1 C2 C3 C4 C5 C6 C7] Hx. split; [| |exact C3|exact C4|exact C5|exact C6|exact C7].
  - intros p [Hp _]%elem_of_difference. by apply C1.
  - intros p Hp Hl Hc Hw. apply elem_of_difference. split; [by apply C2|]. intros ->%elem_of_singleton. by apply Hx, Hc, ancestor_refl.
Qed.

(** The best block that was ever the tip is a candidate. *)
Lemma ref_cand h blocks undos cands tip r : cands_ok env params scripts h blocks undos cands tip r -> r ∈ cands.
Proof. intros [C1 C2 C3 C4 C5 C6 C7]. apply (C2 r C3 C4 C5). apply worse_irrefl. Qed.

Lemma FindMostWorkChain_ok n N s tip r : inv n N s tip r ->
  exists m s', FindMostWorkChain s = Ok (Some m, s') /\ inv n N s' tip r /\ evolves s s' /\ m ∈ setBlockIndexCandidates s' /\
    (forall p, p ∈ setBlockIndexCandidates s' -> ~ worse (cs_heap s') m p) /\ clean (cs_heap s') m.
Proof.
  unfold FindMostWorkChain. remember (size (setBlockIndexCandidates s)) as fuel eqn:Ef. assert (Hf : (size (setBlockIndexCandidates s) <= fuel)%nat) by lia. clear Ef.
  revert s Hf. induction fuel as [|fuel IH]; intros s Hf Hinv; pose proof Hinv as [Hix _ Hck _].
  all: pose proof (ref_cand _ _ _ _ _ _ Hck) as Hr.
  all: pose proof (ix_heap _ _ _ _ _ _ _ _ _ _ _ Hix) as Hh; fold (cs_heap s) in Hh.
  { assert (size (setBlockIndexCandidates s) = O) as Hz by lia. apply size_empty_inv in Hz. by apply Hz in Hr. }
  cbn [find_loop]. pose proof (rbegin_spec (cs_heap s) (ix_works _ _ _ _ _ _ _ _ _ _ _ Hix) (setBlockIndexCandidates s)) as Hb.
  destruct (rbegin (cs_heap s) (setBlockIndexCandidates s)) as [m|]; [|rewrite Hb in Hr by (intros p Hp; by apply (ck_sound _ _ _ _ _ _ _ _ _ Hck)); by apply elem_of_empty in Hr].
  destruct Hb as [Hm Hmax]; [intros p Hp; by apply (ck_sound _ _ _ _ _ _ _ _ _ Hck)|]. destruct (ck_sound _ _ _ _ _ _ _ _ _ Hck m Hm) as (Hms & Hml & _).
  destruct (at_ok _ Hh m Hms) as [Hm0 _ _].
  destruct (first_unusable_ok n N s tip r (Z.to_nat (Chain.nHeight (at_ (cs_heap s) m) + 1)) Hinv m Hms Hml) as (res & -> & Hres); [lia|]. cbn [mbind result_bind].
  destruct res as [[x f]|]; [|exists m, s; split_and!; try done; apply evolves_refl]. destruct Hres as (-> & Hax & Hx).
  pose proof (inv_best_invalid n N s tip r (best_invalid s m) Hinv) as Hinv1. set (s1 := set_invalid s (best_invalid s m) (g_failed_blocks s)) in *.
  destruct (drop_chain_ok n N x (Z.to_nat (Chain.nHeight (at_ (cs_heap s) m) + 1)) s1 tip r m Hinv1 Hms Hax Hx) as (s2 & -> & [Hix2 Hac2 Hck2 Hsc2] & Hev2 & Hx2 & Hout); [change (cs_heap s1) with (cs_heap s); lia|].
  cbn [mbind result_bind]. pose proof (cands_remove _ _ _ _ _ _ x Hck2 Hx2) as Hck3. set (s3 := set_candidates s2 (setBlockIndexCandidates s2 ∖ {[x]})) in *.
  assert (Hev3 : evolves s s3).
  { eapply (evolves_trans s s1); [by apply evolves_tree|]. eapply evolves_trans; [exact Hev2|]. apply evolves_cands. intros z [? _]%elem_of_difference; done. }
  destruct (IH s3) as (m' & s4 & -> & Hinv4 & Hev4 & Hm4 & Hmax4 & Hcl4).
  - assert (Hsub : setBlockIndexCandidates s3 ⊂ setBlockIndexCandidates s).
    { split; [apply Hev3|]. intros Hss. specialize (Hss m Hm). cbn in Hss. apply elem_of_difference in Hss as [H1 H2]. destruct Hout as [-> |Ho]; [by apply H2, elem_of_singleton|done]. }
    apply subset_size in Hsub. lia.
  - split; [exact Hix2|exact Hac2|exact Hck3|exact Hsc2].
  - exists m', s4. split; [done|]. split_and!; [done|by eapply evolves_trans|done|done|done].
Qed.

(** ** Termination: every step either fails a block for good or climbs *)

(** The blocks that have not failed. *)
Definition live s : nat := size (filter (fun p => failed_bits (nStatus (at_ (cs_heap s) p)) = 0) (dom (cs_heap s))).

Lemma evolves_live s s' : evolves s s' -> (live s' <= live s)%nat /\ (newly_failed s s' -> live s' < live s)%nat.
Proof.
  intros Hev. unfold live. set (A := filter _ (dom (cs_heap s'))). set (B := filter _ (dom (cs_heap s))).
  assert (Hsub : A ⊆ B).
  { intros p. unfold A, B. rewrite !elem_of_filter, !elem_of_dom, (evolves_in _ _ Hev). intros [H1 H2]. split; [by apply Hev|done]. }
  split; [by apply subseteq_size|]. intros (p & H1 & H2 & H3). apply subset_size. split; [done|]. intros Hss.
  assert (HB : p ∈ B) by (unfold B; rewrite elem_of_filter, elem_of_dom; done). specialize (Hss p HB). unfold A in Hss. by apply elem_of_filter in Hss as [? _].
Qed.

(** The block at hand is stored for every entry that has its hash. *)
Definition pblock_ok s (pblock : option CBlock) : Prop :=
  forall b p, pblock = Some b -> is_Some (cs_heap s !! p) -> linked (cs_heap s) p -> phashBlock (at_ (cs_heap s) p) = CBlockHeader_GetHash (header b) ->
    block_files s !! p = Some (unchecked b).

Lemma pblock_ok_evolves s s' pblock : evolves s s' -> pblock_ok s pblock -> pblock_ok s' pblock.
Proof.
  intros Hev Hb b p Hp. rewrite (evolves_in _ _ Hev), (evolves_link _ _ Hev), (evolves_hash _ _ Hev), (ev_files _ _ Hev). by apply Hb.
Qed.

(** The tip is the best of the candidates. *)
Definition settled (n N : Z) s (tip : Ptr) : Prop :=
  inv n N s tip tip /\ forall p, p ∈ setBlockIndexCandidates s -> ~ worse (cs_heap s) tip p.

Lemma settled_best n N s tip r : inv n N s tip r -> tip ∈ setBlockIndexCandidates s ->
  (forall p, p ∈ setBlockIndexCandidates s -> ~ worse (cs_heap s) tip p) -> settled n N s tip /\ r = tip.
Proof.
  intros Hinv Ht Hmax. pose proof (st_cands _ _ _ _ _ _ _ _ Hinv) as Hck. assert (r = tip) as ->.
  { apply (worse_total (cs_heap s) r tip (ck_best _ _ _ _ _ _ _ _ _ Hck)), Hmax. exact (ref_cand _ _ _ _ _ _ Hck). }
  split; [|done]. split; done.
Qed.

Lemma settled_flush n N s tip mode : settled n N s tip ->
  exists s', FlushStateToDisk machine mode s = Ok (true, s') /\ settled n N s' tip /\ evolves s s'.
Proof.
  intros [[Hix [A1 A2 A3 A4 A5 A6 A7] Hck Hsc] Hmax].
  destruct (FlushStateToDisk_ok mode s A5) as (v & a & b & -> & (W1 & W2 & W3)); [rewrite A7; apply (ix_hash _ _ _ _ _ _ _ _ _ _ _ Hix tip A1)|].
  eexists. split; [done|]. split; [|by apply evolves_tree]. split; [|exact Hmax]. split; [exact Hix| |exact Hck|exact Hsc].
  split; [exact A1|exact A2|exact A3|exact A4|exact W1| |].
  - change (reach (cs_heap s) (block_files s) (undo_files s) tip (cache_abs v)). by rewrite W2.
  - change (cache_best v = phashBlock (at_ (cs_heap s) tip)). by rewrite W3.
Qed.

(** How many steps are left: [n] for every block that can still fail, and the
    height that is left to climb. *)
Definition steps_left (n : Z) s (tip : Ptr) (most : option Ptr) : Z :=
  Z.of_nat (live s) * n + match most with None => n | Some m => Chain.nHeight (at_ (cs_heap s) m) - Chain.nHeight (at_ (cs_heap s) tip) end.

Definition activating (n N : Z) s (tip r : Ptr) (most : option Ptr) : Prop :=
  match most with None => inv n N s tip r | Some m => climb n N s tip r m /\ tip <> m end.

Lemma steps_left_nonneg n N s tip r most : activating n N s tip r most -> 0 <= steps_left n s tip most.
Proof.
  intros Hact. unfold steps_left. destruct most as [m|]; cbn [activating] in Hact.
  - destruct Hact as [[[Hix _ Hck _] Hm _ _ Hpath] _]. pose proof (ix_n _ _ _ _ _ _ _ _ _ _ _ Hix).
    destruct (ancestor_in _ _ _ (ix_heap _ _ _ _ _ _ _ _ _ _ _ Hix) (proj1 (ck_sound _ _ _ _ _ _ _ _ _ Hck m Hm)) Hpath) as [_ Hle]. unfold cs_heap in *. nia.
  - destruct Hact as [Hix _ _ _]. pose proof (ix_n _ _ _ _ _ _ _ _ _ _ _ Hix). nia.
Qed.

(** The candidate a round of the loop works towards. *)
Lemma round_find n N s tip r most : activating n N s tip r most ->
  exists m s1, match most with None => FindMostWorkChain s | Some m => Ok (Some m, s) end = Ok (Some m, s1) /\ inv n N s1 tip r /\ evolves s s1 /\
    m ∈ setBlockIndexCandidates s1 /\ (forall p, p ∈ setBlockIndexCandidates s1 -> ~ worse (cs_heap s1) m p) /\ clean (cs_heap s1) m /\
    (most = None \/ (most = Some m /\ s1 = s /\ ancestor (cs_heap s) m tip)).
Proof.
  intros Hact. destruct most as [m|]; cbn [activating] in Hact.
  - destruct Hact as [[H1 H2 H3 H4 H5] _]. exists m, s. split_and!; [done|done|apply evolves_refl|done|done|done|by right].
  - destruct (FindMostWorkChain_ok n N s tip r Hact) as (m & s1 & E1 & E2 & E3 & E4 & E5 & E6). exists m, s1. split_and!; try done. by left.
Qed.

(** A round that does not end the loop brings the end nearer. *)
Lemma round_left n N s tip r most m s1 s2 tip2 r2 (res : bool) : activating n N s tip r most -> inv n N s1 tip r -> evolves s s1 -> evolves s1 s2 ->
  m ∈ setBlockIndexCandidates s1 -> (most = None \/ (most = Some m /\ s1 = s /\ ancestor (cs_heap s) m tip)) ->
  (if res then inv n N s2 tip2 r2 /\ newly_failed s1 s2
   else climb n N s2 tip2 r2 m /\ forall g, ancestor (cs_heap s1) m g -> ancestor (cs_heap s1) tip g -> Chain.nHeight (at_ (cs_heap s1) g) < Chain.nHeight (at_ (cs_heap s1) tip2)) ->
  steps_left n s2 tip2 (if res then None else Some m) < steps_left n s tip most.
Proof.
  intros Hact [Hix Hac Hck _] Hev1 Hev2 Hm Hcase Hres. pose proof (ix_heap _ _ _ _ _ _ _ _ _ _ _ Hix) as Hh. fold (cs_heap s1) in Hh.
  destruct (ck_sound _ _ _ _ _ _ _ _ _ Hck m Hm) as (Hms & _). destruct (ix_height _ _ _ _ _ _ _ _ _ _ _ Hix m Hms) as [Hm0 Hmn]. fold (cs_heap s1) in Hm0, Hmn.
  destruct (evolves_live _ _ Hev1) as [L1 _], (evolves_live _ _ Hev2) as [L2 L3]. unfold steps_left. destruct res.
  - destruct Hres as [_ Hnf]. specialize (L3 Hnf). assert (Z.of_nat (live s2) * n + n <= Z.of_nat (live s) * n) by nia.
    destruct Hcase as [-> |(-> & -> & Ha)]; [lia|]. destruct Hact as [_ Hne]. destruct (ancestor_in _ _ _ Hh Hms Ha) as [_ Hle].
    destruct (Z.eq_dec (Chain.nHeight (at_ (cs_heap s) tip)) (Chain.nHeight (at_ (cs_heap s) m))) as [E|]; [|lia]. by destruct Hne, (ancestor_same _ _ _ Hh Hms Ha E).
  - destruct Hres as [_ Hfork]. rewrite !(evolves_height _ _ Hev2). assert (Z.of_nat (live s2) * n <= Z.of_nat (live s) * n) by nia.
    destruct Hcase as [-> |(-> & -> & Ha)]; [|specialize (Hfork tip Ha (ancestor_refl _ tip)); lia].
    destruct (common_root _ _ _ _ _ _ _ _ _ _ _ Hix m tip Hms (ac_in _ _ _ _ _ _ _ _ _ Hac)) as (g & G1 & G2). specialize (Hfork g G1 G2).
    destruct (ix_height _ _ _ _ _ _ _ _ _ _ _ Hix g (proj1 (ancestor_in _ _ _ Hh Hms G1))) as [Hg0 _]. fold (cs_heap s1) in Hg0. lia.
Qed.

(** What the loop does after a round. *)
Definition next_round (fuel : nat) (most : option Ptr) (pblock : option CBlock) s : result (bool * State) :=
  match fuel with
  | O => Throw (assert_failed "ActivateBestChain: no progress")
  | Datatypes.S fuel => activate_loop env params cfg machine fuel most pblock s
  end.

Definition activated (n N : Z) s (r : Ptr) (res : result (bool * State)) : Prop :=
  exists s' tip', res = Ok (true, s') /\ settled n N s' tip' /\ evolves s s' /\ ~ worse (cs_heap s) tip' r.

Lemma activated_trans n N s s' r r' res : evolves s s' -> ~ worse (cs_heap s) r' r -> activated n N s' r' res -> activated n N s r res.
Proof.
  intros Hev Hr (s2 & tip2 & -> & Hset & Hev2 & Hr2). exists s2, tip2. rewrite (evolves_worse _ _ Hev) in Hr2.
  split_and!; [done|done|by eapply evolves_trans|by eapply worse_not_trans].
Qed.

Lemma round_ok n N pblock fuel s tip r most : activating n N s tip r most -> pblock_ok s pblock ->
  (forall s' tip' r' most', activating n N s' tip' r' most' -> pblock_ok s' pblock -> steps_left n s' tip' most' < steps_left n s tip most ->
     activated n N s' r' (next_round fuel most' pblock s')) ->
  activated n N s r (activate_loop env params cfg machine fuel most pblock s).
Proof.
  intros Hact Hpb Hnext. destruct (round_find n N s tip r most Hact) as (m & s1 & Efind & Hinv1 & Hev1 & Hm1 & Hmax1 & Hcl1 & Hcase).
  pose proof (st_cands _ _ _ _ _ _ _ _ Hinv1) as Hck1. destruct (ck_sound _ _ _ _ _ _ _ _ _ Hck1 m Hm1) as (Hms & Hml & _).
  assert (Eloop : activate_loop env params cfg machine fuel most pblock s = (
    if bool_decide (Tip s1 = Some m) then Ok (true, s1) else
    '(x, s2) ← ActivateBestChainStep env params cfg machine m
       (if match pblock with Some b => bool_decide (CBlockHeader_GetHash (header b) = phashBlock (at_ (cs_heap s1) m)) | None => false end then pblock else None) s1;
    match x with
    | None => Ok (false, s2)
    | Some fInvalidFound => let most' := if (fInvalidFound : bool) then None else Some m in
        if bool_decide (Tip s2 = most') then FlushStateToDisk machine FLUSH_STATE_PERIODIC s2 else next_round fuel most' pblock s2
    end)) by (destruct fuel; cbn [activate_loop]; rewrite Efind; reflexivity).
  rewrite Eloop, (inv_tip _ _ _ _ _ Hinv1). clear Eloop. case_bool_decide as Etip.
  { injection Etip as <-. destruct (settled_best n N s1 tip r Hinv1 Hm1 Hmax1) as [Hset ->]. exists s1, tip. split_and!; [done|done|done|apply worse_irrefl]. }
  set (pb := if match pblock with Some b => bool_decide _ | None => false end then pblock else None).
  assert (Hpb1 : at_hand (block_files s1) m pb).
  { subst pb. destruct pblock as [b|]; [|by intros b]. case_bool_decide as Eh; [|by intros b']. intros b' [= <-]. by apply (pblock_ok_evolves _ _ _ Hev1 Hpb b m). }
  destruct (Step_ok n N s1 tip r m pb Hinv1 Hm1 Hmax1 Hcl1 Hpb1 ltac:(congruence)) as (res & s2 & -> & Hev2 & tip2 & r2 & Hr2 & Hres). cbn [mbind result_bind].
  pose proof (round_left n N s tip r most m s1 s2 tip2 r2 res Hact Hinv1 Hev1 Hev2 Hm1 Hcase Hres) as Hleft.
  pose proof (evolves_trans _ _ _ Hev1 Hev2) as Hev. rewrite (evolves_worse _ _ Hev1) in Hr2. pose proof (pblock_ok_evolves _ _ _ Hev Hpb) as Hpb2.
  eapply (activated_trans n N s s2 r r2); [exact Hev|exact Hr2|]. destruct res.
  - destruct Hres as [Hinv2 _]. rewrite (inv_tip _ _ _ _ _ Hinv2), bool_decide_eq_false_2 by done. by apply (Hnext s2 tip2 r2 None).
  - destruct Hres as [Hcl2 _]. pose proof Hcl2 as [Hinv2 Hm2 Hmax2 _ _]. cbv zeta iota. rewrite (inv_tip _ _ _ _ _ Hinv2). case_bool_decide as Etip2.
    + injection Etip2 as ->. destruct (settled_best n N s2 m r2 Hinv2 Hm2 Hmax2) as [Hset ->].
      destruct (settled_flush n N s2 m FLUSH_STATE_PERIODIC Hset) as (s3 & -> & Hset3 & Hev3). exists s3, m. split_and!; [done|done|done|apply worse_irrefl].
    + apply (Hnext s2 tip2 r2 (Some m)); [split; [exact Hcl2|congruence]|done|done].
Qed.

Lemma activate_loop_ok n N pblock fuel : forall s tip r most, activating n N s tip r most -> pblock_ok s pblock -> steps_left n s tip most <= Z.of_nat fuel ->
  activated n N s r (activate_loop env params cfg machine fuel most pblock s).
Proof.
  induction fuel as [|fuel IH]; intros s tip r most Hact Hpb Hf; (eapply round_ok; [exact Hact|exact Hpb|]); intros s' tip' r' most' Hact' Hpb' Hlt.
  - pose proof (steps_left_nonneg _ _ _ _ _ _ Hact'). lia.
  - apply (IH s' tip' r' most' Hact' Hpb'). lia.
Qed.

(** The bound on the steps: the number of entries and their heights. *)
Definition activation_bound (n : Z) s : nat := Datatypes.S (size (cs_heap s)) * Z.to_nat n.

Lemma ActivateBestChain_ok n N s tip r pblock fuel : inv n N s tip r -> pblock_ok s pblock -> (activation_bound n s <= fuel)%nat ->
  activated n N s r (ActivateBestChain env params cfg machine fuel pblock s).
Proof.
  intros Hinv Hpb Hf. apply (activate_loop_ok n N pblock fuel s tip r None); [exact Hinv|exact Hpb|]. unfold steps_left, activation_bound in *.
  assert (Hl : (live s <= size (cs_heap s))%nat).
  { unfold live. rewrite <- size_dom. apply subseteq_size. intros p [_ Hp]%elem_of_filter. exact Hp. }
  pose proof (ix_n _ _ _ _ _ _ _ _ _ _ _ (st_index _ _ _ _ _ _ _ _ Hinv)). nia.
Qed.
End Activate.
