(* ===== verification/ChainAccept.v ===== *)
(** * Accepting headers and blocks

    A header that is accepted, a block that is received and the blocks it links
    keep the invariant of the chain state; so [ProcessNewBlock] leaves the best
    of the valid chains that have been received as the active chain. *)
From stdpp Require Import sorting.
From S2P Require Import Prelude StrEncodings Serialize Amount Crypto Script Transaction Cash ArithUint256 Block Chain Pow VersionBits Merkle.
From S2P Require Import Interpreter InterpreterSafety SigHash TxVerify Compressor CheckBlock Connect ConnectSpec ConnectProps.
From S2P Require Import ChainState ChainGrowth ChainStateInv ChainActivate.

#[local] Opaque SHA256 SHA1 RIPEMD160 Hash160 Hash Hash2 GetHash GetWitnessHash CBlockHeader_GetHash.

(** ** Heaps that grow *)

(** The old entries keep what was received and whether they failed. *)
Record keeps (h h' : Heap) : Prop := {
  kp_grows : grows h h';
  kp_tx : forall q, is_Some (h !! q) -> nTx (at_ h' q) = nTx (at_ h q);
  kp_chain : forall q, is_Some (h !! q) -> nChainTx (at_ h' q) = nChainTx (at_ h q);
  kp_seq : forall q, is_Some (h !! q) -> nSequenceId (at_ h' q) = nSequenceId (at_ h q);
  kp_status : forall q, is_Some (h !! q) -> nStatus (at_ h' q) = nStatus (at_ h q);
}.

Lemma same_links_size h h' : same_links h h' -> size h' = size h.
Proof.
  intros Hl. rewrite <- !(size_dom (D := gset Ptr)). f_equal. apply set_eq. intros p. rewrite !elem_of_dom. by destruct (same_links_at _ _ p Hl) as (-> & _).
Qed.

Lemma insert_keeps h p e : h !! p = None -> keeps h (<[p := e]> h).
Proof.
  intros Hp. assert (Hne : forall q, is_Some (h !! q) -> at_ (<[p := e]> h) q = at_ h q) by (intros q [x Hx]; apply at_insert_ne; congruence).
  split; [by apply insert_grows|intros q Hq; by rewrite Hne..].
Qed.

Lemma path_tx_grows h h' : heap_ok h -> grows h h' -> (forall q, is_Some (h !! q) -> nTx (at_ h' q) = nTx (at_ h q)) ->
  forall n p, is_Some (h !! p) -> path_tx h' n p = path_tx h n p.
Proof.
  intros Hh Hg Ht. induction n as [|n IH]; intros p Hp; cbn [path_tx]; rewrite Ht by done; [done|].
  destruct (grows_at h h' Hg p Hp) as (_ & -> & _). destruct (pprev (at_ h p)) as [q|] eqn:Eq; [|done]. by rewrite IH by (by eapply prev_in).
Qed.

Lemma path_sum_grows h h' p : heap_ok h -> grows h h' -> (forall q, is_Some (h !! q) -> nTx (at_ h' q) = nTx (at_ h q)) ->
  is_Some (h !! p) -> path_sum h' p = path_sum h p.
Proof. intros Hh Hg Ht Hp. unfold path_sum. destruct (grows_at h h' Hg p Hp) as (_ & _ & -> & _). by apply path_tx_grows. Qed.

Lemma clean_grows h h' p : heap_ok h -> grows h h' -> (forall q, is_Some (h !! q) -> failed_bits (nStatus (at_ h' q)) = failed_bits (nStatus (at_ h q))) ->
  is_Some (h !! p) -> clean h' p <-> clean h p.
Proof.
  intros Hh Hg Hf Hp. split; intros Hc q Hq.
  - rewrite <- Hf by (by eapply ancestor_in). apply Hc. by apply (grows_ancestor h h').
  - apply (grows_ancestor h h') in Hq; [|done..]. rewrite Hf by (by eapply ancestor_in). by apply Hc.
Qed.

Lemma worse_grows h h' p q : grows h h' -> is_Some (h !! p) -> is_Some (h !! q) ->
  nSequenceId (at_ h' p) = nSequenceId (at_ h p) -> nSequenceId (at_ h' q) = nSequenceId (at_ h q) -> worse h' p q <-> worse h p q.
Proof.
  intros Hg Hp Hq Ep Eq. unfold worse. cbv zeta. destruct (grows_at h h' Hg p Hp) as (_ & _ & _ & -> & _), (grows_at h h' Hg q Hq) as (_ & _ & _ & -> & _). by rewrite Ep, Eq.
Qed.

Section Growing.
Context `{Arr : !Arrivals} (env : ScriptEnv) (params : Params) (scripts : gset uint256).
Abbreviation reach := (reaches env params scripts).

(** The active chain and the candidates when the index grows and blocks are
    linked: the candidates gain blocks that are not worse than the tip. *)
Section Grows.
Context (h h' : Heap) (blocks blocks' : gmap Ptr CBlock) (undos : gmap Ptr CBlockUndo) (Hh : heap_ok h) (Hh' : heap_ok h') (Hg : grows h h').
Context (Hb : forall q b, blocks !! q = Some b -> blocks' !! q = Some b).
Context (Hf : forall q, is_Some (h !! q) -> failed_bits (nStatus (at_ h' q)) = failed_bits (nStatus (at_ h q))).
Context (Hl : forall q, is_Some (h !! q) -> linked h q -> linked h' q /\ nSequenceId (at_ h' q) = nSequenceId (at_ h q)).

Lemma active_grows {S : Type} `{!CashView S} `{!CashViewOk S} `{!ScriptMemory} chain (view : CCashViewCache S) tip :
  active_ok env params scripts h blocks undos chain view tip -> active_ok env params scripts h' blocks' undos chain view tip.
Proof.
  intros [A1 A2 A3 A4 A5 A6 A7]. split.
  - by eapply grows_is_Some.
  - rewrite A2. symmetry. by apply grows_chain_of.
  - by apply (clean_grows h h').
  - by apply Hl.
  - done.
  - by apply (reaches_grows _ _ _ h h' blocks blocks' undos undos tip _ Hh Hh' Hg).
  - by destruct (grows_at h h' Hg tip A1) as (-> & _).
Qed.

Lemma cands_grows cands cands' tip r : is_Some (h !! tip) -> linked h tip ->
  (forall q, is_Some (h' !! q) -> linked h' q -> (is_Some (h !! q) /\ linked h q) \/ q ∈ cands' \/ worse h' q r) ->
  cands ⊆ cands' -> (forall q, q ∈ cands' -> q ∈ cands \/ (is_Some (h' !! q) /\ linked h' q /\ ~ worse h' q tip)) ->
  cands_ok env params scripts h blocks undos cands tip r -> cands_ok env params scripts h' blocks' undos cands' tip r.
Proof.
  intros Ht Hlt Hnew Hsub Hsound [C1 C2 C3 C4 C5 C6 C7].
  assert (Hw : forall a b, is_Some (h !! a) -> linked h a -> is_Some (h !! b) -> linked h b -> worse h' a b <-> worse h a b).
  { intros a b Ha Hla Hb' Hlb. apply worse_grows; [done..|by apply Hl|by apply Hl]. }
  split.
  - intros q [Hq|Hq]%Hsound; [|exact Hq]. destruct (C1 q Hq) as (Q1 & Q2 & Q3). split_and!; [by eapply grows_is_Some|by apply Hl|by rewrite Hw].
  - intros q Hq Hlq Hc Hwr. destruct (Hnew q Hq Hlq) as [[Q1 Q2]|[Q|Q]]; [|done|done]. apply Hsub, C2; [done|done|by apply (clean_grows h h')|by rewrite <- Hw].
  - by eapply grows_is_Some.
  - by apply Hl.
  - by apply (clean_grows h h').
  - destruct C6 as [u Hu]. exists u. exact (reaches_grows _ _ _ h h' blocks blocks' undos undos r u Hh Hh' Hg Hb (fun q x Hx => Hx) Hu).
  - by rewrite Hw.
Qed.
End Grows.

(** ** A new header *)

Lemma target_work params' nBits : uint256_ok (powLimit params') -> target_valid params' nBits -> 0 < block_work nBits.
Proof.
  intros Hlim [Hs [H0 Hv]]. pose proof (le_value_range (powLimit params') (proj2 Hlim)) as Hr. fold (zlen (powLimit params')) in Hr. rewrite (proj1 Hlim) in Hr. change (256 ^ 32) with (2 ^ 256) in Hr.
  unfold block_work. replace (_ || _) with false; [apply Z.div_str_pos; lia|]. symmetry. apply orb_false_iff. split; [apply orb_false_iff; split|].
  - apply andb_false_iff. destruct (Z.eqb_spec (compact_word nBits) 0); [by left|]. right. apply not_true_iff_false. tauto.
  - apply Z.leb_gt. lia.
  - apply Z.eqb_neq. lia.
Qed.

(** A header that may arrive, within the ranges of its types, whose hash is not
    zero and which stands for at most 2^224 hashes. *)
Record header_in (b : CBlockHeader) : Prop := {
  hd_bits : is_u32 (bh_nBits b);
  hd_time : is_u32 (bh_nTime b);
  hd_hash : uint256_IsNull (CBlockHeader_GetHash b) = false;
  hd_arrives : arrives_header b;
  hd_work : block_work (bh_nBits b) <= 2 ^ 224;
}.

Lemma index_insert n N t t' failed l blocks undos caches unlinked p e q : uint256_ok (powLimit params) ->
  index_ok env params scripts n N t failed blocks undos caches unlinked -> n + 1 <= 2 ^ 30 -> accepted params l (n + 1) t' ->
  bt_heap t !! p = None -> bt_heap t' = <[p := e]> (bt_heap t) -> mapBlockIndex t' = <[phashBlock e := p]> (mapBlockIndex t) -> mapBlockIndex t !! phashBlock e = None ->
  pprev e = Some q -> is_Some (bt_heap t !! q) -> entry_in (bt_heap t') p -> target_valid params (bi_nBits e) -> block_work (bi_nBits e) <= 2 ^ 224 ->
  nTx e = 0 -> nChainTx e = 0 -> nStatus e = BLOCK_VALID_TREE ->
  index_ok env params scripts (n + 1) N t' failed blocks undos caches unlinked.
Proof.
  intros Hlim Hix Hn [Hacc _ Hlow Hgen] Hp Hins Hmap Hno Hq Hqs Hhash Htv Hbw Etx Ect Est. pose proof (ix_heap _ _ _ _ _ _ _ _ _ _ _ Hix) as Hh.
  pose proof (tree_heap _ (hi_tree _ _ Hacc)) as Hh'. pose proof (insert_keeps _ p e Hp) as Hk. rewrite <- Hins in Hk. destruct Hk as [Hg K1 K2 K3 K4].
  pose proof (target_work params (bi_nBits e) Hlim Htv) as Hw0.
  assert (Hold : forall x, is_Some (bt_heap t' !! x) -> (x <> p /\ is_Some (bt_heap t !! x) /\ at_ (bt_heap t') x = at_ (bt_heap t) x) \/ (x = p /\ at_ (bt_heap t') x = e)).
  { intros x. rewrite Hins. destruct (decide (p = x)) as [<-|Hne]; [right; by rewrite at_insert_eq|]. rewrite lookup_insert_ne, at_insert_ne by done. left. done. }
  assert (Eq' : at_ (bt_heap t') q = at_ (bt_heap t) q) by (rewrite Hins; apply at_insert_ne; intros ->; destruct Hqs; congruence).
  assert (Hpin : is_Some (bt_heap t' !! p)) by (rewrite Hins, lookup_insert_eq; by eexists).
  assert (Ep : at_ (bt_heap t') p = e) by (rewrite Hins; apply at_insert_eq).
  assert (Hwork : val (nChainWork e) = val (nChainWork (at_ (bt_heap t) q)) + block_work (bi_nBits e) /\ val (nChainWork e) <= (Chain.nHeight e + 1) * 2 ^ 224).
  { destruct (tree_work _ (hi_tree _ _ Hacc) p Hpin) as [_ E]. rewrite Ep, Hq, Eq' in E. destruct (ix_height _ _ _ _ _ _ _ _ _ _ _ Hix q Hqs) as [Hq0 Hqn].
    pose proof (ix_bound _ _ _ _ _ _ _ _ _ _ _ Hix q Hqs). destruct (at_ok _ Hh' p Hpin) as [_ Hprev _]. rewrite Ep, Hq, Eq' in Hprev. destruct Hprev as [_ Hhq].
    pose proof (arith_val_range _ (proj1 (tree_work _ (hi_tree _ _ (ix_headers _ _ _ _ _ _ _ _ _ _ _ Hix)) q Hqs))). pose proof (ix_n _ _ _ _ _ _ _ _ _ _ _ Hix).
    rewrite Z.mod_small in E; [rewrite E; split; nia|]. nia. }
  destruct Hwork as [Hw1 Hw2]. pose proof (fun x Hx => path_sum_grows _ _ x Hh Hg K1 Hx) as Hsum.
  destruct Hix as [H1 H2 H3 H4 H5 H6 H7 H8 H9 HL H10 H11 H12 H13 H14 H15 H16 H17 H18 H19 H20].
  assert (Hg' : forall x, mapBlockIndex t !! hashGenesisBlock params = Some x -> mapBlockIndex t' !! hashGenesisBlock params = Some x).
  { intros x Hx. rewrite Hmap, lookup_insert_ne; [done|]. intros E. rewrite E, Hx in Hno. done. }
  split; [done|done|lia|done| | | | | | | | | | |done| | | | | |done].
  - intros x Hx Hnone. destruct (Hold x Hx) as [(_ & Hxs & Ex)|[-> Ex]]; rewrite Ex in Hnone; [by apply Hg', H5|congruence].
  - intros x Hx. rewrite Hins. by apply failed_flag_insert, H6.
  - intros x Hx. destruct (Hold x Hx) as [(_ & Hxs & ->)|[-> ->]]; [by apply H7|done].
  - intros x y Hx Hy. destruct (Hold x Hx) as [(_ & Hxs & Ex)|[-> Ex]]; rewrite Ex in *.
    + destruct (grows_at _ _ Hg y (prev_in _ Hh x y Hxs Hy)) as (_ & _ & _ & -> & _). by apply H8.
    + assert (y = q) as -> by congruence. rewrite Eq'. lia.
  - intros x Hx. destruct (Hold x Hx) as [(_ & Hxs & Ex)|[-> _]]; [|done]. apply (entry_in_grows (bt_heap t) _ x Hh Hg Hxs); [by rewrite Ex|by apply H9].
  - intros x Hx. destruct (Hold x Hx) as [(_ & Hxs & ->)|[-> ->]]; [by apply HL|rewrite Est; done].
  - intros x Hx. destruct (Hold x Hx) as [(_ & Hxs & ->)|[-> ->]]; [by apply H10|]. intros _. split_and!; [done|done|].
    destruct (blocks !! p) as [b|] eqn:Eb; [|done]. destruct (H15 p b Eb) as ([y Hy] & _). congruence.
  - intros x Hx. destruct (Hold x Hx) as [(_ & Hxs & ->)|[-> ->]]; [by apply H11|]. by rewrite Est.
  - intros x Hx Hl. destruct (Hold x Hx) as [(_ & Hxs & Ex)|[-> Ex]]; unfold linked in *; rewrite Ex in *; [|done]. rewrite Hsum by done.
    destruct (H12 x Hxs Hl) as [E1 E2]. split; [done|]. intros y Hy. rewrite K2 by (by eapply prev_in). by apply E2.
  - intros x Hx. destruct (Hold x Hx) as [(_ & Hxs & _)|[-> Ex]]; [rewrite Hsum by done; by apply H13|]. rewrite path_sum_step, Ex, Etx, Hq, Hsum by done. specialize (H13 q Hqs). lia.
  - intros x b Hb. destruct (H15 x b Hb) as (B1 & B2 & B3). destruct (grows_at _ _ Hg x B1) as (-> & _). split_and!; [by eapply grows_is_Some|done..].
  - intros x Hx Hu. destruct (Hold x Hx) as [(_ & Hxs & Ex)|[-> Ex]]; rewrite Ex in Hu; [|by rewrite Est in Hu]. destruct (H16 x Hxs Hu) as [u Hr]. exists u.
    exact (reaches_grows _ _ _ (bt_heap t) (bt_heap t') blocks blocks undos undos x u Hh Hh' Hg (fun q b Hb => Hb) (fun q b Hb => Hb) Hr).
  - intros x y Hy. destruct (H17 x y Hy) as [U1 U2]. split; [by eapply grows_is_Some|]. by rewrite K4.
  - exact (grows_deployments _ _ Hh Hg params caches H18).
  - intros x c Hxc. destruct (H19 x c Hxc) as (U1 & U2 & U3 & U4). unfold linked. rewrite K2, K4 by done. destruct (grows_at _ _ Hg c U1) as (_ & -> & _).
    split_and!; [by eapply grows_is_Some|done..].
Qed.
End Growing.

(** ** What the blocks wait for, and why they failed *)

Section Sound.
Context `{Arr : !Arrivals} (env : ScriptEnv) (params : Params) (scripts : gset uint256).
Abbreviation is_refused := (refused env params scripts).

(** A block that is stored and not linked is in the queue, or waits for its
    parent, or its parent failed; a block that failed does not follow the rules, or
    is on top of one that does not, or on top of one that was never stored because
    its checks failed, or on top of one with a hash in [manual]. *)
Record explained (manual : gset uint256) (h : Heap) (blocks : gmap Ptr CBlock) (unlinked : list (Ptr * Ptr)) (queue : list Ptr) : Prop := {
  sd_waits : forall p, is_Some (blocks !! p) -> ~ linked h p -> p ∈ queue \/
    exists q, pprev (at_ h p) = Some q /\ (failed_bits (nStatus (at_ h q)) <> 0 \/ (~ linked h q /\ (q, p) ∈ unlinked));
  sd_reason : forall p, is_Some (h !! p) -> failed_bits (nStatus (at_ h p)) <> 0 ->
    exists a, ancestor h p a /\ ((failed_bits (nStatus (at_ h a)) <> 0 /\ blocks !! a = None) \/ is_refused h blocks a \/ phashBlock (at_ h a) ∈ manual);
}.

(** And the blocks with these hashes are there and have failed. *)
Record sound (manual : gset uint256) (h : Heap) (blocks : gmap Ptr CBlock) (unlinked : list (Ptr * Ptr)) (queue : list Ptr) : Prop := {
  sd_explained : explained manual h blocks unlinked queue;
  sd_manual : forall x, x ∈ manual -> exists p, is_Some (h !! p) /\ phashBlock (at_ h p) = x /\ failed_bits (nStatus (at_ h p)) <> 0;
}.

Lemma sound_evolves {S : Type} manual queue (s s' : ChainState S) :
  heap_ok (cs_heap s) -> evolves env params scripts s s' ->
  sound manual (cs_heap s) (block_files s) (mapBlocksUnlinked s) queue -> sound manual (cs_heap s') (block_files s') (mapBlocksUnlinked s') queue.
Proof.
  intros Hh Hev [[D1 D2] D3]. pose proof (ev_links _ _ _ _ _ Hev) as Hl. pose proof (same_links_heap_ok _ _ Hl Hh) as Hh'.
  rewrite (ev_files _ _ _ _ _ Hev), (ev_unlinked _ _ _ _ _ Hev). split; [split|].
  - intros p Hb. rewrite (evolves_link _ _ _ _ _ Hev), (evolves_prev _ _ _ _ _ Hev). intros Hp. destruct (D1 p Hb Hp) as [?|(q & Hq & Hw)]; [by left|]. right. exists q.
    rewrite (evolves_link _ _ _ _ _ Hev). split; [done|]. destruct Hw as [Hw|Hw]; [left|by right]. intros Hz. by apply Hw, Hev.
  - intros p. rewrite (evolves_in _ _ _ _ _ Hev). intros Hp Hf.
    assert (exists a, ancestor (cs_heap s) p a /\ ((failed_bits (nStatus (at_ (cs_heap s) a)) <> 0 /\ block_files s !! a = None) \/ is_refused (cs_heap s) (block_files s) a \/ phashBlock (at_ (cs_heap s) a) ∈ manual)) as (a & Ha & Hw).
    { destruct (Z.eq_dec (failed_bits (nStatus (at_ (cs_heap s) p))) 0) as [Hz|Hf0]; [|by apply D2].
      destruct (ev_reason _ _ _ _ _ Hev Hh p Hf Hz) as (a & Ha & [Hfa|Hr]); [|exists a; auto]. destruct (D2 a (proj1 (ancestor_in _ _ _ Hh Hp Ha)) Hfa) as (b & Hb & Hw).
      exists b. split; [by eapply ancestor_trans|done]. }
    exists a. split; [by apply (evolves_ancestor _ _ _ _ _ Hev)|]. rewrite (evolves_hash _ _ _ _ _ Hev). destruct Hw as [[Hw1 Hw2]|[Hw|Hw]]; [left|right; left|by right; right].
    + split; [|done]. intros Hz. by apply Hw1, Hev.
    + eapply (refused_grows _ _ _ (cs_heap s)); [exact Hh|exact Hh'|by apply same_links_grows|done|exact Hw].
  - intros x Hx. destruct (D3 x Hx) as (p & Hs & Hh0 & Hf). exists p. rewrite (evolves_in _ _ _ _ _ Hev), (evolves_hash _ _ _ _ _ Hev). split_and!; [done|done|]. intros Hz. by apply Hf, Hev.
Qed.

(** The index gets an entry that has not failed and was not received. *)
Lemma sound_insert manual h blocks unlinked queue p e : heap_ok h -> heap_ok (<[p := e]> h) -> h !! p = None -> failed_bits (nStatus e) = 0 ->
  (forall q, is_Some (blocks !! q) -> is_Some (h !! q)) ->
  sound manual h blocks unlinked queue -> sound manual (<[p := e]> h) blocks unlinked queue.
Proof.
  intros Hh Hh' Hp He Hdom [[D1 D2] D3]. pose proof (insert_grows h p e Hp) as Hg. pose proof (insert_keeps h p e Hp) as [_ _ K2 _ K4].
  assert (Hold : forall q, is_Some (h !! q) -> pprev (at_ (<[p := e]> h) q) = pprev (at_ h q)) by (intros q Hq; apply (grows_at _ _ Hg q Hq)).
  assert (Hph : forall q, is_Some (h !! q) -> phashBlock (at_ (<[p := e]> h) q) = phashBlock (at_ h q)) by (intros q Hq; apply (grows_at _ _ Hg q Hq)). split; [split|].
  - intros q Hb. pose proof (Hdom q Hb) as Hq. unfold linked. rewrite K2, Hold by done. intros Hl. destruct (D1 q Hb Hl) as [?|(r & Hr & Hw)]; [by left|].
    right. exists r. rewrite K2, K4 by (by eapply prev_in). done.
  - intros q Hq Hf. destruct (decide (p = q)) as [<-|Hne]; [by rewrite at_insert_eq in Hf|]. rewrite lookup_insert_ne in Hq by done. rewrite K4 in Hf by done.
    destruct (D2 q Hq Hf) as (a & Ha & Hw). exists a. split; [by apply (grows_ancestor h)|]. pose proof (proj1 (ancestor_in _ _ _ Hh Hq Ha)) as Has. rewrite K4, Hph by done.
    destruct Hw as [Hw|[Hw|Hw]]; [by left| |by right; right]. right. left. by eapply (refused_grows _ _ _ h).
  - intros x Hx. destruct (D3 x Hx) as (q & Hs & Ex & Hf). exists q. rewrite K4, Hph by done. split; [by eapply grows_is_Some|done].
Qed.

(** A block is marked as failed, for a reason. *)
Lemma explained_mark manual manual' h blocks unlinked queue p st : heap_ok h -> is_Some (h !! p) -> failed_bits st <> 0 -> manual ⊆ manual' ->
  blocks !! p = None \/ (exists a, ancestor h p a /\ (is_refused h blocks a \/ phashBlock (at_ h a) ∈ manual')) ->
  explained manual h blocks unlinked queue -> explained manual' (set_status h p st) blocks unlinked queue.
Proof.
  intros Hh Hp Hf Hman Hr [D1 D2]. pose proof (set_status_links h p st) as Hlk. pose proof (same_links_heap_ok _ _ Hlk Hh) as Hh'. set (h' := set_status h p st) in *.
  assert (Hst : forall x, failed_bits (nStatus (at_ h x)) <> 0 -> failed_bits (nStatus (at_ h' x)) <> 0) by (intros x Hx; unfold h'; rewrite set_status_at by done; by case_bool_decide).
  assert (Hph : forall x, phashBlock (at_ h' x) = phashBlock (at_ h x)) by (intros x; apply (same_links_at _ _ x Hlk)).
  assert (Hct : forall x, nChainTx (at_ h' x) = nChainTx (at_ h x)) by (intros x; by apply set_status_same).
  assert (Href : forall a, is_refused h blocks a -> is_refused h' blocks a) by (intros a; apply refused_grows; [done|done|by apply same_links_grows|done]).
  split.
  - intros x Hb. unfold linked. rewrite Hct. destruct (same_links_at _ _ x Hlk) as (_ & _ & -> & _). intros Hx.
    destruct (D1 x Hb Hx) as [?|(q & Hq & Hw)]; [by left|]. right. exists q. split; [done|]. rewrite Hct. destruct Hw as [Hw|Hw]; [left; by apply Hst|by right].
  - intros x. destruct (same_links_at _ _ x Hlk) as (<- & _). intros Hx Hfx. setoid_rewrite (same_links_ancestor _ _ _ _ Hlk). setoid_rewrite Hph. destruct (decide (x = p)) as [-> |Hne].
    + destruct Hr as [Hr|(a & Ha & [Hr|Hr])]; [exists p; split; [apply ancestor_refl|by left]|exists a; auto|exists a; auto].
    + unfold h' in Hfx. rewrite set_status_at, bool_decide_eq_false_2 in Hfx by done. destruct (D2 x Hx Hfx) as (a & Ha & Hw). exists a. split; [done|].
      destruct Hw as [[? ?]|[Hw|Hw]]; [left; by auto|right; left; by apply Href|right; right; by apply Hman].
Qed.

Lemma failed_mark (manual : gset uint256) h p st : is_Some (h !! p) -> failed_bits st <> 0 ->
  (forall x, x ∈ manual -> exists q, is_Some (h !! q) /\ phashBlock (at_ h q) = x /\ (q = p \/ failed_bits (nStatus (at_ h q)) <> 0)) ->
  forall x, x ∈ manual -> exists q, is_Some (set_status h p st !! q) /\ phashBlock (at_ (set_status h p st) q) = x /\ failed_bits (nStatus (at_ (set_status h p st) q)) <> 0.
Proof.
  intros Hp Hf Hm x Hx. destruct (Hm x Hx) as (q & Hq & Hh & Hw). exists q. destruct (same_links_at _ _ q (set_status_links h p st)) as (Hs & -> & _).
  rewrite <- Hs, set_status_at by done. split_and!; [done|done|]. destruct Hw as [-> |Hw]; [by rewrite bool_decide_eq_true_2|]. by case_bool_decide.
Qed.

Lemma sound_mark manual h blocks unlinked queue p st : heap_ok h -> is_Some (h !! p) -> failed_bits st <> 0 ->
  blocks !! p = None \/ (exists a, ancestor h p a /\ (is_refused h blocks a \/ phashBlock (at_ h a) ∈ manual)) ->
  sound manual h blocks unlinked queue -> sound manual (set_status h p st) blocks unlinked queue.
Proof.
  intros Hh Hp Hf Hr [D1 D2]. split; [by apply (explained_mark manual)|]. apply failed_mark; [done|done|]. intros x Hx. destruct (D2 x Hx) as (q & ? & ? & ?). exists q. auto.
Qed.
End Sound.

Lemma index_weaken `{!Arrivals} env params scripts n n' N N' t failed blocks undos caches unlinked : n <= n' <= 2 ^ 30 -> N <= N' < 2 ^ 32 ->
  index_ok env params scripts n N t failed blocks undos caches unlinked -> index_ok env params scripts n' N' t failed blocks undos caches unlinked.
Proof.
  intros Hn HN [H1 H2 H3 H4 H5 H6 H7 H8 H9 HL H10 H11 H12 H13 H14 H15 H16 H17 H18 H19 H20]. split; try done; [|lia| |lia].
  - intros p Hp. specialize (H2 p Hp). lia.
  - intros p Hp. specialize (H13 p Hp). lia.
Qed.

Section Accept.
Context `{Arr : !Arrivals} (env : ScriptEnv) (params : Params) (cfg : NodeConfig) (scripts : gset uint256) (Hcf : setting_ok env params cfg scripts).
Context (fCheckpointsEnabled : bool) (mapCheckpoints : list (Z * uint256)) (GetBlockWeight : CBlock -> Z).
Context {S : Type} `{!CashView S} `{!CashViewOk S} `{!ScriptMemory} `{!ScriptMemoryOk} (machine : Machine S).
Abbreviation State := (ChainState S).
Abbreviation inv := (state_ok env params scripts).
Abbreviation is_settled := (settled env params scripts).
Abbreviation is_sound := (sound env params scripts).
Abbreviation is_evolved := (evolves env params scripts).
Implicit Types (s : ChainState S).

(** The invariant between two messages: the tip is the best of the candidates. *)
Definition node (manual : gset uint256) (n N : Z) s (tip : Ptr) : Prop :=
  is_settled n N s tip /\ is_sound manual (cs_heap s) (block_files s) (mapBlocksUnlinked s) [].

Lemma inv_heap n N s tip r : inv n N s tip r -> heap_ok (cs_heap s).
Proof. intros [Hix _ _ _]. exact (ix_heap _ _ _ _ _ _ _ _ _ _ _ Hix). Qed.

Lemma node_evolves manual n N s s' tip : node manual n N s tip -> is_evolved s s' -> inv n N s' tip tip -> node manual n N s' tip.
Proof.
  intros [[Hinv Hmax] Hsd] Hev Hinv'. split; [split; [exact Hinv'|]|exact (sound_evolves _ _ _ manual [] s s' (inv_heap _ _ _ _ _ Hinv) Hev Hsd)].
  intros p Hp%(ev_cands _ _ _ _ _ Hev). rewrite (evolves_worse _ _ _ _ _ Hev). by apply Hmax.
Qed.

(** ** Headers *)

Lemma mark_children_state n N f tip r k : forall s fuel walk, inv n N s tip r -> is_Some (cs_heap s !! walk) -> (k < fuel)%nat -> back (cs_heap s) k walk = Some f ->
  failed_bits (nStatus (at_ (cs_heap s) f)) <> 0 ->
  exists h', mark_children fuel (cs_heap s) walk f = Ok h' /\ inv n N (set_heap s h') tip r /\ is_evolved s (set_heap s h').
Proof.
  assert (Hstay : forall s, inv n N s tip r -> inv n N (set_heap s (cs_heap s)) tip r /\ is_evolved s (set_heap s (cs_heap s))).
  { intros s Hinv. assert (Et : cs_tree (set_heap s (cs_heap s)) = cs_tree s) by (unfold set_heap, cs_heap; cbn; by destruct (cs_tree s)). split; [|by apply evolves_tree].
    destruct Hinv as [H1 H2 H3 H4]. split; rewrite ?Et; [exact H1|exact H2|exact H3|exact H4]. }
  induction k as [|k IH]; intros s fuel walk Hinv Hw Hf Hb Hx.
  - injection Hb as <-. exists (cs_heap s). split; [destruct fuel; cbn [mark_children]; by rewrite bool_decide_eq_true_2|]. by apply Hstay.
  - destruct fuel as [|fuel]; [lia|]. cbn [mark_children]. case_bool_decide as He; [exists (cs_heap s); split; [done|by apply Hstay]|].
    pose proof (inv_heap _ _ _ _ _ Hinv) as Hh. cbn [back] in Hb. destruct (pprev (at_ (cs_heap s) walk)) as [q|] eqn:Eq; [|done]. cbn in Hb.
    assert (Ha : ancestor (cs_heap s) walk f) by (exists (Datatypes.S k); cbn [back]; by rewrite Eq).
    destruct (mark_ok env params scripts n N s _ tip r walk f Hinv Hw Ha Hx (or_introl eq_refl)) as (Hinv1 & Hev1 & Hx1).
    fold (or_status (cs_heap s) walk BLOCK_FAILED_CHILD). set (s1 := set_heap s (or_status (cs_heap s) walk BLOCK_FAILED_CHILD)) in *.
    change (or_status (cs_heap s) walk BLOCK_FAILED_CHILD) with (cs_heap s1).
    destruct (IH s1 fuel q Hinv1) as (h' & -> & Hinv2 & Hev2); [apply (evolves_in _ _ _ _ _ Hev1); by eapply prev_in|lia| |exact Hx1|].
    + by rewrite (same_links_back _ _ _ (ev_links _ _ _ _ _ Hev1)).
    + exists h'. split; [done|]. change (set_heap s1 h') with (set_heap s h') in *. split; [exact Hinv2|]. by eapply evolves_trans.
Qed.

Lemma not_failed st : failed_bits st = 0 -> Z.land st BLOCK_FAILED_VALID = 0.
Proof. intros Hz. change BLOCK_FAILED_VALID with (Z.land BLOCK_FAILED_MASK BLOCK_FAILED_VALID). unfold failed_bits in Hz. by rewrite Z.land_assoc, Hz. Qed.

Lemma failed_loop_state n N s tip r prev l h' : inv n N s tip r -> is_Some (cs_heap s !! prev) -> (forall p, p ∈ l -> p ∈ g_failed_blocks s) ->
  failed_loop (cs_heap s) prev l = Ok (Some h') -> inv n N (set_heap s h') tip r /\ is_evolved s (set_heap s h').
Proof.
  intros Hinv Hp. pose proof (inv_heap _ _ _ _ _ Hinv) as Hh. induction l as [|f l IH]; intros Hl; cbn [failed_loop]; [done|].
  rewrite GetAncestor_ok by done. cbn [mbind result_bind]. case_bool_decide as Ha; [|apply IH; intros p Hin; by apply Hl, list_elem_of_further].
  destruct (ix_failed _ _ _ _ _ _ _ _ _ _ _ (st_index _ _ _ _ _ _ _ _ Hinv) f (Hl f (list_elem_of_here _ _))) as [Hs Hfl].
  destruct (_ && _) eqn:E; [|done]. apply andb_true_iff in E as [E1%Z.leb_le E2%Z.leb_le].
  assert (Hfb : failed_bits (nStatus (at_ (cs_heap s) f)) <> 0) by (intros Hz; by apply Hfl, not_failed).
  destruct (mark_children_state n N f tip r (Z.to_nat (Chain.nHeight (at_ (cs_heap s) prev) - Chain.nHeight (at_ (cs_heap s) f))) s (Datatypes.S (Z.to_nat (Chain.nHeight (at_ (cs_heap s) prev)))) prev Hinv Hp ltac:(lia) Ha Hfb) as (h1 & -> & H1 & H2).
  destruct (negb _); [|done]. cbn. by intros [= <-].
Qed.

Lemma AddToBlockIndex_node manual n N s tip b p t' l prev : node manual n N s tip -> n + 1 <= 2 ^ 30 -> header_in b ->
  AddToBlockIndex b (cs_tree s) = Ok (p, t') -> accepted params l (n + 1) t' -> mapBlockIndex (cs_tree s) !! CBlockHeader_GetHash b = None ->
  mapBlockIndex (cs_tree s) !! hashPrevBlock b = Some prev -> target_valid params (bh_nBits b) ->
  node manual (n + 1) N (set_tree s t') tip /\ failed_bits (nStatus (at_ (bt_heap t') p)) = 0.
Proof.
  intros [[[Hix Hac Hck Hsc] Hmax] Hsd] Hn [B1 B2 B3 Barr B4] Hadd Hacc Hno Hprev Htv. pose proof (ix_heap _ _ _ _ _ _ _ _ _ _ _ Hix) as Hh.
  assert (Hne : CBlockHeader_GetHash b <> hashPrevBlock b) by (intros E; rewrite E in Hno; congruence).
  destruct (AddToBlockIndex_new b _ p t' Hno Hne Hadd) as (Hp & Hmap & e & Hins & Epp & Eph & Etm & Ebits & Etx & Ect & Est). rewrite Hprev in Epp. pose proof Hno as Hno0. rewrite <- Eph in Hmap, Hno, B3. rewrite <- Ebits in Htv, B4.
  destruct (tree_map _ (hi_tree _ _ (ix_headers _ _ _ _ _ _ _ _ _ _ _ Hix)) _ _ Hprev) as [Hqs _].
  assert (Hentry : entry_in (bt_heap t') p).
  { split; [rewrite Hins, at_insert_eq; exact B3|]. exists b. split; [exact Barr|]. unfold entry_of. cbv zeta. rewrite (AddToBlockIndex_version b _ p t' Hno0 Hadd), Hins, at_insert_eq.
    split_and!; [done..|]. rewrite Epp. intros q [= <-]. rewrite at_insert_ne by (intros ->; destruct Hqs; congruence).
    by destruct (tree_map _ (hi_tree _ _ (ix_headers _ _ _ _ _ _ _ _ _ _ _ Hix)) _ _ Hprev) as [_ ->]. }
  pose proof (index_insert env params scripts n N (cs_tree s) t' _ l _ _ _ _ p e prev (params_limit _ (cf_params _ _ (proj1 Hcf))) Hix Hn Hacc Hp Hins Hmap Hno Epp Hqs Hentry Htv B4 Etx Ect Est) as Hix'.
  pose proof (tree_heap _ (hi_tree _ _ (acc_inv _ _ _ _ Hacc))) as Hh'. pose proof (insert_keeps (cs_heap s) p e Hp) as Hk. unfold cs_heap in Hk. rewrite <- Hins in Hk. fold (cs_heap s) in Hk. destruct Hk as [Hg K1 K2 K3 K4].
  assert (Hnew : forall q, is_Some (bt_heap t' !! q) -> linked (bt_heap t') q -> is_Some (cs_heap s !! q) /\ linked (cs_heap s) q).
  { intros q Hq Hl. destruct (decide (p = q)) as [<-|Hne']; [unfold linked in Hl; by rewrite Hins, at_insert_eq, Ect in Hl|].
    rewrite Hins, lookup_insert_ne in Hq by done. unfold linked in *. rewrite K2 in Hl by done. done. }
  split; [|rewrite Hins, at_insert_eq, Est; done]. split; [split; [split|]|].
  - exact Hix'.
  - apply (active_grows env params scripts (cs_heap s) (bt_heap t') (block_files s) (block_files s) (undo_files s) Hh Hh' Hg); [done|intros q Hq; by rewrite K4| |exact Hac].
    intros q Hq. unfold linked. rewrite K2, K3 by done. done.
  - apply (cands_grows env params scripts (cs_heap s) (bt_heap t') (block_files s) (block_files s) (undo_files s) Hh Hh' Hg) with (cands := setBlockIndexCandidates s); [done|intros q Hq; by rewrite K4| | | | |done|by left|exact Hck].
    + intros q Hq. unfold linked. rewrite K2, K3 by done. done.
    + apply Hac.
    + apply Hac.
    + intros q Hq Hl. left. by apply Hnew.
  - exact Hsc.
  - intros q Hq. destruct (ck_sound _ _ _ _ _ _ _ _ _ Hck q Hq) as (Hqs' & _). rewrite (worse_grows (cs_heap s) (bt_heap t')); [by apply Hmax|done|apply Hac|done|apply K3, Hac|by apply K3].
  - change (is_sound manual (bt_heap t') (block_files s) (mapBlocksUnlinked s) []). rewrite Hins in *. apply sound_insert; [exact Hh|exact Hh'|exact Hp|by rewrite Est| |exact Hsd].
    intros q [x Hx]. by apply (ix_blocks _ _ _ _ _ _ _ _ _ _ _ Hix q x).
Qed.

Lemma failed_in_order_ok s p : p ∈ failed_in_order s -> p ∈ g_failed_blocks s.
Proof. unfold failed_in_order. rewrite (merge_sort_Permutation Pos.le). by rewrite elem_of_elements. Qed.

Lemma node_weaken manual n n' N N' s tip : n <= n' <= 2 ^ 30 -> N <= N' < 2 ^ 32 -> node manual n N s tip -> node manual n' N' s tip.
Proof. intros Hn HN [[[H1 H2 H3 H4] Hmax] Hsd]. split; [split; [split; [by eapply index_weaken|done..]|done]|done]. Qed.

Lemma node_n manual n N s tip : node manual n N s tip -> 0 <= n <= 2 ^ 30 /\ N < 2 ^ 32.
Proof. intros [[[Hix _ _ _] _] _]. split; apply Hix. Qed.

(** The entry of a header that is accepted has not failed, unless it is the genesis block. *)
Lemma AcceptBlockHeader_node manual n N s tip l b time : node manual n N s tip -> n + 1 <= 2 ^ 30 -> header_in b -> (forall p, p ∈ l -> p ∈ g_failed_blocks s) ->
  exists v t', AcceptBlockHeader params fCheckpointsEnabled mapCheckpoints l b time (cs_tree s) = Ok (v, t') /\
    node manual (n + 1) N (set_tree s t') tip /\ (size (bt_heap t') <= Datatypes.S (size (cs_heap s)))%nat /\
    forall p, v = Valid p -> mapBlockIndex t' !! CBlockHeader_GetHash b = Some p /\
      (CBlockHeader_GetHash b <> hashGenesisBlock params -> failed_bits (nStatus (at_ (bt_heap t') p)) = 0).
Proof.
  intros Hno Hn Hb Hl. pose proof Hno as [[Hinv Hmax] Hsd]. pose proof (st_index _ _ _ _ _ _ _ _ Hinv) as Hix. pose proof (ix_n _ _ _ _ _ _ _ _ _ _ _ Hix) as Hn0.
  destruct (node_n _ _ _ _ _ Hno) as [_ HN].
  assert (Hstay : forall t, t = cs_tree s -> node manual (n + 1) N (set_tree s t) tip).
  { intros t ->. apply (node_weaken manual n (n + 1) N N); [lia|lia|]. destruct Hno as [[[H1 H2 H3 H4] ?] ?]. split; [split; [split; [exact H1|exact H2|exact H3|exact H4]|done]|done]. }
  destruct (AcceptBlockHeader_cases params (cf_params _ _ (proj1 Hcf)) (cf_limit _ _ (proj1 Hcf)) fCheckpointsEnabled mapCheckpoints l n (cs_tree s) b time) as (v & t' & E & Hcase);
    [by eapply ix_accepted|lia|apply Hb|apply Hb|]. exists v, t'. split; [exact E|]. destruct Hcase as [[-> Hv]|[(r & prev & h' & -> & -> & Hp & Hf)|(p & prev & -> & Hadd & Hacc & Hm & Hnew & Hprev & Htv)]].
  - split; [by apply Hstay|]. split; [unfold cs_heap; lia|]. intros p Hp. by apply Hv.
  - destruct (failed_loop_state n N s tip tip prev l h' Hinv Hp Hl Hf) as [H1 H2]. split; [|split; [|done]].
    2:{ pose proof (same_links_size _ _ (ev_links _ _ _ _ _ H2)) as Es. change (cs_heap (set_heap s h')) with h' in Es. cbn [bt_heap]. lia. }
    apply (node_weaken manual n (n + 1) N N); [lia|lia|]. by apply (node_evolves manual n N s).
  - destruct (AddToBlockIndex_node manual n N s tip b p t' l prev Hno Hn Hb Hadd Hacc Hnew Hprev Htv) as [H1 H2]. split; [exact H1|]. split; [|by intros ? [= <-]].
    assert (Hne : CBlockHeader_GetHash b <> hashPrevBlock b) by (intros E'; rewrite E' in Hnew; congruence).
    destruct (AddToBlockIndex_new b _ p t' Hnew Hne Hadd) as (Hp & _ & e & -> & _). rewrite map_size_insert_None by done. done.
Qed.

(** A batch of headers. *)
Lemma ProcessHeaders_node manual N tip l headers : forall n s last, node manual n N s tip -> n + zlen headers <= 2 ^ 30 -> Forall (fun x => header_in x.1) headers ->
  (forall p, p ∈ l -> p ∈ g_failed_blocks s) ->
  exists v t', ProcessNewBlockHeaders params fCheckpointsEnabled mapCheckpoints l headers last (cs_tree s) = Ok (v, t') /\ node manual (n + zlen headers) N (set_tree s t') tip /\
    Z.of_nat (size (bt_heap t')) <= Z.of_nat (size (cs_heap s)) + zlen headers.
Proof.
  induction headers as [|[b time] headers IH]; intros n s last Hno Hn Hall Hl; destruct (node_n _ _ _ _ _ Hno) as [Hn0 HN].
  - eexists _, _. split; [done|]. change (zlen []) with 0. rewrite !Z.add_0_r. split; [|done]. destruct Hno as [[[H1 H2 H3 H4] ?] ?]. split; [split; [split; [exact H1|exact H2|exact H3|exact H4]|done]|done].
  - apply Forall_cons_1 in Hall as [Hb Hall]. rewrite zlen_cons in *. pose proof (zlen_nonneg headers). cbn [ProcessNewBlockHeaders].
    destruct (AcceptBlockHeader_node manual n N s tip l b time Hno ltac:(lia) Hb Hl) as (v & t' & -> & Hno' & Hsz & _). cbn [mbind result_bind].
    destruct v as [p|r].
    + destruct (IH (n + 1) (set_tree s t') (Some p) Hno' ltac:(lia) Hall Hl) as (v & t2 & Hv & Hno2 & Hsz2). exists v, t2. split; [exact Hv|].
      change (set_tree (set_tree s t') t2) with (set_tree s t2) in Hno2. change (cs_heap (set_tree s t')) with (bt_heap t') in Hsz2. split; [by replace (n + (zlen headers + 1)) with (n + 1 + zlen headers) by lia|lia].
    + eexists _, t'. split; [done|]. split; [|lia]. eapply (node_weaken manual (n + 1)); [lia| |exact Hno']. lia.
Qed.

(** ** The checks of a block in its context *)

Lemma commitment_range v : forall o pos, -1 <= pos < o -> 0 <= o -> o + zlen v < 2 ^ 31 ->
  commitment_loop v o pos = -1 \/ 0 <= commitment_loop v o pos < o + zlen v.
Proof.
  induction v as [|x v IH]; intros o pos Hp Ho Hl; cbn [commitment_loop]; [change (zlen (@nil CTxOut)) with 0; lia|]. rewrite zlen_cons in *. pose proof (zlen_nonneg v).
  replace (o + (zlen v + 1)) with (o + 1 + zlen v) by lia. apply IH; [|lia|lia]. destruct (is_commitment _); [rewrite i32_small by (unfold is_i32; lia)|]; lia.
Qed.

Lemma cashbase_input tx : IsCashBase tx = true -> exists i, vin tx = [i].
Proof. unfold IsCashBase. destruct (vin tx) as [|i [|]]; [done|by exists i|done]. Qed.

Lemma check_commitment_total block : one_cashbase (vtx block) -> Forall tx_ok (vtx block) -> zlen (vtx block) < 2 ^ 31 -> exists v, check_commitment block = Ok v.
Proof.
  intros (tx & rest & E & Hcb & _) Htx Hn. rewrite E in Htx, Hn. apply Forall_cons_1 in Htx as [Htx _]. destruct (cashbase_input tx Hcb) as [i Hi].
  unfold check_commitment, GetWitnessCommitmentIndex, BlockWitnessMerkleRoot, first_tx. rewrite E.
  destruct (Z.eqb_spec (commitment_loop (vout tx) 0 (-1)) (-1)) as [|Hpos]; [by eexists|].
  destruct (ComputeMerkleRoot_spec (uint256_null :: map GetWitnessHash rest)) as (m & -> & _); [rewrite !zlen_cons in *; unfold zlen in *; by rewrite length_map|].
  cbn [mbind result_bind at_index]. change (at_index (tx :: rest) 0) with (Ok tx). cbn [mbind result_bind]. rewrite Hi. change (at_index [i] 0) with (Ok i). cbn [mbind result_bind].
  destruct (scriptWitness i) as [|w [|]]; [by eexists| |by eexists]. case_if; [by eexists|].
  pose proof (tx_ok_nout _ Htx). destruct (commitment_range (vout tx) 0 (-1)) as [|Hr]; [lia|lia|unfold MAX_SIZE in *; lia|done|].
  unfold at_index. destruct (lookup_lt_is_Some_2 (vout tx) (Z.to_nat (commitment_loop (vout tx) 0 (-1)))) as [o ->]; [unfold zlen in *; lia|]. cbn [mbind result_bind].
  case_if; by eexists.
Qed.

Lemma ContextualCheckBlock_total h block prev caches : heap_ok h -> times_monotone h -> is_Some (h !! prev) -> deployments_ok h params caches ->
  one_cashbase (vtx block) -> Forall tx_ok (vtx block) -> zlen (vtx block) < 2 ^ 31 ->
  exists v caches', ContextualCheckBlock params GetBlockWeight h block (Some prev) caches = Ok (v, caches') /\ deployments_ok h params caches'.
Proof.
  intros Hh Ht Hp Hd Hcb Htx Hn. unfold ContextualCheckBlock.
  destruct (deployment_state_ok h params (Some prev) DEPLOYMENT_CSV caches Hh Ht) as (csv & caches1 & -> & Hd1 & _); [by intros q [= <-]|done|done|]. cbn [mbind result_bind].
  assert (exists c, (if bool_decide (csv = THRESHOLD_ACTIVE) then Ok (GetMedianTimePast h prev) else Ok (GetBlockTime (header block))) = Ok c) as (c & ->) by (case_if; by eexists).
  cbn [mbind result_bind]. case_if; [by eexists _, _|].
  pose proof Hcb as (tx & rest & E & Hcb' & _). destruct (cashbase_input tx Hcb') as [i Hi].
  match goal with |- context [if BIP34Height params <=? ?x then _ else _] => assert (exists g, (if BIP34Height params <=? x
    then tx ← first_tx block; i ← at_index (vin tx) 0; Ok (starts_with (push_int64 x []) (scriptSig i)) else Ok true) = Ok g) as (g & ->) end.
  { case_if; [|by eexists]. unfold first_tx. rewrite E. change (at_index (tx :: rest) 0) with (Ok tx). cbn [mbind result_bind]. rewrite Hi. by eexists. }
  cbn [mbind result_bind]. case_if; [by eexists _, _|].
  destruct (deployment_state_ok h params (Some prev) DEPLOYMENT_SEGWIT caches1 Hh Ht) as (sw & caches2 & -> & Hd2 & _); [by intros q [= <-]|done|done|]. cbn [mbind result_bind].
  destruct (check_commitment_total block Hcb Htx Hn) as [v Ev]. rewrite Ev.
  assert (exists w, (if bool_decide (sw = THRESHOLD_ACTIVE) then Ok v else Ok (Valid false)) = Ok w) as (w & ->) by (case_if; by eexists).
  cbn [mbind result_bind]. by eexists _, _.
Qed.

(** ** A block that is received *)

Lemma received_sum h p f k : heap_ok h -> is_Some (h !! p) -> (forall e, link_data (f e) = link_data e) -> nTx (at_ h p) = 0 -> nTx (f (at_ h p)) = k -> 0 <= k ->
  forall q, is_Some (h !! q) -> path_sum (alter f p h) q <= path_sum h q + k /\ (~ ancestor h q p -> path_sum (alter f p h) q = path_sum h q).
Proof.
  intros Hh Hp Hf E0 Ek Hk. pose proof (alter_links h f p Hf) as Hl. pose proof (same_links_heap_ok _ _ Hl Hh) as Hh'.
  assert (forall m q, is_Some (h !! q) -> Chain.nHeight (at_ h q) < Z.of_nat m ->
    path_sum (alter f p h) q <= path_sum h q + k /\ (~ ancestor h q p -> path_sum (alter f p h) q = path_sum h q)) as Hall.
  { induction m as [|m IH]; intros q Hq Hm; destruct (at_ok h Hh q Hq) as [Hq0 Hprev _]; [lia|]. destruct (same_links_at _ _ q Hl) as (Hq' & _ & Epp & _). rewrite Hq' in Hq.
    rewrite (path_sum_step _ q Hh' Hq), Epp, alter_at by done. rewrite <- Hq' in Hq. rewrite (path_sum_step h q Hh Hq). destruct (pprev (at_ h q)) as [r|] eqn:Er.
    - destruct Hprev as [Hr Hhr]. destruct (IH r Hr ltac:(lia)) as [I1 I2]. case_bool_decide as E.
      + subst q. rewrite I2; [|intros Ha; apply ancestor_in in Ha; [lia|done..]]. split; [lia|]. intros Hn. destruct Hn. apply ancestor_refl.
      + split; [lia|]. intros Hn. rewrite I2; [done|]. intros Ha. apply Hn. eapply ancestor_trans; [by apply ancestor_prev|done].
    - case_bool_decide as E; [subst q|]; (split; [lia|done || (intros []; apply ancestor_refl)]). }
  intros q Hq. apply (Hall (Datatypes.S (Z.to_nat (Chain.nHeight (at_ h q)))) q Hq). destruct (at_ok h Hh q Hq). lia.
Qed.

Lemma index_receive n N t failed blocks undos caches caches' unlinked p b k file pos st :
  index_ok env params scripts n N t failed blocks undos caches unlinked -> is_Some (bt_heap t !! p) -> is_Some (pprev (at_ (bt_heap t) p)) \/ undo_bit (nStatus (at_ (bt_heap t) p)) = 0 ->
  data_bit (nStatus (at_ (bt_heap t) p)) = 0 -> block_good params b -> phashBlock (at_ (bt_heap t) p) = CBlockHeader_GetHash (header b) ->
  0 < k -> N + k < 2 ^ 32 -> failed_bits (nStatus (at_ (bt_heap t) p)) = 0 -> data_bit st <> 0 -> undo_bit st = undo_bit (nStatus (at_ (bt_heap t) p)) ->
  BLOCK_VALID_TRANSACTIONS <= level st ->
  deployments_ok (bt_heap t) params caches' ->
  index_ok env params scripts n (N + k) (mkBlockTree (alter (with_received k file pos st) p (bt_heap t)) (mapBlockIndex t) (pindexBestHeader t))
    failed (<[p := b]> blocks) undos caches' unlinked.
Proof.
  intros Hix Hp Hpp Hd Hg Hhash Hk HN Ef Ed Eu Elv Hdep. pose proof (ix_heap _ _ _ _ _ _ _ _ _ _ _ Hix) as Hh.
  destruct (ix_absent _ _ _ _ _ _ _ _ _ _ _ Hix p Hp Hd) as (Etx & Ect & Enb). assert (Hf : forall e, link_data (with_received k file pos st e) = link_data e) by done.
  pose proof (received_sum (bt_heap t) p (with_received k file pos st) k Hh Hp Hf Etx eq_refl ltac:(lia)) as Hsum.
  assert (Hl : forall q, is_Some (bt_heap t !! q) -> linked (alter (with_received k file pos st) p (bt_heap t)) q <-> linked (bt_heap t) q).
  { intros q Hq. unfold linked. rewrite alter_at by done. case_bool_decide as E; [subst q|done]. cbn [with_received nChainTx]. by rewrite Ect. }
  apply (index_alter env params scripts n N (N + k) t failed failed blocks (<[p := b]> blocks) undos undos caches caches' unlinked unlinked p (with_received k file pos st) Hix Hp Hf);
    cbn [with_received nStatus nTx nChainTx].
  - unfold BLOCK_VALID_TREE, BLOCK_VALID_TRANSACTIONS in *. lia.
  - done.
  - intros _. split_and!; [done|done|]. intros q _. rewrite lookup_insert_eq. by eexists.
  - intros q Hne. by rewrite lookup_insert_ne.
  - intros b'. by rewrite Enb.
  - intros b'. rewrite lookup_insert_eq. by intros [= <-].
  - intros q Hq Hlq%Hl; [|done]. destruct (ix_linked _ _ _ _ _ _ _ _ _ _ _ Hix q Hq Hlq) as [E1 E2]. split.
    + rewrite (proj2 (Hsum q Hq)); [|intros Ha; by apply (linked_ancestor _ _ _ _ _ _ _ _ _ _ _ Hix q p Hq Hlq Ha)]. rewrite <- E1, alter_at by done.
      case_bool_decide as E; [subst q; by rewrite Ect|done].
    + intros r Hr. apply Hl; [by eapply prev_in|by apply E2].
  - intros q Hq. pose proof (proj1 (Hsum q Hq)). pose proof (ix_total _ _ _ _ _ _ _ _ _ _ _ Hix q Hq). lia.
  - done.
  - done.
  - by left.
  - rewrite Eu. intros [?|[x Hx]]; [done|]. by destruct (ix_undos _ _ _ _ _ _ _ _ _ _ _ Hix p x Hx).
  - rewrite Eu. intros Hu. destruct (ix_undo _ _ _ _ _ _ _ _ _ _ _ Hix p Hp Hu) as [u Hr]. destruct Hpp as [[q Hq]|?]; [|done].
    destruct (reaches_inv _ _ _ _ _ _ _ _ _ Hr Hq) as (b1 & _ & _ & _ & Hb1 & _). congruence.
  - intros q Hq. destruct (ix_failed _ _ _ _ _ _ _ _ _ _ _ Hix q Hq) as [F1 F2]. split; [by apply (same_links_at _ _ q (alter_links (bt_heap t) (with_received k file pos st) p Hf))|].
    rewrite alter_at by done. case_bool_decide; [subst q|done]. by apply not_failed in Ef.
  - done.
  - intros q c Hqc. destruct (ix_unlinked _ _ _ _ _ _ _ _ _ _ _ Hix q c Hqc) as (U1 & U2 & U3 & U4). rewrite Hl by done. split_and!; [done|done| |done].
    rewrite alter_at by done. case_bool_decide; [by subst c|done].
  - apply Hix.
Qed.

(** ** Linking blocks *)

Lemma path_sum_nonneg h p : heap_ok h -> (forall q, is_Some (h !! q) -> 0 <= nTx (at_ h q)) -> is_Some (h !! p) -> 0 <= path_sum h p.
Proof.
  intros Hh Ht. unfold path_sum. generalize (Z.to_nat (Chain.nHeight (at_ h p))). intros n. revert p. induction n as [|n IH]; intros p Hp; cbn [path_tx]; pose proof (Ht p Hp); [lia|].
  destruct (pprev (at_ h p)) as [q|] eqn:Eq; [|lia]. pose proof (IH q (prev_in h Hh p q Hp Eq)). lia.
Qed.

Lemma ix_tx n N t failed blocks undos caches unlinked p : index_ok env params scripts n N t failed blocks undos caches unlinked -> is_Some (bt_heap t !! p) -> 0 <= nTx (at_ (bt_heap t) p).
Proof.
  intros Hix Hp. destruct (Z.eq_dec (data_bit (nStatus (at_ (bt_heap t) p))) 0) as [E|E].
  - destruct (ix_absent _ _ _ _ _ _ _ _ _ _ _ Hix p Hp E) as (-> & _). done.
  - destruct (ix_data _ _ _ _ _ _ _ _ _ _ _ Hix p Hp E) as (_ & ? & _). lia.
Qed.

(** The blocks that can be linked now. *)
Record ready (h : Heap) (unlinked : list (Ptr * Ptr)) (c : Ptr) : Prop := {
  rd_in : is_Some (h !! c);
  rd_data : data_bit (nStatus (at_ h c)) <> 0;
  rd_new : ~ linked h c;
  rd_parent : forall q, pprev (at_ h c) = Some q -> linked h q;
  rd_free : forall x, (x, c) ∉ unlinked;
}.

(** The number of transactions up to the block. *)
Lemma ready_sum n N t failed blocks undos caches unlinked p : index_ok env params scripts n N t failed blocks undos caches unlinked -> ready (bt_heap t) unlinked p ->
  u32 (match pprev (at_ (bt_heap t) p) with Some q => nChainTx (at_ (bt_heap t) q) | None => 0 end + nTx (at_ (bt_heap t) p)) = path_sum (bt_heap t) p /\
  0 < path_sum (bt_heap t) p.
Proof.
  intros Hix [Hp Hd Hl Hlq _]. pose proof (ix_heap _ _ _ _ _ _ _ _ _ _ _ Hix) as Hh.
  destruct (ix_data _ _ _ _ _ _ _ _ _ _ _ Hix p Hp Hd) as (_ & Htx & _). pose proof (ix_total _ _ _ _ _ _ _ _ _ _ _ Hix p Hp) as Htot. pose proof (ix_N _ _ _ _ _ _ _ _ _ _ _ Hix) as HN.
  rewrite (path_sum_step _ p Hh Hp) in *. destruct (pprev (at_ (bt_heap t) p)) as [q|] eqn:Hq; [|rewrite u32_small by (unfold is_u32; lia); lia].
  pose proof (prev_in _ Hh _ _ Hp Hq) as Hqs. pose proof (path_sum_nonneg _ q Hh (fun x Hx => ix_tx _ _ _ _ _ _ _ _ x Hix Hx) Hqs) as H0q.
  rewrite (proj1 (ix_linked _ _ _ _ _ _ _ _ _ _ _ Hix q Hqs (Hlq q eq_refl))) in *. rewrite u32_small by (unfold is_u32; lia). lia.
Qed.

Lemma index_link n N t failed blocks undos caches unlinked p seq : index_ok env params scripts n N t failed blocks undos caches unlinked -> ready (bt_heap t) unlinked p ->
  index_ok env params scripts n N (mkBlockTree (alter (with_linked (path_sum (bt_heap t) p) seq) p (bt_heap t)) (mapBlockIndex t) (pindexBestHeader t))
    failed blocks undos caches (filter (fun x => x.1 <> p) unlinked).
Proof.
  intros Hix Hrd. destruct (ready_sum _ _ _ _ _ _ _ _ _ Hix Hrd) as [_ Hpos]. destruct Hrd as [Hp Hd Hl Hlq Hfree]. pose proof (ix_heap _ _ _ _ _ _ _ _ _ _ _ Hix) as Hh.
  set (f := with_linked (path_sum (bt_heap t) p) seq). assert (Hf : forall e, link_data (f e) = link_data e) by done. set (h' := alter f p (bt_heap t)).
  pose proof (alter_links (bt_heap t) f p Hf) as Hlk. fold h' in Hlk.
  assert (Hat : forall x, nTx (at_ h' x) = nTx (at_ (bt_heap t) x) /\ nStatus (at_ h' x) = nStatus (at_ (bt_heap t) x)) by (intros x; unfold h'; rewrite alter_at by done; by case_bool_decide).
  assert (Hct : forall x, nChainTx (at_ h' x) = if bool_decide (p = x) then path_sum (bt_heap t) p else nChainTx (at_ (bt_heap t) x)) by (intros x; unfold h'; rewrite alter_at by done; by case_bool_decide).
  assert (Hkeep : forall x, linked (bt_heap t) x -> linked h' x) by (intros x Hx; unfold linked; rewrite Hct; case_bool_decide; [lia|done]).
  pose proof (fun x => path_sum_ext _ _ x Hlk (fun y => proj1 (Hat y))) as Hsum.
  apply (index_alter env params scripts n N N t failed failed blocks blocks undos undos caches caches unlinked _ p f Hix Hp Hf); fold h'; cbn [f with_linked nStatus nTx nChainTx]; try done.
  - by apply (ix_level _ _ _ _ _ _ _ _ _ _ _ Hix).
  - by apply (ix_data _ _ _ _ _ _ _ _ _ _ _ Hix).
  - intros b. by apply (ix_blocks _ _ _ _ _ _ _ _ _ _ _ Hix).
  - intros x Hx Hlx. rewrite Hsum, Hct. unfold linked in Hlx. rewrite Hct in Hlx. case_bool_decide as E.
    + subst x. split; [done|]. intros r Hr. by apply Hkeep, Hlq.
    + destruct (ix_linked _ _ _ _ _ _ _ _ _ _ _ Hix x Hx Hlx) as [E1 E2]. split; [done|]. intros r Hr. by apply Hkeep, E2.
  - intros x Hx. rewrite Hsum. by apply (ix_total _ _ _ _ _ _ _ _ _ _ _ Hix).
  - apply Hix.
  - by left.
  - intros [?|[x Hx]]; [done|]. by destruct (ix_undos _ _ _ _ _ _ _ _ _ _ _ Hix p x Hx).
  - by apply (ix_undo _ _ _ _ _ _ _ _ _ _ _ Hix).
  - intros x Hx. destruct (ix_failed _ _ _ _ _ _ _ _ _ _ _ Hix x Hx) as [F1 F2]. split; [by apply (same_links_at _ _ x Hlk)|]. by destruct (Hat x) as [_ ->].
  - apply Hix.
  - intros x c [_ Hxc]%list_elem_of_filter. destruct (ix_unlinked _ _ _ _ _ _ _ _ _ _ _ Hix x c Hxc) as (U1 & U2 & U3 & U4). destruct (Hat c) as [_ ->]. split_and!; [done|done|done|].
    unfold linked. rewrite Hct. case_bool_decide as E; [subst c; by destruct (Hfree x)|done].
  - apply list.NoDup_filter, Hix.
Qed.

(** What linking leaves alone. *)
Record links s s' : Prop := {
  lk_files : block_files s' = block_files s;
  lk_map : mapBlockIndex (cs_tree s') = mapBlockIndex (cs_tree s);
  lk_dom : dom (cs_heap s') = dom (cs_heap s);
}.

Lemma links_trans s1 s2 s3 : links s1 s2 -> links s2 s3 -> links s1 s3.
Proof. intros [A1 A2 A3] [B1 B2 B3]. split; congruence. Qed.

(** One block is linked: the state of the loop after it. *)
Definition link_one (pindex : Ptr) s : State :=
  let h := cs_heap s in
  let e := at_ h pindex in
  let chain_tx := u32 (match pprev e with Some q => nChainTx (at_ h q) | None => 0 end + nTx e) in
  let s := set_heap s (alter (with_linked chain_tx (nBlockSequenceId s)) pindex h) in
  let s := set_counters s (i32 (nBlockSequenceId s + 1)) (nBlockReverseSequenceId s) (nLastPreciousChainwork s) in
  let s := match Tip s with
           | Some tip => if CBlockIndexWorkComparator (cs_heap s) pindex tip then s
                         else set_candidates s ({[pindex]} ∪ setBlockIndexCandidates s)
           | None => set_candidates s ({[pindex]} ∪ setBlockIndexCandidates s)
           end in
  set_unlinked s (filter (fun x => x.1 <> pindex) (mapBlocksUnlinked s)).

Lemma link_loop_step fuel p queue s :
  link_loop fuel (p :: queue) s =
  let waiting := map snd (filter (fun x => x.1 = p) (mapBlocksUnlinked s)) in
  match fuel with
  | O => match queue ++ waiting with [] => Ok (link_one p s) | _ => Throw (assert_failed "ReceivedBlockTransactions: no progress") end
  | Datatypes.S fuel => link_loop fuel (queue ++ waiting) (link_one p s)
  end.
Proof.
  unfold link_one. destruct fuel; cbn [link_loop]; cbv zeta; unfold Tip; cbn [chainActive set_heap set_tree set_counters];
    destruct (Chain_Tip (chainActive s)) as [tip|]; try destruct (CBlockIndexWorkComparator _ _ _); reflexivity.
Qed.

Lemma link_one_ok n N s tip r p : inv n N s tip r -> ready (cs_heap s) (mapBlocksUnlinked s) p ->
  inv n N (link_one p s) tip r /\ links s (link_one p s) /\
  (exists seq, cs_heap (link_one p s) = alter (with_linked (path_sum (cs_heap s) p) seq) p (cs_heap s)) /\ 0 < path_sum (cs_heap s) p /\
  mapBlocksUnlinked (link_one p s) = filter (fun x => x.1 <> p) (mapBlocksUnlinked s).
Proof.
  intros Hinv Hrd. pose proof Hinv as [Hix Hac Hck Hsc]. destruct (ready_sum _ _ _ _ _ _ _ _ _ Hix Hrd) as [Esum Hpos]. pose proof (inv_heap _ _ _ _ _ Hinv) as Hh.
  pose proof (index_link n N _ _ _ _ _ _ p (nBlockSequenceId s) Hix Hrd) as Hix'. pose proof Hrd as [Hp Hd Hl _ _]. fold (cs_heap s) in Esum, Hpos, Hix'.
  set (h' := alter (with_linked (path_sum (cs_heap s) p) (nBlockSequenceId s)) p (cs_heap s)) in *. pose proof (ix_heap _ _ _ _ _ _ _ _ _ _ _ Hix') as Hh'. cbn [bt_heap] in Hh'.
  assert (Hlk : same_links (cs_heap s) h') by (by apply alter_links). pose proof (same_links_grows _ _ Hlk) as Hg.
  assert (Hat : forall x, x <> p -> at_ h' x = at_ (cs_heap s) x) by (intros x Hx; unfold h'; rewrite alter_at, bool_decide_eq_false_2 by done; done).
  assert (Htp : tip <> p) by (intros ->; apply Hl, Hac).
  assert (Hfb : forall q, is_Some (cs_heap s !! q) -> failed_bits (nStatus (at_ h' q)) = failed_bits (nStatus (at_ (cs_heap s) q))) by (intros q Hq; unfold h'; rewrite alter_at by done; by case_bool_decide).
  assert (Hll : forall q, is_Some (cs_heap s !! q) -> linked (cs_heap s) q -> linked h' q /\ nSequenceId (at_ h' q) = nSequenceId (at_ (cs_heap s) q)).
  { intros q Hq Hlq. unfold linked. rewrite Hat; [done|]. by intros ->. }
  assert (Hlp : linked h' p) by (unfold linked, h'; rewrite alter_at, bool_decide_eq_true_2 by done; cbn; lia). assert (Hp' : is_Some (h' !! p)) by (by eapply grows_is_Some).
  assert (Hac' := active_grows env params scripts (cs_heap s) h' (block_files s) (block_files s) (undo_files s) Hh Hh' Hg (fun q b Hb => Hb) Hfb Hll _ _ _ Hac).
  assert (Hnew : forall q, is_Some (h' !! q) -> linked h' q -> q = p \/ (is_Some (cs_heap s !! q) /\ linked (cs_heap s) q)).
  { intros q Hq Hlq. destruct (decide (q = p)) as [->|Hne]; [by left|]. right. destruct (same_links_at _ _ q Hlk) as (Hqs & _). unfold linked in *. rewrite Hat in Hlq by done. by rewrite Hqs. }
  assert (Hck' : forall c, (c = setBlockIndexCandidates s /\ worse h' p tip) \/ (c = {[p]} ∪ setBlockIndexCandidates s /\ ~ worse h' p tip) ->
    cands_ok env params scripts h' (block_files s) (undo_files s) c tip r).
  { intros c Hc. apply (cands_grows env params scripts (cs_heap s) h' (block_files s) (block_files s) (undo_files s) Hh Hh' Hg) with (cands := setBlockIndexCandidates s);
      [done|exact Hfb|exact Hll|apply Hac|apply Hac| | | |exact Hck].
    - intros q Hq Hlq. destruct (Hnew q Hq Hlq) as [->|?]; [right|by left]. destruct Hc as [[-> Hw]|[-> _]]; [right|left; apply elem_of_union; left; by apply elem_of_singleton].
      destruct (decide (p = r)) as [E|Hne']; [subst r; by destruct (Hl (ck_linked _ _ _ _ _ _ _ _ _ Hck))|].
      assert (Hrt : ~ worse h' r tip).
      { rewrite (worse_grows (cs_heap s) h'); [apply (ck_best _ _ _ _ _ _ _ _ _ Hck)|done|apply (ck_in _ _ _ _ _ _ _ _ _ Hck)|apply Hac|by rewrite Hat|by rewrite Hat]. }
      by eapply worse_cut.
    - destruct Hc as [[-> _]|[-> _]]; [done|]. intros q Hq. apply elem_of_union. by right.
    - intros q Hq. destruct Hc as [[-> _]|[-> Hw]]; [by left|]. apply elem_of_union in Hq as [->%elem_of_singleton|?]; [right|by left]. done. }
  unfold link_one. cbv zeta. rewrite Esum. fold h'. unfold Tip. cbn [chainActive set_heap set_tree set_counters]. pose proof (inv_tip _ _ _ _ _ _ _ _ Hinv) as Et. unfold Tip in Et. rewrite Et.
  change (cs_heap (set_counters _ _ _ _)) with h'. pose proof (comparator_worse h' (ix_works _ _ _ _ _ _ _ _ _ _ _ Hix') p tip Hp' (ac_in _ _ _ _ _ _ _ _ _ Hac')) as Hcmp.
  pose proof (dom_alter_L (with_linked (path_sum (cs_heap s) p) (nBlockSequenceId s)) (cs_heap s) p) as Hdom.
  destruct (CBlockIndexWorkComparator h' p tip) eqn:Ecmp; (split; [|split; [split; [done|done|exact Hdom]|split; [by eexists|split; done]]]);
    (split; [exact Hix'|exact Hac'|apply Hck'|exact Hsc]).
  - left. split; [done|by apply Hcmp].
  - right. split; [done|]. intros Hw%Hcmp. discriminate Hw.
Qed.

Lemma link_sound manual h blocks unlinked queue p ct seq : heap_ok h -> is_Some (h !! p) -> ct <> 0 ->
  is_sound manual h blocks unlinked (p :: queue) ->
  is_sound manual (alter (with_linked ct seq) p h) blocks (filter (fun x => x.1 <> p) unlinked) (queue ++ map snd (filter (fun x => x.1 = p) unlinked)).
Proof.
  intros Hh Hp Hct [[D1 D2] D3]. set (h' := alter (with_linked ct seq) p h). assert (Hlk : same_links h h') by (by apply alter_links). pose proof (same_links_heap_ok _ _ Hlk Hh) as Hh'.
  assert (Hst : forall x, nStatus (at_ h' x) = nStatus (at_ h x)) by (intros x; unfold h'; rewrite alter_at by done; by case_bool_decide).
  assert (Hl : forall x, linked h' x <-> x = p \/ linked h x).
  { intros x. unfold linked, h'. rewrite alter_at by done. case_bool_decide as E; [subst x; cbn; split; [by left|done]|]. split; [by right|by intros [-> |?]]. }
  split; [split|].
  - intros x Hb Hx. rewrite Hl in Hx. destruct (same_links_at _ _ x Hlk) as (_ & _ & -> & _). destruct (D1 x Hb ltac:(tauto)) as [Hq|(q & Hq & Hw)].
    + left. apply elem_of_cons in Hq as [-> |Hq]; [tauto|]. apply elem_of_app. by left.
    + destruct Hw as [Hw|[Hw1 Hw2]]; [right; exists q; rewrite Hst; auto|]. destruct (decide (q = p)) as [-> |Hne].
      * left. apply elem_of_app. right. apply list_elem_of_fmap. exists (p, x). split; [done|by apply list_elem_of_filter].
      * right. exists q. split; [done|]. right. rewrite Hl. split; [tauto|]. by apply list_elem_of_filter.
  - intros x. destruct (same_links_at _ _ x Hlk) as (<- & _). rewrite Hst. intros Hx Hf. destruct (D2 x Hx Hf) as (a & Ha & Hw). exists a. rewrite Hst.
    destruct (same_links_at _ _ a Hlk) as (_ & -> & _). split; [by apply (same_links_ancestor _ _ _ _ Hlk)|]. destruct Hw as [?|[Hw|?]]; [by left| |by right; right]. right. left.
    eapply (refused_grows _ _ _ h); [done|done|by apply same_links_grows|done|exact Hw].
  - intros x Hx. destruct (D3 x Hx) as (q & Hs & Ex & Hfq). exists q. rewrite Hst. by destruct (same_links_at _ _ q Hlk) as (<- & -> & _).
Qed.

Lemma link_ready n N t failed blocks undos caches unlinked queue p ct seq : index_ok env params scripts n N t failed blocks undos caches unlinked -> ct <> 0 ->
  NoDup (p :: queue) -> (forall c, c ∈ p :: queue -> ready (bt_heap t) unlinked c) ->
  let queue' := queue ++ map snd (filter (fun x => x.1 = p) unlinked) in
  NoDup queue' /\ forall c, c ∈ queue' -> ready (alter (with_linked ct seq) p (bt_heap t)) (filter (fun x => x.1 <> p) unlinked) c.
Proof.
  intros Hix Hct Hnd Hrd queue'. pose proof (ix_heap _ _ _ _ _ _ _ _ _ _ _ Hix) as Hh. pose proof (rd_in _ _ _ (Hrd p (list_elem_of_here _ _))) as Hp.
  assert (Hw : forall c, c ∈ map snd (filter (fun x => x.1 = p) unlinked) <-> (p, c) ∈ unlinked).
  { intros c. rewrite list_elem_of_fmap. split; [|intros Hc; exists (p, c); split; [done|by apply list_elem_of_filter]]. intros ([q x] & -> & Hx). apply list_elem_of_filter in Hx as [E Hx]. cbn in E. by subst q. }
  apply list.NoDup_cons in Hnd as [Hpq Hnd]. split.
  - apply list.NoDup_app. split; [done|]. split.
    + intros c Hc Hc2%Hw. by destruct (rd_free _ _ _ (Hrd c (list_elem_of_further _ _ _ Hc)) p).
    + apply NoDup_fmap_2_strong; [|apply list.NoDup_filter, Hix]. intros [q1 c1] [q2 c2] [E1 _]%list_elem_of_filter [E2 _]%list_elem_of_filter E. cbn in *. congruence.
  - assert (Hat : forall c, c <> p -> at_ (alter (with_linked ct seq) p (bt_heap t)) c = at_ (bt_heap t) c) by (intros c Hc; rewrite alter_at, bool_decide_eq_false_2 by done; done).
    assert (Hlk : same_links (bt_heap t) (alter (with_linked ct seq) p (bt_heap t))) by (by apply alter_links).
    assert (Hlp : linked (alter (with_linked ct seq) p (bt_heap t)) p) by (unfold linked; rewrite alter_at, bool_decide_eq_true_2 by done; done).
    intros c [Hc|Hc%Hw]%elem_of_app.
    + assert (Hne : c <> p) by (by intros ->). destruct (Hrd c (list_elem_of_further _ _ _ Hc)) as [R1 R2 R3 R4 R6]. unfold linked in *.
      split; unfold linked; rewrite ?Hat by done; [by apply (same_links_at _ _ c Hlk)|done|done| |intros x [_ Hx]%list_elem_of_filter; by destruct (R6 x)].
      intros q Hq. destruct (decide (q = p)) as [-> |Hqp]; [done|]. rewrite Hat by done. by apply R4.
    + destruct (ix_unlinked _ _ _ _ _ _ _ _ _ _ _ Hix p c Hc) as (U1 & U2 & U3 & U4).
      assert (Hne : c <> p). { intros ->. destruct (at_ok _ Hh p Hp) as [_ Hprev _]. rewrite U2 in Hprev. lia. }
      split; [by apply (same_links_at _ _ c Hlk)|by rewrite Hat|unfold linked in *; by rewrite Hat|rewrite Hat by done; intros q Hq; by assert (q = p) as -> by congruence|].
      intros x [Hx1 Hx2]%list_elem_of_filter. destruct (ix_unlinked _ _ _ _ _ _ _ _ _ _ _ Hix x c Hx2) as (_ & U5 & _). cbn in Hx1. congruence.
Qed.

(** The loop ends when there is a step for each block that waits. *)
Lemma link_loop_ok manual n N tip r fuel : forall queue s, inv n N s tip r -> is_sound manual (cs_heap s) (block_files s) (mapBlocksUnlinked s) queue ->
  NoDup queue -> (forall c, c ∈ queue -> ready (cs_heap s) (mapBlocksUnlinked s) c) -> (length queue + length (mapBlocksUnlinked s) <= Datatypes.S fuel)%nat ->
  exists s', link_loop fuel queue s = Ok s' /\ inv n N s' tip r /\ is_sound manual (cs_heap s') (block_files s') (mapBlocksUnlinked s') [] /\ links s s'.
Proof.
  assert (Hfilter : forall (l : list (Ptr * Ptr)) p, (length (filter (fun x => x.1 <> p) l) + length (map snd (filter (fun x => x.1 = p) l)) = length l)%nat).
  { intros l p. rewrite length_map. induction l as [|x l IH]; [done|]. rewrite !filter_cons. destruct (decide (x.1 = p)) as [E|E]; cbn [length].
    - rewrite decide_False by tauto. cbn [length]. lia.
    - rewrite decide_True by done. cbn [length]. lia. }
  induction fuel as [|fuel IH]; intros queue s Hinv Hsd Hnd Hrd Hlen; (destruct queue as [|p queue]; [exists s; by split_and!|]); rewrite link_loop_step; cbv zeta.
  all: pose proof Hinv as [Hix _ _ _]; destruct (link_one_ok n N s tip r p Hinv (Hrd p (list_elem_of_here _ _))) as (Hinv1 & Hlk1 & (seq & Eh) & Hpos & Eu).
  all: pose proof (link_sound manual (cs_heap s) (block_files s) (mapBlocksUnlinked s) queue p (path_sum (cs_heap s) p) seq (inv_heap _ _ _ _ _ Hinv)
    (rd_in _ _ _ (Hrd p (list_elem_of_here _ _))) ltac:(lia) Hsd) as Hsd1; rewrite <- Eh, <- Eu, <- (lk_files _ _ Hlk1) in Hsd1.
  all: pose proof (Hfilter (mapBlocksUnlinked s) p) as Hcount; cbn [length] in Hlen.
  - assert (Hq : queue ++ map snd (filter (fun x => x.1 = p) (mapBlocksUnlinked s)) = []) by (apply nil_length_inv; rewrite length_app; lia).
    rewrite Hq in *. exists (link_one p s). by split_and!.
  - destruct (link_ready n N _ _ _ _ _ _ queue p (path_sum (cs_heap s) p) seq Hix ltac:(lia) Hnd Hrd) as [Hnd1 Hrd1]. fold (cs_heap s) in Hrd1. rewrite <- Eh, <- Eu in Hrd1.
    destruct (IH _ (link_one p s) Hinv1 Hsd1 Hnd1 Hrd1) as (s' & -> & H1 & H2 & H3); [rewrite length_app, Eu; lia|]. exists s'. split_and!; [done..|by eapply links_trans].
Qed.

Lemma receive_sound manual h blocks unlinked p b f : heap_ok h -> is_Some (h !! p) -> (forall e, link_data (f e) = link_data e) ->
  failed_bits (nStatus (at_ h p)) = 0 -> failed_bits (nStatus (f (at_ h p))) = 0 -> ~ linked h p -> nChainTx (f (at_ h p)) = 0 -> blocks !! p = None ->
  is_sound manual h blocks unlinked [] -> is_sound manual (alter f p h) (<[p := b]> blocks) unlinked [p].
Proof.
  intros Hh Hp Hf E0 E1 Hl Ect Hb [[D1 D2] D3]. set (h' := alter f p h). assert (Hlk : same_links h h') by (by apply alter_links). pose proof (same_links_heap_ok _ _ Hlk Hh) as Hh'.
  assert (Hst : forall x, failed_bits (nStatus (at_ h' x)) = failed_bits (nStatus (at_ h x))) by (intros x; unfold h'; rewrite alter_at by done; case_bool_decide; [subst x; congruence|done]).
  assert (Hll : forall x, linked h' x <-> linked h x).
  { intros x. unfold linked in *. unfold h'. rewrite alter_at by done. case_bool_decide as E; [subst x; rewrite Ect; tauto|done]. }
  split; [split|].
  - intros x Hbx Hx. rewrite Hll in Hx. destruct (decide (x = p)) as [-> |Hne]; [left; apply list_elem_of_here|]. rewrite lookup_insert_ne in Hbx by done.
    destruct (D1 x Hbx Hx) as [[]%elem_of_nil|(q & Hq & Hw)]. right. exists q. rewrite Hst, Hll. by destruct (same_links_at _ _ x Hlk) as (_ & _ & -> & _).
  - intros x. destruct (same_links_at _ _ x Hlk) as (<- & _). rewrite Hst. intros Hx Hfx. destruct (D2 x Hx Hfx) as (a & Ha & Hw). exists a. rewrite Hst.
    destruct (same_links_at _ _ a Hlk) as (_ & -> & _). split; [by apply (same_links_ancestor _ _ _ _ Hlk)|]. destruct Hw as [[Hw1 Hw2]|[Hw|?]]; [left| |by right; right].
    + split; [done|]. rewrite lookup_insert_ne; [done|]. by intros ->.
    + right. left. eapply (refused_grows _ _ _ h); [done|done|by apply same_links_grows| |exact Hw]. intros y c Hy. rewrite lookup_insert_ne; [done|]. intros ->. congruence.
  - intros x Hx. destruct (D3 x Hx) as (q & Hs & Ex & Hfq). exists q. rewrite Hst. by destruct (same_links_at _ _ q Hlk) as (<- & -> & _).
Qed.

Lemma index_unlinked n N t failed blocks undos caches unlinked unlinked' : index_ok env params scripts n N t failed blocks undos caches unlinked -> NoDup unlinked' ->
  (forall q c, (q, c) ∈ unlinked' -> is_Some (bt_heap t !! c) /\ pprev (at_ (bt_heap t) c) = Some q /\ data_bit (nStatus (at_ (bt_heap t) c)) <> 0 /\ ~ linked (bt_heap t) c) ->
  index_ok env params scripts n N t failed blocks undos caches unlinked'.
Proof. intros [H1 H2 H3 H4 H5 H6 H7 H8 H9 HL H10 H11 H12 H13 H14 H15 H16 H17 H18 H19 H20] Hnd Hu. split; done. Qed.

(** The status of a block that is received. *)
Lemma received_status st (w : bool) : failed_bits st = 0 ->
  exists b st', RaiseValidity (if w then Z.lor (Z.lor st BLOCK_HAVE_DATA) BLOCK_OPT_WITNESS else Z.lor st BLOCK_HAVE_DATA) BLOCK_VALID_TRANSACTIONS = Ok (b, st') /\
    failed_bits st' = 0 /\ data_bit st' <> 0 /\ undo_bit st' = undo_bit st /\ BLOCK_VALID_TRANSACTIONS <= level st'.
Proof.
  intros Hz. set (st1 := if w then _ else _).
  assert (E : failed_bits st1 = failed_bits st /\ undo_bit st1 = undo_bit st) by (subst st1; destruct w; split; bits).
  assert (Hd : data_bit st1 <> 0).
  { subst st1. unfold data_bit. destruct w; rewrite !Z.land_lor_distr_l; [intros [[_ Hx]%Z.lor_eq_0_iff _]%Z.lor_eq_0_iff|intros [_ Hx]%Z.lor_eq_0_iff]; discriminate Hx. }
  destruct E as [E1 E2]. destruct (RaiseValidity_spec st1 BLOCK_VALID_TRANSACTIONS) as (b & st' & -> & R1 & R2 & R3 & R4 & R5); [unfold asked; auto|]. exists b, st'.
  rewrite R1, R2, R3, E1, E2. split_and!; [done..|]. apply R5. by rewrite E1.
Qed.

(** The state once the block is stored, before anything is linked. *)
Definition received s (p : Ptr) (b : CBlock) (caches : VersionBitsCache) (pos : Z * Z) (st : Z) : State :=
  set_heap (set_caches (set_files s (<[p := unchecked b]> (block_files s)) (undo_files s)) caches (scriptExecutionCache s))
    (alter (with_received (zlen (vtx b)) pos.1 pos.2 st) p (cs_heap s)).

Lemma received_ok manual n N s tip r p b caches pos st : inv n N s tip r -> is_sound manual (cs_heap s) (block_files s) (mapBlocksUnlinked s) [] ->
  is_Some (cs_heap s !! p) -> is_Some (pprev (at_ (cs_heap s) p)) -> data_bit (nStatus (at_ (cs_heap s) p)) = 0 -> failed_bits (nStatus (at_ (cs_heap s) p)) = 0 ->
  block_good params (unchecked b) -> phashBlock (at_ (cs_heap s) p) = CBlockHeader_GetHash (header b) -> 0 < zlen (vtx b) -> N + zlen (vtx b) < 2 ^ 32 ->
  failed_bits st = 0 -> data_bit st <> 0 -> undo_bit st = undo_bit (nStatus (at_ (cs_heap s) p)) -> BLOCK_VALID_TRANSACTIONS <= level st -> deployments_ok (cs_heap s) params caches ->
  let s1 := received s p b caches pos st in
  inv n (N + zlen (vtx b)) s1 tip r /\ is_sound manual (cs_heap s1) (block_files s1) (mapBlocksUnlinked s1) [p] /\
  same_links (cs_heap s) (cs_heap s1) /\ (forall x, linked (cs_heap s1) x <-> linked (cs_heap s) x) /\ ~ linked (cs_heap s) p /\ data_bit (nStatus (at_ (cs_heap s1) p)) <> 0.
Proof.
  intros Hinv Hsd Hp Hpp Hd Hz Hgood Hhash Hk HN S1 S2 S3 S4 Hdep s1. pose proof Hinv as [Hix Hac Hck Hsc]. pose proof (inv_heap _ _ _ _ _ Hinv) as Hh.
  destruct (ix_absent _ _ _ _ _ _ _ _ _ _ _ Hix p Hp Hd) as (Etx & Ect & Enb). fold (cs_heap s) in Etx, Ect.
  set (f := with_received (zlen (vtx b)) pos.1 pos.2 st). set (h1 := alter f p (cs_heap s)). change (cs_heap s1) with h1.
  pose proof (index_receive n N _ _ _ _ _ caches _ p (unchecked b) (zlen (vtx b)) pos.1 pos.2 st Hix Hp (or_introl Hpp) Hd Hgood Hhash Hk HN Hz S2 S3 S4 Hdep) as Hix1. fold (cs_heap s) f h1 in Hix1.
  pose proof (ix_heap _ _ _ _ _ _ _ _ _ _ _ Hix1) as Hh1. cbn [bt_heap] in Hh1. assert (Hlk : same_links (cs_heap s) h1) by (by apply alter_links). pose proof (same_links_grows _ _ Hlk) as Hg.
  assert (Hnl : ~ linked (cs_heap s) p) by (unfold linked; tauto).
  assert (Hbs : forall x c, block_files s !! x = Some c -> <[p := unchecked b]> (block_files s) !! x = Some c) by (intros x c Hx; rewrite lookup_insert_ne; [done|intros <-; congruence]).
  assert (Hfb : forall x, is_Some (cs_heap s !! x) -> failed_bits (nStatus (at_ h1 x)) = failed_bits (nStatus (at_ (cs_heap s) x))) by (intros x _; unfold h1; rewrite alter_at by done; case_bool_decide; [subst x; by rewrite Hz|done]).
  assert (Hll : forall x, linked h1 x <-> linked (cs_heap s) x) by (intros x; unfold linked, h1; rewrite alter_at by done; case_bool_decide as E; [subst x; by rewrite Ect|done]).
  assert (Hll' : forall x, is_Some (cs_heap s !! x) -> linked (cs_heap s) x -> linked h1 x /\ nSequenceId (at_ h1 x) = nSequenceId (at_ (cs_heap s) x)).
  { intros x Hx Hlx. split; [by apply Hll|]. unfold h1. rewrite alter_at by done. by case_bool_decide. }
  split; [split|split_and!; [|exact Hlk|exact Hll|exact Hnl|]].
  - exact Hix1.
  - exact (active_grows env params scripts (cs_heap s) h1 (block_files s) (<[p := unchecked b]> (block_files s)) (undo_files s) Hh Hh1 Hg Hbs Hfb Hll' _ _ _ Hac).
  - apply (cands_grows env params scripts (cs_heap s) h1 (block_files s) _ (undo_files s) Hh Hh1 Hg) with (cands := setBlockIndexCandidates s); [done|exact Hfb|exact Hll'|apply Hac|apply Hac| |done|by left|exact Hck].
    intros x Hx Hlx%Hll. left. destruct (same_links_at _ _ x Hlk) as (Hxs & _). by rewrite Hxs.
  - exact Hsc.
  - exact (receive_sound manual (cs_heap s) (block_files s) (mapBlocksUnlinked s) p (unchecked b) f Hh Hp (fun e => eq_refl) Hz S1 Hnl eq_refl Enb Hsd).
  - unfold h1. rewrite alter_at, bool_decide_eq_true_2 by done. exact S2.
Qed.

(** A block whose parent is not linked waits, unless the parent failed. *)
Lemma wait_ok manual n N s tip r p q : inv n N s tip r -> is_sound manual (cs_heap s) (block_files s) (mapBlocksUnlinked s) [p] ->
  is_Some (cs_heap s !! p) -> pprev (at_ (cs_heap s) p) = Some q -> data_bit (nStatus (at_ (cs_heap s) p)) <> 0 -> ~ linked (cs_heap s) p -> ~ linked (cs_heap s) q ->
  (forall x, (x, p) ∉ mapBlocksUnlinked s) ->
  exists valid, IsValid (at_ (cs_heap s) q) BLOCK_VALID_TREE = Ok valid /\
    let s' := if valid then set_unlinked s (mapBlocksUnlinked s ++ [(q, p)]) else s in
    inv n N s' tip r /\ is_sound manual (cs_heap s') (block_files s') (mapBlocksUnlinked s') [] /\ links s s'.
Proof.
  intros Hinv [[D1 D2] D3] Hp Hq Hd Hnl Hnlq Hfree. pose proof Hinv as [Hix Hac Hck Hsc]. pose proof (prev_in _ (inv_heap _ _ _ _ _ Hinv) _ _ Hp Hq) as Hqs.
  assert (Hlev : (BLOCK_VALID_TREE <=? level (nStatus (at_ (cs_heap s) q))) = true) by (by apply Z.leb_le, (ix_level _ _ _ _ _ _ _ _ _ _ _ Hix q)).
  eexists. split; [apply IsValid_spec; unfold asked; auto|]. cbv zeta. rewrite Hlev, andb_true_r.
  destruct (Z.eqb_spec (failed_bits (nStatus (at_ (cs_heap s) q))) 0) as [Ef|Ef].
  - split; [split; [|exact Hac|exact Hck|exact Hsc]|split; [|split; done]].
    + apply (index_unlinked _ _ _ _ _ _ _ _ _ Hix).
      * apply list.NoDup_app. split; [apply Hix|]. split; [|apply NoDup_singleton]. intros [x c] Hx Hy%list_elem_of_singleton. injection Hy as -> ->. by destruct (Hfree q).
      * intros x c [Hx|Hx%list_elem_of_singleton]%elem_of_app; [by apply (ix_unlinked _ _ _ _ _ _ _ _ _ _ _ Hix)|]. by injection Hx as -> ->.
    + split; [split; [|exact D2]|exact D3]. intros x Hx Hlx. right. destruct (D1 x Hx Hlx) as [->%list_elem_of_singleton|(y & Hy & Hw)].
      * exists q. split; [done|]. right. split; [done|]. apply elem_of_app. right. apply list_elem_of_here.
      * exists y. split; [done|]. destruct Hw as [?|[? ?]]; [by left|]. right. split; [done|]. apply elem_of_app. by left.
  - split; [exact Hinv|split; [|split; done]]. split; [split; [|exact D2]|exact D3].
    intros x Hx Hlx. right. destruct (D1 x Hx Hlx) as [->%list_elem_of_singleton|Hy]; [|exact Hy]. exists q. auto.
Qed.

Lemma Received_ok manual n N s tip r p q b pos : inv n N s tip r -> is_sound manual (cs_heap s) (block_files s) (mapBlocksUnlinked s) [] ->
  is_Some (cs_heap s !! p) -> pprev (at_ (cs_heap s) p) = Some q -> data_bit (nStatus (at_ (cs_heap s) p)) = 0 -> failed_bits (nStatus (at_ (cs_heap s) p)) = 0 ->
  block_good params (unchecked b) -> phashBlock (at_ (cs_heap s) p) = CBlockHeader_GetHash (header b) -> N + zlen (vtx b) < 2 ^ 32 ->
  let s0 := set_files s (<[p := unchecked b]> (block_files s)) (undo_files s) in
  exists s', ReceivedBlockTransactions params b p pos s0 = Ok s' /\ inv n (N + zlen (vtx b)) s' tip r /\
    is_sound manual (cs_heap s') (block_files s') (mapBlocksUnlinked s') [] /\ links s0 s'.
Proof.
  intros Hinv Hsd Hp Hq Hd Hz Hgood Hhash HN s0. pose proof Hinv as [Hix _ _ _]. pose proof (inv_heap _ _ _ _ _ Hinv) as Hh.
  assert (Hk : 0 < zlen (vtx b) < 2 ^ 31).
  { split; [|apply (bg_count _ _ Hgood)]. destruct (block_good_fine _ _ Hgood) as [(tx & rest & E & _) _]. cbn in E. rewrite E, zlen_cons. pose proof (zlen_nonneg rest). lia. }
  unfold ReceivedBlockTransactions, IsWitnessEnabled. change (cs_heap s0) with (cs_heap s). change (versionbitscache s0) with (versionbitscache s).
  destruct (deployment_state_ok (cs_heap s) params (pprev (at_ (cs_heap s) p)) DEPLOYMENT_SEGWIT (versionbitscache s) Hh) as (sw & caches & -> & Hdep & _);
    [apply (headers_inv_times params), Hix|rewrite Hq; intros ? [= <-]; exact (prev_in _ Hh _ _ Hp Hq)|apply Hix|done|]. cbn [mbind result_bind mret result_ret].
  destruct (received_status (nStatus (at_ (cs_heap s) p)) (bool_decide (sw = THRESHOLD_ACTIVE)) Hz) as (rb & st & -> & S1 & S2 & S3 & S4). cbn [mbind result_bind].
  rewrite u32_small by (unfold is_u32; lia). cbv zeta. fold (received s p b caches pos st).
  change (set_heap (set_caches s0 caches (scriptExecutionCache s0)) (alter (with_received (zlen (vtx b)) pos.1 pos.2 st) p (cs_heap s))) with (received s p b caches pos st).
  destruct (received_ok manual n N s tip r p b caches pos st Hinv Hsd Hp ltac:(rewrite Hq; by eexists) Hd Hz Hgood Hhash ltac:(lia) HN S1 S2 S3 S4 Hdep) as (Hinv1 & Hsd1 & Hlk & Hll & Hnl & Hd1).
  set (s1 := received s p b caches pos st) in *. destruct (same_links_at _ _ p Hlk) as (Hp1 & _ & Epp & _).
  assert (Hfree : forall x, (x, p) ∉ mapBlocksUnlinked s1) by (intros x Hx; by destruct (ix_unlinked _ _ _ _ _ _ _ _ _ _ _ Hix x p Hx) as (_ & _ & [] & _)).
  assert (Hdom : links s0 s1) by (split; [done|done|apply dom_alter_L]).
  rewrite Hq in *. destruct (Z.eqb_spec (nChainTx (at_ (cs_heap s1) q)) 0) as [Eq0|Eq0]; cbn [negb].
  - destruct (wait_ok manual n (N + zlen (vtx b)) s1 tip r p q Hinv1 Hsd1) as (valid & -> & W1 & W2 & W3); [by apply Hp1|done|done|by rewrite Hll|unfold linked; tauto|done|].
    cbn [mbind result_bind]. eexists. split; [done|]. split; [exact W1|]. split; [exact W2|]. exact (links_trans _ _ _ Hdom W3).
  - destruct (link_loop_ok manual n (N + zlen (vtx b)) tip r (length (mapBlocksUnlinked s1)) [p] s1 Hinv1 Hsd1) as (s' & -> & L1 & L2 & L3); [apply NoDup_singleton| |done|].
    + intros c ->%list_elem_of_singleton. split; [by apply Hp1|done|by rewrite Hll| |exact Hfree]. intros x Hx. assert (x = q) as -> by congruence. exact Eq0.
    + exists s'. split; [done|]. split; [exact L1|]. split; [exact L2|]. exact (links_trans _ _ _ Hdom L3).
Qed.

(** ** Accepting a block *)

Lemma node_caches manual n N s tip caches : node manual n N s tip -> deployments_ok (cs_heap s) params caches -> node manual n N (set_caches s caches (scriptExecutionCache s)) tip.
Proof.
  intros [[[Hix Hac Hck Hsc] Hmax] Hsd] Hd. split; [split; [split; [|exact Hac|exact Hck|exact Hsc]|exact Hmax]|exact Hsd].
  destruct Hix as [H1 H2 H3 H4 H5 H6 H7 H8 H9 HL H10 H11 H12 H13 H14 H15 H16 H17 H18 H19 H20]. by split.
Qed.

(** A block whose checks failed is marked; nothing of it was stored. *)
Lemma node_reject manual n N s tip p : node manual n N s tip -> is_Some (cs_heap s !! p) -> data_bit (nStatus (at_ (cs_heap s) p)) = 0 ->
  node manual n N (set_heap s (or_status (cs_heap s) p BLOCK_FAILED_VALID)) tip.
Proof.
  intros [[Hinv Hmax] Hsd] Hp Hd. pose proof Hinv as [Hix Hac Hck Hsc]. pose proof (inv_heap _ _ _ _ _ Hinv) as Hh.
  destruct (lor_failed (nStatus (at_ (cs_heap s) p)) BLOCK_FAILED_VALID) as (Hf & _); [by left|]. set (st := Z.lor _ _) in Hf.
  destruct (ix_absent _ _ _ _ _ _ _ _ _ _ _ Hix p Hp Hd) as (_ & _ & Enb).
  assert (Hno : ~ ancestor (cs_heap s) tip p).
  { intros Ha. apply (linked_data _ _ _ _ _ _ _ _ _ _ _ Hix p Hp); [|exact Hd]. exact (linked_ancestor _ _ _ _ _ _ _ _ _ _ _ Hix tip p (ac_in _ _ _ _ _ _ _ _ _ Hac) (ac_linked _ _ _ _ _ _ _ _ _ Hac) Ha). }
  split; [split; [split|]|].
  - apply (index_mark env params scripts n N (cs_tree s) (g_failed_blocks s) (g_failed_blocks s)); [by left|exact Hix|exact Hp|by left].
  - eapply (active_status _ _ _ (cs_heap s) _ (undo_files s)); [exact Hh|exact Hp|by intros ?|done|exact Hac].
  - apply (cands_mark env params scripts (cs_heap s) _ _ (setBlockIndexCandidates s)); [exact Hh|exact Hp|exact Hf|exact Hno|by left|exact Hck].
  - exact Hsc.
  - intros q Hq. change (~ worse (set_status (cs_heap s) p st) tip q). rewrite set_status_worse by done. by apply Hmax.
  - apply (sound_mark env params scripts manual (cs_heap s) (block_files s) (mapBlocksUnlinked s) [] p st); [done|done|done|by left|exact Hsd].
Qed.

(** Of an entry that was not received, the parent is known. *)
Lemma node_parent manual n N s tip p : node manual n N s tip -> is_Some (cs_heap s !! p) -> data_bit (nStatus (at_ (cs_heap s) p)) = 0 ->
  exists q, pprev (at_ (cs_heap s) p) = Some q /\ phashBlock (at_ (cs_heap s) p) <> hashGenesisBlock params.
Proof.
  intros [[Hinv _] _] Hp Hd. pose proof Hinv as [Hix Hac _ _]. pose proof (ac_in _ _ _ _ _ _ _ _ _ Hac) as Ht.
  destruct (pprev (at_ (cs_heap s) p)) as [q|] eqn:Eq.
  - exists q. split; [done|]. apply (not_genesis _ _ _ _ _ _ _ _ _ _ _ Hix p Hp). unfold cs_heap in Eq. rewrite Eq. by eexists.
  - destruct (common_root _ _ _ _ _ _ _ _ _ _ _ Hix p tip Hp Ht) as (g & G1 & G2). apply ancestor_step in G1 as [-> |(x & Ex & _)]; [|unfold cs_heap in Eq; congruence].
    destruct (linked_data _ _ _ _ _ _ _ _ _ _ _ Hix p Hp); [|exact Hd]. exact (linked_ancestor _ _ _ _ _ _ _ _ _ _ _ Hix tip p Ht (ac_linked _ _ _ _ _ _ _ _ _ Hac) G2).
Qed.

(** A block that may arrive, within the ranges of its types: it may be invalid in
    any way, but it has no two different transactions with the same hash, and
    none of them names an input twice, which nothing on the way checks. *)
Record block_in (b : CBlock) : Prop := {
  bn_header : header_in (header b);
  bn_count : zlen (vtx b) < 2 ^ 31;
  bn_txs : Forall tx_ok (vtx b);
  bn_ids : ~ hash_collision (map (serialized false) (vtx b));
  bn_inputs : inputs_once b;
  bn_checked : checked_ok params b;
  bn_arrives : arrives_block (unchecked b);
}.

(** A block that passes is the one that was given, and passes again. *)
Lemma CheckBlock_valid b b' : checked_ok params b -> CheckBlock b params true true = Ok (Valid b') ->
  unchecked b' = unchecked b /\ exists c, CheckBlock (unchecked b) params true true = Ok (Valid c).
Proof.
  intros Hch. destruct (fChecked b) eqn:Ef; [unfold CheckBlock; rewrite Ef; intros [= <-]; split; [done|by apply Hch]|]. intros Hb.
  assert (Eu : unchecked b = b) by (destruct b; cbn in Ef; by subst). split; [|rewrite Eu; by eexists].
  unfold CheckBlock in Hb. rewrite Ef, check_Valid in Hb. destruct Hb as (? & _ & Hb). inv_bind. rewrite check_Valid in *. destruct Hb as (? & _ & Hb). rewrite check_Valid in Hb. destruct Hb as (? & _ & Hb). by injection Hb as <-.
Qed.

Lemma block_in_checked b b' : block_in b -> CheckBlock b params true true = Ok (Valid b') ->
  block_in b' /\ block_good params (unchecked b') /\ header b' = header b /\ vtx b' = vtx b.
Proof.
  intros [B1 B2 B3 B4 B5 B6 B7] Hb. destruct (CheckBlock_valid b b' B6 Hb) as [E Hc]. unfold unchecked in E. injection E as Eh Ev.
  assert (Eu : unchecked b' = unchecked b) by (unfold unchecked; by rewrite Eh, Ev). unfold inputs_once in *.
  split_and!; [split|split|done|done]; unfold inputs_once; rewrite ?Eh, ?Eu; try done; try (cbn [unchecked vtx fChecked]; rewrite ?Ev; done).
  intros _. by rewrite Eu.
Qed.

(** The outcome of [AcceptBlock]: unless the block is new and stored, nothing
    changes for the active chain. *)
Definition accepted_as (manual : gset uint256) (n N : Z) (tip : Ptr) (v : verdict (Ptr * CBlock * bool)) s : Prop :=
  match v with
  | Valid (p, b, true) => inv n N s tip tip /\ is_sound manual (cs_heap s) (block_files s) (mapBlocksUnlinked s) [] /\ pblock_ok s (Some b)
  | _ => node manual n N s tip
  end.

Lemma AcceptBlock_store manual n N s tip p q b pos : node manual n N s tip -> block_in b -> block_good params (unchecked b) -> N + zlen (vtx b) < 2 ^ 32 ->
  mapBlockIndex (cs_tree s) !! CBlockHeader_GetHash (header b) = Some p -> pprev (at_ (cs_heap s) p) = Some q ->
  data_bit (nStatus (at_ (cs_heap s) p)) = 0 -> failed_bits (nStatus (at_ (cs_heap s) p)) = 0 ->
  exists s', ReceivedBlockTransactions params b p pos (set_files s (<[p := unchecked b]> (block_files s)) (undo_files s)) = Ok s' /\
    accepted_as manual n (N + zlen (vtx b)) tip (Valid (p, b, true)) s' /\ size (cs_heap s') = size (cs_heap s).
Proof.
  intros [[Hinv Hmax] Hsd] Hb Hgood HN Hm Hq Hd Hz. pose proof Hinv as [Hix _ _ _].
  destruct (tree_map _ (ix_tree _ _ _ _ _ _ _ _ _ _ _ Hix) _ _ Hm) as [Hp Hhash].
  destruct (Received_ok manual n N s tip tip p q b pos Hinv Hsd Hp Hq Hd Hz Hgood Hhash HN) as (s' & -> & R1 & R2 & [K1 K2 K3]). exists s'. split; [done|]. split.
  - split; [exact R1|]. split; [exact R2|]. intros b' x [= <-] Hx _ Hxh. cbn [block_files set_files] in K1. rewrite K1.
    pose proof (tree_hashes _ (ix_tree _ _ _ _ _ _ _ _ _ _ _ (st_index _ _ _ _ _ _ _ _ R1)) x Hx) as Hm'. unfold cs_heap in Hxh. rewrite Hxh, K2 in Hm'. cbn in Hm'.
    assert (x = p) as -> by congruence. by rewrite lookup_insert_eq.
  - rewrite <- !(size_dom (D := gset Ptr)), K3. done.
Qed.

Lemma AcceptBlock_ok manual n N s tip b req time pos : node manual n N s tip -> n + 1 <= 2 ^ 30 -> block_in b -> N + zlen (vtx b) < 2 ^ 32 ->
  exists v s', AcceptBlock params cfg fCheckpointsEnabled mapCheckpoints GetBlockWeight b req time pos s = Ok (v, s') /\
    accepted_as manual (n + 1) (N + zlen (vtx b)) tip v s' /\ (size (cs_heap s') <= Datatypes.S (size (cs_heap s)))%nat.
Proof.
  intros Hno Hn Hb HN. unfold AcceptBlock. pose proof (zlen_nonneg (vtx b)).
  destruct (AcceptBlockHeader_node manual n N s tip (failed_in_order s) (header b) time Hno Hn (bn_header _ Hb) (failed_in_order_ok s)) as (v & t' & -> & Hno1 & Hsize & Hv). cbn [mbind result_bind].
  set (s1 := set_tree s t') in *. destruct (node_n _ _ _ _ _ Hno1) as [Hn1 HN1].
  assert (Hkeep : forall s' v', node manual (n + 1) N s' tip -> size (cs_heap s') = size (cs_heap s1) -> (forall p b', v' <> Valid (p, b', true)) ->
    exists v s2, Ok (v', s') = Ok (v, s2) /\ accepted_as manual (n + 1) (N + zlen (vtx b)) tip v s2 /\ (size (cs_heap s2) <= Datatypes.S (size (cs_heap s)))%nat).
  { intros s' v' Hs' Es Hnv. exists v', s'. split; [done|]. split; [|rewrite Es; exact Hsize]. assert (Hw : node manual (n + 1) (N + zlen (vtx b)) s' tip) by (eapply node_weaken; [| |exact Hs']; lia).
    destruct v' as [[[p b'] []]|]; [by destruct (Hnv p b')|exact Hw|exact Hw]. }
  destruct v as [p|r]; [|by apply Hkeep]. destruct (Hv p eq_refl) as [Hm Hz]. pose proof Hno1 as [[Hinv1 _] _]. pose proof Hinv1 as [Hix1 _ _ _].
  destruct (tree_map _ (ix_tree _ _ _ _ _ _ _ _ _ _ _ Hix1) _ _ Hm) as [Hp Hhash]. change (cs_heap s1) with (bt_heap t'). fold (data_bit (nStatus (at_ (bt_heap t') p))).
  destruct (Z.eqb_spec (data_bit (nStatus (at_ (bt_heap t') p))) 0) as [Hd|Hd]; cbn [negb]; [|by apply Hkeep]. destruct (_ && _); [by apply Hkeep|].
  destruct (node_parent _ _ _ _ _ p Hno1 Hp Hd) as (q & Hq & Hgen). change (cs_heap s1) with (bt_heap t') in Hq, Hgen. change (bt_heap (cs_tree s1)) with (bt_heap t') in Hhash.
  assert (Hz' : failed_bits (nStatus (at_ (bt_heap t') p)) = 0) by (apply Hz; by rewrite <- Hhash).
  assert (Hmark : forall (c : bool), node manual (n + 1) N (if c then s1 else set_heap s1 (or_status (bt_heap t') p BLOCK_FAILED_VALID)) tip /\
    same_links (bt_heap t') (cs_heap (if c then s1 else set_heap s1 (or_status (bt_heap t') p BLOCK_FAILED_VALID)))).
  { intros []; [by split|]. split; [by apply node_reject|apply set_status_links]. }
  destruct (CheckBlock_returns b params (bn_checked _ Hb) (bn_count _ Hb)) as (res & Ec & _). rewrite Ec. cbn [mbind result_bind].
  destruct res as [b'|r]; [|apply Hkeep; [apply Hmark|apply same_links_size, Hmark|done]].
  destruct (block_in_checked b b' Hb Ec) as (Hb' & Hgood & Eh & Ev). rewrite <- Ev in *. rewrite <- Eh in Hm. destruct (block_good_fine _ _ Hgood) as [Hcb _]. rewrite Hq.
  pose proof (inv_heap _ _ _ _ _ Hinv1) as Hh1. destruct (ContextualCheckBlock_total (bt_heap t') b' q (versionbitscache s1) Hh1) as (ctx & caches & -> & Hdep);
    [apply (headers_inv_times params), Hix1|exact (prev_in _ Hh1 _ _ Hp Hq)|apply Hix1|exact Hcb|apply (bn_txs _ Hb')|apply (bn_count _ Hb')|]. cbn [mbind result_bind].
  destruct ctx as [[]|r].
  - pose proof (node_caches _ _ _ _ _ caches Hno1 Hdep) as Hno2. set (s2 := set_caches s1 caches (scriptExecutionCache s1)) in *. fold (unchecked b').
    destruct (AcceptBlock_store manual (n + 1) N s2 tip p q b' pos Hno2 Hb' Hgood HN Hm Hq Hd Hz') as (s3 & -> & Hacc & Es). cbn [mbind result_bind].
    exists (Valid (p, b', true)), s3. split; [done|]. split; [exact Hacc|]. rewrite Es. exact Hsize.
  - destruct (Hmark (corruptionPossible r)) as [M1 M2]. apply Hkeep; [|exact (same_links_size _ _ M2)|done]. 
    assert (Hd2 := grows_deployments _ _ Hh1 (same_links_grows _ _ M2) params caches Hdep). pose proof (node_caches _ _ _ _ _ caches M1 Hd2) as M3. by destruct (corruptionPossible r).
Qed.

(** ** Processing a block *)

(** With nothing better to do, the chain stays. *)
Lemma activate_settled n N s tip fuel pblock : is_settled n N s tip -> ActivateBestChain env params cfg machine fuel pblock s = Ok (true, s).
Proof.
  intros [Hinv Hmax]. pose proof Hinv as [Hix Hac Hck _]. pose proof (ref_cand _ _ _ _ _ _ _ _ _ Hck) as Ht. pose proof (inv_heap _ _ _ _ _ Hinv) as Hh. pose proof (ac_in _ _ _ _ _ _ _ _ _ Hac) as Hts.
  assert (Efind : FindMostWorkChain s = Ok (Some tip, s)).
  { unfold FindMostWorkChain. destruct (size (setBlockIndexCandidates s)) as [|k] eqn:Es; [apply size_empty_inv in Es; by apply Es in Ht|]. cbn [find_loop].
    pose proof (rbegin_spec (cs_heap s) (ix_works _ _ _ _ _ _ _ _ _ _ _ Hix) (setBlockIndexCandidates s)) as Hb.
    destruct (rbegin (cs_heap s) (setBlockIndexCandidates s)) as [m|]; [|rewrite Hb in Ht by (intros p Hp; by apply (ck_sound _ _ _ _ _ _ _ _ _ Hck)); by apply elem_of_empty in Ht].
    destruct Hb as [Hm Hm2]; [intros p Hp; by apply (ck_sound _ _ _ _ _ _ _ _ _ Hck)|]. pose proof (worse_total _ _ _ (Hmax m Hm) (Hm2 tip Ht)) as ->.
    destruct (at_ok _ Hh m Hts) as [Hm0 _ _].
    destruct (first_unusable_ok env params scripts n N s m m (Z.to_nat (Chain.nHeight (at_ (cs_heap s) m) + 1)) Hinv m Hts (ac_linked _ _ _ _ _ _ _ _ _ Hac)) as (res & -> & Hres); [lia|]. cbn [mbind result_bind].
    destruct res as [[x f]|]; [|done]. destruct Hres as (_ & Hax & Hx). by destruct Hx, (ac_clean _ _ _ _ _ _ _ _ _ Hac x Hax). }
  unfold ActivateBestChain. destruct fuel; cbn [activate_loop]; rewrite Efind; cbn [mbind result_bind]; by rewrite (inv_tip _ _ _ _ _ _ _ _ Hinv), bool_decide_eq_true_2.
Qed.

(** The steps the loop may need, from the size of the index and the heights. *)
Definition process_bound (n : Z) s : nat := (size (cs_heap s) + 2) * Z.to_nat (n + 1).

Lemma ProcessNewBlock_ok manual n N s tip b force time pos fuel : node manual n N s tip -> n + 1 <= 2 ^ 30 -> block_in b -> N + zlen (vtx b) < 2 ^ 32 ->
  (process_bound n s <= fuel)%nat ->
  exists ok s' tip', ProcessNewBlock env params cfg fCheckpointsEnabled mapCheckpoints GetBlockWeight machine fuel b force time pos s = Ok (ok, s') /\
    node manual (n + 1) (N + zlen (vtx b)) s' tip' /\ (size (cs_heap s') <= Datatypes.S (size (cs_heap s)))%nat.
Proof.
  intros Hno Hn Hb HN Hf. unfold ProcessNewBlock. destruct (node_n _ _ _ _ _ Hno) as [Hn0 HN0]. pose proof (zlen_nonneg (vtx b)).
  destruct (CheckBlock_returns b params (bn_checked _ Hb) (bn_count _ Hb)) as (res & Ec & _). rewrite Ec. cbn [mbind result_bind].
  destruct res as [b1|r]; [|exists false, s, tip; split; [done|]; split; [eapply node_weaken; [| |exact Hno]; lia|lia]].
  destruct (block_in_checked b b1 Hb Ec) as (Hb1 & _ & _ & Ev). rewrite <- Ev in *.
  destruct (AcceptBlock_ok manual n N s tip b1 force time pos Hno Hn Hb1 HN) as (v & s1 & -> & Hacc & Hsize). cbn [mbind result_bind].
  destruct v as [[[p b2] new]|r]; [|exists false, s1, tip; split; [done|]; split; done]. destruct new; cbn [accepted_as] in Hacc.
  - destruct Hacc as (Hinv1 & Hsd1 & Hpb). assert (Hbound : (activation_bound (n + 1) s1 <= fuel)%nat) by (unfold activation_bound, process_bound in *; nia).
    destruct (ActivateBestChain_ok env params cfg scripts Hcf machine (n + 1) (N + zlen (vtx b1)) s1 tip tip (Some b2) fuel Hinv1 Hpb Hbound) as (s2 & tip2 & -> & Hset & Hev & _).
    exists true, s2, tip2. split; [done|]. split; [split; [exact Hset|]|].
    + exact (sound_evolves _ _ _ manual [] s1 s2 (inv_heap _ _ _ _ _ Hinv1) Hev Hsd1).
    + rewrite (same_links_size _ _ (ev_links _ _ _ _ _ Hev)). exact Hsize.
  - exists true, s1, tip. split; [apply (activate_settled (n + 1) (N + zlen (vtx b1)) s1 tip), Hacc|]. done.
Qed.

(** ** The best chain *)

(** Every chain of stored blocks that follows the rules, and has no hash in
    [manual], has at most the work of the active chain. *)
Lemma node_best manual n N s tip p u : node manual n N s tip -> valid_chain env params scripts (cs_heap s) (block_files s) p u ->
  (forall a, ancestor (cs_heap s) p a -> phashBlock (at_ (cs_heap s) a) ∉ manual) -> ~ worse (cs_heap s) tip p.
Proof.
  clear GetBlockWeight.
  intros [[Hinv Hmax] [[D1 D2] _]] Hv Hman. pose proof Hinv as [Hix Hac Hck _]. pose proof (inv_heap _ _ _ _ _ Hinv) as Hh. pose proof (ac_in _ _ _ _ _ _ _ _ _ Hac) as Ht.
  assert (Hroot : forall a, is_Some (cs_heap s !! a) -> pprev (at_ (cs_heap s) a) = None -> ancestor (cs_heap s) tip a).
  { intros a Ha Hn. destruct (common_root _ _ _ _ _ _ _ _ _ _ _ Hix a tip Ha Ht) as (g & G1 & G2). apply ancestor_step in G1 as [-> |(x & Ex & _)]; [done|unfold cs_heap in Hn; congruence]. }
  assert (Hclean : clean (cs_heap s) p).
  { intros a Ha. destruct (Z.eq_dec (failed_bits (nStatus (at_ (cs_heap s) a))) 0) as [|Hf]; [done|exfalso].
    destruct (D2 a (proj1 (ancestor_in _ _ _ Hh (valid_in _ _ _ _ _ _ _ Hv) Ha)) Hf) as (c & Hc & Hw). pose proof (ancestor_trans _ _ _ _ Ha Hc) as Hpc. destruct Hw as [[Hw1 Hw2]|[Hw|Hw]].
    - destruct (valid_ancestor _ _ _ _ _ _ _ _ Hv Hpc) as [w Hvc]. destruct (pprev (at_ (cs_heap s) c)) as [y|] eqn:Ey.
      + destruct (valid_inv _ _ _ _ _ _ _ _ Hvc Ey) as (b & _ & _ & _ & Hb & _). congruence.
      + by apply Hw1, (ac_clean _ _ _ _ _ _ _ _ _ Hac), Hroot; [eapply valid_in|].
    - by eapply refused_not_valid.
    - by apply (Hman c Hpc). }
  assert (Hlink : linked (cs_heap s) p).
  { clear Hman. induction Hv as [p Hp Hn|p q b u undo u' Hp Hq _ IH Hb _].
    - exact (linked_ancestor _ _ _ _ _ _ _ _ _ _ _ Hix tip p Ht (ac_linked _ _ _ _ _ _ _ _ _ Hac) (Hroot p Hp Hn)).
    - destruct (Z.eq_dec (nChainTx (at_ (cs_heap s) p)) 0) as [E|E]; [exfalso|exact E]. pose proof (ancestor_prev _ _ _ Hq) as Ha.
      destruct (D1 p) as [Hx|(x & Hx & Hw)]; [by eexists|unfold linked; tauto|by apply elem_of_nil in Hx|]. assert (x = q) as -> by congruence. destruct Hw as [Hw|[Hw _]].
      + by apply Hw, Hclean.
      + apply Hw, IH. by eapply clean_ancestor. }
  pose proof (valid_in _ _ _ _ _ _ _ Hv) as Hp. intros Hw. apply (Hmax p); [|exact Hw]. apply (ck_complete _ _ _ _ _ _ _ _ _ Hck); [done|done|done|].
  intros Hw'. by apply (worse_irrefl (cs_heap s) tip), (worse_trans _ _ p).
Qed.
End Accept.
