(* ===== verification/ChainManual.v ===== *)
(** * Blocks that the operator declares invalid

    [InvalidateBlock] takes the active chain back below the block, marks it and
    the blocks on top of it, and makes every block candidate again that is as
    good as the new tip. What it leaves is a state from which [ActivateBestChain]
    finds the best of the chains that remain. *)
From S2P Require Import Prelude StrEncodings Serialize Amount Crypto Script Transaction Cash ArithUint256 Block Chain Pow VersionBits Merkle.
From S2P Require Import Interpreter InterpreterSafety SigHash TxVerify Compressor CheckBlock Connect ConnectSpec ConnectProps.
From S2P Require Import ChainState ChainGrowth ChainStateInv ChainActivate ChainAccept.

#[local] Opaque SHA256 SHA1 RIPEMD160 Hash160 Hash Hash2 GetHash GetWitnessHash CBlockHeader_GetHash.

Lemma explained_manual env params scripts manual manual' h blocks unlinked queue : manual ⊆ manual' ->
  explained env params scripts manual h blocks unlinked queue -> explained env params scripts manual' h blocks unlinked queue.
Proof.
  intros Hm [D1 D2]. split; [exact D1|]. intros p Hp Hf. destruct (D2 p Hp Hf) as (a & Ha & [Hw|[Hw|Hw]]); exists a; [by auto..|].
  split; [exact Ha|]. right. right. by apply Hm.
Qed.

Section Manual.
Context `{Arr : !Arrivals} (env : ScriptEnv) (params : Params) (cfg : NodeConfig) (scripts : gset uint256) (Hcf : setting_ok env params cfg scripts).
Context {S : Type} `{!CashView S} `{!CashViewOk S} `{!ScriptMemory} `{!ScriptMemoryOk} (machine : Machine S).
Abbreviation State := (ChainState S).
Abbreviation inv := (state_ok env params scripts).
Abbreviation is_sound := (sound env params scripts).
Abbreviation is_explained := (explained env params scripts).
Implicit Types (s : ChainState S).

(** What is left of the invariant while blocks are marked: the candidates may be
    too few, but none is worse than the tip. *)
Record based (manual : gset uint256) (n N : Z) s (tip : Ptr) : Prop := {
  bs_index : index_ok env params scripts n N (cs_tree s) (g_failed_blocks s) (block_files s) (undo_files s) (versionbitscache s) (mapBlocksUnlinked s);
  bs_active : active_ok env params scripts (cs_heap s) (block_files s) (undo_files s) (chainActive s) (pcashTip s) tip;
  bs_cands : forall p, p ∈ setBlockIndexCandidates s -> is_Some (cs_heap s !! p) /\ linked (cs_heap s) p /\ ~ worse (cs_heap s) p tip;
  bs_scripts : scriptExecutionCache s = scripts;
  bs_explained : is_explained manual (cs_heap s) (block_files s) (mapBlocksUnlinked s) [];
}.

Lemma based_heap manual n N s tip : based manual n N s tip -> heap_ok (cs_heap s).
Proof. intros [Hix _ _ _ _]. exact (ix_heap _ _ _ _ _ _ _ _ _ _ _ Hix). Qed.

(** The state after [nStatus |= flag] on [p], which is no candidate any more. *)
Definition marked s (p : Ptr) (flag : Z) (failed : gset Ptr) : State :=
  set_invalid (set_candidates (set_heap s (or_status (cs_heap s) p flag)) (setBlockIndexCandidates s ∖ {[p]})) (pindexBestInvalid s) failed.

Lemma marked_heap s p flag failed : cs_heap (marked s p flag failed) = or_status (cs_heap s) p flag.
Proof. done. Qed.

Lemma or_status_failed (h : Heap) p flag q : flag = BLOCK_FAILED_VALID \/ flag = BLOCK_FAILED_CHILD -> is_Some (h !! p) ->
  failed_bits (nStatus (at_ h q)) <> 0 -> failed_bits (nStatus (at_ (or_status h p flag) q)) <> 0.
Proof. intros Hfl Hp Hq. unfold or_status. rewrite set_status_at by done. case_bool_decide; [by apply lor_failed|done]. Qed.

Lemma based_mark manual n N s tip p flag failed : based manual n N s tip -> is_Some (cs_heap s !! p) -> ~ ancestor (cs_heap s) tip p ->
  flag = BLOCK_FAILED_VALID \/ flag = BLOCK_FAILED_CHILD ->
  (forall q, q ∈ failed -> q ∈ g_failed_blocks s \/ (q = p /\ flag = BLOCK_FAILED_VALID)) ->
  (exists a, ancestor (cs_heap s) p a /\ phashBlock (at_ (cs_heap s) a) ∈ manual) -> based manual n N (marked s p flag failed) tip.
Proof.
  intros Hb Hp Hno Hfl Hfail (a & Ha & Hman). pose proof (based_heap _ _ _ _ _ Hb) as Hh. destruct Hb as [B1 B2 B3 B4 B5].
  destruct (lor_failed (nStatus (at_ (cs_heap s) p)) flag Hfl) as (Hf & _). split; rewrite ?marked_heap.
  - exact (index_mark env params scripts n N (cs_tree s) (g_failed_blocks s) failed (block_files s) (undo_files s) (versionbitscache s) (mapBlocksUnlinked s) p flag Hfl B1 Hp Hfail).
  - apply (active_status env params scripts (cs_heap s) (block_files s) (undo_files s) (undo_files s) (chainActive s) (pcashTip s) tip p _ Hh Hp); [done|done|exact B2].
  - intros q Hq. change (q ∈ setBlockIndexCandidates s ∖ {[p]}) in Hq. apply elem_of_difference in Hq as [Hq _]. destruct (B3 q Hq) as (E1 & E2 & E3). unfold or_status, linked. rewrite set_status_worse by done.
    destruct (set_status_same (cs_heap s) p (Z.lor (nStatus (at_ (cs_heap s) p)) flag) q Hp) as (_ & -> & _). split_and!; [|exact E2|exact E3].
    by apply (same_links_at _ _ q (set_status_links (cs_heap s) p (Z.lor (nStatus (at_ (cs_heap s) p)) flag))).
  - exact B4.
  - apply (explained_mark env params scripts manual manual (cs_heap s) (block_files s) (mapBlocksUnlinked s) [] p _ Hh Hp Hf); [done| |exact B5].
    right. exists a. auto.
Qed.

(** ** Back below the block *)
Lemma disconnect_while_ok n N p q fuel : forall s tip r b, inv n N s tip r -> is_Some (cs_heap s !! p) -> pprev (at_ (cs_heap s) p) = Some q ->
  ancestor (cs_heap s) tip p -> Chain.nHeight (at_ (cs_heap s) tip) - Chain.nHeight (at_ (cs_heap s) p) < Z.of_nat fuel ->
  exists s', disconnect_while params machine fuel p b s = Ok (true, true, s') /\ inv n N s' q r /\ cs_tree s' = cs_tree s /\
    setBlockIndexCandidates s' = setBlockIndexCandidates s /\ block_files s' = block_files s /\ mapBlocksUnlinked s' = mapBlocksUnlinked s.
Proof.
  induction fuel as [|fuel IH]; intros s tip r b Hinv Hp Hq Ha Hf; pose proof Hinv as [Hix Hac _ _]; pose proof (inv_heap _ _ _ _ _ _ _ _ Hinv) as Hh;
    pose proof (ac_in _ _ _ _ _ _ _ _ _ Hac) as Ht; destruct (ancestor_in _ _ _ Hh Ht Ha) as [_ Hle]; [lia|]. cbn [disconnect_while].
  rewrite (ac_chain _ _ _ _ _ _ _ _ _ Hac), (proj2 (chain_of_contains _ tip p Hh Ht Hp) Ha). cbn [negb].
  destruct (decide (tip = p)) as [-> |Hne].
  - destruct (DisconnectTip_ok env params scripts machine n N s p r q Hinv Hq) as (s1 & -> & Hinv1 & Et & Ec & Ef & Eu). cbn [mbind result_bind negb].
    assert (Eh : cs_heap s1 = cs_heap s) by (unfold cs_heap; by rewrite Et). pose proof (prev_in _ Hh _ _ Hp Hq) as Hqs.
    assert (Hno : Contains (cs_heap s1) (chainActive s1) p = false).
    { apply not_true_iff_false. rewrite (ac_chain _ _ _ _ _ _ _ _ _ (st_active _ _ _ _ _ _ _ _ Hinv1)), Eh, (chain_of_contains _ q p Hh Hqs Hp).
      intros Hqp. destruct (ancestor_in _ _ _ Hh Hqs Hqp) as [_ Hle']. destruct (at_ok _ Hh p Hp) as [_ Hprev _]. rewrite Hq in Hprev. lia. }
    exists s1. split; [|by split_and!]. destruct fuel; cbn [disconnect_while]; by rewrite Hno.
  - apply ancestor_step in Ha as [-> |(x & Ex & Ha)]; [done|].
    destruct (DisconnectTip_ok env params scripts machine n N s tip r x Hinv Ex) as (s1 & -> & Hinv1 & Et & Ec & Ef & Eu). cbn [mbind result_bind negb].
    assert (Eh : cs_heap s1 = cs_heap s) by (unfold cs_heap; by rewrite Et). destruct (at_ok _ Hh tip Ht) as [_ Hprev _]. rewrite Ex in Hprev. destruct Hprev as [_ Hhx].
    destruct (IH s1 x r true Hinv1) as (s2 & E2 & Hinv2 & Et2 & Ec2 & Ef2 & Eu2); rewrite ?Eh; [done|done|done|lia|].
    exists s2. split; [exact E2|]. split_and!; congruence || done.
Qed.

(** ** The blocks on top of it *)
Lemma fail_children_ok manual n N tip p fuel : forall s walk, based manual n N s tip -> is_Some (cs_heap s !! walk) -> ancestor (cs_heap s) walk p -> phashBlock (at_ (cs_heap s) p) ∈ manual ->
  ~ ancestor (cs_heap s) tip p -> Chain.nHeight (at_ (cs_heap s) walk) - Chain.nHeight (at_ (cs_heap s) p) <= Z.of_nat fuel ->
  exists s', fail_children fuel (Some walk) p s = Ok s' /\ based manual n N s' tip /\ same_links (cs_heap s) (cs_heap s') /\ block_files s' = block_files s /\
    (forall q, failed_bits (nStatus (at_ (cs_heap s) q)) <> 0 -> failed_bits (nStatus (at_ (cs_heap s') q)) <> 0).
Proof.
  induction fuel as [|fuel IH]; intros s walk Hb Hw Ha Hman Hno Hf; pose proof (based_heap _ _ _ _ _ Hb) as Hh; destruct (ancestor_in _ _ _ Hh Hw Ha) as [_ Hle];
    cbn [fail_children]; (case_bool_decide as E; [exists s; by split_and!|]).
  - destruct E. f_equal. symmetry. apply (ancestor_same _ _ _ Hh Hw Ha). lia.
  - assert (Hnw : ~ ancestor (cs_heap s) tip walk) by (intros Htw; apply Hno; by eapply ancestor_trans).
    pose proof (based_mark manual n N s tip walk BLOCK_FAILED_CHILD (g_failed_blocks s) Hb Hw Hnw (or_intror eq_refl) (fun q Hq => or_introl Hq) (ex_intro _ p (conj Ha Hman))) as Hb1.
    change (set_candidates _ _) with (marked s walk BLOCK_FAILED_CHILD (g_failed_blocks s)). change (cs_heap (set_heap s ?h)) with h.
    pose proof (set_status_links (cs_heap s) walk (Z.lor (nStatus (at_ (cs_heap s) walk)) BLOCK_FAILED_CHILD)) as Hlk. fold (or_status (cs_heap s) walk BLOCK_FAILED_CHILD) in Hlk.
    destruct (same_links_at _ _ walk Hlk) as (_ & _ & -> & _). apply ancestor_step in Ha as [-> |(q & Eq & Ha)]; [done|]. rewrite Eq.
    destruct (at_ok _ Hh walk Hw) as [_ Hprev _]. rewrite Eq in Hprev. destruct Hprev as [Hq Hhq].
    destruct (IH _ q Hb1) as (s2 & -> & Hb2 & Hl2 & Ef2 & Hf2); rewrite ?marked_heap.
    + by apply (same_links_at _ _ q Hlk).
    + by apply (same_links_ancestor _ _ _ _ Hlk).
    + by destruct (same_links_at _ _ p Hlk) as (_ & -> & _).
    + by rewrite (same_links_ancestor _ _ _ _ Hlk).
    + destruct (same_links_at _ _ q Hlk) as (_ & _ & _ & _ & -> & _). destruct (same_links_at _ _ p Hlk) as (_ & _ & _ & _ & -> & _). lia.
    + exists s2. split; [done|]. split_and!; [done|by eapply same_links_trans|done|]. intros x Hx. apply Hf2. rewrite marked_heap. apply or_status_failed; [by right|done|done].
Qed.

(** ** The candidates again *)
Lemma usable_linked n N t failed blocks undos caches unlinked p : index_ok env params scripts n N t failed blocks undos caches unlinked -> is_Some (bt_heap t !! p) ->
  usable (at_ (bt_heap t) p) = true <-> failed_bits (nStatus (at_ (bt_heap t) p)) = 0 /\ linked (bt_heap t) p.
Proof.
  intros Hix Hp. unfold usable. rewrite IsValid_spec by (unfold asked; auto). rewrite !andb_true_iff, negb_true_iff, Z.eqb_eq, Z.eqb_neq. unfold linked. split; [tauto|].
  intros [Hz Hl]. split_and!; [done| |done]. apply Z.leb_le.
  by destruct (ix_data _ _ _ _ _ _ _ _ _ _ _ Hix p Hp (linked_data _ _ _ _ _ _ _ _ _ _ _ Hix p Hp Hl)) as [? _].
Qed.

Lemma all_blocks_in n N s failed blocks undos caches unlinked p : index_ok env params scripts n N (cs_tree s) failed blocks undos caches unlinked ->
  p ∈ all_blocks s <-> is_Some (cs_heap s !! p).
Proof.
  intros Hix. pose proof (ix_tree _ _ _ _ _ _ _ _ _ _ _ Hix) as Ht. unfold all_blocks. rewrite list_elem_of_fmap. split.
  - intros ([hash q] & -> & Hq%elem_of_map_to_list). by apply (tree_map _ Ht hash).
  - intros Hp. exists (phashBlock (at_ (cs_heap s) p), p). split; [done|]. apply elem_of_map_to_list. by apply (tree_hashes _ Ht).
Qed.

(** With every block as good as the tip among the candidates, the invariant holds again. *)
Lemma based_again manual n N s tip : based manual n N s tip ->
  let again := filter (fun p => usable (at_ (cs_heap s) p) && negb (CBlockIndexWorkComparator (cs_heap s) p tip) = true) (all_blocks s) in
  inv n N (set_candidates s (list_to_set again ∪ setBlockIndexCandidates s)) tip tip.
Proof.
  intros Hb again. destruct Hb as [B1 B2 B3 B4 _]. pose proof (ac_in _ _ _ _ _ _ _ _ _ B2) as Ht. pose proof (ix_works _ _ _ _ _ _ _ _ _ _ _ B1) as Hw.
  assert (Hag : forall p, p ∈ again <-> is_Some (cs_heap s !! p) /\ failed_bits (nStatus (at_ (cs_heap s) p)) = 0 /\ linked (cs_heap s) p /\ ~ worse (cs_heap s) p tip).
  { intros p. unfold again. rewrite list_elem_of_filter, (all_blocks_in _ _ _ _ _ _ _ _ _ B1), andb_true_iff, negb_true_iff. split.
    - intros ([Hu Hc] & Hp). apply (usable_linked _ _ _ _ _ _ _ _ _ B1 Hp) in Hu as [? ?]. apply (comparator_not_worse _ Hw p tip Hp Ht) in Hc. done.
    - intros (Hp & Hz & Hl & Hn). split; [|done]. split; [by apply (usable_linked _ _ _ _ _ _ _ _ _ B1 Hp)|by apply (comparator_not_worse _ Hw p tip Hp Ht)]. }
  split; [exact B1|exact B2| |exact B4]. split; cbn [setBlockIndexCandidates set_candidates].
  - intros p [Hp|Hp]%elem_of_union; [|by apply B3]. apply elem_of_list_to_set, Hag in Hp as (? & _ & ? & ?). done.
  - intros p Hp Hl Hc Hn. apply elem_of_union_l, elem_of_list_to_set, Hag. split_and!; [done|apply Hc, ancestor_refl|done|done].
  - exact Ht.
  - apply B2.
  - apply B2.
  - exists (cache_abs (pcashTip s)). apply B2.
  - apply worse_irrefl.
Qed.

Lemma based_tip manual n N s tip : based manual n N s tip -> Tip s = Some tip.
Proof. intros [_ Hac _ _ _]. unfold Tip. rewrite (ac_chain _ _ _ _ _ _ _ _ _ Hac). apply chain_of_tip, Hac. Qed.

Lemma based_of manual manual' n N s s' tip r q : node env params scripts manual n N s tip -> manual ⊆ manual' -> inv n N s' q r -> cs_tree s' = cs_tree s ->
  block_files s' = block_files s -> mapBlocksUnlinked s' = mapBlocksUnlinked s -> based manual' n N s' q.
Proof.
  intros [_ [Hex _]] Hm [I1 I2 I3 I4] Et Ef Eu. split; [exact I1|exact I2|apply I3|exact I4|]. rewrite Ef, Eu. unfold cs_heap. rewrite Et. by eapply explained_manual.
Qed.

(** The chain below the block, when the block is in it. *)
Lemma InvalidateBlock_back manual n N s tip p q x : node env params scripts manual n N s tip -> is_Some (cs_heap s !! p) -> pprev (at_ (cs_heap s) p) = Some q ->
  exists was s1 tip1, disconnect_while params machine (length (chainActive s)) p false s = Ok (was, true, s1) /\ based ({[x]} ∪ manual) n N s1 tip1 /\
    cs_tree s1 = cs_tree s /\ block_files s1 = block_files s /\ ~ ancestor (cs_heap s) tip1 p /\ (was = true -> ancestor (cs_heap s) tip p).
Proof.
  intros Hno Hp Hq. pose proof Hno as [[Hinv _] _]. pose proof Hinv as [Hix Hac _ _]. pose proof (inv_heap _ _ _ _ _ _ _ _ Hinv) as Hh.
  pose proof (ac_in _ _ _ _ _ _ _ _ _ Hac) as Ht. assert (Hm : manual ⊆ {[x]} ∪ manual) by apply union_subseteq_r.
  assert (Hlen : Z.of_nat (length (chainActive s)) = Chain.nHeight (at_ (cs_heap s) tip) + 1).
  { rewrite (ac_chain _ _ _ _ _ _ _ _ _ Hac), chain_of_length. destruct (at_ok _ Hh tip Ht) as [Ht0 _ _]. lia. }
  destruct (Contains (cs_heap s) (chainActive s) p) eqn:Ec.
  - rewrite (ac_chain _ _ _ _ _ _ _ _ _ Hac) in Ec. apply (chain_of_contains _ tip p Hh Ht Hp) in Ec as Ha. destruct (at_ok _ Hh p Hp) as [Hp0 Hprev _]. rewrite Hq in Hprev.
    destruct (disconnect_while_ok n N p q (length (chainActive s)) s tip tip false Hinv Hp Hq Ha ltac:(lia)) as (s1 & -> & Hinv1 & Et & _ & Ef & Eu).
    exists true, s1, q. split; [done|]. split_and!; [by eapply (based_of manual)|done|done| |done].
    intros Hqp. destruct (ancestor_in _ _ _ Hh (proj1 Hprev) Hqp) as [_ Hle]. lia.
  - exists false, s, tip. split; [destruct (length (chainActive s)); cbn [disconnect_while]; by rewrite Ec|]. split_and!; [by eapply (based_of manual)|done|done| |done].
    intros Ha. rewrite (ac_chain _ _ _ _ _ _ _ _ _ Hac), (proj2 (chain_of_contains _ tip p Hh Ht Hp) Ha) in Ec. done.
Qed.

Lemma InvalidateBlock_ok manual n N s tip p q x : node env params scripts manual n N s tip -> is_Some (cs_heap s !! p) -> pprev (at_ (cs_heap s) p) = Some q ->
  phashBlock (at_ (cs_heap s) p) = x ->
  exists s' tip', InvalidateBlock params machine p s = Ok (true, s') /\ inv n N s' tip' tip' /\
    is_sound ({[x]} ∪ manual) (cs_heap s') (block_files s') (mapBlocksUnlinked s') [] /\
    same_links (cs_heap s) (cs_heap s') /\ block_files s' = block_files s.
Proof.
  intros Hno Hp Hq Hx. destruct (InvalidateBlock_back manual n N s tip p q x Hno Hp Hq) as (was & s1 & tip1 & Ed & Hb1 & Et & Ef & Hnp & Hwas).
  pose proof Hno as [[Hinv _] _]. pose proof (inv_heap _ _ _ _ _ _ _ _ Hinv) as Hh. pose proof (ac_in _ _ _ _ _ _ _ _ _ (st_active _ _ _ _ _ _ _ _ Hinv)) as Ht.
  assert (Eh : cs_heap s1 = cs_heap s) by (unfold cs_heap; by rewrite Et). unfold InvalidateBlock. rewrite Ed. cbn [mbind result_bind negb]. rewrite (inv_tip _ _ _ _ _ _ _ _ Hinv).
  assert (exists s2, (if was then fail_children (length (chainActive s)) (Some tip) p s1 else Ok s1) = Ok s2 /\ based ({[x]} ∪ manual) n N s2 tip1 /\
    same_links (cs_heap s) (cs_heap s2) /\ block_files s2 = block_files s /\
    (forall q, failed_bits (nStatus (at_ (cs_heap s) q)) <> 0 -> failed_bits (nStatus (at_ (cs_heap s2) q)) <> 0)) as (s2 & -> & Hb2 & Hl2 & Ef2 & Hf2).
  { rewrite <- Eh. destruct was; [|exists s1; by split_and!]. rewrite (ac_chain _ _ _ _ _ _ _ _ _ (st_active _ _ _ _ _ _ _ _ Hinv)), chain_of_length.
    destruct (at_ok _ Hh p Hp) as [Hp0 _ _]. destruct (at_ok _ Hh tip Ht) as [Ht0 _ _].
    destruct (fail_children_ok ({[x]} ∪ manual) n N tip1 p (Datatypes.S (Z.to_nat (Chain.nHeight (at_ (cs_heap s) tip)))) s1 tip Hb1) as (s2 & -> & H1 & H2 & H3 & H4);
      rewrite ?Eh; [done|by apply Hwas|rewrite Hx; by apply elem_of_union_l, elem_of_singleton|done|lia|]. rewrite Eh in H2, H4. exists s2. split_and!; [done|done|done|congruence|done]. }
  cbn [mbind result_bind]. change (set_invalid _ _ _) with (marked s2 p BLOCK_FAILED_VALID ({[p]} ∪ g_failed_blocks s2)).
  assert (Hp2 : is_Some (cs_heap s2 !! p)) by (by apply (same_links_at _ _ p Hl2)).
  assert (Hb3 : based ({[x]} ∪ manual) n N (marked s2 p BLOCK_FAILED_VALID ({[p]} ∪ g_failed_blocks s2)) tip1).
  { apply (based_mark _ _ _ _ _ _ _ _ Hb2 Hp2); [by rewrite (same_links_ancestor _ _ _ _ Hl2)|by left| |exists p; split; [apply ancestor_refl|]].
    - intros y [->%elem_of_singleton|Hy]%elem_of_union; [by right|by left].
    - destruct (same_links_at _ _ p Hl2) as (_ & -> & _). rewrite Hx. by apply elem_of_union_l, elem_of_singleton. }
  set (s3 := marked s2 p BLOCK_FAILED_VALID ({[p]} ∪ g_failed_blocks s2)) in *. rewrite (based_tip _ _ _ _ _ Hb3). cbv zeta.
  pose proof (based_again _ _ _ _ _ Hb3) as Hinv4. cbv zeta in Hinv4. set (s4 := set_candidates s3 _) in *.
  destruct (InvalidChainFound_ok env params scripts n N s4 tip1 tip1 p Hinv4) as (s5 & -> & Hinv5 & Hev5 & Eh5). cbn [mbind result_bind].
  exists s5, tip1. rewrite (ev_files _ _ _ _ _ Hev5), (ev_unlinked _ _ _ _ _ Hev5), Eh5. change (cs_heap s4) with (cs_heap s3). split_and!; [done|exact Hinv5|split; [apply Hb3|]| |exact Ef2].
  - destruct (lor_failed (nStatus (at_ (cs_heap s2) p)) BLOCK_FAILED_VALID (or_introl eq_refl)) as (Hf & _). apply failed_mark; [exact Hp2|exact Hf|].
    intros y [->%elem_of_singleton|Hy]%elem_of_union.
    + exists p. destruct (same_links_at _ _ p Hl2) as (_ & -> & _). auto.
    + destruct (sd_manual _ _ _ _ _ _ _ _ (proj2 Hno) y Hy) as (z & Hz1 & Hz2 & Hz3). exists z. destruct (same_links_at _ _ z Hl2) as (Hz & -> & _).
      split_and!; [by apply Hz|done|right; by apply Hf2].
  - eapply same_links_trans; [exact Hl2|]. apply set_status_links.
Qed.

(** The activation that follows finds the best chain without the block. *)
Lemma Invalidate_node manual n N s tip p q x fuel : node env params scripts manual n N s tip -> is_Some (cs_heap s !! p) -> pprev (at_ (cs_heap s) p) = Some q ->
  phashBlock (at_ (cs_heap s) p) = x ->
  (activation_bound n s <= fuel)%nat ->
  exists s1 s2 tip2, InvalidateBlock params machine p s = Ok (true, s1) /\ ActivateBestChain env params cfg machine fuel None s1 = Ok (true, s2) /\
    node env params scripts ({[x]} ∪ manual) n N s2 tip2 /\ same_links (cs_heap s) (cs_heap s2) /\ block_files s2 = block_files s.
Proof.
  intros Hno Hp Hq Hx Hf. destruct (InvalidateBlock_ok manual n N s tip p q x Hno Hp Hq Hx) as (s1 & tip1 & Ei & Hinv1 & Hsd1 & Hl1 & Ef1).
  assert (Hbound : (activation_bound n s1 <= fuel)%nat) by (unfold activation_bound in *; by rewrite (same_links_size _ _ Hl1)).
  destruct (ActivateBestChain_ok env params cfg scripts Hcf machine n N s1 tip1 tip1 None fuel Hinv1) as (s2 & tip2 & Ea & Hset & Hev & _); [done|done|].
  exists s1, s2, tip2. split_and!; [exact Ei|exact Ea| |by eapply same_links_trans; [|apply Hev]|rewrite (ev_files _ _ _ _ _ Hev); exact Ef1].
  split; [exact Hset|]. exact (sound_evolves _ _ _ _ [] s1 s2 (inv_heap _ _ _ _ _ _ _ _ Hinv1) Hev Hsd1).
Qed.

(** No block of the active chain was declared invalid. *)
Lemma node_obeys manual n N s tip p : node env params scripts manual n N s tip -> ancestor (cs_heap s) tip p -> phashBlock (at_ (cs_heap s) p) ∉ manual.
Proof.
  intros [[Hinv _] [_ Hman]] Ha Hp. pose proof Hinv as [Hix Hac _ _]. destruct (Hman _ Hp) as (q & Hq & Eq & Hf).
  pose proof (proj1 (ancestor_in _ _ _ (inv_heap _ _ _ _ _ _ _ _ Hinv) (ac_in _ _ _ _ _ _ _ _ _ Hac) Ha)) as Hps. pose proof (ix_tree _ _ _ _ _ _ _ _ _ _ _ Hix) as Ht.
  pose proof (tree_hashes _ Ht p Hps) as E1. pose proof (tree_hashes _ Ht q Hq) as E2. fold (cs_heap s) in E1, E2. rewrite Eq, E1 in E2. injection E2 as <-.
  apply Hf, (ac_clean _ _ _ _ _ _ _ _ _ Hac), Ha.
Qed.
End Manual.
