(* ===== verification/Networks.v ===== *)
(** * The three networks (chainparams.cpp)

    The main network, the test network and the regression test mode, with their
    genesis blocks; what the node's theorems ask of a network holds of each. The
    addresses of the seed nodes and the estimated transaction rate, which are
    data for other parts of the program, are left out. *)
From stdpp Require Import sorting.
From S2P Require Import Prelude StrEncodings Serialize Amount Crypto Script Transaction Cash ArithUint256 Block Chain Pow VersionBits Merkle.
From S2P Require Import Interpreter InterpreterSafety SigHash TxVerify Compressor CheckBlock Connect ConnectSpec ConnectProps.
From S2P Require Import ChainState ChainGrowth ChainStateInv ChainActivate ChainAccept.

(** ** Genesis blocks *)

(** The genesis block that pays to a script. *)
Definition CreateGenesisBlock_script (pszTimestamp : string) (genesisOutputScript : CScript) (nTime nNonce nBits nVersion : Z)
    (genesisReward : CAmount) : result CBlock :=
  let scriptSig := push_vch (chars pszTimestamp) (push_scriptnum 4 (push_int64 486604799 [])) in
  let txNew := mkCTransaction 1 [mkCTxIn COutPoint_null scriptSig SEQUENCE_FINAL []] [mkCTxOut genesisReward genesisOutputScript] 0 in
  let block root := mkCBlock (mkCBlockHeader nVersion uint256_null root nTime nBits nNonce) [txNew] false in
  '(root, _) ← BlockMerkleRoot (block uint256_null);
  mret (block root).

Definition CreateGenesisBlock (nTime nNonce nBits nVersion : Z) (genesisReward : CAmount) : result CBlock :=
  genesisOutputScript ← push_opcode OP_CHECKSIG
    (push_vch (ParseHex (chars "04678afdb0fe5548271967f1a67130b7105cd6a828e03909a67962e0ea1f61deb649f6bc3f4cef38c4f35504e51ec112de5c384df7ba0b8d578a4c702b6bf11d5f")) []);
  CreateGenesisBlock_script "The Times 03/Jan/2009 Chancellor on brink of second bailout for banks" genesisOutputScript
    nTime nNonce nBits nVersion genesisReward.

(** ** The parameters of a network *)
Record CChainParams := mkCChainParams {
  strNetworkID : string;
  consensus : Params;
  consensus_nMinimumChainWork : uint256;
  defaultAssumeValid : uint256;
  pchMessageStart : bytes;
  nDefaultPort : Z;
  nPruneAfterHeight : Z;
  genesis : CBlock;
  (** [PUBKEY_ADDRESS], [SCRIPT_ADDRESS], [SECRET_KEY], [EXT_PUBLIC_KEY] and [EXT_SECRET_KEY]. *)
  base58Prefixes : list bytes;
  bech32_hrp : string;
  fDefaultConsistencyChecks : bool;
  fRequireStandard : bool;
  fMineBlocksOnDemand : bool;
  checkpointData : list (Z * uint256);
  (** Of [chainTxData] the time and the number of transactions. *)
  chainTxData : Z * Z;
  m_fallback_fee_enabled : bool;
}.

Definition CMainParams : result CChainParams :=
  genesis ← CreateGenesisBlock 1231006505 2083236893 0x1d00ffff 1 (50 * CASH);
  let hash := CBlockHeader_GetHash (header genesis) in
  assert_then (bool_decide (hash = uint256S (chars "0x000000000019d6689c085ae165831e934ff763ae46a2a6c172b3f1b60a8ce26f"))) "consensus.hashGenesisBlock" (
  assert_then (bool_decide (hashMerkleRoot (header genesis) = uint256S (chars "0x4a5e1e4baab89f3a32518a88c31bc87f618f76673e2cc77ab2127b7afdeda33b"))) "genesis.hashMerkleRoot" (
  Ok {|
    strNetworkID := "main";
    consensus := {|
      hashGenesisBlock := hash;
      nSubsidyHalvingInterval := 210000;
      BIP16Height := 173805;
      BIP34Height := 227931;
      BIP34Hash := uint256S (chars "0x000000000000024b89b42a942fe0d9fea3bb44ab7bd1b19115dd6a759c0808b8");
      BIP65Height := 388381;
      BIP66Height := 363725;
      powLimit := uint256S (chars "00000000ffffffffffffffffffffffffffffffffffffffffffffffffffffffff");
      nPowTargetTimespan := 14 * 24 * 60 * 60;
      nPowTargetSpacing := 10 * 60;
      fPowAllowMinDifficultyBlocks := false;
      fPowNoRetargeting := false;
      nRuleChangeActivationThreshold := 1916;
      nMinerConfirmationWindow := 2016;
      vDeployments := [mkBIP9Deployment 28 1199145601 1230767999; mkBIP9Deployment 0 1462060800 1493596800;
                       mkBIP9Deployment 1 1479168000 1510704000];
    |};
    consensus_nMinimumChainWork := uint256S (chars "0x000000000000000000000000000000000000000000f91c579d57cad4bc5278cc");
    defaultAssumeValid := uint256S (chars "0x0000000000000000005214481d2d96f898e3d5416e43359c145944a909d242e0");
    pchMessageStart := [0xf9; 0xbe; 0xb4; 0xd9];
    nDefaultPort := 8333;
    nPruneAfterHeight := 100000;
    genesis := genesis;
    base58Prefixes := [[0]; [5]; [128]; [0x04; 0x88; 0xB2; 0x1E]; [0x04; 0x88; 0xAD; 0xE4]];
    bech32_hrp := "bc";
    fDefaultConsistencyChecks := false;
    fRequireStandard := true;
    fMineBlocksOnDemand := false;
    checkpointData :=
      [(11111, uint256S (chars "0x0000000069e244f73d78e8fd29ba2fd2ed618bd6fa2ee92559f542fdb26e7c1d"));
       (33333, uint256S (chars "0x000000002dd5588a74784eaa7ab0507a18ad16a236e7b1ce69f00d7ddfb5d0a6"));
       (74000, uint256S (chars "0x0000000000573993a3c9e41ce34471c079dcf5f52a0e824a81e7f953b8661a20"));
       (105000, uint256S (chars "0x00000000000291ce28027faea320c8d2b054b2e0fe44a773f3eefb151d6bdc97"));
       (134444, uint256S (chars "0x00000000000005b12ffd4cd315cd34ffd4a594f430ac814c91184a0d42d2b0fe"));
       (168000, uint256S (chars "0x000000000000099e61ea72015e79632f216fe6cb33d7899acb35b75c8303b763"));
       (193000, uint256S (chars "0x000000000000059f452a5f7340de6682a977387c17010ff6e6c3bd83ca8b1317"));
       (210000, uint256S (chars "0x000000000000048b95347e83192f69cf0366076336c639f9b7228e9ba171342e"));
       (216116, uint256S (chars "0x00000000000001b4f4b433e81ee46494af945cf96014816a4e2370f11b23df4e"));
       (225430, uint256S (chars "0x00000000000001c108384350f74090433e7fcf79a606b8e797f065b130575932"));
       (250000, uint256S (chars "0x000000000000003887df1f29024b06fc2200b55f8af8f35453d7be294df2d214"));
       (279000, uint256S (chars "0x0000000000000001ae8c72a0b0c301f67e3afca10e819efa9041e458e9bd7e40"));
       (295000, uint256S (chars "0x00000000000000004d9b4ef50f0f9d686fd69db2e03af35a100370c64632a983"))];
    chainTxData := (1516903077, 295363220);
    m_fallback_fee_enabled := false;
  |})).

Definition CTestNetParams : result CChainParams :=
  genesis ← CreateGenesisBlock 1296688602 414098458 0x1d00ffff 1 (50 * CASH);
  let hash := CBlockHeader_GetHash (header genesis) in
  assert_then (bool_decide (hash = uint256S (chars "0x000000000933ea01ad0ee984209779baaec3ced90fa3f408719526f8d77f4943"))) "consensus.hashGenesisBlock" (
  assert_then (bool_decide (hashMerkleRoot (header genesis) = uint256S (chars "0x4a5e1e4baab89f3a32518a88c31bc87f618f76673e2cc77ab2127b7afdeda33b"))) "genesis.hashMerkleRoot" (
  Ok {|
    strNetworkID := "test";
    consensus := {|
      hashGenesisBlock := hash;
      nSubsidyHalvingInterval := 210000;
      BIP16Height := 514;
      BIP34Height := 21111;
      BIP34Hash := uint256S (chars "0x0000000023b3a96d3484e5abb3755c413e7d41500f8e2a5c3f0dd01299cd8ef8");
      BIP65Height := 581885;
      BIP66Height := 330776;
      powLimit := uint256S (chars "00000000ffffffffffffffffffffffffffffffffffffffffffffffffffffffff");
      nPowTargetTimespan := 14 * 24 * 60 * 60;
      nPowTargetSpacing := 10 * 60;
      fPowAllowMinDifficultyBlocks := true;
      fPowNoRetargeting := false;
      nRuleChangeActivationThreshold := 1512;
      nMinerConfirmationWindow := 2016;
      vDeployments := [mkBIP9Deployment 28 1199145601 1230767999; mkBIP9Deployment 0 1456790400 1493596800;
                       mkBIP9Deployment 1 1462060800 1493596800];
    |};
    consensus_nMinimumChainWork := uint256S (chars "0x00000000000000000000000000000000000000000000002830dab7f76dbb7d63");
    defaultAssumeValid := uint256S (chars "0x0000000002e9e7b00e1f6dc5123a04aad68dd0f0968d8c7aa45f6640795c37b1");
    pchMessageStart := [0x0b; 0x11; 0x09; 0x07];
    nDefaultPort := 18333;
    nPruneAfterHeight := 1000;
    genesis := genesis;
    base58Prefixes := [[111]; [196]; [239]; [0x04; 0x35; 0x87; 0xCF]; [0x04; 0x35; 0x83; 0x94]];
    bech32_hrp := "tb";
    fDefaultConsistencyChecks := false;
    fRequireStandard := false;
    fMineBlocksOnDemand := false;
    checkpointData := [(546, uint256S (chars "000000002a936ca763904c3c35fce2f3556c559c0214345d31b1bcebf76acb70"))];
    chainTxData := (1516903490, 17082348);
    m_fallback_fee_enabled := true;
  |})).

Definition CRegTestParams : result CChainParams :=
  genesis ← CreateGenesisBlock 1296688602 2 0x207fffff 1 (50 * CASH);
  let hash := CBlockHeader_GetHash (header genesis) in
  assert_then (bool_decide (hash = uint256S (chars "0x0f9188f13cb7b2c71f2a335e3a4fc328bf5beb436012afca590b1a11466e2206"))) "consensus.hashGenesisBlock" (
  assert_then (bool_decide (hashMerkleRoot (header genesis) = uint256S (chars "0x4a5e1e4baab89f3a32518a88c31bc87f618f76673e2cc77ab2127b7afdeda33b"))) "genesis.hashMerkleRoot" (
  Ok {|
    strNetworkID := "regtest";
    consensus := {|
      hashGenesisBlock := hash;
      nSubsidyHalvingInterval := 150;
      BIP16Height := 0;
      BIP34Height := 100000000;
      BIP34Hash := uint256_null;
      BIP65Height := 1351;
      BIP66Height := 1251;
      powLimit := uint256S (chars "7fffffffffffffffffffffffffffffffffffffffffffffffffffffffffffffff");
      nPowTargetTimespan := 14 * 24 * 60 * 60;
      nPowTargetSpacing := 10 * 60;
      fPowAllowMinDifficultyBlocks := true;
      fPowNoRetargeting := true;
      nRuleChangeActivationThreshold := 108;
      nMinerConfirmationWindow := 144;
      vDeployments := [mkBIP9Deployment 28 0 NO_TIMEOUT; mkBIP9Deployment 0 0 NO_TIMEOUT;
                       mkBIP9Deployment 1 ALWAYS_ACTIVE NO_TIMEOUT];
    |};
    consensus_nMinimumChainWork := uint256S (chars "0x00");
    defaultAssumeValid := uint256S (chars "0x00");
    pchMessageStart := [0xfa; 0xbf; 0xb5; 0xda];
    nDefaultPort := 18444;
    nPruneAfterHeight := 1000;
    genesis := genesis;
    base58Prefixes := [[111]; [196]; [239]; [0x04; 0x35; 0x87; 0xCF]; [0x04; 0x35; 0x83; 0x94]];
    bech32_hrp := "bcrt";
    fDefaultConsistencyChecks := true;
    fRequireStandard := false;
    fMineBlocksOnDemand := true;
    checkpointData := [(0, uint256S (chars "0f9188f13cb7b2c71f2a335e3a4fc328bf5beb436012afca590b1a11466e2206"))];
    chainTxData := (0, 0);
    m_fallback_fee_enabled := true;
  |})).

Definition CreateChainParams (chain : string) : result CChainParams :=
  if String.eqb chain "main" then CMainParams
  else if String.eqb chain "test" then CTestNetParams
  else if String.eqb chain "regtest" then CRegTestParams
  else Throw (runtime_error "CreateChainParams: Unknown chain").

(** [UpdateVersionBitsParameters]: the deployment at position [d]. *)
Definition UpdateVersionBitsParameters (d nStartTime nTimeout : Z) (params : Params) : Params :=
  {| hashGenesisBlock := hashGenesisBlock params; nSubsidyHalvingInterval := nSubsidyHalvingInterval params;
     BIP16Height := BIP16Height params; BIP34Height := BIP34Height params; BIP34Hash := BIP34Hash params;
     BIP65Height := BIP65Height params; BIP66Height := BIP66Height params;
     nRuleChangeActivationThreshold := nRuleChangeActivationThreshold params; nMinerConfirmationWindow := nMinerConfirmationWindow params;
     vDeployments := alter (fun dep => mkBIP9Deployment (bit dep) nStartTime nTimeout) (Z.to_nat d) (vDeployments params);
     powLimit := powLimit params; fPowAllowMinDifficultyBlocks := fPowAllowMinDifficultyBlocks params;
     fPowNoRetargeting := fPowNoRetargeting params; nPowTargetSpacing := nPowTargetSpacing params;
     nPowTargetTimespan := nPowTargetTimespan params |}.

(** * Lemmas *)

#[local] Opaque SHA256 SHA1 RIPEMD160 Hash160 Hash Hash2 GetHash GetWitnessHash CBlockHeader_GetHash.

(** ** When a deployment can be active *)

Lemma bip9_periods h c k p : bip9 h c k p = THRESHOLD_ACTIVE -> (3 <= k)%nat.
Proof.
  destruct k as [|[|[|k]]]; [| | |lia]; destruct p as [p|]; cbn [bip9]; try discriminate.
  - cbn [bip9_next]. by repeat case_if.
  - destruct (back h (Z.to_nat (Period c)) p) as [q|]; cbn [bip9 bip9_next]; repeat case_if; cbn [bip9_next]; by repeat case_if.
Qed.

(** Not before three whole periods. *)
Lemma active_late h c p : heap_ok h -> 1 <= Period c -> BeginTime c <> ALWAYS_ACTIVE -> is_Some (h !! p) ->
  bip9_state h c (Some p) = THRESHOLD_ACTIVE -> 3 * Period c <= Chain.nHeight (at_ h p) + 1.
Proof.
  intros Hh HP Hna Hp. unfold bip9_state. rewrite (proj2 (Z.eqb_neq _ _)) by done.
  destruct (boundary_of h c (Some p)) as [b|] eqn:Eb; [|done]. destruct (boundary_of_spec h Hh c HP p b Hp Eb) as [_ Hb].
  unfold state_at. intros Hk%bip9_periods. assert (3 <= (Chain.nHeight (at_ h b) + 1) / Period c) as Hd by lia.
  apply (Z.mul_le_mono_nonneg_l _ _ (Period c)) in Hd; [|lia]. pose proof (Z.mul_div_le (Chain.nHeight (at_ h b) + 1) (Period c) ltac:(lia)). lia.
Qed.

(** And not before its time. *)
Lemma active_timely h c : heap_ok h -> BeginTime c <> ALWAYS_ACTIVE -> BeginTime c <= EndTime c ->
  (forall q, is_Some (h !! q) -> GetMedianTimePast h q < BeginTime c) -> forall p, is_Some (h !! p) -> bip9_state h c (Some p) = THRESHOLD_DEFINED.
Proof.
  intros Hh Hna Hbe Ht p Hp. unfold bip9_state. rewrite (proj2 (Z.eqb_neq _ _)) by done.
  assert (Hin : forall n q r, is_Some (h !! q) -> back h n q = Some r -> is_Some (h !! r)) by (intros n q r Hq Hr; apply (back_height h Hh _ _ _ Hq Hr)).
  assert (Hk : forall k q, is_Some (h !! q) -> bip9 h c k (Some q) = THRESHOLD_DEFINED).
  { induction k as [|k IH]; intros q Hq; [done|]. cbn [bip9].
    assert (bip9 h c k (back h (Z.to_nat (Period c)) q) = THRESHOLD_DEFINED) as ->.
    { destruct (back h (Z.to_nat (Period c)) q) as [r|] eqn:Er; [by eapply IH, Hin|by destruct k]. }
    cbn [bip9_next]. specialize (Ht q Hq). destruct (Z.leb_spec (EndTime c) (GetMedianTimePast h q)); [lia|].
    by destruct (Z.leb_spec (BeginTime c) (GetMedianTimePast h q)); [lia|]. }
  unfold boundary_of. destruct (_ <=? _); [|done]. destruct (back h _ p) as [b|] eqn:Eb; [|done]. unfold state_at. by eapply Hk, Hin.
Qed.

Lemma median_time_below h T : heap_ok h -> 0 < T -> (forall q, is_Some (h !! q) -> is_u32 (bi_nTime (at_ h q)) /\ bi_nTime (at_ h q) < T) ->
  forall p, is_Some (h !! p) -> GetMedianTimePast h p < T.
Proof.
  intros Hh HT Ht p Hp. unfold GetMedianTimePast. set (l := median_times h nMedianTimeSpan (Some p)).
  assert (Hl : Forall (fun t => t < T) l).
  { subst l. assert (Hs : forall q, Some p = Some q -> is_Some (h !! q)) by (by intros q [= <-]). revert Hs. generalize (Some p). generalize nMedianTimeSpan. intros n.
    induction n as [|n IH]; intros q Hq; [by destruct q; constructor|]. destruct q as [q|]; cbn [median_times]; constructor.
    - destruct (Ht q (Hq q eq_refl)) as [Hu Hlt]. unfold is_u32 in Hu. by rewrite i64_small by (unfold is_i64; lia).
    - apply IH. intros r Hr. eapply prev_in; [exact Hh|exact (Hq q eq_refl)|exact Hr]. }
  assert (Hs : Forall (fun t => t < T) (merge_sort Z.le (rev l))).
  { eapply Permutation_Forall; [symmetry; apply merge_sort_Permutation|]. by apply Forall_rev. }
  cbv zeta. destruct (nth_in_or_default (length (merge_sort Z.le (rev l)) / 2) (merge_sort Z.le (rev l)) 0) as [Hi|Hi]; [|rewrite Hi; lia].
  rewrite Forall_forall in Hs. by apply Hs.
Qed.

(** ** What may arrive on a network *)

(** Headers none of whose hashes is an exception to BIP 30, with any blocks. *)
Definition plain_arrivals (params : Params) : Arrivals :=
  {| arrives_header b := plain_hash params (CBlockHeader_GetHash b); arrives_block _ := True |}.

(** The same, for headers from before the deployment of segregated witness begins. *)
Definition early_arrivals (params : Params) : Arrivals :=
  {| arrives_header b := plain_hash params (CBlockHeader_GetHash b) /\ is_u32 (bh_nTime b) /\
       forall d, vDeployments params !! Z.to_nat DEPLOYMENT_SEGWIT = Some d -> bh_nTime b < nStartTime d;
     arrives_block _ := True |}.

(** With the height of BIP 16 below that of any activation, all plain headers may arrive. *)
Lemma plain_arrivals_ok env params scripts : 1 <= i32 (nMinerConfirmationWindow params) ->
  BIP16Height params <= 1 \/ (BIP16Height params <= 3 * i32 (nMinerConfirmationWindow params) /\
    forall d, vDeployments params !! Z.to_nat DEPLOYMENT_SEGWIT = Some d -> nStartTime d <> ALWAYS_ACTIVE) ->
  @arrivals_ok (plain_arrivals params) env params scripts.
Proof.
  intros HP Hb. split.
  - intros h p q Hh _ _ Hp Hq Hact. destruct (at_ok h Hh p Hp) as [_ Hprev _]. rewrite Hq in Hprev. destruct Hprev as [Hqs Hhq].
    destruct (at_ok h Hh q Hqs) as [H0 _ _]. destruct Hb as [Hb|[Hb Hd]]; [lia|]. unfold rule_active in Hact.
    destruct (vDeployments params !! Z.to_nat DEPLOYMENT_SEGWIT) as [d|] eqn:Ed; [|done]. apply bool_decide_eq_true_1 in Hact.
    apply active_late in Hact; [cbn [Period VersionBitsConditionChecker] in Hact; lia|done|exact HP|by apply Hd|done].
  - intros h blocks p q b u Hh Hin _ Hp Hq _ _. left. apply plain_bip30; [done| |done|done].
    intros x Hx. by destruct (Hin x Hx) as (_ & c & Hc & -> & _).
Qed.

(** Otherwise, those from before the deployment begins. *)
Lemma early_arrivals_ok env params scripts :
  (forall d, vDeployments params !! Z.to_nat DEPLOYMENT_SEGWIT = Some d -> 0 < nStartTime d <= nTimeout d) ->
  @arrivals_ok (early_arrivals params) env params scripts.
Proof.
  intros Hd. split.
  - intros h p q Hh _ Hin Hp Hq Hact. pose proof (prev_in h Hh p q Hp Hq) as Hqs. unfold rule_active in Hact.
    destruct (vDeployments params !! Z.to_nat DEPLOYMENT_SEGWIT) as [d|] eqn:Ed; [|done]. specialize (Hd d eq_refl). apply bool_decide_eq_true_1 in Hact.
    rewrite (active_timely h (VersionBitsConditionChecker params d) Hh) in Hact; [done|unfold ALWAYS_ACTIVE; cbn; lia|cbn; lia| |done].
    apply (median_time_below h _ Hh); [cbn; lia|]. intros x Hx. destruct (Hin x Hx) as (_ & c & (_ & Hu & Ht) & _ & _ & -> & _). split; [exact Hu|by apply Ht].
  - intros h blocks p q b u Hh Hin _ Hp Hq _ _. left. apply plain_bip30; [done| |done|done].
    intros x Hx. by destruct (Hin x Hx) as (_ & c & (Hc & _) & -> & _).
Qed.

(** ** The networks *)

(** The genesis block of a network. *)
Record genesis_ok `{!Arrivals} (params : Params) (g : CBlock) : Prop := {
  gn_header : header_in (header g);
  gn_hash : CBlockHeader_GetHash (header g) = hashGenesisBlock params;
  gn_prev : CBlockHeader_GetHash (header g) <> hashPrevBlock (header g);
  gn_target : target_valid params (bh_nBits (header g));
  gn_good : block_good params (unchecked g);
}.

(** What the theorems on the node ask of a network and of a node on it. *)
Record network_ok (arrivals : Arrivals) (p : CChainParams) : Prop := {
  nw_config : forall cfg, uint256_IsNull (hashAssumeValid cfg) = true -> config_ok (consensus p) cfg;
  nw_deployments : deployments_ok ∅ (consensus p) (map (fun _ => ∅) (vDeployments (consensus p)));
  nw_genesis : @genesis_ok arrivals (consensus p) (genesis p);
  nw_arrivals : forall env scripts, @arrivals_ok arrivals env (consensus p) scripts;
}.

Definition no_params : CChainParams :=
  mkCChainParams "none" (mkParams [] 0 0 0 [] 0 0 0 0 [] [] false false 0 0) [] [] [] 0 0 (mkCBlock (mkCBlockHeader 0 [] [] 0 0 0) [] false) [] "none" false false false [] (0, 0) false.
Definition main_params : CChainParams := Eval vm_compute in match CMainParams with Ok p => p | Throw _ => no_params end.
Definition test_params : CChainParams := Eval vm_compute in match CTestNetParams with Ok p => p | Throw _ => no_params end.
Definition regtest_params : CChainParams := Eval vm_compute in match CRegTestParams with Ok p => p | Throw _ => no_params end.

(** The assertions of the constructors hold. *)
Lemma main_created : CMainParams = Ok main_params.
Proof. vm_compute. reflexivity. Qed.
Lemma test_created : CTestNetParams = Ok test_params.
Proof. vm_compute. reflexivity. Qed.
Lemma regtest_created : CRegTestParams = Ok regtest_params.
Proof. vm_compute. reflexivity. Qed.

(** The genesis blocks have the same transaction. *)
Lemma genesis_txs_ok : Forall tx_ok (vtx (genesis main_params)).
Proof. constructor; [|constructor]. constructor; simpl; repeat constructor; simpl; try (by vm_compute); try (unfold is_i32; lia). Qed.

(** A genesis block from what can be computed. *)
Lemma genesis_from (arrivals : Arrivals) params g :
  is_u32 (bh_nBits (header g)) -> is_u32 (bh_nTime (header g)) -> uint256_IsNull (CBlockHeader_GetHash (header g)) = false ->
  block_work (bh_nBits (header g)) <= 2 ^ 224 -> arrives_header (header g) -> (forall b, arrives_block b) ->
  bool_decide (CBlockHeader_GetHash (header g) = hashGenesisBlock params) = true -> bool_decide (CBlockHeader_GetHash (header g) = hashPrevBlock (header g)) = false ->
  target_valid params (bh_nBits (header g)) -> vtx g = vtx (genesis main_params) -> accepts (CheckBlock (unchecked g) params true true) = true -> genesis_ok params g.
Proof.
  intros H1 H2 H3 H4 H5 H6 H7%bool_decide_eq_true_1 H8%bool_decide_eq_false_1 H9 Hv Hc. split; [by split|done|done|done|].
  split; cbn [unchecked fChecked vtx]; [done| |rewrite Hv; done|rewrite Hv; exact genesis_txs_ok| |unfold inputs_once; cbn [unchecked vtx]; rewrite Hv|apply H6].
  - destruct (CheckBlock _ _ _ _) as [[b|]|]; [by exists b|discriminate Hc|discriminate Hc].
  - rewrite Hv. apply no_collision. vm_compute. reflexivity.
  - intros tx ->%list_elem_of_singleton. apply (bool_decide_eq_true_1 (NoDup _)). vm_compute. reflexivity.
Qed.

(** The hash is none of the exceptions to BIP 30, by computation. *)
Lemma plain_check params x :
  uint256_IsNull x || bool_decide (x = BIP34Hash params) ||
  bool_decide (x = uint256S (chars "0x00000000000a4d0a398161ffc163c503763b1f4360639393e0e4c8e300e0caec")) ||
  bool_decide (x = uint256S (chars "0x00000000000743f190a18c5577a3c2d2a1f610ae9601ac046a38084ccb7cd721")) = false -> plain_hash params x.
Proof. intros [[[H1 H2]%orb_false_iff H3]%orb_false_iff H4]%orb_false_iff. apply bool_decide_eq_false_1 in H2, H3, H4. by split_and!. Qed.

Lemma deployments_none params : (0 <? i32 (nMinerConfirmationWindow params)) && (3 <=? length (vDeployments params))%nat &&
  forallb (fun d => nStartTime d <=? nTimeout d) (vDeployments params) = true ->
  deployments_ok ∅ params (map (fun _ => ∅) (vDeployments params)).
Proof.
  intros [[H1%Z.ltb_lt H2%Nat.leb_le]%andb_true_iff H3]%andb_true_iff. rewrite forallb_forall in H3. split; [lia| |done|].
  - apply Forall_forall. intros d Hd. by apply Z.leb_le, H3.
  - clear. induction (vDeployments params) as [|d l IH]; constructor; [apply empty_cache_valid|exact IH].
Qed.

Ltac genesis_done := apply genesis_from;
  [vm_compute; split; congruence|vm_compute; split; congruence|vm_compute; reflexivity|vm_compute; congruence| |intros b; exact I|
   vm_compute; reflexivity|vm_compute; reflexivity|split; [vm_compute; intros [_ ?]; discriminate|vm_compute; split; congruence]|reflexivity|vm_compute; reflexivity].

(** The test network and the regression test mode, for all plain headers. *)
Lemma regtest_ok : network_ok (plain_arrivals (consensus regtest_params)) regtest_params.
Proof.
  split.
  - intros cfg Hcfg. split; [split; [split; [reflexivity|decide_true]|cbn; lia|cbn; lia]|left; reflexivity|cbn; lia|exact Hcfg].
  - apply deployments_none. vm_compute. reflexivity.
  - genesis_done. apply plain_check. vm_compute. reflexivity.
  - intros env scripts. apply plain_arrivals_ok; [vm_compute; congruence|left; cbn; lia].
Qed.

Lemma test_ok : network_ok (plain_arrivals (consensus test_params)) test_params.
Proof.
  split.
  - intros cfg Hcfg. split; [split; [split; [reflexivity|decide_true]|cbn; lia|cbn; lia]|right; vm_compute; reflexivity|cbn; lia|exact Hcfg].
  - apply deployments_none. vm_compute. reflexivity.
  - genesis_done. apply plain_check. vm_compute. reflexivity.
  - intros env scripts. apply plain_arrivals_ok; [vm_compute; congruence|right]. split; [vm_compute; congruence|]. by intros d [= <-].
Qed.

(** The main network, for plain headers from before November 15th, 2016. *)
Lemma main_ok : network_ok (early_arrivals (consensus main_params)) main_params.
Proof.
  split.
  - intros cfg Hcfg. split; [split; [split; [reflexivity|decide_true]|cbn; lia|cbn; lia]|right; vm_compute; reflexivity|cbn; lia|exact Hcfg].
  - apply deployments_none. vm_compute. reflexivity.
  - genesis_done. split; [apply plain_check; vm_compute; reflexivity|]. split; [vm_compute; split; congruence|]. intros d [= <-]. cbn. lia.
  - intros env scripts. apply early_arrivals_ok. intros d [= <-]. cbn. lia.
Qed.

(** Every network the program knows satisfies what the theorems on the node ask. *)
Lemma CreateChainParams_ok chain p : CreateChainParams chain = Ok p -> exists arrivals, network_ok arrivals p.
Proof.
  unfold CreateChainParams. rewrite main_created, test_created, regtest_created.
  destruct (String.eqb chain "main"); [intros E; apply (inj Ok) in E as <-; eexists; exact main_ok|].
  destruct (String.eqb chain "test"); [intros E; apply (inj Ok) in E as <-; eexists; exact test_ok|].
  destruct (String.eqb chain "regtest"); [intros E; apply (inj Ok) in E as <-; eexists; exact regtest_ok|discriminate].
Qed.
