(* ===== verification/ChainNode.v ===== *)
(** * The node: from an empty store to the best chain

    Loading the genesis block and activating it gives a state that satisfies the
    invariant; every batch of headers and every block that arrives, and every
    block the operator declares invalid, keeps it. So, in whatever order they
    come, the active chain is a chain of valid blocks with the most work, and the
    view is the set of outputs it leaves. *)
From stdpp Require Import sorting.
From S2P Require Import Prelude StrEncodings Serialize Amount Crypto Script Transaction Cash ArithUint256 Block Chain Pow VersionBits Merkle.
From S2P Require Import Interpreter InterpreterSafety SigHash TxVerify Compressor CheckBlock Connect ConnectSpec ConnectProps.
From S2P Require Import ChainState ChainGrowth ChainStateInv ChainActivate ChainAccept ChainManual Networks.

#[local] Opaque SHA256 SHA1 RIPEMD160 Hash160 Hash Hash2 GetHash GetWitnessHash CBlockHeader_GetHash.

Section Start.
Context `{Arr : !Arrivals} (env : ScriptEnv) (params : Params) (cfg : NodeConfig) (Hcf : config_ok params cfg).
Context {S : Type} `{!CashView S} `{!CashViewOk S} `{!ScriptMemory} `{!ScriptMemoryOk} (machine : Machine S).
Abbreviation State := (ChainState S).
Implicit Types (s : ChainState S).

(** The state before anything is loaded, on top of a database. *)
Definition fresh_state (view : CCashViewCache S) : State :=
  mkChainState tree_empty [] ∅ [] None ∅ 1 (-1) arith_zero (map (fun _ => ∅) (vDeployments params)) ∅ view ∅ ∅ 0 0 O.

Section Genesis.
Context (g : CBlock) (Hgen : genesis_ok params g).

(** The index with the header of the genesis block. *)
Lemma index_genesis caches : deployments_ok ∅ params caches ->
  exists p t e, AddToBlockIndex (header g) tree_empty = Ok (p, t) /\ bt_heap t = {[p := e]} /\ mapBlockIndex t = {[hashGenesisBlock params := p]} /\
    pprev e = None /\ Chain.nHeight e = 0 /\ phashBlock e = hashGenesisBlock params /\ nStatus e = BLOCK_VALID_TREE /\ nTx e = 0 /\ nChainTx e = 0 /\
    index_ok env params ∅ 1 0 t ∅ ∅ ∅ caches [].
Proof.
  intros Hdep. destruct Hgen as [[G1 G2 G3 Garr G4] G5 G6 G7 _].
  assert (Hc : no_wrap params (compact_value (bh_nBits (header g)))).
  { destruct G7 as [_ [_ Hv]]. eapply no_wrap_le; [apply (cf_params _ _ Hcf)|apply Hv|apply (cf_limit _ _ Hcf)]. }
  destruct (accepted_genesis params (header g) G1 G2 Hc G5 G6) as (p & t & Ha & [Hi Hf Hlow Hm]).
  destruct (AddToBlockIndex_new (header g) tree_empty p t (lookup_empty _) G6 Ha) as (Hp & Hmap & e & Hh & Epp & Eph & Etm & Ebits & Etx & Ect & Est).
  pose proof (AddToBlockIndex_version (header g) tree_empty p t (lookup_empty _) Ha) as Ever.
  cbn in Epp. rewrite lookup_empty in Epp. pose proof Eph as Eph0. rewrite G5 in Hmap, Eph, G3. cbn [mapBlockIndex tree_empty bt_heap] in Hmap, Hh. rewrite insert_empty in Hmap. rewrite insert_empty in Hh.
  pose proof (hi_tree _ _ Hi) as Ht. pose proof (tree_heap t Ht) as Hok.
  assert (Hin : forall q, is_Some (bt_heap t !! q) -> q = p) by (intros q [x Hx]; rewrite Hh in Hx; by apply lookup_singleton_Some in Hx as [-> _]).
  assert (Hps : is_Some (bt_heap t !! p)) by (rewrite Hh, lookup_singleton_eq; by eexists).
  assert (Eat : at_ (bt_heap t) p = e) by (unfold at_; by rewrite Hh, lookup_singleton_eq).
  assert (Ehg : Chain.nHeight e = 0) by (destruct (at_ok _ Hok p Hps) as [_ Hprev _]; by rewrite Eat, Epp in Hprev).
  assert (Hw : val (nChainWork e) <= 2 ^ 224).
  { destruct (tree_work _ Ht p Hps) as [_ E]. rewrite Eat, Epp, Ebits in E. pose proof (target_work params _ (params_limit _ (cf_params _ _ Hcf)) G7). rewrite Z.mod_small in E by lia. lia. }
  assert (Hsum : path_sum (bt_heap t) p = 0) by (rewrite path_sum_step, Eat, Epp, Etx by done; done).
  exists p, t, e. refine (conj Ha (conj Hh (conj Hmap (conj Epp (conj Ehg (conj Eph (conj Est (conj Etx (conj Ect _))))))))). clear Ha. split.
  - exact Hi.
  - exact Hlow.
  - lia.
  - exact Hm.
  - intros q ->%Hin _. by rewrite Hmap, lookup_singleton_eq.
  - intros q Hq. exfalso. exact (not_elem_of_empty q Hq).
  - intros q ->%Hin. rewrite Eat, Ehg. lia.
  - intros q r ->%Hin. by rewrite Eat, Epp.
  - intros q ->%Hin. split; [by rewrite Eat, Eph|]. exists (header g). split; [exact Garr|]. unfold entry_of. cbv zeta. rewrite Ever, Eat, Epp. by split_and!.
  - intros q ->%Hin. rewrite Eat, Est. done.
  - intros q ->%Hin _. rewrite Eat. exact (conj Etx (conj Ect (lookup_empty p))).
  - intros q ->%Hin. by rewrite Eat, Est.
  - intros q ->%Hin. unfold linked. by rewrite Eat, Ect.
  - intros q ->%Hin. lia.
  - done.
  - intros q b Hb. by rewrite lookup_empty in Hb.
  - intros q ->%Hin. by rewrite Eat, Est.
  - intros q x Hx. by rewrite lookup_empty in Hx.
  - eapply (grows_deployments ∅); [|intros q x Hx; by rewrite lookup_empty in Hx|exact Hdep]. intros q x Hx. by rewrite lookup_empty in Hx.
  - intros q c Hc'. by apply elem_of_nil in Hc'.
  - by constructor.
Qed.

(** The genesis block is stored and linked, and nothing is active yet. *)
Record loaded (view : CCashViewCache S) s (p : Ptr) : Prop := {
  ld_index : index_ok env params ∅ 1 (zlen (vtx g)) (cs_tree s) (g_failed_blocks s) (block_files s) (undo_files s) (versionbitscache s) (mapBlocksUnlinked s);
  ld_only : forall q, is_Some (cs_heap s !! q) <-> q = p;
  ld_root : pprev (at_ (cs_heap s) p) = None;
  ld_height : Chain.nHeight (at_ (cs_heap s) p) = 0;
  ld_hash : phashBlock (at_ (cs_heap s) p) = CBlockHeader_GetHash (header g);
  ld_status : failed_bits (nStatus (at_ (cs_heap s) p)) = 0;
  ld_linked : linked (cs_heap s) p;
  ld_block : block_files s !! p = Some (unchecked g);
  ld_chain : chainActive s = [];
  ld_cands : setBlockIndexCandidates s = {[p]};
  ld_view : pcashTip s = view;
  ld_scripts : scriptExecutionCache s = ∅;
}.

Lemma LoadGenesisBlock_ok view pos : deployments_ok ∅ params (map (fun _ => ∅) (vDeployments params)) ->
  exists s p, LoadGenesisBlock params g pos (fresh_state view) = Ok (true, s) /\ loaded view s p.
Proof.
  intros Hdep0. destruct (index_genesis _ Hdep0) as (p & t & e & Ha & Hh & Hm & E1 & E2 & E3 & E4 & E5 & E6 & Hix).
  assert (Hps : is_Some (bt_heap t !! p)) by (rewrite Hh, lookup_singleton_eq; by eexists). assert (Eat : at_ (bt_heap t) p = e) by (unfold at_; by rewrite Hh, lookup_singleton_eq).
  pose proof (gn_good _ _ Hgen) as Hgood. destruct (block_good_fine _ _ Hgood) as [(tx & rest & Evtx & _) _]. cbn [unchecked vtx] in Evtx. pose proof (bg_count _ _ Hgood) as Hcount. cbn [unchecked vtx] in Hcount.
  assert (Hk : 0 < zlen (vtx g)) by (rewrite Evtx, zlen_cons; pose proof (zlen_nonneg rest); lia).
  unfold LoadGenesisBlock. cbn [fresh_state cs_tree mapBlockIndex tree_empty]. rewrite lookup_empty, Ha. clear Ha. cbn [mbind result_bind]. cbv zeta. fold (unchecked g).
  unfold ReceivedBlockTransactions, IsWitnessEnabled. set (s0 := set_files _ _ _). change (cs_heap s0) with (bt_heap t). change (versionbitscache s0) with (map (fun _ => ∅ : ThresholdConditionCache) (vDeployments params)). rewrite Eat, E1.
  destruct (deployment_state_ok (bt_heap t) params None DEPLOYMENT_SEGWIT (map (fun _ => ∅) (vDeployments params)) (ix_heap _ _ _ _ _ _ _ _ _ _ _ Hix)) as (sw & caches & -> & Hdep & _);
    [apply (headers_inv_times params), Hix|done|apply Hix|done|]. cbn [mbind result_bind mret result_ret]. rewrite E4.
  destruct (received_status BLOCK_VALID_TREE (bool_decide (sw = THRESHOLD_ACTIVE)) eq_refl) as (rb & st & -> & S1 & S2 & S3 & S4). cbn [mbind result_bind]. rewrite u32_small by (unfold is_u32; lia).
  assert (Hst : nStatus (at_ (bt_heap t) p) = BLOCK_VALID_TREE) by by rewrite Eat.
  pose proof (index_receive env params ∅ 1 0 t ∅ ∅ ∅ _ caches [] p (unchecked g) (zlen (vtx g)) pos.1 pos.2 st Hix Hps ltac:(right; by rewrite Hst) ltac:(by rewrite Hst) Hgood
    ltac:(rewrite Eat, E3; symmetry; apply (gn_hash _ _ Hgen)) Hk ltac:(lia) ltac:(by rewrite Hst) S2 ltac:(by rewrite Hst) S4 Hdep) as Hix1. rewrite Z.add_0_l in Hix1.
  set (h1 := alter _ p (bt_heap t)) in *. set (t1 := mkBlockTree h1 _ _) in *.
  assert (Eat1 : at_ h1 p = with_received (zlen (vtx g)) pos.1 pos.2 st e) by (unfold h1; rewrite alter_at, bool_decide_eq_true_2, Eat by done; done).
  assert (Hps1 : is_Some (h1 !! p)) by (by apply (same_links_at (bt_heap t) h1 p), Hps; apply alter_links).
  assert (Hrd : ready (bt_heap t1) [] p).
  { split; [exact Hps1|cbn [t1 bt_heap]; rewrite Eat1; exact S2|unfold linked; cbn [t1 bt_heap]; rewrite Eat1; tauto|cbn [t1 bt_heap]; rewrite Eat1; cbn; by rewrite E1|intros x; apply not_elem_of_nil]. }
  pose proof (index_link env params ∅ 1 (zlen (vtx g)) t1 ∅ _ ∅ caches [] p 1 Hix1 Hrd) as Hix2. destruct (ready_sum env params ∅ _ _ _ _ _ _ _ _ _ Hix1 Hrd) as [Esum Hpos].
  set (s1 := set_heap _ h1). change (length (mapBlocksUnlinked s1)) with O. rewrite link_loop_step. cbn [mapBlocksUnlinked s1 set_heap set_tree set_caches set_files s0 fresh_state filter map app].
  cbv zeta iota. unfold link_one. change (cs_heap s1) with (bt_heap t1). rewrite Esum. cbv zeta. unfold Tip. cbn [chainActive s1 set_heap set_tree set_caches set_files s0 fresh_state set_counters]. 
  change (Chain_Tip []) with (@None Ptr). cbn [mbind result_bind]. eexists _, p. split; [done|].
  set (h2 := alter _ p (bt_heap t1)) in *. assert (Eat2 : at_ h2 p = with_linked (path_sum (bt_heap t1) p) 1 (at_ h1 p)) by (unfold h2; by rewrite alter_at, bool_decide_eq_true_2).
  split; try done.
  - intros q. change (is_Some (h2 !! q) <-> q = p). unfold h2, t1, h1. cbn [bt_heap]. rewrite Hh. split; [|intros ->; rewrite !lookup_alter_eq, lookup_singleton_eq; by eexists].
    intros [x Hx]. destruct (decide (q = p)) as [|Hne]; [done|]. by rewrite !lookup_alter_ne, lookup_singleton_ne in Hx by done.
  - change (pprev (at_ h2 p) = None). by rewrite Eat2, Eat1.
  - change (Chain.nHeight (at_ h2 p) = 0). by rewrite Eat2, Eat1.
  - change (phashBlock (at_ h2 p) = CBlockHeader_GetHash (header g)). rewrite Eat2, Eat1. cbn. rewrite E3. symmetry. apply (gn_hash _ _ Hgen).
  - change (failed_bits (nStatus (at_ h2 p)) = 0). by rewrite Eat2, Eat1.
  - change (nChainTx (at_ h2 p) <> 0). rewrite Eat2. cbn [with_linked nChainTx]. lia.
  - cbn. by rewrite lookup_insert_eq.
  - cbn. by rewrite union_empty_r_L.
Qed.

(** ** Connecting the genesis block *)

Section Connect.
Context (view : CCashViewCache S) (Hview : cache_inv view) (Hempty : cache_abs view = ∅) (Hnull : cache_best view = uint256_null).

Lemma ConnectTip_genesis s p : loaded view s p ->
  exists v a b, ConnectTip env params cfg machine p None s = Ok (TipConnected, set_chain (set_times (set_view s v) a b) (chain_of (cs_heap s) p)) /\
    cache_inv v /\ cache_abs v = ∅ /\ cache_best v = CBlockHeader_GetHash (header g).
Proof.
  intros [Hix L1 L2 L3 L4 L5 L6 L7 L8 L9 L10 L11]. pose proof (gn_good _ _ Hgen) as Hgood. destruct (child_cache_ok view Hview) as (N1 & N2 & N3).
  pose proof (proj2 (L1 p) eq_refl) as Hp. pose proof (ix_heap _ _ _ _ _ _ _ _ _ _ _ Hix) as Hh.
  assert (Hnn : uint256_IsNull (CBlockHeader_GetHash (header g)) = false) by apply (hd_hash _ (gn_header _ _ Hgen)).
  unfold ConnectTip, Tip. rewrite L8, L2. change (Chain_Tip []) with (@None Ptr). rewrite bool_decide_eq_true_2 by done. cbn [assert_then].
  rewrite (read_stored env params ∅ _ _ _ _ _ _ _ _ s p (unchecked g) Hix eq_refl eq_refl L7). unfold ConnectBlock. fold (cs_heap s). rewrite L4, L10. cbn [unchecked header].
  rewrite (bool_decide_eq_true_2 (CBlockHeader_GetHash (header g) = CBlockHeader_GetHash (header g)) eq_refl). cbn [assert_then negb]. destruct (bg_valid _ _ Hgood) as [b' Hb']. change (mkCBlock (header g) (vtx g) false) with (unchecked g). rewrite Hb'. clear Hb'. cbn [mbind result_bind check]. rewrite L2.
  pose proof (GetBestBlock_ok (CCashViewCache_new view) N1) as Hbest. destruct (GetBestBlock (CCashViewCache_new view)) as [best c]. destruct Hbest as [-> (C1 & C2 & C3)].
  rewrite N3, Hnull, (bool_decide_eq_true_2 (uint256_null = uint256_null) eq_refl). cbn [assert_then]. rewrite (gn_hash _ _ Hgen) in *.
  rewrite (bool_decide_eq_true_2 (hashGenesisBlock params = hashGenesisBlock params) eq_refl). cbn [mbind result_bind cd_view cd_undo cd_tree cd_caches cd_scripts].
  destruct (SetBestBlock_ok c (hashGenesisBlock params) C1 Hnn) as (B1 & B2 & B3).
  destruct (child_flush_ok (SetBestBlock (hashGenesisBlock params) c) B1 Hnn) as (v2 & -> & F1 & F2 & F3). cbn [mbind result_bind assert_then]. rewrite B3 in F3. rewrite B2, C2, N2, Hempty in F2.
  cbv zeta. set (s1 := set_tree _ _). 
  destruct (FlushStateToDisk_ok machine FLUSH_STATE_IF_NEEDED s1) as (v3 & ta & tb & -> & (W1 & W2 & W3)); [exact F1|cbn; by rewrite F3|]. cbn in W2, W3.
  cbn [mbind result_bind negb]. change (cs_heap (set_times (set_view s1 v3) ta tb)) with (cs_heap s). change (chainActive (set_times (set_view s1 v3) ta tb)) with (chainActive s).
  rewrite L8, (SetTip_ok (cs_heap s) Hh) by (done || (intros j r Hj; by destruct j)). cbn [mbind result_bind]. exists v3, ta, tb. split; [|split_and!; [exact W1|by rewrite W2|by rewrite W3]].
  subst s1. destruct s. reflexivity.
Qed.

Lemma genesis_clean s p : loaded view s p -> clean (cs_heap s) p.
Proof. intros [Hix L1 L2 L3 L4 L5 L6 L7 L8 L9 L10 L11] q [-> |(x & Hx & _)]%ancestor_step; [done|congruence]. Qed.

(** With the genesis block as the only block, it is the tip for good. *)
Lemma genesis_node s p v a b : loaded view s p -> cache_inv v -> cache_abs v = ∅ -> cache_best v = CBlockHeader_GetHash (header g) ->
  node env params ∅ ∅ 1 (zlen (vtx g)) (set_candidates (set_chain (set_times (set_view s v) a b) (chain_of (cs_heap s) p)) {[p]}) p.
Proof.
  intros Hld V1 V2 V3. pose proof (genesis_clean s p Hld) as Hcl. destruct Hld as [Hix L1 L2 L3 L4 L5 L6 L7 L8 L9 L10 L11]. pose proof (proj2 (L1 p) eq_refl) as Hp.
  assert (Hr : reaches env params ∅ (cs_heap s) (block_files s) (undo_files s) p ∅) by (by apply reaches_genesis).
  set (s' := set_candidates _ _). change (is_Some (cs_heap s' !! p)) in Hp.
  assert (Hcands : forall q, q ∈ ({[p]} : gset Ptr) <-> q = p) by (intros q; apply elem_of_singleton).
  split; [split; [split|]|split; [split|]].
  - exact Hix.
  - split; [exact Hp|done|exact Hcl|exact L6|exact V1|by change (reaches env params ∅ (cs_heap s) (block_files s) (undo_files s) p (cache_abs v)); rewrite V2|by rewrite <- L4 in V3].
  - split; [|intros q Hq _ _ _; apply (proj2 (Hcands q)); by apply L1|exact Hp|exact L6|exact Hcl|by exists ∅|apply worse_irrefl].
    intros q Hq. rewrite (proj1 (Hcands q) Hq). split_and!; [exact Hp|exact L6|apply worse_irrefl].
  - exact L11.
  - intros q Hq. rewrite (proj1 (Hcands q) Hq). apply worse_irrefl.
  - intros q [x Hx] Hnl. destruct Hnl. destruct (ix_blocks _ _ _ _ _ _ _ _ _ _ _ Hix q x Hx) as (Hq & _). apply L1 in Hq as ->. exact L6.
  - intros q Hq Hf. apply L1 in Hq as ->. by destruct Hf.
  - intros x Hx. destruct (not_elem_of_empty x Hx).
Qed.

Lemma activate_genesis s p fuel : loaded view s p ->
  exists s', ActivateBestChain env params cfg machine fuel None s = Ok (true, s') /\ node env params ∅ ∅ 1 (zlen (vtx g)) s' p /\ size (cs_heap s') = 1%nat.
Proof.
  intros Hld. pose proof Hld as [Hix L1 L2 L3 L4 L5 L6 L7 L8 L9 L10 L11]. pose proof (proj2 (L1 p) eq_refl) as Hp. pose proof (ix_heap _ _ _ _ _ _ _ _ _ _ _ Hix) as Hh. fold (cs_heap s) in Hh.
  assert (Hcon : Contains (cs_heap s) [] p = false) by (unfold Contains; rewrite L3; by apply bool_decide_eq_false_2).
  assert (Efind : FindMostWorkChain s = Ok (Some p, s)).
  { unfold FindMostWorkChain. rewrite L9, size_singleton. cbn [find_loop]. rewrite L9. pose proof (rbegin_spec (cs_heap s) (ix_works _ _ _ _ _ _ _ _ _ _ _ Hix) {[p]}) as Hb.
    destruct (rbegin (cs_heap s) {[p]}) as [m|]; [destruct Hb as [->%elem_of_singleton _]; [by intros q ->%elem_of_singleton|]|].
    2:{ assert (Hx : p ∈ (∅ : gset Ptr)) by (rewrite <- Hb by (by intros q ->%elem_of_singleton); by apply elem_of_singleton). by apply elem_of_empty in Hx. }
    rewrite L3. change (Z.to_nat (0 + 1)) with 1%nat. cbn [first_unusable]. rewrite L8, Hcon, L3. rewrite Z.eqb_refl, orb_true_r. cbn [assert_then]. unfold failed_bits in L5. rewrite L5. cbn [negb Z.eqb orb].
    destruct (Z.eqb_spec (Z.land (nStatus (at_ (cs_heap s) p)) BLOCK_HAVE_DATA) 0) as [E|_]; [by destruct (linked_data _ _ _ _ _ _ _ _ _ _ _ Hix p Hp L6)|]. by rewrite L2. }
  destruct (ConnectTip_genesis s p Hld) as (v & a & b & Econ & V1 & V2 & V3). set (s1 := set_chain _ _) in Econ. pose proof (genesis_node s p v a b Hld V1 V2 V3) as Hnode. fold s1 in Hnode.
  assert (Et1 : Tip s1 = Some p) by (apply (chain_of_tip (cs_heap s)); done).
  assert (Eprune : PruneBlockIndexCandidates s1 = Ok (set_candidates s1 {[p]})).
  { unfold PruneBlockIndexCandidates. rewrite Et1. change (setBlockIndexCandidates s1) with (setBlockIndexCandidates s). change (cs_heap s1) with (cs_heap s). rewrite L9.
    assert (Ef : filter (fun q => CBlockIndexWorkComparator (cs_heap s) q p = false) ({[p]} : gset Ptr) = {[p]}).
    { apply set_eq. intros q. rewrite elem_of_filter, elem_of_singleton. split; [by intros [_ ?]|]. intros ->. split; [|done].
      apply (comparator_not_worse _ (ix_works _ _ _ _ _ _ _ _ _ _ _ Hix)); [done..|apply worse_irrefl]. }
    rewrite Ef, !bool_decide_eq_false_2 by (intros E; by apply (non_empty_singleton_L (C := gset Ptr) p)). done. }
  set (s2 := set_candidates s1 {[p]}) in *.
  assert (Estep : ActivateBestChainStep env params cfg machine p None s = Ok (Some false, s2)).
  { unfold ActivateBestChainStep, FindFork. rewrite L8, L3. change (Chain_Height []) with (-1). cbn [Z.ltb Z.compare]. rewrite GetAncestor_ok by done. rewrite L3. cbn [Z.leb Z.compare andb mbind result_bind].
    change (Z.to_nat (0 + 1)) with 1%nat. cbn [FindFork_loop mbind result_bind length]. cbn [disconnect_to]. unfold Tip. rewrite L8. change (Chain_Tip []) with (@None Ptr). cbn [mbind result_bind negb].
    rewrite L3. change (Z.to_nat (0 + 1)) with 1%nat. cbn [chunk_loop]. rewrite L3. cbn [Z.eqb]. change (Z.min (-1 + 32) 0) with 0. rewrite GetAncestor_ok, L3 by done. cbn [Z.leb Z.compare andb mbind result_bind Z.sub Z.opp Z.add Z.to_nat back].
    change (Z.to_nat (0 + 1)) with 1%nat. change (back (cs_heap s) (Z.to_nat (0 - 0)) p) with (Some p).
    cbn [to_connect]. rewrite L3. cbn [Z.eqb app head default connect_chunk]. rewrite bool_decide_eq_true_2, Econ by done. cbn [mbind result_bind]. rewrite Eprune. done. }
  unfold ActivateBestChain. assert (Eloop : activate_loop env params cfg machine fuel None None s = FlushStateToDisk machine FLUSH_STATE_PERIODIC s2).
  { assert (Et0 : Tip s <> Some p) by (unfold Tip; rewrite L8; discriminate).
    destruct fuel; cbn [activate_loop]; rewrite Efind; cbn [mbind result_bind]; rewrite (bool_decide_eq_false_2 _ Et0), Estep; cbn [mbind result_bind];
      by rewrite (bool_decide_eq_true_2 (Tip s2 = Some p) Et1). }
  rewrite Eloop. destruct Hnode as [Hset Hsd]. destruct (settled_flush env params ∅ machine 1 (zlen (vtx g)) s2 p FLUSH_STATE_PERIODIC Hset) as (s3 & -> & Hset3 & Hev3). exists s3. split; [done|].
  split; [split; [exact Hset3|]|].
  - exact (sound_evolves _ _ _ ∅ [] s2 s3 Hh Hev3 Hsd).
  - rewrite (same_links_size _ _ (ev_links _ _ _ _ _ Hev3)). change (cs_heap s2) with (cs_heap s). rewrite <- (size_dom (D := gset Ptr)).
    assert (dom (cs_heap s) = ({[p]} : gset Ptr)) as ->; [|apply size_singleton]. apply set_eq. intros q. by rewrite elem_of_dom, elem_of_singleton, L1.
Qed.
End Connect.
End Genesis.
End Start.

(** ** Messages *)

(** What arrives: a batch of headers, each with the adjusted time when it is looked
    at, or a block, with the place that is found for it in the block files, or the
    command to take a block for invalid. *)
Inductive Message :=
  | MsgHeaders (headers : list (CBlockHeader * Z))
  | MsgBlock (block : CBlock) (fForceProcessing : bool) (nAdjustedTime : Z) (pos : Z * Z)
  | MsgInvalidate (hash : uint256).

Definition msg_headers (m : Message) : Z := match m with MsgHeaders l => zlen l | MsgBlock _ _ _ _ => 1 | MsgInvalidate _ => 0 end.
Definition msg_txs (m : Message) : Z := match m with MsgHeaders _ => 0 | MsgBlock b _ _ _ => zlen (vtx b) | MsgInvalidate _ => 0 end.

Section Run.
Context `{Arr : !Arrivals} (env : ScriptEnv) (params : Params) (cfg : NodeConfig) (scripts : gset uint256) (Hcf : setting_ok env params cfg scripts).
Context (fCheckpointsEnabled : bool) (mapCheckpoints : list (Z * uint256)) (GetBlockWeight : CBlock -> Z).
Context {S : Type} `{!CashView S} `{!CashViewOk S} `{!ScriptMemory} `{!ScriptMemoryOk} (machine : Machine S).
Abbreviation State := (ChainState S).
Implicit Types (s : ChainState S).

Definition handle (fuel : nat) (m : Message) s : result State :=
  match m with
  | MsgHeaders headers => '(_, s) ← ProcessHeaders params fCheckpointsEnabled mapCheckpoints headers s; Ok s
  | MsgBlock block force time pos =>
      '(_, s) ← ProcessNewBlock env params cfg fCheckpointsEnabled mapCheckpoints GetBlockWeight machine fuel block force time pos s; Ok s
  | MsgInvalidate hash =>
      match mapBlockIndex (cs_tree s) !! hash with
      | None => Ok s
      | Some pindex =>
          '(ok, s) ← InvalidateBlock params machine pindex s;
          if (ok : bool) then '(_, s) ← ActivateBestChain env params cfg machine fuel None s; Ok s else Ok s
      end
  end.

Fixpoint run (fuel : nat) (l : list Message) s : result State :=
  match l with [] => Ok s | m :: l => s ← handle fuel m s; run fuel l s end.

(** The node starts on a database without an output. *)
Definition start (fuel : nat) (genesis : CBlock) (pos : Z * Z) (view : CCashViewCache S) : result State :=
  '(_, s) ← LoadGenesisBlock params genesis pos (fresh_state params view);
  '(_, s) ← ActivateBestChain env params cfg machine fuel None s;
  Ok s.

Definition msg_in (m : Message) : Prop :=
  match m with
  | MsgHeaders l => Forall (fun x => header_in x.1) l
  | MsgBlock b _ _ _ => block_in params b
  | MsgInvalidate hash => hash <> hashGenesisBlock params
  end.

Lemma msg_headers_nonneg m : 0 <= msg_headers m.
Proof. destruct m; cbn; [apply zlen_nonneg|lia|lia]. Qed.
Lemma msg_txs_nonneg m : 0 <= msg_txs m.
Proof. destruct m; cbn; [lia|apply zlen_nonneg|lia]. Qed.

Lemma headers_nonneg l : 0 <= zsum (map msg_headers l).
Proof. apply zsum_nonneg, Forall_map, Forall_true, msg_headers_nonneg. Qed.
Lemma txs_nonneg l : 0 <= zsum (map msg_txs l).
Proof. apply zsum_nonneg, Forall_map, Forall_true, msg_txs_nonneg. Qed.

(** The steps that are enough for [k] more headers. *)
Definition run_bound (n k : Z) s : Z := (Z.of_nat (size (cs_heap s)) + k + 1) * (n + k).

(** The hashes of the blocks that were declared invalid while they were known. *)
Definition handled (manual manual' : gset uint256) (m : Message) s : Prop :=
  manual ⊆ manual' /\ (forall x, x ∈ manual' -> x ∈ manual \/ m = MsgInvalidate x) /\
  forall x, m = MsgInvalidate x -> is_Some (mapBlockIndex (cs_tree s) !! x) -> x ∈ manual'.

Lemma handle_ok manual n N s tip m fuel : node env params scripts manual n N s tip -> msg_in m -> n + msg_headers m <= 2 ^ 30 -> N + msg_txs m < 2 ^ 32 ->
  run_bound n (msg_headers m) s <= Z.of_nat fuel ->
  exists s' tip' manual', handle fuel m s = Ok s' /\ node env params scripts manual' (n + msg_headers m) (N + msg_txs m) s' tip' /\ handled manual manual' m s /\
    Z.of_nat (size (cs_heap s')) <= Z.of_nat (size (cs_heap s)) + msg_headers m.
Proof.
  intros Hno Hm Hn HN Hf. destruct (node_n _ _ _ _ _ _ _ _ Hno) as [Hn0 _]. destruct m as [l|b force time pos|hash]; cbn [handle msg_headers msg_txs msg_in] in *.
  - unfold ProcessHeaders. destruct (ProcessHeaders_node env params cfg scripts Hcf fCheckpointsEnabled mapCheckpoints manual N tip (failed_in_order s) l n s None Hno Hn Hm (failed_in_order_ok s)) as (v & t' & -> & H1 & H2).
    cbn [mbind result_bind]. exists (set_tree s t'), tip, manual. rewrite Z.add_0_r. split_and!; [done|done|by split_and!; auto|done].
  - destruct (ProcessNewBlock_ok env params cfg scripts Hcf fCheckpointsEnabled mapCheckpoints GetBlockWeight machine manual n N s tip b force time pos fuel Hno Hn Hm HN) as (ok & s' & tip' & -> & H1 & H2).
    { unfold process_bound, run_bound in *. nia. }
    cbn [mbind result_bind]. exists s', tip', manual. split_and!; [done|done|by split_and!; auto|lia].
  - rewrite !Z.add_0_r in *. destruct (mapBlockIndex (cs_tree s) !! hash) as [p|] eqn:Ep.
    + pose proof (ix_tree _ _ _ _ _ _ _ _ _ _ _ (st_index _ _ _ _ _ _ _ _ (proj1 (proj1 Hno)))) as Ht. destruct (tree_map _ Ht hash p Ep) as [Hp Hh]. fold (cs_heap s) in Hp, Hh.
      destruct (pprev (at_ (cs_heap s) p)) as [q|] eqn:Eq.
      * destruct (Invalidate_node env params cfg scripts Hcf machine manual n N s tip p q hash fuel Hno Hp Eq Hh) as (s1 & s2 & tip2 & -> & E2 & Hno2 & Hl & _).
        { unfold activation_bound, run_bound in *. nia. }
        cbn [mbind result_bind]. rewrite E2. cbn [mbind result_bind]. exists s2, tip2, ({[hash]} ∪ manual). split_and!; [done|done| |by rewrite (same_links_size _ _ Hl)].
        split_and!; [apply union_subseteq_r|intros x [->%elem_of_singleton|Hx]%elem_of_union; auto|]. intros x [= <-] _. by apply elem_of_union_l, elem_of_singleton.
      * destruct Hm. rewrite <- Hh. by destruct (tree_map _ Ht _ p (ix_root _ _ _ _ _ _ _ _ _ _ _ (st_index _ _ _ _ _ _ _ _ (proj1 (proj1 Hno))) p Hp Eq)) as [_ ?].
    + exists s, tip, manual. split_and!; [done|done| |done]. split_and!; [done|auto|]. intros x [= <-] [? Hx]. congruence.
Qed.

Lemma run_ok fuel l : forall manual n N s tip, node env params scripts manual n N s tip -> Forall msg_in l ->
  n + zsum (map msg_headers l) <= 2 ^ 30 -> N + zsum (map msg_txs l) < 2 ^ 32 -> run_bound n (zsum (map msg_headers l)) s <= Z.of_nat fuel ->
  exists s' tip' manual', run fuel l s = Ok s' /\ node env params scripts manual' (n + zsum (map msg_headers l)) (N + zsum (map msg_txs l)) s' tip' /\
    manual ⊆ manual' /\ (forall x, x ∈ manual' -> x ∈ manual \/ MsgInvalidate x ∈ l) /\
    Z.of_nat (size (cs_heap s')) <= Z.of_nat (size (cs_heap s)) + zsum (map msg_headers l).
Proof.
  induction l as [|m l IH]; intros manual n N s tip Hno Hall Hn HN Hf; cbn [run map] in *.
  - exists s, tip, manual. unfold zsum. cbn. rewrite !Z.add_0_r. split_and!; auto with lia.
  - apply Forall_cons_1 in Hall as [Hm Hall]. rewrite !zsum_cons in *. destruct (node_n _ _ _ _ _ _ _ _ Hno) as [Hn0 _].
    pose proof (headers_nonneg l). pose proof (msg_headers_nonneg m).
    pose proof (txs_nonneg l). pose proof (msg_txs_nonneg m).
    destruct (handle_ok manual n N s tip m fuel Hno Hm ltac:(lia) ltac:(lia)) as (s1 & tip1 & man1 & -> & Hno1 & (M1 & M2 & _) & Hs1); [unfold run_bound in *; nia|]. cbn [mbind result_bind].
    destruct (IH man1 (n + msg_headers m) (N + msg_txs m) s1 tip1 Hno1 Hall ltac:(lia) ltac:(lia)) as (s2 & tip2 & man2 & -> & Hno2 & M3 & M4 & Hs2); [unfold run_bound in *; nia|].
    exists s2, tip2, man2. rewrite !Z.add_assoc. split_and!; [done|done|by etransitivity| |lia]. intros x Hx.
    destruct (M4 x Hx) as [Hx1|Hx1]; [|right; by apply list_elem_of_further]. destruct (M2 x Hx1) as [?| ->]; [by left|right; apply list_elem_of_here].
Qed.

End Run.

Lemma start_ok `{!Arrivals} env params cfg (Hcf : config_ok params cfg) {S : Type} `{!CashView S} `{!CashViewOk S} `{!ScriptMemory} `{!ScriptMemoryOk} (machine : Machine S) genesis (Hg : genesis_ok params genesis) view pos fuel : deployments_ok ∅ params (map (fun _ => ∅) (vDeployments params)) ->
  cache_inv view -> cache_abs view = ∅ -> cache_best view = uint256_null ->
  exists s p, start env params cfg machine fuel genesis pos view = Ok s /\ node env params ∅ ∅ 1 (zlen (vtx genesis)) s p /\ size (cs_heap s) = 1%nat.
Proof.
  intros Hdep V1 V2 V3. unfold start. destruct (LoadGenesisBlock_ok env params cfg Hcf genesis Hg view pos Hdep) as (s0 & p & -> & Hld). cbn [mbind result_bind].
  destruct (activate_genesis env params cfg machine genesis Hg view V1 V2 V3 s0 p fuel Hld) as (s1 & -> & Hno & Hsize). cbn [mbind result_bind].
  exists s1, p. done.
Qed.

(** ** The specification of a node *)

Section Spec.
Context `{Arr : !Arrivals} (env : ScriptEnv) (params : Params) (scripts : gset uint256).
Context {S : Type} `{!CashView S} `{!CashViewOk S} `{!ScriptMemory} `{!ScriptMemoryOk}.
Implicit Types (s : ChainState S).

(** The active chain ends in [tip], and its blocks follow the rules one after the
    other; the view is the set of outputs they leave; and no chain of stored blocks
    that follows the rules has more work, unless it has a [banned] block. *)
Record best_chain (banned : uint256 -> Prop) s (tip : Ptr) : Prop := {
  bc_tip : Tip s = Some tip;
  bc_chain : chainActive s = chain_of (cs_heap s) tip;
  bc_valid : valid_chain env params scripts (cs_heap s) (block_files s) tip (cache_abs (pcashTip s));
  bc_best : forall p u, valid_chain env params scripts (cs_heap s) (block_files s) p u ->
    (forall a, ancestor (cs_heap s) p a -> ~ banned (phashBlock (at_ (cs_heap s) a))) ->
    val (nChainWork (at_ (cs_heap s) p)) <= val (nChainWork (at_ (cs_heap s) tip));
  bc_stored : forall p b, block_files s !! p = Some b -> phashBlock (at_ (cs_heap s) p) = CBlockHeader_GetHash (header b) /\
    exists b', CheckBlock b params true true = Ok (Valid b');
}.

Lemma node_best_chain manual banned n N s tip : node env params scripts manual n N s tip -> (forall x, x ∈ manual -> banned x) -> best_chain banned s tip.
Proof.
  intros Hno Hban. pose proof Hno as [[Hinv _] _]. pose proof Hinv as [Hix Hac _ _]. split.
  - by eapply inv_tip.
  - apply Hac.
  - eapply reaches_valid, Hac.
  - intros p u Hv Hp. destruct (Z.le_gt_cases (val (nChainWork (at_ (cs_heap s) p))) (val (nChainWork (at_ (cs_heap s) tip)))) as [|Hlt]; [done|].
    destruct (node_best env params scripts manual n N s tip p u Hno Hv); [intros a Ha Hin; exact (Hp a Ha (Hban _ Hin))|]. by apply worse_work.
  - intros p b Hb. destruct (ix_blocks _ _ _ _ _ _ _ _ _ _ _ Hix p b Hb) as (_ & Hg & Hh). split; [exact Hh|apply Hg].
Qed.
End Spec.

#[local] Existing Instances no_script_memory no_script_memory_ok.

(** ** An example: a block is replaced by a branch whose blocks arrive in the wrong
    order, and comes back when the branch is declared invalid *)
Definition node_cashbase (tag height : Z) : CTransaction :=
  mkCTransaction 1 [mkCTxIn COutPoint_null [OP_1 - 1 + height; tag] 0xffffffff []] [mkCTxOut 5000000000 [OP_1]] 0.
Definition node_block (prev : uint256) (cashbase : CTransaction) (time nonce : Z) : CBlock :=
  mkCBlock (mkCBlockHeader 4 prev (GetHash cashbase) time 0x207fffff nonce) [cashbase] false.

(** The network is the regression test mode, with any headers but the exceptions to BIP 30. *)
Definition node_params : Params := consensus regtest_params.
Definition node_genesis : CBlock := genesis regtest_params.
#[local] Instance node_arrivals : Arrivals := plain_arrivals (consensus regtest_params).
Definition node_a1 : CBlock := Eval vm_compute in node_block (hashGenesisBlock node_params) (node_cashbase 0x51 1) 1296689202 0.
Definition node_b1 : CBlock := Eval vm_compute in node_block (hashGenesisBlock node_params) (node_cashbase 0x52 1) 1296689302 1.
Definition node_b2 : CBlock := Eval vm_compute in node_block (CBlockHeader_GetHash (header node_b1)) (node_cashbase 0x51 2) 1296689902 3.
Definition node_b1_hash : uint256 := Eval vm_compute in CBlockHeader_GetHash (header node_b1).
Definition node_messages : list Message :=
  [MsgBlock node_a1 true 1296690000 (0, 300); MsgHeaders [(header node_b1, 1296690000)];
   MsgBlock node_b2 true 1296690000 (0, 600); MsgBlock node_b1 true 1296690000 (0, 900);
   MsgInvalidate node_b1_hash].
Definition node_view : CCashViewCache MapView := CCashViewCache_new (mkMapView ∅ uint256_null).
Definition node_machine : Machine MapView := mkMachine MapView (fun _ => 0) (fun _ => 0) 0 0 (fun _ => 0).

Lemma node_header_in b : b ∈ map header [node_a1; node_b1; node_b2] -> header_in b.
Proof.
  intros Hb. assert (Hall : forallb (fun b => bool_decide (0 <= bh_nBits b < 2 ^ 32) && bool_decide (0 <= bh_nTime b < 2 ^ 32) &&
      bool_decide (block_work (bh_nBits b) <= 2 ^ 224)) (map header [node_a1; node_b1; node_b2]) = true) by (vm_compute; reflexivity).
  assert (Hplain : plain_hash node_params (CBlockHeader_GetHash b)).
  { apply plain_check. repeat (apply elem_of_cons in Hb as [->|Hb]; [vm_compute; reflexivity|]). apply elem_of_nil in Hb. destruct Hb. }
  rewrite forallb_forall in Hall. apply list_elem_of_In in Hb. specialize (Hall b Hb). clear Hb. bool_to_prop.
  constructor; [assumption|assumption|apply Hplain|exact Hplain|assumption].
Qed.

Lemma node_block_in b : b ∈ [node_a1; node_b1; node_b2] -> block_in node_params b.
Proof.
  intros Hb. assert (Hh : header_in (header b)) by (by apply node_header_in, list_elem_of_fmap_2).
  assert (exists tag height, fChecked b = false /\ vtx b = [node_cashbase tag height] /\ 0 <= tag < 256 /\ 0 <= height < 17) as (tag & height & Ef & Ev & H1 & H2).
  { apply elem_of_cons in Hb as [->|Hb]; [exists 0x51, 1; repeat split; lia|]. apply elem_of_cons in Hb as [->|Hb]; [exists 0x52, 1; repeat split; lia|].
    apply list_elem_of_singleton in Hb as ->. exists 0x51, 2; repeat split; lia. }
  split; [exact Hh|rewrite Ev; reflexivity| | | |intros Hc; congruence|exact I]; unfold inputs_once; rewrite Ev.
  - repeat constructor; simpl; try (by vm_compute); try (unfold is_i32, is_byte, OP_1; lia).
  - apply no_collision, bool_decide_eq_true_2, NoDup_singleton.
  - intros tx ->%list_elem_of_singleton. apply NoDup_nil_2.
Qed.

Lemma node_setting_ok : setting_ok spend_env node_params (spend_cfg 0) ∅.
Proof. split; [apply (nw_config _ _ regtest_ok); reflexivity|apply (nw_arrivals _ _ regtest_ok)]. Qed.

Lemma node_view_inv : cache_inv node_view.
Proof. split; [cbn; unfold map_view_inv; cbn [mv_map]; apply map_Forall_empty|intros o e; cbn; by rewrite lookup_empty|reflexivity]. Qed.

Lemma node_messages_in : Forall (msg_in node_params) node_messages.
Proof.
  unfold node_messages. repeat apply Forall_cons_2; try apply Forall_nil_2; cbn [msg_in].
  - apply node_block_in, (list_elem_of_lookup_2 _ 0). reflexivity.
  - apply (node_header_in (header node_b1)), list_elem_of_fmap_2, (list_elem_of_lookup_2 _ 1). reflexivity.
  - apply node_block_in, (list_elem_of_lookup_2 _ 2). reflexivity.
  - apply node_block_in, (list_elem_of_lookup_2 _ 1). reflexivity.
  - apply (bool_decide_eq_false_1 (_ = _)). vm_compute. reflexivity.
Qed.

(** ** Reconsidering a block *)
Definition node_a2 : CBlock := Eval vm_compute in node_block (CBlockHeader_GetHash (header node_a1)) (node_cashbase 0x53 2) 1296690002 0.
Definition node_a3 : CBlock := Eval vm_compute in node_block (CBlockHeader_GetHash (header node_a2)) (node_cashbase 0x53 3) 1296690602 0.
Definition node_start : result (ChainState MapView) := start spend_env node_params (spend_cfg 0) node_machine 100 node_genesis (0, 8) node_view.
Definition node_run (l : list Message) (s : ChainState MapView) : result (ChainState MapView) :=
  run spend_env node_params (spend_cfg 0) true [] (fun _ => 0) node_machine 100 l s.
Definition reconsider (hash : uint256) (s : ChainState MapView) : result (ChainState MapView) :=
  match mapBlockIndex (cs_tree s) !! hash with Some p => ResetBlockFailureFlags p s | None => Ok s end.

(** * Properties *)

Section Properties.
Context `{Arr : !Arrivals} {S : Type} `{!CashView S} `{!CashViewOk S} `{!ScriptMemory} `{!ScriptMemoryOk}.


(** C2: a block that was declared invalid while it was known never returns: at
    whatever time the command comes and whatever headers, blocks and commands
    follow, in any order, the active chain does not contain the block. The network
    and the messages before and after are within the limits [config_ok],
    [arrivals_ok] and [msg_in] set: no block is assumed valid, values are in range,
    ids of a block do not collide, no transaction names an output twice, on the
    chains that what arrives makes segregated witness comes after BIP 16 and a
    block exempt from BIP 30 overwrites nothing, and there are fewer than 2^30
    headers and 2^32 transactions. No block is reconsidered. *)
Theorem invalidated_stays_out env params cfg fCheckpointsEnabled mapCheckpoints GetBlockWeight (machine : Machine S)
    (genesis : CBlock) pos (view : CCashViewCache S) (before later : list Message) (x : uint256) fuel :
  let messages := before ++ MsgInvalidate x :: later in
  config_ok params cfg -> arrivals_ok env params ∅ -> genesis_ok params genesis -> deployments_ok ∅ params (map (fun _ => ∅) (vDeployments params)) ->
  cache_inv view -> cache_abs view = ∅ -> cache_best view = uint256_null ->
  Forall (msg_in params) messages -> zsum (map msg_headers messages) < 2 ^ 30 -> zlen (vtx genesis) + zsum (map msg_txs messages) < 2 ^ 32 ->
  (zsum (map msg_headers messages) + 2) * (zsum (map msg_headers messages) + 1) <= Z.of_nat fuel ->
  exists s0 s tip, (s ← start env params cfg machine fuel genesis pos view;
                    run env params cfg fCheckpointsEnabled mapCheckpoints GetBlockWeight machine fuel before s) = Ok s0 /\
    run env params cfg fCheckpointsEnabled mapCheckpoints GetBlockWeight machine fuel (MsgInvalidate x :: later) s0 = Ok s /\ Tip s = Some tip /\
    (is_Some (mapBlockIndex (cs_tree s0) !! x) -> forall a, ancestor (cs_heap s) tip a -> phashBlock (at_ (cs_heap s) a) <> x).
Proof.
  intros messages Hcf Har Hg Hdep V1 V2 V3 Hall Hn HN Hf. unfold messages in *. rewrite !map_app, !map_cons, !zsum_app, !zsum_cons in *. cbn [msg_headers msg_txs] in *.
  apply Forall_app in Hall as [Hall1 Hall2]. pose proof (Forall_cons_1 _ _ _ Hall2) as [Hx Hall3].
  pose proof (headers_nonneg before). pose proof (headers_nonneg later). pose proof (txs_nonneg before). pose proof (txs_nonneg later).
  destruct (start_ok env params cfg Hcf machine genesis Hg view pos fuel Hdep V1 V2 V3) as (s1 & p & -> & Hno & Hsize). cbn [mbind result_bind].
  destruct (run_ok env params cfg ∅ (conj Hcf Har) fCheckpointsEnabled mapCheckpoints GetBlockWeight machine fuel before ∅ 1 (zlen (vtx genesis)) s1 p Hno Hall1) as (s0 & tip0 & man0 & -> & Hno0 & _ & _ & Hs0);
    [lia|lia|unfold run_bound; rewrite Hsize; nia|].
  destruct (handle_ok env params cfg ∅ (conj Hcf Har) fCheckpointsEnabled mapCheckpoints GetBlockWeight machine man0 _ _ s0 tip0 (MsgInvalidate x) fuel Hno0 Hx) as (s2 & tip2 & man2 & Eh & Hno2 & (_ & _ & M2) & Hs2);
    cbn [msg_headers msg_txs] in *; [lia|lia|unfold run_bound; nia|].
  destruct (run_ok env params cfg ∅ (conj Hcf Har) fCheckpointsEnabled mapCheckpoints GetBlockWeight machine fuel later man2 _ _ s2 tip2 Hno2 Hall3) as (s & tip & man & Er & Hno3 & M3 & _);
    [lia|lia|unfold run_bound; nia|].
  exists s0, s, tip. split_and!; [done|cbn [run]; rewrite Eh; exact Er|eapply inv_tip, (proj1 (proj1 Hno3))|].
  intros Hk a Ha Hax. apply (node_obeys _ _ _ _ _ _ _ _ a Hno3 Ha). rewrite Hax. by apply M3, (M2 x).
Qed.
End Properties.


Lemma invalidated_stays_out_witness :
  exists s0 s tip, (s ← start spend_env node_params (spend_cfg 0) node_machine 100 node_genesis (0, 8) node_view;
                    run spend_env node_params (spend_cfg 0) true [] (fun _ => 0) node_machine 100 (removelast node_messages) s) = Ok s0 /\
    run spend_env node_params (spend_cfg 0) true [] (fun _ => 0) node_machine 100 [MsgInvalidate node_b1_hash] s0 = Ok s /\ Tip s = Some tip /\
    (is_Some (mapBlockIndex (cs_tree s0) !! node_b1_hash) -> forall a, ancestor (cs_heap s) tip a -> phashBlock (at_ (cs_heap s) a) <> node_b1_hash).
Proof.
  apply (invalidated_stays_out spend_env node_params (spend_cfg 0) true [] (fun _ => 0) node_machine node_genesis (0, 8) node_view (removelast node_messages) [] node_b1_hash 100).
  - exact (proj1 node_setting_ok).
  - exact (proj2 node_setting_ok).
  - exact (nw_genesis _ _ regtest_ok).
  - exact (nw_deployments _ _ regtest_ok).
  - exact node_view_inv.
  - apply map_eq. intros o. unfold cache_abs. by rewrite lookup_overlay.
  - reflexivity.
  - exact node_messages_in.
  - vm_compute. reflexivity.
  - vm_compute. reflexivity.
  - vm_compute. discriminate.
Defined.

(** C18: reconsidering a block clears the failure of its ancestors, but leaves them in
    the set of failed blocks: after two headers arrive, the first is declared
    invalid and the second is reconsidered, the next header on top stops the node
    with a failed assertion. *)
Theorem reconsider_then_header_asserts :
  (s ← node_start;
   s ← node_run [MsgHeaders [(header node_a1, 1296691000); (header node_a2, 1296691000)]; MsgInvalidate (CBlockHeader_GetHash (header node_a1))] s;
   s ← reconsider (CBlockHeader_GetHash (header node_a2)) s;
   node_run [MsgHeaders [(header node_a3, 1296691000)]] s) = Throw (assert_failed "failedit->nStatus & BLOCK_FAILED_VALID").
Proof. vm_compute. reflexivity. Qed.
