(* ===== verification/Replay.v ===== *)
(** * Recovering from an interrupted write (RollforwardBlock and ReplayBlocks of validation.cpp)

    A crash in the middle of a write leaves the database between two tips: every
    output is as the old or as the new chain has it. [ReplayBlocks] takes the
    blocks of the old branch back and applies those of the new one, on a view in
    which any part of this may have been done already. That works because, output
    by output, a block either fixes what the view holds or leaves it alone. *)
From S2P Require Import Prelude StrEncodings Serialize Amount Crypto Script Transaction Cash TxDb ArithUint256 Block Chain Pow VersionBits Merkle.
From S2P Require Import Interpreter InterpreterSafety SigHash TxVerify Compressor CheckBlock Connect ConnectSpec ConnectProps.
From S2P Require Import ChainState ChainGrowth ChainStateInv ChainActivate ChainAccept ChainManual Networks ChainNode.

#[local] Opaque SHA256 SHA1 RIPEMD160 Hash160 Hash Hash2 GetHash GetWitnessHash CBlockHeader_GetHash.

(** ** The code *)
Section Code.
Context (params : Params) {T : Type} (s : ChainState T).
Context {S : Type} `{!CashView S} `{!ScriptMemory}.
Implicit Types (c : CCashViewCache S).

(** [inputs.SpendCash(txin.prevout)] for every input. *)
Fixpoint roll_spend (v : list CTxIn) c : CCashViewCache S :=
  match v with [] => c | txin :: v => roll_spend v (SpendCash (prevout txin) c).2 end.

Fixpoint roll_txs (nHeight : Z) (v : list CTransaction) c : result (CCashViewCache S) :=
  match v with
  | [] => Ok c
  | tx :: v =>
      let c := if negb (IsCashBase tx) then roll_spend (vin tx) c else c in
      c ← AddCash_tx tx nHeight true c;
      roll_txs nHeight v c
  end.

Definition RollforwardBlock (pindex : Ptr) c : result (bool * CCashViewCache S) :=
  match ReadBlockFromDisk params s pindex with
  | None => Ok (false, c)
  | Some block => c ← roll_txs (Chain.nHeight (at_ (cs_heap s) pindex)) (vtx block) c; Ok (true, c)
  end.

(** [while (pindexOld != pindexFork)]. *)
Fixpoint roll_back (fuel : nat) (pindexOld pindexFork : option Ptr) c : result (bool * CCashViewCache S) :=
  if bool_decide (pindexOld = pindexFork) then Ok (true, c)
  else
    match fuel, pindexOld with
    | Datatypes.S fuel, Some p =>
        let e := at_ (cs_heap s) p in
        if 0 <? Chain.nHeight e then
          match ReadBlockFromDisk params s p with
          | None => Ok (false, c)
          | Some block =>
              '(res, c) ← DisconnectBlock (cs_heap s) block p (undo_files s !! p) c;
              match res with
              | DISCONNECT_FAILED => Ok (false, c)
              | _ => roll_back fuel (pprev e) pindexFork c
              end
          end
        else roll_back fuel (pprev e) pindexFork c
    | _, _ => Throw null_deref
    end.

(** [for (int nHeight = nForkHeight + 1; nHeight <= pindexNew->nHeight; ++nHeight)], [k] times. *)
Fixpoint roll_forward (k : nat) (nHeight : Z) (pindexNew : Ptr) c : result (bool * CCashViewCache S) :=
  match k with
  | O => Ok (true, c)
  | Datatypes.S k =>
      pindex ← GetAncestor (cs_heap s) pindexNew nHeight;
      match pindex with
      | None => Throw null_deref
      | Some p =>
          '(ok, c) ← RollforwardBlock p c;
          if negb (ok : bool) then Ok (false, c) else roll_forward k (nHeight + 1) pindexNew c
      end
  end.

(** The blocks between the two heads, when both are known. *)
Definition replay_range (hash0 hash1 : uint256) : result (option (Ptr * option Ptr * option Ptr)) :=
  match mapBlockIndex (cs_tree s) !! hash0 with
  | None => Ok None
  | Some pindexNew =>
      if uint256_IsNull hash1 then Ok (Some (pindexNew, None, None))
      else
        match mapBlockIndex (cs_tree s) !! hash1 with
        | None => Ok None
        | Some pindexOld =>
            pindexFork ← LastCommonAncestor (cs_heap s) pindexOld pindexNew;
            assert_then (bool_decide (is_Some pindexFork)) "pindexFork != nullptr" (Ok (Some (pindexNew, Some pindexOld, pindexFork)))
        end
  end.

(** Both loops. *)
Definition replay (pindexNew : Ptr) (pindexOld pindexFork : option Ptr) c : result (bool * CCashViewCache S) :=
  let height p := match p with Some p => Chain.nHeight (at_ (cs_heap s) p) | None => 0 end in
  '(ok, c) ← roll_back (Z.to_nat (height pindexOld + 1)) pindexOld pindexFork c;
  if negb (ok : bool) then Ok (false, c)
  else roll_forward (Z.to_nat (height (Some pindexNew) - height pindexFork)) (height pindexFork + 1) pindexNew c.
End Code.

Section Db.
Context (params : Params) {T : Type} (s : ChainState T) (over : nat -> bool) `{!ScriptMemory}.
#[local] Instance db_view : CashView CCashViewDB := CCashViewDB_view over.

(** On the database. What a failed replay did to the cache is lost. *)
Definition ReplayBlocks (view : CCashViewDB) : result (bool * CCashViewDB) :=
  match db_GetHeadBlocks view with
  | [] => Ok (true, view)
  | [hash0; hash1] =>
      range ← replay_range s hash0 hash1;
      match range with
      | None => Ok (false, view)
      | Some (pindexNew, pindexOld, pindexFork) =>
          '(ok, cache) ← replay params s pindexNew pindexOld pindexFork (CCashViewCache_new view);
          if negb (ok : bool) then Ok (false, view)
          else
            '(_, cache) ← Flush (SetBestBlock (phashBlock (at_ (cs_heap s) pindexNew)) cache);
            Ok (true, base cache)
      end
  | _ => Ok (false, view)
  end.
End Db.

(** ** Output by output *)

(** Going from [u] to [u'], whatever [m] holds for an output, [m'] holds what [u']
    has for it, unless the output is not concerned. *)
Definition fixes (m u m' u' : utxo) : Prop := forall o, m' !! o = u' !! o \/ (m' !! o = m !! o /\ u' !! o = u !! o).

Lemma fixes_refl m u : fixes m u m u.
Proof. intros o. by right. Qed.

Lemma fixes_trans m u m1 u1 m2 u2 : fixes m u m1 u1 -> fixes m1 u1 m2 u2 -> fixes m u m2 u2.
Proof. intros H1 H2 o. destruct (H2 o) as [?|[-> ->]]; [by left|]. apply H1. Qed.

(** From a mix of two sets, going from one to the other gives the other. *)
Lemma fixes_mix m u m' u' : fixes m u m' u' -> (forall o, m !! o = u !! o \/ m !! o = u' !! o) -> m' = u'.
Proof. intros Hf Hm. apply map_eq. intros o. destruct (Hf o) as [?|[-> E]]; [done|]. destruct (Hm o) as [-> | ->]; [done|done]. Qed.

Lemma tx_fixes h tx m u coins u' : tx_effect h tx u = Some (coins, u') ->
  fixes m u (add_outputs (GetHash tx) 0 (vout tx) h (IsCashBase tx) (spend_inputs (tx_inputs tx) m)) u'.
Proof.
  intros [_ ->]%tx_effect_spends o. rewrite !add_outputs_lookup, !spend_inputs_lookup by lia.
  destruct (if _ && _ then _ else None) as [x|]; [destruct (IsUnspendable _)|]; [|by left|]; (case_bool_decide; [by left|by right]).
Qed.

(** The outputs of a transaction taken away. *)
Fixpoint del_outputs (txid : uint256) (v : list CTxOut) (i : Z) (u : utxo) : utxo :=
  match v with
  | [] => u
  | x :: v => del_outputs txid v (i + 1) (if IsUnspendable (scriptPubKey x) then u else delete (mkCOutPoint txid i) u)
  end.

Lemma del_outputs_lookup txid v : forall i (u : utxo) o, 0 <= i ->
  del_outputs txid v i u !! o =
    match (if bool_decide (op_hash o = txid) && (i <=? op_n o) then v !! Z.to_nat (op_n o - i) else None) with
    | Some x => if IsUnspendable (scriptPubKey x) then u !! o else None
    | None => u !! o
    end.
Proof.
  induction v as [|x v IH]; intros i u o Hi; cbn [del_outputs]; [by destruct (_ && _)|]. rewrite IH by lia.
  destruct o as [ho no]. cbn [op_hash op_n]. case_bool_decide as Hh; cbn [andb].
  2:{ destruct (IsUnspendable _); [done|]. by rewrite lookup_delete_ne by congruence. }
  subst ho. destruct (Z.leb_spec i no) as [Hle|Hlt]; destruct (Z.leb_spec (i + 1) no) as [Hle'|Hlt']; try lia.
  - replace (Z.to_nat (no - i)) with (Datatypes.S (Z.to_nat (no - (i + 1)))) by lia.
    change ((x :: v) !! Datatypes.S (Z.to_nat (no - (i + 1)))) with (v !! Z.to_nat (no - (i + 1))).
    assert (Hne : mkCOutPoint txid i <> mkCOutPoint txid no) by (intros [= ?]; lia).
    destruct (IsUnspendable (scriptPubKey x)); [done|]. by rewrite lookup_delete_ne.
  - assert (no = i) as -> by lia. rewrite Z.sub_diag. change ((x :: v) !! Z.to_nat 0) with (Some x). cbn iota.
    destruct (IsUnspendable (scriptPubKey x)); [done|]. by rewrite lookup_delete_eq.
  - destruct (IsUnspendable _); [done|]. rewrite lookup_delete_ne; [done|]. intros [= ?]; lia.
Qed.

Lemma restore_lookup_in v coins (u m : utxo) o : spends u v coins -> o ∈ map prevout v -> restore (zip (map prevout v) coins) m !! o = u !! o.
Proof.
  intros Hs. induction Hs as [|i cash v coins Hi _ IH]; cbn [map zip zip_with restore foldr fst snd]; intros Ho; [by apply elem_of_nil in Ho|].
  destruct (decide (o = prevout i)) as [-> |Hne]; [by rewrite lookup_insert_eq|]. rewrite lookup_insert_ne by done.
  apply elem_of_cons in Ho as [?|Ho]; [done|]. by apply IH.
Qed.

(** The effect of a transaction taken back, from any [m]. *)
Definition undone (tx : CTransaction) (coins : list Cash) (m : utxo) : utxo :=
  restore (zip (map prevout (tx_inputs tx)) coins) (del_outputs (GetHash tx) (vout tx) 0 m).

Lemma undo_fixes h tx m u coins u' : block_fresh u [tx] -> tx_effect h tx u = Some (coins, u') -> fixes m u' (undone tx coins m) u.
Proof.
  intros [_ Hnew _ _] [Hs ->]%tx_effect_spends o. unfold undone. destruct (decide (o ∈ map prevout (tx_inputs tx))) as [Hin|Hout].
  - left. by apply restore_lookup_in.
  - rewrite restore_lookup_ne by (rewrite zip_fst; [done|rewrite length_map; apply (Forall2_length Hs)]).
    rewrite del_outputs_lookup, add_outputs_lookup, spend_inputs_lookup, (bool_decide_eq_false_2 (o ∈ _)) by (done || lia).
    destruct (if _ && _ then _ else None) as [x|] eqn:E; [|by right]. destruct (IsUnspendable (scriptPubKey x)); [by right|]. left.
    destruct (bool_decide _ && _) eqn:Eb; [|done]. apply andb_true_iff in Eb as [Eh%bool_decide_eq_true En%Z.leb_le].
    symmetry. apply (Hnew tx); [apply list_elem_of_here|]. exists (op_n o). apply lookup_lt_Some in E. unfold zlen. split; [lia|]. destruct o. cbn in *. by subst.
Qed.

(** ** On a view that may hold anything *)
Section Views.
Context {S : Type} `{!CashView S} `{!CashViewOk S} `{!ScriptMemory} `{!ScriptMemoryOk}.
Implicit Types (c : CCashViewCache S).

Lemma disconnect_outputs_any txid cb h v : forall o fClean c, cache_inv c ->
  exists f c', disconnect_outputs txid cb h v o fClean c = (f, c') /\ cache_inv c' /\ cache_abs c' = del_outputs txid v o (cache_abs c).
Proof.
  induction v as [|x v IH]; intros o fClean c Hc; cbn [disconnect_outputs del_outputs]; [by exists fClean, c|].
  destruct (IsUnspendable (scriptPubKey x)); cbn [negb]; [by apply IH|].
  pose proof (SpendCash_ok c (mkCOutPoint txid o) Hc) as Hs. destruct (SpendCash (mkCOutPoint txid o) c) as [r c1]. destruct Hs as (Hc1 & Ha1 & _).
  cbv zeta. rewrite <- Ha1. by apply IH.
Qed.

Lemma ApplyTxInUndo_any cash o c : cache_inv c -> coin_ok cash ->
  exists res c', ApplyTxInUndo cash o c = Ok (res, c') /\ res <> DISCONNECT_FAILED /\ cache_inv c' /\ cache_abs c' = <[o := cash]> (cache_abs c).
Proof.
  intros Hc (Hs & Hu & Hh). unfold ApplyTxInUndo. pose proof (HaveCash_ok c o Hc) as Hv. destruct (HaveCash o c) as [b c1].
  destruct Hv as [-> (Hc1 & Ha1 & _)]. destruct (Z.eqb_spec (Cash.nHeight cash) 0); [done|]. rewrite negb_involutive.
  destruct (AddCash_ok c1 o cash (bool_decide (is_Some (cache_abs c !! o))) Hc1 Hs) as (c2 & -> & Hc2 & Ha2 & _).
  { rewrite Ha1. intros Hn%bool_decide_eq_false. by apply eq_None_not_Some. }
  cbn [mbind result_bind]. rewrite Hu, Ha1 in Ha2. eexists _, c2. split; [done|]. split; [by destruct (negb _)|done].
Qed.

Lemma restore_inputs_any l : forall fClean c, cache_inv c -> Forall (fun oc => coin_ok oc.2) l ->
  exists f c', restore_inputs (rev l) fClean c = Ok (Some f, c') /\ cache_inv c' /\ cache_abs c' = restore l (cache_abs c).
Proof.
  induction l as [|[o cash] l IH]; intros fClean c Hc Hok; [by exists fClean, c|]. cbn [rev]. rewrite restore_inputs_app.
  apply Forall_cons_1 in Hok as [Hcoin Hok]. destruct (IH fClean c Hc Hok) as (f & c1 & -> & Hc1 & Ha1). cbn [mbind result_bind restore_inputs].
  destruct (ApplyTxInUndo_any cash o c1 Hc1 Hcoin) as (res & c2 & -> & Hres & Hc2 & Ha2). cbn [mbind result_bind]. rewrite (bool_decide_eq_false_2 (res = DISCONNECT_FAILED)) by done.
  eexists _, c2. split; [done|]. split; [done|]. by rewrite Ha2, Ha1.
Qed.

Lemma disconnect_tx_any h tx fClean c u u' coins : cache_inv c -> coins_ok h u -> tx_effect h tx u = Some (coins, u') ->
  exists f c', disconnect_loop h [undo_of tx coins] fClean c = Ok (Some f, c') /\ cache_inv c' /\ cache_abs c' = undone tx coins (cache_abs c).
Proof.
  intros Hc Hok [Hs ->]%tx_effect_spends. cbn [disconnect_loop undo_of]. unfold undone, tx_inputs in *.
  destruct (disconnect_outputs_any (GetHash tx) (IsCashBase tx) h (vout tx) 0 fClean c Hc) as (f & c1 & -> & Hc1 & Ha1). destruct (IsCashBase tx).
  - exists f, c1. split; [done|]. split; [done|exact Ha1].
  - cbn [vprevout]. unfold zlen. rewrite (Forall2_length Hs), Z.eqb_refl. cbn [negb].
    destruct (restore_inputs_any (zip (map prevout (vin tx)) coins) f c1 Hc1) as (f2 & c2 & -> & Hc2 & Ha2).
    { pose proof (coins_ok_spent _ _ _ _ Hok Hs) as Hcs. apply Forall_forall. intros [o cash] Hin. rewrite Forall_forall in Hcs. apply Hcs. by apply in_combine_r in Hin. }
    cbn [mbind result_bind]. exists f2, c2. split; [done|]. split; [done|]. by rewrite Ha2, Ha1.
Qed.

Lemma disconnect_txs_any h v : forall u undos u' fClean c, 0 < h < 2 ^ 31 -> cache_inv c -> coins_ok h u -> block_fresh u v -> Forall tx_ok v ->
  block_effect h v u = Some (undos, u') ->
  exists f c', disconnect_loop h (rev (zip_with undo_of v undos)) fClean c = Ok (Some f, c') /\ cache_inv c' /\ fixes (cache_abs c) u' (cache_abs c') u.
Proof.
  induction v as [|tx v IH]; intros u undos u' fClean c Hh Hc Hok Hf Hall He; cbn [block_effect] in He.
  { injection He as <- <-. exists fClean, c. split; [done|]. split; [done|]. apply fixes_refl. }
  apply Forall_cons_1 in Hall as [Htx Hall]. destruct (tx_effect h tx u) as [[coins u1]|] eqn:E1; [|done]. cbn in He.
  destruct (block_effect h v u1) as [[undos' u2]|] eqn:E2; [|done]. cbn in He. injection He as <- <-. cbn [zip_with rev].
  assert (Ho : Forall (fun x => CTxOut_IsNull x = false) (vout tx)) by (apply (bf_outputs _ _ Hf); apply list_elem_of_here).
  destruct (IH u1 undos' u2 fClean c Hh Hc (coins_ok_effect _ _ _ _ _ Hh Htx Ho Hok E1) (block_fresh_next _ _ _ _ _ _ Hf E1) Hall E2) as (f & c1 & E3 & Hc1 & Hf1).
  rewrite disconnect_loop_app, E3. cbn [mbind result_bind].
  destruct (disconnect_tx_any h tx f c1 u u1 coins Hc1 Hok E1) as (f2 & c2 & -> & Hc2 & Ha2). exists f2, c2. split; [done|]. split; [done|].
  eapply fixes_trans; [exact Hf1|]. rewrite Ha2. exact (undo_fixes h tx _ u coins u1 (block_fresh_first _ _ _ Hf) E1).
Qed.

Lemma DisconnectBlock_any h block pindex prev c u u' undo :
  cache_inv c -> one_cashbase (vtx block) -> Forall tx_ok (vtx block) -> 0 < Chain.nHeight (at_ h pindex) < 2 ^ 31 ->
  coins_ok (Chain.nHeight (at_ h pindex)) u -> block_fresh u (vtx block) -> block_effect (Chain.nHeight (at_ h pindex)) (vtx block) u = Some (undo, u') ->
  pprev (at_ h pindex) = Some prev -> uint256_IsNull (phashBlock (at_ h prev)) = false ->
  exists res c', DisconnectBlock h block pindex (Some (mkCBlockUndo (map mkCTxUndo (tail undo)))) c = Ok (res, c') /\ res <> DISCONNECT_FAILED /\
    cache_inv c' /\ fixes (cache_abs c) u' (cache_abs c') u.
Proof.
  intros Hc (cb & rest & Ev & Hcb & Hrest) Htx Hh Hok Hfr He Hprev Hnull. pose proof (block_effect_length _ _ _ _ _ He) as Hl. unfold DisconnectBlock.
  cbn [vtxundo]. assert ((zlen (map mkCTxUndo (tail undo)) + 1 =? zlen (vtx block)) = true) as ->.
  { rewrite Ev in *. unfold zlen. destruct undo as [|x undo]; [discriminate Hl|]. injection Hl as Hl. cbn [tail length]. rewrite length_map, Hl. apply Z.eqb_eq. lia. }
  cbn [negb]. destruct (disconnect_txs_any (Chain.nHeight (at_ h pindex)) (vtx block) u undo u' true c Hh Hc Hok Hfr Htx He) as (f & c1 & E1 & Hc1 & Hf1).
  rewrite Ev in E1, Hl |- *. rewrite (undo_pairs cb rest undo Hcb Hrest Hl), E1. cbn [mbind result_bind]. rewrite Hprev.
  destruct (SetBestBlock_ok c1 (phashBlock (at_ h prev)) Hc1 Hnull) as (Hi & Ha & _). eexists _, _. split; [done|]. split; [by destruct f|]. split; [exact Hi|]. by rewrite Ha.
Qed.

Lemma roll_spend_ok v : forall c, cache_inv c -> cache_inv (roll_spend v c) /\ cache_abs (roll_spend v c) = spend_inputs v (cache_abs c).
Proof.
  induction v as [|i v IH]; intros c Hc; cbn [roll_spend]; [done|]. pose proof (SpendCash_ok c (prevout i) Hc) as Hs.
  destruct (SpendCash (prevout i) c) as [r c1]. destruct Hs as (Hc1 & Ha1 & _). cbn [snd]. destruct (IH c1 Hc1) as [H1 H2]. split; [done|]. by rewrite H2, Ha1.
Qed.

Lemma roll_txs_ok h v : forall c u undo u', cache_inv c -> (forall tx, tx ∈ v -> Forall (fun x => CTxOut_IsNull x = false) (vout tx)) ->
  block_effect h v u = Some (undo, u') ->
  exists c', roll_txs h v c = Ok c' /\ cache_inv c' /\ fixes (cache_abs c) u (cache_abs c') u'.
Proof.
  induction v as [|tx v IH]; intros c u undo u' Hc Hn He; cbn [block_effect roll_txs] in *.
  { injection He as <- <-. exists c. split; [done|]. split; [done|]. apply fixes_refl. }
  destruct (tx_effect h tx u) as [[coins u1]|] eqn:E1; [|done]. cbn in He. destruct (block_effect h v u1) as [[un u2]|] eqn:E2; [|done]. cbn in He. injection He as <- <-.
  set (c0 := if negb (IsCashBase tx) then _ else _).
  assert (Hc0 : cache_inv c0 /\ cache_abs c0 = spend_inputs (tx_inputs tx) (cache_abs c)) by (unfold c0, tx_inputs; destruct (IsCashBase tx); [done|by apply roll_spend_ok]).
  destruct Hc0 as [Hi0 Ha0]. destruct (AddCash_loop_ok (GetHash tx) (vout tx) h (IsCashBase tx) true 0 c0 Hi0) as (c1 & E3 & Hc1 & Ha1 & _); [apply Hn, list_elem_of_here|done|].
  unfold AddCash_tx. rewrite E3. cbn [mbind result_bind]. destruct (IH c1 u1 un u2 Hc1) as (c2 & -> & Hc2 & Hf2); [intros tx' Htx'; by apply Hn, list_elem_of_further|done|].
  exists c2. split; [done|]. split; [done|]. eapply fixes_trans; [|exact Hf2]. rewrite Ha1, Ha0. by eapply tx_fixes.
Qed.
End Views.

(** ** Along the chain *)
Section Walk.
Context `{Arr : !Arrivals} (env : ScriptEnv) (params : Params) (scripts : gset uint256) {T : Type} (s : ChainState T).
Context {S : Type} `{!CashView S} `{!CashViewOk S} `{!ScriptMemory} `{!ScriptMemoryOk}.
Context (n N : Z) (failed : gset Ptr) (caches : VersionBitsCache) (unlinked : list (Ptr * Ptr)).
Context (Hix : index_ok env params scripts n N (cs_tree s) failed (block_files s) (undo_files s) caches unlinked).
Implicit Types (c : CCashViewCache S).
Abbreviation h := (cs_heap s).
Abbreviation reach := (reaches env params scripts h (block_files s) (undo_files s)).

Lemma walk_heap : heap_ok h.
Proof. exact (ix_heap _ _ _ _ _ _ _ _ _ _ _ Hix). Qed.

(** What is known of a block that was connected. *)
Lemma walk_block p q u' : reach p u' -> pprev (at_ h p) = Some q ->
  exists b u undo, reach q u /\ ReadBlockFromDisk params s p = Some b /\ undo_files s !! p = Some (mkCBlockUndo (map mkCTxUndo (tail undo))) /\
    block_good params b /\ block_fresh u (vtx b) /\ block_effect (Chain.nHeight (at_ h p)) (vtx b) u = Some (undo, u') /\
    coins_ok (Chain.nHeight (at_ h p)) u /\ 0 < Chain.nHeight (at_ h p) < 2 ^ 31 /\ Chain.nHeight (at_ h p) = Chain.nHeight (at_ h q) + 1.
Proof.
  intros Hr Hq. pose proof (reaches_in _ _ _ _ _ _ _ _ Hr) as Hp. pose proof (prev_in _ walk_heap _ _ Hp Hq) as Hqs.
  destruct (reaches_inv _ _ _ _ _ _ _ _ _ Hr Hq) as (b & u & undo & Hrq & Hb & Hcon & Hun).
  destruct (ix_blocks _ _ _ _ _ _ _ _ _ _ _ Hix p b Hb) as (_ & Hgood & _). pose proof (connects_effect _ _ _ _ _ _ _ _ _ Hcon) as Heff.
  destruct (ix_height _ _ _ _ _ _ _ _ _ _ _ Hix p Hp) as [_ Hlt]. pose proof (ix_n _ _ _ _ _ _ _ _ _ _ _ Hix) as Hn.
  destruct (ix_height _ _ _ _ _ _ _ _ _ _ _ Hix q Hqs) as [Hq0 _]. destruct (at_ok _ walk_heap p Hp) as [_ Hprev _]. rewrite Hq in Hprev. destruct Hprev as [_ Hhq].
  fold h in Hlt, Hq0. exists b, u, undo. split; [done|]. split; [by eapply read_stored|]. split; [done|]. split; [done|].
  split; [destruct Hcon as (fees & Hnew & _); by eapply block_good_fresh|]. split; [done|]. split; [|lia].
  eapply coins_ok_later; [|apply (ix_coins _ _ _ _ _ _ _ _ _ _ _ Hix q u Hrq)]. fold h. lia.
Qed.

Lemma roll_back_ok fuel : forall p f u uf c, reach p u -> reach f uf -> ancestor h p f -> cache_inv c ->
  Chain.nHeight (at_ h p) - Chain.nHeight (at_ h f) <= Z.of_nat fuel ->
  exists c', roll_back params s fuel (Some p) (Some f) c = Ok (true, c') /\ cache_inv c' /\ fixes (cache_abs c) u (cache_abs c') uf.
Proof.
  induction fuel as [|fuel IH]; intros p f u uf c Hp Hf Ha Hc Hfuel; apply ancestor_step in Ha as [-> |(q & Hq & Ha)]; cbn [roll_back];
    try (rewrite bool_decide_eq_true_2 by done; exists c; split; [done|]; split; [done|]; rewrite (reaches_fun _ _ _ _ _ _ _ _ Hp uf Hf); apply fixes_refl);
    destruct (walk_block p q u Hp Hq) as (b & uq & undo & Hrq & Hread & Hun & Hgood & Hfresh & Heff & Hco & Hh & Ehq);
    destruct (ancestor_in _ _ _ walk_heap (reaches_in _ _ _ _ _ _ _ _ Hrq) Ha) as [_ Hle]; [lia|].
  assert (p <> f) as Hne by (intros ->; lia). rewrite bool_decide_eq_false_2 by congruence. rewrite (proj2 (Z.ltb_lt _ _) (proj1 Hh)), Hread, Hun.
  assert (Hnull : uint256_IsNull (phashBlock (at_ h q)) = false) by apply (ix_hash _ _ _ _ _ _ _ _ _ _ _ Hix q (reaches_in _ _ _ _ _ _ _ _ Hrq)).
  destruct (DisconnectBlock_any h b p q c uq u undo Hc (proj1 (block_good_fine _ _ Hgood)) (bg_txs _ _ Hgood) Hh Hco Hfresh Heff Hq Hnull) as (res & c1 & -> & Hres & Hc1 & Hf1).
  cbn [mbind result_bind]. rewrite Hq. destruct (IH q f uq uf c1 Hrq Hf Ha Hc1) as (c2 & E2 & Hc2 & Hf2); [lia|]. exists c2.
  destruct res; [| |done]; (split; [exact E2|]; split; [exact Hc2|]; by eapply fixes_trans).
Qed.

Lemma RollforwardBlock_ok p q u u' c : reach p u' -> reach q u -> pprev (at_ h p) = Some q -> cache_inv c ->
  exists c', RollforwardBlock params s p c = Ok (true, c') /\ cache_inv c' /\ fixes (cache_abs c) u (cache_abs c') u'.
Proof.
  intros Hp Hrq Hq Hc. destruct (walk_block p q u' Hp Hq) as (b & uq & undo & Hrq' & Hread & _ & _ & Hfresh & Heff & _).
  rewrite (reaches_fun _ _ _ _ _ _ _ _ Hrq uq Hrq') in *. unfold RollforwardBlock. rewrite Hread.
  destruct (roll_txs_ok (Chain.nHeight (at_ h p)) (vtx b) c u undo u' Hc (bf_outputs _ _ Hfresh) Heff) as (c' & -> & Hc' & Hf). by exists c'.
Qed.

Lemma roll_forward_ok new unew k : forall q u c, reach new unew -> reach q u -> ancestor h new q -> cache_inv c ->
  Chain.nHeight (at_ h new) - Chain.nHeight (at_ h q) = Z.of_nat k ->
  exists c', roll_forward params s k (Chain.nHeight (at_ h q) + 1) new c = Ok (true, c') /\ cache_inv c' /\ fixes (cache_abs c) u (cache_abs c') unew.
Proof.
  induction k as [|k IH]; intros q u c Hn Hq Ha Hc Hk; pose proof (reaches_in _ _ _ _ _ _ _ _ Hn) as Hns; cbn [roll_forward].
  { pose proof (ancestor_same _ _ _ walk_heap Hns Ha ltac:(lia)) as ->. exists c. split; [done|]. split; [done|].
    rewrite (reaches_fun _ _ _ _ _ _ _ _ Hn u Hq). apply fixes_refl. }
  destruct Ha as [m Hm]. destruct (back_height h walk_heap _ _ _ Hns Hm) as (_ & Hqs & Hhq). assert (m = (k + 1)%nat) as -> by lia.
  destruct (ix_height _ _ _ _ _ _ _ _ _ _ _ Hix q Hqs) as [Hq0 _]. rewrite back_add in Hm. destruct (back h k new) as [p|] eqn:Hp; [|done]. cbn in Hm.
  destruct (pprev (at_ h p)) as [q'|] eqn:Hpq; [|done]. injection Hm as ->. rewrite (GetAncestor_ok h walk_heap) by done.
  destruct (back_height h walk_heap _ _ _ Hns Hp) as (_ & Hps & Hhp). fold h in Hq0. rewrite (proj2 (andb_true_iff _ _)) by (rewrite !Z.leb_le; lia).
  replace (Z.to_nat (Chain.nHeight (at_ h new) - (Chain.nHeight (at_ h q) + 1))) with k by lia. rewrite Hp. cbn [mbind result_bind].
  destruct (reaches_ancestor _ _ _ _ _ _ _ _ p Hn) as [up Hup]; [by exists k|]. destruct (RollforwardBlock_ok p q u up c Hup Hq Hpq Hc) as (c1 & -> & Hc1 & Hf1).
  cbn [mbind result_bind negb]. destruct (IH p up c1 Hn Hup) as (c2 & E2 & Hc2 & Hf2); [by exists k|done|lia|].
  exists c2. replace (Chain.nHeight (at_ h q) + 1 + 1) with (Chain.nHeight (at_ h p) + 1) by lia. split; [exact E2|]. split; [exact Hc2|]. by eapply fixes_trans.
Qed.

(** The whole replay, from a view that holds for every output what the old or the
    new chain has. Without an old chain, it starts above the genesis block. *)
Definition replay_from (old : option Ptr) (u : utxo) : Prop := match old with Some p => reach p u | None => u = ∅ end.
Definition replay_fork (old : option Ptr) (new : Ptr) (fork : option Ptr) : Prop :=
  match old with Some p => exists f, fork = Some f /\ ancestor h p f /\ ancestor h new f | None => fork = None end.

Lemma replay_ok old new fork u unew c : replay_from old u -> reach new unew -> replay_fork old new fork -> cache_inv c ->
  (forall o, cache_abs c !! o = u !! o \/ cache_abs c !! o = unew !! o) ->
  exists c', replay params s new old fork c = Ok (true, c') /\ cache_inv c' /\ cache_abs c' = unew.
Proof.
  intros Ho Hn Hf Hc Hmix. unfold replay. pose proof (reaches_in _ _ _ _ _ _ _ _ Hn) as Hns. destruct old as [p|]; cbn [replay_from replay_fork] in *.
  - destruct Hf as (f & -> & Hpf & Hnf). destruct (reaches_ancestor _ _ _ _ _ _ _ _ f Hn Hnf) as [uf Huf].
    destruct (ancestor_in _ _ _ walk_heap Hns Hnf) as [Hfs Hle]. destruct (ix_height _ _ _ _ _ _ _ _ _ _ _ Hix f Hfs) as [Hf0 _]. fold h in Hf0.
    destruct (ancestor_in _ _ _ walk_heap (reaches_in _ _ _ _ _ _ _ _ Ho) Hpf) as [_ Hle'].
    destruct (roll_back_ok (Z.to_nat (Chain.nHeight (at_ h p) + 1)) p f u uf c Ho Huf Hpf Hc ltac:(lia)) as (c1 & -> & Hc1 & Hf1). cbn [mbind result_bind negb].
    destruct (roll_forward_ok new unew (Z.to_nat (Chain.nHeight (at_ h new) - Chain.nHeight (at_ h f))) f uf c1 Hn Huf Hnf Hc1 ltac:(lia)) as (c2 & -> & Hc2 & Hf2).
    exists c2. split; [done|]. split; [done|]. exact (fixes_mix _ _ _ _ (fixes_trans _ _ _ _ _ _ Hf1 Hf2) Hmix).
  - subst fork u. cbn [Z.to_nat]. change (roll_back params s (Z.to_nat (0 + 1)) None None c) with (Ok (A := bool * CCashViewCache S) (true, c)). cbn [mbind result_bind negb].
    destruct (ix_height _ _ _ _ _ _ _ _ _ _ _ Hix new Hns) as [Hn0 _]. fold h in Hn0.
    destruct (back_spec h walk_heap (Z.to_nat (Chain.nHeight (at_ h new))) new Hns) as (g & Hg & Hgs & Hh0); [lia|].
    assert (Hhg : Chain.nHeight (at_ h g) = 0) by lia. destruct (at_ok _ walk_heap g Hgs) as [_ Hprev _].
    assert (Hgu : reach g ∅). { apply reaches_genesis; [done|]. destruct (pprev (at_ h g)) as [x|]; [|done]. destruct Hprev as [Hx Hhx].
      destruct (ix_height _ _ _ _ _ _ _ _ _ _ _ Hix x Hx) as [Hx0 _]. fold h in Hx0. lia. }
    destruct (roll_forward_ok new unew (Z.to_nat (Chain.nHeight (at_ h new) - 0)) g ∅ c Hn Hgu) as (c2 & E2 & Hc2 & Hf2); [by eexists|done|lia|].
    rewrite Hhg in E2. exists c2. split; [exact E2|]. split; [done|]. exact (fixes_mix _ _ _ _ Hf2 Hmix).
Qed.
End Walk.

(** ** Nothing is written meanwhile *)
Section Still.
Context (params : Params) {T : Type} (s : ChainState T) {S : Type} `{!CashView S} `{!ScriptMemory}.
Context (Hstill : forall o (v : S), (view_GetCash o v).2 = v).
Implicit Types (c : CCashViewCache S).

(** The view a result is on. *)
Definition on {A} (v : S) (r : result (A * CCashViewCache S)) : Prop := forall a c, r = Ok (a, c) -> base c = v.

Lemma on_ok {A} v (a : A) c : base c = v -> on v (Ok (a, c)).
Proof. by intros ? ? ? [= _ <-]. Qed.

Lemma on_throw {A} v e : on v (Throw e : result (A * CCashViewCache S)).
Proof. by intros ? ?. Qed.

Lemma on_bind {A B} v (r : result (A * CCashViewCache S)) (k : A * CCashViewCache S -> result (B * CCashViewCache S)) :
  on v r -> (forall a c, base c = v -> on v (k (a, c))) -> on v (r ≫= k).
Proof. intros Hr Hk. destruct r as [[a c]|e]; [|apply on_throw]. cbn [mbind result_bind]. apply Hk. by eapply Hr. Qed.

Lemma FetchCash_still o c : base (FetchCash o c).2 = base c.
Proof. unfold FetchCash. destruct (cacheCash c !! o); [done|]. pose proof (Hstill o (base c)) as Hs. by destruct (view_GetCash o (base c)) as [[x|] b]. Qed.

Lemma SpendCash_still o c : base (SpendCash o c).2 = base c.
Proof. unfold SpendCash. pose proof (FetchCash_still o c) as <-. destruct (FetchCash o c) as [[it|] c1]; cbn [snd]; [|done]. by destruct (has_flag FRESH it). Qed.

Lemma HaveCash_still o c : base (HaveCash o c).2 = base c.
Proof. unfold HaveCash. pose proof (FetchCash_still o c) as <-. by destruct (FetchCash o c) as [[it|] c1]. Qed.

Lemma AccessByTxid_still k txid : forall n c, base (AccessByTxid_loop k txid n c).2 = base c.
Proof.
  induction k as [|k IH]; intros n c; cbn [AccessByTxid_loop]; [done|]. unfold AccessCash. pose proof (FetchCash_still (mkCOutPoint txid n) c) as <-.
  destruct (FetchCash _ c) as [[it|] c1]; cbn [snd]; (destruct (negb _); [done|apply IH]).
Qed.

Lemma AddCash_still o cash w c c' : AddCash o cash w c = Ok c' -> base c' = base c.
Proof.
  unfold AddCash, assert_then. destruct (negb _); [|done]. destruct (IsUnspendable _); [by intros [= <-]|].
  destruct (match cacheCash c !! o with Some it => _ | None => _ end) as [it usage]. destruct (negb w && _); [done|]. by intros [= <-].
Qed.

Lemma AddCash_loop_still txid v h cb check : forall i c c', AddCash_loop txid i v h cb check c = Ok c' -> base c' = base c.
Proof.
  induction v as [|x v IH]; intros i c c'; cbn [AddCash_loop]; [by intros [= <-]|].
  assert (Hc : base (if check then HaveCash (mkCOutPoint txid i) c else (cb, c)).2 = base c) by (destruct check; [apply HaveCash_still|done]).
  destruct (if check then _ else _) as [w c1]. cbn [snd] in Hc. destruct (AddCash _ _ w c1) as [c2|] eqn:E; [|done]. cbn [mbind result_bind].
  intros ->%IH. by rewrite (AddCash_still _ _ _ _ _ E).
Qed.

Lemma ApplyTxInUndo_still undo o c : on (base c) (ApplyTxInUndo undo o c).
Proof.
  unfold ApplyTxInUndo. pose proof (HaveCash_still o c) as Hh. destruct (HaveCash o c) as [have c1]. cbn [snd] in Hh.
  assert (Hadd : forall w c2, base c2 = base c -> on (base c) (c3 ← AddCash o w (negb (negb have)) c2; mret (if negb have then DISCONNECT_OK else DISCONNECT_UNCLEAN, c3))).
  { intros w c2 Hc2. destruct (AddCash _ _ _ c2) as [c3|] eqn:E; [|apply on_throw]. apply on_ok. by rewrite (AddCash_still _ _ _ _ _ E). }
  destruct (Cash.nHeight undo =? 0); [|by apply Hadd]. pose proof (AccessByTxid_still (Z.to_nat MAX_OUTPUTS_PER_BLOCK) (op_hash o) 0 c1) as Hx.
  unfold AccessByTxid. destruct (AccessByTxid_loop _ _ _ c1) as [alt c2]. cbn [snd] in Hx. rewrite Hh in Hx. destruct (negb (IsSpent alt)); [by apply Hadd|by apply on_ok].
Qed.

Lemma disconnect_outputs_still txid cb h v : forall o f c, base (disconnect_outputs txid cb h v o f c).2 = base c.
Proof.
  induction v as [|x v IH]; intros o f c; cbn [disconnect_outputs]; [done|]. destruct (negb _); [|apply IH].
  pose proof (SpendCash_still (mkCOutPoint txid o) c) as <-. destruct (SpendCash _ c) as [r c1]. apply IH.
Qed.

Lemma restore_inputs_still l : forall f c v, base c = v -> on v (restore_inputs l f c).
Proof.
  induction l as [|[o cash] l IH]; intros f c v <-; cbn [restore_inputs]; [by apply on_ok|]. apply on_bind; [apply ApplyTxInUndo_still|].
  intros res c1 Hc1. case_bool_decide; [by apply on_ok|by apply IH].
Qed.

Lemma disconnect_loop_still h l : forall f c v, base c = v -> on v (disconnect_loop h l f c).
Proof.
  induction l as [|[tx undo] l IH]; intros f c v <-; cbn [disconnect_loop]; [by apply on_ok|].
  pose proof (disconnect_outputs_still (GetHash tx) (IsCashBase tx) h (vout tx) 0 f c) as Hd. destruct (disconnect_outputs _ _ _ _ _ _ c) as [f1 c1]. cbn [snd] in Hd.
  destruct undo as [undo|]; [|by apply IH]. destruct (negb _); [by apply on_ok|]. apply on_bind; [by apply restore_inputs_still|].
  intros [f2|] c2 Hc2; [by apply IH|by apply on_ok].
Qed.

Lemma DisconnectBlock_still h block p undo c v : base c = v -> on v (DisconnectBlock h block p undo c).
Proof.
  intros Hc. unfold DisconnectBlock. destruct undo as [undo|]; [|by apply on_ok]. destruct (negb _); [by apply on_ok|].
  apply on_bind; [by apply disconnect_loop_still|]. intros [f|] c1 Hc1; [|by apply on_ok]. destruct (pprev (at_ h p)); [by apply on_ok|apply on_throw].
Qed.

Lemma roll_spend_still v : forall c, base (roll_spend v c) = base c.
Proof. induction v as [|i v IH]; intros c; cbn [roll_spend]; [done|]. by rewrite IH, SpendCash_still. Qed.

Lemma roll_txs_still h v : forall c c', roll_txs h v c = Ok c' -> base c' = base c.
Proof.
  induction v as [|tx v IH]; intros c c'; cbn [roll_txs]; [by intros [= <-]|]. unfold AddCash_tx. destruct (AddCash_loop _ _ _ _ _ _ _) as [c1|] eqn:E; [|done].
  cbn [mbind result_bind]. intros ->%IH. rewrite (AddCash_loop_still _ _ _ _ _ _ _ _ E). destruct (negb _); [apply roll_spend_still|done].
Qed.

Lemma roll_back_still fuel f : forall p c v, base c = v -> on v (roll_back params s fuel p f c).
Proof.
  induction fuel as [|fuel IH]; intros p c v Hc; cbn [roll_back]; (case_bool_decide; [by apply on_ok|]); [apply on_throw|]. destruct p as [p|]; [|apply on_throw].
  destruct (0 <? _); [|by apply IH]. destruct (ReadBlockFromDisk params s p) as [b|]; [|by apply on_ok]. apply on_bind; [by apply DisconnectBlock_still|].
  intros [] c1 Hc1; [by apply IH..|by apply on_ok].
Qed.

Lemma roll_forward_still new k : forall h c v, base c = v -> on v (roll_forward params s k h new c).
Proof.
  induction k as [|k IH]; intros h c v Hc; cbn [roll_forward]; [by apply on_ok|]. destruct (GetAncestor _ new h) as [[p|]|]; [|apply on_throw..]. cbn [mbind result_bind].
  apply on_bind; [|intros [] c1 Hc1; [by apply IH|by apply on_ok]]. unfold RollforwardBlock. destruct (ReadBlockFromDisk params s p) as [b|]; [|by apply on_ok].
  destruct (roll_txs _ _ c) as [c1|] eqn:E; [|apply on_throw]. apply on_ok. by rewrite (roll_txs_still _ _ _ _ E).
Qed.

Lemma replay_still new old fork c : on (base c) (replay params s new old fork c).
Proof.
  unfold replay. apply on_bind; [by apply roll_back_still|]. intros [] c1 Hc1; [by apply roll_forward_still|by apply on_ok].
Qed.
End Still.

(** ** The database *)
Section Recovery.
Context `{Arr : !Arrivals} (env : ScriptEnv) (params : Params) (scripts : gset uint256) {T : Type} (s : ChainState T) `{!ScriptMemory} `{!ScriptMemoryOk}.

(** The database as a view that is only read: what a write would do is left out. *)
#[local] Instance read_view : CashView CCashViewDB := {
  view_GetCash o db := (db_GetCash o db, db);
  view_GetBestBlock db := (db_GetBestBlock db, db);
  view_BatchWrite m h db := Ok (true, mkDB (apply_batch m (db_cash db)) (Some h) None);
}.

#[local] Program Instance read_view_ok : CashViewOk CCashViewDB := {
  view_inv db := forall o c, db_cash db !! o = Some c -> IsSpent c = false;
  view_abs := db_cash;
  view_best := db_GetBestBlock;
}.
Next Obligation. intros db o c Hdb. apply Hdb. Qed.
Next Obligation. done. Qed.
Next Obligation. done. Qed.
Next Obligation. intros db m h Hdb _ _. eexists. split; [done|]. split_and!; [|done..]. cbn. intros o c. by apply apply_batch_unspent. Qed.

Lemma replay_reads over new old fork db :
  @replay params T s CCashViewDB (CCashViewDB_view over) _ new old fork (CCashViewCache_new db) = replay params s new old fork (CCashViewCache_new db).
Proof. reflexivity. Qed.

(** A database that a write from the chain [old] to the chain [new] left in the
    middle: the power went after some but not all of the batches, and maybe again
    while an earlier interruption was being repaired. *)
Abbreviation h := (cs_heap s).
Context (old : option Ptr) (new : Ptr) (u u' : utxo).

Definition hash_of (p : option Ptr) : uint256 := match p with Some p => phashBlock (at_ h p) | None => uint256_null end.

Inductive interrupted : CCashViewDB -> Prop :=
  | interrupted_write over m batches j : apply_batch m u = u' ->
      db_all_batches over (map_to_list m) (hash_of (Some new)) (mkDB u (phashBlock ∘ at_ h <$> old) None) = Ok batches -> (0 < j < length batches)%nat ->
      interrupted (foldl (fun db b => WriteBatch b db) (mkDB u (phashBlock ∘ at_ h <$> old) None) (take j batches))
  | interrupted_replay over db fork cache batches j : interrupted db ->
      replay_range s (hash_of (Some new)) (hash_of old) = Ok (Some (new, old, fork)) ->
      @replay params T s CCashViewDB (CCashViewDB_view over) _ new old fork (CCashViewCache_new db) = Ok (true, cache) ->
      db_all_batches over (map_to_list (cacheCash cache)) (hash_of (Some new)) (base cache) = Ok batches -> (j < length batches)%nat ->
      interrupted (foldl (fun db b => WriteBatch b db) (base cache) (take j batches)).

(** What every such database looks like. *)
Record between (db : CCashViewDB) : Prop := {
  bt_best : db_best db = None;
  bt_heads : db_heads db = Some [hash_of (Some new); hash_of old];
  bt_mix : forall o, db_cash db !! o = u !! o \/ db_cash db !! o = u' !! o;
}.

Context (n N : Z) (failed : gset Ptr) (caches : VersionBitsCache) (unlinked : list (Ptr * Ptr)).
Context (Hix : index_ok env params scripts n N (cs_tree s) failed (block_files s) (undo_files s) caches unlinked).
Abbreviation reach := (reaches env params scripts h (block_files s) (undo_files s)).
Context (Hold : replay_from env params scripts s old u) (Hnew : reach new u').

Lemma reach_unspent p w : reach p w -> forall o c, w !! o = Some c -> IsSpent c = false.
Proof. intros Hr o c Ho. destruct (ix_coins _ _ _ _ _ _ _ _ _ _ _ Hix p w Hr o c Ho) as (? & _). done. Qed.

Lemma from_unspent o c : u !! o = Some c -> IsSpent c = false.
Proof. destruct old as [p|]; cbn [replay_from] in Hold; [by apply (reach_unspent p)|]. by rewrite Hold, lookup_empty. Qed.

Lemma between_unspent db : between db -> forall o c, db_cash db !! o = Some c -> IsSpent c = false.
Proof. intros Hb o c Ho. destruct (bt_mix _ Hb o) as [E|E]; rewrite E in Ho; [by apply (from_unspent o)|by apply (reach_unspent new u' Hnew o)]. Qed.

Lemma hash_known p : is_Some (h !! p) -> uint256_IsNull (phashBlock (at_ h p)) = false /\ mapBlockIndex (cs_tree s) !! phashBlock (at_ h p) = Some p.
Proof. intros Hp. split; [apply (ix_hash _ _ _ _ _ _ _ _ _ _ _ Hix p Hp)|]. apply (tree_hashes _ (ix_tree _ _ _ _ _ _ _ _ _ _ _ Hix) p Hp). Qed.

(** The blocks to replay are found. *)
Lemma range_ok : exists fork, replay_range s (hash_of (Some new)) (hash_of old) = Ok (Some (new, old, fork)) /\ replay_fork s old new fork.
Proof.
  pose proof (reaches_in _ _ _ _ _ _ _ _ Hnew) as Hns. unfold replay_range, hash_of. destruct (hash_known new Hns) as [_ ->].
  destruct old as [p|]; cbn [replay_fork replay_from] in *; [|by exists None]. pose proof (reaches_in _ _ _ _ _ _ _ _ Hold) as Hp. destruct (hash_known p Hp) as [-> ->].
  pose proof (ix_heap _ _ _ _ _ _ _ _ _ _ _ Hix) as Hh. destruct (LastCommonAncestor_ok h Hh p new Hp Hns) as (r & -> & Hr). cbn [mbind result_bind].
  destruct (common_root _ _ _ _ _ _ _ _ _ _ _ Hix p new Hp Hns) as (g & G1 & G2). destruct r as [f|]; [|by destruct (Hr g)].
  exists (Some f). split; [done|]. exists f. split; [done|]. by destruct Hr as (? & ? & _).
Qed.

Lemma replay_between db fork : between db -> replay_fork s old new fork ->
  exists cache, replay params s new old fork (CCashViewCache_new db) = Ok (true, cache) /\ base cache = db /\ apply_batch (cacheCash cache) (db_cash db) = u'.
Proof.
  intros Hb Hf. pose proof (between_unspent db Hb) as Hun. set (c := CCashViewCache_new db).
  assert (Hc : cache_inv c) by (split; [exact Hun|intros o e; cbn; by rewrite lookup_empty|reflexivity]).
  assert (Ha : cache_abs c = db_cash db) by (apply map_eq; intros o; unfold cache_abs; by rewrite lookup_overlay).
  destruct (replay_ok env params scripts s n N failed caches unlinked Hix old new fork u u' c Hold Hnew Hf Hc) as (cache & E & Hi & Hu); [intros o; rewrite Ha; apply (bt_mix _ Hb)|].
  pose proof (replay_still params s (fun _ _ => eq_refl) new old fork c true cache E) as Hbase. exists cache. split; [exact E|]. split; [exact Hbase|].
  rewrite <- Hu, <- (apply_batch_overlay cache Hi), Hbase. done.
Qed.

Lemma between_tip db : between db -> old_tip (hash_of (Some new)) db = Ok (hash_of old).
Proof. intros [Hb Hh _]. unfold old_tip, db_GetBestBlock, db_GetHeadBlocks, assert_then. rewrite Hb, Hh. cbn. by rewrite bool_decide_eq_true_2. Qed.

(** Part of a write that ends at the new chain. *)
Lemma between_partial over m db batches j : (forall o, db_cash db !! o = u !! o \/ db_cash db !! o = u' !! o) -> apply_batch m (db_cash db) = u' ->
  old_tip (hash_of (Some new)) db = Ok (hash_of old) -> db_all_batches over (map_to_list m) (hash_of (Some new)) db = Ok batches -> (0 < j < length batches)%nat ->
  between (foldl (fun db b => WriteBatch b db) db (take j batches)).
Proof.
  intros Hmix Hm Ht Hall Hj. destruct (db_prefix_state over db _ _ _ j batches (NoDup_fst_map_to_list m) Ht Hall Hj) as (l1 & l2 & Hl & ->). split; [done..|].
  intros o. cbn [db_cash partial_write]. destruct (apply_batch_mix m l1 l2 (db_cash db) o Hl) as [-> | ->]; [apply Hmix|right; by rewrite Hm].
Qed.

Lemma interrupted_between db : interrupted db -> between db.
Proof.
  induction 1 as [over m batches j Hm Hall Hj|over db fork cache batches j _ IH Hrange Hrep Hall Hj].
  - eapply between_partial; [intros o; by left|exact Hm| |exact Hall|exact Hj]. destruct old as [p|]; [|done]. cbn [replay_from] in Hold.
    unfold old_tip. cbn. by destruct (hash_known p (reaches_in _ _ _ _ _ _ _ _ Hold)) as [-> _].
  - destruct range_ok as (fork' & Er & Hf). rewrite Er in Hrange. injection Hrange as <-.
    destruct (replay_between db fork' IH Hf) as (cache' & E & Hbase & Hu). rewrite replay_reads, E in Hrep. injection Hrep as <-. rewrite Hbase in *.
    destruct j as [|j]; [exact IH|]. eapply between_partial; [apply (bt_mix _ IH)|exact Hu|by apply between_tip|exact Hall|lia].
Qed.

Lemma ReplayBlocks_ok over db : between db -> ReplayBlocks params s over db = Ok (true, mkDB u' (Some (hash_of (Some new))) None).
Proof.
  intros Hb. unfold ReplayBlocks, db_GetHeadBlocks. rewrite (bt_heads _ Hb). change (default [] (Some [hash_of (Some new); hash_of old])) with [hash_of (Some new); hash_of old]. cbn iota. destruct range_ok as (fork & -> & Hf). cbn [mbind result_bind].
  rewrite replay_reads. destruct (replay_between db fork Hb Hf) as (cache & -> & Hbase & Hu). cbn [mbind result_bind negb].
  unfold Flush. cbn [view_BatchWrite SetBestBlock cacheCash hashBlock base]. rewrite Hbase. cbn [db_view CCashViewDB_view view_BatchWrite].
  destruct (hash_known new (reaches_in _ _ _ _ _ _ _ _ Hnew)) as [Hnull _].
  rewrite (db_BatchWrite_complete over db (cacheCash cache) (phashBlock (at_ h new)) Hnull (ex_intro _ _ (between_tip db Hb))). cbn. by rewrite Hu.
Qed.
End Recovery.

(** ** An example: the first block of a node is lost half-way *)
#[local] Existing Instances no_script_memory no_script_memory_ok node_arrivals.

Definition node_first : result (ChainState MapView) := s ← node_start; node_run (take 1 node_messages) s.

Lemma node_first_coins : match node_first with Ok s => bool_decide (cache_abs (pcashTip s) = ∅) | Throw _ => true end = false.
Proof. vm_compute. reflexivity. Qed.

Lemma node_first_ok : exists s tip, node_first = Ok s /\ (exists man n N, node spend_env node_params ∅ man n N s tip) /\ cache_abs (pcashTip s) <> ∅.
Proof.
  destruct (start_ok spend_env node_params (spend_cfg 0) (proj1 node_setting_ok) node_machine node_genesis (nw_genesis _ _ regtest_ok) node_view (0, 8) 100 (nw_deployments _ _ regtest_ok) node_view_inv) as (s1 & p & E1 & Hno & Hsize);
    [apply map_eq; intros o; unfold cache_abs; by rewrite lookup_overlay|reflexivity|].
  destruct (run_ok spend_env node_params (spend_cfg 0) ∅ node_setting_ok true [] (fun _ => 0) node_machine 100 (take 1 node_messages) ∅ 1 (zlen (vtx node_genesis)) s1 p Hno) as (s & tip & man & E2 & Hno' & _).
  { apply Forall_take, node_messages_in. }
  { vm_compute. discriminate. }
  { vm_compute. reflexivity. }
  { unfold run_bound. rewrite Hsize. vm_compute. discriminate. }
  exists s, tip. assert (E : node_first = Ok s) by (unfold node_first, node_start, node_run; rewrite E1; exact E2). split; [exact E|]. split; [by eexists _, _, _|].
  pose proof node_first_coins as Hc. rewrite E in Hc. by apply bool_decide_eq_false_1 in Hc.
Qed.

(** All of a set as the entries of a cache. *)
Definition all_dirty (u : utxo) : CCashMap := (fun c => mkEntry c DIRTY) <$> u.

Lemma all_dirty_ok u : (forall o c, u !! o = Some c -> IsSpent c = false) -> apply_batch (all_dirty u) ∅ = u.
Proof.
  intros Hu. apply map_eq. intros o. unfold all_dirty. rewrite lookup_apply_batch, lookup_fmap, lookup_empty. destruct (u !! o) as [c|] eqn:E; cbn; [|done].
  change (has_flag DIRTY (mkEntry c DIRTY)) with true. cbn. apply unspent_id, (Hu o c E).
Qed.

(** With a batch for every entry, one is not enough. *)
Lemma many_batches l hash db batches : db_all_batches (fun _ => true) l hash db = Ok batches -> length batches = Datatypes.S (length l).
Proof.
  unfold db_all_batches, assert_then. destruct (negb _); [|done]. destruct (old_tip hash db) as [tip|]; [|done]. cbn [mbind result_bind].
  assert (Hl : forall k b, length (db_batches (fun _ => true) k b l).1 = length l).
  { induction l as [|[o e] l IH]; intros k b; cbn [db_batches]; [done|]. specialize (IH (Datatypes.S k) []). destruct (db_batches _ _ _ l) as [w la]. cbn in *. by rewrite IH. }
  specialize (Hl 0%nat [EraseBest; WriteHeads [hash; tip]]). destruct (db_batches _ _ _ l) as [w la]. intros [= <-]. rewrite length_app. cbn in *. lia.
Qed.

(** * Properties *)


